(* ===== verification/_CoqProject ===== *)
-Q . S2P
Prelude.v
Paths.v
Effects.v
PyVal.v
Text.v
Ids.v
CheckpointIndex.v
Lineage.v
CheckpointIndexFacts.v
CheckpointIndexSpec.v
FileSystem.v
World.v
StoreFiles.v
Store.v
StoreRecovery.v
Backend.v
SessionState.v
SessionOps.v
SessionWp.v
Scrub.v
RollbackState.v
RecoveryProof.v
RollbackProof.v
SessionReady.v
RollbackSpec.v
CheckpointProof.v
StoreSafety.v
Registry.v
Dispatch.v
DispatchSpec.v
Lifecycle.v
Extensions.v
ExtensionsSpec.v
Config.v
Kernel.v
Cgroup.v
CgroupSpec.v
Sandbox.v
Bootstrap.v
Runs.v
Launch.v
RunStable.v
Unwind.v
Watch.v
WatchSpec.v
DemoRuns.v
WatchEnds.v
Respect.v
EventsSpec.v
UnwindSpec.v
LaunchSpec.v
Restart.v
Launcher.v
Durable.v
Tracker.v
Share.v
ShareSpec.v
ShareSecrecy.v
ShareConsent.v
ShareQuiet.v
ShareEndpoint.v
ShareDemo.v
Json.v
Exporter.v
ExporterSpec.v
Trace.v
TraceSteps.v
TraceSpec.v
Delivery.v
Host.v
EffectsConfig.v
Observer.v
ObserverSpec.v
ObserverDemo.v
EffectsPlugin.v
Recovery.v
RecoverySpec.v
RecoveryDemo.v
Network.v
NetworkSpec.v
