(* ===== verification/Prelude.v ===== *)
(** * Allox OS: a verification development of the guest runtime

    Allox OS runs agents in sandboxes whose workspaces are snapshots.  A daemon
    keeps the workspaces, starts and ends the processes of a session, and lets
    plugins observe, confine, share and trace what they do.  This development
    translates that code, file by file, into functions and relations, and proves
    what makes it correct.  Source paths are below [src/]; [allox/] stands for
    [src/src/allox/], and a plugin is [src/plugins/<name>/src/<package>/].

    ** How the program is put together

    The daemon ([allox/workspace/daemon.py]) takes requests from sockets.
    Requests about workspaces go to the store ([workspace/store.py]) under the
    execution registry, which decides what may happen to a session at a time;
    requests about runs go to [ProcessTrackingService]
    ([runtime/process_tracking/service.py]), which launches a command behind a
    gate in a session cgroup, watches it and gives the session's lease back on
    evidence.  The extension manager ([runtime/extensions.py]) asks the enabled
    plugins what they contribute to a run and starts their handles with it: the
    process tree, the observation of system effects and of recoveries, the
    sharing of files between sessions, the network of a session.  The monitoring
    plugin runs in the agents' own processes and delivers spans to a store.

    ** Which file models what

    Common ground.  [Prelude]: exceptions, results, strings, tactics.  [Effects]:
    computations over an object and a history of calls that the environment
    answers, with [ewp] to reason about every end of them, [only] for the calls
    they make and [moves] for the changes of the object.  [PyVal], [Text],
    [Paths], [Ids], [Json]: Python values and dictionaries, text of kernel files,
    [pathlib], [validate_id] and [json]; [base64] is in [Share].

    The workspace.  [CheckpointIndex] with [Lineage], [CheckpointIndexFacts] and
    [CheckpointIndexSpec]: [workspace/checkpoint_index.py] and the lineage it
    stands for.  [FileSystem] and [World]: the directory tree and computations
    over it in which every operation may fail, take effect and fail, or be where
    the machine stops.  [StoreFiles], [Store], [StoreRecovery], [Backend]:
    [workspace/store.py] over an abstract snapshot backend.  [SessionState],
    [SessionOps], [SessionWp], [Scrub], [RollbackState], [RecoveryProof],
    [RollbackProof], [SessionReady]: the proof that a rollback is atomic, with
    its theorems in [RollbackSpec], those of checkpoints in [CheckpointProof] and
    the confinement of the store in [StoreSafety].

    The daemon.  [Registry] ([ExecutionRegistry]), [Dispatch] and [DispatchSpec]
    (requests and the RPC endpoint), [Config] (options and start), [Lifecycle]
    ([workspace/lifecycle.py]), [Extensions] and [ExtensionsSpec]
    ([runtime/extensions.py]).

    Runs.  [Kernel], [Cgroup], [CgroupSpec] ([process_tracking/cgroup.py]),
    [Sandbox] ([runtime/sandboxing.py]), [Bootstrap] ([runtime/bootstrap.py]).
    [Runs], [Launch], [Unwind], [Watch], [Restart], [Launcher], [Durable]: the
    process service, a file for the table of runs, the start, the clause for a
    failed start, the end, the restart, the launcher thread and the durable rows.
    [RunStable] is the interface between the threads: what each may rely on while
    others work; [Respect] shows that every operation keeps to it.  [WatchSpec], [WatchEnds], [EventsSpec], [UnwindSpec] and
    [LaunchSpec] hold the theorems, [DemoRuns] the service their witnesses run.
    [Tracker] is the adapter of the collector in the process-tree plugin.

    Plugins.  [Share] with [ShareSpec], [ShareSecrecy], [ShareConsent],
    [ShareQuiet], [ShareEndpoint], [ShareDemo]: session-share.  [Exporter],
    [ExporterSpec]: the background exporter of agent-monitor; [Trace],
    [TraceSteps], [TraceSpec]: its trace store; [Delivery]: the two together.
    [Host], [EffectsConfig], [EffectsPlugin]: the host, the configuration and the
    plugin of system-effects; [Observer], [ObserverSpec], [ObserverDemo]: an
    observed run; [Recovery], [RecoverySpec], [RecoveryDemo]: a recovery run.
    [Network], [NetworkSpec]: session-network.

    A method of the code is one definition of the same name, with its local
    functions and critical sections as definitions of their own; the fields of an
    object are a record; a dictionary that comes from JSON is a list of pairs in
    the order of insertion.  Integers are unbounded, as in Python; texts are
    strings of 8-bit characters.  Another thread may act wherever the code does
    not hold the lock: as a function [others] of the history and the object, on
    which theorems put a relation, or as a step of a relation on the whole.

    ** What is shown

    Workspaces: a rollback that a crash or a failure of anything but a rename
    cuts short is undone or completed, up to the scrub, by a recovery that is not
    itself cut short; one that returns gave exactly the checkpoint, and none
    touches another session; checkpoints are atomic; the index stays a lineage
    whatever is done to it.

    The daemon: one operation on a session excludes the others, up to a runtime
    reset that is completed under a rollback; a lease has one owner, requests give
    back what they reserved, plugins of an execution start all or not at all, a
    turn gets one checkpoint.

    Runs: nothing a launch obtains is forgotten when it fails; a lease is given
    back only on certified evidence, and the end of a run is reached; what a
    thread does to a run keeps what the others rely on; a queued launch is
    answered while the launcher's thread gets its turns, and the thread lives; the
    durable row is old or new at every moment; a restart fences what was cut off;
    the events of a run are numbered and paged without loss; polling ends.

    Sharing: it takes the consent of both sessions, reads nothing outside the
    shared workspace against agents that change directories meanwhile, refines an
    abstract account of files while nobody interferes, and records each attempt.

    Monitoring: the traces stay well formed, a batch is applied wholly or not at
    all, requests are in order and within their limits, what a barrier vouches for
    is in the store, and a barrier is not waited for in vain.

    System effects: a receipt, the deletion of what a rollback set aside and the
    release of an agent each stand on the whole chain of evidence that the code
    demands; a configuration names only trusted files; across the daemons of a
    host one run at a time holds the lock and gives it back, though an observer
    that could not be ended may outlive it.

    Network: a session is in the network it is configured to have; the broker
    connects and records before a byte passes; the relay passes exactly what it
    is given, and the control line takes no byte of the stream.

    Some theorems show behaviour that the code presumably does not intend; each
    is a concrete run, and says so where it stands.

    ** Bounds and fuel

    Loops over data are structural.  Where a loop waits, its turns are a number,
    and one that runs out ends as if it were cut short, which every theorem allows
    for; that it does not run out is shown apart: [CgroupSpec.polling_terminates]
    and [NetworkSpec.helper_wait_ends] when the clock advances,
    [WatchEnds.watch_concludes] for the end of a run,
    [NetworkSpec.control_line_exact] for the control line (a turn takes a byte,
    and there is one more than the limit).  Reads of files get [limit + 2] turns
    ([Host.turns_for]), since each takes a byte or is the last.  The reader of
    JSON gets twice the length of the text and one more, since each level takes a
    character.  The relay of a connection lasts as long as its ends talk; its
    turns are a parameter.

    ** What is not modelled

    The collector and the recorder in C, which the Python code meets only through
    the protocols of [Tracker] and [Observer]; [argparse], socket servers and
    serving loops; the stopped child that becomes a run ([gate.py]) and the choice
    among observers ([backends.py]); what runs inside the sandbox beyond its end
    of a protocol (the HTTP proxy of the network helper, which needs [urlsplit],
    and the command-line tools, but for the sharing tool); the decorators,
    samplers and reports of the monitoring plugin around its store and exporter;
    the recovery command line, a wrapper of [Store.rollback]; SQLite, Btrfs,
    [bubblewrap] and cryptographic digests, which are parameters with the laws
    the code relies on; key order and layout of JSON files in the store. *)

From stdpp Require Export base tactics list gmap strings sorting.
From Stdlib Require Export ZArith Lia.
From Stdlib Require Import Ascii.
From Stdlib Require String.

Open Scope Z_scope.

(** ** Exceptions and fallible computations

    One constructor per exception class the modelled code raises or catches;
    the argument is the message the code formats. *)

Inductive exn :=
  | WorkspaceError (message : string)
  | CheckpointIndexError (message : string)
  | TypeError
  | AttributeError
  | KeyError
  | ValueError (message : string)
  | AssertionError
  | OSError (what : string)
  | CalledProcessError
  | RuntimeError (message : string)
  | TimeoutError (message : string)
  | OverflowError
  | IndexError
  | TimeoutExpired
  | JSONDecodeError
  | DatabaseError.

#[export] Instance exn_eq_dec : EqDecision exn.
Proof. solve_decision. Defined.

(** [str(exc)] of the exceptions the handlers format. *)
Definition exn_str (e : exn) : string :=
  match e with
  | WorkspaceError m | CheckpointIndexError m | ValueError m | RuntimeError m
  | TimeoutError m | OSError m => m
  | JSONDecodeError => "invalid JSON document"
  | _ => EmptyString
  end.

Inductive result (A : Type) :=
  | Ok (a : A)
  | Err (e : exn).
Arguments Ok {A} a.
Arguments Err {A} e.

#[export] Instance result_ret : MRet result := fun A a => Ok a.
#[export] Instance result_bind : MBind result := fun A B f m =>
  match m with Ok a => f a | Err e => Err e end.
#[export] Instance result_fmap : FMap result := fun A B f m =>
  match m with Ok a => Ok (f a) | Err e => Err e end.

Definition is_ok {A} (r : result A) : bool :=
  match r with Ok _ => true | Err _ => false end.

(** [raise_if b e]: the guard [if b: raise e]. *)
Definition raise_if (b : bool) (e : exn) : result unit :=
  if b then Err e else Ok ().

Lemma result_bind_Ok {A B} (f : A -> result B) (m : result A) b :
  m ≫= f = Ok b <-> exists a, m = Ok a /\ f a = Ok b.
Proof.
  destruct m as [a|e]; simpl; split.
  - by exists a.
  - by intros (? & [= ->] & ?).
  - done.
  - by intros (? & ? & ?).
Qed.

Lemma raise_if_Ok b e u : raise_if b e = Ok u <-> b = false.
Proof. destruct b, u; simpl; split; congruence. Qed.

(** Inversion of a successful chain of result binds. *)
Ltac ok_inv :=
  repeat match goal with
  | H : _ ≫= _ = Ok _ |- _ =>
      apply result_bind_Ok in H as (? & ? & ?)
  | H : raise_if _ _ = Ok _ |- _ => apply raise_if_Ok in H
  | H : Ok _ = Ok _ |- _ => injection H as H; try subst
  | H : Err _ = Ok _ |- _ => discriminate H
  | H : mret _ = Ok _ |- _ => injection H as H; try subst
  end.

(** Split the goal's conditionals and matches on non-variable scrutinees. *)
Ltac case_match_goal :=
  match goal with
  | |- context [match ?x with _ => _ end] => destruct x eqn:?
  end.

Lemma if_eq_true {A} (b : bool) (x y : A) : b = true -> (if b then x else y) = x.
Proof. by intros ->. Qed.

Lemma if_eq_false {A} (b : bool) (x y : A) : b = false -> (if b then x else y) = y.
Proof. by intros ->. Qed.

(** ** Strings

    A Python [str] is a sequence of 8-bit code points here. *)

Definition starts_with (p s : string) : bool := String.prefix p s.

Fixpoint string_existsb (f : ascii -> bool) (s : string) : bool :=
  match s with
  | EmptyString => false
  | String c s => f c || string_existsb f s
  end.

Fixpoint string_forallb (f : ascii -> bool) (s : string) : bool :=
  match s with
  | EmptyString => true
  | String c s => f c && string_forallb f s
  end.

(** [s.endswith(c)] for one character. *)
Fixpoint ends_with_char (c : ascii) (s : string) : bool :=
  match s with
  | EmptyString => false
  | String d EmptyString => bool_decide (d = c)
  | String _ s => ends_with_char c s
  end.

(** [s.lower()] *)
Definition char_lower (c : ascii) : ascii :=
  if (65 <=? N_of_ascii c)%N && (N_of_ascii c <=? 90)%N then ascii_of_N (N_of_ascii c + 32) else c.

Fixpoint string_lower (s : string) : string :=
  match s with
  | EmptyString => EmptyString
  | String c s => String (char_lower c) (string_lower s)
  end.

(** The slice [s[:n]]. *)
Fixpoint string_take (n : nat) (s : string) : string :=
  match n, s with
  | S n, String c s => String c (string_take n s)
  | _, _ => EmptyString
  end.

(** The slice [s[n:]]. *)
Fixpoint string_drop (n : nat) (s : string) : string :=
  match n, s with
  | O, s => s
  | S n, String _ s => string_drop n s
  | S _, EmptyString => EmptyString
  end.

(** [sub in s] for strings. *)
Fixpoint string_contains (sub s : string) : bool :=
  starts_with sub s ||
  match s with
  | EmptyString => false
  | String _ s' => string_contains sub s'
  end.

(** [s.split(c)] for a one-character separator. *)
Fixpoint string_split (c : ascii) (s : string) : list string :=
  match s with
  | EmptyString => [EmptyString]
  | String a s' =>
      if bool_decide (a = c) then EmptyString :: string_split c s'
      else match string_split c s' with
           | w :: ws => String a w :: ws
           | [] => [String a EmptyString]
           end
  end.

(** [s.rsplit(c, 1)]: the parts around the last [c], if there is one. *)
Fixpoint string_rsplit1 (c : ascii) (s : string) : option (string * string) :=
  match s with
  | EmptyString => None
  | String d s =>
      match string_rsplit1 c s with
      | Some (a, b) => Some (String d a, b)
      | None => if bool_decide (d = c) then Some (EmptyString, s) else None
      end
  end.

(** [sep.join(parts)]. *)
Fixpoint string_join (sep : string) (parts : list string) : string :=
  match parts with
  | [] => EmptyString
  | [w] => w
  | w :: ws => w +:+ sep +:+ string_join sep ws
  end.

Definition str_eqb (a b : string) : bool := bool_decide (a = b).

Definition ascii_n (c : ascii) : N := N_of_ascii c.
Definition in_range (lo hi : ascii) (c : ascii) : bool :=
  (ascii_n lo <=? ascii_n c)%N && (ascii_n c <=? ascii_n hi)%N.
Definition is_digit (c : ascii) : bool := in_range "0" "9" c.
Definition is_upper (c : ascii) : bool := in_range "A" "Z" c.
Definition is_lower (c : ascii) : bool := in_range "a" "z" c.
Definition is_alnum (c : ascii) : bool := is_digit c || is_upper c || is_lower c.
Definition char_in (c : ascii) (s : string) : bool :=
  string_existsb (fun d => bool_decide (d = c)) s.

Lemma string_app_cons c s t : String c s +:+ t = String c (s +:+ t).
Proof. done. Qed.

Lemma char_in_app c s t : char_in c (s +:+ t) = char_in c s || char_in c t.
Proof.
  unfold char_in. induction s as [|d s IH]; [done|].
  rewrite string_app_cons. simpl. by rewrite IH, orb_assoc.
Qed.

Lemma string_app_nil_l s : EmptyString +:+ s = s.
Proof. done. Qed.

Lemma string_app_nil_r s : s +:+ EmptyString = s.
Proof. induction s as [|c s IH]; [done|]. rewrite string_app_cons. by rewrite IH. Qed.

Lemma starts_with_app p s : starts_with p (p +:+ s) = true.
Proof.
  unfold starts_with. induction p as [|c p IH]; [by destruct s|].
  rewrite string_app_cons. simpl. destruct (ascii_dec c c); [done|congruence].
Qed.

Lemma starts_with_spec p s : starts_with p s = true <-> exists t, s = p +:+ t.
Proof.
  split; [|intros [t ->]; apply starts_with_app].
  unfold starts_with. revert s. induction p as [|c p IH]; intros s.
  { intros _. by exists s. }
  destruct s as [|d s]; [done|]. simpl.
  destruct (ascii_dec c d) as [->|]; [|done].
  intros [t ->]%IH. by exists t.
Qed.

Lemma starts_with_refl s : starts_with s s = true.
Proof. apply starts_with_spec. exists EmptyString. by rewrite string_app_nil_r. Qed.

Lemma string_app_assoc s t u : (s +:+ t) +:+ u = s +:+ (t +:+ u).
Proof.
  induction s as [|c s IH]; [done|]. rewrite !string_app_cons. by rewrite IH.
Qed.

Lemma string_length_app s t :
  String.length (s +:+ t) = (String.length s + String.length t)%nat.
Proof.
  induction s as [|c s IH]; [done|]. rewrite string_app_cons. cbn. by rewrite IH.
Qed.

Lemma string_app_inj_r s t u : s +:+ u = t +:+ u -> s = t.
Proof.
  revert t. induction s as [|c s IH]; intros [|d t] Heq.
  - done.
  - exfalso. apply (f_equal String.length) in Heq.
    rewrite string_app_cons, string_app_nil_l in Heq. simpl in Heq.
    rewrite string_length_app in Heq. lia.
  - exfalso. apply (f_equal String.length) in Heq.
    rewrite string_app_cons, string_app_nil_l in Heq. simpl in Heq.
    rewrite string_length_app in Heq. lia.
  - rewrite !string_app_cons in Heq. injection Heq as -> Heq.
    by rewrite (IH _ Heq).
Qed.

Lemma string_forallb_app f s t :
  string_forallb f (s +:+ t) = string_forallb f s && string_forallb f t.
Proof.
  induction s as [|c s IH]; [done|]. rewrite string_app_cons. cbn.
  by rewrite IH, andb_assoc.
Qed.

Lemma string_existsb_forallb f s :
  string_existsb f s = negb (string_forallb (fun c => negb (f c)) s).
Proof.
  induction s as [|c s IH]; [done|]. cbn. rewrite IH. by destruct (f c).
Qed.

Lemma string_forallb_impl f g s :
  (forall c, f c = true -> g c = true) ->
  string_forallb f s = true -> string_forallb g s = true.
Proof.
  intros Hfg. induction s as [|c s IH]; [done|]. cbn.
  intros [? ?]%andb_prop. apply andb_true_intro. auto.
Qed.

Lemma string_take_length n s : (String.length (string_take n s) <= n)%nat.
Proof.
  revert s. induction n as [|n IH]; intros [|c s]; cbn; [lia..|].
  specialize (IH s). lia.
Qed.

Lemma str_eqb_eq a b : str_eqb a b = true <-> a = b.
Proof. apply bool_decide_eq_true. Qed.

Lemma str_eqb_refl a : str_eqb a a = true.
Proof. by apply str_eqb_eq. Qed.

Lemma str_eqb_neq a b : str_eqb a b = false <-> a <> b.
Proof. apply bool_decide_eq_false. Qed.

(** ** The order of Python strings: lexicographic on code points *)

Definition string_le (a b : string) : Prop := String.leb a b = true.

#[export] Instance string_le_dec a b : Decision (string_le a b).
Proof. unfold string_le. apply _. Defined.

#[export] Instance string_le_total : Total string_le.
Proof. intros a b. apply String.leb_total. Qed.

#[export] Instance string_le_antisymm : AntiSymm (=) string_le.
Proof. intros a b. apply String.leb_antisym. Qed.

Lemma string_le_spec a b : string_le a b <-> String.compare a b <> Gt.
Proof. unfold string_le, String.leb. by destruct (String.compare a b). Qed.

Lemma ascii_compare_N c d : Ascii.compare c d = (ascii_n c ?= ascii_n d)%N.
Proof. done. Qed.

#[export] Instance string_le_transitive : Transitive string_le.
Proof.
  intros a b c. rewrite !string_le_spec. revert b c.
  induction a as [|x a IH]; intros [|y b] [|z c]; simpl; try done.
  rewrite !ascii_compare_N.
  destruct (N.compare_spec (ascii_n x) (ascii_n y)) as [Exy|?|?];
    destruct (N.compare_spec (ascii_n y) (ascii_n z)) as [Eyz|?|?];
    destruct (N.compare_spec (ascii_n x) (ascii_n z)); try done; try lia.
  apply IH.
Qed.

(** [sorted(names)]. *)
Definition sort_strings (l : list string) : list string := merge_sort string_le l.

Lemma sort_strings_perm l : sort_strings l ≡ₚ l.
Proof. apply merge_sort_Permutation. Qed.

(** ** Hint databases of the development *)

Create HintDb allox discriminated.
#[export] Hint Resolve starts_with_app starts_with_refl str_eqb_refl : allox.
