(* ===== verification/Paths.v ===== *)
(** * Pure paths

    What the code uses of [pathlib.PurePosixPath]: a path is its root and its
    components, from which empty components and dots are dropped. *)

From Stdlib Require Import Ascii.
From Stdlib Require String.
From S2P Require Import Prelude.

Record pure_path := PurePath { p_root : string; p_parts : list string }.

#[export] Instance pure_path_eq_dec : EqDecision pure_path.
Proof. solve_decision. Defined.

(** Two leading slashes are a root of their own; three are one. *)
Definition path_root (s : string) : string :=
  if starts_with "//" s && negb (starts_with "///" s) then "//"
  else if starts_with "/" s then "/" else EmptyString.

Definition component (p : string) : bool := negb (str_eqb p EmptyString) && negb (str_eqb p ".").

Definition parse_path (s : string) : pure_path :=
  PurePath (path_root s) (List.filter component (string_split "/" s)).

Definition is_absolute (p : pure_path) : bool := negb (str_eqb (p_root p) EmptyString).

Definition path_parent (p : pure_path) : pure_path := PurePath (p_root p) (removelast (p_parts p)).

(** [str(path)] *)
Definition path_str (p : pure_path) : string :=
  match p_root p, p_parts p with
  | EmptyString, [] => "."
  | r, parts => r +:+ string_join "/" parts
  end.

(** [a / b] for a relative [b] of one component. *)
Definition path_child (p : pure_path) (name : string) : pure_path :=
  PurePath (p_root p) (p_parts p ++ [name]).

(** [path.with_name(name)]; a path without a name has none to replace. *)
Definition path_with_name (p : pure_path) (name : string) : result pure_path :=
  match p_parts p with
  | [] => Err (ValueError (path_str p +:+ " has an empty name"))
  | parts => Ok (PurePath (p_root p) (removelast parts ++ [name]))
  end.

(** [a == b or a in b.parents] *)
Definition path_contains (a b : pure_path) : bool :=
  str_eqb (p_root a) (p_root b) && bool_decide (p_parts a `prefix_of` p_parts b).
