(* ===== verification/Effects.v ===== *)
(** * Computations that call out

    The runtime services drive plugins, processes and the kernel.  What such a
    call returns or raises is the environment's choice and may depend on all
    the calls made before; a computation runs on the history of these calls
    and on the object whose method it is.  An exception is an [Exception] or,
    like [KeyboardInterrupt] and [SystemExit], a [BaseException] that
    [except Exception] does not catch. *)

From stdpp Require Import gmap.
From S2P Require Import Prelude.

Inductive reply (A : Type) :=
  | Done (a : A)
  | Raised (e : exn)
  | Interrupted.
Arguments Done {A} a.
Arguments Raised {A} e.
Arguments Interrupted {A}.

Record st (C O : Type) := St { hist : list C; obj : O }.
Arguments St {C O} hist obj.
Arguments hist {C O} s.
Arguments obj {C O} s.

Definition P (C O A : Type) : Type := st C O -> reply A * st C O.

#[export] Instance P_ret {C O} : MRet (P C O) := fun A a s => (Done a, s).
#[export] Instance P_bind {C O} : MBind (P C O) := fun A B f m s =>
  match m s with
  | (Done a, s') => f a s'
  | (Raised e, s') => (Raised e, s')
  | (Interrupted, s') => (Interrupted, s')
  end.

Section computations.
Context {C O : Type}.

Definition throw {A} (e : exn) : P C O A := fun s => (Raised e, s).

Definition throw_when (b : bool) (e : exn) : P C O unit := if b then throw e else mret ().

Definition lift {A} (r : result A) : P C O A :=
  match r with Ok a => mret a | Err e => throw e end.

Definition read {A} (f : O -> A) : P C O A := fun s => (Done (f (obj s)), s).

Definition modify (f : O -> O) : P C O unit := fun s => (Done (), St (hist s) (f (obj s))).

(** The call [c], answered by [answer] after the calls so far. *)
Definition perform {A} (c : C) (answer : list C -> reply A) : P C O A := fun s =>
  (answer (hist s), St (hist s ++ [c]) (obj s)).

(** Other threads run: what they make of the shared object. *)
Definition interleave (f : list C -> O -> O) : P C O unit := fun s =>
  (Done (), St (hist s) (f (hist s) (obj s))).

(** [try: m except Exception as e: h e] *)
Definition catch {A} (m : P C O A) (h : exn -> P C O A) : P C O A := fun s =>
  match m s with
  | (Raised e, s') => h e s'
  | r => r
  end.

(** [try: m except BaseException: cleanup; raise] *)
Definition unwinding {A} (m : P C O A) (cleanup : P C O unit) : P C O A := fun s =>
  match m s with
  | (Done a, s') => (Done a, s')
  | (Raised e, s') =>
      match cleanup s' with
      | (Done _, s'') => (Raised e, s'')
      | (Raised e', s'') => (Raised e', s'')
      | (Interrupted, s'') => (Interrupted, s'')
      end
  | (Interrupted, s') =>
      match cleanup s' with
      | (Done _, s'') => (Interrupted, s'')
      | (Raised e', s'') => (Raised e', s'')
      | (Interrupted, s'') => (Interrupted, s'')
      end
  end.

(** [try: m finally: fin] *)
Definition finally {A} (m : P C O A) (fin : P C O unit) : P C O A := fun s =>
  match m s with
  | (r, s') =>
      match fin s' with
      | (Done _, s'') => (r, s'')
      | (Raised e, s'') => (Raised e, s'')
      | (Interrupted, s'') => (Interrupted, s'')
      end
  end.

(** [with suppress(Exception): m] *)
Definition suppress (m : P C O unit) : P C O unit := catch m (fun _ => mret ()).

Fixpoint iterate {A} (f : A -> P C O unit) (l : list A) : P C O unit :=
  match l with
  | [] => mret ()
  | x :: l => f x;; iterate f l
  end.

(** A loop that carries a value. *)
Fixpoint fold_loop {A B} (f : B -> A -> P C O B) (l : list A) (b : B) : P C O B :=
  match l with
  | [] => mret b
  | x :: l => b' ← f b x; fold_loop f l b'
  end.

(** ** Reasoning *)

Definition ewp {A} (m : P C O A) (Q : reply A -> st C O -> Prop) (s : st C O) : Prop :=
  Q (m s).1 (m s).2.

Lemma ewp_ret {A} (a : A) Q s : Q (Done a) s -> ewp (mret a) Q s.
Proof. done. Qed.

Lemma ewp_throw {A} e (Q : reply A -> st C O -> Prop) s : Q (Raised e) s -> ewp (throw e) Q s.
Proof. done. Qed.

Lemma ewp_bind {A B} (m : P C O A) (f : A -> P C O B) Q s :
  ewp m (fun r s' => match r with
                    | Done a => ewp (f a) Q s'
                    | Raised e => Q (Raised e) s'
                    | Interrupted => Q Interrupted s'
                    end) s -> ewp (m ≫= f) Q s.
Proof.
  unfold ewp, mbind, P_bind. destruct (m s) as [[a|e|] s']; simpl; done.
Qed.

Lemma ewp_mono {A} (m : P C O A) (Q R : reply A -> st C O -> Prop) s :
  ewp m Q s -> (forall r s', Q r s' -> R r s') -> ewp m R s.
Proof. unfold ewp. auto. Qed.

Lemma ewp_true {A} (m : P C O A) s : ewp m (fun _ _ => True) s.
Proof. exact I. Qed.

Lemma ewp_lift {A} (r : result A) Q s :
  (match r with Ok a => Q (Done a) s | Err e => Q (Raised e) s end) -> ewp (lift r) Q s.
Proof. by destruct r. Qed.

Lemma ewp_throw_when b e (Q : reply unit -> st C O -> Prop) s :
  (b = true -> Q (Raised e) s) -> (b = false -> Q (Done ()) s) -> ewp (throw_when b e) Q s.
Proof. destruct b; unfold ewp; simpl; auto. Qed.

Lemma ewp_read {A} (f : O -> A) Q s : Q (Done (f (obj s))) s -> ewp (read f) Q s.
Proof. done. Qed.

Lemma ewp_modify f (Q : reply unit -> st C O -> Prop) s :
  Q (Done ()) (St (hist s) (f (obj s))) -> ewp (modify f) Q s.
Proof. done. Qed.

Lemma ewp_perform {A} c (answer : list C -> reply A) Q s :
  (forall r, answer (hist s) = r -> Q r (St (hist s ++ [c]) (obj s))) ->
  ewp (perform c answer) Q s.
Proof. unfold ewp. simpl. auto. Qed.

Lemma ewp_interleave f (Q : reply unit -> st C O -> Prop) s :
  Q (Done ()) (St (hist s) (f (hist s) (obj s))) -> ewp (interleave f) Q s.
Proof. done. Qed.

Lemma ewp_catch {A} (m : P C O A) h Q s :
  ewp m (fun r s' => match r with Raised e => ewp (h e) Q s' | _ => Q r s' end) s ->
  ewp (catch m h) Q s.
Proof. unfold ewp, catch. destruct (m s) as [[a|e|] s']; done. Qed.

Lemma ewp_suppress (m : P C O unit) Q s :
  ewp m (fun r s' => match r with Interrupted => Q Interrupted s' | _ => Q (Done ()) s' end) s ->
  ewp (suppress m) Q s.
Proof.
  intros H. apply ewp_catch. eapply ewp_mono; [exact H|]. by intros [[]|e|] s'.
Qed.

Lemma ewp_unwinding {A} (m : P C O A) cleanup Q s :
  ewp m (fun r s' =>
    match r with
    | Done a => Q (Done a) s'
    | _ => ewp cleanup (fun r' s'' =>
             match r' with
             | Done _ => Q r s''
             | Raised e => Q (Raised e) s''
             | Interrupted => Q Interrupted s''
             end) s'
    end) s -> ewp (unwinding m cleanup) Q s.
Proof.
  unfold ewp, unwinding. destruct (m s) as [[a|e|] s']; simpl; [done|..];
    destruct (cleanup s') as [[[]|e'|] s'']; done.
Qed.

Lemma ewp_finally {A} (m : P C O A) fin Q s :
  ewp m (fun r s' => ewp fin (fun r' s'' =>
    match r' with
    | Done _ => Q r s''
    | Raised e => Q (Raised e) s''
    | Interrupted => Q Interrupted s''
    end) s') s -> ewp (finally m fin) Q s.
Proof.
  unfold ewp, finally. destruct (m s) as [r s']. simpl. destruct (fin s') as [[[]|e|] s'']; done.
Qed.

(** A loop keeps an invariant of the state and of the elements done. *)
Lemma ewp_iterate {A} (f : A -> P C O unit) (I : list A -> st C O -> Prop)
    (Q : reply unit -> st C O -> Prop) l s :
  I l s ->
  (forall x l' s', I (x :: l') s' ->
     ewp (f x) (fun r s'' => match r with Done _ => I l' s'' | _ => Q r s'' end) s') ->
  (forall s', I [] s' -> Q (Done ()) s') ->
  ewp (iterate f l) Q s.
Proof.
  intros HI Hstep Hend. revert s HI. induction l as [|x l IH]; intros s HI; simpl.
  - apply ewp_ret. auto.
  - apply ewp_bind. eapply ewp_mono; [by apply Hstep|]. intros [[]|e|] s' H; [by apply IH|done..].
Qed.

Lemma ewp_fold_loop {A B} (f : B -> A -> P C O B) (I : list A -> B -> st C O -> Prop)
    (Q : reply B -> st C O -> Prop) l b s :
  I l b s ->
  (forall x l' b' s', I (x :: l') b' s' ->
     ewp (f b' x) (fun r s'' => match r with
                               | Done b'' => I l' b'' s''
                               | Raised e => Q (Raised e) s''
                               | Interrupted => Q Interrupted s''
                               end) s') ->
  (forall b' s', I [] b' s' -> Q (Done b') s') ->
  ewp (fold_loop f l b) Q s.
Proof.
  intros HI Hstep Hend. revert b s HI. induction l as [|x l IH]; intros b s HI; simpl.
  - apply ewp_ret. auto.
  - apply ewp_bind. eapply ewp_mono; [by apply Hstep|]. intros [b'|e|] s' H; [by apply IH|done..].
Qed.
(** ** Which calls a computation makes

    [only p m]: every call of [m] satisfies [p], however it ends. *)

Definition only (p : C -> Prop) {A} (m : P C O A) : Prop :=
  forall s, exists k, hist (m s).2 = hist s ++ k /\ Forall p k.

Section only.
Context (p : C -> Prop).

Lemma only_same {A} (m : P C O A) : (forall s, hist (m s).2 = hist s) -> only p m.
Proof. intros H s. exists []. by rewrite H, app_nil_r. Qed.

Lemma only_ret {A} (a : A) : only p (mret a : P C O A).
Proof. by apply only_same. Qed.

Lemma only_throw {A} e : only p (throw e : P C O A).
Proof. by apply only_same. Qed.

Lemma only_throw_when b e : only p (throw_when b e).
Proof. apply only_same. by destruct b. Qed.

Lemma only_lift {A} (r : result A) : only p (lift r).
Proof. apply only_same. by destruct r. Qed.

Lemma only_read {A} (f : O -> A) : only p (read f).
Proof. by apply only_same. Qed.

Lemma only_modify f : only p (modify f).
Proof. by apply only_same. Qed.

Lemma only_interleave f : only p (interleave f).
Proof. by apply only_same. Qed.

Lemma only_perform {A} c (answer : list C -> reply A) : p c -> only p (perform c answer).
Proof. intros Hc s. exists [c]. split; [done|by constructor]. Qed.

(** One computation after another. *)
Lemma only_trans (h : list C) (s1 s2 : st C O) k1 :
  hist s1 = h ++ k1 -> Forall p k1 ->
  (exists k, hist s2 = hist s1 ++ k /\ Forall p k) ->
  exists k, hist s2 = h ++ k /\ Forall p k.
Proof.
  intros H1 Hp1 (k2 & H2 & Hp2). exists (k1 ++ k2). split; [|by apply Forall_app].
  by rewrite H2, H1, app_assoc.
Qed.

Lemma only_bind {A B} (m : P C O A) (f : A -> P C O B) :
  only p m -> (forall a, only p (f a)) -> only p (m ≫= f).
Proof.
  intros Hm Hf s. destruct (Hm s) as (k & Hk & Hp). unfold mbind, P_bind.
  destruct (m s) as [[a|e|] s1]; simpl in *; [|by exists k..].
  by apply (only_trans (hist s) s1 _ k), Hf.
Qed.

Lemma only_catch {A} (m : P C O A) h :
  only p m -> (forall e, only p (h e)) -> only p (catch m h).
Proof.
  intros Hm Hh s. destruct (Hm s) as (k & Hk & Hp). unfold catch.
  destruct (m s) as [[a|e|] s1]; simpl in *; [by exists k| |by exists k].
  by apply (only_trans (hist s) s1 _ k), Hh.
Qed.

Lemma only_suppress m : only p m -> only p (suppress m).
Proof. intros Hm. apply only_catch; [done|]. intros _. apply only_ret. Qed.

Lemma only_unwinding {A} (m : P C O A) cleanup :
  only p m -> only p cleanup -> only p (unwinding m cleanup).
Proof.
  intros Hm Hc s. destruct (Hm s) as (k & Hk & Hp). unfold unwinding.
  destruct (m s) as [[a|e|] s1]; simpl in *; [by exists k|..];
    specialize (Hc s1); destruct (cleanup s1) as [[[]|e'|] s2]; simpl in *;
    by apply (only_trans (hist s) s1 _ k).
Qed.

Lemma only_finally {A} (m : P C O A) fin : only p m -> only p fin -> only p (finally m fin).
Proof.
  intros Hm Hc s. destruct (Hm s) as (k & Hk & Hp). unfold finally.
  destruct (m s) as [r s1]; simpl in *. specialize (Hc s1).
  destruct (fin s1) as [[[]|e'|] s2]; simpl in *; by apply (only_trans (hist s) s1 _ k).
Qed.

Lemma only_iterate {A} (f : A -> P C O unit) l :
  (forall x, x ∈ l -> only p (f x)) -> only p (iterate f l).
Proof.
  induction l as [|x l IH]; intros H; simpl; [apply only_ret|].
  apply only_bind; [apply H; left|]. intros _. apply IH. intros y Hy. apply H. by right.
Qed.

Lemma only_fold_loop {A B} (f : B -> A -> P C O B) l b :
  (forall b x, x ∈ l -> only p (f b x)) -> only p (fold_loop f l b).
Proof.
  revert b. induction l as [|x l IH]; intros b H; simpl; [apply only_ret|].
  apply only_bind; [apply H; left|]. intros b'. apply IH. intros b2 y Hy. apply H. by right.
Qed.
End only.

(** Add to a postcondition which calls were made. *)
Lemma ewp_only {A} p (m : P C O A) (Q : reply A -> st C O -> Prop) s :
  only p m ->
  ewp m (fun r s' => forall k, hist s' = hist s ++ k -> Forall p k -> Q r s') s ->
  ewp m Q s.
Proof. intros Hm H. destruct (Hm s) as (k & Hk & Hp). by apply (H k). Qed.
End computations.

#[global] Arguments ewp {C O A} m Q s : simpl never.

(** A method of one object called from a method of another. *)
Definition on_object {C O O' A} (o : O') (m : P C O' A) : P C O (A * O') := fun s =>
  match m (St (hist s) o) with
  | (Done a, s') => (Done (a, obj s'), St (hist s') (obj s))
  | (Raised e, s') => (Raised e, St (hist s') (obj s))
  | (Interrupted, s') => (Interrupted, St (hist s') (obj s))
  end.

Lemma ewp_on_object {C O O' A} (o : O') (m : P C O' A) (Q : reply (A * O') -> st C O -> Prop) s :
  ewp m (fun r s' => match r with
                    | Done a => Q (Done (a, obj s')) (St (hist s') (obj s))
                    | Raised e => Q (Raised e) (St (hist s') (obj s))
                    | Interrupted => Q Interrupted (St (hist s') (obj s))
                    end) (St (hist s) o) -> ewp (on_object o m) Q s.
Proof. unfold ewp, on_object. destruct (m _) as [[a|e|] s']; done. Qed.

(** A computation on a part of the object. *)
Definition zoom {C O O' A} (get : O -> O') (put : O' -> O -> O) (m : P C O' A) : P C O A := fun s =>
  match m (St (hist s) (get (obj s))) with
  | (r, s') => (r, St (hist s') (put (obj s') (obj s)))
  end.

Lemma ewp_zoom {C O O' A} (get : O -> O') put (m : P C O' A) (Q : reply A -> st C O -> Prop) s :
  ewp m (fun r s' => Q r (St (hist s') (put (obj s') (obj s)))) (St (hist s) (get (obj s))) ->
  ewp (zoom get put m) Q s.
Proof. unfold ewp, zoom. by destruct (m _) as [r s']. Qed.

Lemma only_zoom {C O O' A} (get : O -> O') put p (m : P C O' A) :
  only p m -> only p (zoom get put m : P C O A).
Proof.
  intros Hm s. destruct (Hm (St (hist s) (get (obj s)))) as (k & Hk & Hp).
  exists k. unfold zoom. by destruct (m _) as [r s'].
Qed.

(** ** How a computation changes the object

    [moves R m]: from before [m] to after it the object moves along [R],
    however [m] ends. *)

Definition moves {C O : Type} (R : relation O) {A} (m : P C O A) : Prop :=
  forall s, R (obj s) (obj (m s).2).

Section moves.
Context {C O : Type} (R : relation O) `{!PreOrder R}.

Lemma moves_still {A} (m : P C O A) : (forall s, obj (m s).2 = obj s) -> moves R m.
Proof. intros H s. by rewrite H. Qed.

Lemma moves_ret {A} (a : A) : moves R (mret a : P C O A).
Proof. by apply moves_still. Qed.

Lemma moves_throw {A} e : moves R (throw e : P C O A).
Proof. by apply moves_still. Qed.

Lemma moves_throw_when b e : moves R (throw_when b e : P C O unit).
Proof. apply moves_still. by destruct b. Qed.

Lemma moves_lift {A} (r : result A) : moves R (lift r : P C O A).
Proof. apply moves_still. by destruct r. Qed.

Lemma moves_read {A} (f : O -> A) : moves R (read f : P C O A).
Proof. by apply moves_still. Qed.

Lemma moves_perform {A} c (answer : list C -> reply A) : moves R (perform c answer : P C O A).
Proof. by apply moves_still. Qed.

Lemma moves_modify f : (forall o, R o (f o)) -> moves R (modify f : P C O unit).
Proof. intros Hf s. apply Hf. Qed.

Lemma moves_interleave f : (forall h o, R o (f h o)) -> moves R (interleave f : P C O unit).
Proof. intros Hf s. apply Hf. Qed.

Lemma moves_bind {A B} (m : P C O A) (f : A -> P C O B) :
  moves R m -> (forall a, moves R (f a)) -> moves R (m ≫= f).
Proof.
  intros Hm Hf s. specialize (Hm s). unfold mbind, P_bind.
  destruct (m s) as [[a|e|] s1]; simpl in *; [|done..]. by transitivity (obj s1); [|apply Hf].
Qed.

(** After a look at the object, what was seen holds of it. *)
Lemma moves_read_bind {A B} (g : O -> A) (f : A -> P C O B) :
  (forall s, R (obj s) (obj (f (g (obj s)) s).2)) -> moves R (read g ≫= f).
Proof. intros Hf s. apply Hf. Qed.

Lemma moves_catch {A} (m : P C O A) h :
  moves R m -> (forall e, moves R (h e)) -> moves R (catch m h).
Proof.
  intros Hm Hh s. specialize (Hm s). unfold catch.
  destruct (m s) as [[a|e|] s1]; simpl in *; [done| |done]. by transitivity (obj s1); [|apply Hh].
Qed.

Lemma moves_finally {A} (m : P C O A) fin : moves R m -> moves R fin -> moves R (finally m fin).
Proof.
  intros Hm Hf s. specialize (Hm s). unfold finally. destruct (m s) as [r s1]. simpl in *.
  specialize (Hf s1). destruct (fin s1) as [[[]|e|] s2]; simpl in *; by transitivity (obj s1).
Qed.

Lemma moves_iterate {A} (f : A -> P C O unit) l :
  (forall x, moves R (f x)) -> moves R (iterate f l).
Proof.
  intros Hf. induction l as [|x l IH]; simpl; [apply moves_ret|]. by apply moves_bind.
Qed.

Lemma moves_fold_loop {A B} (f : B -> A -> P C O B) l b :
  (forall b x, moves R (f b x)) -> moves R (fold_loop f l b).
Proof.
  intros Hf. revert b. induction l as [|x l IH]; intros b; simpl; [apply moves_ret|].
  by apply moves_bind.
Qed.
End moves.

(** Goals [moves R m] by the structure of [m]; what is left are the changes. *)
Ltac moves_step :=
  first
    [ apply moves_ret; [exact _] | apply moves_throw; [exact _] | apply moves_throw_when; [exact _]
    | apply moves_lift; [exact _] | apply moves_read; [exact _] | apply moves_perform; [exact _]
    | apply moves_bind; [exact _| |intros ?] | apply moves_catch; [exact _| |intros ?]
    | apply moves_finally; [exact _| |] | apply moves_iterate; [exact _|intros ?]
    | apply moves_fold_loop; [exact _|intros ? ?] ].

(** One step of symbolic execution. *)
Ltac ewp_step :=
  first
    [ apply ewp_bind | apply ewp_ret | apply ewp_throw | apply ewp_lift | apply ewp_read
    | apply ewp_modify | apply ewp_catch | apply ewp_suppress | apply ewp_unwinding
    | apply ewp_on_object | apply ewp_throw_when; intros ? ].

(** Goals [only p m] by the structure of [m]; what is left are the calls. *)
Create HintDb only.
#[export] Hint Resolve only_ret only_throw only_throw_when only_lift only_read only_modify
  only_bind only_catch only_suppress only_unwinding only_perform : only.

Ltac only_step :=
  first
    [ apply only_ret | apply only_throw | apply only_throw_when | apply only_lift
    | apply only_read | apply only_modify | apply only_interleave | apply only_zoom
    | apply only_perform
    | apply only_bind; [|intros ?] | apply only_catch; [|intros ?] | apply only_suppress
    | apply only_unwinding | apply only_finally | apply only_iterate; intros ? ?
    | apply only_fold_loop; intros ? ? ?
    | match goal with
      | |- only _ (match ?x with _ => _ end) => destruct x
      | |- only _ (if ?x then _ else _) => destruct x
      end ].
