(* ===== verification/PyVal.v ===== *)
(** * Python values that travel through JSON

    The workspace store, the daemon, the lifecycle controller and the plugins
    exchange values decoded from JSON: [None], booleans, unbounded integers,
    binary64 floats, strings, lists and string-keyed dictionaries.  This file
    fixes that type, Python's truth test, equality, [isinstance] tests and
    [int()] on it, and insertion-ordered dictionaries with the operations the
    code applies to them. *)

From S2P Require Import Prelude.
From Stdlib Require Import Ascii SpecFloat.
From Stdlib Require String.
From stdpp Require Import pretty.
Open Scope Z_scope.

Inductive pyval :=
  | PNone
  | PBool (b : bool)
  | PInt (z : Z)
  | PFloat (f : spec_float)
  | PStr (s : string)
  | PList (l : list pyval)
  | PDict (d : list (string * pyval)).

Abbreviation dict := (list (string * pyval)).

Definition pystr_opt (o : option string) : pyval :=
  match o with Some s => PStr s | None => PNone end.

(** ** Dictionaries: association lists in insertion order *)

Fixpoint dget (k : string) (d : dict) : option pyval :=
  match d with
  | [] => None
  | (k', v) :: d' => if str_eqb k k' then Some v else dget k d'
  end.

(** [d[k] = v]: replaces in place or appends at the end. *)
Fixpoint dset (k : string) (v : pyval) (d : dict) : dict :=
  match d with
  | [] => [(k, v)]
  | (k', v') :: d' =>
      if str_eqb k k' then (k', v) :: d' else (k', v') :: dset k v d'
  end.

(** [d.pop(k, None)]. *)
Definition ddel (k : string) (d : dict) : dict :=
  filter (fun '(k', _) => str_eqb k k' = false) d.

(** [d.get(k, default)]. *)
Definition dget_or (k : string) (default : pyval) (d : dict) : pyval :=
  match dget k d with Some v => v | None => default end.

(** [d.get(k)]. *)
Definition dgetn (k : string) (d : dict) : pyval := dget_or k PNone d.

(** [k in d]. *)
Definition dhas (k : string) (d : dict) : bool :=
  match dget k d with Some _ => true | None => false end.

(** [d[k]]. *)
Definition dindex (k : string) (d : dict) : result pyval :=
  match dget k d with Some v => Ok v | None => Err KeyError end.

(** [{**d, **e}]. *)
Definition dupdate (d e : dict) : dict :=
  fold_left (fun acc kv => dset kv.1 kv.2 acc) e d.

Definition dkeys (d : dict) : list string := d.*1.

(** ** Truth, equality, type tests *)

Definition float_is_zero (f : spec_float) : bool :=
  match f with S754_zero _ => true | _ => false end.

Definition py_truthy (v : pyval) : bool :=
  match v with
  | PNone => false
  | PBool b => b
  | PInt z => negb (z =? 0)
  | PFloat f => negb (float_is_zero f)
  | PStr s => negb (str_eqb s EmptyString)
  | PList l => match l with [] => false | _ => true end
  | PDict d => match d with [] => false | _ => true end
  end.

(** A finite float as a signed mantissa and a binary exponent. *)
Definition float_parts (f : spec_float) : option (Z * Z) :=
  match f with
  | S754_zero _ => Some (0, 0)
  | S754_finite s m e => Some (if s then Z.neg m else Z.pos m, e)
  | _ => None
  end.

(** [m1 * 2^e1 ?= m2 * 2^e2], by bringing both to the smaller exponent. *)
Definition parts_compare (p q : Z * Z) : comparison :=
  let e := Z.min p.2 q.2 in
  (p.1 * 2 ^ (p.2 - e)) ?= (q.1 * 2 ^ (q.2 - e)).

(** Order of two floats; [None] when one of them is a NaN. *)
Definition float_compare (f g : spec_float) : option comparison :=
  match f, g with
  | S754_nan, _ | _, S754_nan => None
  | S754_infinity s, S754_infinity t =>
      Some (match s, t with
            | true, false => Lt | false, true => Gt | _, _ => Eq end)
  | S754_infinity s, _ => Some (if s then Lt else Gt)
  | _, S754_infinity t => Some (if t then Gt else Lt)
  | _, _ =>
      match float_parts f, float_parts g with
      | Some p, Some q => Some (parts_compare p q)
      | _, _ => None
      end
  end.

Definition float_eqb (f g : spec_float) : bool :=
  match float_compare f g with Some Eq => true | _ => false end.

Definition float_int_eqb (f : spec_float) (z : Z) : bool :=
  match float_parts f with
  | Some p => match parts_compare p (z, 0) with Eq => true | _ => false end
  | None => false
  end.

(** Numbers compare across [bool], [int] and [float]: [True == 1 == 1.0]. *)
Definition as_number (v : pyval) : option (Z + spec_float) :=
  match v with
  | PBool b => Some (inl (Z.b2z b))
  | PInt z => Some (inl z)
  | PFloat f => Some (inr f)
  | _ => None
  end.

Definition number_eqb (x y : Z + spec_float) : bool :=
  match x, y with
  | inl a, inl b => a =? b
  | inl a, inr g => float_int_eqb g a
  | inr f, inl b => float_int_eqb f b
  | inr f, inr g => float_eqb f g
  end.

(** [v == w]. *)
Fixpoint py_eqb (v w : pyval) {struct v} : bool :=
  match v with
  | PNone => match w with PNone => true | _ => false end
  | PStr a => match w with PStr b => str_eqb a b | _ => false end
  | PList l =>
      match w with
      | PList l' =>
          (fix go (l l' : list pyval) : bool :=
             match l, l' with
             | [], [] => true
             | x :: l, y :: l' => py_eqb x y && go l l'
             | _, _ => false
             end) l l'
      | _ => false
      end
  | PDict d =>
      match w with
      | PDict d' =>
          (length d =? length d')%nat &&
          (fix go (d : dict) : bool :=
             match d with
             | [] => true
             | (k, x) :: d =>
                 match dget k d' with
                 | Some y => py_eqb x y
                 | None => false
                 end && go d
             end) d
      | _ => false
      end
  | _ =>
      match as_number v, as_number w with
      | Some x, Some y => number_eqb x y
      | _, _ => false
      end
  end.

(** [v in l] for a list [l]. *)
Definition py_in (v : pyval) (l : list pyval) : bool := existsb (py_eqb v) l.

Definition is_str (v : pyval) : bool :=
  match v with PStr _ => true | _ => false end.
Definition is_dict (v : pyval) : bool :=
  match v with PDict _ => true | _ => false end.
Definition is_list (v : pyval) : bool :=
  match v with PList _ => true | _ => false end.
Definition is_none (v : pyval) : bool :=
  match v with PNone => true | _ => false end.
Definition is_bool (v : pyval) : bool :=
  match v with PBool _ => true | _ => false end.

(** [isinstance(v, int)]: a Python [bool] is an [int]. *)
Definition is_int (v : pyval) : bool :=
  match v with PInt _ | PBool _ => true | _ => false end.

Definition as_str (v : pyval) : option string :=
  match v with PStr s => Some s | _ => None end.

Definition str_or (v : pyval) (default : string) : string :=
  match v with PStr s => s | _ => default end.

(** Values that a Python [dict] or [set] accepts as a key. *)
Definition hashable (v : pyval) : bool :=
  match v with PList _ | PDict _ => false | _ => true end.

(** ** [repr] of a string, as [f"{value!r}"] prints it *)

Definition hex_digit (n : N) : ascii :=
  ascii_of_N (if (n <? 10)%N then 48 + n else 87 + n).

(** Latin-1 characters that [str.isprintable] rejects. *)
Definition unprintable (c : ascii) : bool :=
  let n := ascii_n c in
  ((n <? 32) || (127 <=? n) && (n <=? 160) || (n =? 173))%N.

Definition quote_char : ascii := "034"%char.

Definition repr_char (quote : ascii) (c : ascii) : string :=
  if bool_decide (c = "\"%char) then "\\"
  else if bool_decide (c = quote) then String "\" (String c EmptyString)
  else if bool_decide (c = "009"%char) then "\t"
  else if bool_decide (c = "010"%char) then "\n"
  else if bool_decide (c = "013"%char) then "\r"
  else if unprintable c then
    "\x" +:+ String (hex_digit (ascii_n c / 16)%N)
               (String (hex_digit (ascii_n c mod 16)%N) EmptyString)
  else String c EmptyString.

Fixpoint string_concat_map (f : ascii -> string) (s : string) : string :=
  match s with
  | EmptyString => EmptyString
  | String c s' => f c +:+ string_concat_map f s'
  end.

Definition str_repr (s : string) : string :=
  let quote :=
    if char_in "'" s && negb (char_in quote_char s)
    then quote_char else "'"%char in
  String quote (string_concat_map (repr_char quote) s)
    +:+ String quote EmptyString.

(** ** [int(v)] *)

Definition is_space (c : ascii) : bool :=
  in_range "009" "013" c || in_range "028" " " c
  || bool_decide (c = "133"%char) || bool_decide (c = "160"%char).

Fixpoint string_lstrip (s : string) : string :=
  match s with
  | String c s' => if is_space c then string_lstrip s' else s
  | EmptyString => EmptyString
  end.

Fixpoint string_rstrip (s : string) : string :=
  match s with
  | String c s' =>
      match string_rstrip s' with
      | EmptyString => if is_space c then EmptyString else String c EmptyString
      | s'' => String c s''
      end
  | EmptyString => EmptyString
  end.

(** [s.strip()]. *)
Definition string_strip (s : string) : string := string_rstrip (string_lstrip s).

(** Decimal digits with single underscores between digits; [prev] says that
    the previous character was a digit. *)
Fixpoint parse_digits (acc : Z) (prev : bool) (s : string) : option Z :=
  match s with
  | EmptyString => if prev then Some acc else None
  | String c s' =>
      if is_digit c
      then parse_digits (10 * acc + (Z.of_N (ascii_n c) - 48)) true s'
      else if bool_decide (c = "_"%char) && prev
      then parse_digits acc false s'
      else None
  end.

Definition parse_int (s : string) : option Z :=
  match string_strip s with
  | String "-" s' => Z.opp <$> parse_digits 0 false s'
  | String "+" s' => parse_digits 0 false s'
  | s' => parse_digits 0 false s'
  end.

Definition py_int (v : pyval) : result Z :=
  match v with
  | PInt z => Ok z
  | PBool b => Ok (Z.b2z b)
  | PFloat f =>
      match f with
      | S754_nan => Err (ValueError "cannot convert float NaN to integer")
      | S754_infinity _ => Err OverflowError
      | _ =>
          match float_parts f with
          | Some (m, e) => Ok (if 0 <=? e then m * 2 ^ e else Z.quot m (2 ^ (- e)))
          | None => Ok 0
          end
      end
  | PStr s =>
      match parse_int s with
      | Some z => Ok z
      | None => Err (ValueError "invalid literal for int() with base 10")
      end
  | _ => Err TypeError
  end.

(** ** Lemmas on dictionaries *)

Lemma dget_dset_eq k v d : dget k (dset k v d) = Some v.
Proof.
  induction d as [|[k' v'] d IH]; simpl; [by rewrite str_eqb_refl|].
  destruct (str_eqb k k') eqn:E; simpl; by rewrite E.
Qed.

Lemma dget_dset_ne k k' v d : k <> k' -> dget k (dset k' v d) = dget k d.
Proof.
  intros Hne. apply str_eqb_neq in Hne as E.
  induction d as [|[k2 v2] d IH]; simpl; [by rewrite E|].
  destruct (str_eqb k' k2) eqn:E2; simpl.
  - apply str_eqb_eq in E2 as <-. by rewrite E.
  - by rewrite IH.
Qed.

Lemma dget_dset k k' v d :
  dget k (dset k' v d) = if str_eqb k k' then Some v else dget k d.
Proof.
  destruct (str_eqb k k') eqn:E.
  - apply str_eqb_eq in E as ->. apply dget_dset_eq.
  - apply str_eqb_neq in E. by apply dget_dset_ne.
Qed.

Lemma dget_ddel k k' d :
  dget k (ddel k' d) = if str_eqb k k' then None else dget k d.
Proof.
  induction d as [|[k2 v2] d IH]; simpl; [by destruct (str_eqb k k')|].
  unfold ddel in *. rewrite filter_cons.
  destruct (decide (str_eqb k' k2 = false)) as [E|E].
  - simpl. rewrite IH. destruct (str_eqb k k2) eqn:E2; [|done].
    apply str_eqb_eq in E2 as <-.
    destruct (str_eqb k k') eqn:E3; [|done].
    apply str_eqb_eq in E3 as <-. by rewrite str_eqb_refl in E.
  - rewrite IH. apply not_false_is_true, str_eqb_eq in E as <-.
    by destruct (str_eqb k k').
Qed.

Lemma dkeys_dset k v d :
  dkeys (dset k v d) = if dhas k d then dkeys d else dkeys d ++ [k].
Proof.
  unfold dhas. induction d as [|[k' v'] d IH]; simpl; [done|].
  destruct (str_eqb k k'); simpl; [done|]. unfold dkeys in *. rewrite IH.
  by destruct (dget k d).
Qed.

Lemma dget_Some_elem k v d : dget k d = Some v -> (k, v) ∈ d.
Proof.
  induction d as [|[k' v'] d IH]; simpl; [done|].
  destruct (str_eqb k k') eqn:E; [|set_solver].
  apply str_eqb_eq in E as ->. intros [= ->]. left.
Qed.

Lemma dget_None k d : dget k d = None <-> k ∉ dkeys d.
Proof.
  induction d as [|[k' v'] d IH]; simpl; [set_solver|].
  destruct (str_eqb k k') eqn:E.
  - apply str_eqb_eq in E as ->. set_solver.
  - apply str_eqb_neq in E. rewrite IH. unfold dkeys. simpl. set_solver.
Qed.

Lemma dhas_elem k d : dhas k d = true <-> k ∈ dkeys d.
Proof.
  unfold dhas. destruct (dget k d) as [v|] eqn:E.
  - split; [intros _|done]. destruct (decide (k ∈ dkeys d)) as [?|H]; [done|].
    apply dget_None in H. congruence.
  - apply dget_None in E. done.
Qed.

Lemma dget_elem k v d : NoDup (dkeys d) -> (k, v) ∈ d -> dget k d = Some v.
Proof.
  induction d as [|[k' v'] d IH]; simpl; [set_solver|].
  intros [Hk Hd]%NoDup_cons [[= -> ->]|Hin]%elem_of_cons.
  - by rewrite str_eqb_refl.
  - destruct (str_eqb k k') eqn:E; [|by apply IH].
    apply str_eqb_eq in E as ->. destruct Hk. unfold dkeys.
    apply list_elem_of_fmap. by exists (k', v).
Qed.

Lemma dset_NoDup k v d : NoDup (dkeys d) -> NoDup (dkeys (dset k v d)).
Proof.
  intros Hd. rewrite dkeys_dset. unfold dhas.
  destruct (dget k d) eqn:E; [done|]. apply dget_None in E.
  apply NoDup_app; split; [done|]. split; [set_solver|apply NoDup_singleton].
Qed.

(** ** Lemmas on equality *)

Lemma py_eqb_str_r v s : py_eqb v (PStr s) = true <-> v = PStr s.
Proof.
  destruct v; simpl; try (split; discriminate).
  rewrite str_eqb_eq. split; congruence.
Qed.

Lemma py_eqb_str_l v s : py_eqb (PStr s) v = true <-> v = PStr s.
Proof.
  destruct v; simpl; try (split; discriminate).
  rewrite str_eqb_eq. split; congruence.
Qed.

Lemma py_in_str s l : py_in (PStr s) l = true <-> PStr s ∈ l.
Proof.
  unfold py_in. rewrite existsb_exists. split.
  - intros (x & Hx & ->%py_eqb_str_l). by apply list_elem_of_In.
  - intros Hin. exists (PStr s). split; [by apply list_elem_of_In|].
    by apply py_eqb_str_l.
Qed.

Lemma py_in_strs s l : py_in (PStr s) (PStr <$> l) = true <-> s ∈ l.
Proof.
  rewrite py_in_str. rewrite list_elem_of_fmap. split; [|eauto].
  by intros (? & [= ->] & ?).
Qed.


(** [v in {a, b, ...}] for a set of strings or numbers: an unhashable [v]
    raises. *)
Definition in_set (v : pyval) (l : list pyval) : result bool :=
  if hashable v then Ok (py_in v l) else Err TypeError.

(** ** [repr] of a value, as error messages show it

    The digits of a float are not represented. *)

Definition py_bool_repr (b : bool) : string := if b then "True" else "False".

Fixpoint py_repr (v : pyval) : string :=
  match v with
  | PNone => "None"
  | PBool b => py_bool_repr b
  | PInt z => pretty z
  | PFloat _ => "<float>"
  | PStr s => str_repr s
  | PList l => "[" +:+ string_join ", " (map py_repr l) +:+ "]"
  | PDict d =>
      "{" +:+ string_join ", " (map (fun kv => str_repr kv.1 +:+ ": " +:+ py_repr kv.2) d)
      +:+ "}"
  end.

(** [str(v)] *)
Definition py_str (v : pyval) : string := match v with PStr s => s | _ => py_repr v end.
