(* ===== verification/Text.v ===== *)
(** * Text of kernel files

    What the runtime uses of Python's strings to read files of [/proc] and of
    the cgroup file system. *)

From Stdlib Require Import Ascii.
From Stdlib Require String.
From S2P Require Import Prelude PyVal.
Open Scope Z_scope.

(** The characters at which [splitlines] breaks a line. *)
Definition is_line_break (c : ascii) : bool :=
  in_range "010" "013" c || in_range "028" "030" c || bool_decide (c = "133"%char).

(** [s.splitlines()]: a carriage return and a line feed break once, and there
    is no empty last line. *)
Fixpoint splitlines (s : string) : list string :=
  match s with
  | EmptyString => []
  | String "013" (String "010" s) => EmptyString :: splitlines s
  | String c s =>
      if is_line_break c then EmptyString :: splitlines s
      else match splitlines s with
           | w :: ws =>
               match s with
               | String d _ => String c w :: ws
               | EmptyString => [String c EmptyString]
               end
           | [] => [String c EmptyString]
           end
  end.

(** [s.split()]: the maximal runs without white space. *)
Fixpoint split_words (s : string) : list string :=
  match s with
  | EmptyString => []
  | String c s' =>
      if is_space c then split_words s'
      else match s' with
           | String d _ =>
               if is_space d then String c EmptyString :: split_words s'
               else match split_words s' with
                    | w :: ws => String c w :: ws
                    | [] => [String c EmptyString]
                    end
           | EmptyString => [String c EmptyString]
           end
  end.

(** [s.split(sep, 1)] into two parts, if [sep] occurs. *)
Fixpoint split_once (sep s : string) : option (string * string) :=
  if starts_with sep s then Some (EmptyString, string_drop (String.length sep) s)
  else match s with
       | EmptyString => None
       | String c s => '(a, b) ← split_once sep s; Some (String c a, b)
       end.

(** [s.replace(old, new)] for a nonempty [old]. *)
Fixpoint replace_from (old new : string) (skip : nat) (s : string) : string :=
  match s with
  | EmptyString => EmptyString
  | String c s' =>
      match skip with
      | S skip => replace_from old new skip s'
      | O => if starts_with old s
             then new +:+ replace_from old new (String.length old - 1) s'
             else String c (replace_from old new 0 s')
      end
  end.

Definition string_replace (old new s : string) : string := replace_from old new 0 s.

(** [list[i]] for a nonnegative index: [IndexError] when out of range. *)
Definition nth_or_raise {A} (l : list A) (i : nat) : result A :=
  match l !! i with Some x => Ok x | None => Err IndexError end.

Definition tab : string := String "009" EmptyString.
Definition newline : string := String "010" EmptyString.

(** The escapes of a path in [/proc/self/mountinfo]. *)
Definition _unescape_mount_path (value : string) : string :=
  string_replace "\134" "\"
    (string_replace "\012" newline (string_replace "\011" tab (string_replace "\040" " " value))).

(** Words without white space, joined by single blanks, are split again. *)
Definition is_word (w : string) : bool :=
  negb (str_eqb w EmptyString) && string_forallb (fun c => negb (is_space c)) w.

Lemma split_words_word w : is_word w = true -> split_words w = [w].
Proof.
  unfold is_word. rewrite andb_true_iff. intros [Hne Hw].
  induction w as [|c w IH]; [done|]. simpl in Hw. apply andb_true_iff in Hw as [Hc Hw].
  apply negb_true_iff in Hc. simpl. rewrite Hc. destruct w as [|d w]; [done|].
  simpl in Hw. apply andb_true_iff in Hw as [Hd Hw']. apply negb_true_iff in Hd. rewrite Hd.
  rewrite IH; [done|done|]. simpl. by rewrite Hd, Hw'.
Qed.

Lemma split_words_cons w s :
  is_word w = true -> split_words (w +:+ String " " s) = w :: split_words s.
Proof.
  unfold is_word. rewrite andb_true_iff. intros [Hne Hw].
  induction w as [|c w IH]; [done|]. simpl in Hw. apply andb_true_iff in Hw as [Hc Hw].
  apply negb_true_iff in Hc. rewrite string_app_cons. cbn [split_words]. rewrite Hc.
  destruct w as [|d w]; [reflexivity|].
  assert (negb (str_eqb (String d w) EmptyString) = true) as Hne' by done.
  specialize (IH Hne' Hw). simpl in Hw. apply andb_true_iff in Hw as [Hd Hw'].
  apply negb_true_iff in Hd. rewrite string_app_cons in *. by rewrite Hd, IH.
Qed.

Lemma split_words_join ws :
  forallb is_word ws = true -> split_words (string_join " " ws) = ws.
Proof.
  induction ws as [|w [|v ws] IH]; simpl; [done|..].
  - rewrite andb_true_r. apply split_words_word.
  - rewrite andb_true_iff. intros [Hw H]. etrans; [by apply split_words_cons|]. f_equal.
    by apply IH.
Qed.
