(* ===== verification/Ids.v ===== *)
(** * Identifiers

    [ID_RE] and [validate_id] of [src/src/allox/workspace/store.py]: agent,
    session, checkpoint and transaction identifiers become path components, so
    what the regular expression excludes is what confines every path the store
    builds. *)

From S2P Require Import Prelude PyVal.
From Stdlib Require Import Ascii.
From Stdlib Require String.
Open Scope Z_scope.

(** ** The identifier pattern [^[A-Za-z0-9][A-Za-z0-9_.-]{0,63}$], full match *)

Definition id_char (c : ascii) : bool := is_alnum c || char_in c "_.-".

Definition ID_RE (s : string) : bool :=
  match s with
  | EmptyString => false
  | String c s' =>
      is_alnum c && string_forallb id_char s' && (String.length s' <=? 63)%nat
  end.

Definition validate_id (kind value : string) : result string :=
  if negb (ID_RE value)
  then Err (WorkspaceError ("invalid " +:+ kind +:+ " id: " +:+ str_repr value))
  else Ok value.

(** ** What a validated identifier cannot be *)

Lemma validate_id_Ok kind s t : validate_id kind s = Ok t <-> t = s /\ ID_RE s = true.
Proof.
  unfold validate_id. destruct (ID_RE s); simpl; split; naive_solver.
Qed.

Lemma validate_id_valid kind s : ID_RE s = true -> validate_id kind s = Ok s.
Proof. intros H. by apply validate_id_Ok. Qed.

Lemma ID_RE_cons s :
  ID_RE s = true ->
  exists c s', s = String c s' /\ is_alnum c = true /\ string_forallb id_char s' = true.
Proof.
  destruct s as [|c s']; [done|]. simpl.
  intros [[? ?]%andb_prop _]%andb_prop. eauto.
Qed.

Lemma ID_RE_chars s : ID_RE s = true -> string_forallb id_char s = true.
Proof.
  intros (c & s' & -> & Hc & Hs)%ID_RE_cons. simpl. rewrite Hs, andb_true_r.
  unfold id_char. by rewrite Hc.
Qed.

Lemma ID_RE_length s : ID_RE s = true -> (1 <= String.length s <= 64)%nat.
Proof.
  destruct s as [|c s']; [done|]. simpl.
  intros [_ ?%Nat.leb_le]%andb_prop. lia.
Qed.

Lemma char_in_forallb_false c f s :
  f c = false -> string_forallb f s = true -> char_in c s = false.
Proof.
  intros Hf. induction s as [|d s IH]; [done|]. simpl.
  intros [Hd Hs]%andb_prop. change (char_in c (String d s)) with
    (bool_decide (d = c) || char_in c s). rewrite (IH Hs), orb_false_r.
  apply bool_decide_eq_false. intros ->. congruence.
Qed.

Lemma ID_RE_no_slash s : ID_RE s = true -> char_in "/" s = false.
Proof. intros H%ID_RE_chars. by apply (char_in_forallb_false _ id_char). Qed.

(** An identifier does not start with a character that is not alphanumeric;
    so it is none of the reserved names below. *)
Lemma ID_RE_not_prefixed c s t :
  is_alnum c = false -> ID_RE s = true -> s <> String c t.
Proof. intros Hc (d & s' & -> & Hd & _)%ID_RE_cons [= -> _]. congruence. Qed.

Lemma ID_RE_reserved s :
  ID_RE s = true -> s ∉ [EmptyString; "."; ".."; "__live__"; ".allox"; ".allox-tmp"].
Proof.
  intros H. rewrite !not_elem_of_cons.
  repeat split; try (eapply ID_RE_not_prefixed; [|exact H]; reflexivity).
  - by intros ->.
  - set_solver.
Qed.

#[export] Hint Resolve validate_id_valid ID_RE_no_slash : allox.
