(* ===== verification/CheckpointIndex.v ===== *)
(** * The checkpoint lineage of one session

    [src/src/allox/workspace/checkpoint_index.py]: human metadata and a small
    DAG over the filesystem snapshots.  An index holds a head and a dictionary
    of metadata dictionaries; each operation follows the Python method, with
    the [TypeError]s and [AttributeError]s that malformed metadata gives.  The
    in-place list updates of the code act on lists owned by one metadata
    dictionary (the index is decoded from JSON), so an operation returns the
    updated index. *)

From S2P Require Import Prelude PyVal Ids.
From Stdlib Require String.
From stdpp Require Import gmap sorting pretty.
Open Scope Z_scope.

Definition LIVE_CHILD : string := "__live__".
Definition INDEX_VERSION : Z := 1.

Record index := Index { head : option string; checkpoints : gmap string dict }.

Definition empty_index : index := Index None ∅.

(** ** Decoding and encoding *)

Definition is_dict_entry (kv : string * pyval) : bool := is_dict kv.2.

Definition meta_entry (kv : string * pyval) : option (string * dict) :=
  match kv.2 with PDict m => Some (kv.1, m) | _ => None end.

Definition from_dict (value : dict) : result index :=
  if negb (py_eqb (dget_or "version" (PInt INDEX_VERSION) value) (PInt INDEX_VERSION))
  then Err (CheckpointIndexError "unsupported checkpoint index version")
  else
    let head := dgetn "head" value in
    let checkpoints := dget_or "checkpoints" (PDict []) value in
    if negb (is_none head) && negb (is_str head)
    then Err (CheckpointIndexError "checkpoint index head must be a string")
    else
      match checkpoints with
      | PDict entries =>
          if forallb is_dict_entry entries
          then Ok (Index (as_str head) (list_to_map (omap meta_entry entries)))
          else Err (CheckpointIndexError "checkpoint index entries are invalid")
      | _ => Err (CheckpointIndexError "checkpoint index entries are invalid")
      end.

Definition checkpoints_value (m : gmap string dict) : pyval :=
  PDict (prod_map id PDict <$> map_to_list m).

Definition to_dict (ix : index) : dict :=
  [("version", PInt INDEX_VERSION);
   ("head", pystr_opt (head ix));
   ("checkpoints", checkpoints_value (checkpoints ix))].

(** ** Lists of children *)

(** [meta.setdefault("child_ids", [])], which the callers then update. *)
Definition child_ids (m : dict) : pyval := dget_or "child_ids" (PList []) m.

Definition without (id : string) (l : list pyval) : list pyval :=
  List.filter (fun child => negb (py_eqb child (PStr id))) l.

(** [if id not in l: l.append(id)] *)
Definition append_absent (l : list pyval) (id : pyval) : list pyval :=
  if py_in id l then l else l ++ [id].

(** [children[:] = [child for child in children if child != id]]: only a list
    supports both the iteration and the slice assignment. *)
Definition drop_child (id : string) (m : dict) : result dict :=
  match child_ids m with
  | PList l => Ok (dset "child_ids" (PList (without id l)) m)
  | _ => Err TypeError
  end.

(** [if id not in children: children.append(id)], on any value. *)
Definition ensure_child (id : string) (m : dict) : result dict :=
  match child_ids m with
  | PList l => Ok (dset "child_ids" (PList (append_absent l (PStr id))) m)
  | PStr s => if string_contains id s then Ok m else Err AttributeError
  | PDict d => if dhas id d then Ok m else Err AttributeError
  | _ => Err TypeError
  end.

(** [for x in v] *)
Fixpoint string_chars (s : string) : list pyval :=
  match s with
  | EmptyString => []
  | String c s' => PStr (String c EmptyString) :: string_chars s'
  end.

Definition py_iter (v : pyval) : result (list pyval) :=
  match v with
  | PList l => Ok l
  | PStr s => Ok (string_chars s)
  | PDict d => Ok (PStr <$> dkeys d)
  | _ => Err TypeError
  end.

(** Apply [f] to the metadata of [id] when [id] is an indexed checkpoint. *)
Definition update_meta (f : dict -> result dict) (id : string)
    (cps : gmap string dict) : result (gmap string dict) :=
  match cps !! id with
  | Some m => m' ← f m; Ok (<[id:=m']> cps)
  | None => Ok cps
  end.

Definition update_head (f : dict -> result dict) (h : option string)
    (cps : gmap string dict) : result (gmap string dict) :=
  match h with Some h => update_meta f h cps | None => Ok cps end.

(** ** Operations *)

Definition new_meta (created_at_ns : Z) (origin : string)
    (message : option string) (pinned : bool) (metadata : pyval)
    (parent : option string) : dict :=
  [("created_at_ns", PInt created_at_ns);
   ("origin", PStr origin);
   ("message", pystr_opt message);
   ("pinned", PBool pinned);
   ("metadata", metadata);
   ("missing", PBool false);
   ("parent_id", pystr_opt parent);
   ("child_ids", PList [PStr LIVE_CHILD])].

Definition adopt_child (id : string) (m : dict) : result dict :=
  m' ← drop_child LIVE_CHILD m; ensure_child id m'.

Definition add (ix : index) (checkpoint_id : string) (created_at_ns : Z)
    (origin : string) (message : option string) (pinned : bool)
    (metadata : pyval) : result index :=
  match checkpoints ix !! checkpoint_id with
  | Some _ => Err (CheckpointIndexError ("checkpoint already indexed: " +:+ checkpoint_id))
  | None =>
      cps ← update_head (adopt_child checkpoint_id) (head ix) (checkpoints ix);
      Ok (Index (Some checkpoint_id)
            (<[checkpoint_id := new_meta created_at_ns origin message pinned
                                  metadata (head ix)]> cps))
  end.

Definition recovered_meta : dict :=
  [("created_at_ns", PInt 0);
   ("origin", PStr "filesystem-recovery");
   ("message", PNone);
   ("pinned", PBool false);
   ("metadata", PNone);
   ("missing", PBool false);
   ("parent_id", PNone);
   ("child_ids", PList [])].

(** [not meta.get("missing", False)] is the test of [resolve]. *)
Definition is_missing (m : dict) : bool :=
  py_truthy (dget_or "missing" (PBool false) m).

Definition stale_mark (actual_ids : gset string) (id : string) (m : dict) : bool :=
  xorb (is_missing m) (bool_decide (id ∉ actual_ids)).

Definition mark_missing (actual_ids : gset string) (id : string) (m : dict) : dict :=
  if stale_mark actual_ids id m
  then dset "missing" (PBool (bool_decide (id ∉ actual_ids))) m else m.

Definition unindexed (ix : index) (actual_ids : gset string) : gset string :=
  actual_ids ∖ dom (checkpoints ix).

Definition head_lost (ix : index) (actual_ids : gset string) : bool :=
  match head ix with
  | Some h => bool_decide (h ∉ actual_ids)
  | None => false
  end.

Definition reconcile (ix : index) (actual_ids : gset string) : index * bool :=
  let cps := gset_to_gmap recovered_meta (unindexed ix actual_ids) ∪ checkpoints ix in
  let marked := map_imap (fun id m => Some (mark_missing actual_ids id m)) cps in
  (Index (if head_lost ix actual_ids then None else head ix) marked,
   negb (bool_decide (unindexed ix actual_ids = ∅))
   || existsb (fun '(id, m) => stale_mark actual_ids id m) (map_to_list cps)
   || head_lost ix actual_ids).

(** [self.checkpoints.get(id, {}).get("parent_id")] *)
Definition parent_value (ix : index) (id : string) : pyval :=
  match checkpoints ix !! id with
  | Some m => dgetn "parent_id" m
  | None => PNone
  end.

Fixpoint climb (ix : index) (num_ancestors : Z) (steps : nat) (resolved : string)
    : result string :=
  match steps with
  | O => Ok resolved
  | S steps =>
      match parent_value ix resolved with
      | PStr parent => climb ix num_ancestors steps parent
      | _ => Err (CheckpointIndexError
               ("checkpoint lineage ends before ancestor " +:+ pretty num_ancestors))
      end
  end.

Definition prefix_match (checkpoint_id : string) (kv : string * dict) : bool :=
  starts_with checkpoint_id kv.1 && negb (is_missing kv.2).

Definition prefix_matches (ix : index) (checkpoint_id : string) : list string :=
  sort_strings (List.filter (prefix_match checkpoint_id)
                  (map_to_list (checkpoints ix))).*1.

Definition present (ix : index) (id : string) : bool :=
  match checkpoints ix !! id with
  | Some m => negb (is_missing m)
  | None => false
  end.

Definition resolve_prefix (ix : index) (checkpoint_id : string) : result string :=
  if present ix checkpoint_id then Ok checkpoint_id
  else
    match prefix_matches ix checkpoint_id with
    | [] => Err (CheckpointIndexError ("checkpoint does not exist: " +:+ checkpoint_id))
    | [m] => Ok m
    | _ => Err (CheckpointIndexError ("checkpoint prefix is ambiguous: " +:+ checkpoint_id))
    end.

Definition resolve_ancestor (ix : index) (num_ancestors : Z) : result string :=
  if num_ancestors <? 1
  then Err (CheckpointIndexError "num_ancestors must be >= 1")
  else
    match head ix with
    | None => Err (CheckpointIndexError "checkpoint lineage has no head")
    | Some h => climb ix num_ancestors (Z.to_nat (num_ancestors - 1)) h
    end.

Definition resolve (ix : index) (checkpoint_id : option string)
    (num_ancestors : option Z) : result string :=
  match checkpoint_id, num_ancestors with
  | None, Some n => resolve_ancestor ix n
  | Some id, None => resolve_prefix ix id
  | _, _ => Err (CheckpointIndexError
              "provide exactly one of checkpoint_id or num_ancestors")
  end.

Definition move_head (ix : index) (checkpoint_id : string) : result index :=
  match checkpoints ix !! checkpoint_id with
  | None => Err (CheckpointIndexError ("checkpoint is not indexed: " +:+ checkpoint_id))
  | Some _ =>
      cps ← update_head (drop_child LIVE_CHILD) (head ix) (checkpoints ix);
      cps' ← update_meta (ensure_child LIVE_CHILD) checkpoint_id cps;
      Ok (Index (Some checkpoint_id) cps')
  end.

(** The loop of [remove] that re-parents the children of the removed
    checkpoint.  A list or dictionary is not hashable, so looking it up
    raises; other values that are not strings are not keys. *)
Fixpoint reparent (parent : pyval) (children : list pyval) (cps : gmap string dict)
    : result (gmap string dict) :=
  match children with
  | [] => Ok cps
  | child :: children =>
      cps' ← match child with
             | PStr id => update_meta (fun m => Ok (dset "parent_id" parent m)) id cps
             | _ => if hashable child then Ok cps else Err TypeError
             end;
      reparent parent children cps'
  end.

(** The parent of the removed checkpoint adopts its children. *)
Definition inherit (checkpoint_id : string) (children : list pyval) (m : dict)
    : result dict :=
  match child_ids m with
  | PList l =>
      Ok (dset "child_ids"
            (PList (fold_left append_absent children (without checkpoint_id l))) m)
  | _ => Err TypeError
  end.

Definition remove (ix : index) (checkpoint_id : string) : result index :=
  match checkpoints ix !! checkpoint_id with
  | None => Ok ix
  | Some m =>
      let parent := dgetn "parent_id" m in
      listed ← py_iter (child_ids m);
      let children := without LIVE_CHILD listed in
      cps ← reparent parent children (checkpoints ix);
      cps' ← update_head (inherit checkpoint_id children) (as_str parent) cps;
      let h := if bool_decide (head ix = Some checkpoint_id)
               then as_str parent else head ix in
      cps'' ← update_head (ensure_child LIVE_CHILD) h (delete checkpoint_id cps');
      Ok (Index h cps'')
  end.

(** Sort key of [records]. *)
Fixpoint with_created (l : list (string * dict)) : result (list (Z * string * dict)) :=
  match l with
  | [] => Ok []
  | (id, m) :: l =>
      created ← py_int (dget_or "created_at_ns" (PInt 0) m);
      rest ← with_created l;
      Ok ((created, id, m) :: rest)
  end.

Definition record_le (x y : Z * string * dict) : Prop :=
  x.1.1 < y.1.1 \/ x.1.1 = y.1.1 /\ string_le x.1.2 y.1.2.

#[export] Instance record_le_dec x y : Decision (record_le x y).
Proof. unfold record_le. apply _. Defined.

Definition record_dict (x : Z * string * dict) : dict :=
  dupdate [("checkpoint_id", PStr x.1.2)] x.2.

Definition records (ix : index) : result (list dict) :=
  keyed ← with_created (map_to_list (checkpoints ix));
  Ok (record_dict <$> merge_sort record_le keyed).
