(* ===== verification/Lineage.v ===== *)
(** * The lineage an index stands for, and its invariant

    An abstract specification of [CheckpointIndex]: a head and a finite map
    from checkpoint to parent and set of children, where the marker
    ["__live__"] among the children of a checkpoint says that the live
    workspace descends from it.  [represents] relates an index to the lineage
    it stands for; the refinement lemmas show that each Python method, on an
    index that stands for a lineage, succeeds and performs the abstract
    operation.  The invariant [lin_wf] is stated and preserved on lineages. *)

From Stdlib Require String.
From stdpp Require Import gmap sorting.
From S2P Require Import Prelude PyVal Ids CheckpointIndex.
Open Scope Z_scope.

Record lnode := LNode { ln_parent : option string; ln_kids : gset string }.

Record lineage := Lineage { l_head : option string; l_nodes : gmap string lnode }.

Definition map_kids (f : gset string -> gset string) (n : lnode) : lnode :=
  LNode (ln_parent n) (f (ln_kids n)).

Definition alter_opt (f : lnode -> lnode) (h : option string)
    (m : gmap string lnode) : gmap string lnode :=
  match h with Some h => alter f h m | None => m end.

Definition l_add (c : string) (L : lineage) : lineage :=
  Lineage (Some c)
    (<[c := LNode (l_head L) {[LIVE_CHILD]}]>
       (alter_opt (map_kids (fun k => {[c]} ∪ k ∖ {[LIVE_CHILD]})) (l_head L) (l_nodes L))).

Definition l_move_head (c : string) (L : lineage) : lineage :=
  Lineage (Some c)
    (alter (map_kids (fun k => {[LIVE_CHILD]} ∪ k)) c
       (alter_opt (map_kids (fun k => k ∖ {[LIVE_CHILD]})) (l_head L) (l_nodes L))).

Definition l_reparent (p : option string) (ks : gset string) (m : gmap string lnode)
    : gmap string lnode :=
  map_imap (fun x n => Some (if bool_decide (x ∈ ks) then LNode p (ln_kids n) else n)) m.

Definition l_remove (c : string) (L : lineage) : lineage :=
  match l_nodes L !! c with
  | None => L
  | Some n =>
      let ks := ln_kids n ∖ {[LIVE_CHILD]} in
      let h := if bool_decide (l_head L = Some c) then ln_parent n else l_head L in
      Lineage h
        (alter_opt (map_kids (fun k => {[LIVE_CHILD]} ∪ k)) h
           (delete c
              (alter_opt (map_kids (fun k => ks ∪ k ∖ {[c]})) (ln_parent n)
                 (l_reparent (ln_parent n) ks (l_nodes L)))))
  end.

Definition l_reconcile (actual : gset string) (L : lineage) : lineage :=
  Lineage
    (match l_head L with
     | Some h => if bool_decide (h ∈ actual) then Some h else None
     | None => None
     end)
    (gset_to_gmap (LNode None ∅) (actual ∖ dom (l_nodes L)) ∪ l_nodes L).

(** ** Representation *)

Record meta_node (m : dict) (n : lnode) : Prop := MetaNode {
  mn_parent : dgetn "parent_id" m = pystr_opt (ln_parent n);
  mn_kids : exists cs, dget "child_ids" m = Some (PList (PStr <$> cs))
                       /\ NoDup cs /\ list_to_set cs = ln_kids n }.

Definition sim (cps : gmap string dict) (ns : gmap string lnode) : Prop :=
  forall x, option_Forall2 meta_node (cps !! x) (ns !! x).

Definition represents (ix : index) (L : lineage) : Prop :=
  head ix = l_head L /\ sim (checkpoints ix) (l_nodes L).

(** ** The invariant *)

Record lin_wf (L : lineage) : Prop := LinWf {
  wf_head : forall h, l_head L = Some h ->
    exists n, l_nodes L !! h = Some n /\ LIVE_CHILD ∈ ln_kids n;
  wf_names : l_nodes L !! LIVE_CHILD = None;
  wf_parent : forall x n p, l_nodes L !! x = Some n -> ln_parent n = Some p ->
    exists np, l_nodes L !! p = Some np /\ x ∈ ln_kids np;
  wf_kid : forall x n c, l_nodes L !! x = Some n -> c ∈ ln_kids n -> c <> LIVE_CHILD ->
    exists nc, l_nodes L !! c = Some nc /\ ln_parent nc = Some x;
  wf_acyclic : exists rank : string -> nat, forall x n p,
    l_nodes L !! x = Some n -> ln_parent n = Some p -> (rank p < rank x)%nat }.

(** The live marker is on the head and nowhere else. *)
Definition live_exact (L : lineage) : Prop :=
  forall x n, l_nodes L !! x = Some n -> LIVE_CHILD ∈ ln_kids n -> l_head L = Some x.

Definition index_wf (ix : index) : Prop := exists L, represents ix L /\ lin_wf L.

(** ** Lookup lemmas of the abstract operations *)

Lemma alter_opt_lookup f h m x :
  alter_opt f h m !! x =
    if bool_decide (h = Some x) then f <$> m !! x else m !! x.
Proof.
  unfold alter_opt. destruct h as [h|]; case_bool_decide as E; try done.
  - injection E as ->. by rewrite lookup_alter_eq.
  - rewrite lookup_alter_ne; congruence.
Qed.

Lemma l_reparent_lookup p ks m x :
  l_reparent p ks m !! x =
    (fun n => if bool_decide (x ∈ ks) then LNode p (ln_kids n) else n) <$> m !! x.
Proof. unfold l_reparent. rewrite map_lookup_imap. by destruct (m !! x). Qed.

(** ** The metadata updates implement the updates of nodes *)

Lemma meta_node_child_ids m n :
  meta_node m n -> exists cs, child_ids m = PList (PStr <$> cs)
                              /\ NoDup cs /\ list_to_set cs = ln_kids n.
Proof.
  intros [_ (cs & H & ?)]. exists cs. unfold child_ids, dget_or. by rewrite H.
Qed.

Lemma meta_node_set_kids m p k cs :
  dgetn "parent_id" m = pystr_opt p -> NoDup cs -> list_to_set cs = k ->
  meta_node (dset "child_ids" (PList (PStr <$> cs)) m) (LNode p k).
Proof.
  intros Hp Hnd Hk. split.
  - unfold dgetn, dget_or in *. by rewrite dget_dset_ne.
  - exists cs. by rewrite dget_dset_eq.
Qed.

Lemma without_strs id cs :
  without id (PStr <$> cs) = PStr <$> filter (fun c => c <> id) cs.
Proof.
  induction cs as [|c cs IH]; [done|].
  change (without id (PStr <$> c :: cs)) with
    (if negb (py_eqb (PStr c) (PStr id)) then PStr c :: without id (PStr <$> cs)
     else without id (PStr <$> cs)).
  rewrite filter_cons, IH. simpl. destruct (str_eqb c id) eqn:E; simpl.
  - apply str_eqb_eq in E. by rewrite decide_False by tauto.
  - apply str_eqb_neq in E. by rewrite decide_True.
Qed.

Lemma list_to_set_without (id : string) cs :
  list_to_set (C := gset string) (filter (fun c => c <> id) cs)
    = list_to_set cs ∖ {[id]}.
Proof.
  apply set_eq. intros x.
  rewrite elem_of_list_to_set, elem_of_difference, elem_of_singleton,
    elem_of_list_to_set, list_elem_of_filter. tauto.
Qed.

Lemma append_absent_strs id cs :
  append_absent (PStr <$> cs) (PStr id) =
    PStr <$> (if bool_decide (id ∈ cs) then cs else cs ++ [id]).
Proof.
  unfold append_absent.
  destruct (py_in (PStr id) (PStr <$> cs)) eqn:E.
  - apply py_in_strs in E. by rewrite bool_decide_eq_true_2.
  - rewrite bool_decide_eq_false_2; [by rewrite fmap_app|].
    rewrite <- py_in_strs. congruence.
Qed.

Lemma append_absent_NoDup (id : string) cs :
  NoDup cs -> NoDup (if bool_decide (id ∈ cs) then cs else cs ++ [id]).
Proof.
  intros. case_bool_decide; [done|]. apply NoDup_app.
  split; [done|]. split; [set_solver|apply NoDup_singleton].
Qed.

Lemma drop_child_sim id m n :
  meta_node m n ->
  exists m', drop_child id m = Ok m' /\ meta_node m' (map_kids (fun k => k ∖ {[id]}) n).
Proof.
  intros Hmn. destruct (meta_node_child_ids _ _ Hmn) as (cs & Hcs & Hnd & Hset).
  unfold drop_child. rewrite Hcs, without_strs. eexists. split; [done|].
  apply meta_node_set_kids; [apply Hmn|by apply NoDup_filter|].
  by rewrite list_to_set_without, Hset.
Qed.

Lemma ensure_child_sim id m n :
  meta_node m n ->
  exists m', ensure_child id m = Ok m' /\ meta_node m' (map_kids (fun k => {[id]} ∪ k) n).
Proof.
  intros Hmn. destruct (meta_node_child_ids _ _ Hmn) as (cs & Hcs & Hnd & Hset).
  unfold ensure_child. rewrite Hcs, append_absent_strs. eexists. split; [done|].
  apply meta_node_set_kids; [apply Hmn|by apply append_absent_NoDup|].
  rewrite <- Hset. case_bool_decide; rewrite ?list_to_set_app_L; set_solver.
Qed.

Lemma adopt_child_sim id m n :
  meta_node m n ->
  exists m', adopt_child id m = Ok m'
    /\ meta_node m' (map_kids (fun k => {[id]} ∪ k ∖ {[LIVE_CHILD]}) n).
Proof.
  intros Hmn. destruct (drop_child_sim LIVE_CHILD _ _ Hmn) as (m1 & H1 & Hm1).
  destruct (ensure_child_sim id _ _ Hm1) as (m2 & H2 & Hm2).
  exists m2. unfold adopt_child. rewrite H1. by split.
Qed.

Lemma append_all_strs ks cs :
  exists cs', fold_left append_absent (PStr <$> ks) (PStr <$> cs) = PStr <$> cs'
    /\ (NoDup cs -> NoDup cs')
    /\ list_to_set (C := gset string) cs' = list_to_set ks ∪ list_to_set cs.
Proof.
  revert cs. induction ks as [|k ks IH]; intros cs.
  { exists cs. split; [done|]. set_solver. }
  simpl. rewrite append_absent_strs.
  destruct (IH (if bool_decide (k ∈ cs) then cs else cs ++ [k])) as (cs' & H1 & H2 & H3).
  exists cs'. split; [done|]. split.
  - intros. by apply H2, append_absent_NoDup.
  - rewrite H3. case_bool_decide; set_solver.
Qed.

Lemma inherit_sim id ks m n :
  meta_node m n ->
  exists m', inherit id (PStr <$> ks) m = Ok m'
    /\ meta_node m' (map_kids (fun k => list_to_set ks ∪ k ∖ {[id]}) n).
Proof.
  intros Hmn. destruct (meta_node_child_ids _ _ Hmn) as (cs & Hcs & Hnd & Hset).
  unfold inherit. rewrite Hcs, without_strs.
  destruct (append_all_strs ks (filter (fun c => c <> id) cs)) as (cs' & -> & Hnd' & Hset').
  eexists. split; [done|].
  apply meta_node_set_kids; [apply Hmn|by apply Hnd', NoDup_filter|].
  by rewrite Hset', list_to_set_without, Hset.
Qed.

Definition simulates (f : dict -> result dict) (g : lnode -> lnode) : Prop :=
  forall m n, meta_node m n -> exists m', f m = Ok m' /\ meta_node m' (g n).

Lemma update_meta_sim f g x cps ns :
  simulates f g -> sim cps ns ->
  exists cps', update_meta f x cps = Ok cps' /\ sim cps' (alter g x ns).
Proof.
  intros Hfg Hsim. unfold update_meta. pose proof (Hsim x) as Hx.
  inversion Hx as [m n Hmn Hm Hn|Hm Hn].
  - destruct (Hfg _ _ Hmn) as (m' & -> & Hm'). eexists. split; [done|].
    intros y. destruct (decide (x = y)) as [->|Hne].
    + rewrite lookup_insert_eq, lookup_alter_eq, <- Hn. by constructor.
    + rewrite lookup_insert_ne, lookup_alter_ne by done. apply Hsim.
  - exists cps. split; [done|]. intros y.
    destruct (decide (x = y)) as [->|Hne].
    + rewrite <- Hm, lookup_alter_eq, <- Hn. constructor.
    + rewrite lookup_alter_ne by done. apply Hsim.
Qed.

Lemma update_head_sim f g h cps ns :
  simulates f g -> sim cps ns ->
  exists cps', update_head f h cps = Ok cps' /\ sim cps' (alter_opt g h ns).
Proof.
  destruct h as [h|]; simpl; [by apply update_meta_sim|]. eauto.
Qed.

Lemma sim_insert cps ns x m n :
  sim cps ns -> meta_node m n -> sim (<[x:=m]> cps) (<[x:=n]> ns).
Proof.
  intros Hsim Hmn y. destruct (decide (x = y)) as [->|].
  - rewrite !lookup_insert_eq. by constructor.
  - rewrite !lookup_insert_ne by done. apply Hsim.
Qed.

Lemma sim_delete cps ns x : sim cps ns -> sim (delete x cps) (delete x ns).
Proof.
  intros Hsim y. destruct (decide (x = y)) as [->|].
  - rewrite !lookup_delete_eq. constructor.
  - rewrite !lookup_delete_ne by done. apply Hsim.
Qed.

Lemma sim_None cps ns x : sim cps ns -> cps !! x = None <-> ns !! x = None.
Proof. intros Hsim. specialize (Hsim x). by inversion Hsim. Qed.

Lemma sim_dom cps ns : sim cps ns -> dom cps = dom ns.
Proof.
  intros Hsim. apply set_eq. intros x. rewrite !elem_of_dom.
  specialize (Hsim x). inversion Hsim; split; by intros [? [=]] || eauto.
Qed.

(** ** Refinement: each method performs the abstract operation *)

Lemma new_meta_node a o msg b md p :
  meta_node (new_meta a o msg b md p) (LNode p {[LIVE_CHILD]}).
Proof.
  split; [done|]. exists [LIVE_CHILD]. split; [done|].
  split; [apply NoDup_singleton|set_solver].
Qed.

Lemma add_refines ix L c a o msg b md :
  represents ix L -> l_nodes L !! c = None ->
  exists ix', add ix c a o msg b md = Ok ix' /\ represents ix' (l_add c L).
Proof.
  intros [Hh Hsim] Hc. unfold add. apply (sim_None _ _ _ Hsim) in Hc as ->.
  destruct (update_head_sim _ _ (head ix) _ _ (adopt_child_sim c) Hsim) as (cps & -> & Hs).
  eexists. split; [done|]. split; [done|]. simpl. rewrite <- Hh.
  apply sim_insert; [done|]. apply new_meta_node.
Qed.

Lemma move_head_refines ix L c :
  represents ix L -> is_Some (l_nodes L !! c) ->
  exists ix', move_head ix c = Ok ix' /\ represents ix' (l_move_head c L).
Proof.
  intros [Hh Hsim] [n Hc]. unfold move_head.
  destruct (checkpoints ix !! c) eqn:E.
  2:{ apply (sim_None _ _ _ Hsim) in E. congruence. }
  destruct (update_head_sim _ _ (head ix) _ _ (drop_child_sim LIVE_CHILD) Hsim)
    as (cps & -> & Hs). simpl.
  destruct (update_meta_sim _ _ c _ _ (ensure_child_sim LIVE_CHILD) Hs) as (cps' & -> & Hs').
  eexists. split; [done|]. split; [done|]. simpl. by rewrite <- Hh.
Qed.

Lemma reparent_sim p ks cps ns :
  sim cps ns ->
  exists cps', reparent (pystr_opt p) (PStr <$> ks) cps = Ok cps'
    /\ sim cps' (l_reparent p (list_to_set ks) ns).
Proof.
  revert cps ns. induction ks as [|k ks IH]; intros cps ns Hsim.
  { exists cps. split; [done|]. intros x. rewrite l_reparent_lookup.
    specialize (Hsim x). destruct (ns !! x); simpl; [|done].
    by rewrite bool_decide_eq_false_2 by set_solver. }
  assert (simulates (fun m => Ok (dset "parent_id" (pystr_opt p) m))
            (fun n => LNode p (ln_kids n))) as Hset.
  { intros m n [Hp (cs & Hcs & ?)]. eexists. split; [done|]. split.
    - unfold dgetn, dget_or. by rewrite dget_dset_eq.
    - exists cs. by rewrite dget_dset_ne. }
  destruct (update_meta_sim _ _ k _ _ Hset Hsim) as (cps1 & H1 & Hs1).
  destruct (IH _ _ Hs1) as (cps2 & H2 & Hs2).
  exists cps2. simpl. rewrite H1. split; [done|].
  intros x. specialize (Hs2 x). rewrite l_reparent_lookup in *.
  destruct (decide (k = x)) as [->|Hne].
  - rewrite lookup_alter_eq in Hs2. rewrite bool_decide_eq_true_2 by set_solver.
    destruct (ns !! x) as [n|]; simpl in *; [|done]. by destruct (bool_decide _).
  - rewrite lookup_alter_ne in Hs2 by done.
    assert (bool_decide (x ∈ {[k]} ∪ list_to_set (C := gset string) ks)
            = bool_decide (x ∈ list_to_set (C := gset string) ks)) as ->
      by (apply bool_decide_ext; set_solver).
    done.
Qed.

Lemma remove_refines ix L c :
  represents ix L ->
  exists ix', remove ix c = Ok ix' /\ represents ix' (l_remove c L).
Proof.
  intros [Hh Hsim]. unfold remove, l_remove. pose proof (Hsim c) as Hc.
  inversion Hc as [m n Hmn Hm Hn|Hm Hn]; [|by exists ix].
  destruct (meta_node_child_ids _ _ Hmn) as (cs & Hcs & Hnd & Hset).
  rewrite Hcs, (mn_parent _ _ Hmn). simpl. rewrite without_strs.
  set (ks := filter (fun k => k <> LIVE_CHILD) cs).
  assert (list_to_set ks = ln_kids n ∖ {[LIVE_CHILD]}) as Hks
    by (subst ks; by rewrite list_to_set_without, Hset).
  destruct (reparent_sim (ln_parent n) ks _ _ Hsim) as (cps1 & -> & Hs1). simpl.
  assert (as_str (pystr_opt (ln_parent n)) = ln_parent n) as Has by by destruct (ln_parent n).
  rewrite !Has.
  destruct (update_head_sim _ _ (ln_parent n) _ _ (inherit_sim c ks) Hs1) as (cps2 & -> & Hs2).
  simpl. rewrite Hh, <- Hks.
  destruct (update_head_sim _ _
    (if bool_decide (l_head L = Some c) then ln_parent n else l_head L) _ _
    (ensure_child_sim LIVE_CHILD) (sim_delete _ _ c Hs2)) as (cps3 & -> & Hs3).
  eexists. split; [done|]. by split.
Qed.

Lemma mark_missing_node actual x m n :
  meta_node m n -> meta_node (mark_missing actual x m) n.
Proof.
  intros [Hp (cs & Hcs & Hrest)]. unfold mark_missing.
  destruct (stale_mark _ _ _); [|split; [done|by exists cs]]. split.
  - unfold dgetn, dget_or in *. by rewrite dget_dset_ne.
  - exists cs. by rewrite dget_dset_ne.
Qed.

Lemma recovered_meta_node : meta_node recovered_meta (LNode None ∅).
Proof. split; [done|]. exists []. split; [done|]. split; [constructor|done]. Qed.

Lemma reconcile_refines ix L actual :
  represents ix L -> represents (reconcile ix actual).1 (l_reconcile actual L).
Proof.
  intros [Hh Hsim]. split; simpl.
  - unfold head_lost. rewrite Hh. destruct (l_head L) as [h|]; [|done].
    by repeat case_bool_decide.
  - intros x. rewrite map_lookup_imap.
    assert (sim (gset_to_gmap recovered_meta (unindexed ix actual) ∪ checkpoints ix)
             (gset_to_gmap (LNode None ∅) (actual ∖ dom (l_nodes L)) ∪ l_nodes L)) as Hs.
    { unfold unindexed. rewrite (sim_dom _ _ Hsim). intros y.
      rewrite !lookup_union, !lookup_gset_to_gmap.
      destruct (decide (y ∈ actual ∖ dom (l_nodes L))) as [Hy|Hy].
      - rewrite !option_guard_True by done.
        assert (l_nodes L !! y = None) as Hn by (apply not_elem_of_dom; set_solver).
        rewrite Hn. apply (sim_None _ _ _ Hsim) in Hn as ->. simpl.
        constructor. apply recovered_meta_node.
      - rewrite !option_guard_False by done. rewrite !(left_id_L None _). apply Hsim. }
    specialize (Hs x). inversion Hs; simpl; constructor. by apply mark_missing_node.
Qed.

(** * The lineage invariant and its preservation

    [lin_wf] is preserved by the abstract operations; through the refinement
    lemmas of [Lineage.v] it becomes an invariant of every index reachable
    from the empty one by the Python methods. *)

(** Case analysis on what an abstract operation did to a looked-up node. *)
Ltac node_inv :=
  repeat match goal with
  | H : _ <$> _ = Some _ |- _ => apply fmap_Some in H as (? & ? & ?)
  | H : <[_ := _]> _ !! _ = Some _ |- _ =>
      apply lookup_insert_Some in H as [[? ?]|[? ?]]
  | H : delete _ _ !! _ = Some _ |- _ => apply lookup_delete_Some in H as [? ?]
  | H : alter _ _ _ !! _ = Some _ |- _ =>
      apply lookup_alter_Some in H as [(? & ? & ? & ?)|[? ?]]
  | H : alter_opt _ _ _ !! _ = Some _ |- _ => rewrite alter_opt_lookup in H
  | H : l_reparent _ _ _ !! _ = Some _ |- _ => rewrite l_reparent_lookup in H
  | H : (if bool_decide _ then _ else _) = Some _ |- _ => case_bool_decide
  end; simplify_eq/=.

Section add_wf.
Context (L : lineage) (c : string).
Hypothesis Hfresh : l_nodes L !! c = None.
Hypothesis Hname : c <> LIVE_CHILD.
Hypothesis Hwf : lin_wf L.

Lemma l_add_lookup x :
  l_nodes (l_add c L) !! x =
    if bool_decide (x = c) then Some (LNode (l_head L) {[LIVE_CHILD]})
    else if bool_decide (l_head L = Some x)
    then map_kids (fun k => {[c]} ∪ k ∖ {[LIVE_CHILD]}) <$> l_nodes L !! x
    else l_nodes L !! x.
Proof.
  unfold l_add; simpl. case_bool_decide as E.
  - subst. by rewrite lookup_insert_eq.
  - rewrite lookup_insert_ne by done. apply alter_opt_lookup.
Qed.

(** Every old node survives, with its parent; its children only lose the
    live marker and, on the old head, gain [c]. *)
Lemma l_add_old x n :
  l_nodes L !! x = Some n ->
  exists n', l_nodes (l_add c L) !! x = Some n' /\ ln_parent n' = ln_parent n
    /\ (forall k, k <> LIVE_CHILD -> k ∈ ln_kids n -> k ∈ ln_kids n').
Proof.
  intros Hx. rewrite l_add_lookup, bool_decide_eq_false_2 by congruence.
  rewrite Hx. case_bool_decide; eexists; (split; [done|]); simpl.
  - split; [done|]. set_solver.
  - by split.
Qed.

Lemma l_add_inv x n' :
  l_nodes (l_add c L) !! x = Some n' ->
  (x = c /\ n' = LNode (l_head L) {[LIVE_CHILD]}) \/
  (x <> c /\ exists n, l_nodes L !! x = Some n /\ ln_parent n' = ln_parent n
    /\ (forall k, k ∈ ln_kids n' -> k ∈ ln_kids n \/ k = c /\ l_head L = Some x)
    /\ (l_head L = Some x -> LIVE_CHILD ∉ ln_kids n')).
Proof.
  rewrite l_add_lookup. case_bool_decide; [intros [= <-]; by left|].
  right. split; [done|]. case_bool_decide; node_inv.
  - eexists. split; [done|]. split; [done|]. split; set_solver.
  - eexists. split; [done|]. split; [done|]. split; [auto|done].
Qed.

Lemma l_add_wf : lin_wf (l_add c L).
Proof.
  destruct Hwf as [Hhead Hn Hpar Hkid (rank & Hrank)]. split.
  - intros h [= <-]. rewrite l_add_lookup, bool_decide_eq_true_2 by done.
    eexists. split; [done|]. set_solver.
  - rewrite l_add_lookup, bool_decide_eq_false_2, Hn by congruence.
    by case_bool_decide.
  - intros x n' p Hx Hp. apply l_add_inv in Hx as [[-> ->]|(Hxc & n & Hx & Hpn & _)].
    + simpl in Hp. destruct (Hhead _ Hp) as (np & Hnp & _).
      rewrite l_add_lookup, bool_decide_eq_false_2, bool_decide_eq_true_2, Hnp by congruence.
      eexists. split; [done|]. set_solver.
    + destruct (Hpar _ _ _ Hx (eq_trans (eq_sym Hpn) Hp)) as (np & Hnp & Hin).
      destruct (l_add_old _ _ Hnp) as (np' & ? & _ & Hk). exists np'. split; [done|].
      apply Hk; [|done]. intros ->. by rewrite Hn in Hx.
  - intros x n' k Hx Hk Hlive.
    apply l_add_inv in Hx as [[-> ->]|(Hxc & n & Hx & _ & Hkids & _)]; [set_solver|].
    destruct (Hkids _ Hk) as [Hin|[-> Hh]].
    + destruct (Hkid _ _ _ Hx Hin Hlive) as (nc & Hnc & <-).
      destruct (l_add_old _ _ Hnc) as (nc' & ? & ? & _). by exists nc'.
    + rewrite l_add_lookup, bool_decide_eq_true_2 by done. by eexists.
  - exists (fun x => if bool_decide (x = c)
      then match l_head L with Some h => S (rank h) | None => 0%nat end else rank x).
    intros x n' p Hx Hp. apply l_add_inv in Hx as [[-> ->]|(Hxc & n & Hx & Hpn & _)].
    + simpl in Hp. destruct (Hhead _ Hp) as (np & Hnp & _).
      rewrite bool_decide_eq_false_2, bool_decide_eq_true_2, Hp by congruence. lia.
    + rewrite Hpn in Hp. destruct (Hpar _ _ _ Hx Hp) as (np & Hnp & _).
      rewrite !bool_decide_eq_false_2 by congruence. by eapply Hrank.
Qed.

Lemma l_add_live : live_exact L -> live_exact (l_add c L).
Proof.
  intros Hlive x n' Hx Hin.
  apply l_add_inv in Hx as [[-> ->]|(Hxc & n & Hx & _ & Hkids & Hh)]; [done|].
  destruct (Hkids _ Hin) as [Hin'|[? ?]]; [|congruence].
  by destruct (Hh (Hlive _ _ Hx Hin')).
Qed.
End add_wf.

Section move_wf.
Context (L : lineage) (c : string).
Hypothesis Hc : is_Some (l_nodes L !! c).
Hypothesis Hwf : lin_wf L.

Definition move_kids (x : string) (k : gset string) : gset string :=
  if bool_decide (x = c)
  then {[LIVE_CHILD]} ∪ (if bool_decide (l_head L = Some x) then k ∖ {[LIVE_CHILD]} else k)
  else if bool_decide (l_head L = Some x) then k ∖ {[LIVE_CHILD]} else k.

Lemma l_move_lookup x :
  l_nodes (l_move_head c L) !! x = map_kids (move_kids x) <$> l_nodes L !! x.
Proof.
  unfold l_move_head, move_kids; simpl. destruct (decide (c = x)) as [->|Hne].
  - rewrite lookup_alter_eq, alter_opt_lookup, (bool_decide_eq_true_2 (x = x)) by done.
    case_bool_decide; by destruct (l_nodes L !! x).
  - rewrite lookup_alter_ne, alter_opt_lookup by done.
    rewrite (bool_decide_eq_false_2 (x = c)) by congruence.
    case_bool_decide; by destruct (l_nodes L !! x) as [[]|].
Qed.

Lemma move_kids_spec x k k' :
  k' <> LIVE_CHILD -> k' ∈ move_kids x k <-> k' ∈ k.
Proof. intros. unfold move_kids. repeat case_bool_decide; set_solver. Qed.

Lemma l_move_head_wf : lin_wf (l_move_head c L).
Proof.
  destruct Hwf as [Hhead Hn Hpar Hkid (rank & Hrank)]. split.
  - intros h [= <-]. destruct Hc as [n Hn']. rewrite l_move_lookup, Hn'.
    eexists. split; [done|]. simpl. unfold move_kids.
    rewrite bool_decide_eq_true_2 by done. set_solver.
  - by rewrite l_move_lookup, Hn.
  - intros x n p Hx Hp. rewrite l_move_lookup in Hx. node_inv.
    destruct (Hpar _ _ _ H Hp) as (np & Hnp & Hin).
    rewrite l_move_lookup, Hnp. eexists. split; [done|]. simpl.
    apply move_kids_spec; [|done]. intros ->. congruence.
  - intros x n k Hx Hk Hlive. rewrite l_move_lookup in Hx. node_inv.
    apply move_kids_spec in Hk; [|done].
    destruct (Hkid _ _ _ H Hk Hlive) as (nc & Hnc & Hp).
    rewrite l_move_lookup, Hnc. eexists. by split.
  - exists rank. intros x n p Hx Hp. rewrite l_move_lookup in Hx. node_inv.
    by eapply Hrank.
Qed.

Lemma l_move_head_live : live_exact L -> live_exact (l_move_head c L).
Proof.
  intros Hlive x n Hx Hin. rewrite l_move_lookup in Hx. node_inv.
  unfold move_kids in Hin.
  repeat case_bool_decide; simplify_eq/=; try done; try set_solver. 
Qed.
End move_wf.

Section remove_wf.
Context (L : lineage) (c : string) (n : lnode).
Hypothesis Hc : l_nodes L !! c = Some n.
Hypothesis Hwf : lin_wf L.

(** Parent and children of the surviving node [x]. *)
Definition rm_parent (m : lnode) : option string :=
  if bool_decide (ln_parent m = Some c) then ln_parent n else ln_parent m.

Definition rm_kids (x : string) (k : gset string) : gset string :=
  (if bool_decide (l_head L = Some c /\ ln_parent n = Some x)
   then {[LIVE_CHILD]} else ∅)
  ∪ (if bool_decide (ln_parent n = Some x)
     then ln_kids n ∖ {[LIVE_CHILD]} ∪ k ∖ {[c]} else k).

Lemma parent_c_not_c : ln_parent n <> Some c.
Proof.
  intros Hp. destruct (wf_acyclic _ Hwf) as (rank & Hr).
  specialize (Hr _ _ _ Hc Hp). lia.
Qed.

Lemma kid_of_c x m :
  l_nodes L !! x = Some m ->
  (x ∈ ln_kids n ∖ {[LIVE_CHILD]} <-> ln_parent m = Some c).
Proof.
  intros Hx. split.
  - intros [Hin Hl]%elem_of_difference. rewrite elem_of_singleton in Hl.
    destruct (wf_kid _ Hwf _ _ _ Hc Hin Hl) as (m' & Hm' & ?). congruence.
  - intros Hp. destruct (wf_parent _ Hwf _ _ _ Hx Hp) as (n' & Hn' & Hin).
    assert (x <> LIVE_CHILD) by (intros ->; rewrite (wf_names _ Hwf) in Hx; done).
    assert (n' = n) as -> by congruence. set_solver.
Qed.

Lemma live_kid_head x m :
  l_nodes L !! x = Some m -> l_head L = Some x -> LIVE_CHILD ∈ ln_kids m.
Proof.
  intros Hx Hh. destruct (wf_head _ Hwf _ Hh) as (m' & ? & ?). congruence.
Qed.

Lemma l_remove_lookup x :
  l_nodes (l_remove c L) !! x =
    if bool_decide (x = c) then None
    else (fun m => LNode (rm_parent m) (rm_kids x (ln_kids m))) <$> l_nodes L !! x.
Proof.
  unfold l_remove. rewrite Hc. simpl.
  rewrite alter_opt_lookup, lookup_delete, alter_opt_lookup, l_reparent_lookup.
  destruct (decide (c = x)) as [<-|Hne].
  { rewrite (bool_decide_eq_true_2 (c = c)) by done. by repeat case_bool_decide. }
  rewrite (bool_decide_eq_false_2 (x = c)) by congruence.
  destruct (l_nodes L !! x) as [m|] eqn:Hx; [|by repeat case_bool_decide]. simpl.
  rewrite (bool_decide_ext _ _ (kid_of_c x m Hx)).
  pose proof (live_kid_head _ _ Hx) as Hl. pose proof (wf_names _ Hwf) as HL.
  unfold rm_parent, rm_kids, map_kids. destruct m as [pm km]; simpl in *.
  destruct (decide (l_head L = Some c)) as [Hh|Hh].
  - rewrite (bool_decide_eq_true_2 (l_head L = Some c)) by done.
    repeat case_bool_decide; simplify_eq/=; try tauto;
      f_equal; f_equal; clear; set_solver.
  - rewrite (bool_decide_eq_false_2 (l_head L = Some c)) by done.
    rewrite (bool_decide_eq_false_2 (l_head L = Some c /\ _)) by tauto.
    rewrite (left_id_L ∅ (∪)).
    assert (l_head L = Some x -> {[LIVE_CHILD]} ∪ km = km) as Hkm by set_solver.
    assert (c <> LIVE_CHILD) as HcL by congruence.
    repeat case_bool_decide; simplify_eq/=; try done; f_equal; f_equal; auto.
    all: specialize (Hl ltac:(done)); clear -Hl HcL; set_solver.
Qed.

Lemma rm_kids_c x m : l_nodes L !! x = Some m -> c ∉ rm_kids x (ln_kids m).
Proof.
  intros Hx Hin. unfold rm_kids in Hin.
  assert (c <> LIVE_CHILD) as HcL by (intros ->; rewrite (wf_names _ Hwf) in Hc; done).
  assert (c ∉ ln_kids n) as Hself.
  { intros Hk. destruct (wf_kid _ Hwf _ _ _ Hc Hk HcL) as (nc & ? & ?).
    apply parent_c_not_c. congruence. }
  assert (ln_parent n <> Some x -> c ∉ ln_kids m) as Hother.
  { intros Hne Hk. destruct (wf_kid _ Hwf _ _ _ Hx Hk HcL) as (nc & ? & ?). congruence. }
  repeat case_bool_decide; set_solver.
Qed.
Lemma rm_kids_inv x m k :
  x <> c -> l_nodes L !! x = Some m -> k <> LIVE_CHILD -> k <> c ->
  k ∈ rm_kids x (ln_kids m) <->
    exists nk, l_nodes L !! k = Some nk /\ rm_parent nk = Some x.
Proof.
  intros Hxc Hx HkL Hkc. unfold rm_kids. rewrite elem_of_union. split.
  - intros [Hk|Hk]; [case_bool_decide; set_solver|].
    assert (k ∈ ln_kids m \/ ln_parent n = Some x /\ k ∈ ln_kids n) as Hor.
    { case_bool_decide; set_solver. }
    destruct Hor as [Hk'|[Hp Hk']].
    + destruct (wf_kid _ Hwf _ _ _ Hx Hk' HkL) as (nk & Hnk & Hpk).
      exists nk. split; [done|]. unfold rm_parent. rewrite Hpk.
      rewrite bool_decide_eq_false_2; congruence.
    + destruct (wf_kid _ Hwf _ _ _ Hc Hk' HkL) as (nk & Hnk & Hpk).
      exists nk. split; [done|]. unfold rm_parent. rewrite Hpk.
      rewrite bool_decide_eq_true_2; congruence.
  - intros (nk & Hnk & Hpk). right. unfold rm_parent in Hpk.
    case_bool_decide as Hpc.
    + rewrite bool_decide_eq_true_2 by done.
      destruct (wf_parent _ Hwf _ _ _ Hnk Hpc) as (n' & Hn' & Hin).
      assert (n' = n) as -> by congruence. set_solver.
    + destruct (wf_parent _ Hwf _ _ _ Hnk Hpk) as (m' & Hm' & Hin).
      assert (m' = m) as -> by congruence. case_bool_decide; set_solver.
Qed.

Lemma rm_parent_rank m x rank p :
  (forall x n p, l_nodes L !! x = Some n -> ln_parent n = Some p -> (rank p < rank x)%nat) ->
  l_nodes L !! x = Some m -> rm_parent m = Some p -> (rank p < rank x)%nat.
Proof.
  intros Hr Hx. unfold rm_parent. case_bool_decide as Hp; intros Hq.
  - pose proof (Hr _ _ _ Hx Hp). pose proof (Hr _ _ _ Hc Hq). lia.
  - by eapply Hr.
Qed.

Lemma l_remove_head :
  l_head (l_remove c L) =
    if bool_decide (l_head L = Some c) then ln_parent n else l_head L.
Proof. unfold l_remove. by rewrite Hc. Qed.

Lemma l_remove_some x m :
  x <> c -> l_nodes L !! x = Some m ->
  l_nodes (l_remove c L) !! x = Some (LNode (rm_parent m) (rm_kids x (ln_kids m))).
Proof.
  intros Hne Hx. rewrite l_remove_lookup, bool_decide_eq_false_2, Hx by done. done.
Qed.

Lemma l_remove_inv x m' :
  l_nodes (l_remove c L) !! x = Some m' ->
  x <> c /\ exists m, l_nodes L !! x = Some m
    /\ m' = LNode (rm_parent m) (rm_kids x (ln_kids m)).
Proof.
  rewrite l_remove_lookup. case_bool_decide; [done|]. intros. node_inv. eauto.
Qed.

Lemma rm_parent_not_c m : rm_parent m <> Some c.
Proof.
  unfold rm_parent. case_bool_decide; [apply parent_c_not_c|done].
Qed.

Lemma l_remove_wf : lin_wf (l_remove c L).
Proof.
  pose proof (wf_names _ Hwf) as HL. split.
  - intros h. rewrite l_remove_head. case_bool_decide as Hh; intros Hp.
    + destruct (wf_parent _ Hwf _ _ _ Hc Hp) as (np & Hnp & _).
      rewrite (l_remove_some h np); [|intros ->; by apply parent_c_not_c|done].
      eexists. split; [done|]. simpl. unfold rm_kids.
      rewrite bool_decide_eq_true_2 by done. set_solver.
    + destruct (wf_head _ Hwf _ Hp) as (nh & Hnh & Hlive).
      rewrite (l_remove_some h nh); [|congruence|done].
      eexists. split; [done|]. simpl. unfold rm_kids.
      assert (c <> LIVE_CHILD) by congruence.
      repeat case_bool_decide; set_solver.
  - rewrite l_remove_lookup, HL. by case_bool_decide.
  - intros x m' p Hx Hp. apply l_remove_inv in Hx as (Hne & m & Hx & ->). simpl in Hp.
    assert (p <> c) by (intros ->; by eapply rm_parent_not_c).
    assert (is_Some (l_nodes L !! p)) as [np Hnp].
    { unfold rm_parent in Hp. case_bool_decide.
      - by destruct (wf_parent _ Hwf _ _ _ Hc Hp) as (? & ? & _).
      - by destruct (wf_parent _ Hwf _ _ _ Hx Hp) as (? & ? & _). }
    rewrite (l_remove_some p np) by done. eexists. split; [done|]. simpl.
    apply rm_kids_inv; try done; [congruence|eauto].
  - intros x m' k Hx Hk HkL. apply l_remove_inv in Hx as (Hne & m & Hx & ->).
    simpl in Hk. assert (k <> c) by (intros ->; by eapply rm_kids_c).
    apply rm_kids_inv in Hk as (nk & Hnk & Hpk); try done.
    rewrite (l_remove_some k nk) by done. by eexists.
  - destruct (wf_acyclic _ Hwf) as (rank & Hr). exists rank.
    intros x m' p Hx Hp. apply l_remove_inv in Hx as (Hne & m & Hx & ->).
    by eapply rm_parent_rank.
Qed.

Lemma l_remove_live : live_exact L -> live_exact (l_remove c L).
Proof.
  intros Hlive x m' Hx Hin. apply l_remove_inv in Hx as (Hne & m & Hx & ->).
  rewrite l_remove_head. simpl in Hin. unfold rm_kids in Hin.
  destruct (decide (l_head L = Some c)) as [Hh|Hh].
  - rewrite bool_decide_eq_true_2 by done. assert (LIVE_CHILD ∉ ln_kids m).
    { intros Hm. specialize (Hlive _ _ Hx Hm). congruence. }
    repeat case_bool_decide; try tauto; set_solver.
  - rewrite bool_decide_eq_false_2 by done. apply (Hlive _ _ Hx).
    rewrite bool_decide_eq_false_2 in Hin by tauto. case_bool_decide; set_solver.
Qed.
End remove_wf.

(** ** Reconciliation *)

Lemma l_reconcile_old actual L x n :
  l_nodes L !! x = Some n -> l_nodes (l_reconcile actual L) !! x = Some n.
Proof.
  intros Hx. unfold l_reconcile; simpl. rewrite lookup_union, lookup_gset_to_gmap.
  assert (x ∈ dom (l_nodes L)) by by eapply elem_of_dom_2.
  rewrite option_guard_False by set_solver. by rewrite Hx.
Qed.

Lemma l_reconcile_inv actual L x n :
  l_nodes (l_reconcile actual L) !! x = Some n ->
  l_nodes L !! x = Some n \/ n = LNode None ∅ /\ x ∈ actual /\ l_nodes L !! x = None.
Proof.
  unfold l_reconcile; simpl. intros [H|[_ H]]%lookup_union_Some_raw; [|by left].
  apply lookup_gset_to_gmap_Some in H as [[? ?]%elem_of_difference <-].
  right. split; [done|]. split; [done|]. by apply not_elem_of_dom.
Qed.

Lemma l_reconcile_head actual L :
  l_head (l_reconcile actual L) = l_head L \/ l_head (l_reconcile actual L) = None.
Proof.
  unfold l_reconcile; simpl. destruct (l_head L); [case_bool_decide|]; auto.
Qed.

Lemma l_reconcile_wf actual L :
  LIVE_CHILD ∉ actual -> lin_wf L -> lin_wf (l_reconcile actual L).
Proof.
  intros Hact [Hhead Hn Hpar Hkid (rank & Hrank)]. split.
  - intros h Hh. destruct (l_reconcile_head actual L) as [E|E]; [|congruence].
    rewrite E in Hh. destruct (Hhead _ Hh) as (n & ? & ?). exists n.
    split; [by apply l_reconcile_old|done].
  - apply eq_None_not_Some. intros [n [H|(_ & ? & _)]%l_reconcile_inv]; [congruence|done].
  - intros x n p [Hx|(-> & _)]%l_reconcile_inv Hp; [|done].
    destruct (Hpar _ _ _ Hx Hp) as (np & ? & ?). exists np.
    split; [by apply l_reconcile_old|done].
  - intros x n k [Hx|(-> & _)]%l_reconcile_inv Hk HkL; [|set_solver].
    destruct (Hkid _ _ _ Hx Hk HkL) as (nk & ? & ?). exists nk.
    split; [by apply l_reconcile_old|done].
  - exists rank. intros x n p [Hx|(-> & _)]%l_reconcile_inv Hp; [|done]. by eapply Hrank.
Qed.
