(* ===== verification/CheckpointIndexFacts.v ===== *)
(** * Correctness of the checkpoint index

    Theorems about the operations of [CheckpointIndex.v]: the round trip
    through the persisted dictionary, resolution by identifier, by unique
    prefix and by number of ancestors, reconciliation against the snapshots on
    disk, and the invariant of every index the operations can build. *)

From Stdlib Require String.
From stdpp Require Import gmap sorting pretty.
From stdpp Require Import gmap.
From S2P Require Import Prelude PyVal Ids CheckpointIndex Lineage.
Open Scope Z_scope.

(** ** Steps of an index: the calls the workspace store makes *)

Inductive index_step : index -> index -> Prop :=
  | index_step_add ix c a o msg b md ix' :
      ID_RE c = true -> add ix c a o msg b md = Ok ix' -> index_step ix ix'
  | index_step_move ix c ix' : move_head ix c = Ok ix' -> index_step ix ix'
  | index_step_remove ix c ix' : remove ix c = Ok ix' -> index_step ix ix'
  | index_step_reconcile ix actual :
      (forall x, x ∈ actual -> ID_RE x = true) ->
      index_step ix (reconcile ix actual).1.

Definition index_reachable (ix : index) : Prop := rtc index_step empty_index ix.

(** The parent relation of the persisted metadata. *)
Definition parent_edge (ix : index) (x y : string) : Prop :=
  parent_value ix x = PStr y.

Lemma live_not_id c : ID_RE c = true -> c <> LIVE_CHILD.
Proof. by apply ID_RE_not_prefixed. Qed.

Lemma empty_index_wf : index_wf empty_index.
Proof.
  exists (Lineage None ∅). split.
  - split; [done|]. intros x. constructor.
  - split; try done. by exists (fun _ => 0%nat).
Qed.

(** A step that succeeds performs the abstract operation, which preserves
    the invariant. *)
Lemma index_step_wf ix ix' : index_step ix ix' -> index_wf ix -> index_wf ix'.
Proof.
  intros Hstep (L & Hrep & Hwf). destruct Hstep as
    [ix c a o msg b md ix' Hid H|ix c ix' H|ix c ix' H|ix actual Hact].
  - assert (l_nodes L !! c = None) as Hc.
    { apply (sim_None _ _ _ (proj2 Hrep)). unfold add in H.
      by destruct (checkpoints ix !! c). }
    destruct (add_refines _ _ c a o msg b md Hrep Hc) as (ix2 & H2 & Hrep').
    assert (ix2 = ix') as -> by congruence. eexists. split; [done|].
    apply l_add_wf; [done|by apply live_not_id|done].
  - assert (is_Some (l_nodes L !! c)) as Hc.
    { apply not_eq_None_Some. intros Hn. apply (sim_None _ _ _ (proj2 Hrep)) in Hn.
      unfold move_head in H. by rewrite Hn in H. }
    destruct (move_head_refines _ _ c Hrep Hc) as (ix2 & H2 & Hrep').
    assert (ix2 = ix') as -> by congruence. eexists. split; [done|].
    by apply l_move_head_wf.
  - destruct (remove_refines _ _ c Hrep) as (ix2 & H2 & Hrep').
    assert (ix2 = ix') as -> by congruence. eexists. split; [done|].
    destruct (l_nodes L !! c) as [n|] eqn:Hc.
    + by eapply l_remove_wf.
    + unfold l_remove. by rewrite Hc.
  - exists (l_reconcile actual L). split; [by apply reconcile_refines|].
    apply l_reconcile_wf; [|done]. intros Hin%Hact. by apply live_not_id in Hin.
Qed.

Lemma reachable_wf ix : index_reachable ix -> index_wf ix.
Proof.
  intros H. unfold index_reachable in H.
  assert (forall a b, rtc index_step a b -> index_wf a -> index_wf b) as Hgen.
  { clear. induction 1; eauto using index_step_wf. }
  eapply Hgen; [done|apply empty_index_wf].
Qed.

(** ** Reading an index that stands for a lineage *)

Lemma represents_node ix L x n :
  represents ix L -> l_nodes L !! x = Some n ->
  exists m, checkpoints ix !! x = Some m /\ meta_node m n.
Proof.
  intros [_ Hsim] Hx. specialize (Hsim x). rewrite Hx in Hsim.
  inversion Hsim. eauto.
Qed.

Lemma represents_parent ix L x :
  represents ix L ->
  parent_value ix x =
    match l_nodes L !! x with Some n => pystr_opt (ln_parent n) | None => PNone end.
Proof.
  intros [_ Hsim]. specialize (Hsim x). unfold parent_value.
  inversion Hsim as [m n Hmn|]; [|done]. apply Hmn.
Qed.

Lemma parent_edge_node ix L x y :
  represents ix L ->
  parent_edge ix x y <-> exists n, l_nodes L !! x = Some n /\ ln_parent n = Some y.
Proof.
  intros Hrep. unfold parent_edge. rewrite (represents_parent _ _ _ Hrep).
  destruct (l_nodes L !! x) as [n|]; [|naive_solver].
  split; [|by intros (? & [= <-] & ->)].
  intros H. exists n. split; [done|]. by destruct (ln_parent n); simplify_eq/=.
Qed.

Lemma parent_edge_acyclic ix :
  index_wf ix -> exists rank : string -> nat,
    forall x y, parent_edge ix x y -> (rank y < rank x)%nat.
Proof.
  intros (L & Hrep & Hwf). destruct (wf_acyclic _ Hwf) as (rank & Hr).
  exists rank. intros x y (n & ? & ?)%(parent_edge_node _ _ _ _ Hrep). eauto.
Qed.

Lemma parent_edge_indexed ix x y :
  index_wf ix -> parent_edge ix x y ->
  is_Some (checkpoints ix !! x) /\ is_Some (checkpoints ix !! y).
Proof.
  intros (L & Hrep & Hwf) (n & Hx & Hp)%(parent_edge_node _ L _ _ Hrep).
  destruct (wf_parent _ Hwf _ _ _ Hx Hp) as (np & Hy & _).
  destruct (represents_node _ _ _ _ Hrep Hx) as (? & ? & _).
  destruct (represents_node _ _ _ _ Hrep Hy) as (? & ? & _). eauto.
Qed.

Lemma head_indexed ix h :
  index_wf ix -> head ix = Some h -> is_Some (checkpoints ix !! h).
Proof.
  intros (L & Hrep & Hwf) Hh. destruct Hrep as [E Hrep]. rewrite E in Hh.
  destruct (wf_head _ Hwf _ Hh) as (n & Hn & _).
  destruct (represents_node _ _ _ _ (conj E Hrep) Hn) as (m & Hm & _). eauto.
Qed.

(** ** Climbing the lineage *)

Lemma climb_spec ix n k x y :
  climb ix n k x = Ok y <-> nsteps (parent_edge ix) k x y.
Proof.
  revert x. induction k as [|k IH]; intros x; simpl.
  - split; [intros [= ->]; constructor|]. inversion 1. done.
  - split.
    + intros H. destruct (parent_value ix x) eqn:E; try done.
      econstructor; [exact E|by apply IH].
    + inversion 1 as [|? ? z ? Hedge Hrest]; subst. rewrite Hedge. by apply IH.
Qed.

Lemma climb_outcome ix n k x :
  (exists y, climb ix n k x = Ok y) \/
  climb ix n k x = Err (CheckpointIndexError
                    ("checkpoint lineage ends before ancestor " +:+ pretty n)).
Proof.
  revert x. induction k as [|k IH]; intros x; simpl; [by left; eexists|].
  destruct (parent_value ix x); auto.
Qed.

(** The nodes on a path up the lineage are distinct, so there are at most as
    many of them as checkpoints. *)
Lemma nsteps_bound ix k x y :
  index_wf ix -> is_Some (checkpoints ix !! x) -> nsteps (parent_edge ix) k x y ->
  (k < size (checkpoints ix))%nat.
Proof.
  intros Hwf Hx Hsteps. destruct (parent_edge_acyclic _ Hwf) as (rank & Hr).
  assert (exists l, length l = S k /\ NoDup l /\ (forall z, z ∈ l -> (rank z <= rank x)%nat)
            /\ forall z, z ∈ l -> is_Some (checkpoints ix !! z)) as (l & Hlen & Hnd & _ & Hdom).
  { clear - Hx Hsteps Hwf Hr. induction Hsteps as [x|k x z y Hxz Hzy IH].
    - exists [x]. split; [done|]. split; [apply NoDup_singleton|].
      split; intros z ->%list_elem_of_singleton; [lia|done].
    - destruct (parent_edge_indexed _ _ _ Hwf Hxz) as [_ Hz].
      destruct (IH Hz) as (l & Hlen & Hnd & Hle & Hdom). exists (x :: l).
      specialize (Hr _ _ Hxz). split; [simpl; lia|]. split.
      + constructor; [|done]. intros Hin%Hle. lia.
      + split; intros w [->|Hw]%elem_of_cons; try done; [|by apply Hdom].
        specialize (Hle _ Hw). lia. }
  assert (list_to_set (C := gset string) l ⊆ dom (checkpoints ix)) as Hsub.
  { intros z Hz%elem_of_list_to_set. by apply elem_of_dom, Hdom. }
  apply subseteq_size in Hsub. rewrite size_list_to_set, size_dom in Hsub by done. lia.
Qed.

Lemma nsteps_tc_iff ix x y :
  tc (parent_edge ix) x y <-> exists k, nsteps (parent_edge ix) (S k) x y.
Proof. rewrite tc_nsteps. split; [intros ([|k] & ? & ?); [lia|eauto]|]. intros [k ?]. exists (S k). split; [lia|done]. Qed.

(** ** Resolution *)

Lemma prefix_matches_elem ix c x :
  x ∈ prefix_matches ix c <-> starts_with c x = true /\ present ix x = true.
Proof.
  unfold prefix_matches. rewrite sort_strings_perm, list_elem_of_fmap. split.
  - intros ([y m] & -> & Hin). apply list_elem_of_In, filter_In in Hin as [Hin Hf].
    apply list_elem_of_In, elem_of_map_to_list in Hin. unfold prefix_match in Hf.
    simpl in *. apply andb_prop in Hf as [? ?]. unfold present. by rewrite Hin.
  - intros [Hs Hp]. unfold present in Hp. destruct (checkpoints ix !! x) as [m|] eqn:E; [|done].
    exists (x, m). split; [done|]. apply list_elem_of_In, filter_In. split.
    + by apply list_elem_of_In, elem_of_map_to_list.
    + unfold prefix_match. simpl. by rewrite Hs, Hp.
Qed.

Lemma prefix_matches_NoDup ix c : NoDup (prefix_matches ix c).
Proof.
  unfold prefix_matches. rewrite sort_strings_perm.
  assert (forall l : list (string * dict), NoDup l.*1 ->
    NoDup (List.filter (prefix_match c) l).*1) as H.
  { induction l as [|kv l IH]; [done|]. rewrite fmap_cons. intros [Hk Hl]%NoDup_cons.
    simpl. destruct (prefix_match c kv); [|by apply IH]. rewrite fmap_cons.
    constructor; [|by apply IH]. intros (kv' & E & Hin)%list_elem_of_fmap. apply Hk.
    rewrite E. apply list_elem_of_fmap. exists kv'. split; [done|].
    apply list_elem_of_In, filter_In in Hin as [? _]. by apply list_elem_of_In. }
  apply H, NoDup_fst_map_to_list.
Qed.

(** ** Reconciliation against the snapshots on disk *)

Lemma mark_missing_present A x m :
  negb (is_missing (mark_missing A x m)) = bool_decide (x ∈ A).
Proof.
  unfold mark_missing, stale_mark.
  destruct (is_missing m) eqn:E, (bool_decide (x ∉ A)) eqn:E2; simpl;
    [rewrite E|unfold is_missing, dget_or; rewrite dget_dset_eq; simpl..|rewrite E]; simpl.
  all: repeat case_bool_decide; tauto || done.
Qed.

Lemma mark_missing_idem A x m :
  stale_mark A x (mark_missing A x m) = false.
Proof.
  pose proof (mark_missing_present A x m) as H. unfold stale_mark.
  destruct (is_missing (mark_missing A x m)); simpl in *; repeat case_bool_decide; tauto || done.
Qed.

Lemma reconcile_lookup ix A x :
  checkpoints (reconcile ix A).1 !! x =
    mark_missing A x <$>
      (if bool_decide (x ∈ unindexed ix A) then Some recovered_meta
       else checkpoints ix !! x).
Proof.
  simpl. rewrite map_lookup_imap, lookup_union, lookup_gset_to_gmap.
  case_bool_decide as Hx.
  - rewrite option_guard_True by done. unfold unindexed in Hx.
    assert (checkpoints ix !! x = None) as -> by (apply not_elem_of_dom; set_solver).
    done.
  - rewrite option_guard_False by done. rewrite (left_id_L None _).
    by destruct (checkpoints ix !! x).
Qed.

Lemma reconcile_dom ix A :
  dom (checkpoints (reconcile ix A).1) = A ∪ dom (checkpoints ix).
Proof.
  apply set_eq. intros x. rewrite elem_of_union, !elem_of_dom, reconcile_lookup.
  rewrite fmap_is_Some. case_bool_decide as Hx; unfold unindexed in Hx.
  - set_solver.
  - rewrite elem_of_difference, elem_of_dom in Hx.
    split; [by right|]. intros [HA|?]; [|done].
    destruct (decide (is_Some (checkpoints ix !! x))); [done|]. by destruct Hx.
Qed.

(** ** Codec and resolution *)

Lemma dict_roundtrip ix : from_dict (to_dict ix) = Ok ix.
Proof.
  destruct ix as [h cps].
  assert (forall l : list (string * dict),
    forallb is_dict_entry (prod_map id PDict <$> l) = true
    /\ omap meta_entry (prod_map id PDict <$> l) = l) as H.
  { induction l as [|[k m] l [IH1 IH2]]; [done|]. split; [done|].
    change (omap meta_entry (prod_map id PDict <$> (k, m) :: l)) with
      ((k, m) :: omap meta_entry (prod_map id PDict <$> l)). by rewrite IH2. }
  destruct (H (map_to_list cps)) as [H1 H2]. unfold from_dict, to_dict.
  change (dget_or "checkpoints" _ _) with (checkpoints_value cps).
  unfold checkpoints_value. cbv iota beta zeta. rewrite H1, H2, list_to_map_to_list.
  by destruct h.
Qed.

Lemma resolve_present ix c x :
  resolve ix (Some c) None = Ok x <->
  present ix x = true /\
  (x = c \/
   present ix c = false /\ starts_with c x = true /\
   forall y, present ix y = true -> starts_with c y = true -> y = x).
Proof.
  simpl. unfold resolve_prefix. destruct (present ix c) eqn:Ec.
  { split; [intros [= ->]; auto|]. intros (_ & [->|(? & _)]); congruence. }
  destruct (prefix_matches ix c) as [|m [|m2 ms]] eqn:E.
  - split; [done|]. intros (Hp & [->|(_ & Hs & _)]); [congruence|].
    assert (x ∈ prefix_matches ix c) as Hin by by apply prefix_matches_elem.
    rewrite E in Hin. set_solver.
  - assert (m ∈ prefix_matches ix c) as Hm by (rewrite E; left).
    apply prefix_matches_elem in Hm as [Hs Hp]. split.
    + intros [= <-]. split; [done|]. right. split; [done|]. split; [done|].
      intros y Hy1 Hy2. assert (y ∈ prefix_matches ix c) as Hy by by apply prefix_matches_elem.
      rewrite E in Hy. by apply list_elem_of_singleton in Hy.
    + intros (Hx & [->|(_ & _ & Hu)]); [congruence|]. f_equal. by apply Hu.
  - split; [done|]. intros (Hx & [->|(_ & _ & Hu)]); [congruence|].
    pose proof (prefix_matches_NoDup ix c) as Hnd. rewrite E in Hnd.
    assert (forall y, y ∈ m :: m2 :: ms -> y = x) as Hall.
    { intros y Hy. rewrite <- E in Hy. apply prefix_matches_elem in Hy as [? ?]. auto. }
    apply NoDup_cons in Hnd as [Hnot _]. destruct Hnot.
    rewrite (Hall m), (Hall m2); [left|right; left|left].
Qed.

Lemma resolve_climb ix n y :
  resolve ix None (Some n) = Ok y <->
  1 <= n /\ exists h, head ix = Some h /\ nsteps (parent_edge ix) (Z.to_nat (n - 1)) h y.
Proof.
  simpl. unfold resolve_ancestor. destruct (Z.ltb_spec n 1).
  { split; [done|]. intros [? _]. lia. }
  destruct (head ix) as [h|]; [|naive_solver]. rewrite climb_spec. naive_solver.
Qed.

(** * Indexes that agree with the disk

    [agrees A ix]: reconciling [ix] against the checkpoints [A] changes
    nothing.  What [reconcile] returns agrees, and the operations of the index
    keep the agreement with the checkpoints the store leaves on disk. *)

(** The [missing] marks say which checkpoints are not on disk. *)
Record marked (A : gset string) (cps : gmap string dict) : Prop := Marked {
  marked_indexed x : x ∈ A -> is_Some (cps !! x);
  marked_missing x m : cps !! x = Some m -> is_missing m = bool_decide (x ∉ A) }.

Definition agrees (A : gset string) (ix : index) : Prop :=
  marked A (checkpoints ix) /\ forall h, head ix = Some h -> h ∈ A.

Lemma marked_stale A cps x m : marked A cps -> cps !! x = Some m -> stale_mark A x m = false.
Proof.
  intros H Hx. unfold stale_mark. rewrite (marked_missing _ _ H x m Hx). apply xorb_nilpotent.
Qed.

Lemma agrees_reconcile A ix : agrees A ix -> reconcile ix A = (ix, false).
Proof.
  intros [H Hh]. assert (unindexed ix A = ∅) as Hun.
  { unfold unindexed. apply set_eq. intros x. rewrite elem_of_difference, elem_of_dom.
    split; [|set_solver]. intros [? []]. by apply (marked_indexed _ _ H). }
  assert (head_lost ix A = false) as Hlost.
  { unfold head_lost. destruct (head ix) as [h|] eqn:E; [|done].
    apply bool_decide_eq_false. specialize (Hh _ eq_refl). tauto. }
  unfold reconcile. rewrite Hun, Hlost, gset_to_gmap_empty, (left_id_L ∅ (∪)).
  rewrite bool_decide_eq_true_2, orb_false_r by done. simpl. f_equal.
  - destruct ix as [h cps]. simpl in *. f_equal.
    apply (map_eq (M := gmap string)). intros x. rewrite map_lookup_imap.
    destruct (cps !! x) as [m|] eqn:E; [|done]. simpl. unfold mark_missing.
    by rewrite (marked_stale A cps x m).
  - apply not_true_is_false. intros ([x m] & Hin & Hs)%existsb_exists.
    apply list_elem_of_In, elem_of_map_to_list in Hin.
    by rewrite (marked_stale _ _ _ _ H Hin) in Hs.
Qed.

Lemma reconcile_head ix A h :
  head (reconcile ix A).1 = Some h -> head ix = Some h /\ h ∈ A.
Proof.
  simpl. unfold head_lost. destruct (head ix) as [h'|]; [|done].
  case_bool_decide; [done|]. intros [= <-]. split; [done|].
  destruct (decide (h' ∈ A)); tauto.
Qed.

Lemma reconcile_agreeing ix A : agrees A (reconcile ix A).1.
Proof.
  split; [split|].
  - intros x Hx. apply elem_of_dom. rewrite reconcile_dom. set_solver.
  - intros x m. rewrite reconcile_lookup, fmap_Some. intros (m0 & _ & ->).
    apply xorb_eq, (mark_missing_idem A x m0).
  - intros h. apply reconcile_head.
Qed.

Lemma present_agrees A ix x : agrees A ix -> present ix x = bool_decide (x ∈ A).
Proof.
  intros [H _]. unfold present. destruct (checkpoints ix !! x) as [m|] eqn:Hx.
  - rewrite (marked_missing _ _ H x m Hx), bool_decide_not. apply negb_involutive.
  - symmetry. apply bool_decide_eq_false. intros [? ?]%(marked_indexed _ _ H). congruence.
Qed.

Lemma reconcile_unchanged ix A : (reconcile ix A).2 = false -> (reconcile ix A).1 = ix.
Proof.
  intros Hf. assert (agrees A ix); [|by rewrite agrees_reconcile]. revert Hf. simpl.
  rewrite !orb_false_iff, negb_false_iff, bool_decide_eq_true.
  intros [[Hun Hst] Hlost]. split; [split|].
  - intros x Hx. apply elem_of_dom. unfold unindexed in Hun. set_solver.
  - intros x m Hx. rewrite Hun, gset_to_gmap_empty, (left_id_L ∅ (∪)) in Hst.
    assert (stale_mark A x m = false) as Hs.
    { apply not_true_is_false. intros Hs. apply not_true_iff_false in Hst. apply Hst.
      apply existsb_exists. exists (x, m). split; [|done].
      by apply list_elem_of_In, elem_of_map_to_list. }
    unfold stale_mark in Hs. by apply xorb_eq in Hs.
  - intros h Hh. unfold head_lost in Hlost. rewrite Hh in Hlost.
    apply bool_decide_eq_false in Hlost. destruct (decide (h ∈ A)); tauto.
Qed.

(** ** Updates that keep the marks *)

Definition same_marks (cps cps' : gmap string dict) : Prop :=
  forall x, is_missing <$> cps !! x = is_missing <$> cps' !! x.

#[export] Instance same_marks_equiv : Equivalence same_marks.
Proof.
  split; [by intros ?|by intros ? ? H x|].
  intros ? ? ? H1 H2 x. by rewrite (H1 x).
Qed.

#[export] Instance marked_proper A : Proper (same_marks ==> iff) (marked A).
Proof.
  assert (forall cps cps', same_marks cps cps' -> marked A cps -> marked A cps') as Himp.
  { intros cps cps' H [Hi Hm]. split.
    - intros x Hx%Hi. specialize (H x). by rewrite <- (fmap_is_Some is_missing), <- H, fmap_is_Some.
    - intros x m Hx. specialize (H x). rewrite Hx in H. simpl in H.
      apply fmap_Some in H as (m' & Hx' & ->). by apply Hm. }
  intros cps cps' H. split; apply Himp; [done|by symmetry].
Qed.

Definition keeps_mark (f : dict -> result dict) : Prop :=
  forall m m', f m = Ok m' -> is_missing m' = is_missing m.

Lemma same_marks_insert cps x m m' :
  cps !! x = Some m -> is_missing m' = is_missing m -> same_marks cps (<[x:=m']> cps).
Proof.
  intros Hx Hm y. destruct (decide (x = y)) as [->|].
  - rewrite lookup_insert_eq, Hx. simpl. by rewrite Hm.
  - by rewrite lookup_insert_ne.
Qed.

Lemma update_meta_marks f id cps cps' :
  keeps_mark f -> update_meta f id cps = Ok cps' -> same_marks cps cps'.
Proof.
  intros Hf. unfold update_meta. destruct (cps !! id) as [m|] eqn:Hm.
  - intros H. ok_inv. eapply same_marks_insert; [done|by apply Hf].
  - by intros [= <-].
Qed.

Lemma update_head_marks f h cps cps' :
  keeps_mark f -> update_head f h cps = Ok cps' -> same_marks cps cps'.
Proof. destruct h; simpl; [apply update_meta_marks|by intros _ [= <-]]. Qed.

Lemma is_missing_set k v m : k <> "missing" -> is_missing (dset k v m) = is_missing m.
Proof. intros. unfold is_missing, dget_or. by rewrite dget_dset_ne. Qed.

Lemma keeps_mark_drop id : keeps_mark (drop_child id).
Proof.
  intros m m'. unfold drop_child. destruct (child_ids m); try done.
  intros [= <-]. by apply is_missing_set.
Qed.

Lemma keeps_mark_ensure id : keeps_mark (ensure_child id).
Proof.
  intros m m'. unfold ensure_child. destruct (child_ids m); try done;
    try (case_match; by intros [= <-]). intros [= <-]. by apply is_missing_set.
Qed.

Lemma keeps_mark_adopt id : keeps_mark (adopt_child id).
Proof.
  intros m m'. unfold adopt_child. intros H. ok_inv.
  erewrite keeps_mark_ensure by done. by eapply keeps_mark_drop.
Qed.

Lemma keeps_mark_inherit id children : keeps_mark (inherit id children).
Proof.
  intros m m'. unfold inherit. destruct (child_ids m); try done.
  intros [= <-]. by apply is_missing_set.
Qed.

Lemma reparent_marks parent children cps cps' :
  reparent parent children cps = Ok cps' -> same_marks cps cps'.
Proof.
  revert cps. induction children as [|child children IH]; intros cps H; simpl in H.
  - by injection H as <-.
  - apply result_bind_Ok in H as (cps1 & H1 & H2). etransitivity; [|by apply IH].
    destruct child; simpl in H1; try (by injection H1 as <-); try done.
    eapply update_meta_marks; [|exact H1]. intros m m' [= <-]. by apply is_missing_set.
Qed.

(** ** The operations *)

Lemma agrees_add A ix c t o msg b md ix' :
  agrees A ix -> add ix c t o msg b md = Ok ix' -> agrees ({[ c ]} ∪ A) ix'.
Proof.
  intros [H Hh] Hadd. unfold add in Hadd. destruct (checkpoints ix !! c) eqn:Hc; [done|].
  apply result_bind_Ok in Hadd as (cps & Hcps & [= <-]).
  apply (update_head_marks _ _ _ _ (keeps_mark_adopt c)) in Hcps. rewrite Hcps in H.
  split; [split|]; simpl.
  - intros x Hx. destruct (decide (c = x)) as [->|]; [rewrite lookup_insert_eq; eauto|].
    rewrite lookup_insert_ne by done. apply (marked_indexed _ _ H). set_solver.
  - intros x m. rewrite lookup_insert_Some. intros [[<- <-]|[Hne Hx]].
    + rewrite bool_decide_eq_false_2 by set_solver. done.
    + rewrite (marked_missing _ _ H x m Hx). apply bool_decide_ext. set_solver.
  - intros h [= <-]. set_solver.
Qed.

Lemma agrees_move_head A ix c ix' :
  agrees A ix -> c ∈ A -> move_head ix c = Ok ix' -> agrees A ix'.
Proof.
  intros [H Hh] Hc Hm. unfold move_head in Hm. destruct (checkpoints ix !! c); [|done].
  apply result_bind_Ok in Hm as (cps & H1 & Hm).
  apply result_bind_Ok in Hm as (cps' & H2 & [= <-]).
  apply (update_head_marks _ _ _ _ (keeps_mark_drop LIVE_CHILD)) in H1. rewrite H1 in H.
  apply (update_meta_marks _ _ _ _ (keeps_mark_ensure LIVE_CHILD)) in H2. rewrite H2 in H.
  split; [done|]. by intros h [= <-].
Qed.

Lemma marked_remove A ix c ix' :
  agrees A ix -> remove ix c = Ok ix' -> marked (A ∖ {[ c ]}) (checkpoints ix').
Proof.
  intros [H Hh] Hr. unfold remove in Hr. destruct (checkpoints ix !! c) as [m|] eqn:Hc.
  - apply result_bind_Ok in Hr as (listed & _ & Hr).
    apply result_bind_Ok in Hr as (cps & H1 & Hr).
    apply result_bind_Ok in Hr as (cps' & H2 & Hr).
    apply result_bind_Ok in Hr as (cps2 & H3 & [= <-]).
    apply reparent_marks in H1. rewrite H1 in H.
    apply (update_head_marks _ _ _ _ (keeps_mark_inherit _ _)) in H2. rewrite H2 in H.
    apply (update_head_marks _ _ _ _ (keeps_mark_ensure LIVE_CHILD)) in H3.
    simpl. rewrite <- H3. split.
    + intros x Hx. rewrite lookup_delete_ne by set_solver. apply (marked_indexed _ _ H). set_solver.
    + intros x mx [Hne Hx]%lookup_delete_Some. rewrite (marked_missing _ _ H x mx Hx).
      apply bool_decide_ext. set_solver.
  - injection Hr as <-. split.
    + intros x Hx. apply (marked_indexed _ _ H). set_solver.
    + intros x mx Hx. rewrite (marked_missing _ _ H x mx Hx). apply bool_decide_ext.
      assert (x <> c) by congruence. set_solver.
Qed.
