(* ===== verification/CheckpointIndexSpec.v ===== *)
(** * Properties of the checkpoint index

    The theorems a user of [checkpoint_index.py] relies on, each with a
    concrete instance. *)

From Stdlib Require String.
From stdpp Require Import gmap sorting pretty.
From S2P Require Import Prelude PyVal Ids CheckpointIndex Lineage.
From S2P Require Import Lineage CheckpointIndexFacts.
Open Scope Z_scope.

(** [x] is listed among the children of the indexed checkpoint [y]. *)
Definition lists_child (ix : index) (y x : string) : Prop :=
  exists m cs, checkpoints ix !! y = Some m /\ child_ids m = PList cs /\ PStr x ∈ cs.

Lemma lists_child_node ix L x y :
  represents ix L ->
  lists_child ix y x <-> exists n, l_nodes L !! y = Some n /\ x ∈ ln_kids n.
Proof.
  intros [Hh Hsim]. pose proof (Hsim y) as Hy. unfold lists_child.
  inversion Hy as [m n Hmn Hm Hn|Hm Hn]; [|naive_solver].
  destruct (meta_node_child_ids _ _ Hmn) as (cs & Hcs & _ & Hset). split.
  - intros (m' & cs' & [= <-] & E & Hin). exists n. split; [done|].
    rewrite Hcs in E. injection E as <-. apply list_elem_of_fmap in Hin as (? & [= <-] & ?).
    rewrite <- Hset. by apply elem_of_list_to_set.
  - intros (n' & [= <-] & Hin). exists m, (PStr <$> cs). split; [done|].
    split; [done|]. apply list_elem_of_fmap. exists x. split; [done|].
    rewrite <- Hset in Hin. by apply elem_of_list_to_set in Hin.
Qed.

(** A three-checkpoint index used by the witnesses: [a <- b <- c], head [c]. *)
Definition add_turn (id : string) (ix : index) : result index :=
  add ix id 1 "manual" None false PNone.

Definition sample_index : index :=
  match a ← add_turn "a" empty_index; b ← add_turn "b" a; add_turn "c" b with
  | Ok ix => ix | Err _ => empty_index end.

Lemma sample_reachable : index_reachable sample_index.
Proof.
  eapply rtc_l; [eapply (index_step_add _ "a"); reflexivity|].
  eapply rtc_l; [eapply (index_step_add _ "b"); reflexivity|].
  eapply rtc_l; [eapply (index_step_add _ "c"); reflexivity|].
  apply rtc_refl.
Qed.

(** C9: In every index that the operations can build from the empty one, the
    head is indexed and carries the live marker, a checkpoint has parent [y]
    exactly when it is an indexed checkpoint that [y] lists as its child, and
    the parent links are acyclic. *)
Theorem reachable_index_consistent ix :
  index_reachable ix ->
  (forall h, head ix = Some h -> lists_child ix h LIVE_CHILD) /\
  (forall x y, x <> LIVE_CHILD -> parent_edge ix x y <-> lists_child ix y x) /\
  (exists rank : string -> nat, forall x y, parent_edge ix x y -> (rank y < rank x)%nat).
Proof.
  intros Hr. apply reachable_wf in Hr as Hwf. split; [|split].
  - destruct Hwf as (L & Hrep & Hwf). intros h Hh.
    apply (lists_child_node _ _ _ _ Hrep), (wf_head _ Hwf). by rewrite <- (proj1 Hrep).
  - destruct Hwf as (L & Hrep & Hwf). intros x y Hx.
    rewrite (parent_edge_node _ _ _ _ Hrep), (lists_child_node _ _ _ _ Hrep). split.
    + intros (n & Hn & Hp). by eapply wf_parent.
    + intros (n & Hn & Hk). by eapply wf_kid.
  - by apply parent_edge_acyclic.
Qed.

Lemma reachable_index_consistent_witness :
  parent_edge sample_index "c" "b" <-> lists_child sample_index "b" "c".
Proof. apply (reachable_index_consistent sample_index sample_reachable). discriminate. Defined.

(** Also: On every reachable index the operations raise only their own
    [CheckpointIndexError]s, never a [TypeError] or [AttributeError]: adding
    fails exactly on an indexed identifier, moving the head exactly on an
    identifier that is not indexed, and removal always succeeds. *)
Theorem reachable_index_total ix c a o msg b md :
  index_reachable ix ->
  (exists ix', add ix c a o msg b md =
     match checkpoints ix !! c with
     | Some _ => Err (CheckpointIndexError ("checkpoint already indexed: " +:+ c))
     | None => Ok ix' end) /\
  (exists ix', move_head ix c =
     match checkpoints ix !! c with
     | None => Err (CheckpointIndexError ("checkpoint is not indexed: " +:+ c))
     | Some _ => Ok ix' end) /\
  (exists ix', remove ix c = Ok ix').
Proof.
  intros Hr. apply reachable_wf in Hr as (L & Hrep & Hwf). split; [|split].
  - destruct (checkpoints ix !! c) eqn:E.
    + exists ix. unfold add. by rewrite E.
    + apply (sim_None _ _ _ (proj2 Hrep)) in E.
      destruct (add_refines _ _ c a o msg b md Hrep E) as (ix' & ? & _). by exists ix'.
  - destruct (checkpoints ix !! c) eqn:E.
    + assert (is_Some (l_nodes L !! c)) as Hc.
      { apply not_eq_None_Some. intros Hn. apply (sim_None _ _ _ (proj2 Hrep)) in Hn.
        congruence. }
      destruct (move_head_refines _ _ c Hrep Hc) as (ix' & ? & _). by exists ix'.
    + exists ix. unfold move_head. by rewrite E.
  - destruct (remove_refines _ _ c Hrep) as (ix' & ? & _). by exists ix'.
Qed.

Lemma reachable_index_total_witness : exists ix', remove sample_index "b" = Ok ix'.
Proof.
  apply (reachable_index_total sample_index "b" 0 "manual" None false PNone sample_reachable).
Defined.

(** Also: Decoding the encoding of an index gives the index back, whatever its
    metadata. *)
Theorem from_dict_to_dict ix : from_dict (to_dict ix) = Ok ix.
Proof. apply dict_roundtrip. Qed.

(** Also: Resolving an identifier succeeds exactly with a checkpoint whose
    snapshot is present, namely the one named exactly, or else the only one
    whose identifier has the given prefix. *)
Theorem resolve_prefix_spec ix c x :
  resolve ix (Some c) None = Ok x <->
  present ix x = true /\
  (x = c \/
   present ix c = false /\ starts_with c x = true /\
   forall y, present ix y = true -> starts_with c y = true -> y = x).
Proof. apply resolve_present. Qed.

(** Also: Resolving by number of ancestors climbs exactly [num_ancestors - 1]
    parent links from the head, and nothing else. *)
Theorem resolve_ancestor_spec ix n y :
  resolve ix None (Some n) = Ok y <->
  1 <= n /\ exists h, head ix = Some h /\ nsteps (parent_edge ix) (Z.to_nat (n - 1)) h y.
Proof. apply resolve_climb. Qed.

(** Also: On a reachable index, asking for more ancestors than there are
    checkpoints always ends in the lineage error. *)
Theorem resolve_ancestor_bound ix n h :
  index_reachable ix -> head ix = Some h -> Z.of_nat (size (checkpoints ix)) < n ->
  resolve ix None (Some n) =
    Err (CheckpointIndexError ("checkpoint lineage ends before ancestor " +:+ pretty n)).
Proof.
  intros Hr%reachable_wf Hh Hn. simpl. unfold resolve_ancestor.
  destruct (Z.ltb_spec n 1); [lia|]. rewrite Hh.
  destruct (climb_outcome ix n (Z.to_nat (n - 1)) h) as [[y Hy]|?]; [|done].
  apply climb_spec, nsteps_bound in Hy; [lia|done|]. by apply head_indexed.
Qed.

Lemma resolve_ancestor_bound_witness :
  resolve sample_index None (Some 4) =
    Err (CheckpointIndexError "checkpoint lineage ends before ancestor 4").
Proof. apply (resolve_ancestor_bound _ 4 "c" sample_reachable eq_refl). reflexivity. Defined.

(** ** What the operations do to the parent relation *)

Lemma add_parent_edge ix L c x y :
  represents ix L -> lin_wf L -> l_nodes L !! c = None -> c <> LIVE_CHILD ->
  forall ix', represents ix' (l_add c L) ->
  parent_edge ix' x y <-> (x = c /\ head ix = Some y) \/ (x <> c /\ parent_edge ix x y).
Proof.
  intros Hrep Hwf Hc HcL ix' Hrep'.
  rewrite (parent_edge_node _ _ _ _ Hrep'), (parent_edge_node _ _ _ _ Hrep).
  rewrite (proj1 Hrep). split.
  - intros (n' & Hn & Hp). apply (l_add_inv L c Hc HcL Hwf) in Hn as [[-> ->]|(Hne & n & Hn & E & _)];
    [by left|].
    right. split; [done|]. exists n. by rewrite <- E.
  - intros [[-> Hh]|(Hne & n & Hn & Hp)].
    + rewrite l_add_lookup, bool_decide_eq_true_2 by done. by eexists.
    + destruct (l_add_old L c Hc HcL Hwf _ _ Hn) as (n' & Hn' & E & _).
      exists n'. by rewrite E.
Qed.

Lemma nsteps_avoid {A} (R S : A -> A -> Prop) (c : A) k x y :
  (forall a b, a <> c -> R a b <-> S a b) -> (forall a, ~ R a c) -> x <> c ->
  nsteps R k x y <-> nsteps S k x y.
Proof.
  intros HRS Hc. revert x. induction k as [|k IH]; intros x Hx.
  - split; inversion 1; subst; constructor.
  - split; inversion 1 as [|? ? z ? Hxz Hzy]; subst.
    + assert (z <> c) by (intros ->; by eapply Hc).
      econstructor; [by apply HRS|by apply IH].
    + apply HRS in Hxz; [|done]. assert (z <> c) by (intros ->; by eapply Hc).
      econstructor; [done|by apply IH].
Qed.

(** Removing the middle node [c] of a functional or branching relation and
    joining its neighbours keeps reachability between the others. *)
Lemma tc_bypass `{EqDecision A} (R S : A -> A -> Prop) (c x y : A) :
  ~ R c c ->
  (forall z w, S z w <-> z <> c /\ w <> c /\ (R z w \/ R z c /\ R c w)) ->
  x <> c -> y <> c -> tc S x y <-> tc R x y.
Proof.
  intros Hirr HS Hx Hy. split.
  - assert (forall z w, S z w -> tc R z w) as Hsub.
    { intros z w (_ & _ & [?|[? ?]])%HS; [by apply tc_once|].
      eapply tc_l; [done|by apply tc_once]. }
    induction 1; [auto|]. eapply tc_transitive; [by apply Hsub|].
    apply IHtc; [|done]. by apply HS in H as (_ & ? & _).
  - intros Htc. assert ((x <> c -> tc S x y) /\
      (x = c -> forall z, z <> c -> R z c -> tc S z y)) as [? _]; [|auto].
    clear Hx. induction Htc as [x y Hxy|x w y Hxw Hwy IH].
    + split; [intros; apply tc_once, HS; auto|]. intros -> z Hz Hzc. apply tc_once, HS. auto.
    + destruct (IH Hy) as [IH1 IH2]. split.
      * intros Hx. destruct (decide (w = c)) as [->|Hw]; [by apply IH2|].
        eapply tc_l; [apply HS; split; [exact Hx|split; [exact Hw|left; exact Hxw]]|auto].
      * intros -> z Hz Hzc. destruct (decide (w = c)) as [->|Hw]; [done|].
        eapply tc_l; [apply HS; split; [exact Hz|split; [exact Hw|right; eauto]]|auto].
Qed.

(** Also: After a checkpoint is added it is ancestor 1, and ancestor [n + 1] of
    the new head is what ancestor [n] was before. *)
Theorem add_shifts_ancestors ix c a o msg b md ix' n y :
  index_reachable ix -> ID_RE c = true -> add ix c a o msg b md = Ok ix' -> 1 <= n ->
  resolve ix' None (Some 1) = Ok c /\
  (resolve ix' None (Some (n + 1)) = Ok y <-> resolve ix None (Some n) = Ok y).
Proof.
  intros Hr Hid H Hn. apply reachable_wf in Hr as Hwf.
  destruct Hwf as (L & Hrep & Hwf). apply live_not_id in Hid as HcL.
  assert (checkpoints ix !! c = None) as Hcc.
  { unfold add in H. by destruct (checkpoints ix !! c). }
  apply (sim_None _ _ _ (proj2 Hrep)) in Hcc as Hc.
  destruct (add_refines _ _ c a o msg b md Hrep Hc) as (ix2 & H2 & Hrep').
  assert (ix2 = ix') as -> by congruence.
  assert (head ix' = Some c) as Hh' by apply (proj1 Hrep').
  split; [by simpl; unfold resolve_ancestor; rewrite Hh'|].
  pose proof (fun x y => add_parent_edge _ _ c x y Hrep Hwf Hc HcL _ Hrep') as Hedge.
  rewrite !resolve_climb. rewrite Hh'.
  replace (Z.to_nat (n + 1 - 1)) with (S (Z.to_nat (n - 1))) by lia.
  assert (forall h, head ix = Some h -> h <> c) as Hhc.
  { intros h Hh. pose proof (head_indexed _ _ (reachable_wf _ Hr) Hh) as [? ?]. congruence. }
  assert (forall h, h <> c -> nsteps (parent_edge ix') (Z.to_nat (n - 1)) h y <->
                  nsteps (parent_edge ix) (Z.to_nat (n - 1)) h y) as Hsteps.
  { intros h Hh. apply (nsteps_avoid _ _ c); [..|done].
    - intros a' b' Ha. rewrite Hedge. naive_solver.
    - intros x. rewrite Hedge. intros [[-> Hx]|[_ Hx]]; [by destruct (Hhc c)|].
      apply parent_edge_indexed in Hx as [_ [? ?]]; [congruence|by apply reachable_wf]. }
  split.
  - intros (_ & h & [= <-] & Hst). inversion Hst as [|? ? z ? Hcz Hz]; subst.
    apply Hedge in Hcz as [[_ Hz']|[? _]]; [|done].
    split; [done|]. exists z. split; [done|]. apply Hsteps; auto.
  - intros (_ & h & Hh & Hst). split; [lia|]. exists c. split; [done|].
    econstructor; [by apply Hedge; left|]. apply Hsteps; auto.
Qed.

Lemma add_shifts_ancestors_witness :
  resolve (default empty_index (match add_turn "d" sample_index with Ok i => Some i | _ => None end))
    None (Some 3) = Ok "b".
Proof.
  refine (proj2 (proj2 (add_shifts_ancestors sample_index "d" 1 "manual" None false PNone
    _ 2 "b" sample_reachable _ _ _)) _); first [reflexivity|lia].
Defined.

(** Also: Moving the head to [c], as a rollback does, makes [c] ancestor 1 and
    changes no parent link. *)
Theorem move_head_keeps_lineage ix c ix' :
  index_reachable ix -> move_head ix c = Ok ix' ->
  resolve ix' None (Some 1) = Ok c /\
  forall x, parent_value ix' x = parent_value ix x.
Proof.
  intros Hr H. apply reachable_wf in Hr as (L & Hrep & Hwf).
  assert (is_Some (l_nodes L !! c)) as Hc.
  { apply not_eq_None_Some. intros Hn. apply (sim_None _ _ _ (proj2 Hrep)) in Hn.
    unfold move_head in H. by rewrite Hn in H. }
  destruct (move_head_refines _ _ c Hrep Hc) as (ix2 & H2 & Hrep').
  assert (ix2 = ix') as -> by congruence. split.
  - simpl. unfold resolve_ancestor. by rewrite (proj1 Hrep').
  - intros x. rewrite (represents_parent _ _ _ Hrep'), (represents_parent _ _ _ Hrep).
    rewrite (l_move_lookup L c Hc). by destruct (l_nodes L !! x).
Qed.

Lemma move_head_keeps_lineage_witness :
  parent_value (match move_head sample_index "a" with Ok i => i | _ => empty_index end) "c"
    = PStr "b".
Proof.
  rewrite (proj2 (move_head_keeps_lineage sample_index "a" _ sample_reachable eq_refl)).
  reflexivity.
Defined.

(** Also: Removing an indexed checkpoint erases every trace of it (entry, head,
    parent and child links) and keeps the ancestor relation of all others. *)
Theorem remove_keeps_ancestry ix c m ix' x y :
  index_reachable ix -> checkpoints ix !! c = Some m -> remove ix c = Ok ix' ->
  x <> c -> y <> c ->
  checkpoints ix' !! c = None /\ head ix' <> Some c /\
  ~ parent_edge ix' x c /\ ~ lists_child ix' x c /\
  (tc (parent_edge ix') x y <-> tc (parent_edge ix) x y).
Proof.
  intros Hr Hm H Hx Hy. apply reachable_wf in Hr as (L & Hrep & Hwf).
  destruct (remove_refines _ _ c Hrep) as (ix2 & H2 & Hrep').
  assert (ix2 = ix') as -> by congruence. clear H2.
  destruct (l_nodes L !! c) as [n|] eqn:Hc.
  2:{ apply (sim_None _ _ _ (proj2 Hrep)) in Hc. congruence. }
  assert (forall z w, parent_edge ix' z w <->
            z <> c /\ exists nz, l_nodes L !! z = Some nz /\ rm_parent c n nz = Some w) as Hedge.
  { intros z w. rewrite (parent_edge_node _ _ _ _ Hrep'). split.
    - intros (n' & Hn' & Hp). apply (l_remove_inv L c n Hc Hwf) in Hn' as (? & nz & ? & ->).
      eauto.
    - intros (Hz & nz & Hnz & Hp).
      rewrite (l_remove_some L c n Hc Hwf z nz Hz Hnz). by eexists. }
  pose proof (fun z w => parent_edge_node ix L z w Hrep) as Hold.
  split; [|split; [|split; [|split]]].
  - apply (sim_None _ _ _ (proj2 Hrep')). rewrite (l_remove_lookup L c n Hc Hwf).
    by rewrite bool_decide_eq_true_2.
  - rewrite (proj1 Hrep'), (l_remove_head L c n Hc).
    case_bool_decide; [by eapply parent_c_not_c|done].
  - rewrite Hedge. intros (_ & nz & _ & Hp). by eapply rm_parent_not_c in Hp.
  - rewrite (lists_child_node _ _ _ _ Hrep'). intros (n' & Hn' & Hin).
    apply (l_remove_inv L c n Hc Hwf) in Hn' as (_ & nz & Hnz & ->).
    by eapply rm_kids_c in Hin.
  - apply (tc_bypass _ _ c); [| |done|done].
    + intros (n' & Hn' & Hp)%Hold. assert (n' = n) as -> by congruence.
      by eapply parent_c_not_c.
    + intros z w. rewrite Hedge, !Hold. split.
      * intros (Hz & nz & Hnz & Hp). split; [done|].
        split; [intros E; subst w; by apply (rm_parent_not_c L c n Hc Hwf nz)|].
        unfold rm_parent in Hp. case_bool_decide; [right|left]; eauto 6.
      * intros (Hz & Hw & Hor). split; [done|].
        destruct Hor as [(nz & Hnz & Hp)|[(nz & Hnz & Hp) (n' & Hn' & Hp')]]; exists nz;
          (split; [done|]); unfold rm_parent.
        -- by rewrite bool_decide_eq_false_2 by congruence.
        -- rewrite bool_decide_eq_true_2 by done. congruence.
Qed.

Lemma remove_keeps_ancestry_witness :
  tc (parent_edge (match remove sample_index "b" with Ok i => i | _ => empty_index end))
     "c" "a"
  <-> tc (parent_edge sample_index) "c" "a".
Proof.
  refine (proj2 (proj2 (proj2 (proj2 (remove_keeps_ancestry sample_index "b"
    (default [] (checkpoints sample_index !! "b")) _ "c" "a" sample_reachable _ _ _ _)))));
    first [reflexivity|discriminate].
Defined.

Lemma present_marked A x o :
  match mark_missing A x <$> o with Some m => negb (is_missing m) | None => false end =
  match o with Some _ => bool_decide (x ∈ A) | None => false end.
Proof. destruct o; [apply mark_missing_present|done]. Qed.

(** Also: Reconciliation makes the index agree with the snapshots on disk:
    exactly the snapshots are present, the head is an existing snapshot or
    none, and reconciling again reports no change. *)
Theorem reconcile_agrees ix actual :
  let ix' := (reconcile ix actual).1 in
  (forall x, present ix' x = bool_decide (x ∈ actual)) /\
  (forall h, head ix' = Some h -> head ix = Some h /\ h ∈ actual) /\
  reconcile ix' actual = (ix', false).
Proof.
  cbv zeta. pose proof (reconcile_agreeing ix actual) as H. split; [|split].
  - intros x. by apply present_agrees.
  - intros h. apply reconcile_head.
  - by apply agrees_reconcile.
Qed.

(** ** Listing *)

#[export] Instance record_le_total : Total record_le.
Proof.
  intros x y. unfold record_le.
  destruct (Z.lt_total x.1.1 y.1.1) as [?|[?|?]]; [by left; left| |by right; left].
  destruct (total string_le x.1.2 y.1.2); [left|right]; right; by split.
Qed.

#[export] Instance record_le_trans : Transitive record_le.
Proof.
  intros x y z. unfold record_le. intros [?|[? ?]] [?|[? ?]]; try (left; lia).
  right. split; [lia|]. by transitivity y.1.2.
Qed.

Lemma with_created_spec l ks :
  with_created l = Ok ks ->
  Forall2 (fun k e => (k.1.2, k.2) = e
             /\ py_int (dget_or "created_at_ns" (PInt 0) k.2) = Ok k.1.1) ks l.
Proof.
  revert ks. induction l as [|[id m] l IH]; intros ks; simpl; intros H.
  - injection H as <-. constructor.
  - ok_inv. constructor; [done|]. by apply IH.
Qed.

(** Also: [records] lists each indexed checkpoint once, ordered by creation time
    and then identifier, and fails only when a creation time is not a number. *)
Theorem records_sorted ix rs :
  records ix = Ok rs ->
  exists keyed, rs = record_dict <$> keyed /\ StronglySorted record_le keyed /\
    (fun k => (k.1.2, k.2)) <$> keyed ≡ₚ map_to_list (checkpoints ix) /\
    Forall (fun k => py_int (dget_or "created_at_ns" (PInt 0) k.2) = Ok k.1.1) keyed.
Proof.
  intros H. unfold records in H. ok_inv. apply with_created_spec in H.
  eexists. split; [done|]. split; [by apply StronglySorted_merge_sort; apply _|].
  rewrite merge_sort_Permutation. split.
  - clear -H. induction H as [|k e ks l [E _] _ IH]; [done|]. rewrite fmap_cons, IH. by rewrite E.
  - clear -H. induction H as [|k e ks l [_ E] _ IH]; constructor; auto.
Qed.

Lemma records_sorted_witness :
  exists keyed, StronglySorted record_le keyed /\ length keyed = 3%nat.
Proof.
  destruct (records_sorted sample_index
    (match records sample_index with Ok rs => rs | _ => [] end) eq_refl)
    as (keyed & Hk & Hs & _).
  exists keyed. split; [exact Hs|].
  apply (f_equal length) in Hk. rewrite length_fmap in Hk. rewrite <- Hk. reflexivity.
Defined.

(** When the head's snapshot is gone, [reconcile] clears the head but leaves
    the live marker on its entry, so that after the next rollback two entries
    claim the live workspace as their child. *)
Definition stale_live_index : index :=
  match move_head (reconcile sample_index {["a"; "b"]}).1 "a" with
  | Ok ix => ix | Err _ => empty_index end.

Theorem reconcile_leaves_live_marker :
  index_reachable stale_live_index /\
  lists_child stale_live_index "a" LIVE_CHILD /\ lists_child stale_live_index "c" LIVE_CHILD.
Proof.
  split; [|split].
  - eapply (transitivity (y := sample_index)); [apply sample_reachable|].
    eapply rtc_l; [apply (index_step_reconcile _ {["a"; "b"]})|].
    { intros x Hx. assert (x = "a" \/ x = "b") as [-> | ->] by set_solver; done. }
    eapply rtc_l; [apply (index_step_move _ "a"); reflexivity|]. apply rtc_refl.
  - do 2 eexists. split; [reflexivity|]. split; [reflexivity|]. set_solver.
  - do 2 eexists. split; [reflexivity|]. split; [reflexivity|]. set_solver.
Qed.
