(* ===== verification/FileSystem.v ===== *)
(** * The directory tree below the workspace root

    The store manipulates one directory tree through [pathlib], [os] and the
    Btrfs tools.  A node is a directory, a file, a symbolic link, a socket, a
    FIFO or another special file; a path is the list of its components below
    the workspace root.  The structural operations descend through directories
    only; the tests that Python lets follow a link ([exists], [is_dir],
    [is_file]) follow a link in the last component, up to the kernel's limit
    of forty. *)

From Stdlib Require Import Ascii.
From Stdlib Require String.
From stdpp Require Import gmap.
From S2P Require Import Prelude PyVal.
Open Scope Z_scope.

(** What a file holds: a JSON document as the value it decodes to, a sequence
    of JSON records one per line, or other bytes. *)
Inductive content :=
  | CJson (v : pyval)
  | CLines (records : list dict)
  | CRaw (bytes : string).

Abbreviation path := (list string).

Inductive node :=
  | NDir (children : gmap string node)
  | NFile (c : content)
  | NLink (target : path)
  | NSock
  | NFifo
  | NOther.

Definition empty_dir : node := NDir ∅.

(** ** Structural operations *)

Fixpoint get (p : path) (n : node) : option node :=
  match p with
  | [] => Some n
  | c :: p' => match n with NDir ch => ch !! c ≫= get p' | _ => None end
  end.

(** Place [new] at [p]; the parent must be a directory. *)
Fixpoint put (p : path) (new : node) (o : option node) : option node :=
  match p with
  | [] => Some new
  | c :: p' =>
      match o with
      | Some (NDir ch) => m ← put p' new (ch !! c); Some (NDir (<[c:=m]> ch))
      | _ => None
      end
  end.

(** Remove the node at [p], with everything below it. *)
Fixpoint del (p : path) (n : node) : option node :=
  match n with
  | NDir ch =>
      match p with
      | [] => None
      | [c] => match ch !! c with Some _ => Some (NDir (delete c ch)) | None => None end
      | c :: p' => m ← ch !! c; m' ← del p' m; Some (NDir (<[c:=m']> ch))
      end
  | _ => None
  end.

(** [Path.mkdir(parents=True, exist_ok=True)]. *)
Fixpoint mkdirs (p : path) (o : option node) : option node :=
  match p with
  | [] => match o with
          | None => Some empty_dir
          | Some (NDir ch) => Some (NDir ch)
          | _ => None
          end
  | c :: p' =>
      match o with
      | None => m ← mkdirs p' None; Some (NDir {[c:=m]})
      | Some (NDir ch) => m ← mkdirs p' (ch !! c); Some (NDir (<[c:=m]> ch))
      | _ => None
      end
  end.

Definition is_prefix (p q : path) : bool := bool_decide (p `prefix_of` q).

Definition is_empty_dir (n : node) : bool :=
  match n with NDir ch => bool_decide (ch = ∅) | _ => false end.

Definition dir_node (n : node) : bool := match n with NDir _ => true | _ => false end.

(** [os.rename(src, dst)]: a directory may replace an empty directory and any
    other node one that is not a directory. *)
Definition may_replace (n : node) (old : option node) : bool :=
  match old with
  | None => true
  | Some o => if dir_node n then is_empty_dir o else negb (dir_node o)
  end.

Definition move (src dst : path) (fs : node) : option node :=
  n ← get src fs;
  if is_prefix src dst || is_prefix dst src then None
  else if may_replace n (get dst fs)
  then fs' ← del src fs; put dst n (Some fs')
  else None.

(** [Path.unlink]. *)
Definition unlink (p : path) (fs : node) : option node :=
  n ← get p fs;
  if dir_node n then None else del p fs.

(** ** Tests *)

(** Follow the links in the last component. *)
Fixpoint follow (links : nat) (p : path) (fs : node) : option path :=
  match get p fs with
  | Some (NLink target) =>
      match links with
      | O => None
      | S links => follow links target fs
      end
  | _ => Some p
  end.

Definition MAXSYMLINKS : nat := 40.

Definition stat (p : path) (fs : node) : option node :=
  q ← follow MAXSYMLINKS p fs; get q fs.

Definition path_exists (p : path) (fs : node) : bool :=
  match stat p fs with Some _ => true | None => false end.

Definition path_is_dir (p : path) (fs : node) : bool :=
  match stat p fs with Some n => dir_node n | None => false end.

Definition path_is_file (p : path) (fs : node) : bool :=
  match stat p fs with Some (NFile _) => true | _ => false end.

Definition path_is_symlink (p : path) (fs : node) : bool :=
  match get p fs with Some (NLink _) => true | _ => false end.

(** [Path.iterdir], by name. *)
Definition child_names (p : path) (fs : node) : list string :=
  match stat p fs with
  | Some (NDir ch) => (map_to_list ch).*1
  | _ => []
  end.

Definition parent_of (p : path) : path := removelast p.

(** [Path.name] of a relative path given as a string. *)
Definition path_name (s : string) : string :=
  List.last
    (List.filter (fun c => negb (str_eqb c EmptyString) && negb (str_eqb c "."))
       (string_split "/"%char s)) EmptyString.

(** [Path.as_posix]. *)
Definition as_posix (p : path) : string := string_join "/" p.

(** ** Two paths, neither of which is an ancestor of the other *)

Definition diverge (p q : path) : Prop := ~ p `prefix_of` q /\ ~ q `prefix_of` p.

Lemma diverge_sym p q : diverge p q -> diverge q p.
Proof. unfold diverge. tauto. Qed.

Lemma diverge_cons c p q : diverge (c :: p) (c :: q) <-> diverge p q.
Proof.
  unfold diverge. split; intros [H1 H2]; split; intros H;
    first [by apply H1, prefix_cons | by apply H2, prefix_cons
          | by apply prefix_cons_inv_2 in H].
Qed.

Lemma diverge_nil_l p : ~ diverge [] p.
Proof. intros [H _]. apply H, prefix_nil. Qed.

Lemma diverge_head c d p q : c <> d -> diverge (c :: p) (d :: q).
Proof.
  intros Hcd. split; intros H; apply prefix_cons_inv_1 in H; congruence.
Qed.

Lemma diverge_app_l p q r : diverge p q -> diverge (p ++ r) q.
Proof.
  intros [H1 H2]. split; intros H.
  - apply H1. etrans; [by apply prefix_app_r|]. done.
  - destruct (decide (q `prefix_of` p)); [done|].
    destruct (prefix_weak_total p q (p ++ r)) as [?|?]; [by apply prefix_app_r|done..].
Qed.

Lemma diverge_app p q r : diverge q r -> diverge (p ++ q) (p ++ r).
Proof. induction p as [|c p IH]; [done|]. intros. simpl. by apply diverge_cons, IH. Qed.

(** ** Lookup lemmas *)

Lemma get_app p q n : get (p ++ q) n = get p n ≫= get q.
Proof.
  revert n. induction p as [|c p IH]; intros n; [done|]. simpl.
  destruct n as [ch| | | | |]; try done. destruct (ch !! c); simpl; [apply IH|done].
Qed.

Lemma put_Some_dir c p new o t' :
  put (c :: p) new o = Some t' ->
  exists ch m, o = Some (NDir ch) /\ put p new (ch !! c) = Some m /\ t' = NDir (<[c:=m]> ch).
Proof.
  simpl. destruct o as [[ch| | | | |]|]; try done. intros (m & H & [= <-])%bind_Some.
  by exists ch, m.
Qed.

Lemma get_put_below p r new o t' :
  put p new o = Some t' -> get (p ++ r) t' = get r new.
Proof.
  revert o t'. induction p as [|c p IH]; intros o t'; [by intros [= <-]|].
  intros (ch & m & -> & H & ->)%put_Some_dir. simpl. rewrite lookup_insert_eq. simpl.
  by eapply IH.
Qed.

Lemma get_put_eq p new o t' : put p new o = Some t' -> get p t' = Some new.
Proof. intros H. rewrite <- (app_nil_r p). by rewrite (get_put_below _ _ _ _ _ H). Qed.

Lemma get_put_ne p q new t t' :
  put p new (Some t) = Some t' -> diverge p q -> get q t' = get q t.
Proof.
  intros H Hd. assert (forall o, put p new o = Some t' ->
    get q t' = o ≫= get q) as Hgen; [|by apply (Hgen (Some t))].
  clear t H. revert q t' Hd. induction p as [|c p IH]; intros q t' Hd o.
  { by apply diverge_nil_l in Hd. }
  destruct q as [|d q]; [by apply diverge_sym, diverge_nil_l in Hd|].
  intros (ch & m & -> & H & ->)%put_Some_dir. simpl.
  destruct (decide (c = d)) as [->|Hne].
  - rewrite lookup_insert_eq. apply diverge_cons in Hd. simpl. by apply IH.
  - by rewrite lookup_insert_ne.
Qed.

Lemma put_is_Some p c new t ch :
  get p t = Some (NDir ch) -> exists t', put (p ++ [c]) new (Some t) = Some t'.
Proof.
  revert t. induction p as [|d p IH]; intros t; simpl.
  - intros [= ->]. eauto.
  - destruct t as [ch'| | | | |]; try done. intros (m & Hm & H)%bind_Some.
    rewrite Hm. destruct (IH _ H) as (t' & ->). simpl. eauto.
Qed.

Lemma del_cons_Some c p n t' :
  del (c :: p) n = Some t' ->
  exists ch, n = NDir ch /\
    ((p = [] /\ t' = NDir (delete c ch)) \/
     (p <> [] /\ exists m m', ch !! c = Some m /\ del p m = Some m' /\ t' = NDir (<[c:=m']> ch))).
Proof.
  destruct n as [ch| | | | |]; try done. simpl. intros H. exists ch. split; [done|].
  destruct p as [|d p].
  - left. split; [done|]. destruct (ch !! c); congruence.
  - right. split; [done|]. apply bind_Some in H as (m & Hm & H).
    apply bind_Some in H as (m' & Hm' & [= <-]). eauto.
Qed.

Lemma get_del_below p r t t' : del p t = Some t' -> get (p ++ r) t' = None.
Proof.
  revert t t'. induction p as [|c p IH]; intros t t'.
  { by destruct t. }
  intros (ch & -> & [[-> ->]|(_ & m & m' & Hm & Hd & ->)])%del_cons_Some; simpl.
  - by rewrite lookup_delete_eq.
  - rewrite lookup_insert_eq. simpl. by eapply IH.
Qed.

Lemma get_del_eq p t t' : del p t = Some t' -> get p t' = None.
Proof. intros H. rewrite <- (app_nil_r p). by eapply get_del_below. Qed.

Lemma get_del_ne p q t t' : del p t = Some t' -> diverge p q -> get q t' = get q t.
Proof.
  revert q t t'. induction p as [|c p IH]; intros q t t' H Hd.
  { by apply diverge_nil_l in Hd. }
  destruct q as [|d q]; [by apply diverge_sym, diverge_nil_l in Hd|].
  apply del_cons_Some in H as (ch & -> & [[-> ->]|(_ & m & m' & Hm & H & ->)]); simpl.
  - destruct (decide (c = d)) as [->|Hne]; [|by rewrite lookup_delete_ne].
    apply diverge_cons in Hd. by apply diverge_nil_l in Hd.
  - destruct (decide (c = d)) as [->|Hne]; [|by rewrite lookup_insert_ne].
    rewrite lookup_insert_eq, Hm. apply diverge_cons in Hd. simpl. by eapply IH.
Qed.

Lemma del_is_Some p c t n :
  get (p ++ [c]) t = Some n -> exists t', del (p ++ [c]) t = Some t'.
Proof.
  revert t. induction p as [|d p IH]; intros t; simpl.
  - destruct t as [ch| | | | |]; try done. intros (m & -> & _)%bind_Some. eauto.
  - destruct t as [ch| | | | |]; try done. intros (m & Hm & H)%bind_Some.
    rewrite Hm. destruct (IH _ H) as (t' & Ht'). simpl. rewrite Ht'. simpl.
    destruct (p ++ [c]) eqn:E; [by destruct p|]. eauto.
Qed.

Lemma mkdirs_spec p o t' q :
  mkdirs p o = Some t' ->
  (q `prefix_of` p -> exists ch, get q t' = Some (NDir ch)) /\
  (~ q `prefix_of` p -> get q t' = o ≫= get q).
Proof.
  revert o t' q. induction p as [|c p IH]; intros o t' q; simpl; intros H.
  - split.
    + intros ->%prefix_nil_inv. destruct o as [[ch| | | | |]|]; simplify_eq; simpl; eauto.
    + intros Hq. destruct q as [|d q]; [by destruct Hq|].
      destruct o as [[ch| | | | |]|]; simplify_eq; done.
  - destruct o as [[ch| | | | |]|]; try done; apply bind_Some in H as (m & Hm & [= <-]).
    + destruct q as [|d q]; [split; [simpl; eauto|intros []; by apply prefix_nil]|].
      destruct (IH _ _ q Hm) as [H1 H2]. simpl. destruct (decide (c = d)) as [->|Hne].
      * rewrite lookup_insert_eq. split; [by intros ?%prefix_cons_inv_2; apply H1|].
        intros Hq. apply H2. intros ?. by apply Hq, prefix_cons.
      * rewrite lookup_insert_ne by done.
        split; [intros ?%prefix_cons_inv_1; congruence|done].
    + destruct q as [|d q]; [split; [simpl; eauto|intros []; by apply prefix_nil]|].
      destruct (IH _ _ q Hm) as [H1 H2]. simpl. destruct (decide (c = d)) as [->|Hne].
      * rewrite lookup_singleton_eq. split; [by intros ?%prefix_cons_inv_2; apply H1|].
        intros Hq. apply H2. intros ?. by apply Hq, prefix_cons.
      * rewrite lookup_singleton_ne by done.
        split; [intros ?%prefix_cons_inv_1; congruence|done].
Qed.

(** A strict ancestor of a path that was placed or removed is a directory. *)
Lemma put_ancestor p q new t t' :
  put p new (Some t) = Some t' -> q `prefix_of` p -> q <> p ->
  exists ch, get q t' = Some (NDir ch).
Proof.
  assert (forall o, put p new o = Some t' -> q `prefix_of` p -> q <> p ->
    exists ch, get q t' = Some (NDir ch)) as Hgen; [|by apply Hgen].
  clear t. revert q t'. induction p as [|c p IH]; intros q t' o H Hq Hne.
  - by apply prefix_nil_inv in Hq.
  - apply put_Some_dir in H as (ch & m & -> & H & ->).
    destruct q as [|d q]; [simpl; eauto|].
    pose proof (prefix_cons_inv_1 _ _ _ _ Hq). subst d.
    apply prefix_cons_inv_2 in Hq. simpl. rewrite lookup_insert_eq. simpl.
    eapply IH; [done|done|congruence].
Qed.

Lemma del_ancestor p q t t' :
  del p t = Some t' -> q `prefix_of` p -> q <> p -> exists ch, get q t' = Some (NDir ch).
Proof.
  revert q t t'. induction p as [|c p IH]; intros q t t' H Hq Hne.
  - by apply prefix_nil_inv in Hq.
  - apply del_cons_Some in H as (ch & -> & Hor).
    destruct q as [|d q]; [destruct Hor as [[_ ->]|(_ & ? & ? & _ & _ & ->)]; simpl; eauto|].
    pose proof (prefix_cons_inv_1 _ _ _ _ Hq). subst d. apply prefix_cons_inv_2 in Hq.
    destruct Hor as [[-> ->]|(_ & m & m' & Hm & H & ->)].
    + by apply prefix_nil_inv in Hq as ->.
    + simpl. rewrite lookup_insert_eq. simpl. eapply IH; [done|done|congruence].
Qed.

Lemma prefix_cases (p q : path) : p `prefix_of` q \/ q `prefix_of` p \/ diverge p q.
Proof.
  destruct (decide (p `prefix_of` q)); [by left|].
  destruct (decide (q `prefix_of` p)); [by right; left|]. by right; right.
Qed.

(** ** Operations below a directory, seen from that directory *)

Lemma put_app p q x t m m' :
  get p t = Some m -> put q x (Some m) = Some m' ->
  exists t', put (p ++ q) x (Some t) = Some t' /\ get p t' = Some m'.
Proof.
  revert t. induction p as [|c p IH]; intros t; simpl.
  { intros [= ->] ->. eauto. }
  destruct t as [ch| | | | |]; try done. intros (n & Hn & H)%bind_Some Hq.
  rewrite Hn. destruct (IH _ H Hq) as (n' & -> & Hn'). simpl.
  eexists. split; [done|]. simpl. by rewrite lookup_insert_eq.
Qed.

Lemma del_app p c q t m m' :
  get p t = Some m -> del (c :: q) m = Some m' ->
  exists t', del (p ++ c :: q) t = Some t' /\ get p t' = Some m'.
Proof.
  revert t. induction p as [|d p IH]; intros t.
  { intros [= ->] H. by exists m'. }
  simpl. destruct t as [ch| | | | |]; try done. intros (n & Hn & H)%bind_Some Hq.
  rewrite Hn. destruct (IH _ H Hq) as (n' & Hd & Hn'). simpl.
  destruct (p ++ c :: q) as [|y l] eqn:E; [by destruct p|].
  change (exists t', (n'' ← del (y :: l) n; Some (NDir (<[d:=n'']> ch))) = Some t' /\
                     match t' with NDir ch => ch !! d ≫= get p | _ => None end = Some m').
  rewrite Hd. simpl. eexists. split; [done|]. simpl. by rewrite lookup_insert_eq.
Qed.

Lemma move_app p c d t ch n :
  get p t = Some (NDir ch) -> ch !! c = Some n -> ch !! d = None -> c <> d ->
  exists t', move (p ++ [c]) (p ++ [d]) t = Some t'
    /\ get p t' = Some (NDir (<[d:=n]> (delete c ch)))
    /\ forall q, diverge p q -> get q t' = get q t.
Proof.
  intros Hp Hc Hd Hne.
  assert (get (p ++ [c]) t = Some n) as Hgc by (rewrite get_app, Hp; simpl; by rewrite Hc).
  assert (get (p ++ [d]) t = None) as Hgd by (rewrite get_app, Hp; simpl; by rewrite Hd).
  assert (diverge (p ++ [c]) (p ++ [d])) as [H1 H2] by (apply diverge_app, diverge_head; done).
  destruct (del_app p c [] t (NDir ch) (NDir (delete c ch)) Hp) as (t1 & Ht1 & Hp1).
  { simpl. by rewrite Hc. }
  destruct (put_app p [d] n t1 _ (NDir (<[d:=n]> (delete c ch))) Hp1) as (t2 & Ht2 & Hp2).
  { done. }
  exists t2. unfold move. rewrite Hgc, Hgd. simpl. unfold is_prefix.
  rewrite !bool_decide_eq_false_2 by done. simpl. rewrite Ht1. simpl.
  split; [done|]. split; [done|]. intros q Hq.
  rewrite (get_put_ne _ _ _ _ _ Ht2) by (by apply diverge_app_l).
  apply (get_del_ne _ _ _ _ Ht1). by apply diverge_app_l.
Qed.

Lemma unlink_leaf p n fs : get p fs = Some n -> dir_node n = false -> unlink p fs = del p fs.
Proof. intros H Hn. unfold unlink. rewrite H. cbn [mbind option_bind]. by rewrite Hn. Qed.

(** ** Tests on nodes that are not links *)

Definition plain (o : option node) : Prop :=
  match o with Some (NLink _) => False | _ => True end.

Lemma follow_plain k p fs : plain (get p fs) -> follow k p fs = Some p.
Proof. destruct k; simpl; by destruct (get p fs) as [[]|]. Qed.

Lemma stat_plain p fs : plain (get p fs) -> stat p fs = get p fs.
Proof. intros H. unfold stat. by rewrite follow_plain. Qed.

Lemma path_exists_plain p fs o :
  get p fs = o -> plain o -> path_exists p fs = match o with Some _ => true | None => false end.
Proof. intros <- H. unfold path_exists. by rewrite stat_plain. Qed.

Lemma path_is_dir_plain p fs ch : get p fs = Some (NDir ch) -> path_is_dir p fs = true.
Proof. intros H. unfold path_is_dir. rewrite stat_plain; by rewrite H. Qed.

Lemma path_is_symlink_plain p fs : plain (get p fs) -> path_is_symlink p fs = false.
Proof. unfold path_is_symlink. by destruct (get p fs) as [[]|]. Qed.

(** ** Names without a slash *)

Lemma string_split_none c s : char_in c s = false -> string_split c s = [s].
Proof.
  induction s as [|d s IH]; [done|]. intros H.
  change (bool_decide (d = c) || char_in c s = false) in H.
  apply orb_false_iff in H as [Hd Hs]. simpl. by rewrite Hd, (IH Hs).
Qed.

Lemma path_name_plain s :
  char_in "/" s = false -> s <> EmptyString -> s <> "." -> path_name s = s.
Proof.
  intros Hs H1%str_eqb_neq H2%str_eqb_neq. unfold path_name.
  rewrite string_split_none by done. simpl. by rewrite H1, H2.
Qed.

