(* ===== verification/World.v ===== *)
(** * Computations over the workspace tree

    The store reads and changes the directory tree, the clock and the random
    token generator, and may be interrupted.  A computation runs in an
    environment (an oracle indexed by the number of operations performed) on a
    world (the tree, the operation counter, the locks held) and returns a
    value, raises a Python exception, or is cut short by a crash of the
    process or of the machine.  Each elementary operation succeeds, fails
    without or after having taken effect, or is where the crash happens,
    as the environment decides; a crash cannot be caught. *)

From Stdlib Require Import Ascii.
From Stdlib Require String.
From stdpp Require Import gmap.
From S2P Require Import Prelude PyVal FileSystem.
Open Scope Z_scope.

(** ** Worlds, environments, outcomes *)

Inductive fate := Go | Fail_before | Fail_after | Halt.

Record env := Env {
  e_time : nat -> Z;          (* time.time_ns() *)
  e_uuid : nat -> string;     (* uuid.uuid4().hex *)
  e_fate : nat -> fate;       (* every operation but renames inside a session *)
  e_rename : nat -> fate }.   (* Path.rename *)

Record world := World {
  w_fs : node;
  w_tick : nat;
  w_locks : list (string * string) }.

Definition with_fs (fs : node) (w : world) : world := World fs (w_tick w) (w_locks w).
Definition next_tick (w : world) : world := World (w_fs w) (S (w_tick w)) (w_locks w).
Definition with_locks (l : list (string * string)) (w : world) : world :=
  World (w_fs w) (w_tick w) l.

Inductive outcome (A : Type) :=
  | Ret (a : A)
  | Exc (e : exn)
  | Crash.
Arguments Ret {A} a.
Arguments Exc {A} e.
Arguments Crash {A}.

Definition M (A : Type) : Type := env -> world -> outcome A * world.

#[export] Instance M_ret : MRet M := fun A a _ w => (Ret a, w).
#[export] Instance M_bind : MBind M := fun A B f m en w =>
  match m en w with
  | (Ret a, w') => f a en w'
  | (Exc e, w') => (Exc e, w')
  | (Crash, w') => (Crash, w')
  end.

Definition raise {A} (e : exn) : M A := fun _ w => (Exc e, w).

Definition of_result {A} (r : result A) : M A :=
  match r with Ok a => mret a | Err e => raise e end.

Definition raise_when (b : bool) (e : exn) : M unit :=
  if b then raise e else mret ().

(** [try: m except ...: h]; [h e = None] when no clause matches. *)
Definition try_except {A} (m : M A) (h : exn -> option (M A)) : M A := fun en w =>
  match m en w with
  | (Exc e, w') => match h e with Some k => k en w' | None => (Exc e, w') end
  | r => r
  end.

(** [try: m finally: fin]. *)
Definition finally {A} (m : M A) (fin : M unit) : M A := fun en w =>
  match m en w with
  | (Ret a, w') =>
      match fin en w' with
      | (Ret _, w'') => (Ret a, w'')
      | (Exc e, w'') => (Exc e, w'')
      | (Crash, w'') => (Crash, w'')
      end
  | (Exc e, w') =>
      match fin en w' with
      | (Ret _, w'') => (Exc e, w'')
      | (Exc e', w'') => (Exc e', w'')
      | (Crash, w'') => (Crash, w'')
      end
  | (Crash, w') => (Crash, w')
  end.

(** Locks: [RLock.acquire] and [release], by one thread. *)
Definition take_lock (key : string * string) : M unit := fun _ w =>
  (Ret (), with_locks (key :: w_locks w) w).

Fixpoint remove_first (key : string * string) (l : list (string * string)) :=
  match l with
  | [] => []
  | k :: l => if bool_decide (k = key) then l else k :: remove_first key l
  end.

Definition give_lock (key : string * string) : M unit := fun _ w =>
  (Ret (), with_locks (remove_first key (w_locks w)) w).

(** [with lock:] around a body. *)
Definition holding {A} (key : string * string) (m : M A) : M A :=
  take_lock key;; finally m (give_lock key).

Fixpoint mapM_ {A} (f : A -> M unit) (l : list A) : M unit :=
  match l with
  | [] => mret ()
  | x :: l => f x;; mapM_ f l
  end.

(** ** Elementary operations *)

Definition injected : exn := OSError "operation failed".

(** An operation on the tree that [f] performs or refuses, at the fate the
    oracle [sel] decides. *)
Definition effect (sel : env -> nat -> fate) (f : node -> result node) : M unit :=
  fun en w =>
    let w1 := next_tick w in
    match sel en (w_tick w) with
    | Halt => (Crash, w1)
    | Fail_before => (Exc injected, w1)
    | Fail_after =>
        match f (w_fs w) with
        | Ok fs' => (Exc injected, with_fs fs' w1)
        | Err e => (Exc e, w1)
        end
    | Go =>
        match f (w_fs w) with
        | Ok fs' => (Ret (), with_fs fs' w1)
        | Err e => (Exc e, w1)
        end
    end.

Definition os_op (what : string) (f : node -> option node) (fs : node) : result node :=
  match f fs with Some fs' => Ok fs' | None => Err (OSError what) end.

(** Read the tree; such a test does not fail. *)
Definition query {A} (f : node -> A) : M A := fun _ w => (Ret (f (w_fs w)), w).

Definition time_ns : M Z := fun en w => (Ret (e_time en (w_tick w)), next_tick w).
Definition uuid_hex : M string := fun en w => (Ret (e_uuid en (w_tick w)), next_tick w).

Definition mkdir_parents (p : path) : M unit :=
  effect e_fate (os_op "mkdir" (fun fs => mkdirs p (Some fs))).

(** [Path.mkdir(mode=...)] without [exist_ok]. *)
Definition mkdir_new (p : path) : M unit :=
  effect e_fate (os_op "mkdir" (fun fs =>
    match get p fs with
    | Some _ => None
    | None => put p empty_dir (Some fs)
    end)).

(** [os.chmod]: permissions are not part of the tree. *)
Definition chmod (p : path) : M unit :=
  effect e_fate (os_op "chmod" (fun fs => if path_exists p fs then Some fs else None)).

(** Store [c] in the file [p]; not through a directory or special file. *)
Definition write_content (p : path) (c : content) (fs : node) : option node :=
  match get p fs with
  | None | Some (NFile _) => put p (NFile c) (Some fs)
  | _ => None
  end.

Definition write_file (p : path) (c : content) : M unit :=
  effect e_fate (os_op "write" (write_content p c)).

(** Create the file [p] for writing; [exclusive] is [O_EXCL]. *)
Definition create_file (exclusive : bool) (p : path) : M unit :=
  effect e_fate (os_op "open" (fun fs =>
    if exclusive && bool_decide (is_Some (get p fs)) then None
    else write_content p (CRaw EmptyString) fs)).

(** Append a record to the JSON-lines file [p], creating it. *)
Definition append_line (p : path) (record : dict) : M unit :=
  effect e_fate (os_op "append" (fun fs =>
    match get p fs with
    | None => put p (NFile (CLines [record])) (Some fs)
    | Some (NFile (CLines l)) => put p (NFile (CLines (l ++ [record]))) (Some fs)
    | Some (NFile _) => put p (NFile (CLines [record])) (Some fs)
    | _ => None
    end)).

(** [open(p, "a+b")] of a lock file. *)
Definition touch (p : path) : M unit :=
  effect e_fate (os_op "open" (fun fs =>
    match get p fs with
    | None => put p (NFile (CRaw EmptyString)) (Some fs)
    | Some (NFile _) => Some fs
    | _ => None
    end)).

Definition unlink_missing_ok (p : path) : M unit :=
  effect e_fate (os_op "unlink" (fun fs =>
    match get p fs with
    | None => Some fs
    | Some _ => unlink p fs
    end)).

Definition unlink_file (p : path) : M unit :=
  effect e_fate (os_op "unlink" (unlink p)).

Definition replace_file (src dst : path) : M unit :=
  effect e_fate (os_op "replace" (move src dst)).

Definition fsync_dir (p : path) : M unit :=
  effect e_fate (os_op "fsync" (fun fs => if path_is_dir p fs then Some fs else None)).

Definition rename (src dst : path) : M unit :=
  effect e_rename (os_op "rename" (move src dst)).

(** [json.loads(p.read_text())]. *)
Definition read_json (p : path) : M pyval :=
  effect e_fate Ok;;
  n ← query (stat p);
  match n with
  | Some (NFile (CJson v)) => mret v
  | Some (NFile _) => raise JSONDecodeError
  | _ => raise (OSError "read")
  end.

(** ** Environments *)

(** No operation fails and there is no crash. *)
Definition calm (en : env) : Prop :=
  (forall n, e_fate en n = Go) /\ (forall n, e_rename en n = Go).

(** A rename succeeds unless the machine crashes. *)
Definition renames_safe (en : env) : Prop :=
  forall n, e_rename en n = Go \/ e_rename en n = Halt.

Definition is_hex (c : ascii) : bool := is_digit c || in_range "a" "f" c.

(** [uuid4().hex] is a string of hexadecimal digits. *)
Definition hex_tokens (en : env) : Prop :=
  forall n, string_forallb is_hex (e_uuid en n) = true.

(** ** Weakest preconditions on the tree *)

Definition wp {A} (en : env) (m : M A) (Q : A -> node -> Prop)
    (E : exn -> node -> Prop) (C : node -> Prop) (fs : node) : Prop :=
  forall w, w_fs w = fs ->
    match m en w with
    | (Ret a, w') => Q a (w_fs w')
    | (Exc e, w') => E e (w_fs w')
    | (Crash, w') => C (w_fs w')
    end.

Section wp_rules.
Context (en : env).

Lemma wp_mono {A} (m : M A) Q Q' E E' (C C' : node -> Prop) fs :
  wp en m Q E C fs ->
  (forall a fs', Q a fs' -> Q' a fs') -> (forall e fs', E e fs' -> E' e fs') ->
  (forall fs', C fs' -> C' fs') -> wp en m Q' E' C' fs.
Proof.
  intros H HQ HE HC w Hw. specialize (H w Hw). destruct (m en w) as [[]]; auto.
Qed.

Lemma wp_ret {A} (a : A) (Q : A -> node -> Prop) E C fs :
  Q a fs -> wp en (mret a) Q E C fs.
Proof. by intros H w <-. Qed.

Lemma wp_raise {A} e (Q : A -> node -> Prop) (E : exn -> node -> Prop) C fs :
  E e fs -> wp en (raise e) Q E C fs.
Proof. by intros H w <-. Qed.

Lemma wp_bind {A B} (m : M A) (k : A -> M B) Q E C fs :
  wp en m (fun a => wp en (k a) Q E C) E C fs -> wp en (m ≫= k) Q E C fs.
Proof.
  intros H w Hw. specialize (H w Hw). unfold mbind, M_bind.
  destruct (m en w) as [[a|e|] w']; [by apply H|done|done].
Qed.

Lemma wp_try {A} (m : M A) h Q (E : exn -> node -> Prop) C fs :
  wp en m Q (fun e fs' => match h e with
                          | Some k => wp en k Q E C fs'
                          | None => E e fs' end) C fs ->
  wp en (try_except m h) Q E C fs.
Proof.
  intros H w Hw. specialize (H w Hw). unfold try_except.
  destruct (m en w) as [[a|e|] w']; [done| |done].
  destruct (h e); [by apply H|done].
Qed.

Lemma wp_finally {A} (m : M A) fin Q E C fs :
  wp en m (fun a => wp en fin (fun _ => Q a) E C)
          (fun e => wp en fin (fun _ => E e) E C) C fs ->
  wp en (finally m fin) Q E C fs.
Proof.
  intros H w Hw. specialize (H w Hw). unfold finally.
  destruct (m en w) as [[a|e|] w']; [| |done]; specialize (H w' eq_refl);
    by destruct (fin en w') as [[]].
Qed.

Lemma wp_holding {A} key (m : M A) Q E C fs :
  wp en m Q E C fs -> wp en (holding key m) Q E C fs.
Proof.
  intros H. intros w <-. unfold holding, mbind, M_bind, take_lock. specialize (H (with_locks (key :: w_locks w) w) eq_refl). revert H.
  unfold finally, give_lock. by destruct (m en _) as [[]].
Qed.

Lemma wp_query {A} (f : node -> A) (Q : A -> node -> Prop) E C fs :
  Q (f fs) fs -> wp en (query f) Q E C fs.
Proof. by intros H w <-. Qed.

Lemma wp_time (Q : Z -> node -> Prop) E C fs :
  (forall t, Q t fs) -> wp en time_ns Q E C fs.
Proof. intros H w <-. apply H. Qed.

Lemma wp_uuid (Q : string -> node -> Prop) E C fs :
  hex_tokens en -> (forall u, string_forallb is_hex u = true -> Q u fs) ->
  wp en uuid_hex Q E C fs.
Proof. intros Hu H w <-. apply H, Hu. Qed.

Lemma wp_of_result {A} (r : result A) (Q : A -> node -> Prop) (E : exn -> node -> Prop) C fs :
  match r with Ok a => Q a fs | Err e => E e fs end -> wp en (of_result r) Q E C fs.
Proof. destruct r; [by apply wp_ret|by apply wp_raise]. Qed.

Lemma wp_raise_when b e (Q : unit -> node -> Prop) (E : exn -> node -> Prop) C fs :
  (b = true -> E e fs) -> (b = false -> Q () fs) -> wp en (raise_when b e) Q E C fs.
Proof. destruct b; intros H1 H2; [by apply wp_raise, H1|by apply wp_ret, H2]. Qed.

(** An elementary operation: in a calm environment only its success or its
    own error; otherwise also a failure or crash before or after. *)
Lemma wp_effect f (Q : unit -> node -> Prop) (E : exn -> node -> Prop) (C : node -> Prop) fs :
  (forall fs', f fs = Ok fs' -> Q () fs') ->
  (forall e, f fs = Err e -> E e fs) ->
  (~ calm en -> E injected fs /\ C fs /\ forall fs', f fs = Ok fs' -> E injected fs') ->
  wp en (effect e_fate f) Q E C fs.
Proof.
  intros HQ HE Hf w <-. unfold effect.
  destruct (e_fate en (w_tick w)) eqn:Ef; simpl.
  - destruct (f (w_fs w)) eqn:Ev; simpl; auto.
  - destruct Hf as (? & ? & ?); [|done]. intros [Hc _]. congruence.
  - destruct Hf as (? & ? & ?); [intros [Hc _]; congruence|].
    destruct (f (w_fs w)) eqn:Ev; simpl; auto.
  - destruct Hf as (? & ? & ?); [|done]. intros [Hc _]. congruence.
Qed.

(** What holds when a computation fails or is interrupted: nothing to show in
    a calm environment, and otherwise that [I] is enough for both. *)
Definition tolerates (I : node -> Prop) (E : exn -> node -> Prop) (C : node -> Prop) : Prop :=
  forall fs, ~ calm en -> I fs -> (forall e, E e fs) /\ C fs.

(** An operation that goes through, with [I] before and after it. *)
Lemma wp_effect_ok (I : node -> Prop) f (Q : unit -> node -> Prop) E C fs fs' :
  f fs = Ok fs' -> tolerates I E C -> I fs -> I fs' -> Q () fs' ->
  wp en (effect e_fate f) Q E C fs.
Proof.
  intros Hf HT HI HI' HQ. apply wp_effect.
  - congruence.
  - congruence.
  - intros Hn. destruct (HT _ Hn HI), (HT _ Hn HI'). split; [auto|]. split; [done|].
    intros ? ?. replace fs'0 with fs' by congruence. auto.
Qed.

Lemma wp_rename src dst (Q : unit -> node -> Prop) (E : exn -> node -> Prop) C fs :
  renames_safe en ->
  (forall fs', move src dst fs = Some fs' -> Q () fs') ->
  (move src dst fs = None -> E (OSError "rename") fs) ->
  (~ calm en -> C fs) ->
  wp en (rename src dst) Q E C fs.
Proof.
  intros Hr HQ HE Hf w <-. unfold rename, effect, os_op.
  destruct (e_rename en (w_tick w)) eqn:Ef; simpl.
  - destruct (move src dst (w_fs w)) eqn:Ev; simpl; auto.
  - destruct (Hr (w_tick w)); congruence.
  - destruct (Hr (w_tick w)); congruence.
  - apply Hf. intros [_ Hc]. congruence.
Qed.

Lemma wp_rename_ok (I : node -> Prop) src dst (Q : unit -> node -> Prop) E C fs fs' :
  renames_safe en -> move src dst fs = Some fs' -> tolerates I E C -> I fs -> Q () fs' ->
  wp en (rename src dst) Q E C fs.
Proof.
  intros Hr Hm HT HI HQ. apply wp_rename; [done|congruence|congruence|].
  intros Hn. by apply HT.
Qed.

Lemma tolerates_mono (I I' : node -> Prop) E C :
  (forall fs, I' fs -> I fs) -> tolerates I E C -> tolerates I' E C.
Proof. intros HI HT fs Hn HI'. auto. Qed.

(** The failure postconditions that say [I] and that the environment is not
    calm. *)
Definition failing (I : node -> Prop) {A} : A -> node -> Prop := fun _ fs => ~ calm en /\ I fs.
Definition crashing (I : node -> Prop) : node -> Prop := fun fs => ~ calm en /\ I fs.

Lemma tolerates_failing (I : node -> Prop) : tolerates I (failing I) (crashing I).
Proof. by intros fs Hn HI. Qed.

Lemma wp_frame {A} (m : M A) (I : node -> Prop) Q E C fs :
  tolerates I E C -> wp en m Q (failing I) (crashing I) fs -> wp en m Q E C fs.
Proof.
  intros HT H. eapply wp_mono; [exact H|done|..].
  - intros e fs' [Hc HI]. by apply HT.
  - intros fs' [Hc HI]. by apply HT.
Qed.

(** Handlers that only translate an exception. *)
Lemma wp_try_raise {A} (m : M A) h (I : node -> Prop) Q E C fs :
  (forall e k, h e = Some k -> exists e', k = raise e') ->
  tolerates I E C -> wp en m Q (failing I) (crashing I) fs ->
  wp en (try_except m h) Q E C fs.
Proof.
  intros Hh HT H. apply wp_try. eapply wp_mono; [exact H|done|..].
  - intros e fs' [Hc HI]. destruct (HT _ Hc HI) as [HE _].
    destruct (h e) as [k|] eqn:Ek; [|done]. destruct (Hh _ _ Ek) as [e' ->].
    by apply wp_raise.
  - intros fs' [Hc HI]. by apply HT.
Qed.
End wp_rules.

Lemma calm_renames_safe en : calm en -> renames_safe en.
Proof. intros [_ H] n. by left. Qed.

(** ** Locks *)

(** A computation that leaves the held locks as it found them, whether it
    returns or raises.  After a crash the locks are gone with the process. *)
Definition lock_neutral {A} (m : M A) : Prop :=
  forall en w, match m en w with
               | (Crash, _) => True
               | (_, w') => w_locks w' = w_locks w
               end.

Lemma lock_neutral_ret {A} (a : A) : lock_neutral (mret a).
Proof. by intros en w. Qed.

Lemma lock_neutral_raise {A} e : lock_neutral (raise (A := A) e).
Proof. by intros en w. Qed.

Lemma lock_neutral_of_result {A} (r : result A) : lock_neutral (of_result r).
Proof. by destruct r. Qed.

Lemma lock_neutral_raise_when b e : lock_neutral (raise_when b e).
Proof. by destruct b. Qed.

Lemma lock_neutral_bind {A B} (m : M A) (k : A -> M B) :
  lock_neutral m -> (forall a, lock_neutral (k a)) -> lock_neutral (m ≫= k).
Proof.
  intros Hm Hk en w. specialize (Hm en w). unfold mbind, M_bind.
  destruct (m en w) as [[a|e|] w']; [|done|done].
  specialize (Hk a en w'). destruct (k a en w') as [[] w'']; congruence.
Qed.

Lemma lock_neutral_try {A} (m : M A) h :
  lock_neutral m -> (forall e k, h e = Some k -> lock_neutral k) ->
  lock_neutral (try_except m h).
Proof.
  intros Hm Hh en w. specialize (Hm en w). unfold try_except.
  destruct (m en w) as [[a|e|] w']; [done| |done].
  destruct (h e) as [k|] eqn:E; [|done].
  specialize (Hh _ _ E en w'). destruct (k en w') as [[] w'']; congruence.
Qed.

Lemma lock_neutral_finally {A} (m : M A) fin :
  lock_neutral m -> lock_neutral fin -> lock_neutral (finally m fin).
Proof.
  intros Hm Hf en w. specialize (Hm en w). unfold finally.
  destruct (m en w) as [[a|e|] w'] eqn:E; [| |done];
    specialize (Hf en w'); destruct (fin en w') as [[] w'']; congruence.
Qed.

Lemma lock_neutral_holding {A} key (m : M A) :
  lock_neutral m -> lock_neutral (holding key m).
Proof.
  intros Hm en w. unfold holding, mbind, M_bind, take_lock, finally, give_lock.
  specialize (Hm en (with_locks (key :: w_locks w) w)).
  destruct (m en _) as [[a|e|] w']; [..|done]; simpl in *; rewrite Hm; simpl;
    by rewrite bool_decide_eq_true_2.
Qed.

Lemma lock_neutral_effect sel f : lock_neutral (effect sel f).
Proof.
  intros en w. unfold effect. destruct (sel en _), (f (w_fs w)); done.
Qed.

Lemma lock_neutral_query {A} (f : node -> A) : lock_neutral (query f).
Proof. by intros en w. Qed.

Lemma lock_neutral_time : lock_neutral time_ns.
Proof. by intros en w. Qed.

Lemma lock_neutral_uuid : lock_neutral uuid_hex.
Proof. by intros en w. Qed.

#[export] Hint Resolve lock_neutral_ret lock_neutral_raise lock_neutral_of_result
  lock_neutral_raise_when lock_neutral_holding lock_neutral_effect lock_neutral_query
  lock_neutral_time lock_neutral_uuid : allox.
