(* ===== verification/StoreFiles.v ===== *)
(** * Paths and metadata files of the workspace store

    [src/src/allox/workspace/store.py], up to the transaction helpers: where
    the store keeps workspaces, checkpoint indexes, rollback transactions and
    recovery receipts, how it writes a JSON file atomically, and how it checks
    what it reads back.  Paths are relative to the store's root.  A JSON file
    holds the value it decodes to; the text layout and key order that
    [json.dump] chooses are not represented. *)

From Stdlib Require Import Ascii.
From Stdlib Require String.
From stdpp Require Import gmap pretty.
From S2P Require Import Prelude PyVal Ids CheckpointIndex FileSystem World.
Open Scope Z_scope.

(** ** The snapshot backend, an interface *)

Class SnapshotBackend := {
  assert_root : M unit;
  create_subvolume : path -> M unit;
  snapshot : path -> path -> bool -> M unit;
  delete_subvolume : path -> M unit }.

(** [BtrfsBackend]: the same operations through the [btrfs] and [findmnt]
    commands, which are parameters; [run] raises [CalledProcessError] when the
    command fails. *)
Section btrfs.
Context (root : string).
Context (run : list string -> M unit) (check_output : list string -> M string).

Definition abs_path (p : path) : string := string_join "/" (root :: p).

Definition btrfs_assert_root : M unit :=
  e ← query (path_exists []);
  raise_when (negb e) (WorkspaceError ("workspace root does not exist: " +:+ root));;
  fs_type ← check_output ["findmnt"; "-T"; root; "-no"; "FSTYPE"];
  raise_when (negb (str_eqb (string_strip fs_type) "btrfs"))
    (WorkspaceError ("workspace root must be Btrfs, got: " +:+ string_strip fs_type)).

Definition btrfs_snapshot (source target : path) (readonly : bool) : M unit :=
  run (["btrfs"; "subvolume"; "snapshot"] ++ (if readonly then ["-r"] else [])
       ++ [abs_path source; abs_path target]).

Definition BtrfsBackend : SnapshotBackend := {|
  assert_root := btrfs_assert_root;
  create_subvolume p := run ["btrfs"; "subvolume"; "create"; abs_path p];
  snapshot := btrfs_snapshot;
  delete_subvolume p := run ["btrfs"; "subvolume"; "delete"; abs_path p] |}.
End btrfs.

(** ** Paths *)

Definition agent_dir (agent_id : string) : result path :=
  a ← validate_id "agent" agent_id; Ok ["agents"; a].

Definition agent_workspace (agent_id : string) : result path :=
  d ← agent_dir agent_id; Ok (d ++ ["workspace"]).

Definition agent_shared (agent_id : string) : result path :=
  d ← agent_workspace agent_id; Ok (d ++ ["shared"]).

Definition sessions_dir (agent_id : string) : result path :=
  d ← agent_workspace agent_id; Ok (d ++ ["sessions"]).

Definition session_dir (agent_id session_id : string) : result path :=
  _ ← validate_id "session" session_id;
  d ← sessions_dir agent_id; Ok (d ++ [session_id]).

Definition current (agent_id session_id : string) : result path :=
  d ← session_dir agent_id session_id; Ok (d ++ ["current"]).

Definition checkpoints_dir (agent_id session_id : string) : result path :=
  d ← session_dir agent_id session_id; Ok (d ++ ["checkpoints"]).

Definition _index_path (agent_id session_id : string) : result path :=
  _ ← validate_id "agent" agent_id;
  _ ← validate_id "session" session_id;
  Ok [".allox"; "indexes"; agent_id; session_id +:+ ".json"].

Definition _transaction_path (agent_id session_id : string) : result path :=
  _ ← validate_id "agent" agent_id;
  _ ← validate_id "session" session_id;
  Ok [".allox"; "transactions"; agent_id; session_id +:+ ".json"].

Definition _recovery_receipt_path (agent_id session_id recovery_id : string)
    : result path :=
  _ ← validate_id "agent" agent_id;
  _ ← validate_id "session" session_id;
  _ ← validate_id "recovery" recovery_id;
  Ok [".allox"; "recovery-receipts"; agent_id; session_id; recovery_id +:+ ".json"].

Definition _event_path (agent_id session_id : option string) : result path :=
  let base := [".allox"; "events"] in
  match agent_id with
  | None => Ok (base ++ ["store.jsonl"])
  | Some a =>
      _ ← validate_id "agent" a;
      match session_id with
      | None => Ok (base ++ [a; "agent.jsonl"])
      | Some s => _ ← validate_id "session" s; Ok (base ++ [a; s +:+ ".jsonl"])
      end
  end.

(** ** Atomic JSON files *)

Definition temporary_name (name token : string) : string :=
  "." +:+ name +:+ "." +:+ token +:+ ".tmp".

(** [target.with_name(...)] *)
Definition with_name (target : path) (name : string) : path :=
  parent_of target ++ [name].

Definition name_of (p : path) : string := List.last p EmptyString.

Definition _atomic_write_json (target : path) (value : pyval) (file_mode : bool)
    : M unit :=
  mkdir_parents (parent_of target);;
  token ← uuid_hex;
  let temporary := with_name target (temporary_name (name_of target) token) in
  finally
    (create_file file_mode temporary;;
     write_file temporary (CJson value);;
     replace_file temporary target;;
     fsync_dir (parent_of target))
    (unlink_missing_ok temporary).

(** ** Managed directories and the checkpoints on disk *)

Definition managed_directory (p : path) (fs : node) : bool :=
  negb (path_is_symlink p fs) && path_is_dir p fs.

Section store.
Context (root : string).

Definition _require_managed_directory (p : path) (label : string) : M unit :=
  ok ← query (managed_directory p);
  raise_when (negb ok)
    (WorkspaceError (label +:+ " is not a managed directory: " +:+ abs_path root p)).

Definition checkpoint_names (target : path) (fs : node) : gset string :=
  list_to_set (List.filter (fun name => managed_directory (target ++ [name]) fs)
                 (child_names target fs)).

Definition _actual_checkpoint_ids (agent_id session_id : string) : M (gset string) :=
  target ← of_result (checkpoints_dir agent_id session_id);
  e ← query (path_exists target);
  if negb e then mret ∅
  else
    _require_managed_directory target "checkpoint directory";;
    query (checkpoint_names target).

(** ** The checkpoint index *)

Definition _save_index (agent_id session_id : string) (ix : index) : M unit :=
  target ← of_result (_index_path agent_id session_id);
  _atomic_write_json target (PDict (to_dict ix)) false.

(** [except (OSError, json.JSONDecodeError, CheckpointIndexError) as exc] *)
Definition metadata_error (prefix : string) {A} (e : exn) : option (M A) :=
  match e with
  | OSError _ | JSONDecodeError | CheckpointIndexError _ =>
      Some (raise (WorkspaceError (prefix +:+ exn_str e)))
  | _ => None
  end.

(** [except CheckpointIndexError as exc: raise WorkspaceError(str(exc))] *)
Definition lineage_error {A} (e : exn) : option (M A) :=
  match e with
  | CheckpointIndexError m => Some (raise (WorkspaceError m))
  | _ => None
  end.

Definition read_index (target : path) : M index :=
  e ← query (path_exists target);
  if (e : bool) then
    value ← read_json target;
    match value with
    | PDict d => of_result (from_dict d)
    | _ => raise (CheckpointIndexError "checkpoint index root must be an object")
    end
  else mret empty_index.

Definition _load_index (agent_id session_id : string) : M index :=
  target ← of_result (_index_path agent_id session_id);
  reconciled ← (try_except
    (ix ← read_index target;
     actual ← _actual_checkpoint_ids agent_id session_id;
     mret (reconcile ix actual))
    (metadata_error "invalid checkpoint index: ") : M (index * bool));
  e ← query (path_exists target);
  (if reconciled.2 || negb e
   then _save_index agent_id session_id reconciled.1
   else mret ());;
  mret reconciled.1.

(** ** Rollback transactions *)

Definition _write_transaction (agent_id session_id : string) (transaction : dict)
    : M unit :=
  target ← of_result (_transaction_path agent_id session_id);
  _atomic_write_json target (PDict transaction) false.

Definition _clear_transaction (agent_id session_id : string) : M unit :=
  target ← of_result (_transaction_path agent_id session_id);
  unlink_missing_ok target.

Definition managed_file (p : path) (fs : node) : bool :=
  negb (path_is_symlink p fs) && path_is_file p fs.

(** [except (OSError, json.JSONDecodeError) as exc] *)
Definition json_error (prefix : string) {A} (e : exn) : option (M A) :=
  match e with
  | OSError _ | JSONDecodeError => Some (raise (WorkspaceError (prefix +:+ exn_str e)))
  | _ => None
  end.

(** Read a JSON object that only the daemon writes. *)
Definition load_object (target : path) (not_managed invalid not_object : string)
    : M (option dict) :=
  e ← query (path_exists target);
  if negb e then mret None
  else
    ok ← query (managed_file target);
    raise_when (negb ok) (WorkspaceError not_managed);;
    loaded ← try_except (read_json target) (json_error invalid);
    match loaded with
    | PDict d => mret (Some d)
    | _ => raise (WorkspaceError not_object)
    end.

Definition _load_transaction (agent_id session_id : string) : M (option dict) :=
  target ← of_result (_transaction_path agent_id session_id);
  load_object target "rollback transaction is not a managed file"
    "invalid rollback transaction: " "rollback transaction root must be an object".

(** ** Names inside transactions *)

Definition _safe_transaction_name (value : pyval) (prefix : string) : result string :=
  match value with
  | PStr name =>
      if negb (str_eqb (path_name name) name) || negb (starts_with prefix name)
      then Err (WorkspaceError "rollback transaction contains an unsafe path")
      else Ok name
  | _ => Err (WorkspaceError "rollback transaction contains an unsafe path")
  end.

(** [candidate.resolve().relative_to(session_dir.resolve(strict=True))]
    succeeds. *)
Definition confined (candidate session : path) (fs : node) : bool :=
  match follow MAXSYMLINKS candidate fs, follow MAXSYMLINKS session fs with
  | Some c, Some s => path_exists session fs && is_prefix s c
  | _, _ => false
  end.

Definition _transaction_subvolume_path (session : path) (value : pyval)
    (prefix : string) : M path :=
  name ← of_result (_safe_transaction_name value prefix);
  let candidate := session ++ [name] in
  ok ← query (confined candidate session);
  raise_when (negb ok) (WorkspaceError "rollback transaction path escapes the session");;
  link ← query (path_is_symlink candidate);
  raise_when (negb (bool_decide (parent_of candidate = session)) || link)
    (WorkspaceError "rollback transaction path is not confined to the session");;
  mret candidate.

(** ** Recovery receipts *)

Definition _write_recovery_receipt (agent_id session_id recovery_id : string)
    (receipt : dict) : M unit :=
  target ← of_result (_recovery_receipt_path agent_id session_id recovery_id);
  mapM_ (fun directory => mkdir_parents directory;; chmod directory)
    [[".allox"; "recovery-receipts"]; [".allox"; "recovery-receipts"; agent_id];
     parent_of target];;
  _atomic_write_json target (PDict receipt) true.

Definition check_receipt (agent_id session_id recovery_id : string) (loaded : dict)
    : result unit :=
  let mismatch := WorkspaceError "deferred rollback receipt does not match the request" in
  raise_if
    (negb (py_eqb (dgetn "version" loaded) (PInt 1))
     || negb (py_eqb (dgetn "agent_id" loaded) (PStr agent_id))
     || negb (py_eqb (dgetn "session_id" loaded) (PStr session_id))
     || negb (py_eqb (dgetn "recovery_id" loaded) (PStr recovery_id))) mismatch;;
  known ← in_set (dgetn "status" loaded) [PStr "cleanup_started"; PStr "completed"];
  raise_if (negb known) mismatch;;
  match dgetn "checkpoint_id" loaded with
  | PStr checkpoint_value =>
      _ ← validate_id "checkpoint" checkpoint_value;
      _ ← _safe_transaction_name (dgetn "discard_name" loaded) ".discard-";
      Ok ()
  | _ => Err (WorkspaceError "deferred rollback receipt checkpoint_id must be a string")
  end.

Definition _load_recovery_receipt (agent_id session_id recovery_id : string)
    : M (option dict) :=
  target ← of_result (_recovery_receipt_path agent_id session_id recovery_id);
  loaded ← load_object target "deferred rollback receipt is not a managed file"
    "invalid deferred rollback receipt: "
    "deferred rollback receipt root must be an object";
  match loaded with
  | None => mret None
  | Some d => of_result (check_receipt agent_id session_id recovery_id d);; mret (Some d)
  end.

(** ** Events and locks *)

Definition _append_event (event : dict) (agent_id session_id : option string) : M unit :=
  target ← of_result (_event_path agent_id session_id);
  mkdir_parents (parent_of target);;
  t ← time_ns;
  let record := dset "timestamp_ns" (PInt t) event in
  let record := match agent_id with
                | Some a => dset "agent_id" (PStr a) record | None => record end in
  let record := match session_id with
                | Some s => dset "session_id" (PStr s) record | None => record end in
  append_line target record.

(** [with self._session_lock(agent_id, session_id): body].  The file lock
    excludes other daemon processes, which are not represented. *)
Definition _session_lock {A} (agent_id session_id : string) (body : M A) : M A :=
  a ← of_result (validate_id "agent" agent_id);
  s ← of_result (validate_id "session" session_id);
  holding (a, s)
    (let lock_path := [".allox"; "locks"; agent_id; session_id +:+ ".lock"] in
     mkdir_parents (parent_of lock_path);;
     touch lock_path;;
     body).
End store.

Lemma managed_directory_dir p fs ch : get p fs = Some (NDir ch) -> managed_directory p fs = true.
Proof.
  intros H. unfold managed_directory.
  rewrite (path_is_dir_plain _ _ _ H), path_is_symlink_plain; [done|by rewrite H].
Qed.

(** A managed directory is a directory, not a link to one. *)
Lemma managed_directory_eq p fs :
  managed_directory p fs = match get p fs with Some n => dir_node n | None => false end.
Proof.
  unfold managed_directory, path_is_symlink, path_is_dir.
  destruct (get p fs) as [n|] eqn:E.
  - destruct n; try done; rewrite stat_plain; by rewrite E.
  - rewrite stat_plain by by rewrite E. by rewrite E.
Qed.

Lemma managed_file_json p fs c : get p fs = Some (NFile c) -> managed_file p fs = true.
Proof.
  intros H. unfold managed_file, path_is_file.
  rewrite stat_plain, path_is_symlink_plain; by rewrite H.
Qed.
