(* ===== verification/Store.v ===== *)
(** * The workspace store

    [WorkspaceStore] of [src/src/allox/workspace/store.py]: agents and
    sessions, checkpoints, rollback as a persisted transaction, its deferred
    variant, and recovery after an interruption.  Each method is a computation
    of [World.v] over an arbitrary snapshot backend. *)

From Stdlib Require Import Ascii.
From Stdlib Require String.
From stdpp Require Import gmap pretty.
From S2P Require Import Prelude PyVal Ids CheckpointIndex FileSystem World StoreFiles.
Open Scope Z_scope.

Section store.
Context `{SnapshotBackend} (root : string).

Definition session_label (agent_id session_id : string) : string :=
  agent_id +:+ "/" +:+ session_id.

Definition pstrs (l : list string) : pyval := PList (PStr <$> l).

(** ** Runtime entries: sockets and FIFOs below [.allox-tmp] *)

Definition runtime_node (n : node) : bool :=
  match n with NSock | NFifo => true | _ => false end.

(** The entries [os.walk] visits below a directory: the names in a directory
    (subdirectories first), then those of each subdirectory that is not a
    link, in the order the directory lists them.  The list is taken before the
    loop runs; removing sockets and FIFOs does not change which directories
    remain to be visited. *)
Fixpoint walk (n : node) : list path :=
  match n with
  | NDir ch =>
      let entries := map_to_list ch in
      let directories := List.filter (fun kv => dir_node kv.2) entries in
      let files := List.filter (fun kv => negb (dir_node kv.2)) entries in
      ((fun kv => [kv.1]) <$> (directories ++ files)) ++
      map_fold (fun name m acc => acc ++ ((fun r => name :: r) <$> walk m)) [] ch
  | _ => []
  end.

(** [path.lstat()], then unlink a socket or FIFO. *)
Fixpoint scrub_entries (top : path) (entries : list path) : M (list string) :=
  match entries with
  | [] => mret []
  | r :: entries =>
      n ← query (get (top ++ r));
      match n with
      | None => raise (OSError "lstat")
      | Some n =>
          if runtime_node n then
            unlink_file (top ++ r);;
            removed ← scrub_entries top entries;
            mret (as_posix r :: removed)
          else scrub_entries top entries
      end
  end.

Definition _scrub_runtime_entries (tmp_dir : path) : M (list string) :=
  top ← query (follow MAXSYMLINKS tmp_dir);
  n ← query (stat tmp_dir);
  match top, n with
  | Some top, Some n => scrub_entries top (walk n)
  | _, _ => mret []
  end.

(** ** Agents and sessions *)

Definition create_agent (agent_id origin : string) : M dict :=
  workspace ← of_result (agent_workspace agent_id);
  shared ← of_result (agent_shared agent_id);
  mkdir_parents shared;;
  sessions ← of_result (sessions_dir agent_id);
  mkdir_parents sessions;;
  _append_event [("op", PStr "agent.create"); ("origin", PStr origin)] (Some agent_id) None;;
  mret [("agent_id", PStr agent_id);
        ("workspace_level", PStr "agent");
        ("relative_workspace", PStr (as_posix workspace));
        ("relative_shared", PStr (as_posix shared))].

Definition list_checkpoints (agent_id session_id : string) : M (list string) :=
  ids ← _actual_checkpoint_ids root agent_id session_id;
  mret (sort_strings (elements ids)).

Definition describe (agent_id session_id : string) : M dict :=
  cur ← of_result (current agent_id session_id);
  e ← query (path_exists cur);
  raise_when (negb e)
    (WorkspaceError ("session does not exist: " +:+ session_label agent_id session_id));;
  _require_managed_directory root cur "session workspace";;
  workspace ← of_result (agent_workspace agent_id);
  shared ← of_result (agent_shared agent_id);
  session ← of_result (session_dir agent_id session_id);
  ids ← list_checkpoints agent_id session_id;
  ix ← _load_index root agent_id session_id;
  mret [("agent_id", PStr agent_id);
        ("session_id", PStr session_id);
        ("workspace_level", PStr "session");
        ("relative_agent_workspace", PStr (as_posix workspace));
        ("relative_agent_shared", PStr (as_posix shared));
        ("relative_session_workspace", PStr (as_posix session));
        ("relative_workspace", PStr (as_posix cur));
        ("checkpoint_ids", pstrs ids);
        ("checkpoint_head", pystr_opt (head ix))].

Definition create_session (agent_id session_id origin : string) : M dict :=
  create_agent agent_id origin;;
  _session_lock agent_id session_id
    (session ← of_result (session_dir agent_id session_id);
     let cur := session ++ ["current"] in
     e ← query (path_exists cur);
     l ← query (path_is_symlink cur);
     raise_when (e || l)
       (WorkspaceError ("session already exists: " +:+ session_label agent_id session_id));;
     mkdir_parents (session ++ ["checkpoints"]);;
     create_subvolume cur;;
     mkdir_new (cur ++ [".allox-tmp"]);;
     _save_index agent_id session_id empty_index;;
     _append_event [("op", PStr "session.create"); ("origin", PStr origin)]
       (Some agent_id) (Some session_id));;
  describe agent_id session_id.

(** ** Checkpoints *)

(** [checkpoint_id or f"cp-{time.time_ns()}"] *)
Definition checkpoint_name (checkpoint_id : option string) : M string :=
  match checkpoint_id with
  | Some (String c s) => mret (String c s)
  | _ => t ← time_ns; mret ("cp-" +:+ pretty t)
  end.

Definition create_checkpoint (agent_id session_id : string)
    (checkpoint_id : option string) (origin : string) (message : option string)
    (pinned : bool) (metadata : pyval) : M dict :=
  name ← checkpoint_name checkpoint_id;
  checkpoint_id ← of_result (validate_id "checkpoint" name);
  ix ← _session_lock agent_id session_id
    (cur ← of_result (current agent_id session_id);
     e ← query (path_exists cur);
     raise_when (negb e)
       (WorkspaceError ("session does not exist: " +:+ session_label agent_id session_id));;
     _require_managed_directory root cur "session workspace";;
     checkpoints ← of_result (checkpoints_dir agent_id session_id);
     let target := checkpoints ++ [checkpoint_id] in
     te ← query (path_exists target);
     raise_when te (WorkspaceError ("checkpoint already exists: " +:+ checkpoint_id));;
     ix ← _load_index root agent_id session_id;
     t ← time_ns;
     ix' ← try_except
       (of_result (add ix checkpoint_id t origin message pinned metadata)) lineage_error;
     snapshot cur target true;;
     _save_index agent_id session_id ix';;
     _append_event
       [("op", PStr "checkpoint.create");
        ("checkpoint_id", PStr checkpoint_id);
        ("origin", PStr origin);
        ("message", pystr_opt message);
        ("pinned", PBool pinned);
        ("metadata", metadata)] (Some agent_id) (Some session_id);;
     mret ix');
  mret [("agent_id", PStr agent_id);
        ("session_id", PStr session_id);
        ("checkpoint_id", PStr checkpoint_id);
        ("parent_id", parent_value ix checkpoint_id);
        ("metadata", metadata)].

Definition checkpoint_status (agent_id session_id : string) : M dict :=
  ix ← _load_index root agent_id session_id;
  ids ← list_checkpoints agent_id session_id;
  rs ← of_result (records ix);
  mret [("agent_id", PStr agent_id);
        ("session_id", PStr session_id);
        ("head", pystr_opt (head ix));
        ("checkpoint_ids", pstrs ids);
        ("checkpoints", PList (PDict <$> rs))].

Definition delete_checkpoint (agent_id session_id checkpoint_id origin : string)
    (force : bool) : M dict :=
  checkpoint_id ← of_result (validate_id "checkpoint" checkpoint_id);
  resolved ← _session_lock agent_id session_id
    (ix ← _load_index root agent_id session_id;
     resolved ← try_except (of_result (resolve ix (Some checkpoint_id) None)) lineage_error;
     let meta := default [] (CheckpointIndex.checkpoints ix !! resolved) in
     raise_when (py_truthy (dget_or "pinned" (PBool false) meta) && negb force)
       (WorkspaceError ("checkpoint is pinned; use force to delete: " +:+ resolved));;
     checkpoints ← of_result (checkpoints_dir agent_id session_id);
     let target := checkpoints ++ [resolved] in
     e ← query (path_exists target);
     raise_when (negb e) (WorkspaceError ("checkpoint does not exist: " +:+ resolved));;
     _require_managed_directory root target "checkpoint";;
     delete_subvolume target;;
     ix' ← of_result (remove ix resolved);
     _save_index agent_id session_id ix';;
     _append_event
       [("op", PStr "checkpoint.delete");
        ("checkpoint_id", PStr resolved);
        ("origin", PStr origin)] (Some agent_id) (Some session_id);;
     mret resolved);
  mret [("agent_id", PStr agent_id);
        ("session_id", PStr session_id);
        ("checkpoint_id", PStr resolved);
        ("deleted", PBool true)].

(** ** Rollback *)

(** [except Exception: ...; raise]: run [cleanup], then raise again. *)
Definition on_error {A} (m : M A) (cleanup : M unit) : M A :=
  try_except m (fun e => Some (cleanup;; raise e)).

Definition delete_if_exists (p : path) : M unit :=
  e ← query (path_exists p);
  if (e : bool) then delete_subvolume p else mret ().

Definition scrub_if (scrub_runtime : pyval) (cur : path) : M (list string) :=
  if py_truthy scrub_runtime then _scrub_runtime_entries (cur ++ [".allox-tmp"])
  else mret [].

(** The argument checks of [rollback]: the identifiers and the mode. *)
Definition rollback_arguments (checkpoint_id : option string) (num_ancestors : option Z)
    (scrub_runtime recovery_id defer_cleanup : pyval) : result (bool * option string) :=
  match defer_cleanup with
  | PBool defer =>
      match checkpoint_id with
      | Some c => _ ← validate_id "checkpoint" c; Ok ()
      | None => Ok ()
      end;;
      recovery ← match recovery_id with
                 | PNone => Ok None
                 | PStr r => r' ← validate_id "recovery" r; Ok (Some r')
                 | _ => Err (WorkspaceError "recovery_id must be a string")
                 end;
      (if defer then
         raise_if (bool_decide (recovery = None))
           (WorkspaceError "recovery_id is required when rollback cleanup is deferred");;
         raise_if (negb (is_bool scrub_runtime))
           (WorkspaceError "scrub_runtime must be a boolean for deferred rollback");;
         raise_if (bool_decide (checkpoint_id = None) || negb (bool_decide (num_ancestors = None)))
           (WorkspaceError "deferred rollback requires an exact checkpoint_id")
       else
         raise_if (negb (bool_decide (recovery = None)))
           (WorkspaceError "recovery_id requires defer_cleanup=True"));;
      Ok (defer, recovery)
  | _ => Err (WorkspaceError "defer_cleanup must be a boolean")
  end.

(** The transaction record, written before the first change. *)
Definition new_transaction (defer : bool) (recovery : option string)
    (checkpoint_id restore_name discard_name : string) (scrub_runtime : pyval)
    (origin : string) : dict :=
  [("version", PInt (if defer then 2 else 1));
   ("phase", PStr "preparing");
   ("checkpoint_id", PStr checkpoint_id);
   ("restore_name", PStr restore_name);
   ("discard_name", PStr discard_name);
   ("scrub_runtime", scrub_runtime);
   ("origin", PStr origin)] ++
  (if defer then [("defer_cleanup", PBool true); ("recovery_id", pystr_opt recovery)]
   else []).

Definition set_phase (phase : string) (transaction : dict) : dict :=
  dset "phase" (PStr phase) transaction.

Definition committed_fields (removed : list string) (t : Z) (transaction : dict) : dict :=
  dset "committed_at_ns" (PInt t)
    (dset "removed_runtime_entries" (pstrs removed) (set_phase "committed" transaction)).

(** From the first transaction record to the rename that installs the restored
    workspace. *)
Definition rollback_swap (agent_id session_id : string)
    (source cur restored discarded : path) (transaction : dict) : M unit :=
  _write_transaction agent_id session_id transaction;;
  on_error (snapshot source restored false)
    (delete_if_exists restored;; _clear_transaction agent_id session_id);;
  _write_transaction agent_id session_id (set_phase "prepared" transaction);;
  rename cur discarded;;
  _write_transaction agent_id session_id (set_phase "old_moved" transaction);;
  on_error (rename restored cur)
    (rename discarded cur;;
     delete_if_exists restored;;
     _clear_transaction agent_id session_id).

(** From the installed workspace to the end of the transaction (or, deferred,
    to the committed record). *)
Definition rollback_commit (agent_id session_id : string) (defer : bool)
    (scrub_runtime : pyval) (cur discarded : path) (transaction : dict)
    (ix : index) (checkpoint_id : string) : M (list string) :=
  if defer then
    removed ← scrub_if scrub_runtime cur;
    ix' ← of_result (move_head ix checkpoint_id);
    _save_index agent_id session_id ix';;
    t ← time_ns;
    _write_transaction agent_id session_id (committed_fields removed t transaction);;
    mret removed
  else
    _write_transaction agent_id session_id (set_phase "committed" transaction);;
    removed ← scrub_if scrub_runtime cur;
    delete_subvolume discarded;;
    ix' ← of_result (move_head ix checkpoint_id);
    _save_index agent_id session_id ix';;
    _clear_transaction agent_id session_id;;
    mret removed.

Definition rollback (agent_id session_id : string) (checkpoint_id : option string)
    (num_ancestors : option Z) (scrub_runtime : pyval) (origin : string)
    (recovery_id defer_cleanup : pyval) : M dict :=
  arguments ← of_result (rollback_arguments checkpoint_id num_ancestors scrub_runtime
                           recovery_id defer_cleanup);
  let defer := arguments.1 in
  let recovery := arguments.2 in
  done ← _session_lock agent_id session_id
    (unfinished ← _load_transaction agent_id session_id;
     raise_when (bool_decide (is_Some unfinished))
       (WorkspaceError ("session has an unfinished rollback transaction: "
                        +:+ session_label agent_id session_id));;
     used ← match recovery with
            | Some r => _load_recovery_receipt agent_id session_id r
            | None => mret None
            end;
     raise_when (bool_decide (is_Some used))
       (WorkspaceError ("recovery_id was already used: " +:+ default EmptyString recovery));;
     ix ← _load_index root agent_id session_id;
     resolved ← try_except (of_result (resolve ix checkpoint_id num_ancestors)) lineage_error;
     raise_when (defer && negb (bool_decide (Some resolved = checkpoint_id)))
       (WorkspaceError "deferred rollback requires the complete checkpoint_id, not a prefix");;
     checkpoints ← of_result (checkpoints_dir agent_id session_id);
     let source := checkpoints ++ [resolved] in
     cur ← of_result (current agent_id session_id);
     se ← query (path_exists source);
     raise_when (negb se) (WorkspaceError ("checkpoint does not exist: " +:+ resolved));;
     ce ← query (path_exists cur);
     raise_when (negb ce)
       (WorkspaceError ("session does not exist: " +:+ session_label agent_id session_id));;
     _require_managed_directory root source "checkpoint";;
     _require_managed_directory root cur "session workspace";;
     token ← uuid_hex;
     let restore_name := ".restore-" +:+ token in
     let discard_name := ".discard-" +:+ token in
     let restored := parent_of cur ++ [restore_name] in
     let discarded := parent_of cur ++ [discard_name] in
     let transaction := new_transaction defer recovery resolved restore_name discard_name
                          scrub_runtime origin in
     rollback_swap agent_id session_id source cur restored discarded transaction;;
     removed ← rollback_commit agent_id session_id defer scrub_runtime cur discarded
       transaction ix resolved;
     _append_event
       [("op", PStr "session.rollback");
        ("checkpoint_id", PStr resolved);
        ("origin", PStr origin);
        ("scrub_runtime", scrub_runtime);
        ("removed_runtime_entries", pstrs removed);
        ("recovery_id", pystr_opt recovery);
        ("deferred_cleanup", PBool defer)] (Some agent_id) (Some session_id);;
     mret (resolved, cur, removed, discarded));
  let '(resolved, cur, removed, discarded) := done in
  mret [("agent_id", PStr agent_id);
        ("session_id", PStr session_id);
        ("checkpoint_id", PStr resolved);
        ("relative_workspace", PStr (as_posix cur));
        ("removed_runtime_entries", pstrs removed);
        ("recovery_id", pystr_opt recovery);
        ("deferred_cleanup", PBool defer);
        ("cleanup_pending", PBool defer);
        ("deferred_discard_relative_path",
         if defer then PStr (as_posix discarded) else PNone)].
End store.
