(* ===== verification/StoreRecovery.v ===== *)
(** * Recovery and completion of rollbacks

    The rest of [WorkspaceStore]: [_recover_session], which brings a session
    left by an interrupted rollback to a state before or after it,
    [complete_deferred_rollback], and [initialize]. *)

From Stdlib Require Import Ascii.
From Stdlib Require String.
From stdpp Require Import gmap pretty.
From S2P Require Import Prelude PyVal Ids CheckpointIndex FileSystem World StoreFiles Store.
Open Scope Z_scope.

(** What [_recover_session] reads from a transaction it accepts. *)
Record transaction_info := TransactionInfo {
  ti_phase : string;
  ti_deferred : bool;
  ti_recovery : option string;
  ti_checkpoint : string }.

Definition phases : list pyval :=
  [PStr "preparing"; PStr "prepared"; PStr "old_moved"; PStr "committed"].

Definition is_true (v : pyval) : bool := match v with PBool b => b | _ => false end.

Definition parse_transaction (transaction : dict) : result transaction_info :=
  let phase := dgetn "phase" transaction in
  known ← in_set phase phases;
  raise_if (negb known)
    (WorkspaceError ("invalid rollback transaction phase: " +:+ py_repr phase));;
  let version := dgetn "version" transaction in
  supported ← in_set version [PInt 1; PInt 2];
  raise_if (negb supported) (WorkspaceError "unsupported rollback transaction version");;
  let deferred := py_eqb version (PInt 2) in
  recovery ←
    (if deferred then
       raise_if (negb (is_true (dgetn "defer_cleanup" transaction)))
         (WorkspaceError "deferred rollback transaction is not marked deferred");;
       match dgetn "recovery_id" transaction with
       | PStr r =>
           r' ← validate_id "recovery" r;
           raise_if (negb (is_bool (dgetn "scrub_runtime" transaction)))
             (WorkspaceError
                "deferred rollback transaction scrub_runtime must be a boolean");;
           Ok (Some r')
       | _ => Err (WorkspaceError
                     "deferred rollback transaction recovery_id must be a string")
       end
     else Ok None);
  match dgetn "checkpoint_id" transaction with
  | PStr c =>
      c' ← validate_id "checkpoint" c;
      Ok (TransactionInfo (str_or phase EmptyString) deferred recovery c')
  | _ => Err (WorkspaceError "rollback transaction checkpoint_id must be a string")
  end.

Definition phase_in (phase : string) (l : list string) : bool :=
  existsb (str_eqb phase) l.

Section recovery.
Context `{SnapshotBackend} (root : string).

(** [sorted(session_dir.glob(prefix + "*"))] *)
Definition glob_prefix (session : path) (prefix : string) (fs : node) : list path :=
  (fun name => session ++ [name]) <$>
    sort_strings (List.filter (starts_with prefix) (child_names session fs)).

Definition recovered_event (outcome : string) (checkpoint_id : string)
    (recovery : option string) : dict :=
  [("op", PStr "session.rollback.recovered");
   ("checkpoint_id", PStr checkpoint_id);
   ("recovery_id", pystr_opt recovery);
   ("outcome", PStr outcome)].

(** No transaction file: remove what an interrupted rollback may have left. *)
Definition recover_orphan (agent_id session_id : string) (cur : path)
    (restores discards : list path) : M bool :=
  match restores, discards with
  | [], [] => mret false
  | _, _ =>
      e ← query (path_exists cur);
      rest ← (if (e : bool) then mret discards
              else match discards with
                   | [d] => rename d cur;; mret []
                   | _ => raise (WorkspaceError ("cannot recover orphan rollback for "
                                    +:+ session_label agent_id session_id))
                   end);
      mapM_ delete_if_exists (restores ++ rest);;
      _append_event
        [("op", PStr "session.rollback.recovered"); ("outcome", PStr "aborted-orphan")]
        (Some agent_id) (Some session_id);;
      mret true
  end.

(** The head moves to the checkpoint of the transaction. *)
Definition move_index_head (agent_id session_id checkpoint_id : string) : M unit :=
  ix ← _load_index root agent_id session_id;
  ix' ← try_except
    (of_result (resolved ← resolve ix (Some checkpoint_id) None; move_head ix resolved))
    lineage_error;
  _save_index agent_id session_id ix'.

Definition complete_receipt (t : Z) (receipt : dict) : dict :=
  let receipt := dset "status" (PStr "completed") receipt in
  if dhas "completed_at_ns" receipt then receipt
  else dset "completed_at_ns" (PInt t) receipt.

(** The discarded workspace goes, the receipt says so, the transaction ends. *)
Definition finish_deferred (agent_id session_id recovery_id : string)
    (discarded : path) (receipt : dict) : M unit :=
  (e ← query (path_exists discarded);
   if (e : bool) then
     _require_managed_directory root discarded "deferred rollback discarded workspace";;
     delete_subvolume discarded
   else mret ());;
  t ← time_ns;
  _write_recovery_receipt agent_id session_id recovery_id (complete_receipt t receipt);;
  _clear_transaction agent_id session_id.

(** A deferred rollback that had committed: complete its cleanup if that had
    started, and otherwise leave it pending. *)
Definition recover_committed_deferred (agent_id session_id recovery_id : string)
    (ti : transaction_info) (cur restored discarded : path) : M bool :=
  _require_managed_directory root cur "session workspace";;
  re ← query (path_exists restored);
  raise_when re (WorkspaceError "committed deferred rollback retains a restore path");;
  ix ← _load_index root agent_id session_id;
  raise_when (negb (bool_decide (head ix = Some (ti_checkpoint ti))))
    (WorkspaceError "committed deferred rollback does not match the checkpoint head");;
  receipt ← _load_recovery_receipt agent_id session_id recovery_id;
  match receipt with
  | None =>
      de ← query (path_exists discarded);
      raise_when (negb de)
        (WorkspaceError "committed deferred rollback is missing its discarded workspace");;
      _require_managed_directory root discarded "deferred rollback discarded workspace";;
      mret false
  | Some receipt =>
      raise_when
        (negb (py_eqb (dgetn "checkpoint_id" receipt) (PStr (ti_checkpoint ti)))
         || negb (py_eqb (dgetn "discard_name" receipt) (PStr (name_of discarded))))
        (WorkspaceError "deferred rollback receipt does not match the transaction");;
      finish_deferred agent_id session_id recovery_id discarded receipt;;
      _append_event
        [("op", PStr "session.rollback.cleanup.recovered");
         ("checkpoint_id", PStr (ti_checkpoint ti));
         ("recovery_id", PStr recovery_id);
         ("outcome", PStr "completed")] (Some agent_id) (Some session_id);;
      mret true
  end.

(** Reinstall a workspace when none is current; the result says whether the
    rollback counts as committed. *)
Definition reinstall_current (agent_id session_id : string) (ti : transaction_info)
    (cur restored discarded : path) : M bool :=
  ce ← query (path_exists cur);
  let commit := ce && phase_in (ti_phase ti) ["old_moved"; "committed"] in
  if (ce : bool) then mret commit
  else
    re ← query (path_exists restored);
    de ← query (path_exists discarded);
    if phase_in (ti_phase ti) ["prepared"; "old_moved"; "committed"] && re then
      _require_managed_directory root restored "rollback restore workspace";;
      rename restored cur;;
      mret true
    else if (de : bool) then
      _require_managed_directory root discarded "rollback discarded workspace";;
      rename discarded cur;;
      mret false
    else raise (WorkspaceError ("rollback recovery has no current workspace: "
                  +:+ session_label agent_id session_id)).

(** A deferred rollback whose swap happened becomes a committed one. *)
Definition recover_commit_deferred (agent_id session_id : string)
    (ti : transaction_info) (transaction : dict) (cur restored discarded : path) : M bool :=
  _require_managed_directory root cur "session workspace";;
  de ← query (path_exists discarded);
  raise_when (negb de)
    (WorkspaceError "deferred rollback recovery is missing its discarded workspace");;
  _require_managed_directory root discarded "deferred rollback discarded workspace";;
  re ← query (path_exists restored);
  raise_when re (WorkspaceError "deferred rollback recovery retains a restore path");;
  removed ← scrub_if (dgetn "scrub_runtime" transaction) cur;
  move_index_head agent_id session_id (ti_checkpoint ti);;
  t ← time_ns;
  _write_transaction agent_id session_id (committed_fields removed t transaction);;
  _append_event (recovered_event "committed-deferred" (ti_checkpoint ti) (ti_recovery ti))
    (Some agent_id) (Some session_id);;
  mret true.

(** [if path.exists(): self._require_managed_directory(...); delete] *)
Definition delete_managed_if_exists (p : path) (label : string) : M unit :=
  e ← query (path_exists p);
  if (e : bool) then
    _require_managed_directory root p label;;
    delete_subvolume p
  else mret ().

(** Every other interrupted rollback is aborted or committed here. *)
Definition recover_finish (agent_id session_id : string) (ti : transaction_info)
    (commit : bool) (restored discarded : path) : M bool :=
  (match ti_recovery ti with
   | Some r =>
       receipt ← _load_recovery_receipt agent_id session_id r;
       raise_when (bool_decide (is_Some receipt))
         (WorkspaceError "aborted deferred rollback unexpectedly has a cleanup receipt")
   | None => mret ()
   end);;
  delete_managed_if_exists discarded "rollback discarded workspace";;
  delete_managed_if_exists restored "rollback restore workspace";;
  (if commit then move_index_head agent_id session_id (ti_checkpoint ti) else mret ());;
  _clear_transaction agent_id session_id;;
  _append_event
    (recovered_event (if commit then "committed" else "aborted")
       (ti_checkpoint ti) (ti_recovery ti)) (Some agent_id) (Some session_id);;
  mret true.

Definition recover_transaction (agent_id session_id : string) (session cur : path)
    (transaction : dict) : M bool :=
  ti ← of_result (parse_transaction transaction);
  restored ← _transaction_subvolume_path session (dgetn "restore_name" transaction) ".restore-";
  discarded ← _transaction_subvolume_path session (dgetn "discard_name" transaction) ".discard-";
  ce ← query (path_exists cur);
  match ti_recovery ti with
  | Some r =>
      if phase_in (ti_phase ti) ["committed"] && ce
      then recover_committed_deferred agent_id session_id r ti cur restored discarded
      else
        commit ← reinstall_current agent_id session_id ti cur restored discarded;
        if (commit : bool)
        then recover_commit_deferred agent_id session_id ti transaction cur restored discarded
        else recover_finish agent_id session_id ti commit restored discarded
  | None =>
      commit ← reinstall_current agent_id session_id ti cur restored discarded;
      recover_finish agent_id session_id ti commit restored discarded
  end.

Definition _recover_session (agent_id session_id : string) : M bool :=
  session ← of_result (session_dir agent_id session_id);
  cur ← of_result (current agent_id session_id);
  transaction ← _load_transaction agent_id session_id;
  restores ← query (glob_prefix session ".restore-");
  discards ← query (glob_prefix session ".discard-");
  match transaction with
  | None => recover_orphan agent_id session_id cur restores discards
  | Some t => recover_transaction agent_id session_id session cur t
  end.

(** ** All sessions *)

Definition session_candidate (p : path) (name : string) (fs : node) : bool :=
  managed_directory p fs && ID_RE name.

Fixpoint recover_agent_sessions (agent_id : string) (sessions : path)
    (names : list string) : M (list string) :=
  match names with
  | [] => mret []
  | name :: names =>
      ok ← query (session_candidate (sessions ++ [name]) name);
      if (ok : bool) then
        recovered ← _session_lock agent_id name (_recover_session agent_id name);
        rest ← recover_agent_sessions agent_id sessions names;
        mret (if (recovered : bool) then session_label agent_id name :: rest else rest)
      else recover_agent_sessions agent_id sessions names
  end.

Fixpoint recover_agents (names : list string) : M (list string) :=
  match names with
  | [] => mret []
  | name :: names =>
      let agent := ["agents"; name] in
      ok ← query (session_candidate agent name);
      let sessions := agent ++ ["workspace"; "sessions"] in
      sd ← query (path_is_dir sessions);
      found ← (if ok && sd then
                 children ← query (child_names sessions);
                 recover_agent_sessions name sessions children
               else mret []);
      rest ← recover_agents names;
      mret (found ++ rest)
  end.

Definition _recover_sessions : M (list string) :=
  names ← query (child_names ["agents"]);
  recover_agents names.

Definition initialize : M dict :=
  assert_root;;
  mkdir_parents ["agents"];;
  mkdir_parents [".allox"; "events"];;
  mkdir_parents [".allox"; "indexes"];;
  mkdir_parents [".allox"; "locks"];;
  mkdir_parents [".allox"; "transactions"];;
  recovered ← _recover_sessions;
  _append_event [("op", PStr "store.initialize")] None None;;
  mret [("root", PStr root); ("recovered_sessions", pstrs recovered)].

(** ** Completion of a deferred rollback *)

Definition completion_result (agent_id session_id : string) (checkpoint_id : pyval)
    (recovery_id : string) (already : bool) (discarded : path) : dict :=
  [("agent_id", PStr agent_id);
   ("session_id", PStr session_id);
   ("checkpoint_id", checkpoint_id);
   ("recovery_id", PStr recovery_id);
   ("cleanup_status", PStr (if already then "already_completed" else "completed"));
   ("cleanup_completed", PBool true);
   ("already_completed", PBool already);
   ("cleanup_pending", PBool false);
   ("deferred_discard_relative_path", PStr (as_posix discarded))].

(** No transaction: only a completed receipt answers the request. *)
Definition completed_before (agent_id session_id recovery_id : string) : M dict :=
  receipt ← _load_recovery_receipt agent_id session_id recovery_id;
  let missing := WorkspaceError
    ("no completed deferred rollback for recovery_id: " +:+ recovery_id) in
  match receipt with
  | None => raise missing
  | Some receipt =>
      raise_when (negb (py_eqb (dgetn "status" receipt) (PStr "completed"))) missing;;
      session ← of_result (session_dir agent_id session_id);
      discarded ← _transaction_subvolume_path session (dgetn "discard_name" receipt) ".discard-";
      de ← query (path_exists discarded);
      raise_when de
        (WorkspaceError "completed deferred rollback still has a discarded workspace");;
      c ← of_result (dindex "checkpoint_id" receipt);
      mret (completion_result agent_id session_id c recovery_id true discarded)
  end.

(** The checkpoint of a transaction that may be completed under [recovery_id]. *)
Definition completable (recovery_id : string) (transaction : dict) : result string :=
  raise_if
    (negb (py_eqb (dgetn "version" transaction) (PInt 2))
     || negb (py_eqb (dgetn "phase" transaction) (PStr "committed"))
     || negb (is_true (dgetn "defer_cleanup" transaction)))
    (WorkspaceError "rollback transaction is not a committed deferred rollback");;
  match dgetn "recovery_id" transaction with
  | PStr r =>
      r' ← validate_id "recovery" r;
      raise_if (negb (str_eqb r' recovery_id))
        (WorkspaceError "recovery_id does not match deferred rollback");;
      match dgetn "checkpoint_id" transaction with
      | PStr c => validate_id "checkpoint" c
      | _ => Err (WorkspaceError
                    "deferred rollback transaction checkpoint_id must be a string")
      end
  | _ => Err (WorkspaceError "deferred rollback transaction recovery_id must be a string")
  end.

(** The receipt that says cleanup has started, written once. *)
Definition start_receipt (agent_id session_id recovery_id checkpoint_id : string)
    (discarded : path) (receipt : option dict) : M dict :=
  match receipt with
  | Some receipt =>
      raise_when
        (negb (py_eqb (dgetn "checkpoint_id" receipt) (PStr checkpoint_id))
         || negb (py_eqb (dgetn "discard_name" receipt) (PStr (name_of discarded))))
        (WorkspaceError "deferred rollback receipt does not match the transaction");;
      mret receipt
  | None =>
      de ← query (path_exists discarded);
      raise_when (negb de)
        (WorkspaceError "deferred rollback is missing its discarded workspace");;
      _require_managed_directory root discarded "deferred rollback discarded workspace";;
      t ← time_ns;
      let receipt :=
        [("version", PInt 1);
         ("status", PStr "cleanup_started");
         ("agent_id", PStr agent_id);
         ("session_id", PStr session_id);
         ("checkpoint_id", PStr checkpoint_id);
         ("recovery_id", PStr recovery_id);
         ("discard_name", PStr (name_of discarded));
         ("cleanup_started_at_ns", PInt t)] in
      _write_recovery_receipt agent_id session_id recovery_id receipt;;
      mret receipt
  end.

Definition complete_transaction (agent_id session_id recovery_id : string)
    (transaction : dict) : M dict :=
  checkpoint_id ← of_result (completable recovery_id transaction);
  session ← of_result (session_dir agent_id session_id);
  cur ← of_result (current agent_id session_id);
  _require_managed_directory root cur "session workspace";;
  restored ← _transaction_subvolume_path session (dgetn "restore_name" transaction) ".restore-";
  discarded ← _transaction_subvolume_path session (dgetn "discard_name" transaction) ".discard-";
  re ← query (path_exists restored);
  raise_when re (WorkspaceError "committed deferred rollback retains a restore workspace");;
  ix ← _load_index root agent_id session_id;
  raise_when (negb (bool_decide (head ix = Some checkpoint_id)))
    (WorkspaceError "committed deferred rollback does not match the checkpoint head");;
  found ← _load_recovery_receipt agent_id session_id recovery_id;
  receipt ← start_receipt agent_id session_id recovery_id checkpoint_id discarded found;
  finish_deferred agent_id session_id recovery_id discarded receipt;;
  _append_event
    [("op", PStr "session.rollback.cleanup");
     ("checkpoint_id", PStr checkpoint_id);
     ("recovery_id", PStr recovery_id);
     ("outcome", PStr "completed")] (Some agent_id) (Some session_id);;
  mret (completion_result agent_id session_id (PStr checkpoint_id) recovery_id false discarded).

Definition complete_deferred_rollback (agent_id session_id : string)
    (recovery_id : pyval) : M dict :=
  match recovery_id with
  | PStr r =>
      recovery_id ← of_result (validate_id "recovery" r);
      _session_lock agent_id session_id
        (transaction ← _load_transaction agent_id session_id;
         match transaction with
         | None => completed_before agent_id session_id recovery_id
         | Some t => complete_transaction agent_id session_id recovery_id t
         end)
  | _ => raise (WorkspaceError "recovery_id must be a string")
  end.
End recovery.
