(* ===== verification/Backend.v ===== *)
(** * What the store relies on from the snapshot backend

    The laws state the documented behaviour of the Btrfs commands on the paths
    the store gives them: a snapshot of an existing directory at a free path
    gives a directory with the same contents, creation gives an empty one,
    deletion removes one, each atomically with respect to a crash.
    [tree_backend] satisfies the laws and makes the store executable. *)

From Stdlib Require String.
From stdpp Require Import gmap.
From S2P Require Import Prelude PyVal FileSystem World StoreFiles.
Open Scope Z_scope.

(** [m] performs [f] on the tree [fs], entirely or not at all, or fails. *)
Definition atomic_at (m : M unit) (f : node -> option node) (fs : node) : Prop :=
  forall en w, w_fs w = fs ->
    match m en w with
    | (Ret _, w') => f fs = Some (w_fs w') /\ w_locks w' = w_locks w
    | (Exc _, w') =>
        w_locks w' = w_locks w /\
        ((w_fs w' = fs /\ f fs = None) \/
         (~ calm en /\ (w_fs w' = fs \/ f fs = Some (w_fs w'))))
    | (Crash, w') => ~ calm en /\ (w_fs w' = fs \/ f fs = Some (w_fs w'))
    end.

Definition copy_tree (source target : path) (fs : node) : option node :=
  n ← get source fs; put target n (Some fs).

Class BackendLaws (B : SnapshotBackend) : Prop := {
  create_law p fs : get p fs = None ->
    atomic_at (create_subvolume p) (fun fs => put p empty_dir (Some fs)) fs;
  snapshot_law source target readonly ch fs :
    get source fs = Some (NDir ch) -> get target fs = None ->
    atomic_at (snapshot source target readonly) (copy_tree source target) fs;
  delete_law p ch fs : get p fs = Some (NDir ch) ->
    atomic_at (delete_subvolume p) (del p) fs;
  create_locks p : lock_neutral (create_subvolume p);
  snapshot_locks p q r : lock_neutral (snapshot p q r);
  delete_locks p : lock_neutral (delete_subvolume p);
  root_locks : lock_neutral assert_root }.

Lemma wp_atomic en m f (Q : unit -> node -> Prop) (E : exn -> node -> Prop) (C : node -> Prop) fs :
  atomic_at m f fs ->
  (forall fs', f fs = Some fs' -> Q () fs') ->
  (f fs = None -> forall e, E e fs) ->
  (~ calm en -> (forall e, E e fs) /\ C fs /\
     forall fs', f fs = Some fs' -> (forall e, E e fs') /\ C fs') ->
  wp en m Q E C fs.
Proof.
  intros Hm HQ HE Hf w Hw. specialize (Hm en w Hw).
  destruct (m en w) as [[[]|e|] w'].
  - by apply HQ, Hm.
  - destruct Hm as (_ & [[-> ?]|[Hn Hor]]); [by apply HE|].
    destruct (Hf Hn) as (? & ? & Hall). destruct Hor as [->|?]; [done|].
    by apply (Hall (w_fs w')).
  - destruct Hm as (Hn & Hor). destruct (Hf Hn) as (? & ? & Hall).
    destruct Hor as [->|?]; [done|]. by apply (Hall (w_fs w')).
Qed.

(** An operation that goes through, with [I] before and after it. *)
Lemma wp_atomic_ok en (I : node -> Prop) m f (Q : unit -> node -> Prop) E C fs fs' :
  atomic_at m f fs -> f fs = Some fs' -> tolerates en I E C -> I fs -> I fs' -> Q () fs' ->
  wp en m Q E C fs.
Proof.
  intros Hm Hf HT HI HI' HQ. eapply wp_atomic; [exact Hm|congruence|congruence|].
  intros Hn. destruct (HT _ Hn HI). split; [done|]. split; [done|].
  intros fs2 ?. assert (fs2 = fs') as -> by congruence. by apply HT.
Qed.

(** ** A backend on the tree itself *)

Definition tree_op (f : node -> option node) : M unit := effect e_fate (os_op "subvolume" f).

Definition tree_backend : SnapshotBackend := {|
  assert_root := mret ();
  create_subvolume p := tree_op (fun fs =>
    match get p fs with None => put p empty_dir (Some fs) | Some _ => None end);
  snapshot source target _ := tree_op (fun fs =>
    match get source fs, get target fs with
    | Some (NDir _), None => copy_tree source target fs
    | _, _ => None
    end);
  delete_subvolume p := tree_op (fun fs =>
    match get p fs with Some (NDir _) => del p fs | _ => None end) |}.

Lemma tree_op_atomic f g fs : f fs = g fs -> atomic_at (tree_op f) g fs.
Proof.
  intros Hfg en w <-. unfold tree_op, effect, os_op. rewrite Hfg. clear Hfg f.
  assert (forall x, e_fate en (w_tick w) = x -> x <> Go -> ~ calm en) as Hcalm.
  { intros x <- Hx [Hc _]. by rewrite Hc in Hx. }
  destruct (e_fate en (w_tick w)) eqn:Ef;
    [| assert (~ calm en) as Hn by (by apply (Hcalm _ eq_refl))..];
    destruct (g (w_fs w)) as [fs'|] eqn:Eg; simpl; auto 6.
Qed.

#[export] Instance tree_backend_laws : BackendLaws tree_backend.
Proof.
  split; intros; try apply lock_neutral_effect; try apply lock_neutral_ret;
    apply tree_op_atomic.
  - by rewrite H.
  - by rewrite H, H0.
  - by rewrite H.
Qed.
