(* ===== verification/SessionState.v ===== *)
(** * The state of one session, and the store's primitives on it

    For a fixed agent and session the tree is summarised by the entries of the
    session directory and by the nodes at the transaction, the index and the
    receipts.  The lemmas give each primitive of the store as a transition of
    this summary, for every environment: what holds when it returns, and what
    holds when it fails or is interrupted. *)

From Stdlib Require Import Ascii.
From Stdlib Require String.
From stdpp Require Import gmap pretty.
From S2P Require Import Prelude PyVal Ids CheckpointIndex FileSystem World StoreFiles Backend.
Open Scope Z_scope.

(** ** Directories on the way to a path *)

Definition dir_or_none (o : option node) : Prop :=
  match o with None | Some (NDir _) => True | _ => False end.

Definition file_or_none (o : option node) : Prop :=
  match o with None | Some (NFile _) => True | _ => False end.

(** Every node on the path [d] is a directory or does not exist yet. *)
Definition dirs_ok (d : path) (fs : node) : Prop :=
  forall q, q `prefix_of` d -> dir_or_none (get q fs).

Lemma mkdirs_ok d o :
  (forall q, q `prefix_of` d -> dir_or_none (o ≫= get q)) -> exists t', mkdirs d o = Some t'.
Proof.
  revert o. induction d as [|c d IH]; intros o Ho.
  - specialize (Ho [] (prefix_nil _)). destruct o as [[]|]; simpl in *; eauto; done.
  - pose proof (Ho [] (prefix_nil _)) as H0. destruct o as [[ch| | | | |]|]; try done; simpl.
    + destruct (IH (ch !! c)) as [m ->]; simpl; [|eauto].
      intros q Hq. by apply (Ho (c :: q)), prefix_cons.
    + destruct (IH None) as [m ->]; simpl; [|eauto]. intros q Hq. done.
Qed.

Lemma dirs_ok_mkdirs d p fs fs' :
  mkdirs p (Some fs) = Some fs' -> dirs_ok d fs -> dirs_ok d fs'.
Proof.
  intros Hm Hd q Hq. destruct (mkdirs_spec _ _ _ q Hm) as [H1 H2].
  destruct (decide (q `prefix_of` p)) as [Hp|Hp].
  - destruct (H1 Hp) as [ch ->]. done.
  - rewrite (H2 Hp). by apply Hd.
Qed.

Lemma dirs_ok_put d p new fs fs' :
  put p new (Some fs) = Some fs' -> ~ p `prefix_of` d -> dirs_ok d fs -> dirs_ok d fs'.
Proof.
  intros Hp Hd Hok q Hq. destruct (decide (p `prefix_of` q)) as [Hpq|Hpq].
  { destruct Hd. by etrans. }
  destruct (prefix_cases p q) as [?|[Hqp|Hdv]]; [done| |].
  - destruct (put_ancestor _ _ _ _ _ Hp Hqp) as [ch ->]; [by intros ->|done].
  - rewrite (get_put_ne _ _ _ _ _ Hp Hdv). by apply Hok.
Qed.

Lemma dirs_ok_del d p fs fs' : del p fs = Some fs' -> dirs_ok d fs -> dirs_ok d fs'.
Proof.
  intros Hp Hok q Hq. destruct (prefix_cases p q) as [[r ->]|[Hqp|Hdv]].
  - by rewrite (get_del_below _ _ _ _ Hp).
  - destruct (decide (q = p)) as [->|Hne]; [by rewrite (get_del_eq _ _ _ Hp)|].
    destruct (del_ancestor _ _ _ _ Hp Hqp Hne) as [ch ->]. done.
  - rewrite (get_del_ne _ _ _ _ Hp Hdv). by apply Hok.
Qed.

(** ** What an atomic write may change *)

Definition hidden (name : string) : bool := starts_with "." name.

(** Only [p], hidden names beside it, and missing directories above it. *)
Definition untouched (p q : path) : Prop :=
  ~ q `prefix_of` parent_of p /\
  forall x r, q = parent_of p ++ x :: r -> x <> name_of p /\ hidden x = false.

Record wrote (p : path) (fs fs' : node) : Prop := Wrote {
  wrote_get q : untouched p q -> get q fs' = get q fs;
  wrote_dirs d : ~ p `prefix_of` d ->
    (forall x r, d = parent_of p ++ x :: r -> hidden x = false) ->
    dirs_ok d fs -> dirs_ok d fs';
  wrote_tmp x : hidden x = true ->
    file_or_none (get (parent_of p ++ [x]) fs) ->
    file_or_none (get (parent_of p ++ [x]) fs') }.

Lemma wrote_refl p fs : wrote p fs fs.
Proof. by split. Qed.

Lemma wrote_trans p fs1 fs2 fs3 : wrote p fs1 fs2 -> wrote p fs2 fs3 -> wrote p fs1 fs3.
Proof.
  intros [H1 H2 H5] [H3 H4 H6]. split; intros; [|auto..]. by rewrite H3, H1.
Qed.

Lemma parent_name p : p <> [] -> p = parent_of p ++ [name_of p].
Proof. intros. unfold parent_of, name_of. by apply app_removelast_last. Qed.

Lemma parent_prefix p : parent_of p `prefix_of` p.
Proof.
  destruct (decide (p = [])) as [->|Hp]; [done|].
  rewrite (parent_name p Hp) at 2. by apply prefix_app_r.
Qed.

Lemma parent_neq p : p <> [] -> parent_of p <> p.
Proof.
  intros Hp H. apply (f_equal length) in H. rewrite (parent_name p Hp) in H at 2.
  rewrite length_app in H. simpl in H. lia.
Qed.

Lemma parent_of_snoc (d : path) x : parent_of (d ++ [x]) = d.
Proof. apply removelast_last. Qed.

Lemma wrote_mkdirs p fs fs' :
  mkdirs (parent_of p) (Some fs) = Some fs' -> wrote p fs fs'.
Proof.
  intros Hm. split.
  - intros q [Hq _]. by apply (mkdirs_spec _ _ _ q Hm).
  - intros d _ _. by eapply dirs_ok_mkdirs.
  - intros x _. rewrite (proj2 (mkdirs_spec _ _ _ (parent_of p ++ [x]) Hm)); [done|].
    intros [r Hr]. apply (f_equal length) in Hr. rewrite !length_app in Hr. simpl in Hr. lia.
Qed.

Lemma untouched_diverge p x q :
  x = name_of p \/ hidden x = true -> untouched p q -> diverge (parent_of p ++ [x]) q.
Proof.
  intros Hx [Hq Hbelow]. split.
  - intros [r ->]. destruct (Hbelow x r) as [? Hh]; [by rewrite <- app_assoc|].
    destruct Hx as [?|Hx]; congruence.
  - intros Hp. destruct (decide (q = parent_of p ++ [x])) as [->|Hne].
    + destruct (Hbelow x []) as [? Hh]; [done|]. destruct Hx as [?|Hx]; congruence.
    + apply Hq. destruct Hp as [r Hr]. destruct r as [|y r _] using rev_ind.
      { rewrite app_nil_r in Hr. congruence. }
      rewrite app_assoc in Hr. apply app_inj_tail in Hr as [-> _]. by exists r.
Qed.

Lemma beside_not_prefix p x d :
  (hidden x = true /\ forall y r, d = parent_of p ++ y :: r -> hidden y = false)
  \/ (~ p `prefix_of` d /\ p <> [] /\ x = name_of p) ->
  ~ parent_of p ++ [x] `prefix_of` d.
Proof.
  intros [[Hx Hd]|(Hp & Hne & ->)]; [|by rewrite <- parent_name].
  intros [r ->]. rewrite (Hd x r) in Hx; [done|]. by rewrite <- app_assoc.
Qed.

Lemma sibling_diverge (d : path) x y : x <> y -> diverge (d ++ [x]) (d ++ [y]).
Proof. intros. by apply diverge_app, diverge_head. Qed.

Lemma wrote_put p x c fs fs' :
  p <> [] -> x = name_of p \/ hidden x = true ->
  put (parent_of p ++ [x]) (NFile c) (Some fs) = Some fs' -> wrote p fs fs'.
Proof.
  intros Hne Hx Hp. split.
  - intros q Hq. eapply get_put_ne; [done|]. by apply untouched_diverge.
  - intros d Hd Hh. eapply dirs_ok_put; [done|]. apply beside_not_prefix.
    destruct Hx; [right|left]; auto.
  - intros y Hy. destruct (decide (x = y)) as [->|Hxy].
    + by rewrite (get_put_eq _ _ _ _ Hp).
    + by rewrite (get_put_ne _ _ _ _ _ Hp (sibling_diverge _ _ _ Hxy)).
Qed.

Lemma wrote_del p x fs fs' :
  x = name_of p \/ hidden x = true ->
  del (parent_of p ++ [x]) fs = Some fs' -> wrote p fs fs'.
Proof.
  intros Hx Hp. split.
  - intros q Hq. eapply get_del_ne; [done|]. by apply untouched_diverge.
  - intros d _ _. by eapply dirs_ok_del.
  - intros y Hy. destruct (decide (x = y)) as [->|Hxy].
    + by rewrite (get_del_eq _ _ _ Hp).
    + by rewrite (get_del_ne _ _ _ _ Hp (sibling_diverge _ _ _ Hxy)).
Qed.

Lemma temporary_hidden name token : hidden (temporary_name name token) = true.
Proof. unfold hidden, temporary_name. apply starts_with_app. Qed.

Lemma move_Some src dst fs fs' :
  move src dst fs = Some fs' ->
  exists n fs1, get src fs = Some n /\ del src fs = Some fs1 /\ put dst n (Some fs1) = Some fs'
    /\ diverge src dst.
Proof.
  unfold move. intros (n & Hn & H)%bind_Some.
  destruct (is_prefix src dst || is_prefix dst src) eqn:E; [done|].
  destruct (may_replace n (get dst fs)); [|done].
  apply bind_Some in H as (fs1 & Hd & Hp). exists n, fs1.
  apply orb_false_iff in E as [E1%bool_decide_eq_false E2%bool_decide_eq_false].
  by repeat split.
Qed.

(** ** The atomic write *)

Section atomic_write.
Context (p : path) (v : pyval) (mode : bool).
Hypothesis Hp : p <> [].
Hypothesis Hvis : hidden (name_of p) = false.

Local Abbreviation new := (NFile (CJson v)).

(** The target as before, or as requested. *)
Definition half_written (o : option node) (fs fs' : node) : Prop :=
  wrote p fs fs' /\ (get p fs' = o \/ get p fs' = Some new).

Definition tmp (token : string) : path := parent_of p ++ [temporary_name (name_of p) token].

Lemma tmp_target token : diverge (tmp token) p.
Proof.
  assert (diverge (tmp token) (parent_of p ++ [name_of p])) as H.
  { apply sibling_diverge. intros H.
    pose proof (temporary_hidden (name_of p) token) as Ht. congruence. }
  by rewrite <- parent_name in H.
Qed.

Lemma write_tmp token c fs fs' :
  write_content (tmp token) c fs = Some fs' ->
  wrote p fs fs' /\ get p fs' = get p fs /\ get (tmp token) fs' = Some (NFile c).
Proof.
  unfold write_content. intros H.
  assert (put (tmp token) (NFile c) (Some fs) = Some fs') as Hput.
  { destruct (get (tmp token) fs) as [[]|]; congruence. }
  split; [|split].
  - eapply (wrote_put p _ _ _ _ Hp); [|exact Hput]. right. apply temporary_hidden.
  - eapply get_put_ne; [done|]. apply tmp_target.
  - by eapply get_put_eq.
Qed.

Lemma replace_tmp token c fs fs' :
  get (tmp token) fs = Some (NFile c) -> move (tmp token) p fs = Some fs' ->
  wrote p fs fs' /\ get p fs' = Some (NFile c) /\ get (tmp token) fs' = None.
Proof.
  intros Ht (n & fs1 & Hn & Hd & Hput & Hdv)%move_Some.
  assert (n = NFile c) as -> by congruence. split; [|split].
  - eapply wrote_trans.
    + eapply (wrote_del p); [|exact Hd]. right. apply temporary_hidden.
    + eapply (wrote_put p (name_of p) _ _ _ Hp); [by left|].
      rewrite <- parent_name by done. exact Hput.
  - by eapply get_put_eq.
  - rewrite (get_put_ne _ _ _ _ _ Hput); [by eapply get_del_eq|].
    by apply diverge_sym.
Qed.

Lemma unlink_tmp token fs fs' :
  match get (tmp token) fs with None => Some fs | Some _ => unlink (tmp token) fs end
    = Some fs' ->
  wrote p fs fs' /\ get p fs' = get p fs.
Proof.
  destruct (get (tmp token) fs) eqn:Ht.
  - unfold unlink. rewrite Ht. simpl. destruct (dir_node n); [done|]. intros Hd. split.
    + eapply (wrote_del p); [|exact Hd]. right. apply temporary_hidden.
    + eapply get_del_ne; [done|]. apply tmp_target.
  - intros [= <-]. split; [apply wrote_refl|done].
Qed.
(** What the directory must look like for the write to go through. *)
Definition writable (fs : node) : Prop :=
  dirs_ok (parent_of p) fs /\ file_or_none (get p fs) /\
  forall token, string_forallb is_hex token = true ->
    file_or_none (get (tmp token) fs) /\ (mode = true -> get (tmp token) fs = None).

Lemma write_content_ok q c fs ch :
  get (parent_of q) fs = Some (NDir ch) -> q <> [] -> file_or_none (get q fs) ->
  exists fs', write_content q c fs = Some fs'.
Proof.
  intros Hd Hq Hf. unfold write_content.
  assert (exists fs', put q (NFile c) (Some fs) = Some fs') as [fs' Hput].
  { rewrite (parent_name q Hq). by eapply put_is_Some. }
  exists fs'. by destruct (get q fs) as [[]|].
Qed.

Lemma replace_ok token c ch fs :
  get (parent_of p) fs = Some (NDir ch) -> get (tmp token) fs = Some (NFile c) ->
  file_or_none (get p fs) -> exists fs', move (tmp token) p fs = Some fs'.
Proof.
  intros Hd Ht Hf. unfold move. rewrite Ht. simpl.
  destruct (tmp_target token) as [H1 H2]. unfold is_prefix.
  rewrite !bool_decide_eq_false_2 by done. simpl.
  destruct (del_is_Some _ _ _ _ Ht) as [fs1 Hdel].
  change (parent_of p ++ [_]) with (tmp token) in Hdel.
  assert (may_replace (NFile c) (get p fs) = true) as ->.
  { by destruct (get p fs) as [[]|]. }
  rewrite Hdel. simpl.
  destruct (del_ancestor (tmp token) (parent_of p) fs fs1 Hdel) as [ch1 Hch1].
  { by apply prefix_app_r. }
  { intros E1. apply (f_equal length) in E1. unfold tmp in E1.
    rewrite length_app in E1. simpl in E1. lia. }
  assert (exists fs2, put p (NFile c) (Some fs1) = Some fs2) as [fs2 ->]; [|eauto].
  rewrite (parent_name p Hp). by eapply put_is_Some.
Qed.

Lemma writable_mkdirs fs fs1 :
  writable fs -> mkdirs (parent_of p) (Some fs) = Some fs1 ->
  exists ch, get (parent_of p) fs1 = Some (NDir ch) /\ get p fs1 = get p fs /\
    forall x, get (parent_of p ++ [x]) fs1 = get (parent_of p ++ [x]) fs.
Proof.
  intros _ Hm. destruct (mkdirs_spec _ _ _ (parent_of p) Hm) as [H1 _].
  destruct (H1 (reflexivity _)) as [ch Hch]. exists ch. split; [done|].
  assert (forall x, get (parent_of p ++ [x]) fs1 = get (parent_of p ++ [x]) fs) as Hx.
  { intros x. apply (mkdirs_spec _ _ _ _ Hm). intros [r Hr].
    apply (f_equal length) in Hr. rewrite !length_app in Hr. simpl in Hr. lia. }
  split; [|done]. pose proof (Hx (name_of p)) as Hn.
  by rewrite <- parent_name in Hn.
Qed.

(** The writing part: everything between the token and the cleanup. *)
Lemma wp_write_body en token fs fs1 (Q : unit -> node -> Prop) E C ch :
  string_forallb is_hex token = true -> writable fs -> wrote p fs fs1 ->
  get (parent_of p) fs1 = Some (NDir ch) -> get p fs1 = get p fs ->
  get (tmp token) fs1 = get (tmp token) fs ->
  (forall fs', wrote p fs fs' -> get p fs' = Some new -> get (tmp token) fs' = None ->
     Q () fs') ->
  tolerates en (half_written (get p fs) fs) E C ->
  wp en (create_file mode (tmp token);;
         write_file (tmp token) (CJson v);;
         replace_file (tmp token) p;;
         fsync_dir (parent_of p)) Q E C fs1.
Proof.
  intros Hhex (_ & Hfile & Htmp) Hw1 Hch Hp1 Ht1 HQ HT.
  destruct (Htmp _ Hhex) as [Htf Hexcl]. rewrite <- Ht1 in Htf, Hexcl. clear Htmp Ht1.
  assert (tmp token <> []) as Htne by (unfold tmp; by destruct (parent_of p)).
  assert (parent_of (tmp token) = parent_of p) as Hpt
    by apply parent_of_snoc.
  assert (half_written (get p fs) fs fs1) as Hh1 by (split; auto).
  assert (forall fs2 fs3 c, wrote p fs fs2 -> write_content (tmp token) c fs2 = Some fs3 ->
    get p fs2 = get p fs -> exists ch, get (parent_of p) fs3 = Some (NDir ch)) as Hdir.
  { intros fs2 fs3 c _ Hc _. apply (put_ancestor (tmp token) _ (NFile c) fs2).
    - unfold write_content in Hc. by destruct (get (tmp token) fs2) as [[]|].
    - rewrite <- Hpt. apply parent_prefix.
    - rewrite <- Hpt. by apply parent_neq. }
  destruct (write_content_ok (tmp token) (CRaw EmptyString) fs1 ch) as [fs2 Hc2];
    [by rewrite Hpt|done|done|].
  destruct (write_tmp _ _ _ _ Hc2) as (Hw2 & Hp2 & Ht2).
  assert (half_written (get p fs) fs fs2) as Hh2.
  { split; [by eapply wrote_trans|]. left. congruence. }
  destruct (Hdir _ _ _ Hw1 Hc2 Hp1) as [ch2 Hch2].
  destruct (write_content_ok (tmp token) (CJson v) fs2 ch2) as [fs3 Hc3];
    [by rewrite Hpt|done|by rewrite Ht2|].
  destruct (write_tmp _ _ _ _ Hc3) as (Hw3 & Hp3 & Ht3).
  assert (wrote p fs fs3) as Hwr3 by (eapply wrote_trans; [exact (proj1 Hh2)|done]).
  assert (half_written (get p fs) fs fs3) as Hh3 by (split; [done|left; congruence]).
  destruct (Hdir _ _ _ (proj1 Hh2) Hc3 ltac:(congruence)) as [ch3 Hch3].
  destruct (replace_ok token (CJson v) ch3 fs3) as [fs4 Hm]; [done|done|congruence|].
  destruct (replace_tmp _ _ _ _ Ht3 Hm) as (Hw4 & Hp4 & Ht4).
  assert (wrote p fs fs4) as Hwr4 by by eapply wrote_trans.
  assert (half_written (get p fs) fs fs4) as Hh4 by (split; auto).
  assert (path_is_dir (parent_of p) fs4 = true) as Hd4.
  { destruct (move_Some _ _ _ _ Hm) as (n & fs5 & _ & _ & Hput & _).
    destruct (put_ancestor p (parent_of p) n fs5 fs4 Hput) as [ch4 H4].
    - apply parent_prefix.
    - by apply parent_neq.
    - unfold path_is_dir, stat. simpl. rewrite H4. simpl. by rewrite H4. }
  apply wp_bind. eapply (wp_effect_ok _ _ _ _ _ _ _ fs2); [|exact HT|done|done|].
  { unfold os_op. destruct mode; simpl; [|by rewrite Hc2].
    rewrite Hexcl, bool_decide_eq_false_2, Hc2 by (done || by intros []). done. }
  apply wp_bind. eapply (wp_effect_ok _ _ _ _ _ _ _ fs3); [|exact HT|done|done|].
  { unfold os_op. by rewrite Hc3. }
  apply wp_bind. eapply (wp_effect_ok _ _ _ _ _ _ _ fs4); [|exact HT|done|done|].
  { unfold os_op. by rewrite Hm. }
  eapply (wp_effect_ok _ _ _ _ _ _ _ fs4); [|exact HT|done|done|by apply HQ].
  unfold os_op. by rewrite Hd4.
Qed.

Lemma wp_unlink_tmp en token fs0 fs (Q : unit -> node -> Prop) (E : exn -> node -> Prop)
    (C : node -> Prop) :
  half_written (get p fs0) fs0 fs ->
  (forall fs', half_written (get p fs0) fs0 fs' -> (forall e, E e fs') /\ C fs') ->
  (forall fs', half_written (get p fs0) fs0 fs' -> Q () fs') ->
  wp en (unlink_missing_ok (tmp token)) Q E C fs.
Proof.
  intros [Hw Hor] HT HQ.
  assert (forall fs', os_op "unlink" (fun fs => match get (tmp token) fs with
            None => Some fs | Some _ => unlink (tmp token) fs end) fs = Ok fs' ->
            half_written (get p fs0) fs0 fs') as H.
  { unfold os_op. intros fs' Hf.
    match type of Hf with match ?x with _ => _ end = _ => destruct x as [fs2|] eqn:Hu end;
      [|done].
    injection Hf as <-. apply unlink_tmp in Hu as [Hw' Hp'].
    split; [by eapply wrote_trans|]. by rewrite Hp'. }
  assert (half_written (get p fs0) fs0 fs) as Hh by by split.
  destruct (HT _ Hh) as [HE HC]. apply wp_effect; [auto|auto|intros _].
  split; [done|]. split; [done|]. intros fs' Hf. apply HT, H, Hf.
Qed.

Lemma wp_atomic_write en fs (Q : unit -> node -> Prop) E C :
  hex_tokens en -> writable fs ->
  tolerates en (half_written (get p fs) fs) E C ->
  (forall fs', wrote p fs fs' -> get p fs' = Some new -> Q () fs') ->
  wp en (_atomic_write_json p v mode) Q E C fs.
Proof.
  intros Hu Hwr HT HQ. unfold _atomic_write_json.
  assert (half_written (get p fs) fs fs) as Hh by (split; [apply wrote_refl|by left]).
  destruct (mkdirs_ok (parent_of p) (Some fs)) as [fs1 Hm]; [apply Hwr|].
  destruct (writable_mkdirs _ _ Hwr Hm) as (ch & Hch & Hp1 & Hx).
  assert (wrote p fs fs1) as Hw1 by by apply wrote_mkdirs.
  apply wp_bind. eapply (wp_effect_ok _ _ _ _ _ _ _ fs1); [|exact HT|done|by split; auto|].
  { unfold os_op. by rewrite Hm. }
  apply wp_bind, wp_uuid; [done|]. intros token Hhex. apply wp_finally.
  change (with_name p _) with (tmp token).
  apply (wp_write_body en token fs fs1 _ _ _ ch); [done|done|done|done|done|apply Hx|..].
  - intros fs' Hw Hp' Ht. eapply (wp_effect_ok _ _ _ _ _ _ _ fs'); [|exact HT|..].
    + unfold os_op. by rewrite Ht.
    + split; auto.
    + split; auto.
    + by apply HQ.
  - intros fs' Hn Hh'. split; [|by apply HT]. intros e.
    apply (wp_unlink_tmp en token fs); [done|auto|]. intros fs2 H2. by apply HT.
Qed.
End atomic_write.
