(* ===== verification/SessionOps.v ===== *)
(** * One session: summary of the tree and transitions of the primitives

    [St] summarises the tree for a session [(a, s)]: the entries of its
    directory, the nodes at its transaction file, its index and its receipts,
    that the metadata directories can be written, and that everything foreign
    to the session is as in a base tree. *)

From Stdlib Require Import Ascii.
From Stdlib Require String.
From stdpp Require Import gmap pretty.
From S2P Require Import Prelude PyVal Ids CheckpointIndex FileSystem World StoreFiles Store.
From S2P Require Import Backend SessionState.
Open Scope Z_scope.

Section paths.
Context (a s : string).

Definition SD : path := ["agents"; a; "workspace"; "sessions"; s].
Definition CUR : path := SD ++ ["current"].
Definition CPS : path := SD ++ ["checkpoints"].
Definition TXN : path := [".allox"; "transactions"; a; s +:+ ".json"].
Definition IDX : path := [".allox"; "indexes"; a; s +:+ ".json"].
Definition EV : path := [".allox"; "events"; a; s +:+ ".jsonl"].
Definition LOCK : path := [".allox"; "locks"; a; s +:+ ".lock"].
Definition RCP (r : string) : path := [".allox"; "recovery-receipts"; a; s; r +:+ ".json"].

(** The files of the metadata area that belong to the session. *)
Definition metadata_files : list path := [TXN; IDX; EV; LOCK].

(** Paths that no operation on the session may change. *)
Definition foreign (q : path) : Prop :=
  diverge SD q /\ (forall t, t ∈ metadata_files -> untouched t q) /\
  diverge (parent_of (RCP EmptyString)) q.

Record St (base : node) (ch : gmap string node) (T I : option node)
    (R : string -> option node) (fs : node) : Prop := MkSt {
  st_sd : get SD fs = Some (NDir ch);
  st_txn : get TXN fs = T;
  st_idx : get IDX fs = I;
  st_rcp r : ID_RE r = true -> get (RCP r) fs = R r;
  st_dirs t : t ∈ metadata_files -> dirs_ok (parent_of t) fs;
  st_rdir : dirs_ok (parent_of (RCP EmptyString)) fs;
  st_ev : file_or_none (get EV fs);
  st_lock : file_or_none (get LOCK fs);
  st_tmp t x : t ∈ [TXN; IDX] -> hidden x = true ->
    file_or_none (get (parent_of t ++ [x]) fs);
  st_frame q : foreign q -> get q fs = get q base }.
End paths.

Arguments st_sd {a s base ch T I R fs}.
Arguments st_txn {a s base ch T I R fs}.
Arguments st_idx {a s base ch T I R fs}.
Arguments st_rcp {a s base ch T I R fs}.
Arguments st_dirs {a s base ch T I R fs}.
Arguments st_rdir {a s base ch T I R fs}.
Arguments st_ev {a s base ch T I R fs}.
Arguments st_lock {a s base ch T I R fs}.
Arguments st_tmp {a s base ch T I R fs}.
Arguments st_frame {a s base ch T I R fs}.

(** ** Deciding path relations by the first components *)

Lemma prefix_take (p q : path) n : p `prefix_of` q -> (n <= length p)%nat -> take n p = take n q.
Proof. intros [r ->] Hn. by rewrite take_app_le. Qed.

Lemma diverge_take n (p q : path) :
  (n <= length p)%nat -> (n <= length q)%nat -> take n p <> take n q -> diverge p q.
Proof. intros Hp Hq Hne. split; intros H; apply (prefix_take _ _ n) in H; congruence. Qed.

Lemma untouched_take n t q :
  (n <= length (parent_of t))%nat -> (n <= length q)%nat ->
  take n (parent_of t) <> take n q -> untouched t q.
Proof.
  intros Ht Hq Hne. split.
  - intros H. apply (prefix_take _ _ n) in H; congruence.
  - intros x r ->. by rewrite take_app_le in Hne.
Qed.

(** Distinct directories of the metadata area. *)
Ltac paths2 :=
  first [apply (untouched_take 2) | apply (diverge_take 2)];
  cbn; try lia; intros [=].
Ltac paths1 :=
  first [apply (untouched_take 1) | apply (diverge_take 1)];
  cbn; try lia; intros [=].

Ltac metadata_cases H :=
  unfold metadata_files in H; rewrite !elem_of_cons in H;
  repeat destruct H as [->|H]; try by apply not_elem_of_nil in H.

Lemma name_hidden (s ext : string) : ID_RE s = true -> hidden (s +:+ ext) = false.
Proof.
  intros (c & s' & -> & Hc & _)%ID_RE_cons. apply not_true_is_false.
  intros [t E]%starts_with_spec. rewrite !string_app_cons in E.
  injection E as -> _. discriminate Hc.
Qed.

Section ops.
Context (a s : string) (Ha : ID_RE a = true) (Hs : ID_RE s = true) (base : node).

Lemma untouched_SD t : t ∈ metadata_files a s -> untouched t (SD a s).
Proof. intros H. metadata_cases H; paths1. Qed.

Lemma untouched_metadata t t' :
  t ∈ metadata_files a s -> t' ∈ metadata_files a s -> t <> t' -> untouched t t'.
Proof.
  intros H H' Hne. metadata_cases H; metadata_cases H'; try done; paths2.
Qed.

Lemma untouched_RCP t r : t ∈ metadata_files a s -> untouched t (RCP a s r).
Proof. intros H. metadata_cases H; paths2. Qed.

Lemma untouched_by_RCP t r : t ∈ metadata_files a s -> untouched (RCP a s r) t.
Proof. intros H. metadata_cases H; paths2. Qed.

Lemma metadata_vis t : t ∈ metadata_files a s -> t <> [] /\ hidden (name_of t) = false.
Proof. intros H. metadata_cases H; (split; [done|by apply name_hidden]). Qed.

Lemma app_cons_length (d : path) x r : d <> d ++ x :: r.
Proof. intros H. apply (f_equal length) in H. rewrite length_app in H. simpl in H. lia. Qed.

(** Writing one metadata file keeps the directories of all of them. *)
Lemma wrote_dirs_metadata t t' fs fs' :
  t ∈ metadata_files a s -> t' ∈ metadata_files a s -> wrote t fs fs' ->
  dirs_ok (parent_of t') fs -> dirs_ok (parent_of t') fs'.
Proof.
  intros Ht Ht' Hw. destruct (decide (t = t')) as [<-|Hne]; [apply (wrote_dirs _ _ _ Hw)|
    apply (wrote_dirs _ _ _ Hw)].
  - intros Hp. apply (parent_neq t); [by apply metadata_vis|].
    apply (anti_symm prefix); [apply parent_prefix|done].
  - intros x r E. by apply app_cons_length in E.
  - intros Hp. destruct (untouched_metadata _ _ Ht Ht' Hne) as [_ Hu].
    metadata_cases Ht; metadata_cases Ht'; try done;
      (apply (prefix_take _ _ 2) in Hp; [|cbn; lia]); cbn in Hp; discriminate Hp.
  - intros x r E. metadata_cases Ht; metadata_cases Ht'; try done;
      apply (f_equal (take 2)) in E; cbn in E; discriminate E.
Qed.

(** ** Transitions on the metadata files *)

Lemma St_wrote t ch T I R fs fs' :
  t ∈ metadata_files a s -> St a s base ch T I R fs -> wrote t fs fs' ->
  file_or_none (get t fs') -> St a s base ch (get (TXN a s) fs') (get (IDX a s) fs') R fs'.
Proof.
  intros Ht HS Hw Hf.
  assert (forall t', t' ∈ metadata_files a s -> file_or_none (get t' fs) ->
            file_or_none (get t' fs')) as Hfile.
  { intros t' Ht' Hf'. destruct (decide (t = t')) as [<-|Hne]; [done|].
    by rewrite (wrote_get _ _ _ Hw) by (by apply untouched_metadata). }
  split; try done.
  - rewrite (wrote_get _ _ _ Hw) by (by apply untouched_SD). apply HS.
  - intros r Hr. rewrite (wrote_get _ _ _ Hw) by (by apply untouched_RCP). by apply HS.
  - intros t' Ht'. eapply wrote_dirs_metadata; [exact Ht|done|done|]. by apply HS.
  - apply (wrote_dirs _ _ _ Hw); [..|exact (st_rdir HS)].
    + intros Hp. metadata_cases Ht;
        (apply (prefix_take _ _ 2) in Hp; [|cbn; lia]); cbn in Hp; discriminate Hp.
    + intros x r E. metadata_cases Ht; apply (f_equal (take 2)) in E; cbn in E; discriminate E.
  - apply Hfile; [|apply HS]. unfold metadata_files. set_solver.
  - apply Hfile; [|apply HS]. unfold metadata_files. set_solver.
  - intros t' x Ht' Hx. destruct (decide (t = t')) as [<-|Hne].
    + apply (wrote_tmp _ _ _ Hw); [done|]. by apply (st_tmp HS).
    + rewrite (wrote_get _ _ _ Hw); [by apply (st_tmp HS)|].
      rewrite !elem_of_cons in Ht'.
      destruct Ht' as [->|[->|[]%not_elem_of_nil]]; metadata_cases Ht; try done; paths2.
  - intros q Hq. rewrite <- (st_frame HS q Hq).
    apply (wrote_get _ _ _ Hw). by apply Hq.
Qed.

Lemma St_wrote_other t ch T I R fs fs' :
  t ∈ [EV a s; LOCK a s] -> St a s base ch T I R fs -> wrote t fs fs' ->
  file_or_none (get t fs') -> St a s base ch T I R fs'.
Proof.
  intros Ht HS Hw Hf.
  assert (t ∈ metadata_files a s) as Hm by (unfold metadata_files; set_solver).
  pose proof (St_wrote _ _ _ _ _ _ _ Hm HS Hw Hf) as HS'.
  rewrite (wrote_get _ _ _ Hw (TXN a s)), (wrote_get _ _ _ Hw (IDX a s)) in HS'.
  - by rewrite (st_txn HS), (st_idx HS) in HS'.
  - rewrite !elem_of_cons in Ht. destruct Ht as [->|[->|[]%not_elem_of_nil]]; paths2.
  - rewrite !elem_of_cons in Ht. destruct Ht as [->|[->|[]%not_elem_of_nil]]; paths2.
Qed.

Lemma St_wrote_txn ch T I R fs fs' T' :
  St a s base ch T I R fs -> wrote (TXN a s) fs fs' -> get (TXN a s) fs' = T' ->
  file_or_none T' -> St a s base ch T' I R fs'.
Proof.
  intros HS Hw <- Hf.
  pose proof (St_wrote (TXN a s) _ _ _ _ _ _ ltac:(unfold metadata_files; set_solver) HS Hw Hf)
    as HS'.
  rewrite (wrote_get _ _ _ Hw (IDX a s)) in HS' by paths2.
  by rewrite (st_idx HS) in HS'.
Qed.

Lemma St_wrote_idx ch T I R fs fs' I' :
  St a s base ch T I R fs -> wrote (IDX a s) fs fs' -> get (IDX a s) fs' = I' ->
  file_or_none I' -> St a s base ch T I' R fs'.
Proof.
  intros HS Hw <- Hf.
  pose proof (St_wrote (IDX a s) _ _ _ _ _ _ ltac:(unfold metadata_files; set_solver) HS Hw Hf)
    as HS'.
  rewrite (wrote_get _ _ _ Hw (TXN a s)) in HS' by paths2.
  by rewrite (st_txn HS) in HS'.
Qed.

(** ** Transitions inside the session directory *)

Lemma St_session ch T I R fs fs' ch' :
  St a s base ch T I R fs -> (forall q, diverge (SD a s) q -> get q fs' = get q fs) ->
  get (SD a s) fs' = Some (NDir ch') -> St a s base ch' T I R fs'.
Proof.
  intros HS Hsame Hsd.
  assert (forall q x, get (".allox" :: x :: q) fs' = get (".allox" :: x :: q) fs) as Hmeta.
  { intros q x. apply Hsame. paths1. }
  assert (forall q, get (".allox" :: q) fs' = get (".allox" :: q) fs) as Hmeta1.
  { intros q. apply Hsame. paths1. }
  assert (forall d, dirs_ok (".allox" :: d) fs -> dirs_ok (".allox" :: d) fs') as Hdirs.
  { intros d Hd q Hq. destruct q as [|x q].
    - simpl. by destruct fs'.
    - pose proof (prefix_cons_inv_1 _ _ _ _ Hq). subst x. rewrite Hmeta1. by apply Hd. }
  split; try done.
  - rewrite <- (st_txn HS). apply Hmeta.
  - rewrite <- (st_idx HS). apply Hmeta.
  - intros r Hr. rewrite <- (st_rcp HS r Hr). apply Hmeta.
  - intros t Ht. pose proof (st_dirs HS t Ht) as Hd.
    metadata_cases Ht; by apply Hdirs.
  - by apply Hdirs, HS.
  - unfold EV. rewrite Hmeta. apply HS.
  - unfold LOCK. rewrite Hmeta. apply HS.
  - intros t x Ht Hx. pose proof (st_tmp HS t x Ht Hx) as Hf.
    rewrite !elem_of_cons in Ht. destruct Ht as [->|[->|[]%not_elem_of_nil]];
      cbn [app parent_of removelast TXN IDX] in *; by rewrite Hmeta.
  - intros q Hq. rewrite <- (st_frame HS q Hq). apply Hsame, Hq.
Qed.

Lemma get_entry ch T I R fs n r :
  St a s base ch T I R fs -> get (SD a s ++ n :: r) fs = ch !! n ≫= get r.
Proof. intros HS. rewrite get_app, (st_sd HS). done. Qed.

(** Place [x] at an entry, or below it. *)
Lemma St_put n r x m ch T I R fs :
  St a s base ch T I R fs -> put r x (ch !! n) = Some m ->
  exists fs', put (SD a s ++ n :: r) x (Some fs) = Some fs'
    /\ St a s base (<[n:=m]> ch) T I R fs'.
Proof.
  intros HS Hput. destruct (put_app (SD a s) (n :: r) x fs (NDir ch) (NDir (<[n:=m]> ch)))
    as (fs' & Hfs' & Hsd); [apply HS|simpl; by rewrite Hput|].
  exists fs'. split; [done|]. eapply St_session; [exact HS| |done].
  intros q Hq. eapply get_put_ne; [done|]. by apply diverge_app_l.
Qed.

(** Remove an entry. *)
Lemma St_del n x ch T I R fs :
  St a s base ch T I R fs -> ch !! n = Some x ->
  exists fs', del (SD a s ++ [n]) fs = Some fs' /\ St a s base (delete n ch) T I R fs'.
Proof.
  intros HS Hn. destruct (del_app (SD a s) n [] fs (NDir ch) (NDir (delete n ch)))
    as (fs' & Hfs' & Hsd); [apply HS|simpl; by rewrite Hn|].
  exists fs'. split; [done|]. eapply St_session; [exact HS| |done].
  intros q Hq. eapply get_del_ne; [done|]. by apply diverge_app_l.
Qed.

(** Remove what is at [r] below an entry. *)
Lemma St_del_below n r x m ch T I R fs :
  St a s base ch T I R fs -> ch !! n = Some x -> r <> [] -> del r x = Some m ->
  exists fs', del (SD a s ++ n :: r) fs = Some fs' /\ St a s base (<[n:=m]> ch) T I R fs'.
Proof.
  intros HS Hn Hr Hd. destruct (del_app (SD a s) n r fs (NDir ch) (NDir (<[n:=m]> ch)))
    as (fs' & Hfs' & Hsd); [apply HS| |].
  { destruct r; [done|].
    change ((x ← ch !! n; m' ← del (s0 :: r) x; Some (NDir (<[n:=m']> ch)))
            = Some (NDir (<[n:=m]> ch))). rewrite Hn. simpl in *. by rewrite Hd. }
  exists fs'. split; [done|]. eapply St_session; [exact HS| |done].
  intros q Hq. eapply get_del_ne; [done|]. by apply diverge_app_l.
Qed.

Lemma St_move c d x ch T I R fs :
  St a s base ch T I R fs -> ch !! c = Some x -> ch !! d = None -> c <> d ->
  exists fs', move (SD a s ++ [c]) (SD a s ++ [d]) fs = Some fs'
    /\ St a s base (<[d:=x]> (delete c ch)) T I R fs'.
Proof.
  intros HS Hc Hd Hne. destruct (move_app _ _ _ _ _ _ (st_sd HS) Hc Hd Hne)
    as (fs' & Hm & Hsd & Hfr).
  exists fs'. split; [done|]. eapply St_session; [exact HS| |done]. done.
Qed.
End ops.
