(* ===== verification/SessionWp.v ===== *)
(** * Weakest preconditions of the store's building blocks on one session *)

From Stdlib Require Import Ascii.
From Stdlib Require String.
From stdpp Require Import gmap pretty.
From S2P Require Import Prelude PyVal Ids CheckpointIndex FileSystem World StoreFiles Store.
From S2P Require Import StoreRecovery Backend SessionState SessionOps.
From S2P Require Import Lineage CheckpointIndexFacts.
Open Scope Z_scope.

Definition jfile (d : dict) : option node := Some (NFile (CJson (PDict d))).

(** The checkpoints a checkpoint directory holds. *)
Definition dir_names (cps : gmap string node) : gset string :=
  dom (filter (fun kv => dir_node kv.2 = true) cps).

Lemma elem_of_dir_names cps x :
  x ∈ dir_names cps <-> exists n, cps !! x = Some n /\ dir_node n = true.
Proof.
  unfold dir_names. rewrite elem_of_dom. split.
  - intros [n [? ?]%map_lookup_filter_Some]. eauto.
  - intros (n & ? & ?). exists n. by apply map_lookup_filter_Some.
Qed.

(** The index file [I] loads as [ix] when the checkpoints on disk are [A]. *)
Definition loads (A : gset string) (ix : index) (I : option node) : Prop :=
  (I = None /\ ix = (reconcile empty_index A).1) \/
  exists d ix0, I = jfile d /\ from_dict d = Ok ix0 /\ ix = (reconcile ix0 A).1.

(** The file holds an encoding of [ix]. *)
Definition saved (ix : index) (I : option node) : Prop :=
  exists d, I = jfile d /\ from_dict d = Ok ix.

Lemma saved_loads A ix I : agrees A ix -> saved ix I -> loads A ix I.
Proof.
  intros H (d & -> & Hd). right. exists d, ix. by rewrite agrees_reconcile.
Qed.

Lemma loads_agrees A ix I : loads A ix I -> agrees A ix.
Proof. intros [[_ ->]|(d & ix0 & _ & _ & ->)]; apply reconcile_agreeing. Qed.

Lemma loads_file A ix I : loads A ix I -> file_or_none I.
Proof. by intros [[-> _]|(d & ix0 & -> & _)]. Qed.

Lemma loads_saved A ix ix0 :
  (reconcile ix0 A).1 = ix -> loads A ix (jfile (to_dict ix0)).
Proof. intros <-. right. exists (to_dict ix0), ix0. by rewrite dict_roundtrip. Qed.

(** What is loaded is stable under saving and loading again. *)
Lemma loads_stable A ix I : loads A ix I -> loads A ix (jfile (to_dict ix)).
Proof.
  intros H. apply loads_saved.
  assert (exists ix0, ix = (reconcile ix0 A).1) as [ix0 ->]
    by (destruct H as [[_ ->]|(d & ix0 & _ & _ & ->)]; eauto).
  by rewrite (agrees_reconcile _ _ (reconcile_agreeing ix0 A)).
Qed.

Section wps.
Context `{HB : SnapshotBackend} `{!BackendLaws HB} (root : string).
Context (a s : string) (Ha : ID_RE a = true) (Hs : ID_RE s = true) (base : node).
Context (en : env) (Htok : hex_tokens en).

Notation St := (St a s base).

Lemma session_dir_ok : session_dir a s = Ok (SD a s).
Proof.
  unfold session_dir, sessions_dir, agent_workspace, agent_dir.
  by rewrite !validate_id_valid.
Qed.

Lemma current_ok : current a s = Ok (CUR a s).
Proof. unfold current. by rewrite session_dir_ok. Qed.

Lemma checkpoints_dir_ok : checkpoints_dir a s = Ok (CPS a s).
Proof. unfold checkpoints_dir. by rewrite session_dir_ok. Qed.

Lemma index_path_ok : _index_path a s = Ok (IDX a s).
Proof. unfold _index_path. by rewrite !validate_id_valid. Qed.

Lemma transaction_path_ok : _transaction_path a s = Ok (TXN a s).
Proof. unfold _transaction_path. by rewrite !validate_id_valid. Qed.

Lemma event_path_ok : _event_path (Some a) (Some s) = Ok (EV a s).
Proof. unfold _event_path. by rewrite !validate_id_valid. Qed.

Lemma receipt_path_ok r : ID_RE r = true -> _recovery_receipt_path a s r = Ok (RCP a s r).
Proof. intros. unfold _recovery_receipt_path. by rewrite !validate_id_valid. Qed.

(** ** Metadata writes *)

Lemma St_writable t ch T I R fs :
  t ∈ [TXN a s; IDX a s] -> St ch T I R fs -> file_or_none T -> file_or_none I ->
  writable t false fs.
Proof.
  intros Ht HS HT HI. split; [|split].
  - apply (st_dirs HS). unfold metadata_files. set_solver.
  - rewrite !elem_of_cons in Ht. destruct Ht as [->|[->|[]%not_elem_of_nil]].
    + by rewrite (st_txn HS).
    + by rewrite (st_idx HS).
  - intros token _. split; [|done]. apply (st_tmp HS); [done|apply temporary_hidden].
Qed.

Lemma wp_write_transaction t ch T I R fs (Q : unit -> node -> Prop) E C :
  St ch T I R fs -> file_or_none T -> file_or_none I ->
  tolerates en (fun fs' => St ch T I R fs' \/ St ch (jfile t) I R fs') E C ->
  (forall fs', St ch (jfile t) I R fs' -> Q () fs') ->
  wp en (_write_transaction a s t) Q E C fs.
Proof.
  intros HS HTf HIf HT HQ. unfold _write_transaction. rewrite transaction_path_ok.
  apply wp_bind, wp_of_result. apply wp_atomic_write; [done|by apply name_hidden|done|..].
  - eapply St_writable; [set_solver|exact HS|done|done].
  - eapply tolerates_mono; [|exact HT]. intros fs' [Hw [Ho|Hn]].
    + left. rewrite (st_txn HS) in Ho. by eapply St_wrote_txn.
    + right. by eapply St_wrote_txn.
  - intros fs' Hw Hn. apply HQ. by eapply St_wrote_txn.
Qed.

Lemma wp_save_index ix ch T I R fs (Q : unit -> node -> Prop) E C :
  St ch T I R fs -> file_or_none T -> file_or_none I ->
  tolerates en (fun fs' => St ch T I R fs' \/ St ch T (jfile (to_dict ix)) R fs') E C ->
  (forall fs', St ch T (jfile (to_dict ix)) R fs' -> Q () fs') ->
  wp en (_save_index a s ix) Q E C fs.
Proof.
  intros HS HTf HIf HT HQ. unfold _save_index. rewrite index_path_ok.
  apply wp_bind, wp_of_result. apply wp_atomic_write; [done|by apply name_hidden|done|..].
  - eapply St_writable; [set_solver|exact HS|done|done].
  - eapply tolerates_mono; [|exact HT]. intros fs' [Hw [Ho|Hn]].
    + left. rewrite (st_idx HS) in Ho. by eapply St_wrote_idx.
    + right. by eapply St_wrote_idx.
  - intros fs' Hw Hn. apply HQ. by eapply St_wrote_idx.
Qed.

Lemma mkdirs_then_dir p fs :
  dirs_ok p fs ->
  exists fs1 ch, mkdirs p (Some fs) = Some fs1 /\ get p fs1 = Some (NDir ch).
Proof.
  intros Hd. destruct (mkdirs_ok p (Some fs) Hd) as [fs1 Hm]. exists fs1.
  destruct (proj1 (mkdirs_spec _ _ _ p Hm) (reflexivity _)) as [ch ?]. by exists ch.
Qed.

Lemma get_mkdirs_parent p fs fs1 :
  p <> [] -> mkdirs (parent_of p) (Some fs) = Some fs1 -> get p fs1 = get p fs.
Proof.
  intros Hp Hm. apply (mkdirs_spec _ _ _ p Hm). intros H.
  apply (parent_neq p Hp). apply (anti_symm prefix); [apply parent_prefix|done].
Qed.

(** Creating the parents of an event or lock file. *)
Lemma wp_mkdir_metadata t ch T I R fs (Q : unit -> node -> Prop) E C :
  t ∈ [EV a s; LOCK a s] -> St ch T I R fs -> tolerates en (St ch T I R) E C ->
  (forall fs' d, St ch T I R fs' -> get (parent_of t) fs' = Some (NDir d) -> Q () fs') ->
  wp en (mkdir_parents (parent_of t)) Q E C fs.
Proof.
  intros Ht HS HT HQ.
  assert (t ∈ metadata_files a s) as Hm by (unfold metadata_files; set_solver).
  destruct (mkdirs_then_dir _ _ (st_dirs HS _ Hm)) as (fs1 & d & Hmk & Hd).
  assert (St ch T I R fs1) as HS1.
  { eapply St_wrote_other; [done|done|exact Ht|exact HS|by apply wrote_mkdirs|].
    rewrite (get_mkdirs_parent t fs fs1); [|by apply (metadata_vis a s Hs)|done].
    rewrite !elem_of_cons in Ht.
    destruct Ht as [->|[->|[]%not_elem_of_nil]]; apply HS. }
  eapply (wp_effect_ok _ _ _ _ _ _ _ fs1); [|exact HT|done|done|by eapply HQ].
  unfold os_op. by rewrite Hmk.
Qed.

(** A write of a file at an event or lock path. *)
Lemma put_metadata t c d ch T I R fs :
  t ∈ [EV a s; LOCK a s] -> St ch T I R fs -> get (parent_of t) fs = Some (NDir d) ->
  exists fs', put t (NFile c) (Some fs) = Some fs' /\ St ch T I R fs'.
Proof.
  intros Ht HS Hd.
  assert (t ∈ metadata_files a s) as Hm by (unfold metadata_files; set_solver).
  assert (t <> []) as Hne by by apply (metadata_vis a s Hs).
  destruct (put_is_Some (parent_of t) (name_of t) (NFile c) fs d Hd) as [fs' Hput].
  assert (wrote t fs fs') as Hw by (eapply wrote_put; [done|by left|exact Hput]).
  rewrite <- parent_name in Hput by done. exists fs'. split; [done|].
  eapply St_wrote_other; [done|done|exact Ht|exact HS|done|].
  by rewrite (get_put_eq _ _ _ _ Hput).
Qed.

Lemma wp_append_event ev ch T I R fs (Q : unit -> node -> Prop) E C :
  St ch T I R fs -> tolerates en (St ch T I R) E C ->
  (forall fs', St ch T I R fs' -> Q () fs') ->
  wp en (_append_event ev (Some a) (Some s)) Q E C fs.
Proof.
  intros HS HT HQ. unfold _append_event. rewrite event_path_ok.
  apply wp_bind, wp_of_result, wp_bind.
  eapply (wp_mkdir_metadata (EV a s)); [set_solver|exact HS|done|].
  clear fs HS. intros fs d HS Hd. apply wp_bind, wp_time. intros t.
  assert (forall l, exists fs', put (EV a s) (NFile (CLines l)) (Some fs) = Some fs'
            /\ St ch T I R fs') as Hput.
  { intros l. eapply put_metadata; [set_solver|exact HS|exact Hd]. }
  pose proof (st_ev HS) as Hev.
  set (rec := dset _ _ _).
  assert (exists fs', os_op "append" (fun fs0 => match get (EV a s) fs0 with
            | None => put (EV a s) (NFile (CLines [rec])) (Some fs0)
            | Some (NFile (CLines l)) => put (EV a s) (NFile (CLines (l ++ [rec]))) (Some fs0)
            | Some (NFile _) => put (EV a s) (NFile (CLines [rec])) (Some fs0)
            | _ => None end) fs = Ok fs' /\ St ch T I R fs') as (fs' & Hf & HS').
  { unfold os_op. destruct (get (EV a s) fs) as [[|[]| | | |]|]; try done;
      match goal with |- context [put _ (NFile (CLines ?l))] =>
        destruct (Hput l) as (fs' & -> & ?) end; eauto. }
  eapply (wp_effect_ok _ _ _ _ _ _ _ fs'); [exact Hf|exact HT|done|done|by apply HQ].
Qed.

Lemma wp_clear_transaction ch T I R fs (Q : unit -> node -> Prop) E C :
  St ch T I R fs -> file_or_none T ->
  tolerates en (fun fs' => St ch T I R fs' \/ St ch None I R fs') E C ->
  (forall fs', St ch None I R fs' -> Q () fs') ->
  wp en (_clear_transaction a s) Q E C fs.
Proof.
  intros HS HTf HT HQ. unfold _clear_transaction. rewrite transaction_path_ok.
  apply wp_bind, wp_of_result.
  assert (exists fs', os_op "unlink" (fun fs => match get (TXN a s) fs with
            None => Some fs | Some _ => unlink (TXN a s) fs end) fs = Ok fs'
            /\ St ch None I R fs') as (fs' & Hf & HS').
  { unfold os_op. pose proof (st_txn HS) as Htx. destruct (get (TXN a s) fs) as [n|] eqn:En.
    - subst T. destruct n as [|c| | | |]; try done.
      rewrite (unlink_leaf _ _ _ En eq_refl).
      destruct (del_is_Some [".allox"; "transactions"; a] (s +:+ ".json") fs _ En)
        as [fs' Hd0].
      assert (del (TXN a s) fs = Some fs') as Hd by exact Hd0. rewrite Hd. eexists. split; [done|].
      eapply St_wrote_txn; [done|done|exact HS| |by eapply get_del_eq|done].
      apply (wrote_del (TXN a s) (name_of (TXN a s))); [by left|exact Hd].
    - subst T. eauto. }
  eapply (wp_effect_ok _ _ _ _ _ _ _ fs'); [exact Hf|exact HT|by left|by right|by apply HQ].
Qed.

Lemma wp_session_lock {A} (body : M A) ch T I R fs Q E C :
  St ch T I R fs -> tolerates en (St ch T I R) E C ->
  (forall fs', St ch T I R fs' -> wp en body Q E C fs') ->
  wp en (_session_lock a s body) Q E C fs.
Proof.
  intros HS HT Hb. unfold _session_lock. rewrite !validate_id_valid by done.
  apply wp_bind, wp_of_result, wp_bind, wp_of_result, wp_holding. cbv zeta.
  apply wp_bind. change [".allox"; "locks"; a; s +:+ ".lock"] with (LOCK a s).
  eapply (wp_mkdir_metadata (LOCK a s)); [set_solver|exact HS|done|].
  clear fs HS. intros fs d HS Hd. apply wp_bind.
  assert (exists fs', os_op "open" (fun fs => match get (LOCK a s) fs with
            | None => put (LOCK a s) (NFile (CRaw EmptyString)) (Some fs)
            | Some (NFile _) => Some fs | _ => None end) fs = Ok fs'
            /\ St ch T I R fs') as (fs' & Hf & HS').
  { unfold os_op. pose proof (st_lock HS) as Hl.
    destruct (get (LOCK a s) fs) as [[]|]; try done; [eauto|].
    destruct (put_metadata (LOCK a s) (CRaw EmptyString) d ch T I R fs)
      as (fs' & -> & ?); [set_solver|done|done|eauto]. }
  eapply (wp_effect_ok _ _ _ _ _ _ _ fs'); [exact Hf|exact HT|done|done|by apply Hb].
Qed.

(** ** Reading *)

Lemma wp_query_exists {A} p o (k : bool -> M A) Q E C fs :
  get p fs = o -> plain o ->
  wp en (k (match o with Some _ => true | None => false end)) Q E C fs ->
  wp en (e ← query (path_exists p); k e) Q E C fs.
Proof.
  intros Hp Ho H. apply wp_bind, wp_query. by rewrite (path_exists_plain _ _ _ Hp Ho).
Qed.

Lemma wp_require_managed p label ch (Q : unit -> node -> Prop) E C fs :
  get p fs = Some (NDir ch) -> Q () fs ->
  wp en (_require_managed_directory root p label) Q E C fs.
Proof.
  intros Hp HQ. unfold _require_managed_directory. apply wp_bind, wp_query.
  rewrite (managed_directory_dir _ _ _ Hp). by apply wp_raise_when.
Qed.

Lemma wp_read_json p v (I : node -> Prop) (Q : pyval -> node -> Prop) E C fs :
  get p fs = Some (NFile (CJson v)) -> tolerates en I E C -> I fs -> Q v fs ->
  wp en (read_json p) Q E C fs.
Proof.
  intros Hp HT HI HQ. unfold read_json. apply wp_bind.
  eapply (wp_effect_ok _ _ _ _ _ _ _ fs); [done|exact HT|done|done|].
  apply wp_bind, wp_query. rewrite stat_plain by by rewrite Hp. rewrite Hp. by apply wp_ret.
Qed.

Lemma wp_load_object p m1 m2 m3 o (I : node -> Prop) (Q : option dict -> node -> Prop) E C fs :
  get p fs = match o with Some d => jfile d | None => None end ->
  tolerates en I E C -> I fs -> Q o fs ->
  wp en (load_object p m1 m2 m3) Q E C fs.
Proof.
  intros Hp HT HI HQ. unfold load_object.
  destruct o as [d|]; eapply wp_query_exists; [exact Hp|done| |exact Hp|done|by apply wp_ret].
  simpl. apply wp_bind, wp_query. rewrite (managed_file_json _ _ _ Hp).
  apply wp_bind, wp_raise_when; [done|]. intros _. apply wp_bind.
  eapply wp_try_raise; [|exact HT|].
  - intros e k. destruct e; simpl; intros [= <-]; eauto.
  - eapply wp_read_json; [exact Hp|by apply tolerates_failing|done|by apply wp_ret].
Qed.

Lemma wp_load_transaction o ch I R fs (Q : option dict -> node -> Prop) E C :
  St ch (match o with Some d => jfile d | None => None end) I R fs ->
  tolerates en (St ch (match o with Some d => jfile d | None => None end) I R) E C ->
  Q o fs -> wp en (_load_transaction a s) Q E C fs.
Proof.
  intros HS HT HQ. unfold _load_transaction. rewrite transaction_path_ok.
  apply wp_bind, wp_of_result. eapply wp_load_object; [apply (st_txn HS)|exact HT|done|done].
Qed.

Lemma checkpoint_names_St cps ch T I R fs :
  St ch T I R fs -> ch !! "checkpoints" = Some (NDir cps) ->
  checkpoint_names (CPS a s) fs = dir_names cps.
Proof.
  intros HS Hc.
  assert (get (CPS a s) fs = Some (NDir cps)) as Hcps.
  { unfold CPS. rewrite (get_entry a s base _ _ _ _ _ _ [] HS), Hc. done. }
  apply set_eq. intros x. unfold checkpoint_names, child_names.
  rewrite stat_plain by by rewrite Hcps. rewrite Hcps.
  assert (get (CPS a s ++ [x]) fs = cps !! x) as Hx.
  { rewrite get_app, Hcps. simpl. by destruct (cps !! x). }
  rewrite elem_of_list_to_set, elem_of_dir_names, list_elem_of_In, filter_In,
    <- list_elem_of_In, managed_directory_eq, Hx. split.
  - intros [_ Hm]. destruct (cps !! x) as [n|]; [|done]. by exists n.
  - intros (n & Hn & Hd). rewrite Hn. split; [|done].
    apply list_elem_of_fmap. exists (x, n). split; [done|]. by apply elem_of_map_to_list.
Qed.

Lemma wp_actual_checkpoint_ids cps ch T I R fs (Q : gset string -> node -> Prop) E C :
  St ch T I R fs -> ch !! "checkpoints" = Some (NDir cps) -> Q (dir_names cps) fs ->
  wp en (_actual_checkpoint_ids root a s) Q E C fs.
Proof.
  intros HS Hc HQ. unfold _actual_checkpoint_ids. rewrite checkpoints_dir_ok.
  apply wp_bind, wp_of_result.
  assert (get (CPS a s) fs = Some (NDir cps)) as Hcps.
  { unfold CPS. rewrite (get_entry a s base _ _ _ _ _ _ [] HS), Hc. done. }
  eapply wp_query_exists; [exact Hcps|done|]. simpl.
  apply wp_bind. eapply wp_require_managed; [exact Hcps|].
  apply wp_query. by rewrite (checkpoint_names_St _ _ _ _ _ _ HS Hc).
Qed.

(** Loading the index gives the reconciled index, and leaves it in the file. *)
Lemma wp_load_index_saved ix cps ch T I R fs (Q : index -> node -> Prop) E C :
  St ch T I R fs -> file_or_none T -> ch !! "checkpoints" = Some (NDir cps) ->
  loads (dir_names cps) ix I ->
  tolerates en (fun fs' => exists I', loads (dir_names cps) ix I' /\ St ch T I' R fs') E C ->
  (forall I' fs', loads (dir_names cps) ix I' -> saved ix I' -> St ch T I' R fs' -> Q ix fs') ->
  wp en (_load_index root a s) Q E C fs.
Proof.
  intros HS HTf Hc HL HT HQ. unfold _load_index. rewrite index_path_ok.
  apply wp_bind, wp_of_result, wp_bind.
  assert (exists ix0, (reconcile ix0 (dir_names cps)).1 = ix /\ (I <> None -> saved ix0 I) /\
    forall (Q' : index -> node -> Prop), Q' ix0 fs -> wp en (read_index (IDX a s)) Q'
      (failing en (St ch T I R)) (crashing en (St ch T I R)) fs) as (ix0 & Hrec & HI & Hread).
  { unfold read_index. pose proof (st_idx HS) as Hi.
    destruct HL as [[-> ->]|(d & ix0 & -> & Hd & ->)].
    - exists empty_index. split; [done|]. split; [done|]. intros Q' HQ'.
      eapply wp_query_exists; [exact Hi|done|by apply wp_ret].
    - exists ix0. split; [done|]. split; [by exists d|]. intros Q' HQ'.
      eapply wp_query_exists; [exact Hi|done|]. simpl. apply wp_bind.
      eapply wp_read_json; [exact Hi|by apply tolerates_failing|done|].
      apply wp_of_result. by rewrite Hd. }
  eapply (wp_try_raise _ _ _ (St ch T I R)).
  - intros e k. destruct e; simpl; intros [= <-]; eauto.
  - eapply tolerates_mono; [|exact HT]. intros fs' ?. by exists I.
  - apply wp_bind, Hread, wp_bind. eapply wp_actual_checkpoint_ids; [exact HS|exact Hc|].
    apply wp_ret.
    eapply wp_query_exists; [apply (st_idx HS)| |].
    { apply loads_file in HL. by destruct I as [[]|]. }
    destruct (_ || _) eqn:Eb.
    + rewrite Hrec. apply wp_bind. eapply wp_save_index; [exact HS|done|by eapply loads_file| |].
      * eapply tolerates_mono; [|exact HT]. intros fs' [?|?]; [by exists I|].
        exists (jfile (to_dict ix)). split; [|done]. by eapply loads_stable.
      * intros fs' HS'. apply wp_ret. eapply HQ; [by eapply loads_stable| |exact HS'].
        exists (to_dict ix). by rewrite dict_roundtrip.
    + apply orb_false_iff in Eb as [Eb1 Eb2].
      assert (ix0 = ix) as -> by (rewrite <- Hrec; symmetry; by apply reconcile_unchanged).
      rewrite Hrec. apply wp_bind, wp_ret, wp_ret. eapply HQ; [done| |exact HS].
      apply HI. by intros ->.
Qed.

Lemma wp_load_index ix cps ch T I R fs (Q : index -> node -> Prop) E C :
  St ch T I R fs -> file_or_none T -> ch !! "checkpoints" = Some (NDir cps) ->
  loads (dir_names cps) ix I ->
  tolerates en (fun fs' => exists I', loads (dir_names cps) ix I' /\ St ch T I' R fs') E C ->
  (forall I' fs', loads (dir_names cps) ix I' -> St ch T I' R fs' -> Q ix fs') ->
  wp en (_load_index root a s) Q E C fs.
Proof. intros. eapply wp_load_index_saved; eauto. Qed.

(** ** Subvolumes of the session *)

Lemma entry_get n ch T I R fs : St ch T I R fs -> get (SD a s ++ [n]) fs = ch !! n.
Proof.
  intros HS. rewrite (get_entry a s base _ _ _ _ _ _ [] HS). by destruct (ch !! n).
Qed.

Lemma wp_delete_entry n d ch T I R fs (Q : unit -> node -> Prop) E C :
  St ch T I R fs -> ch !! n = Some (NDir d) ->
  tolerates en (fun fs' => St ch T I R fs' \/ St (delete n ch) T I R fs') E C ->
  (forall fs', St (delete n ch) T I R fs' -> Q () fs') ->
  wp en (delete_subvolume (SD a s ++ [n])) Q E C fs.
Proof.
  intros HS Hn HT HQ. destruct (St_del a s base _ _ _ _ _ _ _ HS Hn) as (fs' & Hd & HS').
  eapply (wp_atomic_ok en _ _ _ _ _ _ fs fs'); [|exact Hd|exact HT|by left|by right|by apply HQ].
  eapply delete_law. by rewrite (entry_get _ _ _ _ _ _ HS).
Qed.

Lemma wp_snapshot_checkpoint c n cps d ch T I R fs ro (Q : unit -> node -> Prop) E C :
  St ch T I R fs -> ch !! "checkpoints" = Some (NDir cps) -> cps !! c = Some (NDir d) ->
  ch !! n = None ->
  tolerates en (fun fs' => St ch T I R fs' \/ St (<[n:=NDir d]> ch) T I R fs') E C ->
  (forall fs', St (<[n:=NDir d]> ch) T I R fs' -> Q () fs') ->
  wp en (snapshot (CPS a s ++ [c]) (SD a s ++ [n]) ro) Q E C fs.
Proof.
  intros HS Hcps Hc Hn HT HQ.
  assert (get (CPS a s ++ [c]) fs = Some (NDir d)) as Hsrc.
  { change (CPS a s ++ [c]) with (SD a s ++ "checkpoints" :: [c]).
    rewrite (get_entry a s base _ _ _ _ _ _ [c] HS), Hcps. simpl. by rewrite Hc. }
  destruct (St_put a s base n [] (NDir d) (NDir d) _ _ _ _ _ HS eq_refl) as (fs' & Hp & HS').
  eapply (wp_atomic_ok en _ _ _ _ _ _ fs fs'); [| |exact HT|by left|by right|by apply HQ].
  - eapply snapshot_law; [exact Hsrc|]. by rewrite (entry_get _ _ _ _ _ _ HS).
  - unfold copy_tree. rewrite Hsrc. exact Hp.
Qed.

Lemma wp_rename_entry n m x ch T I R fs (Q : unit -> node -> Prop) E C :
  renames_safe en -> St ch T I R fs -> ch !! n = Some x -> ch !! m = None -> n <> m ->
  tolerates en (St ch T I R) E C ->
  (forall fs', St (<[m:=x]> (delete n ch)) T I R fs' -> Q () fs') ->
  wp en (rename (SD a s ++ [n]) (SD a s ++ [m])) Q E C fs.
Proof.
  intros Hr HS Hn Hm Hne HT HQ.
  destruct (St_move a s base _ _ _ _ _ _ _ _ HS Hn Hm Hne) as (fs' & Hmv & HS').
  eapply wp_rename_ok; [done|exact Hmv|exact HT|done|by apply HQ].
Qed.

(** A name inside a transaction, checked to stay in the session directory. *)
Lemma wp_subvolume_path name prefix ch T I R fs (Q : path -> node -> Prop) E C :
  St ch T I R fs -> path_name name = name -> starts_with prefix name = true ->
  plain (ch !! name) -> Q (SD a s ++ [name]) fs ->
  wp en (_transaction_subvolume_path (SD a s) (PStr name) prefix) Q E C fs.
Proof.
  intros HS Hn Hp Hpl HQ. unfold _transaction_subvolume_path, _safe_transaction_name.
  assert (SD a s `prefix_of` SD a s ++ [name]) as Hpre by by apply prefix_app_r.
  rewrite Hn, str_eqb_refl, Hp. apply wp_bind, wp_of_result. cbv zeta.
  assert (plain (get (SD a s ++ [name]) fs)) as Hpl' by by rewrite (entry_get _ _ _ _ _ _ HS).
  apply wp_bind, wp_query. unfold confined. rewrite follow_plain by done.
  rewrite follow_plain by by rewrite (st_sd HS).
  rewrite (path_exists_plain _ _ _ (st_sd HS) Logic.I). unfold is_prefix.
  rewrite (bool_decide_eq_true_2 (_ `prefix_of` _)) by exact Hpre.
  apply wp_bind, wp_raise_when; [done|]. intros _.
  apply wp_bind, wp_query. rewrite path_is_symlink_plain by done.
  rewrite parent_of_snoc, bool_decide_eq_true_2 by done.
  apply wp_bind, wp_raise_when; [done|]. intros _. by apply wp_ret.
Qed.
End wps.
