(* ===== verification/Scrub.v ===== *)
(** * Scrubbing runtime entries

    [scrub_all] is the specification of [_scrub_runtime_entries]: the tree
    without its sockets and FIFOs.  The facts below relate it to the entries
    [walk] lists and to the removal of one entry at a time, so that a scrub
    interrupted anywhere leaves a tree with the same specification. *)

From Stdlib Require Import Ascii.
From Stdlib Require String.
From stdpp Require Import gmap.
From S2P Require Import Prelude PyVal FileSystem World StoreFiles Store Ids CheckpointIndex Backend.
From S2P Require Import SessionState SessionOps SessionWp.
Open Scope Z_scope.

Fixpoint scrub_all (n : node) : node :=
  match n with
  | NDir ch => NDir (omap (fun m => if runtime_node m then None else Some (scrub_all m)) ch)
  | _ => n
  end.

Definition TMP : string := ".allox-tmp".

(** A workspace whose runtime directory has been scrubbed. *)
Definition scrub_tmp (n : node) : node :=
  match n with NDir ch => NDir (alter scrub_all TMP ch) | _ => n end.

(** ** Induction on trees *)

Fixpoint depth (n : node) : nat :=
  match n with
  | NDir ch => S (map_fold (fun _ m acc => Nat.max (depth m) acc) 0%nat ch)
  | _ => 0%nat
  end.

Lemma map_fold_max (f : node -> nat) (ch : gmap string node) c m :
  ch !! c = Some m -> (f m <= map_fold (fun _ m acc => Nat.max (f m) acc) 0%nat ch)%nat.
Proof.
  revert c m. apply (map_fold_weak_ind
    (fun acc ch => forall c m, ch !! c = Some m -> (f m <= acc)%nat)).
  - intros c m H. by rewrite lookup_empty in H.
  - intros i x ch' r Hi IH c m [[<- <-]|[Hne H]]%lookup_insert_Some; [lia|].
    specialize (IH _ _ H). lia.
Qed.

Lemma node_induction (P : node -> Prop) :
  (forall ch, (forall c m, ch !! c = Some m -> P m) -> P (NDir ch)) ->
  (forall n, dir_node n = false -> P n) -> forall n, P n.
Proof.
  intros Hd Hl n. assert (exists k, (depth n < k)%nat) as [k Hk] by (exists (S (depth n)); lia).
  revert n Hk. induction k as [|k IH]; intros n Hk; [lia|].
  destruct n as [ch| | | | |]; try (by apply Hl).
  apply Hd. intros c m Hc. apply IH. simpl in Hk.
  pose proof (map_fold_max depth ch c m Hc). lia.
Qed.

(** ** Removing one runtime entry *)

Lemma del_runtime_entry r t t' n q x :
  get r t = Some n -> runtime_node n = true -> del r t = Some t' -> get q t' = Some x ->
  exists x0, get q t = Some x0 /\ runtime_node x = runtime_node x0.
Proof.
  intros Hr Hn Hd Hq. destruct (decide (r `prefix_of` q)) as [[w ->]|Hrq].
  { by rewrite (get_del_below _ _ _ _ Hd) in Hq. }
  destruct (decide (q `prefix_of` r)) as [Hqr|Hqr].
  2:{ exists x. split; [|done]. rewrite <- Hq. symmetry. by eapply get_del_ne. }
  assert (exists w, r = q ++ w /\ w <> []) as (w & -> & Hw).
  { destruct Hqr as [w ->]. exists w. split; [done|]. intros ->. rewrite app_nil_r in Hrq. done. }
  assert (exists ch, get q t' = Some (NDir ch)) as [ch' Hch'].
  { eapply del_ancestor; [exact Hd|by apply prefix_app_r|].
    intros E. apply (f_equal length) in E. rewrite length_app in E.
    destruct w; [done|simpl in E; lia]. }
  rewrite get_app in Hr. destruct (get q t) as [y|]; [|done]. exists y. split; [done|].
  simpl in Hr. destruct w; [done|]. destruct y; try done. simpl.
  assert (x = NDir ch') as -> by congruence. done.
Qed.

Lemma scrub_all_del r t t' n :
  r <> [] -> get r t = Some n -> runtime_node n = true -> del r t = Some t' ->
  scrub_all t' = scrub_all t.
Proof.
  revert t t'. induction r as [|c r IH]; intros t t' Hr Hg Hn Hd; [done|].
  apply del_cons_Some in Hd as (ch & -> & [[-> ->]|(Hne & m & m' & Hm & Hd & ->)]).
  - simpl in Hg. apply bind_Some in Hg as (m & Hm & [= ->]).
    simpl. f_equal. apply (map_eq (M := gmap string)). intros i. rewrite !lookup_omap.
    destruct (decide (c = i)) as [->|Hci].
    + rewrite lookup_delete_eq, Hm. simpl. by rewrite Hn.
    + by rewrite lookup_delete_ne.
  - simpl in Hg. rewrite Hm in Hg. simpl in Hg.
    simpl. f_equal. apply (map_eq (M := gmap string)). intros i. rewrite !lookup_omap.
    destruct (decide (c = i)) as [->|Hci]; [|by rewrite lookup_insert_ne].
    rewrite lookup_insert_eq, Hm. simpl.
    assert (dir_node m = true /\ dir_node m' = true) as [Hdm Hdm'].
    { destruct r as [|d r]; [done|]. apply del_cons_Some in Hd as (ch2 & -> & Hor).
      split; [done|]. by destruct Hor as [[_ ->]|(_ & ? & ? & _ & _ & ->)]. }
    assert (runtime_node m = false /\ runtime_node m' = false) as [-> ->]
      by (by destruct m, m').
    by rewrite (IH m m').
Qed.

Lemma scrub_all_clean t :
  (forall r x, r <> [] -> get r t = Some x -> runtime_node x = false) -> scrub_all t = t.
Proof.
  induction t as [ch IH|n Hn] using node_induction; intros Hc; [|by destruct n].
  simpl. f_equal. apply (map_eq (M := gmap string)). intros i. rewrite lookup_omap.
  destruct (ch !! i) as [m|] eqn:Hi; [|done]. simpl.
  rewrite (Hc [i] m); [|done|by simpl; rewrite Hi].
  rewrite (IH i m Hi); [done|]. intros r x Hr Hx. apply (Hc (i :: r)); [done|].
  simpl. by rewrite Hi.
Qed.

Lemma scrub_all_idem t : scrub_all (scrub_all t) = scrub_all t.
Proof.
  induction t as [ch IH|n Hn] using node_induction; [|by destruct n].
  simpl. f_equal. apply (map_eq (M := gmap string)). intros i. rewrite !lookup_omap.
  destruct (ch !! i) as [m|] eqn:Hi; [|done]. simpl.
  destruct (runtime_node m) eqn:Hm; [done|]. simpl.
  rewrite (IH i m Hi). by destruct m.
Qed.

Lemma scrub_tmp_idem x : scrub_tmp (scrub_tmp x) = scrub_tmp x.
Proof.
  destruct x as [ch| | | | |]; try done. simpl. f_equal.
  apply (map_eq (M := gmap string)). intros i. destruct (decide (i = TMP)) as [->|].
  - rewrite !lookup_alter_eq. destruct (ch !! TMP); simpl; [|done]. by rewrite scrub_all_idem.
  - by rewrite !lookup_alter_ne.
Qed.

(** ** The entries that are visited *)

Lemma walk_below (ch : gmap string node) r :
  r ∈ map_fold (fun name m acc => acc ++ ((fun r => name :: r) <$> walk m)) [] ch <->
  exists c m w, ch !! c = Some m /\ r = c :: w /\ w ∈ walk m.
Proof.
  apply (map_fold_weak_ind (fun acc ch => r ∈ acc <->
    exists c m w, ch !! c = Some m /\ r = c :: w /\ w ∈ walk m)).
  - split; [by intros ?%not_elem_of_nil|]. intros (c & m & w & H & _). by rewrite lookup_empty in H.
  - intros i x m acc Hi IH. rewrite elem_of_app, IH, list_elem_of_fmap. split.
    + intros [(c & n & w & Hc & Hr & Hw)|(w & Hr & Hw)].
      * exists c, n, w. split; [|done]. rewrite lookup_insert_ne; congruence.
      * exists i, x, w. by rewrite lookup_insert_eq.
    + intros (c & n & w & [[<- <-]|[Hne Hc]]%lookup_insert_Some & Hr & Hw); [right|left]; eauto 6.
Qed.

Lemma walk_top (ch : gmap string node) r :
  r ∈ (fun kv => [kv.1]) <$>
    (List.filter (fun kv => dir_node kv.2) (map_to_list ch) ++
     List.filter (fun kv => negb (dir_node kv.2)) (map_to_list ch)) <->
  exists c, r = [c] /\ is_Some (ch !! c).
Proof.
  rewrite list_elem_of_fmap. split.
  - intros ([c m] & -> & Hin). exists c. split; [done|]. exists m.
    apply elem_of_app in Hin as [Hin|Hin]; apply list_elem_of_In, filter_In in Hin as [Hin _];
      by apply list_elem_of_In, elem_of_map_to_list in Hin.
  - intros (c & -> & m & Hc). exists (c, m). split; [done|].
    apply elem_of_map_to_list, list_elem_of_In in Hc. apply elem_of_app.
    destruct (dir_node m) eqn:E; [left|right]; apply list_elem_of_In, filter_In;
      (split; [done|]); simpl; by rewrite E.
Qed.

Lemma elem_of_walk n r : r ∈ walk n <-> r <> [] /\ is_Some (get r n).
Proof.
  revert r. induction n as [ch IH|n Hn] using node_induction; intros r.
  2:{ destruct n; try done; simpl; (split; [by intros ?%not_elem_of_nil|]);
        intros [Hr [x Hx]]; by destruct r. }
  simpl walk. rewrite elem_of_app, walk_top, walk_below. split.
  - intros [(c & -> & m & Hm)|(c & m & w & Hm & -> & Hw)].
    + split; [done|]. simpl. rewrite Hm. by eexists.
    + split; [done|]. simpl. rewrite Hm. by apply (IH _ _ Hm).
  - intros [Hr [x Hx]]. destruct r as [|c w]; [done|]. simpl in Hx.
    apply bind_Some in Hx as (m & Hm & Hx). destruct w as [|d w].
    + left. eauto.
    + right. exists c, m, (d :: w). split; [done|]. split; [done|]. apply (IH _ _ Hm). eauto.
Qed.

Lemma NoDup_fmap_key (f : node -> bool) (l : list (string * node)) :
  NoDup l.*1 -> NoDup ((fun kv => [kv.1]) <$> (List.filter (fun kv => f kv.2) l ++
                                   List.filter (fun kv => negb (f kv.2)) l)).
Proof.
  intros Hl. assert (List.filter (fun kv => f kv.2) l ++
                     List.filter (fun kv => negb (f kv.2)) l ≡ₚ l) as Hp.
  { clear Hl. induction l as [|kv l IH]; [done|]. simpl. destruct (f kv.2); simpl.
    - by rewrite IH.
    - by rewrite <- Permutation_middle, IH. }
  rewrite Hp. replace ((fun kv : string * node => [kv.1]) <$> l) with ((fun k => [k]) <$> l.*1)
    by (by rewrite <- list_fmap_compose).
  apply NoDup_fmap_2; [by intros ? ? [=]|done].
Qed.

Lemma walk_NoDup n : NoDup (walk n).
Proof.
  induction n as [ch IH|n Hn] using node_induction; [|by destruct n; try constructor].
  simpl walk. apply NoDup_app. split; [|split].
  - apply NoDup_fmap_key, NoDup_fst_map_to_list.
  - intros r (c & -> & _)%walk_top (c' & m & w & _ & [= <- <-] & Hw)%walk_below.
    by apply elem_of_walk in Hw as [? _].
  - revert IH. set (f := fun name m (acc : list path) => acc ++ ((fun r => name :: r) <$> walk m)).
    assert ((forall c m, ch !! c = Some m -> NoDup (walk m)) ->
      NoDup (map_fold f [] ch) /\
      forall r, r ∈ map_fold f [] ch -> exists c m w, ch !! c = Some m /\ r = c :: w)
      as H; [|intros IH; exact (proj1 (H IH))].
    apply (map_fold_weak_ind (fun acc ch =>
      (forall c m, ch !! c = Some m -> NoDup (walk m)) -> NoDup acc /\
      forall r, r ∈ acc -> exists c m w, ch !! c = Some m /\ r = c :: w)).
    { intros _. split; [constructor|by intros r ?%not_elem_of_nil]. }
    intros i x m acc Hi IH Hm. destruct IH as [IH1 IH2].
    { intros c n Hc. apply (Hm c). rewrite lookup_insert_ne; congruence. }
    unfold f. split.
    + apply NoDup_app. split; [done|]. split.
      * intros r Hr (w & -> & _)%list_elem_of_fmap.
        destruct (IH2 _ Hr) as (c & n & w' & Hc & [= <- <-]). congruence.
      * apply NoDup_fmap_2; [by intros ? ? [=]|]. apply (Hm i). by rewrite lookup_insert_eq.
    + intros r [Hr|(w & -> & _)%list_elem_of_fmap]%elem_of_app.
      * destruct (IH2 _ Hr) as (c & n & w & Hc & ->). exists c, n, w.
        split; [|done]. rewrite lookup_insert_ne; congruence.
      * exists i, x, w. by rewrite lookup_insert_eq.
Qed.

(** * The scrub of a session's runtime directory

    [_scrub_runtime_entries] on [current/.allox-tmp], when that is not a
    symbolic link: it returns with the directory scrubbed, and wherever it is
    interrupted the workspace has the same specification [scrub_tmp]. *)

(** The runtime directory of a workspace is not a symbolic link. *)
Definition tmp_plain (x : node) : Prop := plain (get [TMP] x).

(** [x'] is [x] with some of its runtime entries removed. *)
Definition scrub_between (x x' : node) : Prop :=
  (exists cc, x' = NDir cc) /\ tmp_plain x' /\ scrub_tmp x' = scrub_tmp x.

Section scrub.
Context `{HB : SnapshotBackend} `{!BackendLaws HB}.
Context (a s : string) (Ha : ID_RE a = true) (Hs : ID_RE s = true) (base : node).
Context (en : env).
Context (ch : gmap string node) (cc : gmap string node).
Context (T I : option node) (R : string -> option node).

Notation St := (St a s base).

(** The session whose workspace has [t] as runtime directory. *)
Definition with_tmp (t : node) : gmap string node :=
  <["current" := NDir (<[TMP := t]> cc)]> ch.

Definition tmp_top : path := CUR a s ++ [TMP].

Lemma get_tmp t r fs : St (with_tmp t) T I R fs -> get (tmp_top ++ r) fs = get r t.
Proof.
  intros HS. change (tmp_top ++ r) with (SD a s ++ "current" :: TMP :: r).
  rewrite (get_entry a s base _ _ _ _ _ _ _ HS). unfold with_tmp.
  rewrite lookup_insert_eq. simpl. by rewrite lookup_insert_eq.
Qed.

Lemma del_tmp t r t' fs :
  St (with_tmp t) T I R fs -> r <> [] -> del r t = Some t' ->
  exists fs', del (tmp_top ++ r) fs = Some fs' /\ St (with_tmp t') T I R fs'.
Proof.
  intros HS Hr Hd.
  destruct (St_del_below a s base "current" (TMP :: r) (NDir (<[TMP := t]> cc))
    (NDir (<[TMP := t']> cc)) _ _ _ _ _ HS) as (fs' & Hd' & HS'); [| done| |].
  - unfold with_tmp. by rewrite lookup_insert_eq.
  - destruct r as [|c r]; [done|]. cbn [del]. rewrite lookup_insert_eq. simpl in *.
    rewrite Hd. simpl. by rewrite insert_insert_eq.
  - exists fs'. split; [exact Hd'|]. unfold with_tmp in *. by rewrite insert_insert_eq in HS'.
Qed.

Lemma wp_scrub_entries es t (Q : list string -> node -> Prop) E C fs :
  St (with_tmp t) T I R fs -> NoDup es ->
  (forall r, r ∈ es -> r <> [] /\ is_Some (get r t)) ->
  tolerates en (fun fs' => exists t', scrub_all t' = scrub_all t /\ St (with_tmp t') T I R fs') E C ->
  (forall t' removed fs', St (with_tmp t') T I R fs' -> scrub_all t' = scrub_all t ->
     (forall r x, get r t' = Some x -> exists x0, get r t = Some x0 /\
                    runtime_node x = runtime_node x0) ->
     (forall r x, r ∈ es -> get r t' = Some x -> runtime_node x = false) ->
     Q removed fs') ->
  wp en (scrub_entries tmp_top es) Q E C fs.
Proof.
  revert t Q fs. induction es as [|r es IH]; intros t Q fs HS Hnd Hes HT HQ;
    cbn [scrub_entries].
  { apply wp_ret. eapply (HQ t); [done|done|eauto|]. by intros r x ?%not_elem_of_nil. }
  apply NoDup_cons in Hnd as [Hr Hnd].
  destruct (Hes r) as [Hne [n Hn]]; [left|].
  apply wp_bind, wp_query. rewrite (get_tmp t r fs HS), Hn.
  destruct (runtime_node n) eqn:Ern.
  - assert (exists t1, del r t = Some t1) as [t1 Hd].
    { assert (exists d c, r = d ++ [c]) as (d & c & ->).
      { exists (removelast r), (List.last r EmptyString). by apply app_removelast_last. }
      by eapply del_is_Some. }
    destruct (del_tmp t r t1 fs HS Hne Hd) as (fs1 & Hd1 & HS1).
    assert (scrub_all t1 = scrub_all t) as Hsc1 by by eapply scrub_all_del.
    apply wp_bind. eapply (wp_effect_ok _ _ _ _ _ _ _ fs1); [|exact HT|by exists t|by exists t1|].
    { unfold os_op. rewrite (unlink_leaf _ n);
        [by rewrite Hd1|by rewrite (get_tmp t)|by destruct n]. }
    apply wp_bind, (IH t1); [done|done| | |].
    + intros q Hq. destruct (Hes q) as [Hqne [y Hy]]; [by right|]. split; [done|].
      assert (~ r `prefix_of` q) as Hrq.
      { intros [w ->]. rewrite get_app, Hn in Hy. destruct w as [|c w].
        - rewrite app_nil_r in Hq. done.
        - by destruct n. }
      destruct (decide (q `prefix_of` r)) as [Hqr|Hqr].
      * destruct (del_ancestor _ q _ _ Hd Hqr) as [d Hd']; [|eauto]. intros ->. by apply Hrq.
      * rewrite (get_del_ne _ _ _ _ Hd) by done. eauto.
    + eapply tolerates_mono; [|exact HT]. intros fs' (t' & Ht' & HS'). exists t'.
      split; [congruence|done].
    + intros t' removed fs' HS' Hsc Hmono Hclean. apply wp_ret, (HQ t'); [done|congruence| |].
      * intros q x Hx. destruct (Hmono _ _ Hx) as (x1 & Hx1 & ->).
        eapply del_runtime_entry; [exact Hn|done|exact Hd|done].
      * intros q x [->|Hq]%elem_of_cons Hx; [|by eapply Hclean].
        destruct (Hmono _ _ Hx) as (x1 & Hx1 & _). by rewrite (get_del_eq _ _ _ Hd) in Hx1.
  - apply (IH t); [done|done| |done|].
    + intros q Hq. apply Hes. by right.
    + intros t' removed fs' HS' Hsc Hmono Hclean. apply (HQ t'); [done..|].
      intros q x [->|Hq]%elem_of_cons Hx; [|by eapply Hclean].
      destruct (Hmono _ _ Hx) as (x1 & Hx1 & ->). congruence.
Qed.
End scrub.

Section scrub_session.
Context `{HB : SnapshotBackend} `{!BackendLaws HB}.
Context (a s : string) (Ha : ID_RE a = true) (Hs : ID_RE s = true) (base : node).
Context (en : env).

Notation St := (St a s base).

Lemma scrub_between_refl cc : tmp_plain (NDir cc) -> scrub_between (NDir cc) (NDir cc).
Proof. split; [eauto|]. by split. Qed.

Lemma scrub_between_trans x y z :
  scrub_between x y -> scrub_between y z -> scrub_between x z.
Proof. intros (? & ? & ?) (? & ? & ?). split; [done|]. split; [done|congruence]. Qed.

Lemma scrub_tmp_insert cc t :
  scrub_tmp (NDir (<[TMP := t]> cc)) = NDir (<[TMP := scrub_all t]> cc).
Proof. simpl. f_equal. by rewrite alter_insert_eq. Qed.

Lemma scrub_all_plain t : plain (Some (scrub_all t)) <-> plain (Some t).
Proof. by destruct t. Qed.

Lemma scrub_between_tmp cc t t' :
  cc !! TMP = Some t -> tmp_plain (NDir cc) -> scrub_all t' = scrub_all t ->
  scrub_between (NDir cc) (NDir (<[TMP := t']> cc)).
Proof.
  intros Ht Hpl Hsc. split; [eauto|]. split.
  - unfold tmp_plain. simpl. rewrite lookup_insert_eq. simpl.
    apply (scrub_all_plain t'). rewrite Hsc. apply scrub_all_plain.
    unfold tmp_plain in Hpl. simpl in Hpl. by rewrite Ht in Hpl.
  - rewrite scrub_tmp_insert, Hsc. simpl. f_equal.
    apply (map_eq (M := gmap string)). intros i. destruct (decide (i = TMP)) as [->|].
    + by rewrite lookup_insert_eq, lookup_alter_eq, Ht.
    + by rewrite lookup_insert_ne, lookup_alter_ne.
Qed.

(** The scrub of the current workspace. *)
Lemma wp_scrub ch x T I R fs (Q : list string -> node -> Prop) E C :
  St ch T I R fs -> ch !! "current" = Some (NDir x) -> tmp_plain (NDir x) ->
  tolerates en (fun fs' => exists x', scrub_between (NDir x) x' /\
                    St (<["current" := x']> ch) T I R fs') E C ->
  (forall x' removed fs', scrub_between (NDir x) x' -> x' = scrub_tmp (NDir x) ->
     St (<["current" := x']> ch) T I R fs' -> Q removed fs') ->
  wp en (_scrub_runtime_entries (CUR a s ++ [TMP])) Q E C fs.
Proof.
  intros HS Hcur Hpl HT HQ. unfold _scrub_runtime_entries.
  assert (get (CUR a s ++ [TMP]) fs = x !! TMP) as Hget.
  { change (CUR a s ++ [TMP]) with (SD a s ++ "current" :: [TMP]).
    rewrite (get_entry a s base _ _ _ _ _ _ _ HS), Hcur. simpl. by destruct (x !! TMP). }
  assert (plain (get (CUR a s ++ [TMP]) fs)) as Hpl'.
  { rewrite Hget. unfold tmp_plain in Hpl. simpl in Hpl. by destruct (x !! TMP). }
  apply wp_bind, wp_query, wp_bind, wp_query. rewrite follow_plain, stat_plain by done.
  rewrite Hget. destruct (x !! TMP) as [t|] eqn:Ht.
  - assert (with_tmp ch x t = ch) as Hwt.
    { unfold with_tmp. rewrite (insert_id x) by done. by apply insert_id. }
    apply (wp_scrub_entries a s base en ch x T I R (walk t) t).
    + by rewrite Hwt.
    + apply walk_NoDup.
    + intros r Hr. by apply elem_of_walk in Hr.
    + eapply tolerates_mono; [|exact HT]. intros fs' (t' & Hsc & HS').
      exists (NDir (<[TMP := t']> x)). split; [|done]. by apply (scrub_between_tmp _ t).
    + intros t' removed fs' HS' Hsc Hmono Hclean.
      apply (HQ (NDir (<[TMP := t']> x))); [by apply (scrub_between_tmp _ t)| |exact HS'].
      assert (t' = scrub_all t) as ->.
      { rewrite <- Hsc. symmetry. apply scrub_all_clean. intros r y Hr Hy.
        eapply Hclean; [|exact Hy]. apply elem_of_walk. split; [done|].
        destruct (Hmono _ _ Hy) as (y0 & ? & _). eauto. }
      simpl. f_equal. apply (map_eq (M := gmap string)). intros i.
      destruct (decide (i = TMP)) as [->|].
      * by rewrite lookup_insert_eq, lookup_alter_eq, Ht.
      * by rewrite lookup_insert_ne, lookup_alter_ne.
  - apply wp_ret. assert (scrub_tmp (NDir x) = NDir x) as Hid.
    { simpl. f_equal. apply (map_eq (M := gmap string)). intros i.
      destruct (decide (i = TMP)) as [->|].
      * by rewrite lookup_alter_eq, Ht.
      * by rewrite lookup_alter_ne. }
    apply (HQ (NDir x)); [by apply scrub_between_refl|done|].
    by rewrite insert_id.
Qed.

(** The conditional scrub of a rollback: the workspace is scrubbed when asked. *)
Definition scrubbed (flag : bool) (x : node) : node := if flag then scrub_tmp x else x.

Lemma scrubbed_between flag cc :
  tmp_plain (NDir cc) -> scrub_between (NDir cc) (scrubbed flag (NDir cc)).
Proof.
  intros H. destruct flag; [|by apply scrub_between_refl].
  split; [by eexists|]. split; [|apply scrub_tmp_idem].
  unfold tmp_plain in *. simpl in *. rewrite lookup_alter_eq.
  destruct (cc !! TMP) as [t|]; [|done]. simpl in *. by apply (scrub_all_plain t).
Qed.

Lemma wp_scrub_if v ch x T I R fs (Q : list string -> node -> Prop) E C :
  St ch T I R fs -> ch !! "current" = Some (NDir x) -> tmp_plain (NDir x) ->
  tolerates en (fun fs' => exists x', scrub_between (NDir x) x' /\
                    St (<["current" := x']> ch) T I R fs') E C ->
  (forall x' removed fs', scrub_between (NDir x) x' -> x' = scrubbed (py_truthy v) (NDir x) ->
     St (<["current" := x']> ch) T I R fs' -> Q removed fs') ->
  wp en (scrub_if v (CUR a s)) Q E C fs.
Proof.
  intros HS Hcur Hpl HT HQ. unfold scrub_if. destruct (py_truthy v).
  - by eapply wp_scrub.
  - apply wp_ret, (HQ (NDir x)); [by apply scrub_between_refl|done|]. by rewrite insert_id.
Qed.
End scrub_session.
