(* ===== verification/RollbackState.v ===== *)
(** * The states of a session during a rollback

    [rstate] lists every state a rollback passes through, as the entries of
    the session directory, the transaction file and the index file; the proofs
    of the rollback and of the recovery follow it. *)

From Stdlib Require Import Ascii.
From Stdlib Require String.
From stdpp Require Import gmap pretty.
From S2P Require Import Prelude PyVal Ids CheckpointIndex FileSystem World StoreFiles Store.
From S2P Require Import StoreRecovery Backend SessionState SessionOps SessionWp Scrub.
From S2P Require Import Lineage CheckpointIndexFacts.
Open Scope Z_scope.

(** ** Names of the restored and the discarded workspace *)

Definition restore_name (tok : string) : string := ".restore-" +:+ tok.
Definition discard_name (tok : string) : string := ".discard-" +:+ tok.

Lemma hex_no_slash tok : string_forallb is_hex tok = true -> char_in "/" tok = false.
Proof. intros H. apply (char_in_forallb_false _ is_hex); [reflexivity|done]. Qed.

Lemma restore_path_name tok :
  string_forallb is_hex tok = true -> path_name (restore_name tok) = restore_name tok.
Proof.
  intros H. apply path_name_plain; [|done..].
  unfold restore_name. rewrite char_in_app, (hex_no_slash tok) by done. reflexivity.
Qed.

Lemma discard_path_name tok :
  string_forallb is_hex tok = true -> path_name (discard_name tok) = discard_name tok.
Proof.
  intros H. apply path_name_plain; [|done..].
  unfold discard_name. rewrite char_in_app, (hex_no_slash tok) by done. reflexivity.
Qed.

Lemma names_differ tok :
  restore_name tok <> discard_name tok /\ restore_name tok <> "current" /\
  discard_name tok <> "current" /\ restore_name tok <> "checkpoints" /\
  discard_name tok <> "checkpoints".
Proof. repeat split; discriminate. Qed.

(** ** The index during a rollback to [cid] *)

Lemma parent_value_reconcile ix A x :
  parent_value (reconcile ix A).1 x = parent_value ix x.
Proof.
  unfold parent_value. rewrite reconcile_lookup. case_bool_decide as Hx.
  - unfold unindexed in Hx. apply elem_of_difference in Hx as [_ Hx%not_elem_of_dom].
    rewrite Hx. cbn [fmap option_fmap option_map]. unfold mark_missing. by case_match.
  - destruct (checkpoints ix !! x) as [m|]; [|done].
    cbn [fmap option_fmap option_map]. unfold mark_missing. case_match; [|done].
    unfold dgetn, dget_or. by rewrite dget_dset_ne.
Qed.

Lemma loads_reconciled A ix I : loads A ix I -> exists ix0, ix = (reconcile ix0 A).1.
Proof. intros [[_ ->]|(d & ix0 & _ & _ & ->)]; eauto. Qed.

Lemma loads_resolve A ix I c :
  loads A ix I -> c ∈ A -> resolve ix (Some c) None = Ok c.
Proof.
  intros [ix0 ->]%loads_reconciled Hc.
  apply resolve_present. pose proof (present_agrees A _ c (reconcile_agreeing ix0 A)) as Hp.
  rewrite Hp, bool_decide_eq_true_2 by done. auto.
Qed.

Section index.
Context (A : gset string) (HA : forall x, x ∈ A -> ID_RE x = true) (ixr : index).

(** The file loads as a well-formed index with head [h] and the parent links
    of [ixr]. *)
Definition good_index (h : option string) (I : option node) : Prop :=
  exists ix, loads A ix I /\ index_wf ix /\ head ix = h /\
    forall x, parent_value ix x = parent_value ixr x.

Lemma move_head_parents ix c ix' :
  index_wf ix -> move_head ix c = Ok ix' -> index_wf ix' /\
  head ix' = Some c /\ forall x, parent_value ix' x = parent_value ix x.
Proof.
  intros (L & Hrep & Hwf) H.
  assert (is_Some (l_nodes L !! c)) as Hc.
  { apply not_eq_None_Some. intros Hn. apply (sim_None _ _ _ (proj2 Hrep)) in Hn.
    unfold move_head in H. by rewrite Hn in H. }
  destruct (move_head_refines _ _ c Hrep Hc) as (ix2 & H2 & Hrep').
  assert (ix2 = ix') as -> by congruence. split; [|split].
  - eexists. split; [done|]. by apply l_move_head_wf.
  - apply Hrep'.
  - intros x. rewrite (represents_parent _ _ _ Hrep'), (represents_parent _ _ _ Hrep).
    rewrite (l_move_lookup L c Hc). by destruct (l_nodes L !! x).
Qed.

Lemma move_head_ok ix I c :
  loads A ix I -> index_wf ix -> c ∈ A -> exists ix', move_head ix c = Ok ix'.
Proof.
  intros HL (L & Hrep & Hwf) Hc.
  destruct (move_head_refines ix L c Hrep) as (ix' & H & _); [|eauto].
  apply not_eq_None_Some. intros Hn. apply (sim_None _ _ _ (proj2 Hrep)) in Hn.
  destruct (loads_reconciled _ _ _ HL) as [ix0 ->].
  pose proof (present_agrees A _ c (reconcile_agreeing ix0 A)) as Hp.
  unfold present in Hp. rewrite Hn, bool_decide_eq_true_2 in Hp; done.
Qed.

Lemma good_index_move h I ix c ix' :
  loads A ix I -> index_wf ix -> head ix = h ->
  (forall x, parent_value ix x = parent_value ixr x) -> c ∈ A ->
  move_head ix c = Ok ix' -> good_index (Some c) (jfile (to_dict ix')).
Proof.
  intros HL Hwf Hh Hpar Hc Hm.
  destruct (move_head_parents _ _ _ Hwf Hm) as (Hwf' & Hh' & Hpar').
  exists (reconcile ix' A).1. split; [by apply loads_saved|]. split; [|split].
  - eapply index_step_wf; [|exact Hwf']. by apply index_step_reconcile.
  - simpl. unfold head_lost. rewrite Hh', bool_decide_eq_false_2; [done|]. tauto.
  - intros x. rewrite parent_value_reconcile, Hpar'. apply Hpar.
Qed.
End index.

(** ** The states *)

Section states.
Context (ch0 : gmap string node) (cc sc cps : gmap string node) (cid : string).
Context (ixr : index) (defer : bool) (recovery : option string).
Context (scrub_runtime : pyval) (origin : string) (tok : string).

Local Abbreviation A := (dir_names cps).
Local Abbreviation rn := (restore_name tok).
Local Abbreviation dn := (discard_name tok).

Definition rtx : dict :=
  new_transaction defer recovery cid (restore_name tok) (discard_name tok) scrub_runtime origin.

Definition tx (p : string) : option node := jfile (set_phase p rtx).

Definition tx_committed (removed : list string) (t : Z) : option node :=
  jfile (committed_fields removed t rtx).

Definition ch_restored : gmap string node := <[rn := NDir sc]> ch0.
Definition ch_moved : gmap string node := <[dn := NDir cc]> (delete "current" ch_restored).
Definition ch_swapped (x : node) : gmap string node :=
  <[dn := NDir cc]> (<["current" := x]> ch0).
Definition ch_final (x : node) : gmap string node := <["current" := x]> ch0.

Inductive rstate : gmap string node -> option node -> option node -> Prop :=
  | rs_start I : loads A ixr I -> rstate ch0 None I
  | rs_preparing I : loads A ixr I -> rstate ch0 (tx "preparing") I
  | rs_restored I p :
      loads A ixr I -> p = "preparing" \/ p = "prepared" -> rstate ch_restored (tx p) I
  | rs_moved I p :
      loads A ixr I -> p = "prepared" \/ p = "old_moved" -> rstate ch_moved (tx p) I
  | rs_swapped I h p x :
      good_index A ixr h I -> p = "old_moved" \/ p = "committed" /\ defer = false ->
      scrub_between (NDir sc) x -> rstate (ch_swapped x) (tx p) I
  | rs_deleted I h x :
      good_index A ixr h I -> defer = false ->
      scrub_between (NDir sc) x -> rstate (ch_final x) (tx "committed") I
  | rs_done I x :
      good_index A ixr (Some cid) I -> defer = false ->
      scrub_between (NDir sc) x -> rstate (ch_final x) None I
  | rs_pending I x removed t :
      good_index A ixr (Some cid) I -> defer = true ->
      scrub_between (NDir sc) x -> rstate (ch_swapped x) (tx_committed removed t) I.

(** What recovery must reach: the session before the rollback, or after it. *)
Inductive rfinal : gmap string node -> option node -> option node -> Prop :=
  | rf_old I : loads A ixr I -> rfinal ch0 None I
  | rf_new I x :
      good_index A ixr (Some cid) I -> defer = false ->
      scrub_between (NDir sc) x -> rfinal (ch_final x) None I
  | rf_pending I x removed t :
      good_index A ixr (Some cid) I -> defer = true ->
      scrub_between (NDir sc) x -> rfinal (ch_swapped x) (tx_committed removed t) I.

(** The hypotheses about the session before the rollback. *)
Record rollback_setting : Prop := RollbackSetting {
  rb_hex : string_forallb is_hex tok = true;
  rb_cid : ID_RE cid = true;
  rb_current : ch0 !! "current" = Some (NDir cc);
  rb_checkpoints : ch0 !! "checkpoints" = Some (NDir cps);
  rb_source : cps !! cid = Some (NDir sc);
  rb_clean n : starts_with ".restore-" n = true \/ starts_with ".discard-" n = true ->
    ch0 !! n = None;
  rb_tmp : tmp_plain (NDir sc);
  rb_names x : x ∈ A -> ID_RE x = true;
  rb_wf : index_wf ixr;
  rb_mode : match recovery with
            | Some r => ID_RE r = true /\ defer = true /\ is_bool scrub_runtime = true
            | None => defer = false
            end }.

Section facts.
Hypothesis H : rollback_setting.

Lemma rb_in : cid ∈ A.
Proof. apply elem_of_dir_names. exists (NDir sc). split; [apply H|done]. Qed.

Lemma rb_rn : ch0 !! rn = None.
Proof. apply H. left. apply starts_with_app. Qed.

Lemma rb_dn : ch0 !! dn = None.
Proof. apply H. right. apply starts_with_app. Qed.

Lemma rstate_good I : loads A ixr I -> good_index A ixr (head ixr) I.
Proof. intros. exists ixr. split; [done|]. split; [apply H|done]. Qed.

(** Entries of the successive directories. *)
Ltac entries :=
  destruct (names_differ tok) as (? & ? & ? & ? & ?);
  unfold ch_swapped, ch_final, ch_moved, ch_restored;
  repeat first
    [ rewrite lookup_insert_eq | rewrite lookup_insert_ne by congruence
    | rewrite lookup_delete_eq | rewrite lookup_delete_ne by congruence ];
  try done; try exact (rb_current H); try exact (rb_checkpoints H);
  try apply rb_rn; try apply rb_dn.

Lemma restored_rn : ch_restored !! rn = Some (NDir sc).
Proof. entries. Qed.
Lemma restored_dn : ch_restored !! dn = None.
Proof. entries. Qed.
Lemma restored_current : ch_restored !! "current" = Some (NDir cc).
Proof. entries. Qed.
Lemma restored_checkpoints : ch_restored !! "checkpoints" = Some (NDir cps).
Proof. entries. Qed.
Lemma moved_rn : ch_moved !! rn = Some (NDir sc).
Proof. entries. Qed.
Lemma moved_dn : ch_moved !! dn = Some (NDir cc).
Proof. entries. Qed.
Lemma moved_current : ch_moved !! "current" = None.
Proof. entries. Qed.
Lemma moved_checkpoints : ch_moved !! "checkpoints" = Some (NDir cps).
Proof. entries. Qed.
Lemma swapped_rn x : ch_swapped x !! rn = None.
Proof. entries. Qed.
Lemma swapped_dn x : ch_swapped x !! dn = Some (NDir cc).
Proof. entries. Qed.
Lemma swapped_current x : ch_swapped x !! "current" = Some x.
Proof. entries. Qed.
Lemma swapped_checkpoints x : ch_swapped x !! "checkpoints" = Some (NDir cps).
Proof. entries. Qed.
Lemma final_rn x : ch_final x !! rn = None.
Proof. entries. Qed.
Lemma final_dn x : ch_final x !! dn = None.
Proof. entries. Qed.
Lemma final_current x : ch_final x !! "current" = Some x.
Proof. entries. Qed.
Lemma final_checkpoints x : ch_final x !! "checkpoints" = Some (NDir cps).
Proof. entries. Qed.

(** The effect of the steps on the directory. *)
Lemma install_restored :
  <["current" := NDir sc]> (delete rn ch_moved) = ch_swapped (NDir sc).
Proof.
  apply (map_eq (M := gmap string)). intros i.
  destruct (decide (i = "current")) as [->|]; [by entries|].
  destruct (decide (i = rn)) as [->|]; [entries; symmetry; apply rb_rn|].
  destruct (decide (i = dn)) as [->|]; entries.
Qed.

Lemma delete_restored : delete rn ch_restored = ch0.
Proof. unfold ch_restored. apply delete_insert_id, rb_rn. Qed.

Lemma move_current : <[dn := NDir cc]> (delete "current" ch_restored) = ch_moved.
Proof. done. Qed.

Lemma swapped_scrub x y : <["current" := y]> (ch_swapped x) = ch_swapped y.
Proof.
  unfold ch_swapped. destruct (names_differ tok) as (_ & _ & ? & _).
  rewrite insert_insert_ne by done. by rewrite insert_insert_eq.
Qed.

Lemma delete_discarded x : delete dn (ch_swapped x) = ch_final x.
Proof. unfold ch_swapped. apply delete_insert_id. apply final_dn. Qed.

Lemma final_scrub x y : <["current" := y]> (ch_final x) = ch_final y.
Proof. unfold ch_final. by rewrite insert_insert_eq. Qed.
End facts.

(** ** Reading the transaction back *)

Lemma tx_names p :
  dgetn "restore_name" (set_phase p rtx) = PStr rn /\
  dgetn "discard_name" (set_phase p rtx) = PStr dn /\
  dgetn "scrub_runtime" (set_phase p rtx) = scrub_runtime.
Proof. by destruct defer. Qed.

Lemma tx_committed_names removed t :
  dgetn "restore_name" (committed_fields removed t rtx) = PStr rn /\
  dgetn "discard_name" (committed_fields removed t rtx) = PStr dn.
Proof. by destruct defer. Qed.

Lemma parse_tx p :
  rollback_setting -> p ∈ ["preparing"; "prepared"; "old_moved"; "committed"] ->
  parse_transaction (set_phase p rtx) = Ok (TransactionInfo p defer recovery cid).
Proof.
  intros H Hp. pose proof (rb_mode H) as Hm. pose proof (rb_cid H) as Hc.
  unfold parse_transaction, rtx.
  destruct recovery as [r|].
  - destruct Hm as (Hr & -> & Hb).
    rewrite !elem_of_cons in Hp.
    destruct Hp as [->|[->|[->|[->|[]%not_elem_of_nil]]]];
      lazy -[validate_id is_bool]; rewrite !validate_id_valid by done; simpl; by rewrite Hb.
  - rewrite Hm. rewrite !elem_of_cons in Hp.
    destruct Hp as [->|[->|[->|[->|[]%not_elem_of_nil]]]];
      lazy -[validate_id is_bool]; by rewrite !validate_id_valid by done.
Qed.

Lemma parse_tx_committed removed t :
  rollback_setting ->
  parse_transaction (committed_fields removed t rtx)
    = Ok (TransactionInfo "committed" defer recovery cid).
Proof.
  intros H. pose proof (rb_mode H) as Hm. pose proof (rb_cid H) as Hc.
  unfold parse_transaction, rtx. destruct recovery as [r|].
  - destruct Hm as (Hr & -> & Hb).
    lazy -[validate_id is_bool]; rewrite !validate_id_valid by done; simpl; by rewrite Hb.
  - rewrite Hm. lazy -[validate_id is_bool]. by rewrite !validate_id_valid by done.
Qed.
End states.
