(* ===== verification/RecoveryProof.v ===== *)
(** * Recovery from every state of a rollback

    In a calm environment [_recover_session], started in any state of
    [rstate], returns with the session in a state of [rfinal]: as before the
    rollback, as after it, or (deferred) committed with its cleanup pending. *)

From Stdlib Require Import Ascii.
From Stdlib Require String.
From stdpp Require Import gmap pretty.
From S2P Require Import Prelude PyVal Ids CheckpointIndex FileSystem World StoreFiles Store.
From S2P Require Import StoreRecovery Backend SessionState SessionOps SessionWp Scrub.
From S2P Require Import Lineage CheckpointIndexFacts.
From S2P Require Import RollbackState.
Open Scope Z_scope.

(** In a calm environment no failure has to be tolerated. *)
Lemma calm_tolerates en I E C : calm en -> tolerates en I E C.
Proof. by intros Hc fs Hn. Qed.

Section recovery.
Context `{HB : SnapshotBackend} `{!BackendLaws HB} (root : string).
Context (a s : string) (Ha : ID_RE a = true) (Hs : ID_RE s = true) (base : node).
Context (en : env) (Htok : hex_tokens en) (Hcalm : calm en).
Context (ch0 cc sc cps : gmap string node) (cid : string) (ixr : index).
Context (defer : bool) (recovery : option string) (scrub_runtime : pyval).
Context (origin tok : string).
Context (R : string -> option node).
Hypothesis HR : match recovery with Some r => R r = None | None => True end.
Hypothesis H : rollback_setting ch0 cc sc cps cid ixr defer recovery scrub_runtime tok.

Notation St := (St a s base).
Local Abbreviation A := (dir_names cps).
Local Abbreviation rn := (restore_name tok).
Local Abbreviation dn := (discard_name tok).
Local Abbreviation tx := (tx cid defer recovery scrub_runtime origin tok).
Local Abbreviation rstate :=
  (rstate ch0 cc sc cps cid ixr defer recovery scrub_runtime origin tok).
Local Abbreviation rfinal :=
  (rfinal ch0 cc sc cps cid ixr defer recovery scrub_runtime origin tok).

Definition Final (fs : node) : Prop :=
  exists ch T I, rfinal ch T I /\ St ch T I R fs.

Definition no_exc : exn -> node -> Prop := fun _ _ => False.
Definition no_crash : node -> Prop := fun _ => False.

Ltac calm := apply calm_tolerates; exact Hcalm.

(** The index head moves to the checkpoint. *)
Lemma wp_move_index_head ch T I h fs (Q : unit -> node -> Prop) :
  St ch T I R fs -> file_or_none T -> ch !! "checkpoints" = Some (NDir cps) ->
  good_index A ixr h I ->
  (forall I' fs', good_index A ixr (Some cid) I' -> St ch T I' R fs' -> Q () fs') ->
  wp en (move_index_head root a s cid) Q no_exc no_crash fs.
Proof.
  intros HS HT Hc (ix & HL & Hwf & Hh & Hpar) HQ. unfold move_index_head.
  pose proof (rb_in _ _ _ _ _ _ _ _ _ _ H) as Hin.
  destruct (move_head_ok A ix I cid HL Hwf Hin) as [ix' Hm].
  apply wp_bind. eapply (wp_load_index root a s Ha Hs base en Htok);
    [exact HS|done|exact Hc|exact HL|calm|].
  clear fs HS. intros I1 fs HL1 HS. apply wp_bind, wp_try, wp_of_result.
  rewrite (loads_resolve A ix I1 cid HL1 Hin). cbn [mbind result_bind]. rewrite Hm.
  eapply (wp_save_index a s Ha Hs base en Htok); [exact HS|done|by eapply loads_file|calm|].
  intros fs' HS'. eapply HQ; [|exact HS'].
  eapply good_index_move; [apply (rb_names _ _ _ _ _ _ _ _ _ _ H)|exact HL1|done..|exact Hm].
Qed.

Lemma wp_delete_managed n o label ch T I fs (Q : unit -> node -> Prop) :
  St ch T I R fs -> ch !! n = o -> match o with Some (NDir _) | None => True | _ => False end ->
  (forall fs', St (match o with Some _ => delete n ch | None => ch end) T I R fs' -> Q () fs') ->
  wp en (delete_managed_if_exists root (SD a s ++ [n]) label) Q no_exc no_crash fs.
Proof.
  intros HS Hn Ho HQ. unfold delete_managed_if_exists.
  pose proof (entry_get a s base _ _ _ _ _ _ HS : get (SD a s ++ [n]) fs = _) as Hg.
  rewrite Hn in Hg. destruct o as [[d| | | | |]|]; try done;
    (eapply wp_query_exists; [exact Hg|done|]); simpl.
  - apply wp_bind. eapply wp_require_managed; [exact Hg|].
    eapply (wp_delete_entry a s base en); [exact HS|exact Hn|calm|exact HQ].
  - by apply wp_ret, HQ.
Qed.

(** The common end of an abort or of a commit. *)
Lemma wp_recover_finish p (commit : bool) ch T I h dd rd fs (Q : bool -> node -> Prop) :
  St ch T I R fs -> file_or_none T -> ch !! "checkpoints" = Some (NDir cps) ->
  good_index A ixr h I ->
  ch !! dn = dd -> match dd with Some (NDir _) | None => True | _ => False end ->
  ch !! rn = rd -> match rd with Some (NDir _) | None => True | _ => False end ->
  (forall I' fs' (ch' : gmap string node), (if commit then good_index A ixr (Some cid) I' else I' = I) ->
     ch' = delete rn (delete dn ch) -> St ch' None I' R fs' -> Q true fs') ->
  wp en (recover_finish root a s (TransactionInfo p defer recovery cid) commit
           (SD a s ++ [rn]) (SD a s ++ [dn])) Q no_exc no_crash fs.
Proof.
  intros HS HT Hc HI Hdd Hdt Hrd Hrt HQ. unfold recover_finish. simpl ti_recovery.
  destruct (names_differ tok) as (Hne & _ & _ & Hrc & Hdc).
  assert (forall fs' (Q' : unit -> node -> Prop), St ch T I R fs' -> Q' () fs' ->
    wp en (match recovery with
           | Some r => _load_recovery_receipt a s r ≫= fun receipt : option dict =>
               raise_when (bool_decide (is_Some receipt))
                 (WorkspaceError "aborted deferred rollback unexpectedly has a cleanup receipt")
           | None => mret () end) Q' no_exc no_crash fs') as Hrec.
  { intros fs' Q' HS' HQ'. pose proof (rb_mode _ _ _ _ _ _ _ _ _ _ H) as Hm.
    destruct recovery as [r|]; [|by apply wp_ret]. destruct Hm as (Hr & _).
    apply wp_bind. unfold _load_recovery_receipt. rewrite receipt_path_ok by done.
    apply wp_bind, wp_of_result, wp_bind.
    eapply (wp_load_object en (RCP a s r) _ _ _ None (St ch T I R)); [|calm|exact HS'|].
    - rewrite (st_rcp HS' r Hr). exact HR.
    - by apply wp_ret, wp_ret. }
  apply wp_bind, (Hrec fs); [done|].
  apply wp_bind. eapply wp_delete_managed; [exact HS|exact Hdd|done|].
  set (ch1 := match dd with Some _ => delete dn ch | None => ch end).
  assert (ch1 = delete dn ch) as E1.
  { unfold ch1. destruct dd; [done|]. symmetry. by apply delete_id. }
  rewrite E1. clear ch1 E1 fs HS. intros fs HS.
  apply wp_bind. eapply wp_delete_managed; [exact HS| |exact Hrt|].
  { by rewrite lookup_delete_ne. }
  set (ch2 := match rd with Some _ => _ | None => _ end).
  assert (ch2 = delete rn (delete dn ch)) as E2.
  { unfold ch2. destruct rd; [done|]. symmetry. apply delete_id. by rewrite lookup_delete_ne. }
  rewrite E2. clear ch2 E2 fs HS. intros fs HS.
  assert ((delete rn (delete dn ch)) !! "checkpoints" = Some (NDir cps)) as Hc2.
  { by rewrite !lookup_delete_ne by done. }
  assert (forall I' fs', (if commit then good_index A ixr (Some cid) I' else I' = I) ->
    St (delete rn (delete dn ch)) T I' R fs' ->
    wp en (_clear_transaction a s;;
           _append_event (recovered_event (if commit then "committed" else "aborted")
             cid recovery) (Some a) (Some s);; mret true) Q no_exc no_crash fs') as Hend.
  { intros I' fs' HI' HS'. apply wp_bind.
    eapply (wp_clear_transaction a s Ha Hs base en); [exact HS'|done|calm|].
    intros fs2 HS2. apply wp_bind.
    eapply (wp_append_event a s Ha Hs base en Htok); [exact HS2|calm|].
    intros fs3 HS3. apply wp_ret. by eapply HQ. }
  apply wp_bind. destruct commit.
  - eapply wp_move_index_head; [exact HS|done|done|exact HI|]. intros I' fs' HI' HS'. by eapply Hend.
  - apply wp_ret. by eapply Hend.
Qed.

(** An interrupted deferred rollback whose swap happened. *)
Lemma wp_recover_commit_deferred p x I h fs (Q : bool -> node -> Prop) :
  St (ch_swapped ch0 cc tok x) (tx p) I R fs ->
  defer = true -> good_index A ixr h I -> scrub_between (NDir sc) x ->
  (forall I' x' removed t fs', good_index A ixr (Some cid) I' ->
     scrub_between (NDir sc) x' ->
     St (ch_swapped ch0 cc tok x')
       (tx_committed cid defer recovery scrub_runtime origin tok removed t) I' R fs' ->
     Q true fs') ->
  wp en (recover_commit_deferred root a s (TransactionInfo p defer recovery cid)
           (set_phase p (rtx cid defer recovery scrub_runtime origin tok))
           (CUR a s) (SD a s ++ [rn]) (SD a s ++ [dn])) Q no_exc no_crash fs.
Proof.
  intros HS Hd HI Hx HQ. unfold recover_commit_deferred.
  pose proof Hx as ([xc ->] & Hpl & _).
  pose proof (entry_get a s base "current" _ _ _ _ _ HS) as Hcur.
  pose proof (entry_get a s base dn _ _ _ _ _ HS) as Hdn.
  pose proof (entry_get a s base rn _ _ _ _ _ HS) as Hrn.
  rewrite (swapped_current ch0 cc tok) in Hcur. rewrite (swapped_dn ch0 cc tok) in Hdn.
  rewrite (swapped_rn _ _ _ _ _ _ _ _ _ _ H) in Hrn.
  apply wp_bind. eapply wp_require_managed; [exact Hcur|].
  eapply wp_query_exists; [exact Hdn|done|].
  apply wp_bind, wp_raise_when; [done|]. intros _.
  apply wp_bind. eapply wp_require_managed; [exact Hdn|].
  eapply wp_query_exists; [exact Hrn|done|].
  apply wp_bind, wp_raise_when; [done|]. intros _.
  destruct (tx_names cid defer recovery scrub_runtime origin tok p) as (_ & _ & ->).
  apply wp_bind. eapply (wp_scrub_if a s base en); [exact HS|apply swapped_current|done|calm|].
  intros x' removed fs' Hx' _ HS'. rewrite swapped_scrub in HS'.
  apply wp_bind. eapply wp_move_index_head; [exact HS'|done| |exact HI|].
  { eapply swapped_checkpoints, H. }
  intros I' fs2 HI' HS2. apply wp_bind, wp_time. intros t. apply wp_bind.
  eapply (wp_write_transaction a s Ha Hs base en Htok);
    [exact HS2|done| |calm|].
  { destruct HI' as (? & HL & _). by eapply loads_file. }
  intros fs3 HS3. apply wp_bind.
  eapply (wp_append_event a s Ha Hs base en Htok); [exact HS3|calm|].
  intros fs4 HS4. apply wp_ret. eapply HQ; [exact HI'| |exact HS4].
  eapply scrub_between_trans; [exact Hx|exact Hx'].
Qed.

(** ** From the start of recovery to the state's own case *)

Lemma glob_none prefix ch T I fs :
  St ch T I R fs -> (forall n, starts_with prefix n = true -> ch !! n = None) ->
  glob_prefix (SD a s) prefix fs = [].
Proof.
  intros HS Hno. unfold glob_prefix, child_names.
  rewrite stat_plain by by rewrite (st_sd HS). rewrite (st_sd HS).
  assert (List.filter (starts_with prefix) (map_to_list ch).*1 = []) as ->; [|done].
  destruct (List.filter _ _) as [|n l] eqn:E; [done|].
  assert (List.In n (List.filter (starts_with prefix) (map_to_list ch).*1)) as Hin
    by (rewrite E; by left).
  apply filter_In in Hin as [Hin Hp]. apply list_elem_of_In, list_elem_of_fmap in Hin
    as ([k m] & -> & Hm). apply elem_of_map_to_list in Hm. simpl in Hp.
  by rewrite Hno in Hm.
Qed.

(** No transaction file and no leftover directory: nothing to do. *)
Lemma wp_recover_none ch I fs (Q : bool -> node -> Prop) :
  St ch None I R fs ->
  (forall n, starts_with ".restore-" n = true \/ starts_with ".discard-" n = true ->
     ch !! n = None) ->
  Q false fs -> wp en (_recover_session root a s) Q no_exc no_crash fs.
Proof.
  intros HS Hno HQ. unfold _recover_session. rewrite session_dir_ok, current_ok by done.
  apply wp_bind, wp_of_result, wp_bind, wp_of_result, wp_bind.
  eapply (wp_load_transaction a s Ha Hs base en None); [exact HS|calm|].
  apply wp_bind, wp_query, wp_bind, wp_query.
  rewrite (glob_none _ _ _ _ _ HS) by auto. rewrite (glob_none _ _ _ _ _ HS) by auto.
  by apply wp_ret.
Qed.

(** A transaction of this rollback: its fields and paths check. *)
Lemma wp_recover_tx t p ch I o fs (Q : bool -> node -> Prop) :
  St ch (jfile t) I R fs ->
  parse_transaction t = Ok (TransactionInfo p defer recovery cid) ->
  dgetn "restore_name" t = PStr rn -> dgetn "discard_name" t = PStr dn ->
  plain (ch !! rn) -> plain (ch !! dn) ->
  ch !! "current" = o -> plain o ->
  wp en (match recovery with
         | Some r =>
             if phase_in p ["committed"] && match o with Some _ => true | None => false end
             then recover_committed_deferred root a s r (TransactionInfo p defer recovery cid)
                    (CUR a s) (SD a s ++ [rn]) (SD a s ++ [dn])
             else reinstall_current root a s (TransactionInfo p defer recovery cid)
                    (CUR a s) (SD a s ++ [rn]) (SD a s ++ [dn]) ≫= fun commit : bool =>
                  if commit
                  then recover_commit_deferred root a s (TransactionInfo p defer recovery cid) t
                         (CUR a s) (SD a s ++ [rn]) (SD a s ++ [dn])
                  else recover_finish root a s (TransactionInfo p defer recovery cid) commit
                         (SD a s ++ [rn]) (SD a s ++ [dn])
         | None =>
             reinstall_current root a s (TransactionInfo p defer recovery cid)
               (CUR a s) (SD a s ++ [rn]) (SD a s ++ [dn]) ≫= fun commit : bool =>
             recover_finish root a s (TransactionInfo p defer recovery cid) commit
               (SD a s ++ [rn]) (SD a s ++ [dn])
         end) Q no_exc no_crash fs ->
  wp en (_recover_session root a s) Q no_exc no_crash fs.
Proof.
  intros HS Hparse Hrn Hdn Hprn Hpdn Hcur Hpo Hgo.
  pose proof (rb_hex _ _ _ _ _ _ _ _ _ _ H) as Hhex.
  unfold _recover_session. rewrite session_dir_ok, current_ok by done.
  apply wp_bind, wp_of_result, wp_bind, wp_of_result, wp_bind.
  eapply (wp_load_transaction a s Ha Hs base en (Some t)); [exact HS|calm|].
  apply wp_bind, wp_query, wp_bind, wp_query.
  unfold recover_transaction. rewrite Hparse. apply wp_bind, wp_of_result.
  rewrite Hrn, Hdn. apply wp_bind.
  eapply (wp_subvolume_path a s base en); [exact HS|by apply restore_path_name|
    apply starts_with_app|done|].
  apply wp_bind. eapply (wp_subvolume_path a s base en); [exact HS|by apply discard_path_name|
    apply starts_with_app|done|].
  eapply wp_query_exists; [|exact Hpo|exact Hgo].
  by rewrite (entry_get a s base "current" _ _ _ _ _ HS : get (CUR a s) fs = _).
Qed.

(** When a workspace is current, reinstalling changes nothing. *)
Lemma wp_reinstall_present p ti x ch T I fs (Q : bool -> node -> Prop) :
  St ch T I R fs -> ti_phase ti = p -> ch !! "current" = Some (NDir x) ->
  Q (phase_in p ["old_moved"; "committed"]) fs ->
  wp en (reinstall_current root a s ti (CUR a s) (SD a s ++ [rn]) (SD a s ++ [dn]))
    Q no_exc no_crash fs.
Proof.
  intros HS <- Hcur HQ. unfold reinstall_current.
  eapply wp_query_exists;
    [rewrite (entry_get a s base "current" _ _ _ _ _ HS : get (CUR a s) fs = _); exact Hcur|done|].
  simpl. by apply wp_ret.
Qed.

(** The old workspace is moved away and the new one not yet installed. *)
Lemma wp_reinstall_moved p ti I fs (Q : bool -> node -> Prop) :
  St (ch_moved ch0 cc sc tok) (tx p) I R fs -> ti_phase ti = p ->
  p = "prepared" \/ p = "old_moved" ->
  (forall fs', St (ch_swapped ch0 cc tok (NDir sc)) (tx p) I R fs' -> Q true fs') ->
  wp en (reinstall_current root a s ti (CUR a s) (SD a s ++ [rn]) (SD a s ++ [dn]))
    Q no_exc no_crash fs.
Proof.
  intros HS Hti Hp HQ. unfold reinstall_current. rewrite Hti.
  pose proof (entry_get a s base "current" _ _ _ _ _ HS) as Hcur.
  pose proof (entry_get a s base dn _ _ _ _ _ HS) as Hdn.
  pose proof (entry_get a s base rn _ _ _ _ _ HS) as Hrn.
  rewrite (moved_current ch0 cc sc tok) in Hcur.
  rewrite (moved_dn ch0 cc sc tok) in Hdn. rewrite (moved_rn ch0 cc sc tok) in Hrn.
  eapply wp_query_exists; [exact Hcur|done|]. cbv beta iota zeta.
  eapply wp_query_exists; [exact Hrn|done|].
  eapply wp_query_exists; [exact Hdn|done|].
  replace (phase_in p ["prepared"; "old_moved"; "committed"] && true) with true
    by (by destruct Hp as [->| ->]).
  apply wp_bind. eapply wp_require_managed; [exact Hrn|].
  apply wp_bind. eapply (wp_rename_entry a s base en rn "current");
    [by apply calm_renames_safe|exact HS|apply moved_rn|apply moved_current|done|calm|].
  intros fs' HS'. apply wp_ret, HQ.
  by rewrite (install_restored _ _ _ _ _ _ _ _ _ _ H) in HS'.
Qed.

(** ** The cases *)

Lemma file_tx p : file_or_none (tx p).
Proof. done. Qed.

(** Before the old workspace is moved away, the rollback is aborted. *)
Lemma recover_abort p ch rd I fs :
  St ch (tx p) I R fs -> loads A ixr I -> p = "preparing" \/ p = "prepared" ->
  ch !! "current" = Some (NDir cc) -> ch !! "checkpoints" = Some (NDir cps) ->
  ch !! dn = None -> ch !! rn = rd ->
  match rd with Some (NDir _) | None => True | _ => False end ->
  delete rn (delete dn ch) = ch0 ->
  wp en (_recover_session root a s) (fun _ => Final) no_exc no_crash fs.
Proof.
  intros HS HL Hp Hcur Hcps Hdn Hrn Hrd Hdel.
  destruct (tx_names cid defer recovery scrub_runtime origin tok p) as (Hn1 & Hn2 & _).
  eapply (wp_recover_tx _ p _ _ (Some (NDir cc)));
    [exact HS|eapply parse_tx; [exact H|destruct Hp as [->| ->]; set_solver]|exact Hn1|exact Hn2|
     rewrite Hrn; by destruct rd as [[]|]|by rewrite Hdn|exact Hcur|done|].
  assert (forall fs', St ch (tx p) I R fs' ->
    wp en (recover_finish root a s (TransactionInfo p defer recovery cid) false
             (SD a s ++ [rn]) (SD a s ++ [dn])) (fun _ => Final) no_exc no_crash fs') as Hfin.
  { intros fs' HS'. eapply (wp_recover_finish p false);
      [exact HS'|done|exact Hcps|by eapply rstate_good; [exact H|]|exact Hdn|done|exact Hrn|exact Hrd|].
    intros I' fs2 ch' -> -> HS2. rewrite Hdel in HS2. exists ch0, None, I.
    split; [by constructor|done]. }
  destruct recovery as [r|].
  - replace (phase_in p ["committed"]) with false by (by destruct Hp as [->| ->]).
    cbn [andb]. apply wp_bind. eapply (wp_reinstall_present p); [exact HS|done|exact Hcur|].
    replace (phase_in p ["old_moved"; "committed"]) with false by (by destruct Hp as [->| ->]).
    cbv beta iota. by apply Hfin.
  - apply wp_bind. eapply (wp_reinstall_present p); [exact HS|done|exact Hcur|].
    replace (phase_in p ["old_moved"; "committed"]) with false by (by destruct Hp as [->| ->]).
    cbv beta iota. by apply Hfin.
Qed.

(** After it, the rollback is carried through. *)
Lemma finish_swapped p x I h fs :
  St (ch_swapped ch0 cc tok x) (tx p) I R fs -> good_index A ixr h I ->
  scrub_between (NDir sc) x -> defer = false ->
  wp en (recover_finish root a s (TransactionInfo p defer recovery cid) true
           (SD a s ++ [rn]) (SD a s ++ [dn])) (fun _ => Final) no_exc no_crash fs.
Proof.
  intros HS HI Hx Hd. eapply (wp_recover_finish p true);
    [exact HS|done|eapply swapped_checkpoints, H|exact HI|apply swapped_dn|done|
     eapply swapped_rn, H|done|].
  intros I' fs2 ch' HI' -> HS2. rewrite (delete_discarded _ _ _ _ _ _ _ _ _ _ H) in HS2.
  rewrite delete_id in HS2 by (eapply final_rn, H).
  exists (ch_final ch0 x), None, I'. split; [by constructor|done].
Qed.

Lemma carry_deferred p x I h fs :
  St (ch_swapped ch0 cc tok x) (tx p) I R fs -> good_index A ixr h I ->
  scrub_between (NDir sc) x -> defer = true ->
  wp en (recover_commit_deferred root a s (TransactionInfo p defer recovery cid)
           (set_phase p (rtx cid defer recovery scrub_runtime origin tok))
           (CUR a s) (SD a s ++ [rn]) (SD a s ++ [dn])) (fun _ => Final) no_exc no_crash fs.
Proof.
  intros HS HI Hx Hd. eapply wp_recover_commit_deferred; [exact HS|done|exact HI|exact Hx|].
  intros I' x' removed t fs' HI' Hx' HS'.
  exists (ch_swapped ch0 cc tok x'), (tx_committed cid defer recovery scrub_runtime origin tok removed t), I'.
  split; [by constructor|done].
Qed.

Lemma recover_moved p I fs :
  St (ch_moved ch0 cc sc tok) (tx p) I R fs -> loads A ixr I ->
  p = "prepared" \/ p = "old_moved" ->
  wp en (_recover_session root a s) (fun _ => Final) no_exc no_crash fs.
Proof.
  intros HS HL Hp.
  destruct (tx_names cid defer recovery scrub_runtime origin tok p) as (Hn1 & Hn2 & _).
  pose proof (rstate_good _ _ _ _ _ _ _ _ _ _ H _ HL) as HI.
  assert (scrub_between (NDir sc) (NDir sc)) as Hx by (apply scrub_between_refl, H).
  eapply (wp_recover_tx _ p _ _ None);
    [exact HS|eapply parse_tx; [exact H|destruct Hp as [->| ->]; set_solver]|exact Hn1|exact Hn2|
     by rewrite moved_rn|by rewrite moved_dn|apply moved_current|done|].
  pose proof (rb_mode _ _ _ _ _ _ _ _ _ _ H) as Hm.
  pose proof wp_reinstall_moved as Hreinstall. pose proof carry_deferred as Hcarry.
  pose proof finish_swapped as Hfinish. pose proof wp_recover_finish as Hend.
  destruct recovery as [r|].
  - rewrite andb_false_r. apply wp_bind.
    eapply Hreinstall; [exact HS|done|done|]. intros fs' HS'.
    by eapply Hcarry; [exact HS'|exact HI|exact Hx|apply Hm].
  - apply wp_bind. eapply Hreinstall; [exact HS|done|done|]. intros fs' HS'.
    by eapply Hfinish; [exact HS'|exact HI|exact Hx|].
Qed.

Lemma recover_swapped p x I h fs :
  St (ch_swapped ch0 cc tok x) (tx p) I R fs -> good_index A ixr h I ->
  scrub_between (NDir sc) x -> p = "old_moved" \/ p = "committed" /\ defer = false ->
  wp en (_recover_session root a s) (fun _ => Final) no_exc no_crash fs.
Proof.
  intros HS HI Hx Hp. pose proof Hx as ([xc ->] & _).
  destruct (tx_names cid defer recovery scrub_runtime origin tok p) as (Hn1 & Hn2 & _).
  eapply (wp_recover_tx _ p _ _ (Some (NDir xc)));
    [exact HS|eapply parse_tx; [exact H|destruct Hp as [->|[-> _]]; set_solver]|exact Hn1|exact Hn2|
     by rewrite (swapped_rn _ _ _ _ _ _ _ _ _ _ H)|by rewrite swapped_dn|apply swapped_current|done|].
  pose proof (rb_mode _ _ _ _ _ _ _ _ _ _ H) as Hm.
  pose proof wp_reinstall_moved as Hreinstall. pose proof carry_deferred as Hcarry.
  pose proof finish_swapped as Hfinish. pose proof wp_recover_finish as Hend.
  assert (phase_in p ["old_moved"; "committed"] = true) as Hcom
    by (by destruct Hp as [->|[-> _]]).
  destruct recovery as [r|].
  - destruct Hm as (_ & Hd & _). destruct Hp as [->|[_ ?]]; [|congruence].
    cbn [phase_in existsb str_eqb andb]. apply wp_bind.
    eapply (wp_reinstall_present "old_moved"); [exact HS|done|apply swapped_current|].
    rewrite Hcom.
    by eapply Hcarry; [exact HS|exact HI|exact Hx|].
  - apply wp_bind. eapply (wp_reinstall_present p); [exact HS|done|apply swapped_current|].
    rewrite Hcom. by eapply Hfinish; [exact HS|exact HI|exact Hx|].
Qed.

Lemma recover_deleted x I h fs :
  St (ch_final ch0 x) (tx "committed") I R fs -> good_index A ixr h I ->
  scrub_between (NDir sc) x -> defer = false ->
  wp en (_recover_session root a s) (fun _ => Final) no_exc no_crash fs.
Proof.
  intros HS HI Hx Hd. pose proof Hx as ([xc ->] & _).
  pose proof (final_dn _ _ _ _ _ _ _ _ _ _ H (NDir xc)) as Hfdn.
  pose proof (final_rn _ _ _ _ _ _ _ _ _ _ H (NDir xc)) as Hfrn.
  destruct (tx_names cid defer recovery scrub_runtime origin tok "committed") as (Hn1 & Hn2 & _).
  eapply (wp_recover_tx _ "committed" _ _ (Some (NDir xc)));
    [exact HS|
     apply (parse_tx ch0 cc sc cps cid ixr defer recovery scrub_runtime origin tok "committed"
       H); set_solver|exact Hn1|exact Hn2|
     by rewrite (final_rn _ _ _ _ _ _ _ _ _ _ H)|by rewrite (final_dn _ _ _ _ _ _ _ _ _ _ H)|
     apply (final_current ch0 tok)|done|].
  pose proof (rb_mode _ _ _ _ _ _ _ _ _ _ H) as Hm.
  pose proof wp_reinstall_moved as Hreinstall. pose proof carry_deferred as Hcarry.
  pose proof finish_swapped as Hfinish. pose proof wp_recover_finish as Hend.
  destruct recovery as [r|]; [destruct Hm as (_ & ? & _); congruence|].
  apply wp_bind. eapply (wp_reinstall_present "committed");
    [exact HS|done|apply (final_current ch0 tok)|].
  change (phase_in "committed" ["old_moved"; "committed"]) with true.
  eapply (Hend "committed" true);
    [exact HS|done|eapply final_checkpoints, H|exact HI|eapply final_dn, H|done|
     eapply final_rn, H|done|].
  intros I' fs2 ch' HI' -> HS2.
  rewrite (delete_id (ch_final ch0 (NDir xc))) in HS2 by exact Hfdn.
  rewrite delete_id in HS2 by exact Hfrn.
  exists (ch_final ch0 (NDir xc)), None, I'. split; [by constructor|done].
Qed.

Lemma recover_pending x I removed t fs :
  St (ch_swapped ch0 cc tok x)
    (tx_committed cid defer recovery scrub_runtime origin tok removed t) I R fs ->
  good_index A ixr (Some cid) I -> scrub_between (NDir sc) x -> defer = true ->
  wp en (_recover_session root a s) (fun _ => Final) no_exc no_crash fs.
Proof.
  intros HS HI Hx Hd. pose proof Hx as ([xc ->] & _).
  destruct (tx_committed_names cid defer recovery scrub_runtime origin tok removed t)
    as (Hn1 & Hn2).
  eapply (wp_recover_tx _ "committed" _ _ (Some (NDir xc)));
    [exact HS|eapply parse_tx_committed, H|exact Hn1|exact Hn2|
     by rewrite (swapped_rn _ _ _ _ _ _ _ _ _ _ H)|by rewrite swapped_dn|apply swapped_current|done|].
  pose proof (rb_mode _ _ _ _ _ _ _ _ _ _ H) as Hm.
  assert (forall I' fs', good_index A ixr (Some cid) I' ->
    St (ch_swapped ch0 cc tok (NDir xc))
      (tx_committed cid defer recovery scrub_runtime origin tok removed t) I' R fs' ->
    Final fs') as HF.
  { intros I' fs' HI' HS'. do 3 eexists. split; [|exact HS']. by constructor. }
  pose proof wp_reinstall_moved as Hreinstall. pose proof carry_deferred as Hcarry.
  pose proof finish_swapped as Hfinish. pose proof wp_recover_finish as Hend.
  destruct recovery as [r|]; [|congruence]. destruct Hm as (Hr & _).
  change (phase_in "committed" ["committed"] && true) with true. cbv iota.
  unfold recover_committed_deferred.
  pose proof (entry_get a s base "current" _ _ _ _ _ HS) as Hcur.
  pose proof (entry_get a s base rn _ _ _ _ _ HS) as Hrn.
  rewrite (swapped_current ch0 cc tok) in Hcur.
  rewrite (swapped_rn _ _ _ _ _ _ _ _ _ _ H) in Hrn.
  apply wp_bind. eapply wp_require_managed; [exact Hcur|].
  eapply wp_query_exists; [exact Hrn|done|].
  apply wp_bind, wp_raise_when; [done|]. intros _.
  destruct HI as (ix & HL & Hwf & Hhd & Hpar).
  apply wp_bind. eapply (wp_load_index root a s Ha Hs base en Htok);
    [exact HS|done|eapply swapped_checkpoints, H|exact HL|calm|].
  clear fs HS Hcur Hrn. intros I' fs HL' HS. apply wp_bind, wp_raise_when.
  { simpl. rewrite Hhd, bool_decide_eq_true_2; done. }
  intros _. apply wp_bind. unfold _load_recovery_receipt. rewrite receipt_path_ok by done.
  apply wp_bind, wp_of_result, wp_bind.
  eapply (wp_load_object en (RCP a s r) _ _ _ None); [|calm|exact HS|].
  { rewrite (st_rcp HS r Hr). exact HR. }
  apply wp_ret.
  pose proof (entry_get a s base dn _ _ _ _ _ HS) as Hdn. rewrite (swapped_dn ch0 cc tok) in Hdn.
  eapply wp_query_exists; [exact Hdn|done|].
  apply wp_bind, wp_raise_when; [done|]. intros _.
  apply wp_bind. eapply wp_require_managed; [exact Hdn|]. apply wp_ret.
  apply (HF I'); [|exact HS]. by exists ix.
Qed.

Theorem recover_rstate ch T I fs :
  rstate ch T I -> St ch T I R fs ->
  wp en (_recover_session root a s) (fun _ => Final) no_exc no_crash fs.
Proof.
  intros Hst HS. destruct Hst as
    [I HL|I HL|I p HL Hp|I p HL Hp|I h p x HI Hp Hx|I h x HI Hd Hx|I x HI Hd Hx|I x removed t HI Hd Hx].
  - eapply wp_recover_none; [exact HS|apply H|]. exists ch0, None, I. split; [by constructor|done].
  - eapply (recover_abort "preparing" ch0 None); [exact HS|done|by left|apply H|apply H| | |done|].
    + eapply rb_dn, H.
    + eapply rb_rn, H.
    + rewrite !delete_id; [done|eapply rb_dn, H|]. rewrite delete_id; [eapply rb_rn, H|eapply rb_dn, H].
  - eapply (recover_abort p _ (Some (NDir sc))); [exact HS|done|done|eapply restored_current, H|
      eapply restored_checkpoints, H|eapply restored_dn, H|apply restored_rn|done|].
    rewrite (delete_id (ch_restored _ _ _)) by (eapply restored_dn, H).
    eapply delete_restored, H.
  - by eapply recover_moved.
  - by eapply recover_swapped.
  - by eapply recover_deleted.
  - eapply wp_recover_none; [exact HS| |exists (ch_final ch0 x), None, I; split; [by constructor|done]].
    intros n Hn. unfold ch_final. rewrite lookup_insert_ne; [by apply H|].
    intros <-. destruct Hn; discriminate.
  - by eapply recover_pending.
Qed.
End recovery.
