(* ===== verification/RollbackProof.v ===== *)
(** * The rollback, step by step

    In every environment whose renames are reliable, [rollback] returns in its
    final state, or it is interrupted in a state of [rstate]; in a calm
    environment it returns. *)

From Stdlib Require Import Ascii.
From Stdlib Require String.
From stdpp Require Import gmap pretty.
From S2P Require Import Prelude PyVal Ids CheckpointIndex FileSystem World StoreFiles Store.
From S2P Require Import StoreRecovery Backend SessionState SessionOps SessionWp Scrub.
From S2P Require Import Lineage CheckpointIndexFacts.
From S2P Require Import RollbackState.
Open Scope Z_scope.

Section rollback.
Context `{HB : SnapshotBackend} `{!BackendLaws HB} (root : string).
Context (a s : string) (Ha : ID_RE a = true) (Hs : ID_RE s = true) (base : node).
Context (en : env) (Htok : hex_tokens en) (Hren : renames_safe en).
Context (ch0 cc sc cps : gmap string node) (cid : string) (ixr : index).
Context (defer : bool) (recovery : option string) (scrub_runtime : pyval) (origin : string).
Context (R : string -> option node).
Hypothesis HR : match recovery with Some r => R r = None | None => True end.
Hypothesis H : forall tok, string_forallb is_hex tok = true ->
  rollback_setting ch0 cc sc cps cid ixr defer recovery scrub_runtime tok.

Notation St := (St a s base).
Local Abbreviation A := (dir_names cps).
Local Abbreviation tx := (tx cid defer recovery scrub_runtime origin).
Local Abbreviation rstate :=
  (rstate ch0 cc sc cps cid ixr defer recovery scrub_runtime origin).

(** The tree is in some state of the rollback. *)
Definition Interrupted (fs : node) : Prop :=
  exists tok ch T I, string_forallb is_hex tok = true /\ rstate tok ch T I /\ St ch T I R fs.

Local Abbreviation E := (failing en Interrupted).
Local Abbreviation C := (crashing en Interrupted).

Lemma interrupted tok ch T I fs :
  string_forallb is_hex tok = true -> rstate tok ch T I -> St ch T I R fs -> Interrupted fs.
Proof. intros. by exists tok, ch, T, I. Qed.

(** What a rollback that returns has done. *)
Definition Rolled_back (ix' : index) (fs : node) : Prop :=
  exists tok removed t, string_forallb is_hex tok = true /\
    St (if defer
        then ch_swapped ch0 cc tok (scrubbed (py_truthy scrub_runtime) (NDir sc))
        else ch_final ch0 (scrubbed (py_truthy scrub_runtime) (NDir sc)))
       (if defer
        then tx_committed cid defer recovery scrub_runtime origin tok removed t else None)
       (jfile (to_dict ix')) R fs.

Section token.
Context (tok : string) (Hhex : string_forallb is_hex tok = true).
Let Hset := H tok Hhex.
Local Abbreviation rn := (restore_name tok).
Local Abbreviation dn := (discard_name tok).

(** Failures that leave one of two states of the rollback. *)
Lemma tolerates_two ch T I ch' T' I' :
  rstate tok ch T I -> rstate tok ch' T' I' ->
  tolerates en (fun fs => St ch T I R fs \/ St ch' T' I' R fs) E C.
Proof.
  intros H1 H2 fs Hn HS. assert (Interrupted fs) as Hi.
  { destruct HS as [HS|HS]; (eapply (interrupted tok); [exact Hhex| |exact HS]); done. }
  split; [intros e|]; by split.
Qed.

Lemma tolerates_one ch T I :
  rstate tok ch T I -> tolerates en (St ch T I R) E C.
Proof.
  intros H1 fs Hn HS. assert (Interrupted fs) as Hi by by eapply (interrupted tok).
  split; [intros e|]; by split.
Qed.

(** The snapshot, and its cleanup when it fails. *)
Lemma wp_snapshot_or_cleanup I fs (Q : unit -> node -> Prop) :
  St ch0 (tx tok "preparing") I R fs -> loads A ixr I ->
  (forall fs', St (ch_restored ch0 sc tok) (tx tok "preparing") I R fs' -> Q () fs') ->
  wp en (on_error (snapshot (CPS a s ++ [cid]) (SD a s ++ [rn]) false)
           (delete_if_exists (SD a s ++ [rn]);; _clear_transaction a s)) Q E C fs.
Proof.
  intros HS HL HQ. unfold on_error. apply wp_try.
  assert (forall ch fs', ch = ch0 \/ ch = ch_restored ch0 sc tok ->
    St ch (tx tok "preparing") I R fs' -> ~ calm en -> forall e,
    wp en ((delete_if_exists (SD a s ++ [rn]);; _clear_transaction a s);; raise e) Q E C fs')
    as Hclean.
  { intros ch fs' Hch HS' Hn e. apply wp_bind, wp_bind. unfold delete_if_exists.
    pose proof (entry_get a s base rn _ _ _ _ _ HS') as Hrn.
    assert (forall fs2, St ch0 (tx tok "preparing") I R fs2 ->
      wp en (_clear_transaction a s) (fun _ => wp en (raise e) Q E C) E C fs2) as Hclear.
    { intros fs2 HS2. eapply (wp_clear_transaction a s Ha Hs base en); [exact HS2|done| |].
      - apply tolerates_two; by constructor.
      - intros fs3 HS3. apply wp_raise. split; [done|].
        eapply interrupted; [done|by apply rs_start|exact HS3]. }
    destruct Hch as [->| ->].
    - rewrite (rb_rn _ _ _ _ _ _ _ _ _ _ Hset) in Hrn.
      eapply wp_query_exists; [exact Hrn|done|]. simpl. by apply wp_ret, Hclear.
    - rewrite restored_rn in Hrn. eapply wp_query_exists; [exact Hrn|done|]. simpl.
      eapply (wp_delete_entry a s base en); [exact HS'|apply restored_rn| |].
      + apply tolerates_two; [apply rs_restored; auto|].
        rewrite (delete_restored _ _ _ _ _ _ _ _ _ _ Hset). by apply rs_preparing.
      + intros fs2 HS2. rewrite (delete_restored _ _ _ _ _ _ _ _ _ _ Hset) in HS2.
        by apply Hclear. }
  eapply (wp_snapshot_checkpoint a s base en cid rn cps sc);
    [exact HS|apply Hset|apply Hset|eapply rb_rn, Hset| |exact HQ].
  intros fs' Hn Hor. split.
  - intros e. destruct Hor as [HS'|HS']; (eapply Hclean; [|exact HS'|exact Hn]); auto.
  - split; [done|]. destruct Hor as [HS'|HS']; (eapply interrupted; [done| |exact HS']).
    + by apply rs_preparing.
    + apply rs_restored; auto.
Qed.

(** From the first transaction record to the installed workspace. *)
Lemma wp_rollback_swap I fs (Q : unit -> node -> Prop) :
  St ch0 None I R fs -> loads A ixr I ->
  (forall fs', St (ch_swapped ch0 cc tok (NDir sc)) (tx tok "old_moved") I R fs' -> Q () fs') ->
  wp en (rollback_swap a s (CPS a s ++ [cid]) (CUR a s) (SD a s ++ [rn]) (SD a s ++ [dn])
           (rtx cid defer recovery scrub_runtime origin tok)) Q E C fs.
Proof.
  intros HS HL HQ. unfold rollback_swap.
  pose proof (loads_file _ _ _ HL) as HIf.
  apply wp_bind. eapply (wp_write_transaction a s Ha Hs base en Htok); [exact HS|done|done| |].
  { apply (tolerates_two _ _ _ _ (tx tok "preparing")); by constructor. }
  clear fs HS. intros fs HS. change (jfile _) with (tx tok "preparing") in HS.
  apply wp_bind. eapply wp_snapshot_or_cleanup; [exact HS|done|].
  clear fs HS. intros fs HS.
  apply wp_bind. eapply (wp_write_transaction a s Ha Hs base en Htok); [exact HS|done|done| |].
  { apply (tolerates_two _ _ _ _ (tx tok "prepared")); constructor; auto. }
  clear fs HS. intros fs HS. change (jfile _) with (tx tok "prepared") in HS.
  apply wp_bind. eapply (wp_rename_entry a s base en "current" dn);
    [exact Hren|exact HS|eapply restored_current, Hset|eapply restored_dn, Hset|done| |].
  { apply tolerates_one. constructor; auto. }
  clear fs HS. intros fs HS. change (<[_ := _]> _) with (ch_moved ch0 cc sc tok) in HS.
  apply wp_bind. eapply (wp_write_transaction a s Ha Hs base en Htok); [exact HS|done|done| |].
  { apply (tolerates_two _ _ _ _ (tx tok "old_moved")); constructor; auto. }
  clear fs HS. intros fs HS. change (jfile _) with (tx tok "old_moved") in HS.
  unfold on_error. apply wp_try.
  destruct (St_move a s base rn "current" (NDir sc) _ _ _ _ _ HS) as (fs2 & Hmv & HS2);
    [apply moved_rn|apply moved_current|done|].
  rewrite (install_restored _ _ _ _ _ _ _ _ _ _ Hset) in HS2.
  change (CUR a s) with (SD a s ++ ["current"]).
  apply wp_rename; [exact Hren|..].
  - intros fs' Hm. apply HQ. congruence.
  - congruence.
  - intros Hn. split; [done|]. eapply interrupted; [done| |exact HS]. constructor; auto.
Qed.

(** The deferred end: the committed record stays for later cleanup. *)
Lemma wp_rollback_commit_deferred I fs ix' (Q : list string -> node -> Prop) :
  St (ch_swapped ch0 cc tok (NDir sc)) (tx tok "old_moved") I R fs -> loads A ixr I ->
  move_head ixr cid = Ok ix' -> defer = true ->
  (forall removed t fs',
     St (ch_swapped ch0 cc tok (scrubbed (py_truthy scrub_runtime) (NDir sc)))
       (tx_committed cid defer recovery scrub_runtime origin tok removed t)
       (jfile (to_dict ix')) R fs' -> Q removed fs') ->
  wp en (rollback_commit a s true scrub_runtime (CUR a s) (SD a s ++ [dn])
           (rtx cid defer recovery scrub_runtime origin tok) ixr cid) Q E C fs.
Proof.
  intros HS HL Hm Hd HQ. unfold rollback_commit.
  pose proof (rstate_good _ _ _ _ _ _ _ _ _ _ Hset _ HL) as HG.
  pose proof (rb_in _ _ _ _ _ _ _ _ _ _ Hset) as Hin.
  assert (good_index A ixr (Some cid) (jfile (to_dict ix'))) as HG'.
  { eapply good_index_move; [apply Hset|exact HL|apply Hset|done|done|exact Hin|exact Hm]. }
  apply wp_bind. eapply (wp_scrub_if a s base en); [exact HS|apply swapped_current|apply Hset| |].
  { intros fs' Hn (x' & Hx' & HS'). rewrite swapped_scrub in HS'.
    assert (Interrupted fs') as Hi.
    { eapply interrupted; [done| |exact HS']. eapply rs_swapped; [exact HG|auto|done]. }
    by split; [intros e|]; split. }
  clear fs HS. intros x' removed fs Hx' -> HS. rewrite swapped_scrub in HS.
  set (x' := scrubbed _ _) in *.
  apply wp_bind, wp_of_result. rewrite Hm.
  apply wp_bind. eapply (wp_save_index a s Ha Hs base en Htok);
    [exact HS|done|by eapply loads_file| |].
  { apply tolerates_two; (eapply rs_swapped; [eassumption|auto|done]). }
  clear fs HS. intros fs HS. apply wp_bind, wp_time. intros t.
  apply wp_bind. eapply (wp_write_transaction a s Ha Hs base en Htok); [exact HS|done|done| |].
  { apply (tolerates_two _ _ _ _
      (tx_committed cid defer recovery scrub_runtime origin tok removed t)).
    - eapply rs_swapped; [exact HG'|auto|done].
    - by apply rs_pending. }
  intros fs' HS'. apply wp_ret. by eapply HQ.
Qed.

(** The immediate end: scrub, delete the old workspace, move the head. *)
Lemma wp_rollback_commit_now I fs ix' (Q : list string -> node -> Prop) :
  St (ch_swapped ch0 cc tok (NDir sc)) (tx tok "old_moved") I R fs -> loads A ixr I ->
  move_head ixr cid = Ok ix' -> defer = false ->
  (forall removed fs',
     St (ch_final ch0 (scrubbed (py_truthy scrub_runtime) (NDir sc))) None
       (jfile (to_dict ix')) R fs' -> Q removed fs') ->
  wp en (rollback_commit a s false scrub_runtime (CUR a s) (SD a s ++ [dn])
           (rtx cid defer recovery scrub_runtime origin tok) ixr cid) Q E C fs.
Proof.
  intros HS HL Hm Hd HQ. unfold rollback_commit.
  pose proof (rstate_good _ _ _ _ _ _ _ _ _ _ Hset _ HL) as HG.
  pose proof (rb_in _ _ _ _ _ _ _ _ _ _ Hset) as Hin.
  assert (good_index A ixr (Some cid) (jfile (to_dict ix'))) as HG'.
  { eapply good_index_move; [apply Hset|exact HL|apply Hset|done|done|exact Hin|exact Hm]. }
  assert (scrub_between (NDir sc) (NDir sc)) as Hx0 by (apply scrub_between_refl, Hset).
  apply wp_bind. eapply (wp_write_transaction a s Ha Hs base en Htok);
    [exact HS|done|by eapply loads_file| |].
  { apply (tolerates_two _ _ _ _ (tx tok "committed"));
      (eapply rs_swapped; [exact HG|auto|done]). }
  clear fs HS. intros fs HS. change (jfile _) with (tx tok "committed") in HS.
  apply wp_bind. eapply (wp_scrub_if a s base en); [exact HS|apply swapped_current|apply Hset| |].
  { intros fs' Hn (x' & Hx' & HS'). rewrite swapped_scrub in HS'.
    assert (Interrupted fs') as Hi.
    { eapply interrupted; [done| |exact HS']. eapply rs_swapped; [exact HG|auto|done]. }
    by split; [intros e|]; split. }
  clear fs HS. intros x' removed fs Hx' -> HS. rewrite swapped_scrub in HS.
  set (x' := scrubbed _ _) in *.
  apply wp_bind. eapply (wp_delete_entry a s base en); [exact HS|apply swapped_dn| |].
  { rewrite (delete_discarded _ _ _ _ _ _ _ _ _ _ Hset). apply tolerates_two.
    - eapply rs_swapped; [exact HG|auto|done].
    - by eapply rs_deleted. }
  clear fs HS. intros fs HS. rewrite (delete_discarded _ _ _ _ _ _ _ _ _ _ Hset) in HS.
  apply wp_bind, wp_of_result. rewrite Hm.
  apply wp_bind. eapply (wp_save_index a s Ha Hs base en Htok);
    [exact HS|done|by eapply loads_file| |].
  { apply tolerates_two; by eapply rs_deleted. }
  clear fs HS. intros fs HS. apply wp_bind.
  eapply (wp_clear_transaction a s Ha Hs base en); [exact HS|done| |].
  { apply tolerates_two; [by eapply rs_deleted|by apply rs_done]. }
  intros fs' HS'. apply wp_ret. by eapply HQ.
Qed.

(** Either end: a state of the rollback, in which only the event is missing. *)
Lemma wp_rollback_commit I fs ix' (Q : list string -> node -> Prop) :
  St (ch_swapped ch0 cc tok (NDir sc)) (tx tok "old_moved") I R fs -> loads A ixr I ->
  move_head ixr cid = Ok ix' ->
  (forall removed ch T I' fs',
     St ch T I' R fs' -> rstate tok ch T I' ->
     (forall fs2, St ch T I' R fs2 -> Rolled_back ix' fs2) -> Q removed fs') ->
  wp en (rollback_commit a s defer scrub_runtime (CUR a s) (SD a s ++ [dn])
           (rtx cid defer recovery scrub_runtime origin tok) ixr cid) Q E C fs.
Proof.
  intros HS HL Hm HQ.
  assert (good_index A ixr (Some cid) (jfile (to_dict ix'))) as HG'.
  { eapply good_index_move; [apply Hset|exact HL|apply Hset|done|done| |exact Hm].
    exact (rb_in _ _ _ _ _ _ _ _ _ _ Hset). }
  assert (scrub_between (NDir sc) (scrubbed (py_truthy scrub_runtime) (NDir sc))) as Hx
    by (by apply scrubbed_between, Hset).
  destruct (Bool.bool_dec defer true) as [Hd|Hd%Bool.not_true_is_false].
  - rewrite Hd at 1. eapply wp_rollback_commit_deferred; [exact HS|done..|].
    intros removed t fs' HS'. eapply HQ; [exact HS'|by apply rs_pending|].
    intros fs2 HS2. exists tok, removed, t. split; [done|]. by rewrite Hd in HS2 |- *.
  - rewrite Hd at 1. eapply wp_rollback_commit_now; [exact HS|done..|].
    intros removed fs' HS'. eapply HQ; [exact HS'|by apply rs_done|].
    intros fs2 HS2. exists tok, [], 0. split; [done|]. by rewrite Hd.
Qed.
End token.

(** ** The whole operation *)

Context (checkpoint_id : option string) (num_ancestors : option Z).
Context (recovery_id defer_cleanup : pyval).
Hypothesis Hargs : rollback_arguments checkpoint_id num_ancestors scrub_runtime
  recovery_id defer_cleanup = Ok (defer, recovery).
Hypothesis Hresolve : resolve ixr checkpoint_id num_ancestors = Ok cid.
Hypothesis Hexact : defer = true -> checkpoint_id = Some cid.

Lemma wp_check_receipt fs T ch I (Q : option dict -> node -> Prop) E0 C0 :
  St ch T I R fs -> tolerates en (St ch T I R) E0 C0 -> Q None fs ->
  wp en (match recovery with
         | Some r => _load_recovery_receipt a s r
         | None => mret None end) Q E0 C0 fs.
Proof.
  intros HS HT HQ.
  pose proof (rb_mode _ _ _ _ _ _ _ _ _ _ (H EmptyString eq_refl)) as Hm.
  destruct recovery as [r|]; [|by apply wp_ret]. destruct Hm as (Hr & _).
  unfold _load_recovery_receipt. rewrite receipt_path_ok by done.
  apply wp_bind, wp_of_result, wp_bind.
  eapply (wp_load_object en (RCP a s r) _ _ _ None (St ch T I R)); [|exact HT|exact HS|].
  - rewrite (st_rcp HS r Hr). exact HR.
  - by apply wp_ret.
Qed.

Theorem rollback_wp I fs ix' :
  St ch0 None I R fs -> loads A ixr I -> move_head ixr cid = Ok ix' ->
  wp en (rollback root a s checkpoint_id num_ancestors scrub_runtime origin recovery_id
           defer_cleanup)
     (fun res fs' => Rolled_back ix' fs' /\ dgetn "checkpoint_id" res = PStr cid) E C fs.
Proof.
  intros HS HL Hm. unfold rollback. rewrite Hargs. apply wp_bind, wp_of_result.
  cbn [fst snd]. pose proof (H EmptyString eq_refl) as H0.
  assert (forall J fs', loads A ixr J -> St ch0 None J R fs' -> Interrupted fs') as Hstart.
  { intros J fs' HJ HS'. eapply (interrupted EmptyString); [done|by apply rs_start|done]. }
  assert (forall J, loads A ixr J -> tolerates en (St ch0 None J R) E C) as Htol.
  { intros J HJ fs' Hn HS'. split; [intros e|]; (split; [done|]); by eapply Hstart. }
  apply wp_bind. eapply (wp_session_lock a s Ha Hs base en Htok); [exact HS|by apply Htol|].
  clear fs HS. intros fs HS. apply wp_bind.
  eapply (wp_load_transaction a s Ha Hs base en None); [exact HS|by apply Htol|].
  apply wp_bind, wp_raise_when; [by intros ?%bool_decide_eq_true|]. intros _.
  apply wp_bind. eapply wp_check_receipt; [exact HS|by apply Htol|].
  apply wp_bind, wp_raise_when; [by intros ?%bool_decide_eq_true|]. intros _.
  apply wp_bind. eapply (wp_load_index root a s Ha Hs base en Htok);
    [exact HS|done|exact (rb_checkpoints _ _ _ _ _ _ _ _ _ _ H0)|exact HL| |].
  { intros fs' Hn (I' & HL' & HS'). split; [intros e|]; (split; [done|]); by eapply Hstart. }
  clear fs HS HL I. intros I fs HL HS. apply wp_bind, wp_try, wp_of_result. rewrite Hresolve.
  apply wp_bind, wp_raise_when.
  { destruct defer eqn:Ed; [|done]. rewrite (Hexact eq_refl), bool_decide_eq_true_2; done. }
  intros _. rewrite checkpoints_dir_ok, current_ok by done.
  apply wp_bind, wp_of_result, wp_bind, wp_of_result. cbv zeta.
  assert (get (CPS a s ++ [cid]) fs = Some (NDir sc)) as Hsrc.
  { change (CPS a s ++ [cid]) with (SD a s ++ "checkpoints" :: [cid]).
    rewrite (get_entry a s base _ _ _ _ _ _ _ HS), (rb_checkpoints _ _ _ _ _ _ _ _ _ _ H0).
    simpl. by rewrite (rb_source _ _ _ _ _ _ _ _ _ _ H0). }
  pose proof (entry_get a s base "current" _ _ _ _ _ HS) as Hcur.
  rewrite (rb_current _ _ _ _ _ _ _ _ _ _ H0) in Hcur.
  eapply wp_query_exists; [exact Hsrc|done|].
  apply wp_bind, wp_raise_when; [done|]. intros _.
  eapply wp_query_exists; [exact Hcur|done|].
  apply wp_bind, wp_raise_when; [done|]. intros _.
  apply wp_bind. eapply wp_require_managed; [exact Hsrc|].
  apply wp_bind. eapply wp_require_managed; [exact Hcur|].
  apply wp_bind, wp_uuid; [done|]. intros tok Hhex.
  change (parent_of (CUR a s)) with (SD a s).
  apply wp_bind. apply (wp_rollback_swap tok Hhex I); [exact HS|exact HL|].
  clear fs HS Hsrc Hcur. intros fs HS.
  apply wp_bind.
  apply (wp_rollback_commit tok Hhex I fs ix'); [exact HS|exact HL|exact Hm|].
  clear fs HS. intros removed ch T I' fs HS HT Hend.
  apply wp_bind. eapply (wp_append_event a s Ha Hs base en Htok); [exact HS| |].
  { by apply (tolerates_one tok). }
  intros fs' HS'. apply wp_ret, wp_ret. split; [|done]. by apply Hend.
Qed.
End rollback.
