(* ===== verification/SessionReady.v ===== *)
(** * A session between operations

    [idle] says that no operation on a session is in progress: its workspace
    and its checkpoint directory exist, no transaction and no leftover
    directory is there, and its index loads as a well-formed lineage.  It is
    the state every operation of the store starts from and ends in.  What does
    not depend on the other components is checked by boolean functions. *)

From Stdlib Require Import Ascii.
From Stdlib Require String.
From stdpp Require Import gmap pretty.
From S2P Require Import Prelude PyVal Ids CheckpointIndex FileSystem World StoreFiles Store.
From S2P Require Import StoreRecovery Backend SessionState SessionOps SessionWp Scrub Lineage.
From S2P Require Import CheckpointIndexFacts RollbackState.
Open Scope Z_scope.

(** ** Boolean forms *)

Definition dir_or_noneb (o : option node) : bool :=
  match o with None | Some (NDir _) => true | _ => false end.

Definition file_or_noneb (o : option node) : bool :=
  match o with None | Some (NFile _) => true | _ => false end.

Definition dirs_okb (d : path) (fs : node) : bool :=
  forallb (fun n => dir_or_noneb (get (take n d) fs)) (seq 0 (S (length d))).

(** Hidden entries of a directory are files. *)
Definition hidden_filesb (d : path) (fs : node) : bool :=
  match get d fs with
  | Some (NDir m) =>
      forallb (fun kv => negb (hidden kv.1) || file_or_noneb (Some kv.2)) (map_to_list m)
  | _ => true
  end.

(** The metadata area can be written for the session. *)
Definition session_ready (a s : string) (fs : node) : bool :=
  forallb (fun t => dirs_okb (parent_of t) fs) (RCP a s EmptyString :: metadata_files a s)
  && file_or_noneb (get (EV a s) fs) && file_or_noneb (get (LOCK a s) fs)
  && forallb (fun t => hidden_filesb (parent_of t) fs) [TXN a s; IDX a s].

Definition leftover (n : string) : bool :=
  starts_with ".restore-" n || starts_with ".discard-" n.

Definition session_clean (ch : gmap string node) : bool :=
  forallb (fun kv => negb (leftover kv.1)) (map_to_list ch).

Definition checkpoint_ids_valid (cps : gmap string node) : bool :=
  forallb (fun kv => negb (dir_node kv.2) || ID_RE kv.1) (map_to_list cps).

Lemma dir_or_noneb_spec o : dir_or_noneb o = true <-> dir_or_none o.
Proof. destruct o as [[]|]; by split. Qed.

Lemma file_or_noneb_spec o : file_or_noneb o = true <-> file_or_none o.
Proof. destruct o as [[]|]; by split. Qed.

Lemma dirs_okb_spec d fs : dirs_okb d fs = true <-> dirs_ok d fs.
Proof.
  unfold dirs_okb, dirs_ok. rewrite forallb_forall. split.
  - intros H q [r ->]. specialize (H (length q)).
    rewrite take_app_length in H. apply dir_or_noneb_spec, H, in_seq.
    rewrite length_app. lia.
  - intros H n _. apply dir_or_noneb_spec, H. exists (drop n d). by rewrite take_drop.
Qed.

Lemma hidden_filesb_spec d fs :
  hidden_filesb d fs = true <->
  forall x, hidden x = true -> file_or_none (get (d ++ [x]) fs).
Proof.
  unfold hidden_filesb. split.
  - intros H x Hx. rewrite get_app. destruct (get d fs) as [[m| | | | |]|]; try done. simpl.
    destruct (m !! x) as [n|] eqn:Hn; [|done]. simpl.
    rewrite forallb_forall in H. specialize (H (x, n)).
    rewrite <- list_elem_of_In, elem_of_map_to_list in H. specialize (H Hn).
    simpl in H. rewrite Hx in H. by apply (file_or_noneb_spec (Some n)).
  - intros H. destruct (get d fs) as [[m| | | | |]|] eqn:Hd; try done.
    apply forallb_forall. intros [x n]. rewrite <- list_elem_of_In, elem_of_map_to_list. simpl.
    intros Hn. destruct (hidden x) eqn:Hx; [|done]. simpl. apply (file_or_noneb_spec (Some n)).
    specialize (H x Hx). rewrite get_app, Hd in H. simpl in H. by rewrite Hn in H.
Qed.

Lemma session_clean_spec ch :
  session_clean ch = true <->
  forall n, starts_with ".restore-" n = true \/ starts_with ".discard-" n = true ->
    ch !! n = None.
Proof.
  unfold session_clean. rewrite forallb_forall. split.
  - intros H n Hn. destruct (ch !! n) as [x|] eqn:Hx; [|done].
    specialize (H (n, x)). rewrite <- list_elem_of_In, elem_of_map_to_list in H.
    specialize (H Hx). unfold leftover in H. simpl in H.
    destruct Hn as [Hn|Hn]; rewrite Hn in H; [done|]. by rewrite orb_true_r in H.
  - intros H [n x]. rewrite <- list_elem_of_In, elem_of_map_to_list. simpl. intros Hx.
    unfold leftover. destruct (starts_with ".restore-" n) eqn:E1; [by rewrite H in Hx; auto|].
    destruct (starts_with ".discard-" n) eqn:E2; [by rewrite H in Hx; auto|done].
Qed.

Lemma checkpoint_ids_valid_spec cps :
  checkpoint_ids_valid cps = true <-> forall x, x ∈ dir_names cps -> ID_RE x = true.
Proof.
  unfold checkpoint_ids_valid. rewrite forallb_forall. split.
  - intros H x (n & Hn & Hd)%elem_of_dir_names. specialize (H (x, n)).
    rewrite <- list_elem_of_In, elem_of_map_to_list in H. specialize (H Hn). simpl in H.
    by rewrite Hd in H.
  - intros H [x n]. rewrite <- list_elem_of_In, elem_of_map_to_list. simpl. intros Hn.
    destruct (dir_node n) eqn:Hd; [|done]. apply H, elem_of_dir_names. eauto.
Qed.

(** ** Idle sessions *)

Section idle.
Context (a s : string).

(** Everything needed to describe the session: its directory [ch], its
    workspace [cc], its checkpoints [cps] and its lineage [ix]. *)
Record idle (fs : node) (ch cc cps : gmap string node) (ix : index) : Prop := Idle {
  idle_ready : session_ready a s fs = true;
  idle_dir : get (SD a s) fs = Some (NDir ch);
  idle_current : ch !! "current" = Some (NDir cc);
  idle_checkpoints : ch !! "checkpoints" = Some (NDir cps);
  idle_clean : session_clean ch = true;
  idle_names : checkpoint_ids_valid cps = true;
  idle_txn : get (TXN a s) fs = None;
  idle_index : loads (dir_names cps) ix (get (IDX a s) fs);
  idle_wf : index_wf ix }.

Definition receipts (fs : node) (r : string) : option node := get (RCP a s r) fs.

Lemma St_ready fs ch :
  session_ready a s fs = true -> get (SD a s) fs = Some (NDir ch) ->
  St a s fs ch (get (TXN a s) fs) (get (IDX a s) fs) (receipts fs) fs.
Proof.
  unfold session_ready. intros [[[Hd He]%andb_prop Hl]%andb_prop Ht]%andb_prop Hsd.
  rewrite forallb_forall in Hd, Ht. split; try done.
  - intros t Hin. apply dirs_okb_spec, Hd. right. by apply list_elem_of_In.
  - apply dirs_okb_spec, Hd. by left.
  - by apply file_or_noneb_spec.
  - by apply file_or_noneb_spec.
  - intros t x Hin Hx. eapply hidden_filesb_spec; [|done]. apply Ht. by apply list_elem_of_In.
Qed.

Lemma ready_St base ch T I R fs : St a s base ch T I R fs -> session_ready a s fs = true.
Proof.
  intros HS. unfold session_ready. rewrite !andb_true_iff, !forallb_forall. repeat split.
  - intros t Hin%list_elem_of_In. apply dirs_okb_spec. rewrite elem_of_cons in Hin.
    destruct Hin as [->|Hin]; [apply (st_rdir HS)|by apply (st_dirs HS)].
  - apply file_or_noneb_spec, (st_ev HS).
  - apply file_or_noneb_spec, (st_lock HS).
  - intros t Hin%list_elem_of_In. apply hidden_filesb_spec. intros x. by apply (st_tmp HS).
Qed.

Lemma idle_St fs ch cc cps ix :
  idle fs ch cc cps ix -> St a s fs ch None (get (IDX a s) fs) (receipts fs) fs.
Proof. intros H. rewrite <- (idle_txn _ _ _ _ _ H). apply St_ready; apply H. Qed.

Lemma St_idle base ch cc cps ix I R fs :
  St a s base ch None I R fs -> ch !! "current" = Some (NDir cc) ->
  ch !! "checkpoints" = Some (NDir cps) -> session_clean ch = true ->
  checkpoint_ids_valid cps = true -> loads (dir_names cps) ix I -> index_wf ix ->
  idle fs ch cc cps ix.
Proof.
  intros HS ? ? ? ? HL ?. split; try done.
  - by eapply ready_St.
  - apply (st_sd HS).
  - apply (st_txn HS).
  - by rewrite (st_idx HS).
Qed.

Lemma session_clean_current ch x :
  session_clean ch = true -> session_clean (<["current" := x]> ch) = true.
Proof.
  rewrite !session_clean_spec. intros H n Hn. rewrite lookup_insert_ne; [by apply H|].
  intros <-. by destruct Hn.
Qed.

Lemma session_clean_checkpoints ch x :
  session_clean ch = true -> session_clean (<["checkpoints" := x]> ch) = true.
Proof.
  rewrite !session_clean_spec. intros H n Hn. rewrite lookup_insert_ne; [by apply H|].
  intros <-. by destruct Hn.
Qed.

(** The setting of a rollback to the checkpoint [cid]. *)
Lemma idle_setting fs ch cc cps ix cid sc defer recovery scrub_runtime tok :
  idle fs ch cc cps ix -> cps !! cid = Some (NDir sc) -> tmp_plain (NDir sc) ->
  match recovery with
  | Some r => ID_RE r = true /\ defer = true /\ is_bool scrub_runtime = true
  | None => defer = false
  end -> string_forallb is_hex tok = true ->
  rollback_setting ch cc sc cps cid ix defer recovery scrub_runtime tok.
Proof.
  intros H Hsc Htmp Hm Htok.
  assert (forall x, x ∈ dir_names cps -> ID_RE x = true) as Hn
    by (apply checkpoint_ids_valid_spec, H).
  split; try done; try apply H.
  - apply Hn, elem_of_dir_names. by exists (NDir sc).
  - apply session_clean_spec, H.
Qed.

(** The agent may put anything in its workspace. *)
Lemma idle_put_current fs ch cc cps ix cc2 :
  idle fs ch cc cps ix ->
  exists fs2, put (CUR a s) (NDir cc2) (Some fs) = Some fs2 /\
    (forall q, foreign a s q -> get q fs2 = get q fs) /\
    idle fs2 (<["current" := NDir cc2]> ch) cc2 cps ix.
Proof.
  intros H. destruct (St_put a s fs "current" [] (NDir cc2) (NDir cc2) _ _ _ _ _ (idle_St _ _ _ _ _ H))
    as (fs2 & Hput & HS); [done|].
  exists fs2. split; [exact Hput|]. split; [exact (st_frame HS)|].
  eapply St_idle; [exact HS|apply lookup_insert_eq|..]; try apply H.
  - rewrite lookup_insert_ne by done. apply H.
  - apply session_clean_current, H.
Qed.
End idle.

(** * A session to try the store on

    The store run on the tree backend: a session with a file and a socket in
    its runtime directory, one checkpoint, and a change after it.  The
    concrete instances of the store's properties start from this tree. *)

(** Nothing fails; the clock counts operations. *)
Definition demo_env : env := Env (fun n => Z.of_nat n) (fun _ => "abc") (fun _ => Go) (fun _ => Go).

Lemma demo_calm : calm demo_env.
Proof. by split. Qed.

Lemma demo_hex : hex_tokens demo_env.
Proof. by intros n. Qed.

(** What the agent does in its workspace. *)
Definition agent_puts (p : path) (n : node) : M unit :=
  effect e_fate (os_op "agent" (fun fs => put (CUR "a1" "s1" ++ p) n (Some fs))).

Existing Instance tree_backend.

Definition demo_setup : M unit :=
  initialize "/allox";;
  create_session "/allox" "a1" "s1" "manual";;
  agent_puts ["note"] (NFile (CRaw "first"));;
  agent_puts [TMP; "ipc"] NSock;;
  create_checkpoint "/allox" "a1" "s1" (Some "c1") "manual" None true PNone;;
  agent_puts ["note"] (NFile (CRaw "second")).

Definition run_from (fs : node) : world := World fs 0 [].

Lemma run_from_fs fs : w_fs (run_from fs) = fs.
Proof. done. Qed.

Definition final_tree {A} (r : outcome A * world) : node := w_fs (snd r).

Definition demo_fs : node := final_tree (demo_setup demo_env (run_from (NDir ∅))).

Definition entries_at (p : path) (fs : node) : gmap string node :=
  match get p fs with Some (NDir ch) => ch | _ => ∅ end.

Definition demo_ch : gmap string node := entries_at (SD "a1" "s1") demo_fs.
Definition demo_cc : gmap string node := entries_at (CUR "a1" "s1") demo_fs.
Definition demo_cps : gmap string node := entries_at (CPS "a1" "s1") demo_fs.
Definition demo_sc : gmap string node := entries_at (CPS "a1" "s1" ++ ["c1"]) demo_fs.

(** The index file and what it decodes to. *)
Definition demo_dict : dict :=
  match get (IDX "a1" "s1") demo_fs with Some (NFile (CJson (PDict d))) => d | _ => [] end.

Definition demo_saved : index :=
  match from_dict demo_dict with Ok ix => ix | Err _ => empty_index end.

Definition demo_ix : index := (reconcile demo_saved (dir_names demo_cps)).1.

Lemma demo_saved_reachable : index_reachable demo_saved.
Proof.
  assert (exists t, add empty_index "c1" t "manual" None true PNone = Ok demo_saved) as [t Ht].
  { exists 34. vm_compute. reflexivity. }
  eapply rtc_l; [|apply rtc_refl]. eapply (index_step_add _ "c1"); [|exact Ht]. reflexivity.
Qed.

Lemma demo_ids x : x ∈ dir_names demo_cps -> ID_RE x = true.
Proof. apply checkpoint_ids_valid_spec. vm_compute. reflexivity. Qed.

Lemma demo_idle : idle "a1" "s1" demo_fs demo_ch demo_cc demo_cps demo_ix.
Proof.
  apply Idle.
  1-7: vm_compute; reflexivity.
  - right. exists demo_dict, demo_saved.
    split; [|split]; vm_compute; reflexivity.
  - exact (index_step_wf _ _ (index_step_reconcile _ _ demo_ids) (reachable_wf _ demo_saved_reachable)).
Qed.

Lemma demo_checkpoint : demo_cps !! "c1" = Some (NDir demo_sc).
Proof. vm_compute. reflexivity. Qed.

Lemma demo_tmp : tmp_plain (NDir demo_sc).
Proof. vm_compute. exact I. Qed.
