(* ===== verification/RollbackSpec.v ===== *)
(** * Properties of the rollback and of its recovery

    A rollback is atomic: whatever operation fails and wherever the machine
    stops, the next recovery finds the session as it was before the rollback
    or as the rollback leaves it, and nothing outside the session is touched. *)

From Stdlib Require Import Ascii.
From Stdlib Require String.
From stdpp Require Import gmap pretty.
From S2P Require Import Prelude PyVal Ids CheckpointIndex FileSystem World StoreFiles Store.
From S2P Require Import StoreRecovery Backend SessionState SessionOps SessionWp Scrub.
From S2P Require Import Lineage CheckpointIndexFacts.
From S2P Require Import RollbackState RecoveryProof RollbackProof SessionReady.
Open Scope Z_scope.

(** ** Where an interrupted rollback ends *)

Section states.
Context (a s : string) (fs : node) (ch cc sc cps : gmap string node) (ix : index).
Context (cid : string) (recovery : option string) (scrub_runtime : pyval) (origin : string).

(** The lineage after the rollback: the head has moved, nothing else. *)
Definition head_moved (ix' : index) : Prop :=
  head ix' = Some cid /\ forall y, parent_value ix' y = parent_value ix y.

(** Nothing outside the session has changed. *)
Definition only_session (fs' : node) : Prop :=
  forall q, foreign a s q -> get q fs' = get q fs.

(** A committed deferred rollback: the old workspace is kept aside, and the
    transaction says so. *)
Definition pending (fs' : node) (x : gmap string node) (ix' : index) : Prop :=
  exists tok removed t,
    string_forallb is_hex tok = true /\
    session_ready a s fs' = true /\
    get (SD a s) fs' = Some (NDir (ch_swapped ch cc tok (NDir x))) /\
    get (TXN a s) fs' = tx_committed cid true recovery scrub_runtime origin tok removed t /\
    loads (dir_names cps) ix' (get (IDX a s) fs') /\ index_wf ix'.

Inductive settled (defer : bool) (fs' : node) : Prop :=
  | settled_before : idle a s fs' ch cc cps ix -> settled defer fs'
  | settled_after x ix' :
      defer = false -> scrub_between (NDir sc) (NDir x) -> head_moved ix' ->
      idle a s fs' (<["current" := NDir x]> ch) x cps ix' -> settled defer fs'
  | settled_pending x ix' :
      defer = true -> scrub_between (NDir sc) (NDir x) -> head_moved ix' ->
      pending fs' x ix' -> settled defer fs'.
End states.

(** The modes the argument checks let through. *)
Lemma rollback_arguments_mode c n scrub rid dc defer recovery :
  rollback_arguments c n scrub rid dc = Ok (defer, recovery) ->
  match recovery with
  | Some r => ID_RE r = true /\ defer = true /\ is_bool scrub = true
  | None => defer = false
  end.
Proof.
  unfold rollback_arguments. destruct dc as [|dc| | | | |]; try done. intros H.
  apply result_bind_Ok in H as ([] & _ & H).
  apply result_bind_Ok in H as (rec & Hrec & H).
  apply result_bind_Ok in H as ([] & Hmode & [= -> ->]).
  destruct defer.
  - ok_inv. destruct recovery as [r|]; [|done]. rewrite negb_false_iff in *.
    destruct rid; try done. ok_inv. rewrite validate_id_Ok in *. naive_solver.
  - ok_inv. by destruct recovery.
Qed.

Section rollback.
Context `{HB : SnapshotBackend} `{!BackendLaws HB} (root : string).
Context (a s : string) (Ha : ID_RE a = true) (Hs : ID_RE s = true).
Context (fs : node) (ch cc sc cps : gmap string node) (ix : index).
Context (Hidle : idle a s fs ch cc cps ix).
Context (cid : string) (Hcid : cps !! cid = Some (NDir sc)) (Htmp : tmp_plain (NDir sc)).
Context (checkpoint_id : option string) (num_ancestors : option Z).
Context (scrub_runtime recovery_id defer_cleanup : pyval) (origin : string).
Context (defer : bool) (recovery : option string).
Context (Hargs : rollback_arguments checkpoint_id num_ancestors scrub_runtime
  recovery_id defer_cleanup = Ok (defer, recovery)).
Context (Hresolve : resolve ix checkpoint_id num_ancestors = Ok cid).
Context (Hexact : defer = true -> checkpoint_id = Some cid).
Context (Hfresh : match recovery with Some r => receipts a s fs r = None | None => True end).

Local Abbreviation run := (rollback root a s checkpoint_id num_ancestors scrub_runtime origin
  recovery_id defer_cleanup).
Local Abbreviation settled := (settled a s ch cc sc cps ix cid recovery scrub_runtime origin defer).

Let Hmode := rollback_arguments_mode _ _ _ _ _ _ _ Hargs.

Lemma setting tok :
  string_forallb is_hex tok = true ->
  rollback_setting ch cc sc cps cid ix defer recovery scrub_runtime tok.
Proof. intros. by eapply idle_setting. Qed.

Lemma final_settled tok fs' :
  string_forallb is_hex tok = true ->
  Final a s fs ch cc sc cps cid ix defer recovery scrub_runtime origin tok (receipts a s fs) fs' ->
  only_session a s fs fs' /\ settled fs'.
Proof.
  intros Htok (ch1 & T & I & Hst & HS). split; [exact (st_frame HS)|].
  destruct Hst as [I HL|I x (ix' & HL & Hwf & Hh & Hp) Hd Hx|I x removed t
    (ix' & HL & Hwf & Hh & Hp) Hd Hx].
  - apply settled_before. eapply St_idle; [exact HS|apply Hidle..|exact HL|apply Hidle].
  - destruct Hx as ([x' ->] & Hpl & Hsc). eapply (settled_after _ _ _ _ _ _ _ _ _ _ _ _ _ x' ix');
      [done|by split; [eexists|]|done|].
    eapply St_idle; [exact HS|apply lookup_insert_eq|..].
    + rewrite lookup_insert_ne by done. apply Hidle.
    + apply session_clean_current, Hidle.
    + apply Hidle.
    + exact HL.
    + exact Hwf.
  - destruct Hx as ([x' ->] & Hpl & Hsc). eapply (settled_pending _ _ _ _ _ _ _ _ _ _ _ _ _ x' ix');
      [done|by split; [eexists|]|done|].
    exists tok, removed, t. split; [done|]. split; [by eapply ready_St|].
    split; [apply (st_sd HS)|]. split; [|by rewrite (st_idx HS)].
    rewrite (st_txn HS). by rewrite Hd.
Qed.

Lemma cid_present : cid ∈ dir_names cps.
Proof. apply elem_of_dir_names. by exists (NDir sc). Qed.

Lemma head_move : exists ix', move_head ix cid = Ok ix'.
Proof. eapply move_head_ok; [apply Hidle|apply Hidle|apply cid_present]. Qed.

Lemma wp_run en :
  hex_tokens en -> renames_safe en ->
  exists ix', move_head ix cid = Ok ix' /\
  wp en run
    (fun res fs' => Rolled_back a s fs ch cc sc cid defer recovery scrub_runtime origin
                      (receipts a s fs) ix' fs' /\ dgetn "checkpoint_id" res = PStr cid)
    (failing en (Interrupted a s fs ch cc sc cps cid ix defer recovery scrub_runtime origin
                   (receipts a s fs)))
    (crashing en (Interrupted a s fs ch cc sc cps cid ix defer recovery scrub_runtime origin
                   (receipts a s fs))) fs.
Proof.
  intros Htok Hren. destruct head_move as [ix' Hm]. exists ix'. split; [done|].
  eapply rollback_wp; try done.
  - exact setting.
  - by eapply idle_St.
  - apply Hidle.
Qed.

(** The lineage a rollback that returned has saved. *)
Lemma moved_index ix' :
  move_head ix cid = Ok ix' ->
  good_index (dir_names cps) ix (Some cid) (jfile (to_dict ix')).
Proof.
  intros Hm. eapply good_index_move; [|apply Hidle|apply Hidle|done|done|apply cid_present|done].
  apply checkpoint_ids_valid_spec, Hidle.
Qed.

Lemma rolled_back_state ix' fs' :
  move_head ix cid = Ok ix' ->
  Rolled_back a s fs ch cc sc cid defer recovery scrub_runtime origin
    (receipts a s fs) ix' fs' ->
  Interrupted a s fs ch cc sc cps cid ix defer recovery scrub_runtime origin
    (receipts a s fs) fs'.
Proof.
  intros Hm (tok & removed & t & Hhex & HS). eexists tok, _, _, _.
  split; [done|]. split; [|exact HS].
  pose proof (moved_index _ Hm) as HG. pose proof (scrubbed_between (py_truthy scrub_runtime) _ Htmp).
  destruct (Bool.bool_dec defer true) as [Hd|Hd%Bool.not_true_is_false].
  - rewrite !if_eq_true by done. by apply rs_pending.
  - rewrite !if_eq_false by done. by apply rs_done.
Qed.


Lemma rollback_run_now en w :
  defer = false -> hex_tokens en -> calm en -> w_fs w = fs ->
  exists res w1 x ix', run en w = (Ret res, w1) /\
    dgetn "checkpoint_id" res = PStr cid /\
    NDir x = scrubbed (py_truthy scrub_runtime) (NDir sc) /\
    move_head ix cid = Ok ix' /\ only_session a s fs (w_fs w1) /\
    idle a s (w_fs w1) (<["current" := NDir x]> ch) x cps ix'.
Proof.
  intros Hd Htok Hcalm Hw.
  destruct (wp_run en Htok (calm_renames_safe _ Hcalm)) as (ix' & Hm & Hwp). specialize (Hwp w Hw).
  destruct (run en w) as [[res|e|] w1]; [|by destruct Hwp..].
  destruct Hwp as ((tok & removed & t & Hhex & HS) & Hres).
  rewrite !if_eq_false in HS by done.
  destruct (scrubbed_between (py_truthy scrub_runtime) _ Htmp) as ([x Hx] & _).
  exists res, w1, x, ix'. do 4 (split; [done|]).
  split; [exact (st_frame HS)|]. rewrite Hx in HS. pose proof cid_present as Hin.
  eapply St_idle; [exact HS|apply lookup_insert_eq|..]; try apply Hidle.
  - rewrite lookup_insert_ne by done. apply Hidle.
  - apply session_clean_current, Hidle.
  - apply saved_loads; [|exists (to_dict ix'); by rewrite dict_roundtrip].
    eapply agrees_move_head; [eapply loads_agrees, Hidle|exact Hin|done].
  - eapply index_step_wf; [by eapply index_step_move|apply Hidle].
Qed.

(** C2: In an environment where no operation fails, a rollback returns with
    the checkpoint it was asked for, installed exactly, scrubbed of its runtime
    entries when asked; the head of the lineage moves to it, every checkpoint
    stays, and nothing outside the session changes. *)
Theorem rollback_restores_checkpoint en w :
  defer = false -> hex_tokens en -> calm en -> w_fs w = fs ->
  exists res w1 x ix', run en w = (Ret res, w1) /\
    dgetn "checkpoint_id" res = PStr cid /\
    NDir x = scrubbed (py_truthy scrub_runtime) (NDir sc) /\
    move_head ix cid = Ok ix' /\ only_session a s fs (w_fs w1) /\
    idle a s (w_fs w1) (<["current" := NDir x]> ch) x cps ix'.
Proof. apply rollback_run_now. Qed.

(** Also: In an environment where no operation fails, a deferred rollback
    returns with the checkpoint installed, the head moved, the old workspace
    kept beside it and the transaction recorded as committed. *)
Theorem rollback_deferred_pending en w :
  defer = true -> hex_tokens en -> calm en -> w_fs w = fs ->
  exists res w1 x ix', run en w = (Ret res, w1) /\
    dgetn "checkpoint_id" res = PStr cid /\
    NDir x = scrubbed (py_truthy scrub_runtime) (NDir sc) /\
    head_moved ix cid ix' /\ only_session a s fs (w_fs w1) /\
    pending a s ch cc cps cid recovery scrub_runtime origin (w_fs w1) x ix'.
Proof.
  intros Hd Htok Hcalm Hw.
  destruct (wp_run en Htok (calm_renames_safe _ Hcalm)) as (ix' & Hm & Hwp). specialize (Hwp w Hw).
  destruct (run en w) as [[res|e|] w1]; [|by destruct Hwp..].
  destruct Hwp as ((tok & removed & t & Hhex & HS) & Hres).
  rewrite !if_eq_true in HS by done.
  destruct (moved_index _ Hm) as (ix2 & HL2 & Hwf2 & Hh2 & Hp2).
  destruct (scrubbed_between (py_truthy scrub_runtime) _ Htmp) as ([x Hx] & _).
  exists res, w1, x, ix2. split; [done|]. split; [done|]. split; [done|]. split; [done|].
  split; [exact (st_frame HS)|]. rewrite Hx in HS.
  exists tok, removed, t. split; [done|]. split; [by eapply ready_St|].
  split; [apply (st_sd HS)|]. split; [|by rewrite (st_idx HS)].
  rewrite (st_txn HS). by rewrite Hd.
Qed.
End rollback.

(** Also: Recovery is quiet: on a session where no operation is in progress it
    returns [False] and leaves the whole tree as it is. *)
Theorem recover_idle `{HB : SnapshotBackend} root a s fs ch cc cps ix en w :
  ID_RE a = true -> ID_RE s = true -> idle a s fs ch cc cps ix ->
  calm en -> w_fs w = fs ->
  exists w1, _recover_session root a s en w = (Ret false, w1) /\ w_fs w1 = fs.
Proof.
  intros Ha Hs H Hcalm Hw.
  pose proof (idle_St _ _ _ _ _ _ _ H) as HS.
  assert (wp en (_recover_session root a s) (fun b fs' => b = false /\ fs' = fs)
            no_exc no_crash fs) as Hwp.
  { eapply (wp_recover_none root a s Ha Hs fs en Hcalm (receipts a s fs) ch); [exact HS| |done].
    apply session_clean_spec, H. }
  specialize (Hwp w Hw). destruct (_recover_session root a s en w) as [[b|e|] w1]; [|done..].
  destruct Hwp as [-> ?]. by exists w1.
Qed.

(** ** The demo session *)

Section witnesses.
Existing Instance tree_backend.

Definition demo_rollback : M dict :=
  rollback "/allox" "a1" "s1" (Some "c1") None (PBool true) "manual" PNone (PBool false).

Definition demo_deferred : M dict :=
  rollback "/allox" "a1" "s1" (Some "c1") None (PBool true) "manual" (PStr "r1") (PBool true).

(** The machine stops at the first rename inside the session. *)
Definition demo_crash : env :=
  Env (fun n => Z.of_nat n) (fun _ => "abc") (fun _ => Go) (fun _ => Halt).


Lemma rollback_restores_checkpoint_witness :
  exists res w1 x ix', demo_rollback demo_env (run_from demo_fs) = (Ret res, w1) /\
    dgetn "checkpoint_id" res = PStr "c1" /\
    NDir x = scrubbed true (NDir demo_sc) /\
    move_head demo_ix "c1" = Ok ix' /\ only_session "a1" "s1" demo_fs (w_fs w1) /\
    idle "a1" "s1" (w_fs w1) (<["current" := NDir x]> demo_ch) x demo_cps ix'.
Proof.
  apply (rollback_restores_checkpoint "/allox" "a1" "s1" eq_refl eq_refl demo_fs demo_ch demo_cc
    demo_sc demo_cps demo_ix demo_idle "c1" demo_checkpoint demo_tmp (Some "c1") None (PBool true)
    PNone (PBool false) "manual" false None ltac:(vm_compute; reflexivity)
    ltac:(vm_compute; reflexivity) ltac:(discriminate) Logic.I demo_env (run_from demo_fs)
    eq_refl demo_hex demo_calm (run_from_fs _)).
Defined.

Lemma rollback_deferred_pending_witness :
  exists res w1 x ix', demo_deferred demo_env (run_from demo_fs) = (Ret res, w1) /\
    dgetn "checkpoint_id" res = PStr "c1" /\
    NDir x = scrubbed true (NDir demo_sc) /\
    head_moved demo_ix "c1" ix' /\ only_session "a1" "s1" demo_fs (w_fs w1) /\
    pending "a1" "s1" demo_ch demo_cc demo_cps "c1" (Some "r1") (PBool true) "manual"
      (w_fs w1) x ix'.
Proof.
  apply (rollback_deferred_pending "/allox" "a1" "s1" eq_refl eq_refl demo_fs demo_ch demo_cc
    demo_sc demo_cps demo_ix demo_idle "c1" demo_checkpoint demo_tmp (Some "c1") None (PBool true)
    (PStr "r1") (PBool true) "manual" true (Some "r1") ltac:(vm_compute; reflexivity)
    ltac:(vm_compute; reflexivity) ltac:(reflexivity) ltac:(vm_compute; reflexivity)
    demo_env (run_from demo_fs)
    eq_refl demo_hex demo_calm (run_from_fs _)).
Defined.

Lemma recover_idle_witness :
  exists w1, _recover_session "/allox" "a1" "s1" demo_env (run_from demo_fs) = (Ret false, w1)
    /\ w_fs w1 = demo_fs.
Proof.
  exact (recover_idle "/allox" "a1" "s1" demo_fs demo_ch demo_cc demo_cps demo_ix demo_env
    (run_from demo_fs) eq_refl eq_refl demo_idle demo_calm (run_from_fs _)).
Defined.
End witnesses.
