(* ===== verification/CheckpointProof.v ===== *)
(** * Creating and deleting a checkpoint, step by step

    The steps of [create_checkpoint] and [delete_checkpoint] on an idle
    session, in every environment: what they leave when they return, and what
    when they are interrupted. *)

From Stdlib Require Import Ascii.
From Stdlib Require String.
From stdpp Require Import gmap pretty.
From S2P Require Import Prelude PyVal Ids CheckpointIndex FileSystem World StoreFiles Store.
From S2P Require Import StoreRecovery Backend SessionState SessionOps SessionWp Scrub Lineage.
From S2P Require Import CheckpointIndexFacts RollbackState SessionReady RecoveryProof RollbackProof.
From S2P Require Import RollbackSpec.
Open Scope Z_scope.

(** ** The directory of checkpoints *)

Lemma dir_names_insert cps c ch :
  dir_names (<[c := NDir ch]> cps) = {[ c ]} ∪ dir_names cps.
Proof.
  apply set_eq. intros x. rewrite elem_of_union, elem_of_singleton, !elem_of_dir_names.
  destruct (decide (x = c)) as [->|Hne].
  - rewrite lookup_insert_eq. naive_solver.
  - rewrite lookup_insert_ne by done. naive_solver.
Qed.

Lemma dir_names_delete cps c : dir_names (delete c cps) = dir_names cps ∖ {[ c ]}.
Proof.
  apply set_eq. intros x. rewrite elem_of_difference, elem_of_singleton, !elem_of_dir_names.
  destruct (decide (x = c)) as [->|Hne].
  - rewrite lookup_delete_eq. naive_solver.
  - rewrite lookup_delete_ne by done. naive_solver.
Qed.

Lemma checkpoint_ids_valid_insert cps c x :
  checkpoint_ids_valid cps = true -> ID_RE c = true ->
  checkpoint_ids_valid (<[c := NDir x]> cps) = true.
Proof.
  rewrite !checkpoint_ids_valid_spec, dir_names_insert. set_solver.
Qed.

Lemma checkpoint_ids_valid_delete cps c :
  checkpoint_ids_valid cps = true -> checkpoint_ids_valid (delete c cps) = true.
Proof. rewrite !checkpoint_ids_valid_spec, dir_names_delete. set_solver. Qed.

(** ** Lineages of a well-formed index *)

Lemma wf_add ix c t o msg b md :
  index_wf ix -> ID_RE c = true -> checkpoints ix !! c = None ->
  exists ix', add ix c t o msg b md = Ok ix' /\ index_wf ix'.
Proof.
  intros Hwf Hc Hn. pose proof Hwf as (L & Hrep & _).
  destruct (add_refines ix L c t o msg b md Hrep) as (ix' & Hadd & _).
  { by apply (sim_None _ _ _ (proj2 Hrep)). }
  exists ix'. split; [done|]. eapply index_step_wf; [|exact Hwf]. by eapply index_step_add.
Qed.

Lemma wf_remove ix c :
  index_wf ix -> exists ix', remove ix c = Ok ix' /\ index_wf ix'.
Proof.
  intros Hwf. pose proof Hwf as (L & Hrep & _).
  destruct (remove_refines ix L c Hrep) as (ix' & Hr & _).
  exists ix'. split; [done|]. eapply index_step_wf; [|exact Hwf]. by eapply index_step_remove.
Qed.

Lemma wf_reconcile ix cps :
  index_wf ix -> checkpoint_ids_valid cps = true -> index_wf (reconcile ix (dir_names cps)).1.
Proof.
  intros Hwf Hcps. eapply index_step_wf; [|exact Hwf].
  by apply index_step_reconcile, checkpoint_ids_valid_spec.
Qed.

Lemma saved_reconciled A ix I : saved ix I -> loads A (reconcile ix A).1 I.
Proof. intros (d & -> & Hd). right. by exists d, ix. Qed.

Lemma saved_to_dict ix : saved ix (jfile (to_dict ix)).
Proof. exists (to_dict ix). by rewrite dict_roundtrip. Qed.

Section ops.
Context `{HB : SnapshotBackend} `{!BackendLaws HB} (root : string).
Context (a s : string) (Ha : ID_RE a = true) (Hs : ID_RE s = true) (base : node).
Context (en : env) (Htok : hex_tokens en).
Context (ch cc cps : gmap string node) (ix : index).
Context (Hcur : ch !! "current" = Some (NDir cc)).
Context (Hcps : ch !! "checkpoints" = Some (NDir cps)).
Context (Hclean : session_clean ch = true) (Hnames : checkpoint_ids_valid cps = true).
Context (Hwf : index_wf ix).
Context (R : string -> option node).

Notation St := (St a s base).

(** The session directory with other checkpoints. *)
Definition with_cps (cps' : gmap string node) : gmap string node :=
  <["checkpoints" := NDir cps']> ch.

Lemma with_cps_same : with_cps cps = ch.
Proof. by apply insert_id. Qed.

Lemma with_cps_current cps' : with_cps cps' !! "current" = Some (NDir cc).
Proof. unfold with_cps. by rewrite lookup_insert_ne. Qed.

Lemma with_cps_checkpoints cps' : with_cps cps' !! "checkpoints" = Some (NDir cps').
Proof. apply lookup_insert_eq. Qed.

Lemma with_cps_idle cps' ix' I fs :
  St (with_cps cps') None I R fs -> checkpoint_ids_valid cps' = true ->
  loads (dir_names cps') ix' I -> index_wf ix' -> idle a s fs (with_cps cps') cc cps' ix'.
Proof.
  intros HS Hv HL Hwf'. eapply St_idle; [exact HS|..]; try done.
  - apply with_cps_current.
  - apply with_cps_checkpoints.
  - by apply session_clean_checkpoints.
Qed.

(** ** Snapshot of the workspace, deletion of a checkpoint *)

Lemma wp_snapshot_current c I fs (Q : unit -> node -> Prop) E C :
  St ch None I R fs -> cps !! c = None ->
  tolerates en (fun fs' => St ch None I R fs' \/
                  St (with_cps (<[c := NDir cc]> cps)) None I R fs') E C ->
  (forall fs', St (with_cps (<[c := NDir cc]> cps)) None I R fs' -> Q () fs') ->
  wp en (snapshot (CUR a s) (CPS a s ++ [c]) true) Q E C fs.
Proof.
  intros HS Hc HT HQ.
  assert (get (CUR a s) fs = Some (NDir cc)) as Hsrc.
  { change (CUR a s) with (SD a s ++ ["current"]). by rewrite (entry_get a s base _ _ _ _ _ _ HS). }
  destruct (St_put a s base "checkpoints" [c] (NDir cc) (NDir (<[c := NDir cc]> cps))
              _ _ _ _ _ HS) as (fs' & Hp & HS').
  { by rewrite Hcps. }
  eapply (wp_atomic_ok en _ _ _ _ _ _ fs fs'); [| |exact HT|by left|by right|by apply HQ].
  - eapply snapshot_law; [exact Hsrc|].
    change (CPS a s ++ [c]) with (SD a s ++ "checkpoints" :: [c]).
    rewrite (get_entry a s base _ _ _ _ _ _ _ HS), Hcps. simpl. by rewrite Hc.
  - unfold copy_tree. rewrite Hsrc. exact Hp.
Qed.

Lemma wp_delete_checkpoint_dir c d I fs (Q : unit -> node -> Prop) E C :
  St ch None I R fs -> cps !! c = Some (NDir d) ->
  tolerates en (fun fs' => St ch None I R fs' \/
                  St (with_cps (delete c cps)) None I R fs') E C ->
  (forall fs', St (with_cps (delete c cps)) None I R fs' -> Q () fs') ->
  wp en (delete_subvolume (CPS a s ++ [c])) Q E C fs.
Proof.
  intros HS Hc HT HQ.
  assert (get (CPS a s ++ [c]) fs = Some (NDir d)) as Hget.
  { change (CPS a s ++ [c]) with (SD a s ++ "checkpoints" :: [c]).
    rewrite (get_entry a s base _ _ _ _ _ _ _ HS), Hcps. simpl. by rewrite Hc. }
  destruct (St_del_below a s base "checkpoints" [c] (NDir cps) (NDir (delete c cps))
              _ _ _ _ _ HS Hcps) as (fs' & Hp & HS'); [done| |].
  { simpl. by rewrite Hc. }
  eapply (wp_atomic_ok en _ _ _ _ _ _ fs fs'); [|exact Hp|exact HT|by left|by right|by apply HQ].
  by eapply delete_law.
Qed.
Local Abbreviation A := (dir_names cps).

(** ** Creation *)

Section create.
Context (c : string) (Hc : ID_RE c = true) (Hnew : cps !! c = None).
Context (Hunindexed : checkpoints ix !! c = None).
Context (origin : string) (message : option string) (pinned : bool) (metadata : pyval).

Local Abbreviation cps' := (<[c := NDir cc]> cps).

Definition added (ix' : index) : Prop :=
  exists t, add ix c t origin message pinned metadata = Ok ix'.

(** Before the snapshot, or after it with the old or the new index. *)
Definition create_state (fs : node) : Prop :=
  (exists I, loads A ix I /\ St ch None I R fs) \/
  (exists I ix2, saved ix2 I /\ (ix2 = ix \/ added ix2) /\ St (with_cps cps') None I R fs).

Local Abbreviation E := (failing en create_state).
Local Abbreviation C := (crashing en create_state).

Lemma tolerates_before : tolerates en (fun fs => exists I, loads A ix I /\ St ch None I R fs) E C.
Proof. intros fs Hn HS. split; [intros e|]; (split; [done|]); by left. Qed.

Lemma tolerates_created :
  tolerates en (fun fs => exists I ix2, saved ix2 I /\ (ix2 = ix \/ added ix2) /\
                  St (with_cps cps') None I R fs) E C.
Proof. intros fs Hn HS. split; [intros e|]; (split; [done|]); by right. Qed.

Lemma wp_create_checkpoint I fs :
  St ch None I R fs -> loads A ix I ->
  wp en (create_checkpoint root a s (Some c) origin message pinned metadata)
    (fun res fs' => exists ix' I', added ix' /\ saved ix' I' /\
       St (with_cps cps') None I' R fs' /\
       dgetn "checkpoint_id" res = PStr c /\ dgetn "parent_id" res = parent_value ix' c)
    E C fs.
Proof.
  intros HS HL. unfold create_checkpoint.
  assert (checkpoint_name (Some c) = mret c) as -> by by destruct c.
  apply wp_bind, wp_ret. rewrite validate_id_valid by done. apply wp_bind, wp_of_result, wp_bind.
  eapply (wp_session_lock a s Ha Hs base en Htok); [exact HS| |].
  { eapply tolerates_mono; [|apply tolerates_before]. intros fs' HS'. by exists I. }
  clear fs HS. intros fs HS. rewrite current_ok by done. apply wp_bind, wp_of_result.
  pose proof (entry_get a s base "current" _ _ _ _ _ HS : get (CUR a s) fs = _) as Hg.
  rewrite Hcur in Hg. eapply wp_query_exists; [exact Hg|done|].
  apply wp_bind, wp_raise_when; [done|]. intros _.
  apply wp_bind. eapply wp_require_managed; [exact Hg|].
  rewrite checkpoints_dir_ok by done. apply wp_bind, wp_of_result. cbv zeta.
  assert (get (CPS a s ++ [c]) fs = None) as Ht.
  { change (CPS a s ++ [c]) with (SD a s ++ "checkpoints" :: [c]).
    rewrite (get_entry a s base _ _ _ _ _ _ _ HS), Hcps. simpl. by rewrite Hnew. }
  eapply wp_query_exists; [exact Ht|done|].
  apply wp_bind, wp_raise_when; [done|]. intros _. apply wp_bind.
  eapply (wp_load_index_saved root a s Ha Hs base en Htok);
    [exact HS|done|exact Hcps|exact HL|apply tolerates_before|].
  clear fs HS Hg Ht I HL. intros I fs HL Hsav HS. apply wp_bind, wp_time. intros t.
  destruct (wf_add ix c t origin message pinned metadata Hwf Hc Hunindexed) as (ix' & Hadd & _).
  apply wp_bind, wp_try, wp_of_result. rewrite Hadd.
  apply wp_bind. eapply wp_snapshot_current; [exact HS|done| |].
  { intros fs' Hn [HS'|HS'].
    - apply tolerates_before; [done|]. by exists I.
    - apply tolerates_created; [done|]. exists I, ix. auto. }
  clear fs HS. intros fs HS. apply wp_bind.
  assert (added ix') as Hix' by by exists t.
  eapply (wp_save_index a s Ha Hs base en Htok); [exact HS|done|by eapply loads_file| |].
  { intros fs' Hn [HS'|HS']; (apply tolerates_created; [done|]).
    - exists I, ix. auto.
    - exists (jfile (to_dict ix')), ix'. auto using saved_to_dict. }
  clear fs HS. intros fs HS. apply wp_bind.
  eapply (wp_append_event a s Ha Hs base en Htok); [exact HS| |].
  { intros fs' Hn HS'. apply tolerates_created; [done|].
    exists (jfile (to_dict ix')), ix'. auto using saved_to_dict. }
  intros fs' HS'. apply wp_ret, wp_ret. exists ix', (jfile (to_dict ix')).
  split; [done|]. split; [apply saved_to_dict|]. done.
Qed.
End create.

(** ** Deletion *)

Section delete.
Context (given c : string) (d : gmap string node) (force : bool) (origin : string).
Context (Hgiven : ID_RE given = true) (Hresolve : resolve ix (Some given) None = Ok c).
Context (Hc : cps !! c = Some (NDir d)).
Context (Hpin : py_truthy (dget_or "pinned" (PBool false) (default [] (checkpoints ix !! c)))
  && negb force = false).

Local Abbreviation cps' := (delete c cps).

(** Before the deletion, or after it with the old or the new index. *)
Definition delete_state (fs : node) : Prop :=
  (exists I, loads A ix I /\ St ch None I R fs) \/
  (exists I ix2, saved ix2 I /\ (ix2 = ix \/ remove ix c = Ok ix2) /\
     St (with_cps cps') None I R fs).

Local Abbreviation E := (failing en delete_state).
Local Abbreviation C := (crashing en delete_state).

Lemma tolerates_kept : tolerates en (fun fs => exists I, loads A ix I /\ St ch None I R fs) E C.
Proof. intros fs Hn HS. split; [intros e|]; (split; [done|]); by left. Qed.

Lemma tolerates_deleted :
  tolerates en (fun fs => exists I ix2, saved ix2 I /\ (ix2 = ix \/ remove ix c = Ok ix2) /\
                  St (with_cps cps') None I R fs) E C.
Proof. intros fs Hn HS. split; [intros e|]; (split; [done|]); by right. Qed.

Lemma wp_delete_checkpoint I fs :
  St ch None I R fs -> loads A ix I ->
  wp en (delete_checkpoint root a s given origin force)
    (fun res fs' => exists ix' I', remove ix c = Ok ix' /\ saved ix' I' /\
       St (with_cps cps') None I' R fs' /\ dgetn "checkpoint_id" res = PStr c) E C fs.
Proof.
  intros HS HL. unfold delete_checkpoint.
  rewrite validate_id_valid by done. apply wp_bind, wp_of_result, wp_bind.
  eapply (wp_session_lock a s Ha Hs base en Htok); [exact HS| |].
  { eapply tolerates_mono; [|apply tolerates_kept]. intros fs' HS'. by exists I. }
  clear fs HS. intros fs HS. apply wp_bind.
  eapply (wp_load_index_saved root a s Ha Hs base en Htok);
    [exact HS|done|exact Hcps|exact HL|apply tolerates_kept|].
  clear fs HS I HL. intros I fs HL Hsav HS.
  apply wp_bind, wp_try, wp_of_result. rewrite Hresolve.
  apply wp_bind, wp_raise_when; [congruence|]. intros _.
  rewrite checkpoints_dir_ok by done. apply wp_bind, wp_of_result. cbv zeta.
  assert (get (CPS a s ++ [c]) fs = Some (NDir d)) as Ht.
  { change (CPS a s ++ [c]) with (SD a s ++ "checkpoints" :: [c]).
    rewrite (get_entry a s base _ _ _ _ _ _ _ HS), Hcps. simpl. by rewrite Hc. }
  eapply wp_query_exists; [exact Ht|done|].
  apply wp_bind, wp_raise_when; [done|]. intros _. apply wp_bind.
  eapply wp_require_managed; [exact Ht|]. apply wp_bind.
  eapply wp_delete_checkpoint_dir; [exact HS|exact Hc| |].
  { intros fs' Hn [HS'|HS'].
    - apply tolerates_kept; [done|]. by exists I.
    - apply tolerates_deleted; [done|]. exists I, ix. auto. }
  clear fs HS Ht. intros fs HS.
  destruct (wf_remove ix c Hwf) as (ix' & Hr & _).
  apply wp_bind, wp_of_result. rewrite Hr. apply wp_bind.
  eapply (wp_save_index a s Ha Hs base en Htok); [exact HS|done|by eapply loads_file| |].
  { intros fs' Hn [HS'|HS']; (apply tolerates_deleted; [done|]).
    - exists I, ix. auto.
    - exists (jfile (to_dict ix')), ix'. auto using saved_to_dict. }
  clear fs HS. intros fs HS. apply wp_bind.
  eapply (wp_append_event a s Ha Hs base en Htok); [exact HS| |].
  { intros fs' Hn HS'. apply tolerates_deleted; [done|].
    exists (jfile (to_dict ix')), ix'. auto using saved_to_dict. }
  intros fs' HS'. apply wp_ret, wp_ret. exists ix', (jfile (to_dict ix')).
  split; [done|]. split; [apply saved_to_dict|]. done.
Qed.
End delete.
End ops.

(** * Properties of checkpoint creation and deletion

    Each is atomic: interrupted anywhere it leaves an idle session, with the
    checkpoint entirely there or not at all.  When nothing fails it returns,
    and the checkpoint holds exactly the workspace. *)

Section checkpoints.
Context `{HB : SnapshotBackend} `{!BackendLaws HB} (root : string).
Context (a s : string) (Ha : ID_RE a = true) (Hs : ID_RE s = true).
Context (fs : node) (ch cc cps : gmap string node) (ix : index).
Context (Hidle : idle a s fs ch cc cps ix).

Let HSt := idle_St _ _ _ _ _ _ _ Hidle.
Let Hcur := idle_current _ _ _ _ _ _ _ Hidle.
Let Hcps := idle_checkpoints _ _ _ _ _ _ _ Hidle.
Let Hclean := idle_clean _ _ _ _ _ _ _ Hidle.
Let Hnames := idle_names _ _ _ _ _ _ _ Hidle.
Let Hwf := idle_wf _ _ _ _ _ _ _ Hidle.
Let HL := idle_index _ _ _ _ _ _ _ Hidle.

Local Abbreviation with_cps := (with_cps ch).

Section create.
Context (c : string) (Hc : ID_RE c = true) (Hnew : cps !! c = None).
Context (Hunindexed : checkpoints ix !! c = None).
Context (origin : string) (message : option string) (pinned : bool) (metadata : pyval).

Local Abbreviation run :=
  (create_checkpoint root a s (Some c) origin message pinned metadata).
Local Abbreviation added := (added ix c origin message pinned metadata).
Local Abbreviation cps' := (<[c := NDir cc]> cps).

Lemma added_idle ix' I fs' :
  added ix' -> saved ix' I -> St a s fs (with_cps cps') None I (receipts a s fs) fs' ->
  idle a s fs' (with_cps cps') cc cps' ix'.
Proof.
  intros [t Hadd] Hsav HS. eapply with_cps_idle; [exact Hcur|exact Hclean|exact HS|..].
  - by apply checkpoint_ids_valid_insert.
  - apply saved_loads; [|done]. rewrite dir_names_insert.
    eapply agrees_add; [by eapply loads_agrees|exact Hadd].
  - eapply index_step_wf; [by eapply index_step_add|exact Hwf].
Qed.

Lemma create_checkpoint_run en w :
  hex_tokens en -> calm en -> w_fs w = fs ->
  exists res w1 ix', run en w = (Ret res, w1) /\ added ix' /\
    dgetn "checkpoint_id" res = PStr c /\ dgetn "parent_id" res = parent_value ix' c /\
    only_session a s fs (w_fs w1) /\
    idle a s (w_fs w1) (with_cps cps') cc cps' ix'.
Proof.
  intros Htok Hcalm Hw.
  pose proof (wp_create_checkpoint root a s Ha Hs fs en Htok ch cc cps ix Hcur Hcps Hwf _ c Hc
    Hnew Hunindexed origin message pinned metadata _ _ HSt HL w Hw) as Hwp.
  destruct (run en w) as [[res|e|] w1]; [|by destruct Hwp..].
  destruct Hwp as (ix' & I & Hadd & Hsav & HS & Hr1 & Hr2).
  exists res, w1, ix'. do 4 (split; [done|]).
  split; [exact (st_frame HS)|]. by eapply added_idle.
Qed.

(** Also: Creating a checkpoint in an environment where no operation fails
    returns: the new checkpoint is an exact copy of the workspace, the index
    has it as the head with the old head as its parent, the workspace and the
    other checkpoints stay, and nothing outside the session changes. *)
Theorem create_checkpoint_snapshots en w :
  hex_tokens en -> calm en -> w_fs w = fs ->
  exists res w1 ix', run en w = (Ret res, w1) /\ added ix' /\
    dgetn "checkpoint_id" res = PStr c /\ dgetn "parent_id" res = pystr_opt (head ix) /\
    only_session a s fs (w_fs w1) /\
    idle a s (w_fs w1) (with_cps cps') cc cps' ix'.
Proof.
  intros Htok Hcalm Hw.
  destruct (create_checkpoint_run en w Htok Hcalm Hw)
    as (res & w1 & ix' & Hrun & Hadd & Hr1 & Hr2 & Hfr & Hid).
  exists res, w1, ix'. do 3 (split; [done|]). split; [|done].
  rewrite Hr2. destruct Hadd as [t Hadd]. unfold add in Hadd.
  destruct (checkpoints ix !! c); [done|]. apply result_bind_Ok in Hadd as (cps2 & _ & [= <-]).
  unfold parent_value. simpl. by rewrite lookup_insert_eq.
Qed.

(** C11: Creating a checkpoint is atomic: an environment that fails or stops it
    anywhere leaves an idle session, without the checkpoint or with an exact
    copy of the workspace, in the index as created or as recovered from the
    directory; the workspace is as before. *)
Theorem create_checkpoint_atomic en w o w1 :
  hex_tokens en -> w_fs w = fs -> run en w = (o, w1) ->
  only_session a s fs (w_fs w1) /\
  (idle a s (w_fs w1) ch cc cps ix \/
   exists ix', (added ix' \/ ix' = (reconcile ix (dir_names cps')).1) /\
     idle a s (w_fs w1) (with_cps cps') cc cps' ix').
Proof.
  intros Htok Hw Hrun.
  pose proof (wp_create_checkpoint root a s Ha Hs fs en Htok ch cc cps ix Hcur Hcps Hwf _ c Hc
    Hnew Hunindexed origin message pinned metadata _ _ HSt HL w Hw) as Hwp.
  rewrite Hrun in Hwp.
  assert (create_state a s fs ch cc cps ix (receipts a s fs) c origin message pinned metadata
            (w_fs w1)) as Hst.
  { destruct o as [res|e|]; [|apply Hwp..]. right.
    destruct Hwp as (ix' & I & Hadd & Hsav & HS & _). exists I, ix'. auto. }
  destruct Hst as [(I & HI & HS)|(I & ix2 & Hsav & [->|Hadd] & HS)];
    (split; [exact (st_frame HS)|]).
  - left. by eapply St_idle.
  - right. eexists. split; [by right|].
    assert (checkpoint_ids_valid cps' = true) by by apply checkpoint_ids_valid_insert.
    eapply with_cps_idle; [exact Hcur|exact Hclean|exact HS|done|by apply saved_reconciled|].
    by apply wf_reconcile.
  - right. exists ix2. split; [by left|]. by eapply added_idle.
Qed.
End create.

Section delete.
Context (given c : string) (d : gmap string node) (force : bool) (origin : string).
Context (Hgiven : ID_RE given = true) (Hresolve : resolve ix (Some given) None = Ok c).
Context (Hc : cps !! c = Some (NDir d)).
Context (Hpin : py_truthy (dget_or "pinned" (PBool false) (default [] (checkpoints ix !! c)))
  && negb force = false).

Local Abbreviation run := (delete_checkpoint root a s given origin force).
Local Abbreviation cps' := (delete c cps).

Lemma deleted_idle ix' I fs' :
  index_wf ix' -> saved ix' I ->
  St a s fs (with_cps cps') None I (receipts a s fs) fs' ->
  idle a s fs' (with_cps cps') cc cps' (reconcile ix' (dir_names cps')).1.
Proof.
  intros Hwf' Hsav HS. assert (checkpoint_ids_valid cps' = true)
    by by apply checkpoint_ids_valid_delete.
  eapply with_cps_idle; [exact Hcur|exact Hclean|exact HS|done|by apply saved_reconciled|].
  by apply wf_reconcile.
Qed.

(** Also: Deleting a checkpoint is atomic: it is entirely there or entirely gone
    whatever fails or stops it; when nothing fails it is gone and the index no
    longer names it.  The workspace and the other checkpoints stay. *)
Theorem delete_checkpoint_atomic en w o w1 :
  hex_tokens en -> w_fs w = fs -> run en w = (o, w1) ->
  (calm en -> exists res, o = Ret res) /\ only_session a s fs (w_fs w1) /\
  (idle a s (w_fs w1) ch cc cps ix /\ ~ calm en \/
   exists ix', (remove ix c = Ok ix' \/ ~ calm en /\ ix' = ix) /\
     idle a s (w_fs w1) (with_cps cps') cc cps' (reconcile ix' (dir_names cps')).1).
Proof.
  intros Htok Hw Hrun.
  pose proof (wp_delete_checkpoint root a s Ha Hs fs en Htok ch cps ix Hcps Hwf _ given c d
    force origin Hgiven Hresolve Hc Hpin _ _ HSt HL w Hw) as Hwp.
  rewrite Hrun in Hwp. split.
  { intros Hcalm. destruct o as [res|e|]; [by exists res|by destruct Hwp..]. }
  destruct (wf_remove ix c Hwf) as (ixr & Hr & Hwfr).
  assert ((~ calm en /\ delete_state a s fs ch cps ix (receipts a s fs) c (w_fs w1)) \/
    exists I, saved ixr I /\ St a s fs (with_cps cps') None I (receipts a s fs) (w_fs w1))
    as [[Hn Hst]|(I & Hsav & HS)].
  { destruct o as [res|e|]; [|by left..]. right.
    destruct Hwp as (ix' & I & Hr' & Hsav & HS & _). exists I.
    by replace ixr with ix' by congruence. }
  - destruct Hst as [(I & HI & HS)|(I & ix2 & Hsav & [->|Hr2] & HS)];
      (split; [exact (st_frame HS)|]).
    + left. split; [|done]. by eapply St_idle.
    + right. exists ix. split; [by right|]. by eapply deleted_idle.
    + right. exists ix2. split; [by left|]. replace ix2 with ixr in * by congruence.
      by eapply deleted_idle.
  - split; [exact (st_frame HS)|]. right. exists ixr. split; [by left|]. by eapply deleted_idle.
Qed.
End delete.

(** Also: A pinned checkpoint is not deleted without [force]: the request is
    refused with an error in every environment that does not fail before, and
    the session stays idle with all its checkpoints. *)
Theorem delete_checkpoint_pinned en w given c origin :
  hex_tokens en -> calm en -> w_fs w = fs -> ID_RE given = true ->
  resolve ix (Some given) None = Ok c ->
  py_truthy (dget_or "pinned" (PBool false) (default [] (checkpoints ix !! c))) = true ->
  exists w1, delete_checkpoint root a s given origin false en w
    = (Exc (WorkspaceError ("checkpoint is pinned; use force to delete: " +:+ c)), w1) /\
    only_session a s fs (w_fs w1) /\ idle a s (w_fs w1) ch cc cps ix.
Proof.
  intros Htok Hcalm Hw Hgiven Hresolve Hpin.
  set (err := WorkspaceError _).
  assert (wp en (delete_checkpoint root a s given origin false) (fun _ _ => False)
    (fun e fs' => e = err /\ only_session a s fs fs' /\ idle a s fs' ch cc cps ix)
    (fun _ => False) fs) as Hwp.
  { unfold delete_checkpoint. rewrite validate_id_valid by done.
    apply wp_bind, wp_of_result, wp_bind.
    eapply (wp_session_lock a s Ha Hs fs en Htok); [exact HSt|by apply calm_tolerates|].
    intros fs1 HS. apply wp_bind.
    eapply (wp_load_index root a s Ha Hs fs en Htok);
      [exact HS|done|exact Hcps|exact HL|by apply calm_tolerates|].
    clear fs1 HS. intros I fs1 HI HS. apply wp_bind, wp_try, wp_of_result. rewrite Hresolve.
    apply wp_bind, wp_raise_when; [|by rewrite Hpin]. intros _. split; [done|].
    split; [exact (st_frame HS)|]. by eapply St_idle. }
  specialize (Hwp w Hw).
  destruct (delete_checkpoint root a s given origin false en w) as [[res|e|] w1]; [done| |done].
  destruct Hwp as (-> & ? & ?). by exists w1.
Qed.
End checkpoints.

(** C3: A checkpoint keeps the workspace: create one, let the agent replace the
    whole workspace, roll back to it, and the workspace is what it was when
    the checkpoint was created.  Nothing outside the session is changed by the
    two operations. *)
Theorem checkpoint_rollback_roundtrip `{HB : SnapshotBackend} `{!BackendLaws HB}
    root a s fs ch cc cps ix c origin message pinned metadata cc2 en w :
  ID_RE a = true -> ID_RE s = true -> idle a s fs ch cc cps ix ->
  ID_RE c = true -> cps !! c = None -> checkpoints ix !! c = None -> tmp_plain (NDir cc) ->
  hex_tokens en -> calm en -> w_fs w = fs ->
  exists res w1 fs2, create_checkpoint root a s (Some c) origin message pinned metadata en w
      = (Ret res, w1) /\
    put (CUR a s) (NDir cc2) (Some (w_fs w1)) = Some fs2 /\
  forall w2, w_fs w2 = fs2 -> exists res2 w3,
    rollback root a s (Some c) None (PBool false) origin PNone (PBool false) en w2 = (Ret res2, w3)
    /\ get (CUR a s) (w_fs w3) = Some (NDir cc) /\ only_session a s fs (w_fs w3).
Proof.
  intros Ha Hs Hidle Hc Hnew Hun Htmp Htok Hcalm Hw.
  destruct (create_checkpoint_run root a s Ha Hs fs ch cc cps ix Hidle c Hc Hnew Hun origin message
    pinned metadata en w Htok Hcalm Hw) as (res & w1 & ix' & Hrun & [t Hadd] & _ & _ & Hfr & Hid).
  destruct (idle_put_current _ _ _ _ _ _ _ cc2 Hid) as (fs2 & Hput & Hfr2 & Hid2).
  exists res, w1, fs2. split; [done|]. split; [done|]. intros w2 Hw2.
  assert (<[c := NDir cc]> cps !! c = Some (NDir cc)) as Hsc by apply lookup_insert_eq.
  destruct (rollback_run_now root a s Ha Hs fs2 _ cc2 cc _ ix' Hid2 c Hsc Htmp (Some c) None
    (PBool false) PNone (PBool false) origin false None) with (en := en) (w := w2)
    as (res2 & w3 & x & ix3 & Hrun2 & _ & Hx & _ & Hfr3 & Hid3); try done.
  - simpl. by rewrite validate_id_valid.
  - eapply loads_resolve; [apply Hid2|]. apply elem_of_dir_names. by exists (NDir cc).
  - exists res2, w3. split; [done|]. split.
    + pose proof (idle_dir _ _ _ _ _ _ _ Hid3) as Hd.
      unfold CUR. rewrite get_app, Hd. simpl. by rewrite lookup_insert_eq, Hx.
    + intros q Hq. by rewrite Hfr3, Hfr2, Hfr.
Qed.

(** ** The demo session *)

Section witnesses.
Existing Instance tree_backend.

Definition demo_create : M dict :=
  create_checkpoint "/allox" "a1" "s1" (Some "c2") "manual" (Some "second") true PNone.

Lemma create_checkpoint_snapshots_witness :
  exists res w1 ix', demo_create demo_env (run_from demo_fs) = (Ret res, w1) /\
    added demo_ix "c2" "manual" (Some "second") true PNone ix' /\
    dgetn "checkpoint_id" res = PStr "c2" /\ dgetn "parent_id" res = pystr_opt (head demo_ix) /\
    only_session "a1" "s1" demo_fs (w_fs w1) /\
    idle "a1" "s1" (w_fs w1) (with_cps demo_ch (<["c2" := NDir demo_cc]> demo_cps)) demo_cc
      (<["c2" := NDir demo_cc]> demo_cps) ix'.
Proof.
  apply (create_checkpoint_snapshots "/allox" "a1" "s1" eq_refl eq_refl demo_fs demo_ch demo_cc
    demo_cps demo_ix demo_idle "c2" eq_refl ltac:(vm_compute; reflexivity)
    ltac:(vm_compute; reflexivity) "manual" (Some "second") true PNone demo_env
    (run_from demo_fs) demo_hex demo_calm (run_from_fs _)).
Defined.

(** Every operation from the tenth on fails after it took effect. *)
Definition demo_failing : env :=
  Env (fun n => Z.of_nat n) (fun _ => "abc")
    (fun n => if (n <? 10)%nat then Go else Fail_after) (fun _ => Go).

Lemma create_checkpoint_atomic_witness :
  let w1 := snd (demo_create demo_failing (run_from demo_fs)) in
  only_session "a1" "s1" demo_fs (w_fs w1) /\
  (idle "a1" "s1" (w_fs w1) demo_ch demo_cc demo_cps demo_ix \/
   exists ix', (added demo_ix "c2" "manual" (Some "second") true PNone ix' \/
       ix' = (reconcile demo_ix (dir_names (<["c2" := NDir demo_cc]> demo_cps))).1) /\
     idle "a1" "s1" (w_fs w1) (with_cps demo_ch (<["c2" := NDir demo_cc]> demo_cps)) demo_cc
       (<["c2" := NDir demo_cc]> demo_cps) ix').
Proof.
  exact (create_checkpoint_atomic "/allox" "a1" "s1" eq_refl eq_refl demo_fs demo_ch demo_cc
    demo_cps demo_ix demo_idle "c2" eq_refl ltac:(vm_compute; reflexivity)
    ltac:(vm_compute; reflexivity) "manual" (Some "second") true PNone demo_failing
    (run_from demo_fs) _ _ (fun n => eq_refl) (run_from_fs _) (surjective_pairing _)).
Defined.

Definition demo_delete (force : bool) : M dict :=
  delete_checkpoint "/allox" "a1" "s1" "c1" "manual" force.

Lemma delete_checkpoint_atomic_witness :
  let r := demo_delete true demo_env (run_from demo_fs) in
  (calm demo_env -> exists res, fst r = Ret res) /\
  only_session "a1" "s1" demo_fs (w_fs (snd r)) /\
  (idle "a1" "s1" (w_fs (snd r)) demo_ch demo_cc demo_cps demo_ix /\ ~ calm demo_env \/
   exists ix', (remove demo_ix "c1" = Ok ix' \/ ~ calm demo_env /\ ix' = demo_ix) /\
     idle "a1" "s1" (w_fs (snd r)) (with_cps demo_ch (delete "c1" demo_cps)) demo_cc
       (delete "c1" demo_cps) (reconcile ix' (dir_names (delete "c1" demo_cps))).1).
Proof.
  exact (delete_checkpoint_atomic "/allox" "a1" "s1" eq_refl eq_refl demo_fs demo_ch demo_cc
    demo_cps demo_ix demo_idle "c1" "c1" demo_sc true "manual" eq_refl
    ltac:(vm_compute; reflexivity) demo_checkpoint ltac:(vm_compute; reflexivity) demo_env
    (run_from demo_fs) _ _ demo_hex (run_from_fs _) (surjective_pairing _)).
Defined.

Lemma checkpoint_rollback_roundtrip_witness :
  exists res w1 fs2, demo_create demo_env (run_from demo_fs) = (Ret res, w1) /\
    put (CUR "a1" "s1") empty_dir (Some (w_fs w1)) = Some fs2 /\
  forall w2, w_fs w2 = fs2 -> exists res2 w3,
    rollback "/allox" "a1" "s1" (Some "c2") None (PBool false) "manual" PNone (PBool false)
      demo_env w2 = (Ret res2, w3)
    /\ get (CUR "a1" "s1") (w_fs w3) = Some (NDir demo_cc)
    /\ only_session "a1" "s1" demo_fs (w_fs w3).
Proof.
  exact (checkpoint_rollback_roundtrip "/allox" "a1" "s1" demo_fs demo_ch demo_cc demo_cps
    demo_ix "c2" "manual" (Some "second") true PNone ∅ demo_env (run_from demo_fs) eq_refl eq_refl
    demo_idle eq_refl ltac:(vm_compute; reflexivity) ltac:(vm_compute; reflexivity)
    ltac:(vm_compute; exact Logic.I) demo_hex demo_calm (run_from_fs _)).
Defined.

Lemma delete_checkpoint_pinned_witness :
  exists w1, demo_delete false demo_env (run_from demo_fs)
    = (Exc (WorkspaceError "checkpoint is pinned; use force to delete: c1"), w1) /\
    only_session "a1" "s1" demo_fs (w_fs w1) /\
    idle "a1" "s1" (w_fs w1) demo_ch demo_cc demo_cps demo_ix.
Proof.
  exact (delete_checkpoint_pinned "/allox" "a1" "s1" eq_refl eq_refl demo_fs demo_ch demo_cc
    demo_cps demo_ix demo_idle demo_env (run_from demo_fs) "c1" "c1" "manual" demo_hex demo_calm
    (run_from_fs _) eq_refl ltac:(vm_compute; reflexivity) ltac:(vm_compute; reflexivity)).
Defined.
End witnesses.
