(* ===== verification/StoreSafety.v ===== *)
(** * What the store's operations cannot do

    Sessions do not share paths, the names read back from a transaction stay
    in the session's directory, every lock is released whatever happens, and a
    scrub removes sockets and FIFOs and nothing else. *)

From Stdlib Require Import Ascii.
From Stdlib Require String.
From stdpp Require Import gmap pretty.
From S2P Require Import Prelude PyVal Ids CheckpointIndex FileSystem World StoreFiles Store.
From S2P Require Import StoreRecovery Backend SessionState SessionOps SessionWp Scrub Lineage.
From S2P Require Import CheckpointIndexFacts RollbackState RecoveryProof SessionReady.
From S2P Require Import CheckpointProof.
Open Scope Z_scope.

(** ** Isolation of sessions *)

(** Every path where a session keeps something. *)
Inductive session_path (a s : string) : path -> Prop :=
  | sp_dir r : session_path a s (SD a s ++ r)
  | sp_metadata t : t ∈ metadata_files a s -> session_path a s t
  | sp_receipt r : session_path a s (RCP a s r).

Lemma string_app_inj (s t ext : string) : s +:+ ext = t +:+ ext -> s = t.
Proof.
  assert (forall u v, String.list_ascii_of_string (u +:+ v)
            = String.list_ascii_of_string u ++ String.list_ascii_of_string v) as Happ.
  { intros u v. induction u as [|c u IH]; [done|].
    rewrite string_app_cons. simpl. by rewrite IH. }
  intros H. apply (f_equal String.list_ascii_of_string) in H.
  rewrite !Happ in H. apply app_inv_tail in H.
  rewrite <- (String.string_of_list_ascii_of_string s), H.
  apply String.string_of_list_ascii_of_string.
Qed.

Lemma untouched_sibling (d : path) x y :
  x <> y -> hidden y = false -> untouched (d ++ [x]) (d ++ [y]).
Proof.
  intros Hxy Hy. unfold untouched, name_of. rewrite parent_of_snoc, last_last. split.
  - intros [r Hr]. apply (f_equal length) in Hr. rewrite !length_app in Hr. simpl in Hr. lia.
  - intros z r [= -> _]%app_inv_head. auto.
Qed.

(** Also: Two different sessions share no path: everything a session keeps is
    foreign to every other session, so no operation shown to change only its
    own session can change it. *)
Theorem sessions_isolated a s a' s' q :
  ID_RE a' = true -> ID_RE s' = true -> (a, s) <> (a', s') ->
  session_path a' s' q -> foreign a s q.
Proof.
  intros Ha Hs Hne Hq.
  assert (forall d ext, untouched ([".allox"; d; a] ++ [s +:+ ext]) [".allox"; d; a'; s' +:+ ext])
    as Hmeta.
  { intros d ext. destruct (decide (a = a')) as [<-|Ha'].
    - apply (untouched_sibling [".allox"; d; a]); [|by apply name_hidden].
      intros E%string_app_inj. congruence.
    - apply (untouched_take 3); cbn; [lia..|]. congruence. }
  assert (forall r, diverge (SD a s) (SD a' s' ++ r)) as Hdir.
  { intros r. apply (diverge_take 5); cbn; [lia..|]. intros [= -> ->]. done. }
  destruct Hq as [r|t Ht|r].
  - split; [apply Hdir|]. split; [|paths1]. intros t Ht. metadata_cases Ht; paths1.
  - split; [metadata_cases Ht; paths1|]. split.
    + intros t' Ht'. metadata_cases Ht'; metadata_cases Ht; first [apply Hmeta|paths2].
    + metadata_cases Ht; paths2.
  - split; [paths1|]. split.
    + intros t' Ht'. metadata_cases Ht'; paths2.
    + apply (diverge_take 4); cbn; [lia..|]. intros [= -> ->]. done.
Qed.

(** ** Names inside transactions *)

Lemma string_split_free c s : Forall (fun x => char_in c x = false) (string_split c s).
Proof.
  induction s as [|d s IH]; simpl; [by constructor|].
  case_bool_decide as Hd; [by constructor|].
  destruct (string_split c s) as [|x l].
  - constructor; [|done]. change (bool_decide (d = c) || false = false).
    by rewrite bool_decide_eq_false_2.
  - apply Forall_cons in IH as [Hx Hl]. constructor; [|done].
    change (char_in c (String d x)) with (bool_decide (d = c) || char_in c x).
    by rewrite bool_decide_eq_false_2.
Qed.

Lemma path_name_free s : char_in "/" (path_name s) = false.
Proof.
  unfold path_name. set (l := List.filter _ _).
  assert (Forall (fun x => char_in "/" x = false) l) as Hl.
  { apply Forall_forall. intros x Hx. unfold l in Hx.
    apply list_elem_of_In, filter_In in Hx as [Hx _].
    pose proof (string_split_free "/" s) as Hs. rewrite Forall_forall in Hs.
    apply Hs. by apply list_elem_of_In. }
  clearbody l. induction l as [|x [|y l] IH]; [done|by apply Forall_cons in Hl as [? _]|].
  apply Forall_cons in Hl as [_ Hl]. by apply IH.
Qed.

(** Also: A name the store accepts from a transaction or a receipt is one path
    component with the expected prefix, and the path made from it is an entry
    of the session's directory that is not a symbolic link, whatever the file
    said; every other value is refused. *)
Theorem transaction_path_confined session v prefix en w :
  match _transaction_subvolume_path session v prefix en w with
  | (Ret p, w') => w' = w /\ exists name, v = PStr name /\ p = session ++ [name] /\
      char_in "/" name = false /\ starts_with prefix name = true /\
      path_is_symlink p (w_fs w) = false
  | (Exc e, w') => w' = w /\ exists m, e = WorkspaceError m
  | (Crash, _) => False
  end.
Proof.
  unfold _transaction_subvolume_path, _safe_transaction_name.
  destruct v as [| | | |name| |]; try (split; [done|by eexists]).
  destruct (negb _ || negb _) eqn:E; [split; [done|by eexists]|].
  apply orb_false_iff in E as [E1 E2]. rewrite !negb_false_iff in *. apply str_eqb_eq in E1.
  unfold of_result, query, raise_when, mbind, M_bind, mret, M_ret, raise.
  destruct (confined _ _ _); simpl; [|split; [done|by eexists]].
  destruct (path_is_symlink _ _) eqn:Hl; [by rewrite orb_true_r; split; [|eexists]|].
  rewrite orb_false_r. case_bool_decide; simpl; [|split; [done|by eexists]].
  split; [done|]. exists name. pose proof (path_name_free name) as Hn. by rewrite E1 in Hn.
Qed.

(** ** Locks *)

Create HintDb neutral.

Section locks.
Context `{HB : SnapshotBackend} `{!BackendLaws HB} (root : string).

(** Follow the structure of a computation, with the lemmas proved so far. *)
Ltac neutral :=
  repeat first
    [ assumption | solve [eauto 2 with neutral nocore]
    | apply lock_neutral_ret | apply lock_neutral_raise | apply lock_neutral_of_result
    | apply lock_neutral_raise_when | apply lock_neutral_effect | apply lock_neutral_query
    | apply lock_neutral_time | apply lock_neutral_uuid
    | apply create_locks | apply snapshot_locks | apply delete_locks | apply root_locks
    | apply lock_neutral_holding | apply lock_neutral_finally
    | apply lock_neutral_bind; [|intros ?]
    | apply lock_neutral_try; [|let e := fresh in let k := fresh in intros e k]
    | match goal with |- Some _ = Some _ -> _ => intros [= <-] end
    | match goal with |- lock_neutral (match ?x with _ => _ end) => destruct x end ].

Lemma neutral_session_lock {A} a s (m : M A) : lock_neutral m -> lock_neutral (_session_lock a s m).
Proof. intros. unfold _session_lock. neutral. Qed.

Lemma neutral_atomic_write p v mode : lock_neutral (_atomic_write_json p v mode).
Proof. unfold _atomic_write_json. neutral. Qed.

Lemma neutral_mapM {A} (f : A -> M unit) l :
  (forall x, lock_neutral (f x)) -> lock_neutral (mapM_ f l).
Proof. intros Hf. induction l as [|x l IH]; simpl; neutral. Qed.

Lemma neutral_append_event ev a s : lock_neutral (_append_event ev a s).
Proof. unfold _append_event. neutral. Qed.

Lemma neutral_require p l : lock_neutral (_require_managed_directory root p l).
Proof. unfold _require_managed_directory. neutral. Qed.

Lemma neutral_read_json p : lock_neutral (read_json p).
Proof. unfold read_json. neutral. Qed.

Lemma neutral_metadata_error {A} m e (k : M A) : metadata_error m e = Some k -> lock_neutral k.
Proof. destruct e; simpl; intros [= <-]; neutral. Qed.

Lemma neutral_lineage_error {A} e (k : M A) : lineage_error e = Some k -> lock_neutral k.
Proof. destruct e; simpl; intros [= <-]; neutral. Qed.

Lemma neutral_json_error {A} m e (k : M A) : json_error m e = Some k -> lock_neutral k.
Proof. destruct e; simpl; intros [= <-]; neutral. Qed.

#[local] Hint Resolve neutral_session_lock neutral_atomic_write neutral_append_event neutral_require
  neutral_read_json neutral_metadata_error neutral_lineage_error neutral_json_error : neutral.

Lemma neutral_load_object p m1 m2 m3 : lock_neutral (load_object p m1 m2 m3).
Proof. unfold load_object. neutral. Qed.

#[local] Hint Resolve neutral_load_object : neutral.

Lemma neutral_load_transaction a s : lock_neutral (_load_transaction a s).
Proof. unfold _load_transaction. neutral. Qed.

Lemma neutral_save_index a s ix : lock_neutral (_save_index a s ix).
Proof. unfold _save_index. neutral. Qed.

Lemma neutral_write_transaction a s t : lock_neutral (_write_transaction a s t).
Proof. unfold _write_transaction. neutral. Qed.

Lemma neutral_clear_transaction a s : lock_neutral (_clear_transaction a s).
Proof. unfold _clear_transaction. neutral. Qed.

Lemma neutral_actual_ids a s : lock_neutral (_actual_checkpoint_ids root a s).
Proof. unfold _actual_checkpoint_ids. neutral. Qed.

#[local] Hint Resolve neutral_load_transaction neutral_save_index neutral_write_transaction
  neutral_clear_transaction neutral_actual_ids : neutral.

Lemma neutral_load_index a s : lock_neutral (_load_index root a s).
Proof. unfold _load_index, read_index. neutral. Qed.

Lemma neutral_write_receipt a s r d : lock_neutral (_write_recovery_receipt a s r d).
Proof. unfold _write_recovery_receipt. neutral. Qed.

Lemma neutral_load_receipt a s r : lock_neutral (_load_recovery_receipt a s r).
Proof. unfold _load_recovery_receipt. neutral. Qed.

Lemma neutral_subvolume_path p v x : lock_neutral (_transaction_subvolume_path p v x).
Proof. unfold _transaction_subvolume_path. neutral. Qed.

Lemma neutral_scrub p : lock_neutral (_scrub_runtime_entries p).
Proof.
  unfold _scrub_runtime_entries. neutral.
  match goal with |- lock_neutral (scrub_entries _ (walk ?n)) => generalize (walk n) end.
  intros es. induction es as [|r es IH]; simpl; neutral.
Qed.

#[local] Hint Resolve neutral_load_index neutral_write_receipt neutral_load_receipt
  neutral_subvolume_path neutral_scrub : neutral.

Lemma neutral_scrub_if v p : lock_neutral (scrub_if v p).
Proof. unfold scrub_if. neutral. Qed.

Lemma neutral_delete_if p : lock_neutral (delete_if_exists p).
Proof. unfold delete_if_exists. neutral. Qed.

#[local] Hint Resolve neutral_scrub_if neutral_delete_if : neutral.

Lemma neutral_list_checkpoints a s : lock_neutral (list_checkpoints root a s).
Proof. unfold list_checkpoints. neutral. Qed.

Lemma neutral_create_agent a o : lock_neutral (create_agent a o).
Proof. unfold create_agent. neutral. Qed.

#[local] Hint Resolve neutral_list_checkpoints neutral_create_agent : neutral.

Lemma neutral_describe a s : lock_neutral (describe root a s).
Proof. unfold describe. neutral. Qed.

#[local] Hint Resolve neutral_describe : neutral.

Lemma neutral_create_session a s o : lock_neutral (create_session root a s o).
Proof. unfold create_session. neutral. Qed.

Lemma neutral_create_checkpoint a s c o m p md :
  lock_neutral (create_checkpoint root a s c o m p md).
Proof. unfold create_checkpoint, checkpoint_name. neutral. Qed.

Lemma neutral_checkpoint_status a s : lock_neutral (checkpoint_status root a s).
Proof. unfold checkpoint_status. neutral. Qed.

Lemma neutral_delete_checkpoint a s c o f : lock_neutral (delete_checkpoint root a s c o f).
Proof. unfold delete_checkpoint. neutral. Qed.

Lemma neutral_rollback a s c n sr o r d : lock_neutral (rollback root a s c n sr o r d).
Proof. unfold rollback, rollback_swap, rollback_commit, on_error. neutral. Qed.

Lemma neutral_delete_all l : lock_neutral (mapM_ delete_if_exists l).
Proof. apply neutral_mapM. intros p. apply neutral_delete_if. Qed.

Lemma neutral_recover_orphan a s cur restores discards :
  lock_neutral (recover_orphan a s cur restores discards).
Proof.
  unfold recover_orphan. pose proof neutral_delete_all.
  destruct restores, discards; neutral; apply neutral_delete_all.
Qed.

#[local] Hint Resolve neutral_recover_orphan : neutral.

Lemma neutral_recover_session a s : lock_neutral (_recover_session root a s).
Proof.
  unfold _recover_session, recover_transaction, recover_finish, recover_commit_deferred,
    recover_committed_deferred, reinstall_current, finish_deferred, move_index_head,
    delete_managed_if_exists.
  neutral.
Qed.

#[local] Hint Resolve neutral_recover_session : neutral.

Lemma neutral_recover_sessions : lock_neutral (_recover_sessions root).
Proof.
  assert (forall a p l, lock_neutral (recover_agent_sessions root a p l)) as Hs.
  { intros a p l. induction l as [|x l IH]; simpl; neutral. }
  unfold _recover_sessions. neutral.
  match goal with |- lock_neutral (recover_agents _ ?l) => induction l as [|x l IH] end;
    simpl; neutral; apply Hs.
Qed.

#[local] Hint Resolve neutral_recover_sessions : neutral.

Lemma neutral_initialize : lock_neutral (initialize root).
Proof. unfold initialize. neutral. Qed.

Lemma neutral_complete a s r : lock_neutral (complete_deferred_rollback root a s r).
Proof.
  unfold complete_deferred_rollback, completed_before, complete_transaction, start_receipt,
    finish_deferred. neutral.
Qed.

(** The operations of the store, as the daemon calls them. *)
Inductive store_call : forall {A}, M A -> Prop :=
  | call_initialize : store_call (initialize root)
  | call_create_agent a o : store_call (create_agent a o)
  | call_create_session a s o : store_call (create_session root a s o)
  | call_describe a s : store_call (describe root a s)
  | call_list a s : store_call (list_checkpoints root a s)
  | call_status a s : store_call (checkpoint_status root a s)
  | call_create a s c o m p md : store_call (create_checkpoint root a s c o m p md)
  | call_delete a s c o f : store_call (delete_checkpoint root a s c o f)
  | call_rollback a s c n sr o r d : store_call (rollback root a s c n sr o r d)
  | call_complete a s r : store_call (complete_deferred_rollback root a s r).

(** Also: Every operation of the store gives back the locks it takes: whether it
    returns or raises, in every environment, the locks held are those held
    before. *)
Theorem store_releases_locks {A} (m : M A) en w :
  store_call m ->
  match m en w with
  | (Crash, _) => True
  | (_, w') => w_locks w' = w_locks w
  end.
Proof.
  intros H. revert en w. change (lock_neutral m).
  destruct H; auto using neutral_initialize, neutral_create_agent, neutral_create_session,
    neutral_describe, neutral_list_checkpoints, neutral_checkpoint_status,
    neutral_create_checkpoint, neutral_delete_checkpoint, neutral_rollback, neutral_complete.
Qed.
End locks.

Lemma store_releases_locks_witness :
  match rollback (H := tree_backend) "/allox" "a1" "s1" (Some "nope") None (PBool true) "manual"
          PNone (PBool false) demo_env (run_from demo_fs) with
  | (Crash, _) => True
  | (_, w') => w_locks w' = []
  end.
Proof.
  exact (store_releases_locks (HB := tree_backend) "/allox" _ demo_env (run_from demo_fs)
    (call_rollback "/allox" "a1" "s1" (Some "nope") None (PBool true) "manual" PNone (PBool false))).
Defined.

(** ** Scrubbing *)

Lemma get_scrub_all r t :
  r <> [] -> get r (scrub_all t) =
    match get r t with
    | Some y => if runtime_node y then None else Some (scrub_all y)
    | None => None
    end.
Proof.
  revert t. induction r as [|c r IH]; intros t Hr; [done|].
  destruct t as [ch| | | | |]; try done. simpl. rewrite lookup_omap.
  destruct (ch !! c) as [m|]; [|done]. simpl.
  destruct (decide (r = [])) as [->|Hr']; [by destruct m|].
  destruct (runtime_node m) eqn:Hm.
  - destruct m; try done; by destruct r.
  - simpl. by apply IH.
Qed.

(** Also: The scrub of a workspace whose runtime directory is not a link removes
    every socket and FIFO below it and keeps everything else: an entry is
    still there exactly when it is neither, with its own entries scrubbed the
    same way; nothing else in the session or outside it changes. *)
Theorem scrub_exact `{HB : SnapshotBackend} `{!BackendLaws HB} a s fs ch cc cps ix t en w :
  ID_RE a = true -> ID_RE s = true -> idle a s fs ch cc cps ix ->
  cc !! TMP = Some t -> plain (Some t) -> calm en -> w_fs w = fs ->
  exists removed w1, _scrub_runtime_entries (CUR a s ++ [TMP]) en w = (Ret removed, w1) /\
    (forall r, r <> [] -> get (CUR a s ++ TMP :: r) (w_fs w1) =
       match get (CUR a s ++ TMP :: r) fs with
       | Some y => if runtime_node y then None else Some (scrub_all y)
       | None => None
       end) /\
    idle a s (w_fs w1) (<["current" := scrub_tmp (NDir cc)]> ch) (alter scrub_all TMP cc) cps ix /\
    (forall q, foreign a s q -> get q (w_fs w1) = get q fs).
Proof.
  intros Ha Hs Hidle Ht Hpl Hcalm Hw.
  assert (tmp_plain (NDir cc)) as Htmp by (unfold tmp_plain; simpl; by rewrite Ht).
  pose proof (idle_St _ _ _ _ _ _ _ Hidle) as HS.
  pose proof (idle_current _ _ _ _ _ _ _ Hidle) as Hcur.
  assert (wp en (_scrub_runtime_entries (CUR a s ++ [TMP]))
    (fun _ fs' => St a s fs (<["current" := scrub_tmp (NDir cc)]> ch) None
       (get (IDX a s) fs) (receipts a s fs) fs') no_exc no_crash fs) as Hwp.
  { eapply (wp_scrub a s fs en); [exact HS|exact Hcur|exact Htmp|by apply calm_tolerates|].
    by intros x' removed fs' _ -> HS'. }
  specialize (Hwp w Hw).
  destruct (_scrub_runtime_entries (CUR a s ++ [TMP]) en w) as [[removed|e|] w1]; [|done..].
  exists removed, w1. split; [done|].
  assert (forall r f c0, get (SD a s) f = Some (NDir c0) ->
    get (CUR a s ++ TMP :: r) f = c0 !! "current" ≫= get (TMP :: r)) as Hget.
  { intros r f c0 Hf. change (CUR a s ++ TMP :: r) with (SD a s ++ "current" :: TMP :: r).
    rewrite get_app, Hf. simpl. by destruct (c0 !! "current"). }
  split; [|split; [|exact (st_frame Hwp)]].
  - intros r Hr. rewrite (Hget _ _ _ (st_sd Hwp)), (Hget _ _ _ (idle_dir _ _ _ _ _ _ _ Hidle)).
    rewrite lookup_insert_eq, Hcur. simpl. rewrite lookup_alter_eq, Ht. simpl.
    by apply get_scrub_all.
  - eapply St_idle; [exact Hwp|apply lookup_insert_eq|..]; try apply Hidle.
    + rewrite lookup_insert_ne by done. apply Hidle.
    + apply session_clean_current, Hidle.
Qed.

Definition demo_runtime : node := NDir (entries_at [TMP] (NDir demo_cc)).

Lemma scrub_exact_witness :
  exists removed w1, _scrub_runtime_entries (CUR "a1" "s1" ++ [TMP]) demo_env (run_from demo_fs)
      = (Ret removed, w1) /\
    get (CUR "a1" "s1" ++ [TMP; "ipc"]) (w_fs w1) = None.
Proof.
  destruct (scrub_exact (HB := tree_backend) "a1" "s1" demo_fs demo_ch demo_cc demo_cps demo_ix
    demo_runtime demo_env (run_from demo_fs) eq_refl eq_refl demo_idle
    ltac:(vm_compute; reflexivity) Logic.I demo_calm (run_from_fs _)) as (removed & w1 & Hrun & Hget & _).
  exists removed, w1. split; [exact Hrun|].
  rewrite (Hget ["ipc"]) by discriminate. vm_compute. reflexivity.
Defined.

(** The demo session cannot be changed through another one. *)
Lemma sessions_isolated_witness : foreign "a1" "s2" (TXN "a1" "s1").
Proof.
  apply (sessions_isolated "a1" "s2" "a1" "s1"); [reflexivity..|congruence|].
  apply sp_metadata. left.
Defined.

(** * Executions of the store worth knowing

    Concrete runs, evaluated by the kernel, of behaviours that the code's
    comments and documents do not promise or that fall outside the theorems:
    an interrupted recovery, a failed installation, a linked runtime
    directory, and identifiers that collide with the store's own files. *)

Section examples.
Existing Instance tree_backend.

(** The demo session with a second checkpoint, [c2], at the head. *)
Definition two_checkpoints : node := final_tree (demo_create demo_env (run_from demo_fs)).

Definition rollback_c1 : M dict :=
  rollback "/allox" "a1" "s1" (Some "c1") None (PBool true) "manual" PNone (PBool false).

Definition recover : M bool := _recover_session "/allox" "a1" "s1".

(** The machine stops at operation [n]. *)
Definition crash_at (n : nat) : env :=
  Env (fun n => Z.of_nat n) (fun _ => "abc")
    (fun k => if (k =? n)%nat then Halt else Go) (fun _ => Go).

Definition note (fs : node) : option node := get (CUR "a1" "s1" ++ ["note"]) fs.
Definition socket (fs : node) : option node := get (CUR "a1" "s1" ++ [TMP; "ipc"]) fs.

Definition index_head (fs : node) : pyval :=
  match get (IDX "a1" "s1") fs with
  | Some (NFile (CJson (PDict d))) => dgetn "head" d
  | _ => PNone
  end.

Definition last_outcome (fs : node) : pyval :=
  match get (EV "a1" "s1") fs with
  | Some (NFile (CLines l)) => dgetn "outcome" (List.last l [])
  | _ => PNone
  end.

(** The session before the rollback. *)
Example before_rollback :
  (note two_checkpoints, index_head two_checkpoints)
    = (Some (NFile (CRaw "second")), PStr "c2").
Proof. vm_compute. reflexivity. Qed.

(** A crash just after the old workspace was set aside, then a second one in
    the recovery, just after it installed the restored workspace: the next
    recovery reports the rollback as aborted, with the checkpoint installed,
    the old workspace deleted and the head not moved. *)
Definition twice_interrupted : node :=
  final_tree (recover demo_env (run_from
    (final_tree (recover (crash_at 2) (run_from
      (final_tree (rollback_c1 (crash_at 22) (run_from two_checkpoints)))))))).

Example twice_interrupted_outcome :
  (note twice_interrupted, index_head twice_interrupted, last_outcome twice_interrupted,
   (map_to_list (entries_at (SD "a1" "s1") twice_interrupted)).*1)
    = (Some (NFile (CRaw "first")), PStr "c2", PStr "aborted", ["current"; "checkpoints"]).
Proof. vm_compute. reflexivity. Qed.

(** The rename that installs the restored workspace fails, the old one is put
    back, and a crash prevents the end of the transaction: the recovery moves
    the head to the checkpoint although the old workspace is current. *)
Definition failed_install : env :=
  Env (fun n => Z.of_nat n) (fun _ => "abc")
    (fun k => if (k =? 29)%nat then Halt else Go)
    (fun k => if (k =? 27)%nat then Fail_before else Go).

Definition not_installed : node :=
  final_tree (recover demo_env (run_from
    (final_tree (rollback_c1 failed_install (run_from two_checkpoints))))).

Example not_installed_outcome :
  (note not_installed, index_head not_installed, last_outcome not_installed)
    = (Some (NFile (CRaw "second")), PStr "c1", PStr "committed").
Proof. vm_compute. reflexivity. Qed.

(** A rollback with [scrub_runtime] that recovery commits is not scrubbed; the
    same rollback without a crash is. *)
Definition recovered_rollback : node :=
  final_tree (recover demo_env (run_from
    (final_tree (rollback_c1 (crash_at 30) (run_from two_checkpoints))))).

Definition plain_rollback : node :=
  final_tree (rollback_c1 demo_env (run_from two_checkpoints)).

Example recovered_rollback_unscrubbed :
  (socket recovered_rollback, last_outcome recovered_rollback, socket plain_rollback)
    = (Some NSock, PStr "committed", None).
Proof. vm_compute. reflexivity. Qed.

(** A runtime directory that the agent replaced with a link to a directory
    outside its session: the scrub removes the sockets of that directory. *)
Definition linked : node :=
  final_tree ((mkdir_parents ["outside"];;
               effect e_fate (os_op "put" (fun fs => put ["outside"; "sock"] NSock (Some fs)));;
               agent_puts [TMP] (NLink ["outside"])) demo_env (run_from demo_fs)).

Example scrub_follows_link :
  (get ["outside"; "sock"] linked,
   get ["outside"; "sock"]
     (final_tree (_scrub_runtime_entries (CUR "a1" "s1" ++ [TMP]) demo_env (run_from linked))))
    = (Some NSock, None).
Proof. vm_compute. reflexivity. Qed.

(** [store.jsonl] is a valid agent identifier, but its event directory is the
    store's own event file. *)
Example agent_named_store :
  (ID_RE "store.jsonl",
   fst (create_agent "store.jsonl" "manual" demo_env (run_from demo_fs)))
    = (true, Exc (OSError "mkdir")).
Proof. vm_compute. reflexivity. Qed.

(** The session [agent] appends to the event file of the agent itself. *)
Example session_named_agent :
  _event_path (Some "a1") (Some "agent") = _event_path (Some "a1") None.
Proof. reflexivity. Qed.
End examples.
