(* ===== verification/Registry.v ===== *)
(** * The execution registry of the daemon

    [ExecutionRegistry] of [src/src/allox/workspace/daemon.py]: which sessions
    run a command, are being checkpointed or restored, have background
    executions, are fenced for a runtime reset, or are read through a share.
    Every method runs under the registry's lock, so each is one step on the
    registry; an error leaves it as it was.  The context managers are the pair
    of their entry and their exit. *)

From Stdlib Require Import Ascii.
From Stdlib Require String.
From stdpp Require Import gmap.
From S2P Require Import Prelude PyVal Ids.
Open Scope Z_scope.

(** A session: agent and session identifier. *)
Definition key : Type := string * string.

#[export] Instance key_eq_dec : EqDecision key.
Proof. unfold key. apply _. Defined.
#[export] Instance key_countable : Countable key.
Proof. unfold key. apply _. Defined.

Record registry := Registry {
  leases : gmap string key;
  recovery_leases : gset string;
  mutating : gset key;
  background : gmap key dict;
  resets : gmap string key;
  share_readers : gmap key Z }.

Definition empty_registry : registry := Registry ∅ ∅ ∅ ∅ ∅ ∅.

Definition check_key (agent_id session_id : string) : result key :=
  a ← validate_id "agent" agent_id;
  s ← validate_id "session" session_id;
  Ok (a, s).

Definition label (k : key) : string := k.1 +:+ "/" +:+ k.2.

(** [key in self._leases.values()] *)
Definition leased (r : registry) (k : key) : bool :=
  existsb (fun kv => bool_decide (kv.2 = k)) (map_to_list (leases r)).

(** [any(token in self._recovery_leases and lease_key == key ...)] *)
Definition recovery_reserved (r : registry) (k : key) : bool :=
  existsb (fun kv => bool_decide (kv.1 ∈ recovery_leases r) && bool_decide (kv.2 = k))
    (map_to_list (leases r)).

(** [self._share_readers.get(key)] as a condition. *)
Definition has_readers (r : registry) (k : key) : bool :=
  match share_readers r !! k with Some n => negb (n =? 0) | None => false end.

(** [self._background.get(key, {})], and whether it is not empty. *)
Definition background_of (r : registry) (k : key) : dict := default [] (background r !! k).

Definition has_background (r : registry) (k : key) : bool :=
  match background_of r k with [] => false | _ => true end.

Definition is_mutating (r : registry) (k : key) : bool := bool_decide (k ∈ mutating r).

(** ** Execution leases *)

(** [token] is [uuid.uuid4().hex]. *)
Definition acquire (agent_id session_id : string) (recovery : pyval) (token : string)
    (r : registry) : result (dict * registry) :=
  k ← check_key agent_id session_id;
  match recovery with
  | PBool recovery =>
      raise_if (is_mutating r k)
        (WorkspaceError ("session is being checkpointed or restored: " +:+ label k));;
      raise_if (leased r k)
        (WorkspaceError ("session already has an active execution: " +:+ label k));;
      raise_if (recovery && has_readers r k)
        (WorkspaceError "recovery execution cannot start with active share reads");;
      raise_if (recovery && has_background r k)
        (WorkspaceError "recovery execution requires no persistent runtime executions");;
      Ok ([("lease_token", PStr token)]
            ++ (if recovery then [("recovery_reserved", PBool true)] else []),
          Registry (<[token := k]> (leases r))
            (if recovery then {[ token ]} ∪ recovery_leases r else recovery_leases r)
            (mutating r) (background r) (resets r) (share_readers r))
  | _ => Err (WorkspaceError "execution recovery reservation must be a boolean")
  end.

Definition release (token : string) (r : registry) : dict * registry :=
  ([("released", PBool (bool_decide (is_Some (leases r !! token))))],
   Registry (delete token (leases r)) (recovery_leases r ∖ {[ token ]})
     (mutating r) (background r) (resets r) (share_readers r)).

(** ** Background executions and the runtime reset *)

Definition register_background (agent_id session_id sandbox_id execution_id : string)
    (r : registry) : result (dict * registry) :=
  k ← check_key agent_id session_id;
  raise_if (str_eqb sandbox_id EmptyString || str_eqb execution_id EmptyString)
    (WorkspaceError "background execution requires sandbox_id and execution_id");;
  raise_if (is_mutating r k) (WorkspaceError ("session is being restored: " +:+ label k));;
  raise_if (recovery_reserved r k)
    (WorkspaceError "session has an active recovery execution reservation");;
  let record := PDict [("sandbox_id", PStr sandbox_id); ("execution_id", PStr execution_id)] in
  Ok ([("registered", PBool true); ("execution_id", PStr execution_id)],
      Registry (leases r) (recovery_leases r) (mutating r)
        (<[k := dset execution_id record (background_of r k)]> (background r))
        (resets r) (share_readers r)).

Definition begin_runtime_reset (agent_id session_id token : string) (r : registry)
    : result (dict * registry) :=
  k ← check_key agent_id session_id;
  raise_if (has_readers r k) (WorkspaceError "session has active share reads");;
  raise_if (is_mutating r k)
    (WorkspaceError ("session mutation already in progress: " +:+ label k));;
  raise_if (leased r k) (WorkspaceError ("session has active executions: " +:+ label k));;
  Ok ([("reset_token", PStr token); ("executions", PList (snd <$> background_of r k))],
      Registry (leases r) (recovery_leases r) ({[ k ]} ∪ mutating r) (background r)
        (<[token := k]> (resets r)) (share_readers r)).

Definition complete_runtime_reset (token : string) (success : bool) (r : registry)
    : result (dict * registry) :=
  match resets r !! token with
  | None => Err (WorkspaceError "unknown runtime reset token")
  | Some k =>
      Ok ([("completed", PBool true); ("success", PBool success)],
          Registry (leases r) (recovery_leases r) (mutating r ∖ {[ k ]})
            (if success then delete k (background r) else background r)
            (delete token (resets r)) (share_readers r))
  end.

(** The check at the entry of [reset_mutation]; its exit does nothing. *)
Definition reset_mutation (token agent_id session_id : string) (r : registry)
    : result unit :=
  k ← check_key agent_id session_id;
  raise_if (negb (bool_decide (resets r !! token = Some k)) || negb (is_mutating r k))
    (WorkspaceError "invalid runtime reset token for session").

(** ** Mutations and shared reads *)

Definition with_mutating (m : gset key) (r : registry) : registry :=
  Registry (leases r) (recovery_leases r) m (background r) (resets r) (share_readers r).

Definition mutation_enter (agent_id session_id : string) (r : registry)
    : result (key * registry) :=
  k ← check_key agent_id session_id;
  raise_if (has_readers r k) (WorkspaceError "session has active share reads");;
  raise_if (is_mutating r k)
    (WorkspaceError ("session mutation already in progress: " +:+ label k));;
  raise_if (leased r k) (WorkspaceError ("session has active executions: " +:+ label k));;
  raise_if (has_background r k)
    (WorkspaceError ("session has persistent runtime executions: " +:+ label k
                     +:+ "; use runtime reset before rollback"));;
  Ok (k, with_mutating ({[ k ]} ∪ mutating r) r).

Definition mutation_exit (k : key) (r : registry) : registry :=
  with_mutating (mutating r ∖ {[ k ]}) r.

Definition with_readers (m : gmap key Z) (r : registry) : registry :=
  Registry (leases r) (recovery_leases r) (mutating r) (background r) (resets r) m.

(** [share_access(write=False)]; with [write=True] it is [mutation]. *)
Definition share_read_enter (agent_id session_id : string) (r : registry)
    : result (key * registry) :=
  k ← check_key agent_id session_id;
  raise_if (is_mutating r k) (WorkspaceError "session is being checkpointed or restored");;
  raise_if (recovery_reserved r k)
    (WorkspaceError "session has an active recovery execution reservation");;
  Ok (k, with_readers (<[k := default 0 (share_readers r !! k) + 1]> (share_readers r)) r).

(** The exit raises [KeyError] when the reader is not counted. *)
Definition share_read_exit (k : key) (r : registry) : result registry :=
  match share_readers r !! k with
  | None => Err KeyError
  | Some n =>
      Ok (with_readers (if n - 1 =? 0 then delete k (share_readers r)
                        else <[k := n - 1]> (share_readers r)) r)
  end.

(** The bodies of the context managers: a shared read, a mutation or a shared
    write, and the rollback of a session that is being reset. *)
Inductive access :=
  Reading (k : key) | Writing (k : key) | Restoring (token : string) (k : key).

(** [with reset_mutation(token, ...):] and [with share_access(..., write=write):]
    of some body. *)
Definition reset_mutation_enter (token agent_id session_id : string) (r : registry)
    : result (access * registry) :=
  reset_mutation token agent_id session_id r;;
  Ok (Restoring token (agent_id, session_id), r).

Definition share_access_enter (agent_id session_id : string) (write : bool) (r : registry)
    : result (access * registry) :=
  if write then
    e ← mutation_enter agent_id session_id r; Ok (Writing e.1, e.2)
  else
    e ← share_read_enter agent_id session_id r; Ok (Reading e.1, e.2).

Definition share_access_exit (x : access) (r : registry) : result registry :=
  match x with
  | Reading k => share_read_exit k r
  | Writing k => Ok (mutation_exit k r)
  | Restoring _ _ => Ok r
  end.

(** * The execution registry as a system of concurrent requests

    Threads of the daemon enter and leave the registry's operations in any
    order; each operation is one step.  The invariant says what may happen to
    a session at the same time. *)

(** ** The tests of the registry *)

Lemma leased_spec r k : leased r k = true <-> exists token, leases r !! token = Some k.
Proof.
  unfold leased. rewrite existsb_exists. split.
  - intros ([token k'] & Hin & Hk%bool_decide_eq_true). simpl in Hk. subst. exists token.
    by apply elem_of_map_to_list, list_elem_of_In.
  - intros [token H]. exists (token, k). rewrite bool_decide_eq_true. split; [|done].
    by apply list_elem_of_In, elem_of_map_to_list.
Qed.

Lemma recovery_reserved_spec r k :
  recovery_reserved r k = true <->
  exists token, token ∈ recovery_leases r /\ leases r !! token = Some k.
Proof.
  unfold recovery_reserved. rewrite existsb_exists. split.
  - intros ([token k'] & Hin & [H1 H2]%andb_prop). apply bool_decide_eq_true in H1, H2.
    simpl in *. subst. exists token. split; [done|].
    by apply elem_of_map_to_list, list_elem_of_In.
  - intros (token & H1 & H2). exists (token, k). split.
    + by apply list_elem_of_In, elem_of_map_to_list.
    + simpl. by rewrite !bool_decide_eq_true_2.
Qed.

Lemma is_mutating_spec r k : is_mutating r k = true <-> k ∈ mutating r.
Proof. apply bool_decide_eq_true. Qed.

Lemma not_leased r k : leased r k = false <-> forall token, leases r !! token <> Some k.
Proof.
  rewrite <- not_true_iff_false, leased_spec. naive_solver.
Qed.

Lemma not_reserved r k :
  recovery_reserved r k = false <->
  forall token, token ∈ recovery_leases r -> leases r !! token <> Some k.
Proof. rewrite <- not_true_iff_false, recovery_reserved_spec. naive_solver. Qed.

(** ** Steps *)

(** The registry, and the bodies running inside its context managers. *)
Record system := System { reg : registry; active : list access }.

(** One request, or the end of one.  Tokens are fresh, as [uuid4] makes
    them. *)
Inductive sys_step : system -> system -> Prop :=
  | step_acquire a s rec token d r r' l :
      acquire a s rec token r = Ok (d, r') -> leases r !! token = None ->
      sys_step (System r l) (System r' l)
  | step_release token r l : sys_step (System r l) (System (release token r).2 l)
  | step_register a s sandbox exec d r r' l :
      register_background a s sandbox exec r = Ok (d, r') ->
      sys_step (System r l) (System r' l)
  | step_begin_reset a s token d r r' l :
      begin_runtime_reset a s token r = Ok (d, r') -> resets r !! token = None ->
      sys_step (System r l) (System r' l)
  | step_complete_reset token success d r r' l :
      complete_runtime_reset token success r = Ok (d, r') ->
      sys_step (System r l) (System r' l)
  | step_enter a s write x r r' l :
      share_access_enter a s write r = Ok (x, r') ->
      sys_step (System r l) (System r' (x :: l))
  | step_enter_reset token a s x r r' l :
      reset_mutation_enter token a s r = Ok (x, r') ->
      sys_step (System r l) (System r' (x :: l))
  | step_exit x r r' l l' :
      l ≡ₚ x :: l' -> share_access_exit x r = Ok r' ->
      sys_step (System r l) (System r' l').

Definition sys_init : system := System empty_registry [].

Definition sys_reachable (st : system) : Prop := rtc sys_step sys_init st.

(** ** The invariant *)

Fixpoint reading (k : key) (l : list access) : nat :=
  match l with
  | [] => 0
  | Reading k' :: l => (if bool_decide (k' = k) then 1 else 0) + reading k l
  | (Writing _ | Restoring _ _) :: l => reading k l
  end.

Fixpoint writing (k : key) (l : list access) : nat :=
  match l with
  | [] => 0
  | Writing k' :: l => (if bool_decide (k' = k) then 1 else 0) + writing k l
  | (Reading _ | Restoring _ _) :: l => writing k l
  end.

#[export] Instance reading_perm k : Proper ((≡ₚ) ==> eq) (reading k).
Proof.
  intros l l' H. induction H as [|[] ? ? ? IH|[] [] ?|]; simpl; try lia.
Qed.

#[export] Instance writing_perm k : Proper ((≡ₚ) ==> eq) (writing k).
Proof.
  intros l l' H. induction H as [|[] ? ? ? IH|[] [] ?|]; simpl; try lia.
Qed.

Definition resetting (r : registry) (k : key) : Prop := exists token, resets r !! token = Some k.

Record reg_inv (r : registry) (l : list access) : Prop := RegInv {
  (* a mutated session is not executing and not read *)
  inv_lease k token : k ∈ mutating r -> leases r !! token <> Some k;
  inv_readers k : k ∈ mutating r -> share_readers r !! k = None;
  (* one lease per session *)
  inv_leases t1 t2 k : leases r !! t1 = Some k -> leases r !! t2 = Some k -> t1 = t2;
  (* a recovery lease excludes readers and background executions *)
  inv_recovery t k : t ∈ recovery_leases r -> leases r !! t = Some k ->
    share_readers r !! k = None /\ background_of r k = [];
  inv_recovery_dom t : t ∈ recovery_leases r -> is_Some (leases r !! t);
  (* readers are counted *)
  inv_count k : default 0 (share_readers r !! k) = Z.of_nat (reading k l);
  inv_positive k n : share_readers r !! k = Some n -> 0 < n;
  (* a session is mutated by one checkpoint, rollback or reset, or by none *)
  inv_mutating k : k ∈ mutating r <-> (0 < writing k l)%nat \/ resetting r k;
  inv_writing k : (writing k l <= 1)%nat;
  inv_writer_reset k : (0 < writing k l)%nat -> ~ resetting r k;
  inv_resets t1 t2 k : resets r !! t1 = Some k -> resets r !! t2 = Some k -> t1 = t2;
  (* a checkpoint or rollback runs without background executions *)
  inv_background k : (0 < writing k l)%nat -> background_of r k = [] }.

Lemma has_readers_false r l k :
  reg_inv r l -> has_readers r k = false -> share_readers r !! k = None.
Proof.
  intros H. unfold has_readers. destruct (share_readers r !! k) as [n|] eqn:E; [|done].
  pose proof (inv_positive _ _ H _ _ E). intros Hn. apply negb_false_iff, Z.eqb_eq in Hn. lia.
Qed.

Lemma has_background_false r k : has_background r k = false <-> background_of r k = [].
Proof. unfold has_background. by destruct (background_of r k). Qed.

Lemma check_key_Ok a s k : check_key a s = Ok k -> k = (a, s) /\ ID_RE a = true /\ ID_RE s = true.
Proof. unfold check_key. intros H. ok_inv. rewrite validate_id_Ok in *. naive_solver. Qed.

Lemma reg_inv_init : reg_inv empty_registry [].
Proof.
  split; simpl; try done; try (intros; set_solver).
  - intros k. split; [set_solver|]. intros [?|[t Ht]]; [lia|done].
  - lia.
Qed.

(** ** Each operation keeps the invariant *)

(** Name the guards that an operation which succeeded has passed. *)
Ltac guards :=
  try match goal with H : is_mutating _ _ = false |- _ => rename H into Hm end;
  try match goal with H : leased _ _ = false |- _ => rewrite not_leased in H; rename H into Hl end;
  try match goal with H : recovery_reserved _ _ = false |- _ =>
    rewrite not_reserved in H; rename H into Hrec end;
  try match goal with H : has_readers _ _ = false |- _ => rename H into Hr end;
  try match goal with H : has_background _ _ = false |- _ =>
    rewrite has_background_false in H; rename H into Hbg end.

Lemma inv_acquire a s rec token d r r' l :
  acquire a s rec token r = Ok (d, r') -> leases r !! token = None ->
  reg_inv r l -> reg_inv r' l.
Proof.
  unfold acquire. intros H Hfresh Hinv. apply result_bind_Ok in H as (k & _ & H).
  destruct rec as [|rec| | | | |]; try done. ok_inv.
  guards.
  assert (~ k ∈ mutating r) as Hk by (rewrite <- is_mutating_spec; congruence).
  assert (rec = true -> share_readers r !! k = None /\ background_of r k = []) as Hrec.
  { intros ->. split; [by eapply has_readers_false|by apply has_background_false]. }
  destruct Hinv as [I1 I2 I3 I4 I5 I6 I7 I8 I9 I10 I11 I12]. split; simpl; try done.
  - intros k' t Hk'. rewrite lookup_insert_Some. intros [[_ <-]|[_ Ht]]; [done|].
    by apply (I1 _ t) in Hk'.
  - intros t1 t2 k'. rewrite !lookup_insert_Some. intros [[<- <-]|[_ E1]] [[<- E]|[_ E2]];
      [done|by destruct (Hl t2)|subst; by destruct (Hl t1)|by eapply I3].
  - intros t k' Ht. rewrite lookup_insert_Some. intros [[<- <-]|[Hne Hlk]].
    + destruct rec; [by apply Hrec|]. destruct (I5 _ Ht) as [? ?]. congruence.
    + apply (I4 t); [|done]. destruct rec; set_solver.
  - intros t Ht. destruct (decide (token = t)) as [->|]; [rewrite lookup_insert_eq; eauto|].
    rewrite lookup_insert_ne by done. apply I5. destruct rec; set_solver.
Qed.

Lemma inv_release token r l : reg_inv r l -> reg_inv (release token r).2 l.
Proof.
  intros [I1 I2 I3 I4 I5 I6 I7 I8 I9 I10 I11 I12]. split; simpl; try done.
  - intros k t Hk. rewrite lookup_delete_Some. intros [_ Ht]. by apply (I1 _ t) in Hk.
  - intros t1 t2 k. rewrite !lookup_delete_Some. intros [_ E1] [_ E2]. by eapply I3.
  - intros t k Ht. rewrite lookup_delete_Some. intros [_ ?]. apply (I4 t); set_solver.
  - intros t Ht. rewrite lookup_delete_ne by set_solver. apply I5. set_solver.
Qed.

Lemma background_insert r k v k' b :
  background_of (Registry (leases r) (recovery_leases r) (mutating r)
    (<[k := v]> (background r)) (resets r) (share_readers r)) k' = b <->
  (k = k' /\ v = b) \/ (k <> k' /\ background_of r k' = b).
Proof.
  unfold background_of. simpl. destruct (decide (k = k')) as [->|].
  - rewrite lookup_insert_eq. simpl. naive_solver.
  - rewrite lookup_insert_ne by done. naive_solver.
Qed.

Lemma inv_register a s sandbox exec d r r' l :
  register_background a s sandbox exec r = Ok (d, r') -> reg_inv r l -> reg_inv r' l.
Proof.
  unfold register_background. intros H Hinv. apply result_bind_Ok in H as (k & _ & H).
  cbv zeta in H. ok_inv. guards.
  assert (~ k ∈ mutating r) as Hk by (rewrite <- is_mutating_spec; congruence).
  destruct Hinv as [I1 I2 I3 I4 I5 I6 I7 I8 I9 I10 I11 I12]. split; simpl; try done.
  - intros t k' Ht Hlk. rewrite background_insert. destruct (I4 _ _ Ht Hlk). split; [done|].
    right. split; [|done]. intros <-. by eapply Hrec.
  - intros k' Hw. rewrite background_insert. right. split; [|by apply I12].
    intros <-. apply Hk, I8. auto.
Qed.

Lemma inv_begin_reset a s token d r r' l :
  begin_runtime_reset a s token r = Ok (d, r') -> resets r !! token = None ->
  reg_inv r l -> reg_inv r' l.
Proof.
  unfold begin_runtime_reset. intros H Hfresh Hinv. apply result_bind_Ok in H as (k & _ & H).
  ok_inv. guards.
  assert (~ k ∈ mutating r) as Hk by (rewrite <- is_mutating_spec; congruence).
  pose proof (has_readers_false _ _ _ Hinv Hr) as Hnr.
  destruct Hinv as [I1 I2 I3 I4 I5 I6 I7 I8 I9 I10 I11 I12].
  assert (forall k', resetting (Registry (leases r) (recovery_leases r) ({[ k ]} ∪ mutating r)
    (background r) (<[token := k]> (resets r)) (share_readers r)) k' <->
    k = k' \/ resetting r k') as Hres.
  { intros k'. unfold resetting. simpl. split.
    - intros [t Ht]. apply lookup_insert_Some in Ht. naive_solver.
    - intros [->|[t Ht]]; [exists token; apply lookup_insert_eq|].
      exists t. rewrite lookup_insert_ne; [done|congruence]. }
  split; simpl; try done.
  - intros k' t Hk'. destruct (decide (k' = k)) as [->|]; [apply Hl|]. apply I1. set_solver.
  - intros k' Hk'. destruct (decide (k' = k)) as [->|]; [done|]. apply I2. set_solver.
  - intros k'. rewrite Hres, elem_of_union, elem_of_singleton, I8. naive_solver.
  - intros k' Hw. rewrite Hres. intros [<-|Hr']; [|by eapply I10]. apply Hk, I8. auto.
  - intros t1 t2 k'. rewrite !lookup_insert_Some. intros [[<- <-]|[_ E1]] [[<- E2]|[_ E2]];
      [done| | |by eapply I11].
    + exfalso. apply Hk, I8. right. by exists t2.
    + exfalso. subst. apply Hk, I8. right. by exists t1.
Qed.

Lemma inv_complete_reset token success d r r' l :
  complete_runtime_reset token success r = Ok (d, r') -> reg_inv r l -> reg_inv r' l.
Proof.
  unfold complete_runtime_reset. intros H Hinv. destruct (resets r !! token) as [k|] eqn:Ht; [|done].
  injection H as <- <-.
  destruct Hinv as [I1 I2 I3 I4 I5 I6 I7 I8 I9 I10 I11 I12].
  assert (forall k', resetting (Registry (leases r) (recovery_leases r) (mutating r ∖ {[ k ]})
    (if success then delete k (background r) else background r) (delete token (resets r))
    (share_readers r)) k' <-> k <> k' /\ resetting r k') as Hres.
  { intros k'. unfold resetting. simpl. split.
    - intros [t Ht']. apply lookup_delete_Some in Ht' as [Hne Ht']. split; [|by exists t].
      intros <-. apply Hne. by eapply I11.
    - intros [Hne [t Ht']]. exists t. rewrite lookup_delete_ne; [done|congruence]. }
  assert (forall k', background_of r k' = [] -> background_of
    (Registry (leases r) (recovery_leases r) (mutating r ∖ {[ k ]})
    (if success then delete k (background r) else background r) (delete token (resets r))
    (share_readers r)) k' = []) as Hbg.
  { intros k' Hk'. unfold background_of in *. simpl. destruct success; [|done].
    destruct (decide (k = k')) as [->|]; [by rewrite lookup_delete_eq|by rewrite lookup_delete_ne]. }
  split; simpl; try done.
  - intros k' t Hk'. apply I1. set_solver.
  - intros k' Hk'. apply I2. set_solver.
  - intros t k' Hr Hl. destruct (I4 _ _ Hr Hl). split; [done|by apply Hbg].
  - intros k'. rewrite Hres, elem_of_difference, elem_of_singleton, I8.
    assert (resetting r k) as Hk by by exists token. split.
    + intros [[?|?] ?]; [by left|right]. by split.
    + intros [Hw|[? ?]]; [|by split; auto]. split; [by left|]. intros ->. by apply (I10 k).
  - intros k' Hw. rewrite Hres. intros [_ ?]. by apply (I10 k').
  - intros t1 t2 k'. rewrite !lookup_delete_Some. intros [_ E1] [_ E2]. by eapply I11.
  - intros k' Hw. by apply Hbg, I12.
Qed.

Lemma resetting_mutating m r k : resetting (with_mutating m r) k <-> resetting r k.
Proof. done. Qed.

Lemma inv_mutation_enter a s k r r' l :
  mutation_enter a s r = Ok (k, r') -> reg_inv r l -> reg_inv r' (Writing k :: l).
Proof.
  unfold mutation_enter. intros H Hinv. apply result_bind_Ok in H as (k' & _ & H). ok_inv.
  guards. assert (~ k ∈ mutating r) as Hk by (rewrite <- is_mutating_spec; congruence).
  pose proof (has_readers_false _ _ _ Hinv Hr) as Hnr.
  destruct Hinv as [I1 I2 I3 I4 I5 I6 I7 I8 I9 I10 I11 I12].
  assert (writing k l = 0%nat /\ ~ resetting r k) as [Hw0 Hr0].
  { rewrite I8 in Hk. split; [lia|tauto]. }
  split; simpl; try done.
  - intros k' t Hk'. destruct (decide (k' = k)) as [->|]; [apply Hl|]. apply I1. set_solver.
  - intros k' Hk'. destruct (decide (k' = k)) as [->|]; [done|]. apply I2. set_solver.
  - intros k'. rewrite elem_of_union, elem_of_singleton, resetting_mutating, I8.
    case_bool_decide; [subst; naive_solver lia|]. naive_solver.
  - intros k'. case_bool_decide; [subst; lia|]. apply I9.
  - intros k'. rewrite resetting_mutating. case_bool_decide; [by subst|]. apply I10.
  - intros k'. case_bool_decide; [by subst|]. apply I12.
Qed.

Lemma inv_share_read_enter a s k r r' l :
  share_read_enter a s r = Ok (k, r') -> reg_inv r l -> reg_inv r' (Reading k :: l).
Proof.
  unfold share_read_enter. intros H Hinv. apply result_bind_Ok in H as (k' & _ & H). ok_inv.
  guards. assert (~ k ∈ mutating r) as Hk by (rewrite <- is_mutating_spec; congruence).
  destruct Hinv as [I1 I2 I3 I4 I5 I6 I7 I8 I9 I10 I11 I12]. split; simpl; try done.
  - intros k' Hk'. rewrite lookup_insert_ne by congruence. by apply I2.
  - intros t k' Ht Hlk. destruct (decide (k = k')) as [<-|]; [by destruct (Hrec t)|].
    rewrite lookup_insert_ne by done. by apply (I4 t).
  - intros k'. case_bool_decide as E.
    + subst. rewrite lookup_insert_eq. simpl. rewrite I6. lia.
    + rewrite lookup_insert_ne by done. apply I6.
  - intros k' n. rewrite lookup_insert_Some. intros [[<- <-]|[_ Hn]]; [|by eapply I7].
    rewrite I6. lia.
Qed.

Lemma inv_enter a s write x r r' l :
  share_access_enter a s write r = Ok (x, r') -> reg_inv r l -> reg_inv r' (x :: l).
Proof.
  unfold share_access_enter. intros H Hinv. destruct write;
    apply result_bind_Ok in H as ([k r2] & H & [= <- <-]).
  - by eapply inv_mutation_enter.
  - by eapply inv_share_read_enter.
Qed.

Lemma reset_mutation_enter_Ok token a s x r r' :
  reset_mutation_enter token a s r = Ok (x, r') ->
  x = Restoring token (a, s) /\ r' = r /\ resets r !! token = Some (a, s).
Proof.
  unfold reset_mutation_enter, reset_mutation. intros H.
  apply result_bind_Ok in H as ([] & H & [= <- <-]).
  apply result_bind_Ok in H as (k & [-> _]%check_key_Ok & H). ok_inv.
  match goal with H : _ || _ = false |- _ => apply orb_false_elim in H as [H _];
    apply negb_false_iff, bool_decide_eq_true in H end. done.
Qed.

Lemma inv_enter_reset token a s x r r' l :
  reset_mutation_enter token a s r = Ok (x, r') -> reg_inv r l -> reg_inv r' (x :: l).
Proof. intros (-> & -> & _)%reset_mutation_enter_Ok []. by split. Qed.

Lemma inv_perm r l l' : l ≡ₚ l' -> reg_inv r l -> reg_inv r l'.
Proof.
  intros Hl [I1 I2 I3 I4 I5 I6 I7 I8 I9 I10 I11 I12].
  split; try done; intros k; rewrite <- ?Hl; auto.
Qed.

(** The end of a body that is running: the exit does not raise. *)
Lemma inv_exit x r l :
  reg_inv r (x :: l) -> exists r', share_access_exit x r = Ok r' /\ reg_inv r' l.
Proof.
  intros Hinv. destruct Hinv as [I1 I2 I3 I4 I5 I6 I7 I8 I9 I10 I11 I12].
  destruct x as [k|k|t k]; simpl.
  3: by exists r.
  - assert (exists n, share_readers r !! k = Some n /\ n = Z.of_nat (S (reading k l)))
      as (n & Hn & Hval).
    { specialize (I6 k). simpl in I6. rewrite bool_decide_eq_true_2 in I6 by done.
      destruct (share_readers r !! k) as [n|]; simpl in I6; [exists n; split; [done|lia]|lia]. }
    unfold share_read_exit. rewrite Hn. eexists. split; [done|].
    set (m := if n - 1 =? 0 then delete k (share_readers r) else <[k:=n - 1]> (share_readers r)).
    assert (forall k', m !! k' = if bool_decide (k = k')
       then (if n - 1 =? 0 then None else Some (n - 1)) else share_readers r !! k') as Hm.
    { intros k'. unfold m. case_bool_decide as E; [subst k'|].
      - destruct (n - 1 =? 0); [by rewrite lookup_delete_eq|by rewrite lookup_insert_eq].
      - destruct (n - 1 =? 0); [by rewrite lookup_delete_ne|by rewrite lookup_insert_ne]. }
    split; simpl; try done.
    + intros k' Hk'. rewrite Hm. case_bool_decide; [subst|by apply I2].
      rewrite I2 in Hn; done.
    + intros t k' Ht Hlk. destruct (I4 _ _ Ht Hlk) as [Hs ?]. split; [|done].
      rewrite Hm. case_bool_decide; [subst; congruence|done].
    + intros k'. rewrite Hm. specialize (I6 k'). simpl in I6. case_bool_decide; [subst|done].
      destruct (Z.eqb_spec (Z.of_nat (S (reading k' l)) - 1) 0); simpl; lia.
    + intros k' n'. rewrite Hm. case_bool_decide; [subst|by apply I7].
      destruct (Z.eqb_spec (Z.of_nat (S (reading k' l)) - 1) 0); intros [= <-]. lia.
  - eexists. split; [done|].
    assert (writing k l = 0%nat) as Hk0.
    { specialize (I9 k). simpl in I9. rewrite bool_decide_eq_true_2 in I9 by done. lia. }
    assert (~ resetting r k) as Hrk.
    { apply I10. simpl. rewrite bool_decide_eq_true_2 by done. lia. }
    split; simpl; try done.
    + intros k' t Hk'. apply I1. set_solver.
    + intros k' Hk'. apply I2. set_solver.
    + intros k'. rewrite elem_of_difference, elem_of_singleton.
      match goal with |- context [resetting ?y k'] => change (resetting y k') with (resetting r k') end.
      specialize (I8 k'). simpl in I8. rewrite I8. case_bool_decide; [subst; naive_solver lia|].
      naive_solver.
    + intros k'. specialize (I9 k'). simpl in I9. lia.
    + intros k' Hw. apply I10. simpl. lia.
    + intros k' Hw. apply I12. simpl. lia.
Qed.

Lemma sys_step_inv st st' :
  sys_step st st' -> reg_inv (reg st) (active st) -> reg_inv (reg st') (active st').
Proof.
  intros Hstep Hinv. destruct Hstep; simpl in *.
  - by eapply inv_acquire.
  - by apply inv_release.
  - by eapply inv_register.
  - by eapply inv_begin_reset.
  - by eapply inv_complete_reset.
  - by eapply inv_enter.
  - by eapply inv_enter_reset.
  - apply (inv_perm _ _ _ H) in Hinv. apply inv_exit in Hinv as (r2 & H2 & Hinv).
    by replace r' with r2 by congruence.
Qed.

Lemma sys_reachable_inv st : sys_reachable st -> reg_inv (reg st) (active st).
Proof.
  intros H. unfold sys_reachable in H.
  assert (forall st1 st2, rtc sys_step st1 st2 -> reg_inv (reg st1) (active st1) ->
    reg_inv (reg st2) (active st2)) as Hgen.
  { clear. induction 1; eauto using sys_step_inv. }
  eapply Hgen; [exact H|]. exact reg_inv_init.
Qed.

(** ** Properties *)

(** The registry [r'] is [r] after some leases were given back. *)
Definition gives_back : relation registry :=
  rtc (fun r r' => exists token, r' = snd (release token r)).

#[export] Instance gives_back_preorder : PreOrder gives_back.
Proof. apply _. Qed.

Lemma gives_back_inv r r' l : gives_back r r' -> reg_inv r l -> reg_inv r' l.
Proof. induction 1 as [|r1 r2 r3 [token ->] _ IH]; eauto using inv_release. Qed.

(** What is left: no lease is new, and everything else is as it was. *)
Lemma gives_back_spec r r' :
  gives_back r r' ->
  leases r' ⊆ leases r /\ recovery_leases r' ⊆ recovery_leases r /\
  mutating r' = mutating r /\ background r' = background r /\ resets r' = resets r /\
  share_readers r' = share_readers r.
Proof.
  induction 1 as [|r1 r2 r3 [token ->] _ (H1 & H2 & H3 & H4 & H5 & H6)]; [done|].
  simpl in *. repeat split; try done.
  - etrans; [exact H1|apply delete_subseteq].
  - etrans; [exact H2|]. set_solver.
Qed.

Lemma gives_back_mutating m r r' :
  gives_back r r' -> gives_back (with_mutating m r) (with_mutating m r').
Proof.
  induction 1 as [|r1 r2 r3 [token ->] _ IH]; [done|].
  eapply rtc_l; [|exact IH]. by exists token.
Qed.

(** What a registry that refuses everything to a session answers. *)
Definition refuses (r : registry) (agent_id session_id : string) : Prop :=
  (forall recovery token, is_ok (acquire agent_id session_id recovery token r) = false) /\
  (forall sandbox_id execution_id,
    is_ok (register_background agent_id session_id sandbox_id execution_id r) = false) /\
  (forall token, is_ok (begin_runtime_reset agent_id session_id token r) = false) /\
  (forall write, is_ok (share_access_enter agent_id session_id write r) = false).

Lemma mutating_refuses r a s : (a, s) ∈ mutating r -> refuses r a s.
Proof.
  intros Hm%is_mutating_spec.
  assert (forall k, check_key a s = Ok k -> k = (a, s)) as Hkey
    by (by intros k [-> _]%check_key_Ok).
  unfold refuses, acquire, register_background, begin_runtime_reset, share_access_enter,
    mutation_enter, share_read_enter.
  destruct (check_key a s) as [k|e]; [specialize (Hkey k eq_refl); subst|].
  - cbn [mbind result_bind]. unfold raise_if. rewrite Hm. repeat split.
    + by intros [].
    + intros sb ex. destruct (str_eqb sb EmptyString), (str_eqb ex EmptyString); reflexivity.
    + intros t. destruct (has_readers r (a, s)); reflexivity.
    + intros []; [destruct (has_readers r (a, s))|]; reflexivity.
  - repeat split; try done. by intros [].
Qed.

(** A session whose files may be changing: the body of a checkpoint, a rollback
    or a shared write is running, or a runtime reset has begun and is not
    completed, or the body of a rollback is running under such a reset. *)
Inductive changing (st : system) (k : key) : Prop :=
  | changing_body : (0 < writing k (active st))%nat -> changing st k
  | changing_reset : resetting (reg st) k -> changing st k
  | changing_under_reset token :
      Restoring token k ∈ active st -> resets (reg st) !! token = Some k -> changing st k.


(** C12: A session has at most one execution lease, and a recovery lease holds
    only while the session has no shared reader and no background execution. *)
Theorem lease_exclusive st k t1 t2 :
  sys_reachable st -> leases (reg st) !! t1 = Some k -> leases (reg st) !! t2 = Some k ->
  t1 = t2 /\
  (recovery_reserved (reg st) k = true ->
   reading k (active st) = 0%nat /\ has_background (reg st) k = false).
Proof.
  intros [I1 I2 I3 I4 I5 I6 I7 I8 I9 I10 I11 I12]%sys_reachable_inv H1 H2.
  split; [by eapply I3|]. rewrite recovery_reserved_spec. intros (t & Hin & Ht).
  destruct (I4 _ _ Hin Ht) as [Hr Hb]. split; [|by apply has_background_false].
  specialize (I6 k). rewrite Hr in I6. simpl in I6. lia.
Qed.

(** Also: Leaving a checkpoint, a rollback or a shared read never raises, and a
    session that nobody is using any more can be entered again: after the exit
    of the only user the registry is what it was before the entry. *)
Theorem exit_restores st a s write x r' :
  sys_reachable st -> share_access_enter a s write (reg st) = Ok (x, r') ->
  share_access_exit x r' = Ok (reg st).
Proof.
  intros Hinv%sys_reachable_inv H. unfold share_access_enter in H.
  destruct write; apply result_bind_Ok in H as ([k r2] & H & [= <- <-]); simpl.
  - unfold mutation_enter in H. apply result_bind_Ok in H as (k' & _ & H). ok_inv. guards.
    assert (~ k ∈ mutating (reg st)) as Hk by (rewrite <- is_mutating_spec; congruence).
    unfold mutation_exit, with_mutating. simpl. f_equal. destruct (reg st) as [ls rl mu bg rs sr]; simpl in *.
    f_equal. set_solver.
  - unfold share_read_enter in H. apply result_bind_Ok in H as (k' & _ & H). ok_inv.
    unfold share_read_exit, with_readers. simpl. rewrite lookup_insert_eq.
    pose proof (inv_positive _ _ Hinv k) as Hpos. f_equal. destruct (reg st) as [ls rl mu bg rs sr]; simpl in *.
    f_equal. destruct (sr !! k) as [n|] eqn:E; simpl.
    + specialize (Hpos n eq_refl). destruct (Z.eqb_spec (n + 1 - 1) 0); [lia|].
      rewrite insert_insert_eq. replace (n + 1 - 1) with n by lia. by apply insert_id.
    + by apply delete_insert_id.
Qed.

(** Also: Releasing a lease twice is harmless: the second time nothing is
    released and nothing changes, and neither does releasing an unknown
    token. *)
Theorem release_idempotent st token :
  sys_reachable st ->
  let r1 := (release token (reg st)).2 in
  release token r1 = ([("released", PBool false)], r1) /\
  (leases (reg st) !! token = None -> r1 = reg st).
Proof.
  intros Hinv%sys_reachable_inv. cbv zeta. unfold release. simpl. split.
  - rewrite lookup_delete_eq, bool_decide_eq_false_2 by by intros [].
    do 2 f_equal; [by rewrite delete_delete_eq|set_solver].
  - intros Hn. assert (token ∉ recovery_leases (reg st)) as Hr.
    { intros [? ?]%(inv_recovery_dom _ _ Hinv). congruence. }
    destruct (reg st) as [ls rl mu bg rs sr]; simpl in *. f_equal; [by apply delete_id|set_solver].
Qed.

(** Also: An execution lease is granted exactly when the session is neither being
    changed nor executing, and for a recovery also neither read through a share
    nor running background executions. *)
Theorem acquire_granted a s (recovery : bool) token r :
  ID_RE a = true -> ID_RE s = true ->
  is_ok (acquire a s (PBool recovery) token r) =
    negb (is_mutating r (a, s)) && negb (leased r (a, s)) &&
    (negb recovery || negb (has_readers r (a, s)) && negb (has_background r (a, s))).
Proof.
  intros Ha Hs. unfold acquire, check_key. rewrite !validate_id_valid by done. simpl.
  destruct (is_mutating _ _), (leased _ _), recovery, (has_readers _ _), (has_background _ _);
    reflexivity.
Qed.

(** ** Concrete states *)

Definition state_of {A} (r : result (A * registry)) : registry :=
  match r with Ok (_, r') => r' | Err _ => empty_registry end.

(** A checkpoint of [a1/s1] is running. *)
Definition checkpointing : system :=
  System (state_of (share_access_enter "a1" "s1" true empty_registry)) [Writing ("a1", "s1")].

Lemma checkpointing_reachable : sys_reachable checkpointing.
Proof. eapply rtc_l; [|apply rtc_refl]. by eapply (step_enter "a1" "s1" true). Qed.

(** [a1/s1] executes under a recovery lease. *)
Definition recovering : system :=
  System (state_of (acquire "a1" "s1" (PBool true) "t1" empty_registry)) [].

Lemma recovering_reachable : sys_reachable recovering.
Proof. eapply rtc_l; [|apply rtc_refl]. by eapply (step_acquire "a1" "s1" (PBool true) "t1"). Qed.

(** [a1/s1] is fenced by the reset [t1]. *)
Definition fenced : system :=
  System (state_of (begin_runtime_reset "a1" "s1" "t1" empty_registry)) [].

Lemma fenced_reachable : sys_reachable fenced.
Proof. eapply rtc_l; [|apply rtc_refl]. by eapply (step_begin_reset "a1" "s1" "t1"). Qed.

(** A rollback runs under the reset [t1]. *)
Definition restoring_state : system := System (reg fenced) [Restoring "t1" ("a1", "s1")].

Lemma restoring_reachable : sys_reachable restoring_state.
Proof.
  eapply rtc_r; [apply fenced_reachable|]. by eapply (step_enter_reset "t1" "a1" "s1").
Qed.


Lemma lease_exclusive_witness :
  reading ("a1", "s1") (active recovering) = 0%nat /\ has_background (reg recovering) ("a1", "s1") = false.
Proof.
  apply (lease_exclusive recovering ("a1", "s1") "t1" "t1" recovering_reachable); vm_compute; reflexivity.
Defined.

Lemma exit_restores_witness :
  share_access_exit (Writing ("a2", "s2"))
    (state_of (share_access_enter "a2" "s2" true (reg recovering))) = Ok (reg recovering).
Proof.
  apply (exit_restores recovering "a2" "s2" true _ _ recovering_reachable). vm_compute. reflexivity.
Defined.

Lemma release_idempotent_witness :
  release "t1" (release "t1" (reg recovering)).2
    = ([("released", PBool false)], (release "t1" (reg recovering)).2).
Proof. apply (release_idempotent recovering "t1" recovering_reachable). Defined.

Lemma acquire_granted_witness :
  is_ok (acquire "a1" "s1" (PBool true) "t2" (reg checkpointing)) = false.
Proof. rewrite (acquire_granted "a1" "s1" true "t2" _ eq_refl eq_refl). vm_compute. reflexivity. Defined.

(** The rollback after a runtime reset runs under [reset_mutation], which
    checks the token at its entry only: while the rollback is running, another
    request can complete the reset and a third can start an execution, and a
    second rollback under the same token is let in beside the first. *)
Example rollback_unfenced :
  let st := System (state_of (acquire "a1" "s1" (PBool false) "t2"
                      (state_of (complete_runtime_reset "t1" true (reg restoring_state)))))
              (active restoring_state) in
  sys_reachable restoring_state /\ rtc sys_step restoring_state st /\
  Restoring "t1" ("a1", "s1") ∈ active st /\ leased (reg st) ("a1", "s1") = true /\
  sys_step restoring_state
    (System (reg restoring_state) (Restoring "t1" ("a1", "s1") :: active restoring_state)).
Proof.
  split; [exact restoring_reachable|]. split.
  - eapply rtc_l; [by eapply (step_complete_reset "t1" true)|].
    eapply rtc_l; [by eapply (step_acquire "a1" "s1" (PBool false) "t2")|apply rtc_refl].
  - split; [by left|]. split; [by vm_compute|]. by eapply (step_enter_reset "t1" "a1" "s1").
Qed.
