(* ===== verification/Dispatch.v ===== *)
(** * The daemon's requests

    [WorkspaceService.dispatch] and the RPC endpoint of
    [src/src/allox/workspace/daemon.py].  A request runs over the world of the
    store and the execution registry; the process service and the feature
    plugins are interfaces. *)

From Stdlib Require Import Ascii.
From Stdlib Require String.
From stdpp Require Import gmap pretty.
From S2P Require Import Prelude PyVal Ids CheckpointIndex FileSystem World StoreFiles Store.
From S2P Require Import StoreRecovery Registry.
Open Scope Z_scope.

(** ** Computations of the daemon *)

Record daemon := Daemon { d_world : world; d_registry : registry }.

Definition D (A : Type) : Type := env -> daemon -> outcome A * daemon.

#[export] Instance D_ret : MRet D := fun A a _ d => (Ret a, d).
#[export] Instance D_bind : MBind D := fun A B f m en d =>
  match m en d with
  | (Ret a, d') => f a en d'
  | (Exc e, d') => (Exc e, d')
  | (Crash, d') => (Crash, d')
  end.

Definition fail {A} (e : exn) : D A := fun _ d => (Exc e, d).

Definition fail_when (b : bool) (e : exn) : D unit := if b then fail e else mret ().

Definition from_result {A} (r : result A) : D A :=
  match r with Ok a => mret a | Err e => fail e end.

(** A computation of the store. *)
Definition on_store {A} (m : M A) : D A := fun en d =>
  let '(o, w) := m en (d_world d) in (o, Daemon w (d_registry d)).

(** A step of the registry; an error leaves it as it was. *)
Definition on_registry {A} (f : registry -> result (A * registry)) : D A := fun _ d =>
  match f (d_registry d) with
  | Ok (a, r) => (Ret a, Daemon (d_world d) r)
  | Err e => (Exc e, d)
  end.

(** [with enter as x: body(x)], [leave] being the exit of the context manager. *)
Definition bracket {X A} (enter : D X) (leave : X -> D unit) (body : X -> D A) : D A :=
  x ← enter;
  fun en d =>
    match body x en d with
    | (Ret a, d') =>
        match leave x en d' with
        | (Ret _, d'') => (Ret a, d'')
        | (Exc e, d'') => (Exc e, d'')
        | (Crash, d'') => (Crash, d'')
        end
    | (Exc e, d') =>
        match leave x en d' with
        | (Ret _, d'') => (Exc e, d'')
        | (Exc e', d'') => (Exc e', d'')
        | (Crash, d'') => (Crash, d'')
        end
    | (Crash, d') => (Crash, d')
    end.

(** ** What the daemon asks of its process service and of its plugins *)

Class ProcessService := {
  ps_status : D pyval;
  ps_start : string -> string -> pyval -> dict -> D pyval;
  ps_list_runs : string -> string -> D pyval;
  ps_get : string -> string -> string -> D pyval;
  ps_events : string -> string -> string -> pyval -> pyval -> D pyval;
  ps_stop : string -> string -> string -> D pyval;
  (* entry and exit of [session_launch_fence(..., terminate=True)] *)
  ps_fence_enter : string -> string -> D (list pyval);
  ps_fence_exit : string -> string -> D unit }.

Class Features := {
  fm_handles : string -> bool;
  fm_dispatch : string -> dict -> D pyval }.

Section dispatch.
Context `{SnapshotBackend} (root : string).
Context (processes : option ProcessService) (features : option Features).
Context (kill_session_processes_on_rollback : bool).

(** ** Parameters *)

Definition _required (params : dict) (k : string) : result string :=
  match dgetn k params with
  | PStr (String c s) => Ok (String c s)
  | _ => Err (WorkspaceError ("missing string parameter: " +:+ k))
  end.

Definition _boolean (params : dict) (k : string) (default : bool) : result bool :=
  match dget_or k (PBool default) params with
  | PBool b => Ok b
  | _ => Err (WorkspaceError (k +:+ " must be a boolean"))
  end.

Definition optional_string (params : dict) (k : string) : result (option string) :=
  match dgetn k params with
  | PNone => Ok None
  | PStr s => Ok (Some s)
  | _ => Err (WorkspaceError (k +:+ " must be a string"))
  end.

(** [{key: params[key]} if key in params else {}] *)
Definition passed (k : string) (params : dict) : dict :=
  match dget k params with Some v => [(k, v)] | None => [] end.

(** ** Process actions *)

Definition process_action (P : ProcessService) (action : string) (params : dict)
    (agent_id session_id : string) : D pyval :=
  if str_eqb action "process.start" then
    let argv := dgetn "argv" params in
    fail_when (negb (is_list argv))
      (WorkspaceError "argv must be a nonempty array of nonempty strings");;
    ps_start agent_id session_id argv
      ([("env", dgetn "env" params); ("timeout", dget_or "timeout" (PInt 300) params)]
       ++ passed "recovery" params ++ passed "trace_context" params)
  else if str_eqb action "process.list" then ps_list_runs agent_id session_id
  else
    run_id ← from_result (_required params "run_id");
    if str_eqb action "process.get" then ps_get agent_id session_id run_id
    else if str_eqb action "process.events" then
      ps_events agent_id session_id run_id (dget_or "after" (PInt 0) params)
        (dget_or "limit" (PInt 100) params)
    else if str_eqb action "process.stop" then ps_stop agent_id session_id run_id
    else fail (WorkspaceError ("unknown action: " +:+ action)).

Definition process_dispatch (action : string) (params : dict) : D pyval :=
  if str_eqb action "process.status" then
    match processes with
    | None => mret (PDict [("enabled", PBool false); ("backend", PStr "disabled")])
    | Some P => ps_status
    end
  else
    match processes with
    | None => fail (WorkspaceError "process tracking is not enabled on this daemon")
    | Some P =>
        agent_id ← from_result (_required params "agent_id");
        session_id ← from_result (_required params "session_id");
        process_action P action params agent_id session_id
    end.

(** ** Mutations of a session *)

(** [launch_fence]: that of the process service, or [nullcontext([])]. *)
Definition with_launch_fence {A} (terminate : bool) (agent_id session_id : string)
    (body : list pyval -> D A) : D A :=
  if terminate then
    match processes with
    | None => fail (WorkspaceError "kill_processes requires process tracking")
    | Some P =>
        bracket (ps_fence_enter agent_id session_id)
          (fun _ => ps_fence_exit agent_id session_id) body
    end
  else body [].

Definition is_reset_rollback (action : string) : bool :=
  str_eqb action "session.rollback_after_runtime_reset".

(** [mutation]: that of the registry, or the check of the reset token. *)
Definition with_mutation {A} (action : string) (token agent_id session_id : string)
    (body : D A) : D A :=
  if is_reset_rollback action then
    on_registry (reset_mutation_enter token agent_id session_id);; body
  else
    bracket (on_registry (mutation_enter agent_id session_id))
      (fun k => on_registry (fun r => Ok ((), mutation_exit k r))) (fun _ => body).

Definition checkpoint_create_action (params : dict) (agent_id session_id origin : string)
    : D pyval :=
  checkpoint_id ← from_result (optional_string params "checkpoint_id");
  message ← from_result (optional_string params "message");
  let metadata := dgetn "metadata" params in
  fail_when (negb (is_none metadata || is_dict metadata))
    (WorkspaceError "metadata must be an object");;
  pinned ← from_result (_boolean params "pinned" false);
  result ← on_store (create_checkpoint root agent_id session_id checkpoint_id origin message
                       pinned metadata);
  mret (PDict result).

Definition checkpoint_delete_action (params : dict) (agent_id session_id origin : string)
    : D pyval :=
  checkpoint_id ← from_result (_required params "checkpoint_id");
  force ← from_result (_boolean params "force" false);
  result ← on_store (delete_checkpoint root agent_id session_id checkpoint_id origin force);
  mret (PDict result).

Definition ancestors (params : dict) : result (option Z) :=
  match dgetn "num_ancestors" params with
  | PNone => Ok None
  | PInt n => Ok (Some n)
  | _ => Err (WorkspaceError "num_ancestors must be an integer")
  end.

Definition rollback_action (params : dict) (agent_id session_id origin : string)
    (terminate : bool) (stopped : list pyval) : D pyval :=
  checkpoint_id ← from_result (optional_string params "checkpoint_id");
  num_ancestors ← from_result (ancestors params);
  scrub_runtime ← from_result (_boolean params "scrub_runtime" true);
  result ← on_store (rollback root agent_id session_id checkpoint_id num_ancestors
                       (PBool scrub_runtime) origin PNone (PBool false));
  mret (PDict (if (terminate : bool) then dset "terminated_process_runs" (PList stopped) result
               else result)).

Definition mutation_actions : list string :=
  ["checkpoint.create"; "checkpoint.delete"; "session.rollback";
   "session.rollback_after_runtime_reset"].

Definition mutation_body (action : string) (params : dict) (agent_id session_id origin : string)
    (terminate : bool) (stopped : list pyval) : D pyval :=
  if str_eqb action "checkpoint.create"
  then checkpoint_create_action params agent_id session_id origin
  else if str_eqb action "checkpoint.delete"
  then checkpoint_delete_action params agent_id session_id origin
  else rollback_action params agent_id session_id origin terminate stopped.

Definition mutation_dispatch (action : string) (params : dict) (origin : string) : D pyval :=
  agent_id ← from_result (_required params "agent_id");
  session_id ← from_result (_required params "session_id");
  let reset_token := dgetn "reset_token" params in
  fail_when (is_reset_rollback action && bool_decide (as_str reset_token = None))
    (WorkspaceError "rollback after runtime reset requires reset_token");;
  terminate ←
    (if starts_with "session.rollback" action
     then from_result (_boolean params "kill_processes" kill_session_processes_on_rollback)
     else mret false);
  with_launch_fence terminate agent_id session_id (fun stopped =>
    with_mutation action (str_or reset_token EmptyString) agent_id session_id
      (mutation_body action params agent_id session_id origin terminate stopped)).

(** ** The other actions *)

Definition begin_reset_action (params : dict) : D pyval :=
  agent_id ← from_result (_required params "agent_id");
  session_id ← from_result (_required params "session_id");
  terminate ← from_result (_boolean params "kill_processes" kill_session_processes_on_rollback);
  with_launch_fence terminate agent_id session_id (fun stopped =>
    token ← on_store uuid_hex;
    result ← on_registry (begin_runtime_reset agent_id session_id token);
    mret (PDict (if (terminate : bool)
                 then dset "terminated_process_runs" (PList stopped) result else result))).

Definition as_dict (m : D dict) : D pyval := d ← m; mret (PDict d).

(** The chain of [if action == ...] after the process actions. *)
Definition plain_dispatch (action : string) (params : dict) (origin : string) : D pyval :=
  if str_eqb action "store.initialize" then as_dict (on_store (initialize root))
  else if str_eqb action "agent.create" then
    agent_id ← from_result (_required params "agent_id");
    as_dict (on_store (create_agent agent_id origin))
  else if str_eqb action "session.create" then
    agent_id ← from_result (_required params "agent_id");
    session_id ← from_result (_required params "session_id");
    as_dict (on_store (create_session root agent_id session_id origin))
  else if str_eqb action "session.describe" then
    agent_id ← from_result (_required params "agent_id");
    session_id ← from_result (_required params "session_id");
    as_dict (on_store (describe root agent_id session_id))
  else if str_eqb action "checkpoint.list" then
    agent_id ← from_result (_required params "agent_id");
    session_id ← from_result (_required params "session_id");
    as_dict (on_store (checkpoint_status root agent_id session_id))
  else if str_eqb action "execution.acquire" then
    agent_id ← from_result (_required params "agent_id");
    session_id ← from_result (_required params "session_id");
    token ← on_store uuid_hex;
    as_dict (on_registry (acquire agent_id session_id (PBool false) token))
  else if str_eqb action "execution.release" then
    token ← from_result (_required params "lease_token");
    as_dict (on_registry (fun r => Ok (release token r)))
  else if str_eqb action "runtime.register_background" then
    agent_id ← from_result (_required params "agent_id");
    session_id ← from_result (_required params "session_id");
    sandbox_id ← from_result (_required params "sandbox_id");
    execution_id ← from_result (_required params "execution_id");
    as_dict (on_registry (register_background agent_id session_id sandbox_id execution_id))
  else if str_eqb action "runtime.begin_reset" then begin_reset_action params
  else if str_eqb action "runtime.complete_reset" then
    token ← from_result (_required params "reset_token");
    success ← from_result (_boolean params "success" false);
    as_dict (on_registry (complete_runtime_reset token success))
  else if existsb (str_eqb action) mutation_actions then
    mutation_dispatch action params origin
  else fail (WorkspaceError ("unknown action: " +:+ action)).

Definition dispatch (action : string) (params : dict) : D pyval :=
  let origin := py_str (dget_or "origin" (PStr "allox-control-plane") params) in
  let core :=
    if starts_with "process." action then process_dispatch action params
    else plain_dispatch action params origin in
  match features with
  | Some F => if fm_handles action then fm_dispatch action params else core
  | None => core
  end.

(** ** The RPC endpoint *)

(** A request as the HTTP server hands it over: [rq_body] is what
    [json.loads] makes of the body. *)
Record request := Request {
  rq_path : string;
  rq_authorization : option string;
  rq_content_length : option string;
  rq_body : result pyval }.

Definition is_ascii (s : string) : bool := string_forallb (fun c => (ascii_n c <? 128)%N) s.

(** [secrets.compare_digest] of two strings, which must be ASCII. *)
Definition compare_digest (a b : string) : result bool :=
  if is_ascii a && is_ascii b then Ok (str_eqb a b) else Err TypeError.

Definition _authorized (token : string) (authorization : option string) : result bool :=
  if str_eqb token EmptyString then Ok true
  else
    let supplied := default EmptyString authorization in
    if starts_with "Bearer " supplied
    then compare_digest (string_drop 7 supplied) token
    else Ok false.

Definition response : Type := Z * pyval.

Definition error_payload (message : string) : pyval :=
  PDict [("ok", PBool false); ("error", PStr message)].

Definition do_GET (path : string) : response :=
  if str_eqb path "/health" then (200, PDict [("status", PStr "healthy")])
  else (404, PDict [("error", PStr "not found")]).

(** The body of the [try] in [do_POST]. *)
Definition rpc (rq : request) : D pyval :=
  length ← from_result (py_int (PStr (default "0" (rq_content_length rq))));
  fail_when ((length <=? 0) || (1024 * 1024 <? length)) (WorkspaceError "invalid request size");;
  request ← from_result (rq_body rq);
  match request with
  | PDict fields =>
      match dgetn "action" fields, dget_or "params" (PDict []) fields with
      | PStr action, PDict params => dispatch action params
      | _, _ => fail (WorkspaceError "request requires string action and object params")
      end
  | _ => fail AttributeError
  end.

(** [except (WorkspaceError, ValueError, json.JSONDecodeError)] *)
Definition client_error (e : exn) : bool :=
  match e with
  | WorkspaceError _ | ValueError _ | JSONDecodeError | CheckpointIndexError _ => true
  | _ => false
  end.

Definition error_response (e : exn) : response :=
  if client_error e then (400, error_payload (exn_str e))
  else (500, error_payload "internal workspace daemon error").

Definition do_POST (token : string) (rq : request) : D response :=
  if negb (str_eqb (rq_path rq) "/v1/rpc") then mret (404, PDict [("error", PStr "not found")])
  else
    authorized ← from_result (_authorized token (rq_authorization rq));
    if negb authorized then mret (401, PDict [("error", PStr "unauthorized")])
    else fun en d =>
      match rpc rq en d with
      | (Ret v, d') => (Ret (200, PDict [("ok", PBool true); ("result", v)]), d')
      | (Exc e, d') => (Ret (error_response e), d')
      | (Crash, d') => (Crash, d')
      end.
End dispatch.
