(* ===== verification/DispatchSpec.v ===== *)
(** * Properties of the daemon's requests *)

From Stdlib Require Import Ascii.
From Stdlib Require String.
From stdpp Require Import gmap pretty.
From S2P Require Import Prelude PyVal Ids CheckpointIndex FileSystem World StoreFiles Store.
From S2P Require Import StoreRecovery Backend Registry Dispatch SessionReady.
Open Scope Z_scope.

(** What the daemon relies on from the launch fence of the process service: the
    runs it ends give their leases back, and nothing else becomes of the
    execution registry. *)
Class ProcessLaws (P : ProcessService) : Prop := {
  fence_enter_registry a s en d :
    gives_back (d_registry d) (d_registry (ps_fence_enter a s en d).2);
  fence_exit_registry a s en d :
    gives_back (d_registry d) (d_registry (ps_fence_exit a s en d).2) }.

(** What may become of the registry during a request, apart from the session
    being marked as mutated: nothing, or some leases are given back. *)
Class RegistryOrder (R : relation registry) : Prop := {
  order_preorder :: PreOrder R;
  order_mutating r r' : R r r' -> mutating r' = mutating r;
  order_marked m r r' : R r r' -> R (with_mutating m r) (with_mutating m r') }.

#[export] Instance unchanged_order : RegistryOrder eq.
Proof. split; [apply _| |]; intros; by subst. Qed.

#[export] Instance gives_back_order : RegistryOrder gives_back.
Proof.
  split; [apply _| |apply gives_back_mutating].
  intros r r' H. by apply gives_back_spec in H as (_ & _ & -> & _).
Qed.

Section keeps.
Context (R : relation registry) `{!RegistryOrder R}.

(** [m] leaves the registry as it found it up to [R], unless the process dies. *)
Definition keeps_registry {A} (m : D A) : Prop :=
  forall en d, match m en d with
               | (Crash, _) => True
               | (_, d') => R (d_registry d) (d_registry d')
               end.

Lemma keeps_ret {A} (a : A) : keeps_registry (mret a).
Proof. intros en d. cbn. reflexivity. Qed.

Lemma keeps_fail {A} e : keeps_registry (fail (A := A) e).
Proof. intros en d. cbn. reflexivity. Qed.

Lemma keeps_fail_when b e : keeps_registry (fail_when b e).
Proof. destruct b; [apply keeps_fail|apply keeps_ret]. Qed.

Lemma keeps_from_result {A} (r : result A) : keeps_registry (from_result r).
Proof. destruct r; [apply keeps_ret|apply keeps_fail]. Qed.

Lemma keeps_on_store {A} (m : M A) : keeps_registry (on_store m).
Proof. intros en d. unfold on_store. by destruct (m en _) as [[] w]. Qed.

Lemma keeps_bind {A B} (m : D A) (k : A -> D B) :
  keeps_registry m -> (forall a, keeps_registry (k a)) -> keeps_registry (m ≫= k).
Proof.
  intros Hm Hk en d. specialize (Hm en d). unfold mbind, D_bind.
  destruct (m en d) as [[a|e|] d']; [|done|done].
  specialize (Hk a en d'). destruct (k a en d') as [[] d'']; [..|done]; by etrans.
Qed.
End keeps.

Create HintDb keeps.
#[export] Hint Resolve keeps_ret keeps_fail keeps_fail_when keeps_from_result keeps_on_store : keeps.

Ltac keeps :=
  repeat first
    [ assumption | solve [auto 2 with keeps nocore typeclass_instances]
    | apply keeps_bind; [apply _| |intros ?]
    | match goal with |- keeps_registry _ (if ?x then _ else _) => destruct x end ].

(** The request kills the processes of the session first. *)
Definition ends_processes (kill : bool) (action : string) (params : dict) : bool :=
  starts_with "session.rollback" action &&
  match _boolean params "kill_processes" kill with Ok b => b | Err _ => false end.

Section dispatch.
Context `{HB : SnapshotBackend} (root : string).
Context (processes : option ProcessService)
  (Hproc : forall P, processes = Some P -> ProcessLaws P).
Context (features : option Features) (kill : bool).

Section order.
Context (R : relation registry) `{HR : !RegistryOrder R}.

Lemma keeps_mutation_body action params a s origin t stopped :
  keeps_registry R (mutation_body root action params a s origin t stopped).
Proof.
  unfold mutation_body, checkpoint_create_action, checkpoint_delete_action, rollback_action. keeps.
Qed.

Lemma keeps_with_mutation {A} action token a s (body : D A) :
  keeps_registry R body -> keeps_registry R (with_mutation action token a s body).
Proof.
  intros Hb. unfold with_mutation. destruct (is_reset_rollback action).
  - apply keeps_bind; [done| |done]. intros en d. unfold on_registry.
    destruct (reset_mutation_enter token a s (d_registry d)) as [[x r]|e] eqn:He; cbn;
      [|reflexivity]. apply reset_mutation_enter_Ok in He as (_ & -> & _). reflexivity.
  - intros en d. unfold bracket, mbind, D_bind, on_registry.
    destruct (mutation_enter a s (d_registry d)) as [[k r]|e] eqn:He; [|done].
    assert (r = with_mutating ({[ k ]} ∪ mutating (d_registry d)) (d_registry d) /\
            ~ k ∈ mutating (d_registry d)) as [-> Hk].
    { unfold mutation_enter in He. apply result_bind_Ok in He as (k' & _ & He). ok_inv. guards.
      split; [done|]. rewrite <- is_mutating_spec. congruence. }
    assert (forall r', R (with_mutating ({[ k ]} ∪ mutating (d_registry d)) (d_registry d)) r' ->
      R (d_registry d) (mutation_exit k r')) as Hexit.
    { intros r' Hr. pose proof (order_mutating _ _ Hr) as Hm. unfold mutation_exit.
      rewrite Hm. apply (order_marked (mutating (d_registry d))) in Hr.
      replace (with_mutating _ (with_mutating _ _)) with (d_registry d) in Hr
        by (by destruct (d_registry d)).
      replace (_ ∖ _) with (mutating (d_registry d)); [done|]. simpl. set_solver. }
    specialize (Hb en (Daemon (d_world d) (with_mutating ({[ k ]} ∪ mutating (d_registry d))
      (d_registry d)))). cbn [d_registry] in Hb.
    destruct (body en _) as [[x|e|] d']; [..|done]; simpl; by apply Hexit.
Qed.
End order.

Lemma keeps_launch_fence {A} t a s (body : list pyval -> D A) :
  (forall l, keeps_registry gives_back (body l)) ->
  keeps_registry gives_back (with_launch_fence processes t a s body).
Proof.
  intros Hb. unfold with_launch_fence. destruct t; [|done].
  destruct processes as [P|] eqn:EP; [|keeps].
  intros en d. unfold bracket, mbind, D_bind. destruct (Hproc P eq_refl) as [H1 H2].
  specialize (H1 a s en d). destruct (ps_fence_enter a s en d) as [[l|e|] d1]; [|done|done].
  specialize (Hb l en d1). destruct (body l en d1) as [[x|e|] d2]; [..|done]; simpl in *;
    specialize (H2 a s en d2); destruct (ps_fence_exit a s en d2) as [[]]; simpl in *;
    first [exact I|etrans; [exact H1|]; by etrans].
Qed.

Lemma mutation_dispatch_gives_back action params origin :
  keeps_registry gives_back (mutation_dispatch root processes kill action params origin).
Proof.
  unfold mutation_dispatch. keeps. apply keeps_launch_fence. intros l.
  apply keeps_with_mutation; [apply _|]. by apply keeps_mutation_body, _.
Qed.

Lemma mutation_dispatch_keeps action params origin :
  ends_processes kill action params = false ->
  keeps_registry eq (mutation_dispatch root processes kill action params origin).
Proof.
  intros He. unfold mutation_dispatch.
  apply keeps_bind; [apply _|keeps|intros agent_id].
  apply keeps_bind; [apply _|keeps|intros session_id].
  apply keeps_bind; [apply _|keeps|intros []].
  assert (forall t : bool, t = false ->
    keeps_registry eq (with_launch_fence processes t agent_id session_id (fun stopped =>
      with_mutation action (str_or (dgetn "reset_token" params) EmptyString) agent_id session_id
        (mutation_body root action params agent_id session_id origin t stopped)))) as Hf.
  { intros t ->. apply keeps_with_mutation, keeps_mutation_body; apply _. }
  revert He. unfold ends_processes. destruct (starts_with _ _); cbn [andb]; [|intros _].
  - destruct (_boolean params "kill_processes" kill) as [b|e]; intros He; [|by intros en d].
    exact (Hf b He).
  - exact (Hf false eq_refl).
Qed.

(** C35: A request that changes a session (checkpoint creation or deletion,
    rollback, rollback after a reset) gives back what it reserved, whether it
    succeeds or fails: no session is left marked as being mutated, and resets,
    background executions and shared readers are as they were.  No lease is
    new; a request that does not kill the processes of the session leaves the
    leases too, and one that does can only end leases. *)
Theorem mutation_requests_release action params origin en d :
  match mutation_dispatch root processes kill action params origin en d with
  | (Crash, _) => True
  | (_, d') =>
      let r := d_registry d in
      let r' := d_registry d' in
      mutating r' = mutating r /\ resets r' = resets r /\ background r' = background r /\
      share_readers r' = share_readers r /\ leases r' ⊆ leases r /\
      recovery_leases r' ⊆ recovery_leases r /\
      (ends_processes kill action params = false -> r' = r)
  end.
Proof.
  pose proof (mutation_dispatch_gives_back action params origin en d) as H1.
  pose proof (fun He => mutation_dispatch_keeps action params origin He en d) as H2.
  destruct (mutation_dispatch _ _ _ _ _ _ _ _) as [[x|e|] d']; [..|done];
    apply gives_back_spec in H1 as (? & ? & ? & ? & ? & ?); repeat split; try done;
    intros He; by rewrite (H2 He).
Qed.

(** The body of a mutation starts in [d1] and what it does is done by then. *)
Definition ran_from {A} (body : D A) (en : env) (d1 : daemon) (r : outcome A * daemon) : Prop :=
  match body en d1 with
  | (Crash, d2) => r = (Crash, d2)
  | (o, d2) => fst r = o /\ d_world (snd r) = d_world d2
  end.

(** Also: A checkpoint, rollback or deletion touches the store only while its
    session is reserved: the request is refused with the world unchanged, or
    its work starts in a registry where the session is being mutated and has
    no lease and no reader, and no background execution unless it was reset. *)
Theorem mutation_requests_guarded {A} action token a s (body : D A) en d l :
  sys_reachable (System (d_registry d) l) ->
  let r := with_mutation action token a s body en d in
  (exists m, r = (Exc (WorkspaceError m), d)) \/
  exists d1, ran_from body en d1 r /\ d_world d1 = d_world d /\
    (a, s) ∈ mutating (d_registry d1) /\ leased (d_registry d1) (a, s) = false /\
    has_readers (d_registry d1) (a, s) = false /\
    (is_reset_rollback action = false -> has_background (d_registry d1) (a, s) = false).
Proof.
  intros Hinv%sys_reachable_inv. cbv zeta. simpl in Hinv.
  unfold with_mutation. destruct (is_reset_rollback action).
  - unfold mbind, D_bind, on_registry.
    destruct (reset_mutation_enter token a s (d_registry d)) as [[x r]|e] eqn:He.
    + apply reset_mutation_enter_Ok in He as (_ & -> & Ht). right. exists d.
      assert ((a, s) ∈ mutating (d_registry d)) as Hm
        by (apply (inv_mutating _ _ Hinv); right; by exists token).
      destruct d as [w r]; simpl in *.
      split; [unfold ran_from; by destruct (body en _) as [[] ?]|]. do 2 (split; [done|]).
      split; [apply not_leased; intros t; by eapply inv_lease|]. split; [|done].
      unfold has_readers. by rewrite (inv_readers _ _ Hinv _ Hm).
    + left. assert (exists m, e = WorkspaceError m) as [m ->]; [|by exists m].
      revert He. unfold reset_mutation_enter, reset_mutation, check_key, validate_id, raise_if.
      destruct (negb (ID_RE a)); [intros [= <-]; eauto|].
      destruct (negb (ID_RE s)); [intros [= <-]; eauto|]. cbn [mbind result_bind].
      destruct (_ || _); [intros [= <-]; eauto|done].
  - unfold bracket, mbind, D_bind, on_registry.
    destruct (mutation_enter a s (d_registry d)) as [[k r]|e] eqn:He.
    + right. exists (Daemon (d_world d) r).
      pose proof (inv_mutation_enter _ _ _ _ _ _ He Hinv) as Hinv'.
      assert (k = (a, s)) as ->.
      { unfold mutation_enter in He. apply result_bind_Ok in He as (k' & Hk & He). ok_inv.
        by apply check_key_Ok in Hk as [-> _]. }
      assert ((a, s) ∈ mutating r) as Hm.
      { apply (inv_mutating _ _ Hinv'). left. simpl. rewrite bool_decide_eq_true_2; [lia|done]. }
      split; [|split; [done|split; [done|split; [|split]]]].
      * unfold ran_from. destruct (body en _) as [[] ?]; simpl; done.
      * apply not_leased. intros t. by eapply inv_lease.
      * unfold has_readers. simpl. by rewrite (inv_readers _ _ Hinv' _ Hm).
      * intros _. apply has_background_false, (inv_background _ _ Hinv'). simpl.
        rewrite bool_decide_eq_true_2; [lia|done].
    + left. assert (exists m, e = WorkspaceError m) as [m ->]; [|by exists m].
      revert He. unfold mutation_enter, check_key, validate_id, raise_if.
      destruct (negb (ID_RE a)); [intros [= <-]; eauto|].
      destruct (negb (ID_RE s)); [intros [= <-]; eauto|]. cbn [mbind result_bind].
      destruct (has_readers _ _); [intros [= <-]; eauto|].
      destruct (is_mutating _ _); [intros [= <-]; eauto|].
      destruct (leased _ _); [intros [= <-]; eauto|].
      destruct (has_background _ _); [intros [= <-]; eauto|done].
Qed.

(** ** The endpoint *)

(** Also: Without the configured token no request reaches the daemon: it is
    answered 401 and nothing changes.  Only the exact bearer token passes. *)
Theorem unauthorized_requests_rejected token rq en d :
  token <> EmptyString -> is_ascii token = true ->
  is_ascii (default EmptyString (rq_authorization rq)) = true -> rq_path rq = "/v1/rpc" ->
  rq_authorization rq <> Some ("Bearer " +:+ token) ->
  do_POST root processes features kill token rq en d
    = (Ret (401, PDict [("error", PStr "unauthorized")]), d).
Proof.
  intros Htok Hasc Hauth Hpath Hne. unfold do_POST. rewrite Hpath, str_eqb_refl. simpl negb. cbv iota.
  assert (_authorized token (rq_authorization rq) = Ok false) as ->; [|done].
  unfold _authorized. apply str_eqb_neq in Htok as ->.
  destruct (starts_with "Bearer " _) eqn:Hs; [|done].
  destruct (rq_authorization rq) as [h|]; [|done]. change (default EmptyString (Some h)) with h in *.
  apply starts_with_spec in Hs as [t ->].
  assert (string_drop 7 ("Bearer " +:+ t) = t) as -> by reflexivity.
  assert (is_ascii t = true) as Ht by exact Hauth.
  unfold compare_digest. rewrite Hasc, Ht. simpl. f_equal. apply str_eqb_neq. congruence.
Qed.

(** Also: An authorized request is always answered: with 200, with 400 and the
    message of a workspace or value error, or with 500 and a fixed message
    that shows nothing of the exception. *)
Theorem requests_answered token rq en d :
  is_ascii token = true -> is_ascii (default EmptyString (rq_authorization rq)) = true ->
  match do_POST root processes features kill token rq en d with
  | (Ret (status, payload), _) =>
      status = 200 \/ status = 404 \/ status = 401 \/
      (status = 400 /\ exists e, client_error e = true /\ payload = error_payload (exn_str e)) \/
      (status = 500 /\ payload = error_payload "internal workspace daemon error")
  | (Exc _, _) => False
  | (Crash, _) => True
  end.
Proof.
  intros Htok Hauth. unfold do_POST. destruct (negb (str_eqb _ _)); [simpl; tauto|].
  assert (exists b, _authorized token (rq_authorization rq) = Ok b) as [b ->].
  { unfold _authorized. destruct (str_eqb token EmptyString); [eauto|].
    destruct (starts_with "Bearer " _) eqn:Hs; [|eauto].
    destruct (rq_authorization rq) as [h|]; [|done]. change (default EmptyString (Some h)) with h in *.
    apply starts_with_spec in Hs as [t ->].
    assert (string_drop 7 ("Bearer " +:+ t) = t) as -> by reflexivity.
    assert (is_ascii t = true) as Ht by exact Hauth. unfold compare_digest.
    rewrite Htok, Ht. simpl. eauto. }
  unfold from_result, mbind, D_bind, mret, D_ret. destruct b; simpl; [|tauto].
  destruct (rpc root processes features kill rq en d) as [[v|e|] d']; [tauto| |done].
  unfold error_response. destruct (client_error e) eqn:Ee; [|tauto].
  right. right. right. left. eauto.
Qed.
End dispatch.

(** ** Concrete requests *)

Section witnesses.
Existing Instance tree_backend.

(** A process service with no processes. *)
Definition no_processes : ProcessService := {|
  ps_status := mret (PDict []);
  ps_start _ _ _ _ := mret PNone;
  ps_list_runs _ _ := mret (PList []);
  ps_get _ _ _ := fail KeyError;
  ps_events _ _ _ _ _ := mret (PList []);
  ps_stop _ _ _ := mret PNone;
  ps_fence_enter _ _ := mret [];
  ps_fence_exit _ _ := mret () |}.

Lemma no_processes_laws : ProcessLaws no_processes.
Proof. by split. Qed.

(** A process service with one run, under the lease [t1]: its fence ends the
    run, which gives its lease back. *)
Definition one_process : ProcessService := {|
  ps_status := mret (PDict []);
  ps_start _ _ _ _ := mret PNone;
  ps_list_runs _ _ := mret (PList [PStr "r1"]);
  ps_get _ _ _ := fail KeyError;
  ps_events _ _ _ _ _ := mret (PList []);
  ps_stop _ _ _ := mret PNone;
  ps_fence_enter _ _ := fun _ d =>
    (Ret [PStr "r1"], Daemon (d_world d) (release "t1" (d_registry d)).2);
  ps_fence_exit _ _ := mret () |}.

Lemma one_process_laws : ProcessLaws one_process.
Proof. split; [|done]. intros a s en d. apply rtc_once. by exists "t1". Qed.

Definition demo_daemon : daemon := Daemon (run_from demo_fs) empty_registry.

Definition demo_session_params : dict :=
  [("agent_id", PStr "a1"); ("session_id", PStr "s1")].

(** The rollback of the demo session, with its processes killed first. *)
Definition demo_rollback_params : dict :=
  demo_session_params ++ [("checkpoint_id", PStr "c1"); ("kill_processes", PBool true)].

(** The run of [one_process] is running in the demo session. *)
Definition busy_daemon : daemon :=
  Daemon (run_from demo_fs) (state_of (acquire "a1" "s1" (PBool false) "t1" empty_registry)).

Lemma mutation_requests_release_witness :
  match mutation_dispatch "/allox" (Some one_process) false "session.rollback"
          demo_rollback_params "manual" demo_env busy_daemon with
  | (Crash, _) => True
  | (_, d') => mutating (d_registry d') = mutating (d_registry busy_daemon)
  end /\
  match mutation_dispatch "/allox" (Some no_processes) false "checkpoint.create"
          demo_session_params "manual" demo_env demo_daemon with
  | (Crash, _) => True
  | (_, d') => d_registry d' = empty_registry
  end.
Proof.
  split.
  - pose proof (mutation_requests_release (HB := tree_backend) "/allox" (Some one_process)
      ltac:(intros P [= <-]; exact one_process_laws) false
      "session.rollback" demo_rollback_params "manual" demo_env busy_daemon) as H.
    destruct (mutation_dispatch _ _ _ _ _ _ _ _) as [[] ?]; [..|exact I]; exact (proj1 H).
  - pose proof (mutation_requests_release (HB := tree_backend) "/allox" (Some no_processes)
      ltac:(intros P [= <-]; exact no_processes_laws) false
      "checkpoint.create" demo_session_params "manual" demo_env demo_daemon) as H.
    destruct (mutation_dispatch _ _ _ _ _ _ _ _) as [[] ?]; [..|exact I];
      destruct H as (_ & _ & _ & _ & _ & _ & H); by apply H.
Defined.

(** The rollback that kills the run is answered, and the lease is gone; without
    the kill it is refused. *)
Example rollback_kills :
  let r kill := mutation_dispatch "/allox" (Some one_process) kill "session.rollback"
     (demo_session_params ++ [("checkpoint_id", PStr "c1")]) "manual" demo_env busy_daemon in
  leased (d_registry (r true).2) ("a1", "s1") = false /\
  (r false).1 = Exc (WorkspaceError "session has active executions: a1/s1").
Proof. vm_compute. by split. Qed.

Lemma mutation_requests_guarded_witness :
  let body := mutation_body "/allox" "checkpoint.create" demo_session_params "a1" "s1" "manual" false [] in
  let r := with_mutation "checkpoint.create" EmptyString "a1" "s1" body demo_env demo_daemon in
  (exists m, r = (Exc (WorkspaceError m), demo_daemon)) \/
  exists d1, ran_from body demo_env d1 r /\ d_world d1 = d_world demo_daemon /\
    ("a1", "s1") ∈ mutating (d_registry d1) /\ leased (d_registry d1) ("a1", "s1") = false /\
    has_readers (d_registry d1) ("a1", "s1") = false /\
    (is_reset_rollback "checkpoint.create" = false ->
     has_background (d_registry d1) ("a1", "s1") = false).
Proof.
  exact (mutation_requests_guarded "checkpoint.create" EmptyString "a1" "s1"
    (mutation_body "/allox" "checkpoint.create" demo_session_params "a1" "s1" "manual" false [])
    demo_env demo_daemon [] (rtc_refl _ _)).
Defined.

Definition demo_request (authorization : option string) (action : string) : request :=
  Request "/v1/rpc" authorization (Some "80")
    (Ok (PDict [("action", PStr action); ("params", PDict demo_session_params)])).

Lemma unauthorized_requests_rejected_witness :
  do_POST "/allox" None None false "secret" (demo_request (Some "Bearer guess") "checkpoint.create")
      demo_env demo_daemon
    = (Ret (401, PDict [("error", PStr "unauthorized")]), demo_daemon).
Proof.
  exact (unauthorized_requests_rejected "/allox" None None false "secret"
    (demo_request (Some "Bearer guess") "checkpoint.create") demo_env demo_daemon
    ltac:(discriminate) eq_refl eq_refl eq_refl ltac:(discriminate)).
Defined.

Lemma requests_answered_witness :
  match do_POST "/allox" None None false "secret" (demo_request (Some "Bearer secret") "nope")
          demo_env demo_daemon with
  | (Ret (status, payload), _) =>
      status = 200 \/ status = 404 \/ status = 401 \/
      (status = 400 /\ exists e, client_error e = true /\ payload = error_payload (exn_str e)) \/
      (status = 500 /\ payload = error_payload "internal workspace daemon error")
  | (Exc _, _) => False
  | (Crash, _) => True
  end.
Proof.
  exact (requests_answered "/allox" None None false "secret"
    (demo_request (Some "Bearer secret") "nope") demo_env demo_daemon eq_refl eq_refl).
Defined.

(** A checkpoint requested over RPC: executed, and the registry is empty again. *)
Example checkpoint_over_rpc :
  let r := do_POST "/allox" None None false "secret"
             (demo_request (Some "Bearer secret") "checkpoint.create") demo_env demo_daemon in
  match fst r with Ret (status, _) => status | _ => 0 end = 200.
Proof. vm_compute. reflexivity. Qed.

(** A bearer token outside ASCII is neither accepted nor refused: the
    comparison raises, outside the handler's [try]. *)
Example non_ascii_token :
  fst (do_POST "/allox" None None false "secret"
         (demo_request (Some ("Bearer " +:+ String "233" EmptyString)) "checkpoint.create")
         demo_env demo_daemon)
    = Exc TypeError.
Proof. vm_compute. reflexivity. Qed.
End witnesses.
