(* ===== verification/Lifecycle.v ===== *)
(** * Turn checkpoints

    [TurnCheckpointLifecycle] of [src/src/allox/workspace/lifecycle.py]: the
    hooks an Agent runtime calls at the start of a session, for each user
    message and at the end of each turn.  Every method but [rollback] runs under
    the object's lock, so it is one step on its state; [rollback] makes its RPC
    without the lock and takes it to mark the rollback, so it is two steps with
    the steps of other threads between them.  The client is a parameter: what one
    RPC returns or raises.  A method gives its result, the new state and the
    calls it made. *)

From Stdlib Require Import Ascii.
From Stdlib Require String.
From stdpp Require Import gmap.
From S2P Require Import Prelude PyVal World StoreFiles.
Open Scope Z_scope.

Definition MESSAGE_LIMIT : nat := 80.

Record lifecycle := Lifecycle {
  agent_id : string;
  session_id : string;
  enabled : bool;
  turn_count : Z;
  last_user_message : string;
  session_started : bool;
  skip_next_auto_checkpoint : bool;
  seen_turn_ids : gset string }.

Definition init (agent session : string) (enabled : bool) : lifecycle :=
  Lifecycle agent session enabled 0 EmptyString false false ∅.

(** [enabled=bool(resolved_config.get(...))] *)
Definition from_resolved_config (agent session : string) (resolved_config : dict) : lifecycle :=
  init agent session
    (py_truthy (dget_or "workspace_auto_checkpoint_turns" (PBool false) resolved_config)).

(** Updates of single attributes. *)
Definition set_enabled (b : bool) (l : lifecycle) : lifecycle :=
  Lifecycle (agent_id l) (session_id l) b (turn_count l) (last_user_message l)
    (session_started l) (skip_next_auto_checkpoint l) (seen_turn_ids l).
Definition set_started (l : lifecycle) : lifecycle :=
  Lifecycle (agent_id l) (session_id l) (enabled l) (turn_count l) (last_user_message l)
    true (skip_next_auto_checkpoint l) (seen_turn_ids l).
Definition set_message (m : string) (l : lifecycle) : lifecycle :=
  Lifecycle (agent_id l) (session_id l) (enabled l) (turn_count l) m
    (session_started l) (skip_next_auto_checkpoint l) (seen_turn_ids l).
Definition set_skip (b : bool) (l : lifecycle) : lifecycle :=
  Lifecycle (agent_id l) (session_id l) (enabled l) (turn_count l) (last_user_message l)
    (session_started l) b (seen_turn_ids l).
Definition set_turn (n : Z) (l : lifecycle) : lifecycle :=
  Lifecycle (agent_id l) (session_id l) (enabled l) n (last_user_message l)
    (session_started l) (skip_next_auto_checkpoint l) (seen_turn_ids l).
Definition add_seen (t : string) (l : lifecycle) : lifecycle :=
  Lifecycle (agent_id l) (session_id l) (enabled l) (turn_count l) (last_user_message l)
    (session_started l) (skip_next_auto_checkpoint l) ({[ t ]} ∪ seen_turn_ids l).

Definition status (l : lifecycle) : dict :=
  [("enabled", PBool (enabled l));
   ("agent_id", PStr (agent_id l));
   ("session_id", PStr (session_id l));
   ("turn_count", PInt (turn_count l));
   ("session_started", PBool (session_started l));
   ("skip_next_auto_checkpoint", PBool (skip_next_auto_checkpoint l))].

(** An RPC: the action and its parameters. *)
Definition call : Type := string * dict.

Section client.
Context (rpc : string -> dict -> result pyval).
Context (new_id timestamp : string).   (* what the factories return this time *)

Definition _disabled (event : string) : dict :=
  [("enabled", PBool false); ("event", PStr event); ("created", PBool false);
   ("skipped", PStr "disabled")].

Definition create_params (l : lifecycle) (event : string) (turn : Z) (message : string)
    (metadata : dict) : dict :=
  [("agent_id", PStr (agent_id l));
   ("session_id", PStr (session_id l));
   ("checkpoint_id", PStr new_id);
   ("origin", PStr "turn-lifecycle");
   ("message", PStr (string_take MESSAGE_LIMIT message));
   ("pinned", PBool false);
   ("metadata", PDict (dupdate
      [("auto", PBool true); ("event", PStr event); ("turn", PInt turn);
       ("timestamp", PStr timestamp)] metadata))].

(** A failed RPC is reported, not raised; an answer that is no dictionary
    has no [get]. *)
Definition _create_checkpoint (l : lifecycle) (event : string) (turn : Z) (message : string)
    (metadata : dict) : result dict * list call :=
  let params := create_params l event turn message metadata in
  (match rpc "checkpoint.create" params with
   | Err e =>
       Ok [("enabled", PBool true); ("event", PStr event); ("created", PBool false);
           ("checkpoint_id", PStr new_id); ("error", PStr (exn_str e));
           ("non_blocking", PBool true)]
   | Ok (PDict checkpoint) =>
       Ok [("enabled", PBool true); ("event", PStr event); ("created", PBool true);
           ("checkpoint_id", dget_or "checkpoint_id" (PStr new_id) checkpoint);
           ("checkpoint", PDict checkpoint)]
   | Ok _ => Err AttributeError
   end, [("checkpoint.create", params)]).

(** A method's result, the new state and the calls made. *)
Definition step : Type := result dict * lifecycle * list call.

Definition on_session_start (runtime_session_id : option string) (l : lifecycle) : step :=
  if negb (enabled l) then (Ok (_disabled "session_start"), l, [])
  else if session_started l then
    (Ok [("enabled", PBool true); ("event", PStr "session_start"); ("created", PBool false);
         ("skipped", PStr "duplicate")], l, [])
  else
    let l := set_started l in
    let metadata := match runtime_session_id with
                    | Some (String c s) => [("runtime_session_id", PStr (String c s))]
                    | _ => [] end in
    let '(r, calls) := _create_checkpoint l "session_start" 0 "session-start" metadata in
    (r, l, calls).

Definition on_user_message (message : pyval) (l : lifecycle) : step :=
  let m := match message with
           | PStr m => string_take MESSAGE_LIMIT m | _ => EmptyString end in
  (Ok [("enabled", PBool (enabled l)); ("event", PStr "message_received");
       ("captured", PBool (negb (str_eqb m EmptyString)))], set_message m l, []).

Definition turn_skipped (reason : string) (turn_id : option string) : dict :=
  [("enabled", PBool true); ("event", PStr "turn_end"); ("created", PBool false);
   ("skipped", PStr reason); ("turn_id", pystr_opt turn_id)].

(** [turn_id] as a condition: neither [None] nor empty. *)
Definition given (turn_id : option string) : option string :=
  match turn_id with Some EmptyString => None | t => t end.

Definition on_turn_end (turn_id : option string) (completed interrupted : bool)
    (l : lifecycle) : step :=
  if negb (enabled l) then (Ok (_disabled "turn_end"), l, [])
  else if match given turn_id with
          | Some t => bool_decide (t ∈ seen_turn_ids l) | None => false end
  then (Ok (turn_skipped "duplicate" turn_id), l, [])
  else
    let l := match given turn_id with Some t => add_seen t l | None => l end in
    if skip_next_auto_checkpoint l
    then (Ok (turn_skipped "rollback" turn_id), set_skip false l, [])
    else
      let l := set_turn (turn_count l + 1) l in
      let message := if str_eqb (last_user_message l) EmptyString then "agent turn"
                     else last_user_message l in
      let metadata := [("success", PBool completed); ("interrupted", PBool interrupted)] ++
                      match given turn_id with Some t => [("turn_id", PStr t)] | None => [] end in
      let '(r, calls) := _create_checkpoint l "turn_end" (turn_count l) message metadata in
      (r, l, calls).

Definition mark_rollback (l : lifecycle) : lifecycle := set_skip true l.

Definition rollback_params (l : lifecycle) (checkpoint_id : option string)
    (num_ancestors : option Z) (scrub_runtime : bool) : dict :=
  [("agent_id", PStr (agent_id l));
   ("session_id", PStr (session_id l));
   ("checkpoint_id", pystr_opt checkpoint_id);
   ("num_ancestors", match num_ancestors with Some n => PInt n | None => PNone end);
   ("scrub_runtime", PBool scrub_runtime);
   ("origin", PStr "turn-lifecycle")].

(** The RPC of [rollback], outside the lock: it changes nothing here. *)
Definition rollback_call (checkpoint_id : option string) (num_ancestors : option Z)
    (scrub_runtime : bool) (l : lifecycle) : result pyval * list call :=
  let params := rollback_params l checkpoint_id num_ancestors scrub_runtime in
  (rpc "session.rollback" params, [("session.rollback", params)]).

(** [rollback]: other threads may run during its RPC, and [meanwhile] is what
    they make of the state; a rollback that succeeded is marked on that. *)
Definition rollback (checkpoint_id : option string) (num_ancestors : option Z)
    (scrub_runtime : bool) (meanwhile : lifecycle -> lifecycle) (l : lifecycle)
    : result pyval * lifecycle * list call :=
  let (r, calls) := rollback_call checkpoint_id num_ancestors scrub_runtime l in
  (r, match r with Ok _ => mark_rollback (meanwhile l) | Err _ => meanwhile l end, calls).

(** How the body of [with turn(...)] ended: normally, or with an exception,
    which may be [KeyboardInterrupt] or [SystemExit]. *)
Inductive body_end := Completed | Raised (interrupt : bool).

(** The hooks of one turn; [meanwhile] is what the body and other threads make
    of the state.  An exception of [on_turn_end] replaces the end of the body;
    otherwise the body's own exception goes on. *)
Definition turn (message : pyval) (turn_id : option string) (body : body_end)
    (meanwhile : lifecycle -> lifecycle) (l : lifecycle) : step :=
  let '(_, l, _) := on_user_message message l in
  match body with
  | Completed => on_turn_end turn_id true false (meanwhile l)
  | Raised interrupt => on_turn_end turn_id false interrupt (meanwhile l)
  end.
End client.

(** ** A run of the hooks

    The steps of the threads that share the object, in any order: the two steps
    of a [rollback] are events of their own. *)

Inductive event :=
  | EStart (runtime_session_id : option string)
  | EMessage (message : pyval)
  | ETurnEnd (turn_id : option string) (completed interrupted : bool)
  | ERollback (checkpoint_id : option string) (num_ancestors : option Z) (scrub_runtime : bool)
  | EMarkRollback
  | EEnable (b : bool).

Definition on_event (rpc : string -> dict -> result pyval) (new_id timestamp : string)
    (e : event) (l : lifecycle) : lifecycle * list call :=
  match e with
  | EStart r => let '(_, l', c) := on_session_start rpc new_id timestamp r l in (l', c)
  | EMessage m => let '(_, l', c) := on_user_message m l in (l', c)
  | ETurnEnd t c i => let '(_, l', c) := on_turn_end rpc new_id timestamp t c i l in (l', c)
  | ERollback c n s => (l, (rollback_call rpc c n s l).2)
  | EMarkRollback => (mark_rollback l, [])
  | EEnable b => (set_enabled b l, [])
  end.

(** What the environment answers: the RPC, the new identifier, the time. *)
Definition answer : Type := (string -> dict -> result pyval) * string * string.

Fixpoint run (events : list (event * answer)) (l : lifecycle) : lifecycle * list call :=
  match events with
  | [] => (l, [])
  | (e, (rpc, new_id, timestamp)) :: events =>
      let '(l1, c1) := on_event rpc new_id timestamp e l in
      let '(l2, c2) := run events l1 in
      (l2, c1 ++ c2)
  end.

(** * Properties of the turn checkpoints *)

(** The checkpoint a call asks for: its event, turn number and turn. *)
Definition call_metadata (c : call) : dict :=
  match dgetn "metadata" c.2 with PDict m => m | _ => [] end.

Definition creates (c : call) : bool := str_eqb c.1 "checkpoint.create".

Definition turn_of (c : call) : option string := as_str (dgetn "turn_id" (call_metadata c)).

Definition number_of (c : call) : pyval := dgetn "turn" (call_metadata c).

Definition event_of (c : call) : pyval := dgetn "event" (call_metadata c).

(** The turn-end checkpoints among the calls. *)
Definition turn_call (c : call) : bool := creates c && py_eqb (event_of c) (PStr "turn_end").
Definition start_call (c : call) : bool := creates c && py_eqb (event_of c) (PStr "session_start").

Definition calls_for (t : string) (calls : list call) : list call :=
  List.filter (fun c => creates c && bool_decide (turn_of c = Some t)) calls.

Lemma calls_for_app t c1 c2 : calls_for t (c1 ++ c2) = calls_for t c1 ++ calls_for t c2.
Proof. apply List.filter_app. Qed.

(** One step: what it may call and how the state changes. *)
Inductive step_calls (l l' : lifecycle) : list call -> Prop :=
  | sc_none : turn_count l' = turn_count l -> step_calls l l' []
  | sc_rollback c : turn_count l' = turn_count l -> creates c = false -> step_calls l l' [c]
  | sc_start c : turn_count l' = turn_count l -> start_call c = true -> turn_call c = false ->
      turn_of c = None -> number_of c = PInt 0 -> session_started l = false -> enabled l = true ->
      session_started l' = true -> step_calls l l' [c]
  | sc_turn c : turn_count l' = turn_count l + 1 -> turn_call c = true -> start_call c = false ->
      number_of c = PInt (turn_count l') -> enabled l = true ->
      match turn_of c with
      | Some t => t ∉ seen_turn_ids l /\ t ∈ seen_turn_ids l'
      | None => True
      end -> step_calls l l' [c].

Lemma on_event_calls rpc i ts e l l' c :
  on_event rpc i ts e l = (l', c) ->
  step_calls l l' c /\ seen_turn_ids l ⊆ seen_turn_ids l' /\
  (session_started l = true -> session_started l' = true).
Proof.
  destruct e as [rid|m|tid cp it|ck n sr| |b]; simpl.
  - unfold on_session_start, _create_checkpoint. destruct (enabled l) eqn:En; simpl.
    2:{ intros [= <- <-]. split; [by apply sc_none|done]. }
    destruct (session_started l) eqn:Es.
    { intros [= <- <-]. split; [by apply sc_none|]. by rewrite Es. }
    intros [= <- <-]. split; [|done]. apply sc_start; try done.
    all: destruct rid as [[|ch rs]|]; reflexivity.
  - intros [= <- <-]. split; [by apply sc_none|done].
  - unfold on_turn_end, _create_checkpoint. destruct (enabled l) eqn:En; simpl.
    2:{ intros [= <- <-]. split; [by apply sc_none|done]. }
    destruct (match given tid with Some t => _ | None => _ end) eqn:Eseen.
    { intros [= <- <-]. split; [by apply sc_none|done]. }
    set (l1 := match given tid with Some t => add_seen t l | None => l end).
    assert (turn_count l1 = turn_count l) as Htc by (unfold l1; by destruct (given tid)).
    assert (seen_turn_ids l ⊆ seen_turn_ids l1) as Hsub
      by (unfold l1; destruct (given tid); simpl; set_solver).
    assert (session_started l1 = session_started l) as Hss by (unfold l1; by destruct (given tid)).
    destruct (skip_next_auto_checkpoint l1).
    { intros [= <- <-]. split; [by apply sc_none|]. by simpl; rewrite Hss. }
    intros [= <- <-]. split; [|simpl; by rewrite Hss]. apply sc_turn; try done.
    + simpl. by rewrite Htc.
    + by destruct (given tid).
    + by destruct (given tid).
    + by destruct (given tid).
    + unfold turn_of, call_metadata. destruct (given tid) as [t|] eqn:Et; [|done]. simpl.
      apply bool_decide_eq_false in Eseen. split; [done|]. unfold l1. rewrite ?Et. simpl. set_solver.
  - intros [= <- <-]. split; [by apply sc_rollback|done].
  - intros [= <- <-]. split; [by apply sc_none|done].
  - intros [= <- <-]. split; [by apply sc_none|done].
Qed.

(** A turn already seen gets no further checkpoint. *)
Lemma run_seen t events l :
  t ∈ seen_turn_ids l -> calls_for t (run events l).2 = [].
Proof.
  revert l. induction events as [|[e [[rpc i] ts]] events IH]; intros l Ht; [done|]. simpl.
  destruct (on_event rpc i ts e l) as [l1 c1] eqn:E1.
  destruct (run events l1) as [l2 c2] eqn:E2. simpl.
  apply on_event_calls in E1 as (Hc & Hsub & _). rewrite calls_for_app.
  specialize (IH l1 (Hsub _ Ht)). rewrite E2 in IH. simpl in IH. rewrite IH, app_nil_r.
  destruct Hc as [|c ? Hno|c ? Hs ? Hno|c ? Hs ? ? ? Hin]; [done| | |]; unfold calls_for; simpl.
  - by rewrite Hno.
  - rewrite Hno. by rewrite andb_false_r.
  - destruct (turn_of c) as [t'|]; [|by rewrite andb_false_r].
    rewrite bool_decide_eq_false_2, andb_false_r; [done|]. intros [= ->]. by destruct Hin.
Qed.

(** C37: A turn gets at most one checkpoint, however often its end is reported
    and whatever happens in between: rollbacks, failures, disabling. *)
Theorem turn_checkpointed_once agent session b events t :
  (length (calls_for t (run events (init agent session b)).2) <= 1)%nat.
Proof.
  generalize (init agent session b). induction events as [|[e [[rpc i] ts]] events IH];
    intros l; simpl; [lia|].
  destruct (on_event rpc i ts e l) as [l1 c1] eqn:E1.
  specialize (IH l1). pose proof (run_seen t events l1) as Hseen.
  destruct (run events l1) as [l2 c2]. simpl in *. rewrite calls_for_app, length_app.
  apply on_event_calls in E1 as (Hc & _ & _).
  destruct Hc as [|c ? Hno|c ? Hs ? Hno|c ? Hs ? ? ? Hin]; [done| | |]; unfold calls_for; simpl.
  - by rewrite Hno.
  - rewrite Hno. by rewrite andb_false_r.
  - destruct (turn_of c) as [t'|]; [|by rewrite andb_false_r].
    destruct (decide (t' = t)) as [->|Hne].
    + fold (calls_for t c2). rewrite Hseen by apply Hin. simpl.
      destruct (creates c && _); simpl; lia.
    + rewrite bool_decide_eq_false_2, andb_false_r; [done|congruence].
Qed.

(** The integers from [n + 1] to [n + k]. *)
Definition numbers (n : Z) (k : nat) : list pyval :=
  (fun i => PInt (n + 1 + Z.of_nat i)) <$> seq 0 k.

Lemma numbers_S n k : numbers n (S k) = PInt (n + 1) :: numbers (n + 1) k.
Proof.
  unfold numbers. rewrite <- cons_seq, fmap_cons, <- fmap_S_seq, <- list_fmap_compose.
  f_equal; [f_equal; lia|]. apply list_fmap_ext. intros i x _. simpl. f_equal. lia.
Qed.

(** Also: The turn-end checkpoints are numbered consecutively from 1, without gap
    or repetition, and the turn count is the number of the last one. *)
Theorem turns_numbered agent session b events :
  let '(l, calls) := run events (init agent session b) in
  number_of <$> List.filter turn_call calls = numbers 0 (length (List.filter turn_call calls)) /\
  turn_count l = Z.of_nat (length (List.filter turn_call calls)).
Proof.
  assert (forall l0, let '(l, calls) := run events l0 in
    number_of <$> List.filter turn_call calls
      = numbers (turn_count l0) (length (List.filter turn_call calls)) /\
    turn_count l = turn_count l0 + Z.of_nat (length (List.filter turn_call calls))) as H.
  2:{ specialize (H (init agent session b)). by destruct (run events _). }
  induction events as [|[e [[rpc i] ts]] events IH]; intros l0; simpl; [split; [done|lia]|].
  destruct (on_event rpc i ts e l0) as [l1 c1] eqn:E1.
  specialize (IH l1). destruct (run events l1) as [l2 c2]. simpl in *.
  rewrite List.filter_app, fmap_app. destruct IH as [IH1 IH2].
  apply on_event_calls in E1 as (Hc & _ & _).
  destruct Hc as [Ht|c Ht Hno|c Ht Hs Hnt ? ?|c Ht Htc Hs Hnum ? Hin]; simpl.
  - by rewrite <- Ht.
  - assert (turn_call c = false) as -> by (unfold turn_call; by rewrite Hno). simpl.
    by rewrite <- Ht.
  - rewrite Hnt. simpl. by rewrite <- Ht.
  - rewrite Htc. simpl. rewrite numbers_S, <- Ht, IH1, Hnum. split; [done|]. lia.
Qed.

(** Also: The baseline checkpoint of a session is asked for at most once. *)
Theorem session_started_once agent session b events :
  (length (List.filter start_call (run events (init agent session b)).2) <= 1)%nat.
Proof.
  assert (forall evs l0, session_started l0 = true ->
    List.filter start_call (run evs l0).2 = []) as Hno.
  { induction evs as [|[e [[rpc i] ts]] evs IH]; intros l0 Hl; [done|]. simpl.
    destruct (on_event rpc i ts e l0) as [l1 c1] eqn:E1.
    apply on_event_calls in E1 as (Hc & _ & Hs). specialize (IH l1 (Hs Hl)).
    destruct (run evs l1) as [l2 c2]. simpl in *. rewrite List.filter_app, IH, app_nil_r.
    destruct Hc as [|c ? Hc|c ? ? ? ? ? ?|c ? ? Hsc]; simpl.
    - done.
    - unfold start_call. by rewrite Hc.
    - congruence.
    - by rewrite Hsc. }
  generalize (init agent session b). induction events as [|[e [[rpc i] ts]] events IH];
    intros l; simpl; [lia|].
  destruct (on_event rpc i ts e l) as [l1 c1] eqn:E1.
  specialize (IH l1). specialize (Hno events l1).
  destruct (run events l1) as [l2 c2]. simpl in *. rewrite List.filter_app, length_app.
  apply on_event_calls in E1 as (Hc & _ & _).
  destruct Hc as [|c ? Hc|c ? Hsc ? ? ? ? ? Hst|c ? ? Hsc]; simpl.
  - done.
  - unfold start_call at 1. by rewrite Hc.
  - rewrite Hno by done. rewrite Hsc. simpl. lia.
  - by rewrite Hsc.
Qed.

(** Also: A failing checkpoint does not fail the Agent: whatever the RPC raises,
    the hooks return a report that says so, and the turn is still counted. *)
Theorem hooks_do_not_fail rpc i ts l tid cp it rid :
  (forall a p, exists e, rpc a p = Err e) ->
  (exists d, (on_session_start rpc i ts rid l).1.1 = Ok d /\ dgetn "created" d = PBool false) /\
  (exists d, (on_turn_end rpc i ts tid cp it l).1.1 = Ok d /\ dgetn "created" d = PBool false).
Proof.
  intros Hrpc. split.
  - unfold on_session_start, _create_checkpoint. destruct (enabled l); simpl; [|eauto].
    destruct (session_started l); simpl; [eauto|].
    destruct (Hrpc "checkpoint.create" (create_params i ts (set_started l) "session_start" 0 "session-start"
      (match rid with Some (String c s) => [("runtime_session_id", PStr (String c s))] | _ => [] end)))
      as [e ->]. simpl. eauto.
  - unfold on_turn_end, _create_checkpoint. destruct (enabled l); simpl; [|eauto].
    destruct (match given tid with Some t => _ | None => _ end); simpl; [eauto|].
    destruct (skip_next_auto_checkpoint _); simpl; [eauto|].
    match goal with |- context [rpc ?a ?p] => destruct (Hrpc a p) as [e ->] end. simpl. eauto.
Qed.

(** Also: After a rollback through the lifecycle, during whose RPC the object
    was left alone, the end of the current turn makes no checkpoint, and the end
    of the next one makes exactly one again. *)
Theorem rollback_skips_one_turn rpc i ts l c n sr v t1 t2 c1 i1 c2 i2 :
  enabled l = true -> rpc "session.rollback" (rollback_params l c n sr) = Ok v ->
  given (Some t1) = Some t1 -> given (Some t2) = Some t2 ->
  t1 ∉ seen_turn_ids l -> t2 ∉ seen_turn_ids l -> t1 <> t2 ->
  let l1 := (rollback rpc c n sr id l).1.2 in
  let s1 := on_turn_end rpc i ts (Some t1) c1 i1 l1 in
  let s2 := on_turn_end rpc i ts (Some t2) c2 i2 s1.1.2 in
  s1.2 = [] /\ length s2.2 = 1%nat /\ forallb turn_call s2.2 = true.
Proof.
  intros En Hr Hg1 Hg2 Hs1 Hs2 Hne l1 s1.
  assert (s1 = (Ok (turn_skipped "rollback" (Some t1)),
                set_skip false (add_seen t1 l1), [])) as ->.
  { unfold s1, l1, rollback, rollback_call. rewrite Hr. simpl. unfold on_turn_end. rewrite Hg1. simpl.
    rewrite En. simpl. by rewrite bool_decide_eq_false_2 by done. }
  split; [done|]. unfold l1, rollback, rollback_call. rewrite Hr. unfold on_turn_end. rewrite Hg2. simpl.
  rewrite En. simpl. rewrite bool_decide_eq_false_2 by set_solver. simpl.
  split; [done|]. unfold turn_call, event_of, call_metadata. done.
Qed.

(** Also: No checkpoint message is longer than the limit. *)
Theorem messages_bounded agent session b events c :
  In c (run events (init agent session b)).2 -> creates c = true ->
  exists m, dgetn "message" c.2 = PStr m /\ (String.length m <= MESSAGE_LIMIT)%nat.
Proof.
  generalize (init agent session b). induction events as [|[e [[rpc i] ts]] events IH];
    intros l; simpl; [done|].
  destruct (on_event rpc i ts e l) as [l1 c1] eqn:E1. specialize (IH l1).
  destruct (run events l1) as [l2 c2]. simpl in *.
  rewrite in_app_iff. intros [Hin|Hin] Hc; [|by apply IH].
  assert (exists l0 ev n m md, c = ("checkpoint.create", create_params i ts l0 ev n m md)) as
    (l0 & ev & n & m & md & ->).
  { destruct e as [rid|m|tid cp it|ck n sr| |bb]; simpl in E1.
    - unfold on_session_start, _create_checkpoint in E1.
      destruct (enabled l); simpl in E1; [|injection E1 as <- <-; done].
      destruct (session_started l); injection E1 as <- <-; [done|].
      destruct Hin as [<-|[]]. eauto 10.
    - injection E1 as <- <-. done.
    - unfold on_turn_end, _create_checkpoint in E1.
      destruct (enabled l); simpl in E1; [|injection E1 as <- <-; done].
      destruct (match given tid with Some t => _ | None => _ end); simpl in E1;
        [injection E1 as <- <-; done|].
      destruct (skip_next_auto_checkpoint _); injection E1 as <- <-; [done|].
      destruct Hin as [<-|[]]. eauto 10.
    - injection E1 as <- <-. destruct Hin as [<-|[]]; discriminate Hc.
    - injection E1 as <- <-. done.
    - injection E1 as <- <-. done. }
  exists (string_take MESSAGE_LIMIT m). split; [done|apply string_take_length].
Qed.

(** ** Witnesses *)

Definition failing_rpc (_ : string) (_ : dict) : result pyval := Err (RuntimeError "gone").
Definition working_rpc (_ : string) (_ : dict) : result pyval := Ok (PDict []).
Definition fresh : lifecycle := init "agent" "session" true.

Lemma hooks_do_not_fail_witness :
  exists d, (on_turn_end failing_rpc "c1" "now" (Some "t1") true false fresh).1.1 = Ok d /\
    dgetn "created" d = PBool false.
Proof.
  apply (hooks_do_not_fail failing_rpc "c1" "now" fresh (Some "t1") true false None).
  intros a p. by exists (RuntimeError "gone").
Defined.

Lemma rollback_skips_one_turn_witness :
  let l1 := (rollback working_rpc (Some "c0") None true id fresh).1.2 in
  let s1 := on_turn_end working_rpc "c1" "now" (Some "t1") true false l1 in
  let s2 := on_turn_end working_rpc "c1" "now" (Some "t2") true false s1.1.2 in
  s1.2 = [] /\ length s2.2 = 1%nat /\ forallb turn_call s2.2 = true.
Proof.
  by apply (rollback_skips_one_turn working_rpc "c1" "now" fresh (Some "c0") None true (PDict [])
    "t1" "t2" true false true false).
Defined.

(** One turn of a session and the call it leads to. *)
Definition one_turn : list (event * answer) :=
  [(EMessage (PStr "hello"), (working_rpc, "c0", "now"));
   (ETurnEnd (Some "t1") true false, (working_rpc, "c1", "now"))].

Definition the_call : call := hd (EmptyString, []) (run one_turn fresh).2.

Lemma messages_bounded_witness :
  exists m, dgetn "message" the_call.2 = PStr m /\ (String.length m <= MESSAGE_LIMIT)%nat.
Proof.
  apply (messages_bounded "agent" "session" true one_turn the_call); [|reflexivity].
  vm_compute. by left.
Defined.
