(* ===== verification/Extensions.v ===== *)
(** * Feature plugins

    [src/src/allox/runtime/extensions.py]: the manager that activates the
    enabled plugins, routes their requests and merges what they contribute to
    an execution, and the object that owns the plugins' handles of one
    execution.  Plugins are installed code: the class [Plugins] says what each
    of their callbacks returns or raises, as a function of all calls made so
    far. *)

From Stdlib Require Import Ascii.
From Stdlib Require String.
From stdpp Require Import gmap.
From S2P Require Import Prelude Paths Effects PyVal.
Open Scope Z_scope.

(** ** Data *)

Definition PLUGIN_ABI : Z := 1.
Definition SUPPORTED_EXECUTION_LIFECYCLE_ABIS : list pyval := [PInt 1; PInt 2].

Record recovery_plan := ExecutionRecoveryPlan {
  rp_checkpoint_id : string;
  rp_recovery_id : string;
  rp_scrub_runtime : bool;
  rp_require_consistent : bool;
  rp_baseline_created : bool }.

(** [on_failure] is the service's callback for the run [run_id]. *)
Record start_context := ExecutionStartContext {
  sc_agent_id : string;
  sc_session_id : string;
  sc_run_id : string;
  sc_run_epoch : Z;
  sc_root_pid : Z;
  sc_cgroup_path : string;
  sc_cgroup_relative_path : string;
  sc_cgroup_id : Z;
  sc_mount_namespace_id : Z;
  sc_network_namespace_id : Z;
  sc_audit_directory : string;
  sc_boot_id : string;
  sc_execution_metadata : dict;
  sc_recovery : option recovery_plan }.

Record quiescence := ExecutionQuiescence { q_cgroup_path : string; q_cgroup_id : Z }.

Definition quiescence_dict (q : quiescence) : dict :=
  [("status", PStr "QUIESCENT_WITHIN_CGROUP"); ("basis", PStr "CGROUP_V2_EMPTY_FROZEN_VERIFIED");
   ("cgroup_path", PStr (q_cgroup_path q)); ("cgroup_id", PInt (q_cgroup_id q))].

Record mount := SandboxMount { m_source : string; m_target : string; m_read_only : bool }.

(** [SandboxMount.__post_init__] *)
Definition sandbox_mount (source target : string) (read_only : bool) : result mount :=
  let t := parse_path target in
  raise_if (negb (is_absolute (parse_path source)))
    (WorkspaceError "plugin mount source must be absolute");;
  raise_if (negb (is_absolute t) || existsb (str_eqb "..") (p_parts t)
            || bool_decide (t = parse_path "/"))
    (WorkspaceError "plugin mount target must be a confined absolute path");;
  Ok (SandboxMount source target read_only).

(** The environment of a contribution maps names to strings. *)
Record contribution := ExecutionContribution {
  c_argv_prefix : list string;
  c_environment : list (string * string);
  c_mounts : list mount;
  c_metadata : dict }.

(** A handle and which of its attributes are callable. *)
Record handle := Handle { h_id : nat; h_methods : list string }.

(** A plugin object: the attributes the manager looks at.  [f_lifecycle_abi]
    is [None] when absent, [f_start] says whether [start_execution] is present
    and then whether it is callable, the last three whether the optional
    callbacks are present. *)
Record feature := Feature {
  f_id : nat;
  f_name : string;
  f_abi : pyval;
  f_rpc_prefixes : list string;
  f_lifecycle_abi : pyval;
  f_start : option bool;
  f_supports_recovery : bool;
  f_run_environment : bool;
  f_execution_started : bool;
  f_execution_finished : bool }.

(** ** Calls of plugin code

    The last two are the daemon's process service, which it opens and closes
    together with the plugins. *)

Inductive call :=
  | CLoad (name : string)
  | CFactory (name : string) (configuration : dict)
  | CPrepare (f : nat) (agent_id session_id : string)
  | CRunEnvironment (f : nat) (agent_id session_id run_id : string) (trace_context : pyval)
  | CStart (f : nat) (context : start_context)
  | CDispatch (f : nat) (action : string) (params : dict)
  | CStarted (f : nat) (row : dict)
  | CFinished (f : nat) (row : dict)
  | CClose (f : nat)
  | HStatus (h : nat)
  | HHealthy (h : nat)
  | HStarted (h : nat)
  | HFinish (h : nat) (outcome : string) (q : quiescence)
  | HClose (h : nat)
  | POpen
  | PClose.

Class Plugins := {
  installed : list string;     (* the entry points of the plugin group *)
  p_load : list call -> string -> reply unit;
  p_factory : list call -> string -> dict -> reply feature;
  p_prepare : list call -> nat -> string -> string -> reply contribution;
  p_run_environment : list call -> nat -> string -> string -> string -> pyval -> reply pyval;
  p_start : list call -> nat -> start_context -> reply (option handle);
  p_dispatch : list call -> nat -> string -> dict -> reply pyval;
  p_started : list call -> nat -> dict -> reply unit;
  p_finished : list call -> nat -> dict -> reply unit;
  p_close : list call -> nat -> reply unit;
  h_status : list call -> nat -> reply pyval;
  h_healthy : list call -> nat -> reply unit;
  h_started : list call -> nat -> reply unit;
  h_finish : list call -> nat -> string -> quiescence -> reply pyval;
  h_close : list call -> nat -> reply unit }.

Section extensions.
Context `{Plugins}.

(** A method of an object of type [O]. *)
Definition X (O A : Type) : Type := P call O A.

Definition close_handle {O} (h : nat) : X O unit := perform (HClose h) (fun l => h_close l h).

(** ** The handles of one execution *)

Definition entry : Type := string * Z * handle.

Definition e_handle (e : entry) : nat := h_id e.2.

Inductive active_state := Active | Finalizing | Closed.

#[export] Instance active_state_eq_dec : EqDecision active_state.
Proof. solve_decision. Defined.

Record active := ActiveFeatureExecutions { entries : list entry; a_state : active_state }.

Definition set_state (x : active_state) (a : active) : active :=
  ActiveFeatureExecutions (entries a) x.

Definition enabled (a : active) : bool := negb (bool_decide (entries a = [])).

Definition not_active : exn := WorkspaceError "feature execution lifecycle is not active".

Definition quote : string := String (ascii_of_nat 34) EmptyString.

Definition plugin_error (name what : string) : exn :=
  WorkspaceError ("feature plugin " +:+ quote +:+ name +:+ quote +:+ " " +:+ what).

(** One item of the loops that collect a mapping per plugin. *)
Definition collect (what : string) (m : entry -> X active pyval) (results : dict) (e : entry)
    : X active dict :=
  v ← m e;
  match v with
  | PDict d => mret (dset e.1.1 (PDict d) results)
  | _ => throw (plugin_error e.1.1 what)
  end.

Definition handle_status (e : entry) : X active pyval :=
  perform (HStatus (e_handle e)) (fun l => h_status l (e_handle e)).

Definition status : X active dict :=
  es ← read entries;
  fold_loop (collect "returned invalid execution status" handle_status) es [].

Definition require_active : X active unit :=
  s ← read a_state; throw_when (negb (bool_decide (s = Active))) not_active.

Definition assert_healthy : X active unit :=
  require_active;;
  es ← read entries;
  iterate (fun e => perform (HHealthy (e_handle e)) (fun l => h_healthy l (e_handle e))) es.

Definition agent_started : X active unit :=
  require_active;;
  es ← read entries;
  iterate (fun e => if e.1.2 =? 2
                    then perform (HStarted (e_handle e)) (fun l => h_started l (e_handle e))
                    else mret ()) es.

(** [for ... in reversed(entries): with suppress(Exception): close_unverified()] *)
Definition close_entries {O} (es : list entry) : X O unit :=
  iterate (fun e => suppress (close_handle (e_handle e))) (rev es).

Definition finish_handle (outcome : string) (q : quiescence) (e : entry) : X active pyval :=
  perform (HFinish (e_handle e) outcome q) (fun l => h_finish l (e_handle e) outcome q).

Definition finish (outcome : string) (q : quiescence) : X active dict :=
  require_active;;
  modify (set_state Finalizing);;
  es ← read entries;
  results ← unwinding
    (fold_loop (collect "returned an invalid final result" (finish_handle outcome q)) (rev es) [])
    (close_entries es;; modify (set_state Closed));
  modify (set_state Closed);;
  mret results.

Definition close_unverified : X active unit :=
  s ← read a_state;
  if bool_decide (s = Closed) then mret ()
  else
    modify (set_state Closed);;
    es ← read entries;
    close_entries es.

(** ** The manager *)

Record manager := Manager { features : list feature; routes : list (string * feature) }.

Definition no_features : manager := Manager [] [].

Definition close_feature {O} (f : feature) : X O unit :=
  suppress (perform (CClose (f_id f)) (fun l => p_close l (f_id f))).

Definition close : X manager unit :=
  fs ← read features;
  iterate close_feature (rev fs);;
  modify (fun _ => no_features).

Definition _installed_feature_factory (name : string) : X manager unit :=
  match List.filter (str_eqb name) installed with
  | [] => throw (WorkspaceError ("Allox feature plugin " +:+ quote +:+ name +:+ quote
                                 +:+ " is enabled but not installed"))
  | [_] => perform (CLoad name) (fun l => p_load l name)
  | _ => throw (WorkspaceError ("multiple Allox feature plugins provide "
                                +:+ quote +:+ name +:+ quote))
  end.

Definition bad_lifecycle (f : feature) : result bool :=
  supported ← in_set (f_lifecycle_abi f) SUPPORTED_EXECUTION_LIFECYCLE_ABIS;
  Ok (negb supported || negb (bool_decide (f_start f = Some true))).

(** The checks on a constructed plugin, before its routes. *)
Definition check_feature (name : string) (f : feature) : result unit :=
  raise_if (negb (str_eqb (f_name f) name))
    (plugin_error name ("returned mismatched name " +:+ quote +:+ f_name f +:+ quote));;
  raise_if (negb (py_eqb (f_abi f) (PInt PLUGIN_ABI)))
    (plugin_error name ("ABI " +:+ py_str (f_abi f) +:+ " != required ABI 1"));;
  if is_none (f_lifecycle_abi f) && bool_decide (f_start f = None) then Ok ()
  else
    bad ← bad_lifecycle f;
    raise_if bad (plugin_error name "has an incompatible execution lifecycle ABI").

Definition has_route (prefix : string) (m : manager) : bool :=
  existsb (fun r => str_eqb r.1 prefix) (routes m).

Definition add_route (name : string) (f : feature) (prefix : string) : X manager unit :=
  throw_when (str_eqb prefix EmptyString || negb (ends_with_char "." prefix))
    (plugin_error name "has an invalid RPC prefix");;
  taken ← read (has_route prefix);
  throw_when taken (WorkspaceError ("duplicate feature RPC prefix: " +:+ prefix));;
  modify (fun m => Manager (features m) (routes m ++ [(prefix, f)])).

(** One pass of the constructor's loop; [factories] are the names the caller
    passes a factory for. *)
Definition activate (factories : list string) (spec : string * dict) : X manager unit :=
  let '(name, configuration) := spec in
  (if existsb (str_eqb name) factories then mret () else _installed_feature_factory name);;
  f ← perform (CFactory name configuration) (fun l => p_factory l name configuration);
  modify (fun m => Manager (features m ++ [f]) (routes m));;
  lift (check_feature name f);;
  iterate (add_route name f) (f_rpc_prefixes f).

(** [FeatureManager.__init__], on the object with no features yet. *)
Definition new_manager (factories : list string) (specifications : list (string * dict))
    : X manager unit :=
  unwinding (iterate (activate factories) specifications) close.

Definition names (m : manager) : list string := f_name <$> features m.

(** [lifecycle_abi in SUPPORTED_EXECUTION_LIFECYCLE_ABIS] of a checked plugin. *)
Definition has_lifecycle (f : feature) : bool :=
  py_in (f_lifecycle_abi f) SUPPORTED_EXECUTION_LIFECYCLE_ABIS.

Definition execution_lifecycle_enabled (m : manager) : bool := existsb has_lifecycle (features m).

Definition recovery_lifecycle_enabled (m : manager) : bool :=
  existsb (fun f => py_eqb (f_lifecycle_abi f) (PInt 2) && f_supports_recovery f) (features m).

(** ** What the plugins contribute to an execution *)

(** [if key in d and d[key] != value: raise; d[key] = value] *)
Definition merge_item (conflict : string -> exn) (d : dict) (kv : string * pyval) : result dict :=
  raise_if (match dget kv.1 d with Some v => negb (py_eqb v kv.2) | None => false end)
    (conflict kv.1);;
  Ok (dset kv.1 kv.2 d).

Fixpoint merge (conflict : string -> exn) (d : dict) (items : dict) : result dict :=
  match items with
  | [] => Ok d
  | kv :: items => d' ← merge_item conflict d kv; merge conflict d' items
  end.

Fixpoint merge_mounts (mounts : list mount) (more : list mount) : result (list mount) :=
  match more with
  | [] => Ok mounts
  | m :: more =>
      raise_if (existsb (fun n => str_eqb (m_target n) (m_target m)) mounts)
        (WorkspaceError ("feature plugins conflict on mount target " +:+ m_target m));;
      merge_mounts (mounts ++ [m]) more
  end.

Definition environment_conflict (k : string) : exn :=
  WorkspaceError ("feature plugins conflict on environment variable " +:+ k).
Definition metadata_conflict (k : string) : exn :=
  WorkspaceError ("feature plugins conflict on run metadata " +:+ k).

(** The accumulators of [prepare_execution]; the values of [environment] are
    strings. *)
Record merged := Merged {
  prefixes : list string; environment : dict; mounts : list mount; metadata : dict }.

Definition pairs (l : list (string * string)) : dict := (fun kv => (kv.1, PStr kv.2)) <$> l.

Definition merge_contribution (acc : merged) (c : contribution) : result merged :=
  env ← merge environment_conflict (environment acc) (pairs (c_environment c));
  ms ← merge_mounts (mounts acc) (c_mounts c);
  md ← merge metadata_conflict (metadata acc) (c_metadata c);
  Ok (Merged (prefixes acc ++ c_argv_prefix c) env ms md).

Definition prepare_execution (agent_id session_id : string) : X manager merged :=
  fs ← read features;
  fold_loop (fun acc f =>
    c ← perform (CPrepare (f_id f) agent_id session_id)
          (fun l => p_prepare l (f_id f) agent_id session_id);
    lift (merge_contribution acc c)) fs (Merged [] [] [] []).

Fixpoint merge_run_environment (env : dict) (items : dict) : result dict :=
  match items with
  | [] => Ok env
  | kv :: items =>
      raise_if (negb (is_str kv.2)) (WorkspaceError "invalid feature run environment");;
      env' ← merge_item (fun _ => WorkspaceError "feature run environment conflict") env kv;
      merge_run_environment env' items
  end.

Definition prepare_run_environment (agent_id session_id run_id : string) (trace_context : pyval)
    : X manager dict :=
  fs ← read features;
  fold_loop (fun env f =>
    if f_run_environment f then
      v ← perform (CRunEnvironment (f_id f) agent_id session_id run_id trace_context)
            (fun l => p_run_environment l (f_id f) agent_id session_id run_id trace_context);
      match v with
      | PDict items => lift (merge_run_environment env items)
      | _ => throw AttributeError
      end
    else mret env) fs [].

(** ** Starting an execution *)

Definition required_methods (abi : Z) : list string :=
  ["status"; "assert_healthy"; "finish"; "close_unverified"]
  ++ (if abi =? 2 then ["agent_started"] else []).

Definition callable (h : handle) (method : string) : bool := existsb (str_eqb method) (h_methods h).

(** [type(lifecycle_abi) is int and lifecycle_abi in SUPPORTED...] *)
Definition lifecycle_abi_of (f : feature) : option Z :=
  match f_lifecycle_abi f with
  | PInt n => if (n =? 1) || (n =? 2) then Some n else None
  | _ => None
  end.

Definition valid_handle (abi : Z) (h : handle) : bool :=
  forallb (callable h) (required_methods abi).

Definition invalid_handle (f : feature) : exn :=
  plugin_error (f_name f) "returned an invalid lifecycle handle".

(** One pass of the loop, on the entries started so far. *)
Definition start_feature (ctx : start_context) (f : feature) : X (list entry) unit :=
  match f_start f with
  | None => mret ()
  | Some can_call =>
      match lifecycle_abi_of f with
      | None => throw (plugin_error (f_name f) "has an invalid lifecycle ABI")
      | Some abi =>
          if negb can_call then throw TypeError
          else
            r ← perform (CStart (f_id f) ctx) (fun l => p_start l (f_id f) ctx);
            match r with
            | None => throw (invalid_handle f)
            | Some h =>
                if valid_handle abi h
                then modify (fun es => es ++ [(f_name f, abi, h)])
                else
                  (if callable h "close_unverified" then suppress (close_handle (h_id h))
                   else mret ());;
                  throw (invalid_handle f)
            end
      end
  end.

Definition start_loop (ctx : start_context) (fs : list feature) : X (list entry) active :=
  unwinding
    (iterate (start_feature ctx) fs;;
     es ← read (fun es => es);
     r ← on_object (ActiveFeatureExecutions es Active) assert_healthy;
     mret r.2)
    (es ← read (fun es => es); close_entries es).

Definition start_execution (ctx : start_context) : X manager active :=
  fs ← read features;
  r ← on_object [] (start_loop ctx fs);
  mret r.1.

(** ** Requests and observations *)

Definition route_of (action : string) (m : manager) : option (string * feature) :=
  List.find (fun r => starts_with r.1 action) (routes m).

Definition dispatch (action : string) (params : dict) : X manager pyval :=
  r ← read (route_of action);
  match r with
  | Some (_, f) => perform (CDispatch (f_id f) action params)
                     (fun l => p_dispatch l (f_id f) action params)
  | None => throw (WorkspaceError ("unknown action: " +:+ action))
  end.

Definition handles (action : string) (m : manager) : bool :=
  existsb (fun r => starts_with r.1 action) (routes m).

Definition execution_started (row : dict) : X manager unit :=
  fs ← read features;
  iterate (fun f => if f_execution_started f
                    then perform (CStarted (f_id f) row) (fun l => p_started l (f_id f) row)
                    else mret ()) fs.

Definition execution_finished (row : dict) : X manager unit :=
  fs ← read features;
  iterate (fun f => if f_execution_finished f
                    then perform (CFinished (f_id f) row) (fun l => p_finished l (f_id f) row)
                    else mret ()) (rev fs).
End extensions.

#[global] Arguments valid_handle : simpl never.
