(* ===== verification/ExtensionsSpec.v ===== *)
(** * Properties of the plugin manager and of the execution handles *)

From Stdlib Require Import Ascii.
From Stdlib Require String.
From stdpp Require Import gmap.
From S2P Require Import Prelude Paths Effects PyVal Extensions.
Open Scope Z_scope.

Section extensions.
Context `{HP : Plugins}.

Lemma elem_of_rev {A} (x : A) l : x ∈ rev l <-> x ∈ l.
Proof. by rewrite !list_elem_of_In, <- in_rev. Qed.

(** ** The handles and plugins that a history gave out *)

(** The handles returned by the calls [k] made after [l]. *)
Fixpoint obtained (l k : list call) : list handle :=
  match k with
  | [] => []
  | c :: k =>
      match c with
      | CStart f ctx => match p_start l f ctx with Done (Some h) => [h] | _ => [] end
      | _ => []
      end ++ obtained (l ++ [c]) k
  end.

Fixpoint constructed (l k : list call) : list feature :=
  match k with
  | [] => []
  | c :: k =>
      match c with
      | CFactory n d => match p_factory l n d with Done f => [f] | _ => [] end
      | _ => []
      end ++ constructed (l ++ [c]) k
  end.

Lemma obtained_app l k1 k2 : obtained l (k1 ++ k2) = obtained l k1 ++ obtained (l ++ k1) k2.
Proof.
  revert l. induction k1 as [|c k1 IH]; intros l; simpl; [by rewrite app_nil_r|].
  by rewrite IH, <- !app_assoc.
Qed.

Lemma constructed_app l k1 k2 :
  constructed l (k1 ++ k2) = constructed l k1 ++ constructed (l ++ k1) k2.
Proof.
  revert l. induction k1 as [|c k1 IH]; intros l; simpl; [by rewrite app_nil_r|].
  by rewrite IH, <- !app_assoc.
Qed.

Definition is_close (c : call) : bool :=
  match c with HClose _ | CClose _ => true | _ => false end.

Lemma obtained_closes l k : Forall (fun c => is_close c = true) k -> obtained l k = [].
Proof.
  intros H. revert l. induction H as [|c k Hc _ IH]; intros l; simpl; [done|].
  rewrite IH. by destruct c.
Qed.

Lemma constructed_closes l k : Forall (fun c => is_close c = true) k -> constructed l k = [].
Proof.
  intros H. revert l. induction H as [|c k Hc _ IH]; intros l; simpl; [done|].
  rewrite IH. by destruct c.
Qed.

(** ** Closing *)

Definition closes (es : list entry) : list call := HClose ∘ e_handle <$> rev es.

Lemma closes_is_close es : Forall (fun c => is_close c = true) (closes es).
Proof. unfold closes. apply Forall_fmap, Forall_true. done. Qed.

Lemma wp_close_entries {O} es (Q : reply unit -> st call O -> Prop) s :
  Q (Done ()) (St (hist s ++ closes es) (obj s)) ->
  (forall k, (exists l h, h_close l h = Interrupted) -> k `prefix_of` closes es ->
     Q Interrupted (St (hist s ++ k) (obj s))) ->
  ewp (close_entries es) Q s.
Proof.
  intros HD HI. unfold close_entries.
  eapply ewp_iterate with (I := fun l s' => exists k, hist s' = hist s ++ k /\ obj s' = obj s /\
    k ++ (HClose ∘ e_handle <$> l) = closes es).
  - exists []. by rewrite app_nil_r.
  - intros e l [h o] (k & ? & ? & Hk); simpl in *; subst.
    apply ewp_suppress, ewp_perform. intros r Hr. simpl in *.
    assert ((k ++ [HClose (e_handle e)]) ++ (HClose ∘ e_handle <$> l) = closes es) as Hk'.
    { rewrite <- Hk. by rewrite <- app_assoc. }
    destruct r as [[]|ex|]; simpl.
    1,2: exists (k ++ [HClose (e_handle e)]); by rewrite app_assoc.
    rewrite <- app_assoc. apply HI; [by eauto|]. rewrite <- Hk'. by apply prefix_app_r.
  - intros [h o] (k & ? & ? & Hk); simpl in *; subst. rewrite app_nil_r in Hk. by subst.
Qed.

(** ** The handles of an execution *)

(** [finish] was called on the first [n] entries, last first. *)
Definition finishes (outcome : string) (q : quiescence) (es : list entry) : list call :=
  (fun e => HFinish (e_handle e) outcome q) <$> rev es.

(** How the finishing of an active execution ends. *)
Definition finished_as (outcome : string) (q : quiescence) (s : st call active)
    (r : reply dict) (s' : st call active) : Prop :=
  let es := entries (obj s) in
  entries (obj s') = es /\
  match r with
  | Done results => a_state (obj s') = Closed /\ hist s' = hist s ++ finishes outcome q es /\
      forall e, e ∈ es -> exists d, dget e.1.1 results = Some (PDict d)
  | Raised _ => a_state (obj s') = Closed /\
      exists k, k `prefix_of` finishes outcome q es /\ hist s' = hist s ++ k ++ closes es
  | Interrupted => a_state (obj s') <> Active
  end.

(** After a handle that did not finish, every handle is closed. *)
Lemma wp_close_rest outcome q es h k o (Q : reply unit -> st call active -> Prop) :
  entries o = es -> a_state o = Finalizing -> k `prefix_of` finishes outcome q es ->
  (forall s', entries (obj s') = es -> a_state (obj s') = Closed ->
     (exists k, k `prefix_of` finishes outcome q es /\ hist s' = h ++ k ++ closes es) ->
     Q (Done ()) s') ->
  (forall s', entries (obj s') = es -> a_state (obj s') <> Active -> Q Interrupted s') ->
  ewp (close_entries es;; modify (set_state Closed)) Q (St (h ++ k) o).
Proof.
  intros Hes Hst Hk Hdone Hint. apply ewp_bind, wp_close_entries; simpl.
  - apply ewp_modify. simpl. apply Hdone; [done|done|]. exists k. simpl.
    by rewrite <- app_assoc.
  - intros k' _ _. apply Hint; simpl; congruence.
Qed.

(** What the loop over the handles has done; [l] are the handles to come. *)
Definition finishing (outcome : string) (q : quiescence) (s : st call active)
    (l : list entry) (results : dict) (s' : st call active) : Prop :=
  let es := entries (obj s) in
  entries (obj s') = es /\ a_state (obj s') = Finalizing /\
  exists k, hist s' = hist s ++ k /\
    k ++ ((fun e => HFinish (e_handle e) outcome q) <$> l) = finishes outcome q es /\
    forall e, e ∈ es -> e ∈ l \/ exists d, dget e.1.1 results = Some (PDict d).

Lemma finishing_next outcome q s e l results d h o k :
  entries o = entries (obj s) -> a_state o = Finalizing -> h = hist s ++ k ->
  (k ++ [HFinish (e_handle e) outcome q])
    ++ ((fun e => HFinish (e_handle e) outcome q) <$> l) = finishes outcome q (entries (obj s)) ->
  (forall e', e' ∈ entries (obj s) ->
     e' ∈ e :: l \/ exists d, dget e'.1.1 results = Some (PDict d)) ->
  finishing outcome q s l (dset e.1.1 (PDict d) results)
    (St (h ++ [HFinish (e_handle e) outcome q]) o).
Proof.
  intros Hes Hst -> Hk Hall. split; [done|]. split; [done|].
  exists (k ++ [HFinish (e_handle e) outcome q]). split; [by rewrite app_assoc|]. split; [done|].
  intros e' He'. destruct (Hall e' He') as [Hin|[d' Hd']].
  - apply elem_of_cons in Hin as [->|?]; [|by left]. right. exists d. apply dget_dset_eq.
  - right. destruct (decide (e'.1.1 = e.1.1)) as [Heq|Hne].
    + rewrite Heq. exists d. apply dget_dset_eq.
    + exists d'. by rewrite dget_dset_ne.
Qed.

Lemma wp_finish outcome q s :
  a_state (obj s) = Active -> ewp (finish outcome q) (finished_as outcome q s) s.
Proof.
  intros Ha. unfold finish, require_active. repeat ewp_step.
  { apply negb_true_iff, bool_decide_eq_false in H. done. }
  eapply ewp_fold_loop with (I := finishing outcome q s).
  - simpl. split; [done|]. split; [done|]. exists []. rewrite app_nil_r. split; [done|].
    split; [done|]. intros e He. left. by apply elem_of_rev.
  - intros e l results [h o] (Hes & Hst & k & Hh & Hk & Hall); simpl in *.
    unfold collect, finish_handle. apply ewp_bind, ewp_perform. intros v Hv. simpl.
    assert (Hk' : (k ++ [HFinish (e_handle e) outcome q])
      ++ ((fun e => HFinish (e_handle e) outcome q) <$> l)
      = finishes outcome q (entries (obj s))) by (rewrite <- Hk; by rewrite <- app_assoc).
    destruct v as [[| | | | | |d]|ex|]; try apply ewp_throw; try apply ewp_ret; simpl;
      try (by eapply finishing_next); subst h; rewrite <- app_assoc;
      (apply wp_close_rest with outcome q;
        [done|done|rewrite <- Hk'; by apply prefix_app_r| |]); simpl;
      intros s' He' Hs'; try intros Hx; (split; [done|]); first [done|congruence|by split].
  - intros results [h o] (Hes & Hst & k & Hh & Hk & Hall); simpl in *; subst h.
    rewrite app_nil_r in Hk. subst k. repeat ewp_step. simpl. split; [done|]. split; [done|].
    split; [done|]. intros e He. destruct (Hall e He) as [Hin|?]; [|done].
    by apply elem_of_nil in Hin.
Qed.

(** Also: Finishing an active execution settles every handle: either each is
    finished once, in the reverse of the starting order, and its result is
    reported under its plugin's name, or an exception is raised and each is
    closed.  Either way the object is closed, and from then on no method but
    [status] calls a handle again. *)
Theorem finish_settles outcome q (s : st call active) :
  let '(r, s') := finish outcome q s in
  if bool_decide (a_state (obj s) = Active) then
    finished_as outcome q s r s' /\
    (a_state (obj s') = Closed ->
     assert_healthy s' = (Raised not_active, s') /\ agent_started s' = (Raised not_active, s') /\
     finish outcome q s' = (Raised not_active, s') /\ close_unverified s' = (Done (), s'))
  else r = Raised not_active /\ s' = s.
Proof.
  destruct (finish outcome q s) as [r s'] eqn:Ef.
  destruct (decide (a_state (obj s) = Active)) as [Ha|Hn].
  - rewrite bool_decide_eq_true_2 by done. split.
    + pose proof (wp_finish outcome q s Ha) as Hwp. unfold ewp in Hwp. by rewrite Ef in Hwp.
    + destruct s' as [h' [es' x']]; simpl. intros ->. done.
  - rewrite bool_decide_eq_false_2 by done. revert Ef.
    unfold finish, require_active, mbind, P_bind, read. simpl.
    rewrite bool_decide_eq_false_2 by done. simpl. by intros [= <- <-].
Qed.
(** ** Starting an execution *)

(** [h] was closed by the calls [k], if it can be. *)
Definition let_go (k : list call) (h : handle) : Prop :=
  callable h "close_unverified" = true -> HClose (h_id h) ∈ k.

(** What holds between two passes of the loop over the plugins. *)
Definition starting (h0 : list call) (s : st call (list entry)) : Prop :=
  exists k, hist s = h0 ++ k /\ obtained h0 k = snd <$> obj s.

Lemma close_entries_lets_go (es : list entry) h : h ∈ snd <$> es -> HClose (h_id h) ∈ closes es.
Proof.
  intros (e & -> & He)%list_elem_of_fmap. unfold closes. apply list_elem_of_fmap.
  exists e. split; [done|]. by apply elem_of_rev.
Qed.

(** A pass of the loop adds the handle it got to the entries, or fails after
    letting it go, or was interrupted while doing so. *)
Definition failed_start (h0 : list call) (r : reply unit) (s : st call (list entry)) : Prop :=
  exists k, hist s = h0 ++ k /\
    forall h, h ∈ obtained h0 k -> h ∈ snd <$> obj s \/ let_go k h \/
      (r = Interrupted /\ exists l h', h_close l h' = Interrupted).

Lemma failed_starting h0 r s : starting h0 s -> failed_start h0 r s.
Proof. intros (k & Hk & Ho). exists k. split; [done|]. intros h. rewrite Ho. by left. Qed.

Lemma wp_start_feature h0 ctx f s :
  starting h0 s ->
  ewp (start_feature ctx f) (fun r s' =>
    match r with Done _ => starting h0 s' | _ => failed_start h0 r s' end) s.
Proof.
  intros Hs. pose proof (fun r => failed_starting h0 r s Hs) as Hfail. unfold start_feature.
  destruct (f_start f) as [can_call|]; [|by apply ewp_ret].
  destruct (lifecycle_abi_of f) as [abi|]; [|by apply ewp_throw].
  destruct can_call; simpl; [|by apply ewp_throw].
  apply ewp_bind, ewp_perform. intros r Hr. simpl. destruct Hs as (k & Hk & Ho).
  assert (forall k', obtained h0 (k ++ CStart (f_id f) ctx :: k')
    = (snd <$> obj s) ++ match r with Done (Some h) => [h] | _ => [] end
      ++ obtained (hist s ++ [CStart (f_id f) ctx]) k') as Hobt.
  { intros k'. rewrite obtained_app, Ho. simpl. by rewrite <- Hk, Hr. }
  assert (hist s ++ [CStart (f_id f) ctx] = h0 ++ k ++ [CStart (f_id f) ctx]) as Hh
    by (by rewrite Hk, app_assoc).
  destruct r as [[h|]|e|]; cbv iota beta.
  2:{ apply ewp_throw. eexists. split; [done|]. intros h. rewrite Hobt, app_nil_r. by left. }
  2,3: eexists; (split; [done|]); intros h; rewrite Hobt, app_nil_r; by left.
  destruct (valid_handle abi h).
  { apply ewp_modify. eexists. split; [done|]. simpl. by rewrite Hobt, fmap_app. }
  apply ewp_bind. destruct (callable h "close_unverified") eqn:Ec.
  2:{ apply ewp_ret, ewp_throw. eexists. split; [done|]. intros h'. rewrite Hobt. simpl.
      rewrite elem_of_app, list_elem_of_singleton. intros [?| ->]; [by left|].
      right. left. unfold let_go. congruence. }
  apply ewp_suppress, ewp_perform. intros r Hr'. simpl.
  assert (forall x, failed_start h0 x
    (St ((hist s ++ [CStart (f_id f) ctx]) ++ [HClose (h_id h)]) (obj s))) as Hf.
  { intros x. exists (k ++ [CStart (f_id f) ctx; HClose (h_id h)]). split.
    { simpl. rewrite Hh, <- !app_assoc. done. }
    intros h'. rewrite Hobt. simpl. rewrite elem_of_app, list_elem_of_singleton.
    intros [?| ->]; [by left|]. right. left. intros _. set_solver. }
  destruct r as [[]|e|]; [apply ewp_throw, Hf|apply ewp_throw, Hf|apply Hf].
Qed.

Lemma wp_assert_healthy (Q : reply unit -> st call active -> Prop) s :
  a_state (obj s) = Active ->
  (forall r k, Forall (fun c => match c with HHealthy _ => True | _ => False end) k ->
     Q r (St (hist s ++ k) (obj s))) ->
  ewp assert_healthy Q s.
Proof.
  intros Ha HQ. unfold assert_healthy, require_active. repeat ewp_step.
  { by rewrite Ha in H. }
  eapply ewp_iterate with (I := fun _ s' => exists k, s' = St (hist s ++ k) (obj s) /\
    Forall (fun c => match c with HHealthy _ => True | _ => False end) k).
  - exists []. rewrite app_nil_r. by destruct s.
  - intros e l _ (k & -> & Hk). apply ewp_perform. intros r _. simpl. rewrite <- app_assoc.
    assert (Forall (fun c => match c with HHealthy _ => True | _ => False end)
      (k ++ [HHealthy (e_handle e)])) by (by apply Forall_app; split; [|constructor]).
    destruct r as [[]|ex|]; [by eauto|by apply HQ..].
  - intros _ (k & -> & Hk). by apply HQ.
Qed.

Lemma obtained_healthy l k :
  Forall (fun c => match c with HHealthy _ => True | _ => False end) k -> obtained l k = [].
Proof.
  intros H. revert l. induction H as [|c k Hc _ IH]; intros l; simpl; [done|].
  rewrite IH. by destruct c.
Qed.

(** What starting the loop over the plugins may end in, with the calls [k]. *)
Definition start_outcome (h0 : list call) (r : reply active) (k : list call) : Prop :=
  match r with
  | Done a => a_state a = Active /\ snd <$> entries a = obtained h0 k
  | Raised _ => forall h, h ∈ obtained h0 k -> let_go k h
  | Interrupted => (forall l h, h_close l h <> Interrupted) ->
      forall h, h ∈ obtained h0 k -> let_go k h
  end.

Definition close_started : X (list entry) unit := es ← read (fun es => es); close_entries es.

Lemma wp_close_started h0 r s :
  failed_start h0 r s ->
  ewp close_started (fun r' s2 => exists k, hist s2 = h0 ++ k /\
    match r' with
    | Done _ => forall h, h ∈ obtained h0 k -> let_go k h \/
        (r = Interrupted /\ exists l h', h_close l h' = Interrupted)
    | Raised _ => False
    | Interrupted => exists l h', h_close l h' = Interrupted
    end) s.
Proof.
  intros (k & Hk & Hall). apply ewp_bind, ewp_read, wp_close_entries.
  - exists (k ++ closes (obj s)). simpl. split; [by rewrite Hk, app_assoc|]. intros h.
    rewrite obtained_app, (obtained_closes _ (closes _)), app_nil_r by apply closes_is_close.
    intros [Hin|[Hg|?]]%Hall; [..|by right]; left; intros Hc; apply elem_of_app.
    + right. by apply close_entries_lets_go.
    + left. auto.
  - intros k' Hi _. exists (k ++ k'). simpl. split; [by rewrite Hk, app_assoc|done].
Qed.

(** The clean-up after a failure of the loop, and the exception that goes on. *)
Lemma wp_failed_loop h0 (r : reply active) s :
  match r with Done _ => False | _ => True end ->
  failed_start h0 match r with Interrupted => Interrupted | _ => Done () end s ->
  ewp close_started (fun r' s' =>
    match r' with
    | Done _ => exists k, hist s' = h0 ++ k /\ start_outcome h0 r k
    | Raised e => exists k, hist s' = h0 ++ k /\ start_outcome h0 (Raised e) k
    | Interrupted => exists k, hist s' = h0 ++ k /\ start_outcome h0 Interrupted k
    end) s.
Proof.
  intros Hr Hf. eapply ewp_mono; [by eapply wp_close_started|].
  intros [[]|e|] s' (k & Hk & Hall); [|done|].
  - exists k. split; [done|]. destruct r as [a|e|]; simpl; [done|..].
    + intros h [?|[? _]]%Hall; [done|discriminate].
    + intros Hno h [?|[_ (l & h' & Hi)]]%Hall; [done|by apply Hno in Hi].
  - exists k. split; [done|]. intros Hno. destruct Hall as (l & h' & Hi). by apply Hno in Hi.
Qed.

Lemma wp_start_loop h0 ctx fs s :
  hist s = h0 -> obj s = [] ->
  ewp (start_loop ctx fs) (fun r s' => exists k, hist s' = h0 ++ k /\ start_outcome h0 r k) s.
Proof.
  intros Hh Ho. unfold start_loop. apply ewp_unwinding, ewp_bind.
  eapply ewp_iterate with (I := fun _ s1 => starting h0 s1).
  - exists []. rewrite app_nil_r, Ho. done.
  - intros f l s1 Hs1. eapply ewp_mono; [by apply wp_start_feature|].
    intros [[]|e|] s2 H; [done|..].
    + apply (wp_failed_loop h0 (Raised e)); [done|]. destruct H as (k & Hk & Hall).
      exists k. split; [done|]. intros h [?|[?|[? _]]]%Hall; [by left|by right; left|done].
    + by apply (wp_failed_loop h0 Interrupted).
  - intros s1 (k & Hk & Hobt). apply ewp_bind, ewp_read, ewp_bind, ewp_on_object.
    apply wp_assert_healthy; [done|]. intros r k' Hk'. simpl.
    assert (forall x, failed_start h0 x (St (hist s1 ++ k') (obj s1))) as Hf.
    { intros x. apply failed_starting. exists (k ++ k'). simpl. rewrite Hk, app_assoc.
      split; [done|]. by rewrite obtained_app, (obtained_healthy _ k'), app_nil_r. }
    destruct r as [[]|e|]; simpl.
    + apply ewp_ret. exists (k ++ k'). simpl. rewrite Hk, app_assoc. split; [done|].
      split; [done|]. by rewrite obtained_app, (obtained_healthy _ k'), app_nil_r.
    + by apply (wp_failed_loop h0 (Raised e)).
    + by apply (wp_failed_loop h0 Interrupted).
Qed.

(** C36: Starting the plugins for an execution is all or nothing: either every
    handle that a plugin returned is owned by the active object, or an
    exception is raised and every handle has been closed.  The manager itself
    does not change. *)
Theorem start_all_or_nothing ctx (s : st call manager) :
  let '(r, s') := start_execution ctx s in
  obj s' = obj s /\ exists k, hist s' = hist s ++ k /\
  match r with
  | Done a => a_state a = Active /\ snd <$> entries a = obtained (hist s) k
  | Raised _ => forall h, h ∈ obtained (hist s) k -> let_go k h
  | Interrupted => (forall l h, h_close l h <> Interrupted) ->
      forall h, h ∈ obtained (hist s) k -> let_go k h
  end.
Proof.
  pose proof (wp_start_loop (hist s) ctx (features (obj s)) (St (hist s) []) eq_refl eq_refl) as H.
  unfold ewp in H. unfold start_execution, mbind, P_bind, read, on_object. simpl.
  destruct (start_loop ctx (features (obj s)) (St (hist s) [])) as [[a|e|] s1]; simpl in *;
    (split; [done|exact H]).
Qed.
(** ** Activating the plugins *)

Definition valid_prefix (prefix : string) : bool :=
  negb (str_eqb prefix EmptyString) && ends_with_char "." prefix.

(** The routes of a manager: one plugin per prefix, which it declares. *)
Record routed (m : manager) : Prop := Routed {
  routed_unique : NoDup (fst <$> routes m);
  routed_declared : forall p f, (p, f) ∈ routes m ->
    f ∈ features m /\ p ∈ f_rpc_prefixes f /\ valid_prefix p = true }.

(** The state of the constructor's loop. *)
Definition activating (h0 : list call) (s : st call manager) : Prop :=
  exists k, hist s = h0 ++ k /\ constructed h0 k = features (obj s) /\ routed (obj s).

Lemma has_route_false p m : has_route p m = false -> p ∉ fst <$> routes m.
Proof.
  intros H (r & -> & Hr)%list_elem_of_fmap. revert H. apply not_false_iff_true.
  apply existsb_exists. exists r. rewrite <- list_elem_of_In. split; [done|apply str_eqb_refl].
Qed.

Lemma wp_add_route h0 name f prefix (Q : reply unit -> st call manager -> Prop) s :
  activating h0 s -> f ∈ features (obj s) -> prefix ∈ f_rpc_prefixes f ->
  (forall s', activating h0 s' -> features (obj s') = features (obj s) ->
     hist s' = hist s -> (prefix, f) ∈ routes (obj s') -> routes (obj s) ⊆ routes (obj s') ->
     Q (Done ()) s') ->
  (forall e, Q (Raised e) s) ->
  ewp (add_route name f prefix) Q s.
Proof.
  intros (k & Hk & Hc & [Hu Hd]) Hf Hp HD HR. unfold add_route. repeat ewp_step; [auto|auto|].
  apply orb_false_iff in H as [H1 H2]. apply has_route_false in H0.
  apply HD; simpl; [|done|done|set_solver|set_solver].
  exists k. split; [done|]. split; [done|]. split; simpl.
  - rewrite fmap_app. apply NoDup_app. split; [done|]. split; [set_solver|apply NoDup_singleton].
  - intros p g [?|[= -> ->]%list_elem_of_singleton]%elem_of_app; [by apply Hd|].
    split; [done|]. split; [done|]. unfold valid_prefix. rewrite H1. simpl.
    by apply negb_false_iff in H2.
Qed.

(** Every plugin of the manager routes all the prefixes it declares. *)
Definition all_routed (m : manager) : Prop :=
  forall f p, f ∈ features m -> p ∈ f_rpc_prefixes f -> (p, f) ∈ routes m.

Lemma wp_add_routes h0 name f s :
  activating h0 s -> f ∈ features (obj s) ->
  ewp (iterate (add_route name f) (f_rpc_prefixes f)) (fun r s' =>
    activating h0 s' /\ features (obj s') = features (obj s) /\
    match r with
    | Done _ => routes (obj s) ⊆ routes (obj s') /\
        forall p, p ∈ f_rpc_prefixes f -> (p, f) ∈ routes (obj s')
    | _ => True
    end) s.
Proof.
  intros Hs Hf.
  eapply ewp_iterate with (I := fun l s' => activating h0 s' /\
    features (obj s') = features (obj s) /\ routes (obj s) ⊆ routes (obj s') /\
    exists done_, f_rpc_prefixes f = done_ ++ l /\
      forall p, p ∈ done_ -> (p, f) ∈ routes (obj s')).
  - split; [done|]. split; [done|]. split; [done|]. exists []. split; [done|]. set_solver.
  - intros p l s' (Ha & Hfe & Hsub & d & Hd & Hall). apply (wp_add_route h0); [done|..].
    + by rewrite Hfe.
    + rewrite Hd. set_solver.
    + intros s'' Ha' Hf' _ Hr Hsub'. split; [done|]. split; [by rewrite Hf'|].
      split; [set_solver|]. exists (d ++ [p]). split; [by rewrite Hd, <- app_assoc|].
      intros p' [?| ->%list_elem_of_singleton]%elem_of_app; [|done]. apply Hsub'. auto.
    + intros e. by split.
  - intros s' (Ha & Hfe & Hsub & d & Hd & Hall). rewrite app_nil_r in Hd. rewrite Hd. done.
Qed.

Lemma wp_activate h0 factories spec s :
  activating h0 s -> all_routed (obj s) ->
  ewp (activate factories spec) (fun r s' => activating h0 s' /\
    match r with
    | Done _ => all_routed (obj s') /\ names (obj s') = names (obj s) ++ [spec.1]
    | _ => True
    end) s.
Proof.
  intros Hs Hall. destruct spec as [name configuration]. unfold activate. apply ewp_bind.
  assert (ewp (if existsb (str_eqb name) factories then mret ()
              else _installed_feature_factory name)
    (fun r s' => activating h0 s' /\ obj s' = obj s) s) as Hload.
  { destruct (existsb _ _); [by apply ewp_ret|]. unfold _installed_feature_factory.
    destruct (List.filter _ _) as [|x [|y l]]; [by apply ewp_throw| |by apply ewp_throw].
    apply ewp_perform. intros r _. split; [|done]. destruct Hs as (k & Hk & Hc & Hr).
    exists (k ++ [CLoad name]). simpl. rewrite Hk, app_assoc, constructed_app.
    simpl. by rewrite app_nil_r. }
  eapply ewp_mono; [exact Hload|]. intros r s1 [(k & Hk & Hc & Hr) Ho].
  destruct r as [[]|e|]; [|by split; [exists k|]..].
  apply ewp_bind, ewp_perform. intros r Hf. simpl.
  assert (forall m, constructed h0 (k ++ [CFactory name configuration]) = features m -> routed m ->
    activating h0 (St (hist s1 ++ [CFactory name configuration]) m)) as Hact.
  { intros m Hm Hr'. exists (k ++ [CFactory name configuration]). simpl. by rewrite Hk, app_assoc. }
  rewrite constructed_app in Hact. simpl in Hact. rewrite <- Hk, Hf, Hc, app_nil_r in Hact.
  destruct r as [f|e|]; [|split; [apply Hact; [by rewrite app_nil_r|done]|done]..].
  apply ewp_bind, ewp_modify. simpl.
  set (m1 := Manager (features (obj s1) ++ [f]) (routes (obj s1))).
  assert (activating h0 (St (hist s1 ++ [CFactory name configuration]) m1)) as Hm1.
  { apply Hact; [done|]. destruct Hr as [Hu Hd]. split; [done|]. intros p g Hp. simpl.
    destruct (Hd p g Hp) as (? & ? & ?). set_solver. }
  apply ewp_bind, ewp_lift. destruct (check_feature name f) as [[]|e] eqn:Hck; [|done].
  eapply ewp_mono; [apply (wp_add_routes h0); [done|set_solver]|].
  intros r s2 (Ha2 & Hf2 & H2). split; [done|]. destruct r as [[]|e|]; [|done..].
  destruct H2 as [Hsub Hdec]. simpl in *. split.
  - intros g p. rewrite Hf2, elem_of_app, list_elem_of_singleton. intros [Hg| ->] Hp.
    + apply Hsub. rewrite Ho in *. by apply Hall.
    + by apply Hdec.
  - unfold names. rewrite Hf2, fmap_app, Ho. simpl. unfold check_feature in Hck. ok_inv.
    apply negb_false_iff, str_eqb_eq in H. by rewrite H.
Qed.
Definition closed_in (k : list call) (f : feature) : Prop := CClose (f_id f) ∈ k.

Definition feature_closes (fs : list feature) : list call := CClose ∘ f_id <$> rev fs.

Lemma wp_close (Q : reply unit -> st call manager -> Prop) s :
  Q (Done ()) (St (hist s ++ feature_closes (features (obj s))) no_features) ->
  (forall k m, (exists l f, p_close l f = Interrupted) ->
     Forall (fun c => is_close c = true) k -> Q Interrupted (St (hist s ++ k) m)) ->
  ewp close Q s.
Proof.
  intros HD HI. unfold close. apply ewp_bind, ewp_read, ewp_bind.
  eapply ewp_iterate with (I := fun l s' => exists k, hist s' = hist s ++ k /\
    Forall (fun c => is_close c = true) k /\
    k ++ (CClose ∘ f_id <$> l) = feature_closes (features (obj s))).
  - exists []. by rewrite app_nil_r.
  - intros f l [h o] (k & ? & Hall & Hk); simpl in *; subst.
    apply ewp_suppress, ewp_perform. intros r Hr. simpl in *.
    assert (Forall (fun c => is_close c = true) (k ++ [CClose (f_id f)])) as Hall'
      by (apply Forall_app; split; [done|by constructor]).
    destruct r as [[]|ex|]; simpl.
    1,2: exists (k ++ [CClose (f_id f)]); by rewrite <- Hk, <- !app_assoc.
    rewrite <- app_assoc. apply HI; [by eauto|done].
  - intros [h o] (k & ? & _ & Hk); simpl in *; subst. rewrite app_nil_r in Hk. subst k.
    by apply ewp_modify.
Qed.

(** How the constructor ends, given the history [h] before it. *)
Definition activation_outcome (specifications : list (string * dict)) (h : list call)
    (r : reply unit) (s' : st call manager) : Prop :=
  exists k, hist s' = h ++ k /\
  match r with
  | Done _ => features (obj s') = constructed h k /\ names (obj s') = fst <$> specifications /\
      routed (obj s') /\ all_routed (obj s')
  | Raised _ => obj s' = no_features /\ forall f, f ∈ constructed h k -> closed_in k f
  | Interrupted => (forall l f, p_close l f <> Interrupted) ->
      obj s' = no_features /\ forall f, f ∈ constructed h k -> closed_in k f
  end.

(** The clean-up of a failed constructor. *)
Lemma wp_failed_activation specifications h r s :
  activating h s -> r <> Done () ->
  ewp close (fun r' s2 =>
    match r' with
    | Done _ => activation_outcome specifications h r s2
    | Raised e => activation_outcome specifications h (Raised e) s2
    | Interrupted => activation_outcome specifications h Interrupted s2
    end) s.
Proof.
  intros (k & Hk & Hc & _) Hr. apply wp_close.
  - assert (forall f, f ∈ constructed h (k ++ feature_closes (features (obj s))) ->
      closed_in (k ++ feature_closes (features (obj s))) f) as Hall.
    { intros f. rewrite constructed_app, (constructed_closes _ (feature_closes _)), app_nil_r, Hc.
      - intros Hf. apply elem_of_app. right. unfold feature_closes.
        apply list_elem_of_fmap. exists f. split; [done|]. by apply elem_of_rev.
      - by apply Forall_fmap, Forall_true. }
    exists (k ++ feature_closes (features (obj s))). simpl. rewrite Hk, app_assoc.
    split; [done|]. by destruct r as [[]|e|].
  - intros k' m (l & f & Hi) _. exists (k ++ k'). simpl. rewrite Hk, app_assoc.
    split; [done|]. intros Hno. by apply Hno in Hi.
Qed.

Lemma wp_new_manager factories specifications h :
  ewp (new_manager factories specifications) (activation_outcome specifications h)
    (St h no_features).
Proof.
  unfold new_manager. apply ewp_unwinding.
  eapply ewp_iterate with (I := fun l s' => activating h s' /\ all_routed (obj s') /\
    names (obj s') ++ (fst <$> l) = fst <$> specifications).
  - split; [|by split; [intros f p Hf%elem_of_nil|]]. exists []. rewrite app_nil_r. split; [done|].
    split; [done|]. split; [constructor|]. intros p f Hp%elem_of_nil. done.
  - intros spec l s1 (Ha & Hr & Hn). eapply ewp_mono; [by apply wp_activate|].
    intros [[]|e|] s2 (Ha2 & H2).
    + destruct H2 as [Hr2 Hn2]. split; [done|]. split; [done|]. by rewrite Hn2, <- app_assoc.
    + by apply (wp_failed_activation specifications h (Raised e)).
    + by apply (wp_failed_activation specifications h Interrupted).
  - intros s1 ((k & Hk & Hc & Hr) & Hall & Hn). rewrite app_nil_r in Hn.
    exists k. by rewrite Hc.
Qed.

(** Also: Activating the enabled plugins is all or nothing.  On success the
    manager owns exactly the plugins that were constructed, one for each
    enabled name and in that order, and every RPC prefix belongs to the one
    plugin that declares it.  On an exception the manager is empty and every
    plugin that was constructed has been closed. *)
Theorem manager_all_or_nothing factories specifications h :
  let '(r, s') := new_manager factories specifications (St h no_features) in
  exists k, hist s' = h ++ k /\
  match r with
  | Done _ => features (obj s') = constructed h k /\ names (obj s') = fst <$> specifications /\
      routed (obj s') /\ all_routed (obj s')
  | Raised _ => obj s' = no_features /\ forall f, f ∈ constructed h k -> closed_in k f
  | Interrupted => (forall l f, p_close l f <> Interrupted) ->
      obj s' = no_features /\ forall f, f ∈ constructed h k -> closed_in k f
  end.
Proof.
  pose proof (wp_new_manager factories specifications h) as H. unfold ewp in H.
  by destruct (new_manager _ _ _).
Qed.

Lemma manager_routes factories specifications h s :
  new_manager factories specifications (St h no_features) = (Done (), s) ->
  routed (obj s) /\ all_routed (obj s).
Proof.
  intros E. pose proof (wp_new_manager factories specifications h) as H. unfold ewp in H.
  rewrite E in H. by destruct H as (k & _ & _ & _ & H).
Qed.

(** Also: A manager that was activated sends a request to exactly one plugin,
    one of its own that declares a prefix of the action, and says beforehand
    whether it will; any other request is refused without calling a plugin. *)
Theorem requests_routed factories specifications h s action params :
  new_manager factories specifications (St h no_features) = (Done (), s) ->
  let '(r, s') := dispatch action params s in
  if handles action (obj s) then
    exists f p, f ∈ features (obj s) /\ p ∈ f_rpc_prefixes f /\ starts_with p action = true /\
      s' = St (hist s ++ [CDispatch (f_id f) action params]) (obj s) /\
      r = p_dispatch (hist s) (f_id f) action params
  else
    (forall f p, f ∈ features (obj s) -> p ∈ f_rpc_prefixes f -> starts_with p action = false) /\
    s' = s /\ r = Raised (WorkspaceError ("unknown action: " +:+ action)).
Proof.
  intros [[_ Hdecl] Hall]%manager_routes.
  unfold dispatch, mbind, P_bind, read, route_of, handles. simpl.
  destruct (List.find _ (routes (obj s))) as [[p f]|] eqn:Ef.
  - apply find_some in Ef as [Hin Hp]. simpl in Hp.
    assert (existsb (fun r => starts_with r.1 action) (routes (obj s)) = true) as ->
      by (apply existsb_exists; by exists (p, f)).
    destruct (Hdecl p f) as (? & ? & _); [by apply list_elem_of_In|]. by exists f, p.
  - destruct (existsb _ _) eqn:Ee.
    + apply existsb_exists in Ee as (r & Hin & Hr). by rewrite (find_none _ _ Ef r Hin) in Hr.
    + split; [|done]. intros f p Hf Hp. pose proof (Hall f p Hf Hp) as Hin.
      apply list_elem_of_In in Hin. by apply (find_none _ _ Ef) in Hin.
Qed.

(** ** What the plugins contribute *)

(** Merging keeps what was there and adds what comes, or fails. *)
Lemma merge_strings conflict d items d' :
  merge conflict d (pairs items) = Ok d' ->
  forall k v, dget k d' = Some v <-> dget k d = Some v \/ (k, v) ∈ pairs items.
Proof.
  revert d. induction items as [|[k0 v0] items IH]; intros d; simpl.
  { intros [= ->] k v. split; [by left|by intros [?|?%elem_of_nil]]. }
  intros H. apply result_bind_Ok in H as (d1 & Hitem & H). specialize (IH d1 H).
  unfold merge_item in Hitem. simpl in Hitem. ok_inv.
  intros k v. rewrite IH, elem_of_cons, dget_dset.
  destruct (str_eqb k k0) eqn:Ek; [apply str_eqb_eq in Ek as ->|apply str_eqb_neq in Ek].
  - destruct (dget k0 d) as [w|] eqn:Ew.
    + apply negb_false_iff, py_eqb_str_r in H0. subst w. split.
      * intros [[= <-]|?]; [by left|by right; right].
      * intros [[= <-]|[[= <-]|?]]; [by left|by left|by right].
    + split; [intros [[= <-]|?]; [by right; left|by right; right]|].
      intros [[=]|[[= <-]|?]]; [by left|by right].
  - split; [intros [?|?]; [by left|by right; right]|].
    intros [?|[[= -> ->]|?]]; [by left|done|by right].
Qed.

Lemma merge_keys conflict d items d' :
  merge conflict d items = Ok d' -> forall k, k ∈ dkeys d' <-> k ∈ dkeys d \/ k ∈ dkeys items.
Proof.
  revert d. induction items as [|[k0 v0] items IH]; intros d; simpl.
  { intros [= ->] k. split; [by left|by intros [?|?%elem_of_nil]]. }
  intros H. apply result_bind_Ok in H as (d1 & Hitem & H). specialize (IH d1 H).
  unfold merge_item in Hitem. simpl in Hitem. ok_inv. intros k. rewrite IH.
  assert (k ∈ dkeys (dset k0 v0 d) <-> k = k0 \/ k ∈ dkeys d) as ->.
  { rewrite dkeys_dset. destruct (dhas k0 d) eqn:E; [|set_solver]. apply dhas_elem in E. set_solver. }
  rewrite elem_of_cons. tauto.
Qed.

Lemma merge_mounts_spec ms more out :
  NoDup (m_target <$> ms) -> merge_mounts ms more = Ok out ->
  out = ms ++ more /\ NoDup (m_target <$> out).
Proof.
  revert ms. induction more as [|m more IH]; intros ms Hms; simpl.
  { intros [= <-]. by rewrite app_nil_r. }
  intros H. ok_inv. apply IH in H0 as [-> Hn].
  - by rewrite <- app_assoc in *.
  - rewrite fmap_app. apply NoDup_app. split; [done|]. split; [|apply NoDup_singleton].
    intros t Hx ->%list_elem_of_singleton. apply list_elem_of_fmap in Hx as (n & Hn & Hin).
    rewrite <- not_true_iff_false, existsb_exists in H. apply H. exists n.
    rewrite <- list_elem_of_In, str_eqb_eq. done.
Qed.
(** The contribution each plugin was asked for, in order. *)
Fixpoint contributed (l k : list call) : list contribution :=
  match k with
  | [] => []
  | c :: k =>
      match c with
      | CPrepare f a s => match p_prepare l f a s with Done x => [x] | _ => [] end
      | _ => []
      end ++ contributed (l ++ [c]) k
  end.

Lemma contributed_app l k1 k2 :
  contributed l (k1 ++ k2) = contributed l k1 ++ contributed (l ++ k1) k2.
Proof.
  revert l. induction k1 as [|c k1 IH]; intros l; simpl; [by rewrite app_nil_r|].
  by rewrite IH, <- !app_assoc.
Qed.

(** [acc] is the union of the contributions [cs], which agree. *)
Record merges (cs : list contribution) (acc : merged) : Prop := Merges {
  merges_prefixes : prefixes acc = concat (c_argv_prefix <$> cs);
  merges_environment : forall k v, dget k (environment acc) = Some v <->
    exists c, c ∈ cs /\ (k, v) ∈ pairs (c_environment c);
  merges_mounts : mounts acc = concat (c_mounts <$> cs);
  merges_targets : NoDup (m_target <$> mounts acc);
  merges_metadata : forall k, k ∈ dkeys (metadata acc) <->
    exists c, c ∈ cs /\ k ∈ dkeys (c_metadata c) }.

Lemma merge_contribution_merges cs acc c acc' :
  merges cs acc -> merge_contribution acc c = Ok acc' -> merges (cs ++ [c]) acc'.
Proof.
  intros [Hp He Hm Ht Hd] H. unfold merge_contribution in H. ok_inv.
  pose proof (merge_strings _ _ _ _ H) as Henv. pose proof (merge_keys _ _ _ _ H1) as Hkeys.
  apply merge_mounts_spec in H0 as [-> Hn]; [|done].
  assert (forall P : contribution -> Prop,
    (exists c', c' ∈ cs ++ [c] /\ P c') <-> (exists c', c' ∈ cs /\ P c') \/ P c) as Hsnoc.
  { intros P. setoid_rewrite elem_of_app. setoid_rewrite list_elem_of_singleton. naive_solver. }
  split; simpl.
  - rewrite Hp, fmap_app, concat_app. simpl. by rewrite app_nil_r.
  - intros k v. by rewrite Henv, He, Hsnoc.
  - rewrite Hm, fmap_app, concat_app. simpl. by rewrite app_nil_r.
  - done.
  - intros k. by rewrite Hkeys, Hd, Hsnoc.
Qed.

(** Also: What an execution gets from the plugins is the union of what each of
    them contributes, in their order: all command prefixes, mounts with
    pairwise distinct targets, and an environment in which a variable has a
    value exactly when a plugin gave it that value, so that plugins which
    disagree are refused. *)
Theorem prepare_execution_merges agent_id session_id (s : st call manager) :
  let '(r, s') := prepare_execution agent_id session_id s in
  obj s' = obj s /\ exists k, hist s' = hist s ++ k /\
  match r with
  | Done acc => length (contributed (hist s) k) = length (features (obj s)) /\
      merges (contributed (hist s) k) acc
  | _ => True
  end.
Proof.
  assert (ewp (prepare_execution agent_id session_id) (fun r s' =>
    obj s' = obj s /\ exists k, hist s' = hist s ++ k /\
    match r with
    | Done acc => length (contributed (hist s) k) = length (features (obj s)) /\
        merges (contributed (hist s) k) acc
    | _ => True
    end) s) as H; [|unfold ewp in H; by destruct (prepare_execution _ _ _)].
  unfold prepare_execution. apply ewp_bind, ewp_read.
  eapply ewp_fold_loop with (I := fun l acc s' => obj s' = obj s /\ exists k,
    hist s' = hist s ++ k /\ merges (contributed (hist s) k) acc /\
    (length (contributed (hist s) k) + length l = length (features (obj s)))%nat).
  - split; [done|]. exists []. rewrite app_nil_r. split; [done|]. split; [|done].
    split; simpl; [done| |done|constructor|].
    + intros k v. split; [done|]. by intros (c & ?%elem_of_nil & _).
    + intros k. split; [by intros ?%elem_of_nil|]. by intros (c & ?%elem_of_nil & _).
  - intros f l acc [h o] (Ho & k & Hk & Hm & Hl); simpl in *; subst.
    apply ewp_bind, ewp_perform. intros r Hr. simpl in *.
    assert (contributed (hist s) (k ++ [CPrepare (f_id f) agent_id session_id])
      = contributed (hist s) k ++ match r with Done c => [c] | _ => [] end) as Hcon.
    { rewrite contributed_app. simpl. by rewrite Hr, app_nil_r. }
    destruct r as [c|e|].
    2,3: split; [done|]; eexists; rewrite <- app_assoc; by split.
    apply ewp_lift. destruct (merge_contribution acc c) as [acc'|e] eqn:Em.
    2: split; [done|]; eexists; rewrite <- app_assoc; by split.
    split; [done|]. eexists. rewrite <- app_assoc. split; [done|]. rewrite Hcon. split.
    + by eapply merge_contribution_merges.
    + rewrite length_app. simpl. lia.
  - intros acc s' (Ho & k & Hk & Hm & Hl). simpl in Hl. split; [done|]. exists k.
    split; [done|]. split; [lia|done].
Qed.
End extensions.

(** ** A concrete plugin *)

Definition demo_feature : feature :=
  Feature 0 "session-share" (PInt 1) ["share."] (PInt 2) (Some true) false false false false.

(** One plugin, [session-share], whose callbacks all succeed. *)
Definition demo_plugins : Plugins := {|
  installed := ["session-share"];
  p_load _ _ := Done ();
  p_factory _ _ _ := Done demo_feature;
  p_prepare _ _ _ _ := Done (ExecutionContribution ["env"] [("A", "1")] [] []);
  p_run_environment _ _ _ _ _ _ := Done (PDict []);
  p_start _ _ _ := Done (Some (Handle 7 (required_methods 2)));
  p_dispatch _ _ _ _ := Done PNone;
  p_started _ _ _ := Done ();
  p_finished _ _ _ := Done ();
  p_close _ _ := Done ();
  h_status _ _ := Done (PDict []);
  h_healthy _ _ := Done ();
  h_started _ _ := Done ();
  h_finish _ _ _ _ := Done (PDict []);
  h_close _ _ := Done () |}.

Definition demo_manager : st call manager :=
  (@new_manager demo_plugins [] [("session-share", [])] (St [] no_features)).2.

Lemma requests_routed_witness :
  let '(r, s') := @dispatch demo_plugins "share.list" [] demo_manager in
  exists f p, f ∈ features (obj demo_manager) /\ p ∈ f_rpc_prefixes f /\
    starts_with p "share.list" = true /\
    s' = St (hist demo_manager ++ [CDispatch (f_id f) "share.list" []]) (obj demo_manager) /\
    r = @p_dispatch demo_plugins (hist demo_manager) (f_id f) "share.list" [].
Proof.
  exact (@requests_routed demo_plugins [] [("session-share", [])] [] demo_manager "share.list" []
    ltac:(vm_compute; reflexivity)).
Defined.

(** An execution is started and finished. *)
Example start_and_finish :
  let '(a, s) := @start_execution demo_plugins
    (ExecutionStartContext "a" "s" "r" 1 2 "/c" "/c" 3 4 5 "/d" "b" [] None) demo_manager in
  match a with
  | Done a => (@finish demo_plugins "completed" (ExecutionQuiescence "/c" 3) (St (hist s) a)).1
      = Done [("session-share", PDict [])]
  | _ => False
  end.
Proof. vm_compute. reflexivity. Qed.
