(* ===== verification/Config.v ===== *)
(** * Configuration and start of the daemon

    The rest of [src/src/allox/workspace/daemon.py]: the command line, the
    system-effects configuration it describes, the construction of
    [WorkspaceService] with its process service and plugins, and the checks of
    [main] before it serves.  [argparse] is a library: the options are a
    table, and the parsed arguments a dictionary of their values, paths being
    their strings. *)

From Stdlib Require Import Ascii.
From Stdlib Require String.
From Stdlib Require Import SpecFloat.
From stdpp Require Import gmap.
From S2P Require Import Prelude Paths Effects PyVal Extensions ExtensionsSpec.
Open Scope Z_scope.

(** ** The command line *)

Inductive option_kind := OString | OPath | OInt | OFloat | OFlag | OChoice (choices : list string).

Record cli_option := CliOption {
  o_name : string; o_kind : option_kind; o_required : bool; o_default : pyval }.

Definition opt (name : string) (kind : option_kind) (default : pyval) : cli_option :=
  CliOption name kind false default.

(** The options that [build_parser] declares, by the attribute they set. *)
Definition build_parser : list cli_option :=
  [CliOption "root" OString true PNone;
   opt "listen" OString (PStr "127.0.0.1:8092");
   opt "token" OString (PStr EmptyString);
   opt "monitor_root" OPath PNone;
   opt "monitor_socket_root" OPath (PStr "/dev/shm/allox-monitor");
   opt "process_tracking" OString (PStr "disabled");
   opt "process_audit_root" OPath PNone;
   opt "process_tracker_command" OString (PStr "/usr/libexec/allox/allox-process-tracker");
   opt "process_cgroup_root" OPath (PStr "/sys/fs/cgroup/allox");
   opt "kill_session_processes_on_rollback" OFlag (PBool false);
   opt "share_tools" OFlag (PBool false);
   opt "share_socket_root" OPath (PStr "/run/allox-share");
   opt "session_network" (OChoice ["disabled"; "inherit"; "isolated"; "proxy"]) (PStr "disabled");
   opt "network_root" OPath (PStr "/run/allox-network");
   opt "network_socket_root" OPath (PStr "/dev/shm/allox-network");
   opt "system_effects_observer" OPath PNone;
   opt "system_effects_verifier" OPath PNone;
   opt "system_effects_recovery_verifier" OPath PNone;
   opt "system_effects_recovery_helper" OPath PNone;
   opt "system_effects_recovery_helper_sha256" OString PNone;
   opt "system_effects_recovery_timeout_ms" OInt PNone;
   opt "system_effects_recovery_max_output_bytes" OInt PNone;
   opt "system_effects_recorder_object" OPath PNone;
   opt "system_effects_recorder_sha256" OString PNone;
   opt "system_effects_lifecycle_object" OPath PNone;
   opt "system_effects_lifecycle_sha256" OString PNone;
   opt "system_effects_profile" (OChoice ["control"; "balanced"; "full"]) PNone;
   opt "system_effects_object_resolution"
     (OChoice ["USER_INPUT"; "KERNEL_FILE_OPEN_PARTIAL"; "KERNEL_FILE_OPEN_WRITE_PARTIAL";
               "KERNEL_OBJECT_EXPANDED_PARTIAL"]) PNone;
   opt "system_effects_bpf_scope" OPath PNone;
   opt "system_effects_filesystem_scope" OPath PNone;
   opt "system_effects_linux_scope" OPath PNone;
   opt "system_effects_poll_interval_ms" OInt PNone;
   opt "system_effects_drain_timeout_ms" OInt PNone;
   opt "system_effects_ready_timeout" OFloat PNone;
   opt "system_effects_finalize_timeout" OFloat PNone;
   opt "system_effects_host_lock" OPath PNone].

(** The arguments when only the required options are given. *)
Definition default_args (root : string) : dict :=
  (fun o => (o_name o, if o_required o then PStr root else o_default o)) <$> build_parser.

(** ** The system-effects configuration *)

Definition required_effects : list (string * string) :=
  [("observer_path", "system_effects_observer");
   ("recorder_object_path", "system_effects_recorder_object");
   ("recorder_object_sha256", "system_effects_recorder_sha256");
   ("lifecycle_object_path", "system_effects_lifecycle_object");
   ("lifecycle_object_sha256", "system_effects_lifecycle_sha256")].

Definition optional_effects : list string :=
  ["system_effects_verifier"; "system_effects_recovery_verifier";
   "system_effects_recovery_helper"; "system_effects_recovery_helper_sha256";
   "system_effects_recovery_timeout_ms"; "system_effects_recovery_max_output_bytes";
   "system_effects_bpf_scope"; "system_effects_filesystem_scope"; "system_effects_linux_scope";
   "system_effects_profile"; "system_effects_object_resolution";
   "system_effects_poll_interval_ms"; "system_effects_drain_timeout_ms";
   "system_effects_ready_timeout"; "system_effects_finalize_timeout";
   "system_effects_host_lock"].

Definition is_given (args : dict) (name : string) : bool := negb (is_none (dgetn name args)).

(** [value if value is not None else default] *)
Definition given_or (args : dict) (name : string) (default : pyval) : pyval :=
  if is_given args name then dgetn name args else default.

(** [value or default] *)
Definition truthy_or (args : dict) (name : string) (default : pyval) : pyval :=
  if py_truthy (dgetn name args) then dgetn name args else default.

Definition sibling (observer name : string) : result pyval :=
  p ← path_with_name (parse_path observer) name; Ok (PStr (path_str p)).

Definition effects_verifier (args : dict) (observer : string) : result pyval :=
  if py_truthy (dgetn "system_effects_verifier" args)
  then Ok (dgetn "system_effects_verifier" args)
  else sibling observer "deployment-observe-verify".

Definition effects_recovery_verifier (args : dict) (observer : string) : result pyval :=
  if is_given args "system_effects_recovery_helper" then
    if py_truthy (dgetn "system_effects_recovery_verifier" args)
    then Ok (dgetn "system_effects_recovery_verifier" args)
    else sibling observer "deployment-observe-recovery-verify"
  else Ok PNone.

Definition float_30 : pyval := PFloat (S754_finite false 8444249301319680 (-48)).
Definition float_60 : pyval := PFloat (S754_finite false 8444249301319680 (-47)).

Definition effects_dict (args : dict) (verifier recovery_verifier : pyval) : dict :=
  ((fun kv => (kv.1, dgetn kv.2 args)) <$> required_effects) ++
  [("verifier_path", verifier);
   ("recovery_verifier_path", recovery_verifier);
   ("recovery_helper_path", dgetn "system_effects_recovery_helper" args);
   ("recovery_helper_sha256", dgetn "system_effects_recovery_helper_sha256" args);
   ("recovery_timeout_ms", given_or args "system_effects_recovery_timeout_ms" (PInt 120000));
   ("recovery_max_output_bytes",
     given_or args "system_effects_recovery_max_output_bytes" (PInt 65536));
   ("profile", truthy_or args "system_effects_profile" (PStr "balanced"));
   ("object_resolution_mode",
     truthy_or args "system_effects_object_resolution" (PStr "KERNEL_OBJECT_EXPANDED_PARTIAL"));
   ("bpf_state_scope_file", truthy_or args "system_effects_bpf_scope" PNone);
   ("filesystem_state_scope_file", truthy_or args "system_effects_filesystem_scope" PNone);
   ("linux_state_scope_file", truthy_or args "system_effects_linux_scope" PNone);
   ("poll_interval_ms", given_or args "system_effects_poll_interval_ms" (PInt 20));
   ("drain_timeout_ms", given_or args "system_effects_drain_timeout_ms" (PInt 5000));
   ("ready_timeout", given_or args "system_effects_ready_timeout" float_30);
   ("finalize_timeout", given_or args "system_effects_finalize_timeout" float_60);
   ("host_lock_path",
     truthy_or args "system_effects_host_lock" (PStr "/run/allox-system-effects.lock"))].

Definition missing_effects (args : dict) : list string :=
  fst <$> List.filter (fun kv => negb (is_given args kv.2)) required_effects.

Definition _system_effects_config_from_args (args : dict) : result (option dict) :=
  if negb (existsb (fun kv => is_given args kv.2) required_effects) then
    raise_if (existsb (is_given args) optional_effects)
      (WorkspaceError
        "system-effects scope/verifier options require the complete observer configuration");;
    Ok None
  else
    match missing_effects args with
    | [] =>
        let observer := str_or (dgetn "system_effects_observer" args) EmptyString in
        verifier ← effects_verifier args observer;
        raise_if (xorb (is_given args "system_effects_recovery_helper")
                       (is_given args "system_effects_recovery_helper_sha256"))
          (WorkspaceError
            "system-effects recovery helper path and SHA-256 must be configured together");;
        raise_if (is_given args "system_effects_recovery_verifier" &&
                  negb (is_given args "system_effects_recovery_helper"))
          (WorkspaceError "system-effects recovery verifier requires a recovery helper");;
        recovery_verifier ← effects_recovery_verifier args observer;
        Ok (Some (effects_dict args verifier recovery_verifier))
    | missing =>
        Err (WorkspaceError ("incomplete system-effects configuration; missing "
                             +:+ string_join ", " (sort_strings missing)))
    end.

(** ** The service *)

(** The arguments of [WorkspaceService]; paths are their strings. *)
Record service_args := ServiceArgs {
  process_tracking : string;
  process_audit_root : pyval;
  kill_on_rollback : pyval;
  share_tools : bool;
  share_socket_root : string;
  session_network : string;
  network_root : string;
  network_socket_root : string;
  monitor_root : pyval;
  monitor_socket_root : string;
  system_effects_config : pyval }.

Definition normalized (s : string) : string := string_lower (string_strip s).

Definition network_modes : list string := ["disabled"; "inherit"; "isolated"; "proxy"].

Definition tracking_enabled (a : service_args) : bool :=
  negb (str_eqb (normalized (process_tracking a)) "disabled").

Definition base_features (a : service_args) : list (string * dict) :=
  (if is_none (monitor_root a) then []
   else [("agent-monitor", [("root", monitor_root a);
                            ("socket_root", PStr (monitor_socket_root a))])]) ++
  (if share_tools a then [("session-share", [("socket_root", PStr (share_socket_root a))])]
   else []) ++
  (if str_eqb (normalized (session_network a)) "disabled" then []
   else [("session-network", [("root", PStr (network_root a));
                              ("socket_root", PStr (network_socket_root a));
                              ("default_mode", PStr (normalized (session_network a)))])]).

Definition effects_feature (a : service_args) : result (list (string * dict)) :=
  match system_effects_config a with
  | PNone => Ok []
  | PDict config =>
      raise_if (tracking_enabled a)
        (WorkspaceError ("system-effects already records process lifecycle; disable the separate "
                         +:+ "process tracker to avoid duplicate kernel hooks"));;
      Ok [("system-effects", config)]
  | _ => Err (WorkspaceError "system effects configuration must be an object")
  end.

(** What the constructor decides before it opens anything: the plugins, and
    whether executions are managed. *)
Definition service_plan (a : service_args) : result (list (string * dict) * bool) :=
  raise_if (negb (existsb (str_eqb (normalized (session_network a))) network_modes))
    (WorkspaceError "session_network must be disabled, inherit, isolated, or proxy");;
  raise_if (negb (is_bool (kill_on_rollback a)))
    (WorkspaceError "kill_session_processes_on_rollback must be a boolean");;
  effects ← effects_feature a;
  let specs := base_features a ++ effects in
  let execution_required :=
    tracking_enabled a || negb (bool_decide (specs = [])) || py_truthy (kill_on_rollback a) in
  raise_if (execution_required && is_none (process_audit_root a))
    (WorkspaceError "process audit root is required when Session execution features are enabled");;
  Ok (specs, execution_required).

(** The process service as the daemon sees it here: it opens and closes. *)
Class ProcessHost := {
  open_processes : list call -> reply unit;
  close_processes : list call -> reply unit }.

(** What the constructor has opened so far. *)
Record parts := Parts { has_processes : bool; has_manager : option manager }.

Definition nothing_open : parts := Parts false None.

Section service.
Context `{Plugins} `{ProcessHost}.

Definition set_processes (b : bool) : X parts unit :=
  modify (fun p => Parts b (has_manager p)).

Definition open_process_service : X parts unit :=
  perform POpen open_processes;; set_processes true.

Definition open_features (factories : list string) (specs : list (string * dict))
    : X parts unit :=
  unwinding
    (r ← on_object no_features (new_manager factories specs);
     modify (fun p => Parts (has_processes p) (Some r.2)))
    (perform PClose close_processes;; set_processes false).

(** [WorkspaceService.__init__] *)
Definition new_service (factories : list string) (a : service_args) : X parts unit :=
  plan ← lift (service_plan a);
  (if (plan.2 : bool) then open_process_service else mret ());;
  match plan.1 with
  | [] => mret ()
  | specs => open_features factories specs
  end.

Definition feature_names (p : parts) : list string :=
  match has_manager p with Some m => names m | None => [] end.

(** [WorkspaceService.close] *)
Definition close_service : X parts unit :=
  p ← read (fun p => p);
  (if has_processes p then perform PClose close_processes else mret ());;
  match has_manager p with
  | Some m => r ← on_object m close; modify (fun p => Parts (has_processes p) (Some r.2))
  | None => mret ()
  end.

(** ** Before serving *)

(** The guard of [WorkspaceHTTPServer.__init__]. *)
Definition server_guard (names : list string) (token : string) : result unit :=
  raise_if ((existsb (str_eqb "session-share") names || existsb (str_eqb "agent-monitor") names)
            && str_eqb token EmptyString)
    (WorkspaceError "share/monitor tools require an authenticated management endpoint").

Definition loopback : list string := ["127.0.0.1"; "::1"; "localhost"].

(** [main] exits with a message, or an exception escapes it. *)
Inductive refusal := SystemExit (message : string) | Escaped (e : exn).

Definition refuse_if (b : bool) (message : string) : refusal + unit :=
  if b then inl (SystemExit message) else inr ().

#[local] Instance sum_bind : MBind (sum refusal) := fun A B f m =>
  match m with inl r => inl r | inr a => f a end.

Definition flag (args : dict) (name : string) : bool := py_truthy (dgetn name args).
Definition text (args : dict) (name : string) : string := str_or (dgetn name args) EmptyString.

(** The arguments [main] passes to [WorkspaceService]. *)
Definition main_service_args (args : dict) (effects : option dict) : service_args :=
  ServiceArgs (text args "process_tracking") (dgetn "process_audit_root" args)
    (dgetn "kill_session_processes_on_rollback" args) (flag args "share_tools")
    (text args "share_socket_root") (text args "session_network") (text args "network_root")
    (text args "network_socket_root") (dgetn "monitor_root" args)
    (text args "monitor_socket_root")
    (match effects with Some d => PDict d | None => PNone end).

(** [main] up to the creation of the store; [env_token] is
    [ALLOX_WORKSPACE_TOKEN], empty when not set. *)
Definition main_checks (args : dict) (env_token : string)
    : refusal + (string * string * string * service_args) :=
  match string_rsplit1 ":" (text args "listen") with
  | None => inl (Escaped (ValueError "not enough values to unpack (expected 2, got 1)"))
  | Some (host, port) =>
      let arg_token := text args "token" in
      let token := if str_eqb arg_token EmptyString then env_token else arg_token in
      _ ← refuse_if (negb (existsb (str_eqb host) loopback) && str_eqb token EmptyString)
            "a bearer token is required when listening beyond loopback";
      effects ← match _system_effects_config_from_args args with
                | Ok e => inr e
                | Err (WorkspaceError m) => inl (SystemExit m)
                | Err e => inl (Escaped e)
                end;
      _ ← refuse_if (flag args "share_tools" && str_eqb token EmptyString)
            "--share-tools requires ALLOX_WORKSPACE_TOKEN for the management API";
      _ ← refuse_if (is_given args "monitor_root" && str_eqb token EmptyString)
            "--monitor-root requires ALLOX_WORKSPACE_TOKEN for the management API";
      _ ← refuse_if (bool_decide (is_Some effects) && str_eqb token EmptyString)
            "--system-effects-observer requires ALLOX_WORKSPACE_TOKEN for the management API";
      inr (host, port, token, main_service_args args effects)
  end.
End service.

(** * Properties of the daemon's configuration and start *)

(** ** The system-effects configuration *)

(** The options that belong together are given together. *)
Definition consistent_recovery (args : dict) : bool :=
  eqb (is_given args "system_effects_recovery_helper")
      (is_given args "system_effects_recovery_helper_sha256") &&
  (is_given args "system_effects_recovery_helper" ||
   negb (is_given args "system_effects_recovery_verifier")).

Definition no_effects_option (args : dict) : bool :=
  negb (existsb (is_given args) (required_effects.*2 ++ optional_effects)).

Lemma missing_effects_nil (args : dict) :
  missing_effects args = [] <-> forallb (is_given args) required_effects.*2 = true.
Proof.
  unfold missing_effects, required_effects. simpl.
  destruct (is_given _ "system_effects_observer"), (is_given _ "system_effects_recorder_object"),
    (is_given _ "system_effects_recorder_sha256"), (is_given _ "system_effects_lifecycle_object"),
    (is_given _ "system_effects_lifecycle_sha256"); simpl; split; done.
Qed.

Lemma existsb_required (args : dict) :
  existsb (fun kv => is_given args kv.2) required_effects
    = existsb (is_given args) required_effects.*2.
Proof. done. Qed.

Lemma sibling_ok observer name v :
  sibling observer name = Ok v -> is_none v = false.
Proof. unfold sibling. intros H. ok_inv. done. Qed.

(** Also: The system-effects plugin is configured completely or not at all: no
    configuration results exactly when none of its options is given, and one
    only when every required option is given and the recovery options are
    consistent; then it holds every required value and a verifier, and a
    recovery verifier exactly when there is a recovery helper. *)
Theorem effects_config_complete (args : dict) :
  match _system_effects_config_from_args args with
  | Ok None => no_effects_option args = true
  | Ok (Some d) =>
      no_effects_option args = false /\ consistent_recovery args = true /\
      (forall k o, (k, o) ∈ required_effects ->
         is_given args o = true /\ dget k d = Some (dgetn o args)) /\
      (exists v, dget "verifier_path" d = Some v /\ is_none v = false) /\
      is_none (dgetn "recovery_verifier_path" d) =
        negb (is_given args "system_effects_recovery_helper")
  | Err _ => no_effects_option args = false
  end.
Proof.
  unfold _system_effects_config_from_args, no_effects_option. rewrite existsb_required, existsb_app.
  destruct (existsb (is_given args) required_effects.*2) eqn:Ereq; cbn [negb orb].
  2:{ by destruct (existsb (is_given args) optional_effects). }
  destruct (missing_effects args) eqn:Em; [|done].
  apply missing_effects_nil in Em. clear Ereq.
  destruct (effects_verifier args _) as [v|] eqn:Ev; [|done].
  assert (is_none v = false) as Hv.
  { unfold effects_verifier in Ev. destruct (py_truthy _) eqn:Et; [|by eapply sibling_ok].
    injection Ev as <-. by destruct (dgetn "system_effects_verifier" args). }
  simpl. destruct (xorb _ _) eqn:Ex; [done|]. simpl.
  destruct (is_given args "system_effects_recovery_verifier" && _) eqn:Er; [done|]. simpl.
  destruct (effects_recovery_verifier args _) as [r|] eqn:Err; [|done]. simpl.
  split; [done|]. split.
  { unfold consistent_recovery. apply xorb_eq in Ex. rewrite <- Ex, eqb_reflx. simpl.
    by destruct (is_given args "system_effects_recovery_helper"),
      (is_given args "system_effects_recovery_verifier"). }
  split; [|split].
  - intros k o Hin. rewrite forallb_forall in Em. split.
    { apply Em, list_elem_of_In, list_elem_of_fmap. by exists (k, o). }
    unfold required_effects in Hin. rewrite !elem_of_cons in Hin.
    destruct Hin as [[= -> ->]|[[= -> ->]|[[= -> ->]|[[= -> ->]|[[= -> ->]|Hin]]]]]; try reflexivity.
    by apply elem_of_nil in Hin.
  - by exists v.
  - change (dgetn "recovery_verifier_path" _) with r.
    unfold effects_recovery_verifier in Err.
    destruct (is_given args "system_effects_recovery_helper"); [|by injection Err as <-].
    destruct (py_truthy _) eqn:Et; [|by eapply sibling_ok].
    injection Err as <-. by destruct (dgetn "system_effects_recovery_verifier" args).
Qed.

(** ** Tokens *)

Definition needs_token (name : string) : bool :=
  existsb (str_eqb name) ["session-share"; "agent-monitor"; "system-effects"].

Lemma server_guard_ok names token :
  (forall n, n ∈ names -> needs_token n = true -> token <> EmptyString) ->
  server_guard names token = Ok ().
Proof.
  intros H. unfold server_guard. apply raise_if_Ok.
  destruct (str_eqb token EmptyString) eqn:Et; [|by rewrite andb_false_r].
  rewrite andb_true_r. apply str_eqb_eq in Et. apply not_true_iff_false.
  intros [Hs|Hs]%orb_prop; apply existsb_exists in Hs as (n & Hn & Hn');
    apply str_eqb_eq in Hn' as <-; by eapply H; [apply list_elem_of_In|..].
Qed.

Lemma refuse_if_inr b m u : refuse_if b m = inr u -> b = false.
Proof. by destruct b. Qed.

(** Also: The daemon never serves without authentication what needs it: when the
    checks of [main] pass, it listens on a loopback address or has a token,
    and it has a token when the share tools, the monitor or the system-effects
    plugin are enabled.  The guard of the HTTP server then passes too. *)
Theorem main_requires_token args env_token host port token a specs execution :
  main_checks args env_token = inr (host, port, token, a) ->
  service_plan a = Ok (specs, execution) ->
  (existsb (str_eqb host) loopback = true \/ token <> EmptyString) /\
  (forall n, n ∈ specs.*1 -> needs_token n = true -> token <> EmptyString) /\
  server_guard specs.*1 token = Ok ().
Proof.
  intros Hm Hp.
  assert ((existsb (str_eqb host) loopback = true \/ token <> EmptyString) /\
    (forall n, n ∈ specs.*1 -> needs_token n = true -> token <> EmptyString)) as [? ?];
    [|split; [done|]; split; [done|by apply server_guard_ok]].
  unfold main_checks in Hm. destruct (string_rsplit1 _ _) as [[h p]|]; [|done].
  set (tok := if str_eqb (text args "token") EmptyString then env_token else text args "token") in *.
  unfold mbind, sum_bind in Hm.
  destruct (refuse_if (negb (existsb (str_eqb h) loopback) && _) _) eqn:E1; [done|].
  destruct (match _system_effects_config_from_args args with Ok _ => _ | Err _ => _ end)
    as [|effects] eqn:E2; [done|].
  destruct (refuse_if (flag args "share_tools" && _) _) eqn:E3; [done|].
  destruct (refuse_if (is_given args "monitor_root" && _) _) eqn:E4; [done|].
  destruct (refuse_if (bool_decide (is_Some effects) && _) _) eqn:E5; [done|].
  injection Hm as <- <- <- <-. apply refuse_if_inr in E1, E3, E4, E5.
  destruct (str_eqb tok EmptyString) eqn:Et.
  2:{ apply str_eqb_neq in Et. split; [by right|done]. }
  rewrite !andb_true_r in *. split; [left; by apply negb_false_iff in E1|].
  unfold service_plan in Hp. ok_inv.
  intros n Hn. unfold base_features in Hn. simpl in Hn.
  unfold is_given in E4. apply negb_false_iff in E4. rewrite E4, E3 in Hn.
  unfold effects_feature in H1. simpl in H1. destruct effects as [d|]; [done|].
  injection H1 as <-. rewrite app_nil_r in Hn. simpl in Hn.
  destruct (str_eqb (normalized _) _); [by apply elem_of_nil in Hn|].
  simpl in Hn. apply list_elem_of_singleton in Hn as ->. done.
Qed.

(** ** The construction of the service *)

Section service.
Context `{HP : Plugins} `{HH : ProcessHost}.

(** The process service was closed again if these calls opened it. *)
Definition processes_closed (h k : list call) : Prop :=
  match k with
  | POpen :: k => open_processes h = Done () -> PClose ∈ k
  | _ => True
  end.

(** No plugin's [close] is interrupted. *)
Definition closing_uninterrupted : Prop := forall l f, p_close l f <> Interrupted.

(** What is left when the plugins cannot be opened. *)
Definition features_unwound (h : list call) (s' : st call parts) : Prop :=
  exists k, hist s' = h ++ k /\ has_manager (obj s') = None /\ PClose ∈ k /\
    (closing_uninterrupted -> forall f, f ∈ constructed h k -> closed_in k f).

Lemma wp_open_features factories specs (s : st call parts) :
  has_manager (obj s) = None ->
  ewp (open_features factories specs) (fun r s' =>
    match r with
    | Done _ => (exists k, hist s' = hist s ++ k) /\
        has_processes (obj s') = has_processes (obj s) /\ feature_names (obj s') = specs.*1
    | _ => features_unwound (hist s) s'
    end) s.
Proof.
  intros Hm. unfold open_features. apply ewp_unwinding, ewp_bind, ewp_on_object.
  eapply ewp_mono; [apply wp_new_manager|]. intros r s1 (k & Hk & H). simpl in Hk.
  assert (forall o : parts, has_manager o = None ->
    (closing_uninterrupted -> forall f, f ∈ constructed (hist s) k -> closed_in k f) ->
    features_unwound (hist s) (St (hist s1 ++ [PClose]) o)) as Hleft.
  { intros o Ho Hall. exists (k ++ [PClose]). simpl. rewrite Hk, app_assoc. split; [done|].
    split; [done|]. split; [set_solver|]. intros Hno f. rewrite constructed_app. simpl.
    rewrite app_nil_r. intros Hf%Hall; [|done]. unfold closed_in in *. set_solver. }
  destruct r as [[]|e|]; simpl.
  - apply ewp_modify. simpl. destruct H as (_ & Hn & _). split; [by exists k|]. by rewrite <- Hn.
  - apply ewp_bind, ewp_perform. intros r _. simpl.
    destruct r as [[]|e'|]; [apply ewp_modify|..]; (apply Hleft; [done|]; by destruct H).
  - apply ewp_bind, ewp_perform. intros r _. simpl.
    destruct r as [[]|e'|]; [apply ewp_modify|..]; (apply Hleft; [done|]; intros Hno;
      by destruct (H Hno)).
Qed.

(** What a failed construction leaves behind: nothing. *)
Definition unwound (h : list call) (s' : st call parts) : Prop :=
  exists k, hist s' = h ++ k /\ has_manager (obj s') = None /\ processes_closed h k /\
    (closing_uninterrupted -> forall f, f ∈ constructed h k -> closed_in k f).

(** Also: The service is built completely or not at all.  When it is built it
    runs exactly the plugins its arguments enable, and a process service when
    executions need one.  When its construction fails, nothing is left open:
    the process service, if it was opened, has been closed, and so has every
    plugin that was constructed (unless its [close] was interrupted). *)
Theorem service_all_or_nothing factories a h :
  let '(r, s') := new_service factories a (St h nothing_open) in
  match r with
  | Done _ => exists specs execution, service_plan a = Ok (specs, execution) /\
      has_processes (obj s') = execution /\ feature_names (obj s') = specs.*1
  | _ => unwound h s'
  end.
Proof.
  assert (ewp (new_service factories a) (fun r s' =>
    match r with
    | Done _ => exists specs execution, service_plan a = Ok (specs, execution) /\
        has_processes (obj s') = execution /\ feature_names (obj s') = specs.*1
    | _ => unwound h s'
    end) (St h nothing_open)) as Hwp; [|unfold ewp in Hwp; by destruct (new_service _ _ _)].
  unfold new_service. apply ewp_bind, ewp_lift.
  destruct (service_plan a) as [[specs execution]|e] eqn:Ep.
  2:{ exists []. rewrite app_nil_r. do 3 (split; [done|]). by intros _ f Hf%elem_of_nil. }
  simpl. apply ewp_bind.
  assert (execution = false -> specs = []) as Hnone.
  { unfold service_plan in Ep. ok_inv. intros [[_ E]%orb_false_iff _]%orb_false_iff.
    by apply negb_false_iff, bool_decide_eq_true in E. }
  destruct execution.
  - unfold open_process_service. apply ewp_bind, ewp_perform. intros r Hr. simpl.
    destruct r as [[]|e|].
    2,3: exists [POpen]; split; [done|]; split; [done|]; split; [simpl in *; congruence|];
      intros _ f Hf%elem_of_nil; done.
    apply ewp_modify. simpl. destruct specs as [|spec specs].
    { apply ewp_ret. by exists [], true. }
    eapply ewp_mono; [by apply wp_open_features|]. simpl.
    assert (forall s', features_unwound (h ++ [POpen]) s' -> unwound h s') as Hun.
    { intros s' (k & Hk & Hm & HPc & Hall). exists (POpen :: k). rewrite Hk, <- app_assoc.
      split; [done|]. split; [done|]. split; [by intros _|].
      intros Hno f Hf. apply elem_of_cons. right. by apply Hall. }
    intros [[]|e|] s' H; [|by apply Hun..]. destruct H as (_ & H1 & H2).
    by exists (spec :: specs), true.
  - apply ewp_ret. rewrite Hnone by done. apply ewp_ret. by exists [], false.
Qed.
End service.

(** ** Concrete configurations *)

(** Without options the daemon listens on the loopback interface, manages no
    executions and enables no plugin. *)
Example defaults_disable_everything :
  match main_checks (default_args "/srv") EmptyString with
  | inr (host, port, token, a) =>
      (host, port, token) = ("127.0.0.1", "8092", EmptyString) /\ service_plan a = Ok ([], false)
  | inl _ => False
  end.
Proof. vm_compute. done. Qed.

Definition shared_args : dict :=
  dset "share_tools" (PBool true) (dset "process_audit_root" (PStr "/var/audit")
    (default_args "/srv")).

Definition shared_service : service_args := main_service_args shared_args None.

Example share_needs_token :
  main_checks shared_args EmptyString
    = inl (SystemExit "--share-tools requires ALLOX_WORKSPACE_TOKEN for the management API").
Proof. reflexivity. Qed.

Definition shared_specs : list (string * dict) :=
  [("session-share", [("socket_root", PStr "/run/allox-share")])].

Lemma main_requires_token_witness :
  (existsb (str_eqb "127.0.0.1") loopback = true \/ "secret" <> EmptyString) /\
  (forall n, n ∈ shared_specs.*1 -> needs_token n = true -> "secret" <> EmptyString) /\
  server_guard shared_specs.*1 "secret" = Ok ().
Proof.
  exact (main_requires_token shared_args "secret" "127.0.0.1" "8092" "secret" shared_service
    shared_specs true ltac:(vm_compute; reflexivity) ltac:(vm_compute; reflexivity)).
Defined.

(** An observer path without a name raises an exception that [main] does not
    turn into an exit message. *)
Example relative_observer_path :
  _system_effects_config_from_args
    ((fun kv => (kv.2, PStr "/")) <$> required_effects)
    = Err (ValueError "/ has an empty name").
Proof. reflexivity. Qed.
