(* ===== verification/Kernel.v ===== *)
(** * The kernel as the runtime sees it

    Reads and writes of files of [/proc], [/sys/fs/cgroup] and the trusted
    directories, the clock and commands.  What each call returns or raises is
    a function of the calls made so far, so the kernel may do anything between
    two of them.  Paths are the components of absolute paths, times are in
    nanoseconds. *)

From Stdlib Require Import Ascii.
From Stdlib Require String.
From S2P Require Import Prelude Effects PyVal Text.
Open Scope Z_scope.

Abbreviation kpath := (list string).

Inductive file_kind := KLink | KDir | KOther.

#[export] Instance file_kind_eq_dec : EqDecision file_kind.
Proof. solve_decision. Defined.

Inductive kcall :=
  | KRead (p : kpath)
  | KWrite (p : kpath) (text : string)
  | KMkdir (p : kpath)
  | KExists (p : kpath)
  | KLstat (p : kpath)
  | KResolve (p : string)
  | KSubdirs (p : kpath)
  | KRmdir (p : kpath)
  | KClock
  | KSleep (ns : Z)
  | KRun (argv : list string).

Class Kernel := {
  k_read : list kcall -> kpath -> reply string;
  k_write : list kcall -> kpath -> string -> reply unit;
  k_mkdir : list kcall -> kpath -> reply unit;
  k_exists : list kcall -> kpath -> reply bool;
  k_lstat : list kcall -> kpath -> reply (file_kind * Z);   (* kind and inode *)
  k_resolve : list kcall -> string -> reply kpath;
  k_subdirs : list kcall -> kpath -> reply (list kpath);    (* all below, any depth *)
  k_rmdir : list kcall -> kpath -> reply unit;
  k_clock : list kcall -> Z;
  k_run : list kcall -> list string -> reply unit }.

Section kernel.
Context `{Kernel}.

Definition K (A : Type) : Type := P kcall unit A.

Definition read_text (p : kpath) : K string := perform (KRead p) (fun l => k_read l p).
Definition write_text (p : kpath) (text : string) : K unit :=
  perform (KWrite p text) (fun l => k_write l p text).
Definition mkdir (p : kpath) : K unit := perform (KMkdir p) (fun l => k_mkdir l p).
Definition exists_ (p : kpath) : K bool := perform (KExists p) (fun l => k_exists l p).
Definition lstat (p : kpath) : K (file_kind * Z) := perform (KLstat p) (fun l => k_lstat l p).
Definition resolve (p : string) : K kpath := perform (KResolve p) (fun l => k_resolve l p).
Definition subdirs (p : kpath) : K (list kpath) := perform (KSubdirs p) (fun l => k_subdirs l p).
Definition rmdir (p : kpath) : K unit := perform (KRmdir p) (fun l => k_rmdir l p).
Definition monotonic : K Z := perform KClock (fun l => Done (k_clock l)).
Definition sleep (ns : Z) : K unit := perform (KSleep ns) (fun _ => Done ()).
Definition run_command (argv : list string) : K unit := perform (KRun argv) (fun l => k_run l argv).

(** A loop that has polled as often as its fuel allows is cut off, as by an
    interrupt. *)
Definition exhausted {A} : K A := fun s => (Interrupted, s).
End kernel.

Definition ms (n : Z) : Z := n * 1000000.
Definition seconds (n : Z) : Z := n * 1000000000.

Definition path_string (p : kpath) : string := "/" +:+ string_join "/" p.

(** [FileNotFoundError] and the error numbers the code tells apart. *)
Definition ENOENT : exn := OSError "ENOENT".

Definition is_os_error (e : exn) : bool := match e with OSError _ => true | _ => false end.
Definition is_value_error (e : exn) : bool :=
  match e with ValueError _ | JSONDecodeError => true | _ => false end.

Section wrapping.
Context {C O : Type}.

(** [try: m except E as exc: raise WorkspaceError(f"{what}: {exc}")] *)
Definition wrapping {A} (caught : exn -> bool) (what : string) (m : P C O A) : P C O A :=
  catch m (fun e => if caught e then throw (WorkspaceError (what +:+ ": " +:+ exn_str e))
                    else throw e).
End wrapping.

Definition os_errors : exn -> bool := is_os_error.
Definition os_or_value_errors (e : exn) : bool := is_os_error e || is_value_error e.
