(* ===== verification/Cgroup.v ===== *)
(** * Session cgroups

    [src/src/allox/runtime/process_tracking/cgroup.py]: the cgroup v2 leaf in
    which the processes of a session run: attaching, freezing, killing,
    waiting for emptiness, and the identity checks around them. *)

From Stdlib Require Import Ascii.
From Stdlib Require String.
From stdpp Require Import pretty.
From S2P Require Import Prelude Effects PyVal Text Ids Kernel.
Open Scope Z_scope.

Definition _LEAF_LIMITS : list (string * string) :=
  [("cgroup.max.depth", "0"); ("cgroup.max.descendants", "0")].

(** [dict(line.split() for line in lines)] *)
Fixpoint parse_pairs (lines : list string) (d : dict) : result dict :=
  match lines with
  | [] => Ok d
  | line :: lines =>
      match split_words line with
      | [k; v] => parse_pairs lines (dset k (PStr v) d)
      | _ => Err (ValueError "dictionary update sequence element has wrong length")
      end
  end.

Definition is_bit (v : pyval) : bool := py_eqb v (PStr "0") || py_eqb v (PStr "1").

Record identity := Identity { id_path : string; id_relative_path : string; id_inode : Z }.

#[export] Instance identity_eq_dec : EqDecision identity.
Proof. solve_decision. Defined.

(** [SessionCgroup]: the resolved root and the mount below which it is. *)
Record session_cgroup := SessionCgroup { cg_root : kpath; cg_mount : kpath }.

Section cgroup.
Context `{Kernel}.

Definition _events (path : kpath) : K dict :=
  values ← wrapping os_or_value_errors "failed to read Session cgroup events"
    (text ← read_text (path ++ ["cgroup.events"]);
     lift (parse_pairs (splitlines text) []));
  throw_when (negb (is_bit (dgetn "populated" values)) || negb (is_bit (dgetn "frozen" values)))
    (WorkspaceError "invalid Session cgroup populated/frozen state");;
  mret values.

Definition seal_limit (path : kpath) (limit : string * string) : K unit :=
  wrapping os_errors ("failed to seal Session cgroup via " +:+ limit.1)
    (write_text (path ++ [limit.1]) limit.2).

Definition verify_limit (path : kpath) (limit : string * string) : K unit :=
  actual ← wrapping os_errors ("failed to verify Session cgroup " +:+ limit.1)
             (read_text (path ++ [limit.1]));
  throw_when (negb (str_eqb (string_strip actual) limit.2))
    (WorkspaceError ("Session cgroup " +:+ limit.1 +:+ " did not retain required value "
                     +:+ limit.2)).

Definition _seal_leaf (path : kpath) : K unit :=
  iterate (seal_limit path) _LEAF_LIMITS;;
  iterate (verify_limit path) _LEAF_LIMITS.

Definition bit (b : bool) : string := if b then "1" else "0".
Definition freeze_action (frozen : bool) : string := if frozen then "freeze" else "thaw".

(** The loop [while True] of [_set_frozen]. *)
Fixpoint await_frozen (fuel : nat) (path : kpath) (frozen : bool) (deadline : Z) : K unit :=
  match fuel with
  | O => exhausted
  | S fuel =>
      values ← _events path;
      if py_eqb (dgetn "frozen" values) (PStr (bit frozen)) then mret ()
      else
        now ← monotonic;
        throw_when (deadline <=? now)
          (WorkspaceError ("Session cgroup " +:+ freeze_action frozen
                           +:+ " acknowledgement timed out"));;
        sleep (ms 10);;
        await_frozen fuel path frozen deadline
  end.

Context (fuel : nat).   (* of the polling loops *)

Definition _set_frozen (path : kpath) (frozen : bool) (timeout : Z) : K unit :=
  wrapping os_errors ("failed to " +:+ freeze_action frozen +:+ " Session cgroup")
    (write_text (path ++ ["cgroup.freeze"]) (bit frozen));;
  start ← monotonic;
  await_frozen fuel path frozen (start + timeout).

(** ** The mount below which the root is *)

(** The mount point of a line of mountinfo that shows a cgroup2 file system;
    a malformed line is skipped. *)
Definition mount_point (line : string) : option string :=
  '(fields, optional) ← split_once " - " line;
  fs ← split_words optional !! 0%nat;
  if str_eqb fs "cgroup2" then _unescape_mount_path <$> (split_words fields !! 4%nat) else None.

Definition contains (mount path : kpath) : bool := bool_decide (mount `prefix_of` path).

Fixpoint candidates (path : kpath) (lines : list string) : K (list kpath) :=
  match lines with
  | [] => mret []
  | line :: lines =>
      match mount_point line with
      | None => candidates path lines
      | Some raw =>
          mount ← resolve raw;
          rest ← candidates path lines;
          mret (if contains mount path then mount :: rest else rest)
      end
  end.

(** [max(candidates, key=lambda item: len(item.parts), default=None)]: the
    first of the longest. *)
Fixpoint deepest (l : list kpath) : option kpath :=
  match l with
  | [] => None
  | p :: l =>
      match deepest l with
      | Some q => if (length p <? length q)%nat then Some q else Some p
      | None => Some p
      end
  end.

Definition _find_mount (path : kpath) : K (option kpath) :=
  text ← catch (t ← read_text ["proc"; "self"; "mountinfo"]; mret (Some t))
           (fun e => if is_os_error e then mret None else throw e);
  match text with
  | None => mret None
  | Some text => l ← candidates path (splitlines text); mret (deepest l)
  end.

(** [SessionCgroup.__init__] *)
Definition new_cgroups (root : string) : K session_cgroup :=
  root ← resolve root;
  mount ← _find_mount root;
  match mount with
  | None => throw (WorkspaceError ("process cgroup root is not below a cgroup v2 mount: "
                                   +:+ path_string root))
  | Some mount =>
      throw_when (bool_decide (root = mount) || bool_decide (root = ["sys"; "fs"; "cgroup"]))
        (WorkspaceError "use a dedicated cgroup subtree, not the cgroup mount root");;
      mkdir root;;
      killable ← exists_ (root ++ ["cgroup.kill"]);
      throw_when (negb killable)
        (WorkspaceError "Session execution requires cgroup v2 cgroup.kill (Linux 5.14+)");;
      mret (SessionCgroup root mount)
  end.

(** ** Methods *)

Section methods.
Context (g : session_cgroup).

Definition cgroup_path (agent_id session_id : string) : result kpath :=
  a ← validate_id "agent" agent_id;
  s ← validate_id "session" session_id;
  Ok (cg_root g ++ ["agents"; a; "sessions"; s]).

(** [cgroup.procs] leaves out nested cgroups, [cgroup.events] does not. *)
Definition populated (agent_id session_id : string) : K bool :=
  target ← lift (cgroup_path agent_id session_id);
  present ← exists_ (target ++ ["cgroup.events"]);
  if (present : bool) then
    values ← _events target;
    mret (py_eqb (dgetn "populated" values) (PStr "1"))
  else mret false.

Definition attach (agent_id session_id : string) (pid : Z) : K kpath :=
  throw_when (pid <=? 0) (WorkspaceError "cannot attach an invalid pid to a Session cgroup");;
  target ← lift (cgroup_path agent_id session_id);
  mkdir target;;
  busy ← populated agent_id session_id;
  throw_when busy
    (WorkspaceError "Session cgroup already contains processes; recover it before launch");;
  _set_frozen target false (seconds 5);;
  _seal_leaf target;;
  wrapping os_errors "failed to attach process to Session cgroup"
    (write_text (target ++ ["cgroup.procs"]) (pretty pid));;
  mret target.

Fixpoint parse_pids (words : list string) : result (list Z) :=
  match words with
  | [] => Ok []
  | w :: words => n ← py_int (PStr w); l ← parse_pids words; Ok (n :: l)
  end.

Definition pids (agent_id session_id : string) : K (list Z) :=
  target ← lift (cgroup_path agent_id session_id);
  catch (text ← read_text (target ++ ["cgroup.procs"]); lift (parse_pids (split_words text)))
    (fun e => if bool_decide (e = ENOENT) then mret [] else throw e).

(** [canonical.relative_to(mount).as_posix()] *)
Definition relative_to (mount path : kpath) : option string :=
  if contains mount path then
    Some match drop (length mount) path with [] => "." | rest => string_join "/" rest end
  else None.

Definition identity_of (agent_id session_id : string) : K identity :=
  target ← lift (cgroup_path agent_id session_id);
  metadata ← wrapping os_errors "failed to resolve Session cgroup identity" (lstat target);
  throw_when (negb (bool_decide (metadata.1 = KDir)))
    (WorkspaceError "Session cgroup must be a real directory");;
  canonical ← resolve (path_string target);
  throw_when (negb (bool_decide (canonical = target)) || (metadata.2 <=? 0))
    (WorkspaceError "Session cgroup has an invalid canonical kernel identity");;
  match relative_to (cg_mount g) canonical with
  | None => throw (WorkspaceError "Session cgroup escaped its cgroup v2 mount")
  | Some relative => mret (Identity (path_string canonical) ("/" +:+ relative) metadata.2)
  end.

Definition freeze (agent_id session_id : string) (expected : Z) (require_populated : bool)
    (timeout : Z) : K identity :=
  identity ← identity_of agent_id session_id;
  throw_when (negb (id_inode identity =? expected))
    (WorkspaceError "Session cgroup identity changed before freeze");;
  target ← lift (cgroup_path agent_id session_id);
  _set_frozen target true timeout;;
  values ← _events target;
  throw_when (require_populated && negb (py_eqb (dgetn "populated" values) (PStr "1")))
    (WorkspaceError "Session cgroup became empty before Observer readiness");;
  final ← identity_of agent_id session_id;
  throw_when (negb (bool_decide (final = identity)))
    (WorkspaceError "Session cgroup identity changed across freeze barrier");;
  mret final.

Definition thaw (agent_id session_id : string) (expected : Z) (timeout : Z) : K unit :=
  identity ← identity_of agent_id session_id;
  throw_when (negb (id_inode identity =? expected))
    (WorkspaceError "Session cgroup identity changed before thaw");;
  target ← lift (cgroup_path agent_id session_id);
  _set_frozen target false timeout;;
  final ← identity_of agent_id session_id;
  throw_when (negb (bool_decide (final = identity)))
    (WorkspaceError "Session cgroup identity changed across thaw barrier").

(** The loop of [wait_empty], and the last look after it. *)
Fixpoint await_empty (fuel : nat) (agent_id session_id : string) (deadline : Z) : K bool :=
  match fuel with
  | O => exhausted
  | S fuel =>
      now ← monotonic;
      if now <? deadline then
        busy ← populated agent_id session_id;
        if (busy : bool) then sleep (ms 20);; await_empty fuel agent_id session_id deadline
        else mret true
      else busy ← populated agent_id session_id; mret (negb busy)
  end.

Definition wait_empty (agent_id session_id : string) (timeout : Z) : K bool :=
  start ← monotonic;
  await_empty fuel agent_id session_id (start + timeout).

Definition quiesce_empty (agent_id session_id : string) (expected : Z) (timeout : Z)
    : K identity :=
  empty ← wait_empty agent_id session_id timeout;
  throw_when (negb empty)
    (WorkspaceError "Session cgroup did not become empty before finalization");;
  identity ← freeze agent_id session_id expected false timeout;
  target ← lift (cgroup_path agent_id session_id);
  values ← _events target;
  throw_when (negb (py_eqb (dgetn "populated" values) (PStr "0")))
    (WorkspaceError "Session cgroup repopulated during finalization");;
  mret identity.

Definition kill (agent_id session_id : string) : K unit :=
  target ← lift (cgroup_path agent_id session_id);
  present ← exists_ target;
  if (present : bool) then
    killable ← exists_ (target ++ ["cgroup.kill"]);
    throw_when (negb killable)
      (WorkspaceError "Session termination requires cgroup v2 cgroup.kill");;
    wrapping os_errors "failed to kill Session cgroup"
      (write_text (target ++ ["cgroup.kill"]) "1")
  else mret ().

(** [sorted(..., key=lambda p: len(p.parts), reverse=True)], which is stable. *)
Fixpoint insert_deep (p : kpath) (l : list kpath) : list kpath :=
  match l with
  | [] => [p]
  | q :: l => if (length q <=? length p)%nat then p :: q :: l else q :: insert_deep p l
  end.

Definition deepest_first (l : list kpath) : list kpath := foldr insert_deep [] l.

Definition remove (agent_id session_id : string) : K bool :=
  target ← lift (cgroup_path agent_id session_id);
  present ← exists_ target;
  if negb present then mret true
  else
    busy ← populated agent_id session_id;
    if (busy : bool) then mret false
    else
      catch
        (_set_frozen target false (seconds 5);;
         children ← subdirs target;
         iterate rmdir (deepest_first children);;
         rmdir target;;
         rmdir (removelast target);;
         rmdir (removelast (removelast target)))
        (fun e => if is_os_error e then mret () else throw e);;
      remains ← exists_ target;
      mret (negb remains).

(** Kernel membership of a process that may be gone. *)
Definition owns (agent_id session_id : string) (pid : Z) : K bool :=
  target ← lift (cgroup_path agent_id session_id);
  match relative_to (cg_mount g) target with
  | None => throw (ValueError "path is not in the subpath of the cgroup mount")
  | Some expected =>
      catch (text ← read_text ["proc"; pretty pid; "cgroup"];
             mret (existsb (str_eqb ("0::/" +:+ expected)) (splitlines text)))
        (fun e => if bool_decide (e = ENOENT) then mret false else throw e)
  end.
End methods.
End cgroup.
