(* ===== verification/CgroupSpec.v ===== *)
(** * Properties of the session cgroups *)

From Stdlib Require Import Ascii.
From Stdlib Require String.
From stdpp Require Import pretty.
From S2P Require Import Prelude Effects PyVal Text Ids Kernel Cgroup.
Open Scope Z_scope.

(** The time spent asleep during the calls [k]. *)
Fixpoint slept (k : list kcall) : Z :=
  match k with
  | [] => 0
  | KSleep ns :: k => ns + slept k
  | _ :: k => slept k
  end.

Lemma slept_app k1 k2 : slept (k1 ++ k2) = slept k1 + slept k2.
Proof. induction k1 as [|[] k1 IH]; simpl; lia. Qed.

(** A monotonic clock that runs while the thread sleeps. *)
Class ClockLaws (HK : Kernel) : Prop := {
  clock_runs : forall l k, k_clock l + slept k <= k_clock (l ++ k) }.

(** No call is interrupted by a signal. *)
Class Uninterrupted (HK : Kernel) : Prop := {
  read_uninterrupted : forall l p, k_read l p <> Interrupted;
  write_uninterrupted : forall l p t, k_write l p t <> Interrupted;
  exists_uninterrupted : forall l p, k_exists l p <> Interrupted }.

Section cgroup.
Context `{HK : Kernel}.

(** ** What a read of the events says *)

Definition events_file (path : kpath) : kpath := path ++ ["cgroup.events"].

(** [text] gives [key] the value [v]. *)
Definition event_value (key v text : string) : Prop :=
  exists d, parse_pairs (splitlines text) [] = Ok d /\ dgetn key d = PStr v.

(** The read of [path]'s events after [l] says that [key] is [v]. *)
Definition events_say (l : list kcall) (path : kpath) (key v : string) : Prop :=
  exists text, k_read l (events_file path) = Done text /\ event_value key v text.

Lemma is_bit_spec v : is_bit v = true -> v = PStr "0" \/ v = PStr "1".
Proof. unfold is_bit. intros [H|H]%orb_prop; apply py_eqb_str_r in H; auto. Qed.

Lemma wp_events path Q (s : st kcall unit) :
  (forall d, (forall key v, dgetn key d = PStr v -> events_say (hist s) path key v) ->
     is_bit (dgetn "populated" d) = true -> is_bit (dgetn "frozen" d) = true ->
     Q (Done d) (St (hist s ++ [KRead (events_file path)]) (obj s))) ->
  (forall r, (forall d, r <> Done d) ->
     (r = Interrupted -> k_read (hist s) (events_file path) = Interrupted) ->
     Q r (St (hist s ++ [KRead (events_file path)]) (obj s))) ->
  ewp (_events path) Q s.
Proof.
  intros HD HE. unfold _events, wrapping. apply ewp_bind, ewp_catch, ewp_bind, ewp_perform.
  intros r Hr. simpl.
  assert (forall e (x : dict -> K dict), ewp (if os_or_value_errors e
    then throw (WorkspaceError ("failed to read Session cgroup events: " +:+ exn_str e))
    else throw e) (fun r s' => match r with
                     | Done a => ewp (x a) Q s'
                     | Raised e => Q (Raised e) s'
                     | Interrupted => Q Interrupted s' end)
    (St (hist s ++ [KRead (events_file path)]) (obj s))) as Herr.
  { intros e x. destruct (os_or_value_errors e); apply ewp_throw, HE; done. }
  destruct r as [text|e|]; [|apply Herr|apply HE; [done|by intros _]].
  apply ewp_lift. destruct (parse_pairs _ _) as [d|e] eqn:Ep; [|apply Herr].
  apply ewp_bind, ewp_throw_when.
  - intros _. by apply HE.
  - intros [H1 H2]%orb_false_iff. apply negb_false_iff in H1, H2. apply ewp_ret, HD; [|done..].
    intros key v Hv. exists text. split; [done|]. by exists d.
Qed.

(** ** The polling loops end *)

Context (fuel : nat).

Lemma wp_await_frozen `{!ClockLaws HK, !Uninterrupted HK} path frozen h0 deadline n s :
  (exists k, hist s = h0 ++ k /\
     deadline - k_clock h0 <= slept k + (Z.of_nat n - 1) * ms 10) -> (0 < n)%nat ->
  ewp (await_frozen n path frozen deadline) (fun r _ => r <> Interrupted) s.
Proof.
  revert s. induction n as [|n IH]; intros s (k & Hk & Hd) Hn; [lia|].
  apply ewp_bind, wp_events.
  2:{ intros [d|e|] Hnd Hr; [by destruct (Hnd d)|done|].
      by destruct (read_uninterrupted (hist s) (events_file path)), Hr. }
  intros d _ _ _. destruct (py_eqb _ _); [by apply ewp_ret|].
  apply ewp_bind, ewp_perform. intros r <-. simpl.
  pose proof (clock_runs h0 (k ++ [KRead (events_file path)])) as Hclock.
  rewrite app_assoc, <- Hk, slept_app in Hclock. simpl in Hclock.
  apply ewp_bind, ewp_throw_when; [done|]. intros Hlt. apply Z.leb_gt in Hlt.
  apply ewp_bind, ewp_perform. intros r <-. apply IH.
  - exists (k ++ [KRead (events_file path); KClock; KSleep (ms 10)]). simpl. rewrite Hk.
    split; [by rewrite <- !app_assoc|]. rewrite slept_app. simpl. lia.
  - unfold ms in *. lia.
Qed.

Lemma wp_set_frozen_ends `{!ClockLaws HK, !Uninterrupted HK} path frozen timeout s :
  0 <= timeout <= (Z.of_nat fuel - 1) * ms 10 ->
  ewp (_set_frozen fuel path frozen timeout) (fun r _ => r <> Interrupted) s.
Proof.
  intros Ht. unfold _set_frozen, wrapping. apply ewp_bind, ewp_catch, ewp_perform. intros r Hr.
  destruct r as [[]|e|].
  - apply ewp_bind, ewp_perform. intros r <-. simpl. apply (wp_await_frozen _ _ (hist s ++
      [KWrite (path ++ ["cgroup.freeze"]) (bit frozen)])).
    + exists [KClock]. simpl. split; [done|]. lia.
    + unfold ms in Ht. lia.
  - by destruct (os_errors e); apply ewp_throw.
  - by apply write_uninterrupted in Hr.
Qed.

(** The look of [populated] at the cgroup of a session. *)
Lemma wp_populated g a s (Q : reply bool -> st kcall unit -> Prop) st :
  (forall target b k, cgroup_path g a s = Ok target ->
     slept k = 0 ->
     (b = false -> (k = [KExists (events_file target)] /\
          k_exists (hist st) (events_file target) = Done false) \/
        (k = [KExists (events_file target); KRead (events_file target)] /\
         events_say (hist st ++ [KExists (events_file target)]) target "populated" "0")) ->
     Q (Done b) (St (hist st ++ k) (obj st))) ->
  (forall r k, (forall b, r <> Done b) ->
     (Uninterrupted HK -> r <> Interrupted) -> Q r (St (hist st ++ k) (obj st))) ->
  ewp (populated g a s) Q st.
Proof.
  intros HD HE. unfold populated. apply ewp_bind, ewp_lift.
  destruct (cgroup_path g a s) as [target|e] eqn:Et.
  2:{ pose proof (HE (Raised e) []) as H. rewrite app_nil_r in H. destruct st. by apply H. }
  apply ewp_bind, ewp_perform. intros r Hr. simpl.
  destruct r as [[]|e|]; [|apply ewp_ret, (HD target); [done..|by left]|by apply HE|].
  2:{ apply HE; [done|]. intros Hu. by apply exists_uninterrupted in Hr. }
  apply ewp_bind, wp_events.
  - intros d Hsay Hp _. simpl. rewrite <- app_assoc. apply ewp_ret, (HD target); [done..|].
    intros Hb. right. split; [done|]. apply (Hsay "populated").
    apply is_bit_spec in Hp as [Hp|Hp]; [done|]. rewrite Hp in Hb. done.
  - intros [d|e|] Hnd Hr'; [by destruct (Hnd d)|..]; simpl; rewrite <- app_assoc; apply HE; try done.
    intros Hu. by destruct (read_uninterrupted (hist st ++ [KExists (events_file target)])
      (events_file target)), Hr'.
Qed.

Lemma wp_await_empty `{!ClockLaws HK, !Uninterrupted HK} g a s h0 deadline n st :
  (exists k, hist st = h0 ++ k /\
     deadline - k_clock h0 <= slept k + (Z.of_nat n - 1) * ms 20) -> (0 < n)%nat ->
  ewp (await_empty g n a s deadline) (fun r _ => r <> Interrupted) st.
Proof.
  revert st. induction n as [|n IH]; intros st (k & Hk & Hd) Hn; [lia|].
  apply ewp_bind, ewp_perform. intros r <-. simpl.
  pose proof (clock_runs h0 k) as Hclock. rewrite <- Hk in Hclock.
  destruct (Z.ltb_spec (k_clock (hist st)) deadline).
  - apply ewp_bind, wp_populated.
    + intros target b k' _ Hs _. destruct b; [|by apply ewp_ret].
      apply ewp_bind, ewp_perform. intros r <-. apply IH.
      * exists (k ++ [KClock] ++ k' ++ [KSleep (ms 20)]). simpl. rewrite Hk.
        split; [by rewrite <- !app_assoc|]. rewrite slept_app. simpl. rewrite slept_app. simpl. lia.
      * unfold ms in *. lia.
    + intros [b|e|] k' Hnd Hu; [by destruct (Hnd b)|done|]. by apply Hu.
  - apply ewp_bind, wp_populated.
    + intros target b k' _ _ _. by apply ewp_ret.
    + intros [b|e|] k' Hnd Hu; [by destruct (Hnd b)|done|]. by apply Hu.
Qed.

(** C40: The polling loops end.  As the clock runs while the thread sleeps,
    freezing and thawing see the acknowledgement or report the timeout after
    at most one look per 10 ms of it, and waiting for an empty cgroup answers
    after at most one look per 20 ms, whatever the kernel reports. *)
Theorem polling_terminates `{!ClockLaws HK, !Uninterrupted HK} g a s path frozen timeout st :
  0 <= timeout <= (Z.of_nat fuel - 1) * ms 10 ->
  (_set_frozen fuel path frozen timeout st).1 <> Interrupted /\
  (wait_empty fuel g a s timeout st).1 <> Interrupted.
Proof.
  intros Ht. split; [exact (wp_set_frozen_ends path frozen timeout st Ht)|].
  assert (ewp (wait_empty fuel g a s timeout) (fun r _ => r <> Interrupted) st) as H; [|exact H].
  apply ewp_bind, ewp_perform. intros r <-. simpl. apply (wp_await_empty _ _ _ (hist st)).
  - exists [KClock]. simpl. split; [done|]. unfold ms in *. lia.
  - unfold ms in *. lia.
Qed.
(** ** The freeze barrier *)

Definition freeze_file (path : kpath) : kpath := path ++ ["cgroup.freeze"].

(** Between the histories [h] and [h'] the cgroup was told to freeze or thaw,
    and reported that it had. *)
Definition acknowledged (path : kpath) (frozen : bool) (h h' : list kcall) : Prop :=
  exists p1 p2, h `prefix_of` p1 /\ k_write p1 (freeze_file path) (bit frozen) = Done () /\
    (p1 ++ [KWrite (freeze_file path) (bit frozen)]) `prefix_of` p2 /\
    events_say p2 path "frozen" (bit frozen) /\ p2 ++ [KRead (events_file path)] = h'.

Lemma wp_await_frozen_done path frozen deadline n (Q : reply unit -> st kcall unit -> Prop) st :
  (forall p2, hist st `prefix_of` p2 -> events_say p2 path "frozen" (bit frozen) ->
     Q (Done ()) (St (p2 ++ [KRead (events_file path)]) (obj st))) ->
  (forall r k, r <> Done () -> Q r (St (hist st ++ k) (obj st))) ->
  ewp (await_frozen n path frozen deadline) Q st.
Proof.
  revert st. induction n as [|n IH]; intros st HD HE.
  { pose proof (HE Interrupted []) as H. rewrite app_nil_r in H. destruct st. by apply H. }
  apply ewp_bind, wp_events.
  - intros d Hsay _ _. destruct (py_eqb _ _) eqn:Ef.
    + apply ewp_ret, HD; [done|]. apply Hsay. by apply py_eqb_str_r in Ef.
    + apply ewp_bind, ewp_perform. intros r <-. simpl. apply ewp_bind, ewp_throw_when.
      { intros _. rewrite <- app_assoc. by apply HE. }
      intros _. apply ewp_bind, ewp_perform. intros r <-. simpl. rewrite <- !app_assoc.
      apply IH; simpl.
      * intros p2 Hp. apply HD. etrans; [|exact Hp]. by apply prefix_app_r.
      * intros r k. rewrite <- app_assoc. apply HE.
  - intros [d|e|] Hnd _; [by destruct (Hnd d)|by apply HE..].
Qed.

Lemma wp_set_frozen path frozen timeout (Q : reply unit -> st kcall unit -> Prop) st :
  (forall h', acknowledged path frozen (hist st) h' -> Q (Done ()) (St h' (obj st))) ->
  (forall r k, r <> Done () -> Q r (St (hist st ++ k) (obj st))) ->
  ewp (_set_frozen fuel path frozen timeout) Q st.
Proof.
  intros HD HE. unfold _set_frozen, wrapping. apply ewp_bind, ewp_catch, ewp_perform.
  intros r Hr. destruct r as [[]|e|].
  - apply ewp_bind, ewp_perform. intros r <-. simpl. rewrite <- app_assoc.
    apply wp_await_frozen_done; simpl.
    + intros p2 Hp Hsay. apply HD. exists (hist st), p2. split; [done|]. split; [done|].
      split; [|done]. etrans; [|exact Hp]. by apply prefix_app, prefix_cons, prefix_nil.
    + intros r k. rewrite <- app_assoc. apply HE.
  - destruct (os_errors e); by apply ewp_throw, HE.
  - by apply HE.
Qed.

(** The identity read at history [h] is that of a real directory. *)
Lemma wp_identity g a s (Q : reply identity -> st kcall unit -> Prop) st :
  (forall target id, cgroup_path g a s = Ok target ->
     k_lstat (hist st) target = Done (KDir, id_inode id) -> 0 < id_inode id ->
     id_path id = path_string target ->
     Q (Done id) (St (hist st ++ [KLstat target; KResolve (path_string target)]) (obj st))) ->
  (forall r k, (forall id, r <> Done id) -> Q r (St (hist st ++ k) (obj st))) ->
  ewp (identity_of g a s) Q st.
Proof.
  intros HD HE. unfold identity_of, wrapping. apply ewp_bind, ewp_lift.
  destruct (cgroup_path g a s) as [target|e] eqn:Et.
  2:{ pose proof (HE (Raised e) []) as H. rewrite app_nil_r in H. destruct st. by apply H. }
  apply ewp_bind, ewp_catch, ewp_perform. intros r Hr.
  destruct r as [[kind inode]|e|]; [|destruct (os_errors e); by apply ewp_throw, HE|by apply HE].
  apply ewp_bind, ewp_throw_when; [intros _; by apply HE|]. intros Hk. simpl in Hk.
  apply negb_false_iff, bool_decide_eq_true in Hk as ->.
  apply ewp_bind, ewp_perform. intros r _. simpl.
  destruct r as [canonical|e|]; [|rewrite <- app_assoc; by apply HE..].
  apply ewp_bind, ewp_throw_when; [intros _; rewrite <- app_assoc; by apply HE|].
  intros [Hc Hi]%orb_false_iff. apply negb_false_iff, bool_decide_eq_true in Hc as ->.
  apply Z.leb_gt in Hi. simpl in Hi. rewrite <- app_assoc. simpl.
  destruct (relative_to (cg_mount g) target); [|by apply ewp_throw, HE].
  by apply ewp_ret, (HD target).
Qed.

(** Between [h] and [h'] the kernel was asked whether the cgroup has processes,
    and told that it has none: its [cgroup.events] is not there, or says so. *)
Definition seen_empty (target : kpath) (h h' : list kcall) : Prop :=
  exists p, h `prefix_of` p /\ (p ++ [KExists (events_file target)]) `prefix_of` h' /\
    (k_exists p (events_file target) = Done false \/
     (events_say (p ++ [KExists (events_file target)]) target "populated" "0" /\
      (p ++ [KExists (events_file target); KRead (events_file target)]) `prefix_of` h')).

Lemma seen_empty_look target h p k :
  h `prefix_of` p ->
  (k = [KExists (events_file target)] /\ k_exists p (events_file target) = Done false) \/
  (k = [KExists (events_file target); KRead (events_file target)] /\
   events_say (p ++ [KExists (events_file target)]) target "populated" "0") ->
  seen_empty target h (p ++ k).
Proof.
  intros Hp [[-> Hx]|[-> Hs]]; exists p; (split; [done|]); (split; [|by auto]).
  - done.
  - by apply prefix_app, prefix_cons, prefix_nil.
Qed.

(** A look at the cgroup, within a wait that began at [h]. *)
Lemma wp_populated_look g a s h (Q : reply bool -> st kcall unit -> Prop) st :
  h `prefix_of` hist st ->
  (forall st', h `prefix_of` hist st' -> Q (Done true) st') ->
  (forall target st', cgroup_path g a s = Ok target -> seen_empty target h (hist st') ->
     h `prefix_of` hist st' -> Q (Done false) st') ->
  (forall r st', (forall b, r <> Done b) -> h `prefix_of` hist st' -> Q r st') ->
  ewp (populated g a s) Q st.
Proof.
  intros Hh HT HF HE. apply wp_populated.
  - intros target b k Ht _ Hb. assert (h `prefix_of` hist st ++ k) as Hp by by apply prefix_app_r.
    destruct b; [by apply HT|]. apply (HF target); [done| |done]. by apply seen_empty_look; [|apply Hb].
  - intros r k Hr _. apply HE; [done|]. by apply prefix_app_r.
Qed.

Lemma wp_wait_empty g a s timeout st :
  ewp (wait_empty fuel g a s timeout) (fun r st' => hist st `prefix_of` hist st' /\
    (r = Done true -> exists target, cgroup_path g a s = Ok target /\
       seen_empty target (hist st) (hist st'))) st.
Proof.
  unfold wait_empty. apply ewp_bind, ewp_perform. intros r <-. simpl.
  generalize (k_clock (hist st) + timeout). intros deadline.
  assert (hist st `prefix_of` hist st ++ [KClock]) as Hext by by eexists.
  revert Hext. generalize (hist st ++ [KClock]) as h. generalize (obj st) as o.
  generalize (hist st) as h0. clear st.
  induction fuel as [|n IH]; intros h0 o h Hext; [by split|].
  apply ewp_bind, ewp_perform. intros r <-. simpl.
  assert (h0 `prefix_of` h ++ [KClock]) as Hext' by by apply prefix_app_r.
  destruct (_ <? deadline); apply ewp_bind, (wp_populated_look _ _ _ h0); [done| | | |done| | |].
  - intros st' Hp. apply ewp_bind, ewp_perform. intros r <-. simpl. apply IH. by apply prefix_app_r.
  - intros target st' Ht Hseen Hp. apply ewp_ret. split; [done|]. by exists target.
  - intros [b|e|] st' Hnd Hp; [by destruct (Hnd b)|by split..].
  - intros st' Hp. by apply ewp_ret.
  - intros target st' Ht Hseen Hp. apply ewp_ret. split; [done|]. by exists target.
  - intros [b|e|] st' Hnd Hp; [by destruct (Hnd b)|by split..].
Qed.

(** What the kernel reported before a cgroup counts as quiescent: that it is
    empty, then the same directory before and after the freeze, frozen in
    between, and empty at the very end. *)
Definition reported_quiescent (target : kpath) (inode : Z) (h h' : list kcall) : Prop :=
  exists p0 p1 p2 p3 p4,
    seen_empty target h p0 /\
    p0 `prefix_of` p1 /\ k_lstat p1 target = Done (KDir, inode) /\ p1 `prefix_of` p2 /\
    acknowledged target true p2 p3 /\
    p3 `prefix_of` p4 /\ k_lstat p4 target = Done (KDir, inode) /\
    exists p5, p4 `prefix_of` p5 /\ events_say p5 target "populated" "0" /\
      h' = p5 ++ [KRead (events_file target)].

Lemma wp_freeze g a s expected require_populated timeout
    (Q : reply identity -> st kcall unit -> Prop) st :
  (forall target id h' p1 p2 p3 p4, cgroup_path g a s = Ok target -> id_inode id = expected ->
     hist st `prefix_of` p1 -> k_lstat p1 target = Done (KDir, expected) -> p1 `prefix_of` p2 ->
     acknowledged target true p2 p3 -> p3 `prefix_of` p4 ->
     k_lstat p4 target = Done (KDir, expected) -> p4 `prefix_of` h' ->
     Q (Done id) (St h' (obj st))) ->
  (forall r h', (forall id, r <> Done id) -> Q r (St h' (obj st))) ->
  ewp (freeze fuel g a s expected require_populated timeout) Q st.
Proof.
  intros HD HE. unfold freeze. apply ewp_bind, wp_identity; [|intros [id|e|] k Hnd;
    [by destruct (Hnd id)|by apply HE..]].
  intros target id Ht Hl _ _. apply ewp_bind, ewp_throw_when; [intros _; by apply HE|].
  intros Hid. apply negb_false_iff, Z.eqb_eq in Hid. rewrite Hid in Hl.
  rewrite Ht. apply ewp_bind, ewp_ret. apply ewp_bind, wp_set_frozen; simpl;
    [|intros [[]|e|] k Hnd; [done|by apply HE..]].
  intros p3 Hack. apply ewp_bind, wp_events; [|intros [d|e|] Hnd _;
    [by destruct (Hnd d)|by apply HE..]].
  intros d _ _ _. apply ewp_bind, ewp_throw_when; [intros _; by apply HE|]. intros _.
  apply ewp_bind, wp_identity; [|intros [id'|e|] k Hnd; [by destruct (Hnd id')|by apply HE..]].
  intros target' id' Ht' Hl' _ _. rewrite Ht in Ht'. injection Ht' as <-.
  apply ewp_bind, ewp_throw_when; [intros _; by apply HE|].
  intros Heq%negb_false_iff%bool_decide_eq_true. subst id'. rewrite Hid in Hl'. simpl in *.
  apply ewp_ret. eapply HD; [exact Ht|exact Hid|reflexivity|exact Hl| |exact Hack| |exact Hl'|];
    first [by apply prefix_app_r|rewrite <- app_assoc; by apply prefix_app_r].
Qed.

(** C23: A cgroup is declared quiescent only on the kernel's word for it: it had
    been reported empty before the freeze was requested (or without a
    [cgroup.events] file), it is the same real directory with the expected inode
    before and after the freeze, the freeze was requested and acknowledged in
    between, and the last thing the kernel reported is that no process is left
    in it. *)
Theorem quiesce_certified g a s expected timeout h :
  let '(r, st) := quiesce_empty fuel g a s expected timeout (St h ()) in
  match r with
  | Done id => exists target, cgroup_path g a s = Ok target /\ id_inode id = expected /\
      reported_quiescent target expected h (hist st)
  | _ => True
  end.
Proof.
  assert (ewp (quiesce_empty fuel g a s expected timeout) (fun r st =>
    match r with
    | Done id => exists target, cgroup_path g a s = Ok target /\ id_inode id = expected /\
        reported_quiescent target expected h (hist st)
    | _ => True
    end) (St h ())) as H; [|unfold ewp in H; by destruct (quiesce_empty _ _ _ _ _ _ _)].
  unfold quiesce_empty. apply ewp_bind. eapply ewp_mono; [apply wp_wait_empty|].
  intros [b|e|] st [_ Hempty]; [|done..]. apply ewp_bind, ewp_throw_when; [done|].
  intros ->%negb_false_iff. destruct (Hempty eq_refl) as (target0 & Ht0 & Hseen). clear Hempty.
  apply ewp_bind, wp_freeze; [|by intros [id|e|] h' Hnd; [destruct (Hnd id)|..]].
  intros target id h' p1 p2 p3 p4 Ht Hid H1 Hl H2 Hack H3 Hl' H4. simpl in *.
  rewrite Ht. apply ewp_bind, ewp_ret. apply ewp_bind, wp_events;
    [|by intros [d|e|] Hnd _; [destruct (Hnd d)|..]].
  intros d Hsay _ _. apply ewp_bind, ewp_throw_when; [done|]. intros Hp.
  apply negb_false_iff, py_eqb_str_r in Hp. apply ewp_ret. exists target. split; [done|].
  split; [done|]. exists (hist st), p1, p2, p3, p4.
  replace target0 with target in Hseen by congruence. do 7 (split; [done|]). exists h'. split; [done|]. split; [by apply Hsay|done].
Qed.
(** ** Attaching *)

Definition procs_file (path : kpath) : kpath := path ++ ["cgroup.procs"].

(** The call puts no process into a cgroup. *)
Definition no_attach (c : kcall) : Prop :=
  match c with KWrite p _ => last p <> Some "cgroup.procs" | _ => True end.

Lemma last_snoc_ne {A} (l : list A) x y : y <> x -> last (l ++ [y]) <> Some x.
Proof. rewrite last_snoc. congruence. Qed.

Ltac no_attach :=
  repeat first [only_step | unfold wrapping, read_text, write_text, mkdir, exists_, lstat, resolve,
    subdirs, rmdir, monotonic, sleep, run_command];
  try exact I; try (by apply last_snoc_ne).

Lemma only_events path : only no_attach (_events path).
Proof. unfold _events. no_attach. Qed.

Lemma only_await_frozen n path frozen deadline :
  only no_attach (await_frozen n path frozen deadline).
Proof.
  induction n as [|n IH]; simpl; [by apply only_same|]. no_attach; auto using only_events.
Qed.

Lemma only_set_frozen path frozen timeout : only no_attach (_set_frozen fuel path frozen timeout).
Proof. unfold _set_frozen. no_attach. apply only_await_frozen. Qed.

Lemma only_populated g a s : only no_attach (populated g a s).
Proof. unfold populated. no_attach. Qed.

(** The limit was written, and read back with its value, before [h]. *)
Definition sealed (target : kpath) (limit : string * string) (h : list kcall) : Prop :=
  exists p text, KWrite (target ++ [limit.1]) limit.2 ∈ p /\
    (p ++ [KRead (target ++ [limit.1])]) `prefix_of` h /\
    k_read p (target ++ [limit.1]) = Done text /\ string_strip text = limit.2.

(** Nobody was in the cgroup, as far as the kernel told before [h]. *)
Definition found_empty (target : kpath) (h : list kcall) : Prop :=
  exists p, (p ++ [KExists (events_file target)]) `prefix_of` h /\
    (k_exists p (events_file target) = Done false \/
     events_say (p ++ [KExists (events_file target)]) target "populated" "0").

(** What must hold before a process is put into the cgroup. *)
Definition ready (target : kpath) (h : list kcall) : Prop :=
  found_empty target h /\ (exists h1 h2, acknowledged target false h1 h2 /\ h2 `prefix_of` h) /\
  forall limit, limit ∈ _LEAF_LIMITS -> sealed target limit h.
Lemma wp_seal_leaf target (Q : reply unit -> st kcall unit -> Prop) st :
  (forall k, (forall limit, limit ∈ _LEAF_LIMITS -> sealed target limit (hist st ++ k)) ->
     Q (Done ()) (St (hist st ++ k) (obj st))) ->
  (forall r st', r <> Done () -> Q r st') ->
  ewp (_seal_leaf target) Q st.
Proof.
  intros HD HE. unfold _seal_leaf, _LEAF_LIMITS, seal_limit, verify_limit, wrapping.
  apply ewp_bind, ewp_bind, ewp_catch, ewp_perform. intros r1 _. simpl.
  destruct r1 as [[]|e|]; [|by destruct (os_errors e); apply ewp_throw, HE|by apply HE].
  apply ewp_bind, ewp_catch, ewp_perform. intros r2 _. simpl.
  destruct r2 as [[]|e|]; [|by destruct (os_errors e); apply ewp_throw, HE|by apply HE].
  apply ewp_ret, ewp_bind, ewp_bind, ewp_catch, ewp_perform. intros r3 H3. simpl in H3.
  destruct r3 as [t1|e|]; [|by destruct (os_errors e); apply ewp_throw, HE|by apply HE].
  apply ewp_throw_when; [intros _; by apply HE|]. intros Ht1%negb_false_iff%str_eqb_eq.
  apply ewp_bind, ewp_bind, ewp_catch, ewp_perform. intros r4 H4. simpl in H4. simpl.
  destruct r4 as [t2|e|]; [|by destruct (os_errors e); apply ewp_throw, HE|by apply HE].
  apply ewp_throw_when; [intros _; by apply HE|]. intros Ht2%negb_false_iff%str_eqb_eq.
  apply ewp_ret. rewrite <- !app_assoc. apply HD.
  intros limit. unfold _LEAF_LIMITS. rewrite !elem_of_cons, elem_of_nil. intros [->|[->|[]]].
  - eexists _, t1. split; [|split; [|split; [exact H3|exact Ht1]]]; [set_solver|].
    rewrite <- !app_assoc. simpl. apply prefix_app. do 3 apply prefix_cons. apply prefix_nil.
  - eexists _, t2. split; [|split; [|split; [exact H4|exact Ht2]]]; [set_solver|].
    rewrite <- !app_assoc. done.
Qed.

Lemma sealed_mono target limit h h' : h `prefix_of` h' -> sealed target limit h -> sealed target limit h'.
Proof. intros Hp (p & t & ? & ? & ? & ?). exists p, t. split; [done|]. split; [by etrans|done]. Qed.

(** How attaching goes: no process is moved, or one is, as the very last
    call, into a cgroup that is ready for it. *)
Definition attach_outcome (g : session_cgroup) (a s : string) (pid : Z) (h : list kcall)
    (r : reply kpath) (h' : list kcall) : Prop :=
  exists k, h' = h ++ k /\
  ((Forall no_attach k /\ forall target, r <> Done target) \/
   exists k0 target, k = k0 ++ [KWrite (procs_file target) (pretty pid)] /\ 0 < pid /\
     cgroup_path g a s = Ok target /\ Forall no_attach k0 /\ ready target (h ++ k0)).

Lemma attach_stopped g a s pid h r k :
  Forall no_attach k -> (forall target, r <> Done target) ->
  attach_outcome g a s pid h r (h ++ k).
Proof. intros Hk Hr. exists k. split; [done|]. by left. Qed.

(** The last step: the process is moved. *)
Lemma wp_attach_move g a s pid h k0 target :
  0 < pid -> cgroup_path g a s = Ok target -> Forall no_attach k0 -> ready target (h ++ k0) ->
  ewp (wrapping os_errors "failed to attach process to Session cgroup"
         (write_text (procs_file target) (pretty pid));; mret target)
    (fun r st => attach_outcome g a s pid h r (hist st)) (St (h ++ k0) ()).
Proof.
  intros Hpid Et Hk0 Hready.
  assert (forall r, attach_outcome g a s pid h r
    ((h ++ k0) ++ [KWrite (procs_file target) (pretty pid)])) as Hout.
  { intros r. exists (k0 ++ [KWrite (procs_file target) (pretty pid)]).
    split; [by rewrite app_assoc|]. right. by exists k0, target. }
  apply ewp_bind. unfold wrapping. apply ewp_catch, ewp_perform. intros r _. simpl.
  destruct r as [[]|e|]; [by apply ewp_ret| |by apply Hout].
  by destruct (os_errors e); apply ewp_throw, Hout.
Qed.

(** Sealing and moving, in a cgroup that was found empty and has thawed. *)
Lemma wp_attach_sealed g a s pid h k0 target :
  0 < pid -> cgroup_path g a s = Ok target -> Forall no_attach k0 ->
  found_empty target (h ++ k0) -> (exists h1, acknowledged target false h1 (h ++ k0)) ->
  ewp (_seal_leaf target;;
       wrapping os_errors "failed to attach process to Session cgroup"
         (write_text (procs_file target) (pretty pid));; mret target)
    (fun r st => attach_outcome g a s pid h r (hist st)) (St (h ++ k0) ()).
Proof.
  intros Hpid Et Hk0 (p & Hp & Hfound) (h1 & Hack). apply ewp_bind.
  eapply ewp_only; [instantiate (1 := no_attach); unfold _seal_leaf, seal_limit,
    verify_limit; no_attach|].
  apply wp_seal_leaf; simpl.
  - intros k3 Hsealed k3' <-%app_inv_head Hn3. rewrite <- app_assoc in *.
    apply wp_attach_move; [done|done|by apply Forall_app|]. split; [|split; [|exact Hsealed]].
    + exists p. split; [|done]. etrans; [exact Hp|]. rewrite app_assoc. by apply prefix_app_r.
    + exists h1, (h ++ k0). split; [done|]. rewrite app_assoc. by apply prefix_app_r.
  - intros r st Hnd k3 Hk3 Hn3. rewrite Hk3, <- app_assoc.
    assert (Forall no_attach (k0 ++ k3)) by (by apply Forall_app).
    destruct r as [[]|e|]; [done|by apply attach_stopped..].
Qed.

Lemma wp_attach g a s pid h :
  ewp (attach fuel g a s pid) (fun r st => attach_outcome g a s pid h r (hist st)) (St h ()).
Proof.
  assert (forall e, attach_outcome g a s pid h (Raised e) h) as Hnone.
  { intros e. pose proof (attach_stopped g a s pid h (Raised e) []) as H.
    rewrite app_nil_r in H. by apply H. }
  unfold attach. apply ewp_bind, ewp_throw_when; [done|]. intros Hpid%Z.leb_gt.
  apply ewp_bind, ewp_lift. destruct (cgroup_path g a s) as [target|e] eqn:Et; [|done].
  apply ewp_bind, ewp_perform. intros r _. simpl.
  destruct r as [[]|e|]; [|apply attach_stopped; [by repeat constructor|done]..].
  apply ewp_bind. eapply ewp_only; [apply only_populated|]. apply wp_populated; simpl.
  2:{ intros r k1 Hnd _ k1' <-%app_inv_head Hk1. rewrite <- app_assoc.
      destruct r as [b|e|]; [by destruct (Hnd b)|apply attach_stopped; [by constructor|done]..]. }
  intros target' b k1 Et' _ Hempty k1' <-%app_inv_head Hk1. rewrite Et in Et'. injection Et' as <-.
  rewrite <- app_assoc. apply ewp_bind, ewp_throw_when.
  { intros _. apply attach_stopped; [by constructor|done]. }
  intros ->. specialize (Hempty eq_refl).
  assert (found_empty target (h ++ [KMkdir target] ++ k1)) as (p & Hp & Hfound).
  { exists (h ++ [KMkdir target]). destruct Hempty as [[-> Hx]|[-> Hx]].
    - split; [by rewrite app_assoc|]. by left.
    - split; [|by right]. rewrite app_assoc. apply prefix_app, prefix_cons, prefix_nil. }
  apply ewp_bind. eapply ewp_only; [apply only_set_frozen|]. apply wp_set_frozen; simpl.
  - intros h2 Hack k2 -> Hk2. rewrite <- app_assoc in *. apply wp_attach_sealed; [done|done|..].
    + constructor; [done|by apply Forall_app].
    + exists p. split; [|done]. etrans; [exact Hp|]. simpl. apply prefix_app, prefix_cons.
      by apply prefix_app_r.
    + by eexists.
  - intros r k2 Hnd k2' <-%app_inv_head Hk2. rewrite <- app_assoc. simpl.
    assert (Forall no_attach (KMkdir target :: k1 ++ k2))
      by (constructor; [done|by apply Forall_app]).
    destruct r as [[]|e|]; [done|by apply attach_stopped..].
Qed.

(** Also: A process is put into a session's cgroup only when everything that
    contains it is in place: the kernel reported the cgroup empty, acknowledged
    that it is thawed, and gave back the limits that make it a leaf; the move
    is the last thing done.  When any step fails no process is moved. *)
Theorem attach_guarded g a s pid h :
  let '(r, st) := attach fuel g a s pid (St h ()) in
  exists k, hist st = h ++ k /\
  ((Forall no_attach k /\ forall target, r <> Done target) \/
   exists k0 target, k = k0 ++ [KWrite (procs_file target) (pretty pid)] /\ 0 < pid /\
     cgroup_path g a s = Ok target /\ Forall no_attach k0 /\ ready target (h ++ k0)).
Proof.
  pose proof (wp_attach g a s pid h) as H. unfold ewp in H. by destruct (attach _ _ _ _ _ _).
Qed.
End cgroup.

(** ** A concrete kernel *)

(** Whether the last value written to the freezer is [1]. *)
Definition frozen_now (l : list kcall) : bool :=
  match List.find (fun c => match c with KWrite p _ => bool_decide (last p = Some "cgroup.freeze")
                                       | _ => false end) (rev l) with
  | Some (KWrite _ t) => str_eqb t "1"
  | _ => false
  end.

(** A kernel whose clock is the time slept, and that freezes at once. *)
Definition demo_kernel : Kernel := {|
  k_read l p :=
    if bool_decide (last p = Some "cgroup.events")
    then Done ("populated 0" +:+ newline +:+ "frozen " +:+ bit (frozen_now l) +:+ newline)
    else Done "0";
  k_write _ _ _ := Done ();
  k_mkdir _ _ := Done ();
  k_exists _ _ := Done true;
  k_lstat _ _ := Done (KDir, 7);
  k_resolve _ p := Done (List.filter (fun w => negb (str_eqb w EmptyString)) (string_split "/" p));
  k_subdirs _ _ := Done [];
  k_rmdir _ _ := Done ();
  k_clock l := slept l;
  k_run _ _ := Done () |}.

#[export] Instance demo_clock : ClockLaws demo_kernel.
Proof. split. intros l k. simpl. rewrite slept_app. lia. Defined.

#[export] Instance demo_uninterrupted : Uninterrupted demo_kernel.
Proof. split; intros; simpl; [destruct (bool_decide _)|..]; discriminate. Defined.

Definition demo_cgroups : session_cgroup :=
  SessionCgroup ["sys"; "fs"; "cgroup"; "allox"] ["sys"; "fs"; "cgroup"].

Lemma polling_terminates_witness :
  (@_set_frozen demo_kernel 1000 ["sys"] true (seconds 5) (St [] ())).1 <> Interrupted /\
  (@wait_empty demo_kernel 1000 demo_cgroups "a" "s" (seconds 5) (St [] ())).1 <> Interrupted.
Proof.
  apply (@polling_terminates demo_kernel 1000 demo_clock demo_uninterrupted demo_cgroups "a" "s").
  unfold seconds, ms. lia.
Defined.

(** A process is attached, and the empty cgroup is later certified. *)
Example attach_and_quiesce :
  (@attach demo_kernel 10 demo_cgroups "a" "s" 42 (St [] ())).1
    = Done ["sys"; "fs"; "cgroup"; "allox"; "agents"; "a"; "sessions"; "s"] /\
  (@quiesce_empty demo_kernel 10 demo_cgroups "a" "s" 7 (seconds 5) (St [] ())).1
    = Done (Identity "/sys/fs/cgroup/allox/agents/a/sessions/s" "/allox/agents/a/sessions/s" 7).
Proof. vm_compute. done. Qed.
