(* ===== verification/Sandbox.v ===== *)
(** * The sandbox command line

    [src/src/allox/runtime/sandboxing.py]: the Bubblewrap command in which a
    session's process runs. *)

From Stdlib Require Import Ascii.
From Stdlib Require String.
From S2P Require Import Prelude Paths PyVal Ids Text Effects Extensions.
Open Scope Z_scope.

Definition dq (s : string) : string := quote +:+ s +:+ quote.

(** The lines of the shell script that keeps [/tmp] across runs. *)
Definition wrapper_lines : list string :=
  ["set -eu";
   "barrier_enabled=$1";
   "shift";
   "cp -a /workspace/.allox-tmp/. /tmp/";
   "if [ " +:+ dq "$barrier_enabled" +:+ " = 1 ]; then";
   "    kill -STOP " +:+ dq "$$";
   "elif [ " +:+ dq "$barrier_enabled" +:+ " != 0 ]; then";
   "    exit 125";
   "fi";
   "status=0";
   "/usr/bin/env -i -- " +:+ dq "$@" +:+ " || status=$?";
   "find /tmp -xdev \( -type s -o -type p -o -type b -o -type c \) -delete";
   "rm -rf /workspace/.allox-tmp.new";
   "install -d -m 700 /workspace/.allox-tmp.new";
   "cp -a /tmp/. /workspace/.allox-tmp.new/";
   "rm -rf /workspace/.allox-tmp";
   "mv /workspace/.allox-tmp.new /workspace/.allox-tmp";
   "exit " +:+ dq "$status"].

Definition _TMP_SYNC_WRAPPER : string := string_join newline wrapper_lines +:+ newline.

Definition nul : ascii := "000".

(** [not key or "=" in key or "\0" in key + value] *)
Definition bad_variable (kv : string * string) : bool :=
  str_eqb kv.1 EmptyString || char_in "=" kv.1 || char_in nul (kv.1 +:+ kv.2).

(** The fixed options before the mounts. *)
Definition bwrap_options (workspace_path agent_shared_path : string) : list string :=
  ["bwrap"; "--die-with-parent"; "--new-session"; "--unshare-pid"; "--tmpfs"; "/";
   "--ro-bind"; "/usr"; "/usr"; "--symlink"; "usr/bin"; "/bin"; "--symlink"; "usr/sbin"; "/sbin";
   "--symlink"; "usr/lib"; "/lib"; "--symlink"; "usr/lib64"; "/lib64"; "--ro-bind"; "/etc"; "/etc";
   "--dev"; "/dev"; "--proc"; "/proc"; "--bind"; workspace_path; "/workspace"; "--dir"; "/agent";
   "--bind"; agent_shared_path; "/agent/shared"; "--tmpfs"; "/tmp"; "--cap-drop"; "ALL";
   "--clearenv"; "--setenv"; "PATH"; "/usr/bin:/bin"; "--setenv"; "HOME"; "/";
   "--setenv"; "TMPDIR"; "/tmp"].

(** What the session always is and where it lives, whatever a caller sets. *)
Definition trusted_environment (agent_id session_id : string) (run_id : option string) : dict :=
  [("HOME", PStr "/workspace"); ("TMPDIR", PStr "/tmp"); ("ALLOX_AGENT_ID", PStr agent_id);
   ("ALLOX_AGENT_WORKSPACE", PStr "/agent"); ("ALLOX_AGENT_SHARED", PStr "/agent/shared");
   ("ALLOX_SESSION_ID", PStr session_id)]
  ++ match run_id with Some r => [("ALLOX_RUN_ID", PStr r)] | None => [] end.

(** [{"PATH": ..., **dict(environment), "HOME": ...}], values being strings. *)
Definition agent_environment (agent_id session_id : string) (run_id : option string)
    (environment : list (string * string)) : dict :=
  dupdate (dupdate [("PATH", PStr "/usr/local/bin:/usr/bin:/bin")] (pairs environment))
    (trusted_environment agent_id session_id run_id).

(** [f"{key}={value}"] *)
Definition assignment (kv : string * pyval) : string := kv.1 +:+ "=" +:+ str_or kv.2 EmptyString.

(** The options for the mounts; each missing parent is created once. *)
Fixpoint mount_options (mounts : list mount) (created : list string) : list string :=
  match mounts with
  | [] => []
  | m :: mounts =>
      let parent := path_str (path_parent (parse_path (m_target m))) in
      let fresh := negb (str_eqb parent "/") && negb (existsb (str_eqb parent) created) in
      (if fresh then ["--dir"; parent] else [])
      ++ [if m_read_only m then "--ro-bind" else "--bind"; m_source m; m_target m]
      ++ mount_options mounts (if fresh then parent :: created else created)
  end.

Definition build_bwrap_argv (workspace_path agent_shared_path agent_id session_id : string)
    (command : list string) (environment : list (string * string)) (mounts : list mount)
    (launch_barrier : pyval) (run_id : option string) : result (list string) :=
  _ ← validate_id "agent" agent_id;
  _ ← validate_id "session" session_id;
  match command with
  | [] => Err (WorkspaceError "workspace run requires a command after --")
  | executable :: _ =>
      raise_if (char_in "=" executable)
        (WorkspaceError "sandbox executable name cannot contain '='");;
      _ ← match run_id with Some r => validate_id "run" r | None => Ok EmptyString end;
      raise_if (existsb bad_variable environment) (WorkspaceError "invalid sandbox environment");;
      match launch_barrier with
      | PBool barrier =>
          Ok (bwrap_options workspace_path agent_shared_path ++ mount_options mounts []
              ++ ["--chdir"; "/workspace"; "/bin/sh"; "-c"; _TMP_SYNC_WRAPPER; "allox-runtime";
                  if barrier then "1" else "0"]
              ++ map assignment (agent_environment agent_id session_id run_id environment)
              ++ command)
      | _ => Err (WorkspaceError "invalid trusted launch barrier")
      end
  end.

(** ** Properties *)

(** What [env -i -- ...] takes as the environment: the leading assignments. *)
Fixpoint leading_assignments (argv : list string) : list string * list string :=
  match argv with
  | [] => ([], [])
  | w :: argv =>
      if char_in "=" w then let '(e, c) := leading_assignments argv in (w :: e, c)
      else ([], w :: argv)
  end.

Lemma char_in_concat c s t : char_in c (s +:+ t) = char_in c s || char_in c t.
Proof.
  unfold char_in. induction s as [|d s IH]; [done|]. rewrite string_app_cons. simpl.
  by rewrite IH, orb_assoc.
Qed.

Lemma assignment_has_eq kv : char_in "=" (assignment kv) = true.
Proof. unfold assignment. rewrite !char_in_concat. simpl. by rewrite orb_true_r. Qed.

Lemma leading_assignments_app items command :
  forallb (char_in "=") items = true ->
  match command with [] => True | w :: _ => char_in "=" w = false end ->
  leading_assignments (items ++ command) = (items, command).
Proof.
  intros Hi Hc. induction items as [|w items IH]; simpl in *.
  - destruct command as [|w command]; [done|]. simpl. by rewrite Hc.
  - apply andb_true_iff in Hi as [-> Hi]. by rewrite IH.
Qed.

Lemma dget_dupdate k d e :
  dget k (dupdate d e) = match dget k (dupdate [] e) with Some v => Some v | None => dget k d end.
Proof.
  unfold dupdate. revert d. induction e as [|[k' v'] e IH] using rev_ind; intros d; simpl.
  - done.
  - rewrite !fold_left_app. simpl. rewrite !dget_dset. destruct (str_eqb k k'); [done|]. apply IH.
Qed.

Lemma dget_dupdate_in k v d e :
  dget k (dupdate [] e) = Some v -> dget k (dupdate d e) = Some v.
Proof. intros H. rewrite dget_dupdate. by rewrite H. Qed.

Lemma dset_fresh k v d : k ∉ dkeys d -> dset k v d = d ++ [(k, v)].
Proof.
  induction d as [|[k' v'] d IH]; simpl; [done|]. intros Hk.
  destruct (str_eqb k k') eqn:E; [apply str_eqb_eq in E; subst; set_solver|].
  rewrite IH; [done|]. unfold dkeys in *. set_solver.
Qed.

Lemma dupdate_fresh d e : NoDup (dkeys (d ++ e)) -> dupdate d e = d ++ e.
Proof.
  unfold dupdate. revert d. induction e as [|[k v] e IH]; intros d Hn; simpl; [by rewrite app_nil_r|].
  rewrite dset_fresh.
  - rewrite IH; [by rewrite <- app_assoc|]. by rewrite <- app_assoc.
  - unfold dkeys in *. rewrite fmap_app in Hn. simpl in Hn. apply NoDup_app in Hn as (_ & Hn & _).
    intros Hk. apply (Hn k Hk). left.
Qed.

Lemma trusted_environment_id a s run_id :
  dupdate [] (trusted_environment a s run_id) = trusted_environment a s run_id.
Proof. apply dupdate_fresh. destruct run_id; apply (bool_decide_unpack _); vm_compute; exact I. Qed.

(** Also: What runs in the sandbox is exactly the requested command with exactly
    the composed environment: [env] finds the assignments and then the
    command, none of which it can take for the other, and the variables that
    say whose session it is and where it lives have their trusted values
    whatever the caller and the plugins ask for. *)
Theorem sandbox_command_exact workspace shared a s command environment mounts barrier run_id argv :
  build_bwrap_argv workspace shared a s command environment mounts barrier run_id = Ok argv ->
  exists trusted env,
    argv = bwrap_options workspace shared ++ mount_options mounts [] ++ trusted ++ env ++ command /\
    trusted = ["--chdir"; "/workspace"; "/bin/sh"; "-c"; _TMP_SYNC_WRAPPER; "allox-runtime";
               if py_truthy barrier then "1" else "0"] /\
    leading_assignments (env ++ command) = (env, command) /\
    env = map assignment (agent_environment a s run_id environment) /\
    (forall k v, dget k (trusted_environment a s run_id) = Some v ->
       dget k (agent_environment a s run_id environment) = Some v) /\
    (forall k v, dget k (trusted_environment a s run_id) = None -> k <> "PATH" ->
       dget k (agent_environment a s run_id environment) = Some v ->
       exists w, v = PStr w /\ (k, w) ∈ environment).
Proof.
  unfold build_bwrap_argv. intros H. ok_inv. destruct command as [|executable command]; [done|].
  ok_inv. destruct barrier as [|barrier| | | | |]; try done. ok_inv.
  exists ["--chdir"; "/workspace"; "/bin/sh"; "-c"; _TMP_SYNC_WRAPPER; "allox-runtime";
          if barrier then "1" else "0"], (map assignment (agent_environment a s run_id environment)).
  split; [done|]. split; [done|]. split.
  { apply leading_assignments_app; [|done]. apply forallb_forall. intros w Hw.
    apply in_map_iff in Hw as (kv & <- & _). apply assignment_has_eq. }
  split; [done|]. unfold agent_environment. split.
  - intros k v Hk. apply dget_dupdate_in. by rewrite trusted_environment_id.
  - intros k v Hk HP. rewrite dget_dupdate, trusted_environment_id, Hk.
    rewrite dget_dupdate. destruct (dget k (dupdate [] (pairs environment))) as [w|] eqn:Ew.
    + intros [= <-]. clear - Ew. revert Ew. unfold dupdate.
      induction environment as [|[k' v'] environment IH] using rev_ind; [done|].
      unfold pairs. rewrite fmap_app, fold_left_app. simpl. rewrite dget_dset.
      destruct (str_eqb k k') eqn:Ek.
      * apply str_eqb_eq in Ek as ->. intros [= <-]. exists v'. set_solver.
      * intros (u & -> & Hu)%IH. exists u. set_solver.
    + simpl. destruct (str_eqb k "PATH") eqn:Ek; [by apply str_eqb_eq in Ek|done].
Qed.

Definition demo_argv : list string :=
  match build_bwrap_argv "/srv/ws" "/srv/shared" "a1" "s1" ["python3"; "A=1"] [("HOME", "/root")]
          [SandboxMount "/run/share.sock" "/run/allox/share.sock" true] (PBool true) None with
  | Ok argv => argv | Err _ => [] end.

Lemma sandbox_command_exact_witness :
  exists trusted env,
    demo_argv = bwrap_options "/srv/ws" "/srv/shared"
      ++ mount_options [SandboxMount "/run/share.sock" "/run/allox/share.sock" true] []
      ++ trusted ++ env ++ ["python3"; "A=1"] /\
    leading_assignments (env ++ ["python3"; "A=1"]) = (env, ["python3"; "A=1"]).
Proof.
  destruct (sandbox_command_exact "/srv/ws" "/srv/shared" "a1" "s1" ["python3"; "A=1"]
    [("HOME", "/root")] [SandboxMount "/run/share.sock" "/run/allox/share.sock" true] (PBool true)
    None demo_argv ltac:(vm_compute; reflexivity)) as (trusted & env & H & _ & Hl & _).
  exists trusted, env. by split.
Defined.

(** The session's home is not what the caller asked for. *)
Example home_is_trusted :
  In "HOME=/workspace" demo_argv /\ ~ In "HOME=/root" demo_argv.
Proof. vm_compute. split; [by repeat (first [by left|right])|]. intuition discriminate. Qed.
