(* ===== verification/Bootstrap.v ===== *)
(** * Preparing the guest

    [src/src/allox/runtime/bootstrap.py]: the cgroup v2 subtree that the
    sessions' cgroups live in is found, made writable and created. *)

From Stdlib Require Import Ascii.
From Stdlib Require String.
From S2P Require Import Prelude Effects PyVal Text Kernel Cgroup.
Open Scope Z_scope.

(** A line of the mount table: mount point, file system and options. *)
Record mount_entry := MountEntry {
  me_mount : kpath; me_filesystem : string; me_options : list string }.

(** The fields of a line, before its mount point is resolved; [None] when one
    is missing and the line is skipped. *)
Definition mount_fields (line : string) : option (string * string * list string) :=
  '(fields, optional) ← split_once " - " line;
  raw ← split_words fields !! 4%nat;
  filesystem ← split_words optional !! 0%nat;
  options ← split_words fields !! 5%nat;
  super ← split_words optional !! 2%nat;
  Some (_unescape_mount_path raw, filesystem,
        string_split "," options ++ string_split "," super).

Section bootstrap.
Context `{Kernel}.

(** The mount point is resolved before the options are read, so a line that
    lacks only options costs a lookup. *)
Definition resolvable (line : string) : option string :=
  '(fields, optional) ← split_once " - " line; _unescape_mount_path <$> (split_words fields !! 4%nat).

Fixpoint mount_table (lines : list string) : K (list mount_entry) :=
  match lines with
  | [] => mret []
  | line :: lines =>
      match resolvable line with
      | None => mount_table lines
      | Some raw =>
          mount ← catch (m ← resolve raw; mret (Some m))
                    (fun e => if is_value_error e then mret None else throw e);
          rest ← mount_table lines;
          mret match mount, mount_fields line with
               | Some mount, Some (_, filesystem, options) =>
                   MountEntry mount filesystem options :: rest
               | _, _ => rest
               end
      end
  end.

Definition _mounts (mountinfo : kpath) : K (list mount_entry) :=
  text ← wrapping os_errors "cannot read Linux mount table" (read_text mountinfo);
  mount_table (splitlines text).

Fixpoint deepest_entry (l : list mount_entry) : option mount_entry :=
  match l with
  | [] => None
  | e :: l =>
      match deepest_entry l with
      | Some d => if (length (me_mount e) <? length (me_mount d))%nat then Some d else Some e
      | None => Some e
      end
  end.

Definition _cgroup2_mount (root : kpath) (mounts : list mount_entry) : option mount_entry :=
  deepest_entry (List.filter (fun e => str_eqb (me_filesystem e) "cgroup2" &&
                                       contains (me_mount e) root) mounts).

Definition remount_cgroup2 (mount : kpath) : K unit :=
  run_command ["mount"; "-o"; "remount,rw"; path_string mount].

(** [exc.errno in {errno.EROFS, errno.EACCES, errno.EPERM}] *)
Definition read_only_error (e : exn) : bool :=
  bool_decide (e = OSError "EROFS") || bool_decide (e = OSError "EACCES")
  || bool_decide (e = OSError "EPERM").

(** [str(exc)] in the messages is [exn_str]. *)
Definition cannot_create (e : exn) : exn :=
  WorkspaceError ("cannot create Allox cgroup subtree: " +:+ exn_str e).

(** Create the root; remount and retry when it is read-only and that was not
    done before.  The result says whether the mount was remounted. *)
Definition create_root (root mount : kpath) (remounted : bool) : K bool :=
  r ← catch (mkdir root;; mret None) (fun e => if is_os_error e then mret (Some e) else throw e);
  match r with
  | None => mret remounted
  | Some e =>
      throw_when (remounted || negb (read_only_error e)) (cannot_create e);;
      remount_cgroup2 mount;;
      wrapping os_errors "cannot create Allox cgroup subtree after remount" (mkdir root);;
      mret true
  end.

(** The part of the function after the first remount. *)
Definition create_subtree (root mount : kpath) (read_only : bool) : K dict :=
  remounted ← create_root root mount read_only;
  killable ← exists_ (root ++ ["cgroup.kill"]);
  throw_when (negb killable)
    (WorkspaceError "Allox requires cgroup v2 cgroup.kill (Linux 5.14+)");;
  mret [("cgroup_mount", PStr (path_string mount));
        ("cgroup_root", PStr (path_string root));
        ("cgroup_remounted_rw", PBool remounted)].

Definition prepare_session_runtime (cgroup_root : string) (mountinfo : kpath) (platform : string)
    : K dict :=
  throw_when (negb (str_eqb platform "linux"))
    (WorkspaceError "Allox kernel bootstrap requires Linux");;
  root ← resolve cgroup_root;
  mounts ← _mounts mountinfo;
  match _cgroup2_mount root mounts with
  | None => throw (WorkspaceError ("no cgroup v2 mount contains " +:+ path_string root))
  | Some entry =>
      throw_when (bool_decide (root = me_mount entry))
        (WorkspaceError "Allox requires a dedicated cgroup subtree");;
      let read_only := negb (existsb (str_eqb "rw") (me_options entry)) in
      (if read_only then remount_cgroup2 (me_mount entry) else mret ());;
      create_subtree root (me_mount entry) read_only
  end.
End bootstrap.

(** ** Properties *)

Section spec.
Context `{HK : Kernel}.

Definition is_run (c : kcall) : bool := match c with KRun _ => true | _ => false end.

(** How many commands were run. *)
Definition runs (k : list kcall) : nat := length (List.filter is_run k).

Lemma runs_app k1 k2 : runs (k1 ++ k2) = (runs k1 + runs k2)%nat.
Proof. unfold runs. by rewrite List.filter_app, length_app. Qed.

Definition quiet (c : kcall) : Prop := is_run c = false.

Lemma runs_quiet k : Forall quiet k -> runs k = 0%nat.
Proof. induction 1 as [|c k Hc _ IH]; [done|]. unfold runs in *. simpl. by rewrite Hc. Qed.

Lemma only_mount_table lines : only quiet (mount_table lines).
Proof.
  induction lines as [|line lines IH]; simpl; [apply only_ret|].
  destruct (resolvable line) as [raw|]; [|done]. repeat only_step; done.
Qed.

Lemma only_mounts p : only quiet (_mounts p).
Proof. unfold _mounts, wrapping. repeat only_step; [done|apply only_mount_table]. Qed.

(** The end of a run: at most one command was run, exactly when the report
    says so. *)
Definition reported (h : list kcall) (before : nat) (r : reply bool) (st : st kcall unit) : Prop :=
  exists k, hist st = h ++ k /\ (before + runs k <= 1)%nat /\
    match r with Done b => b = bool_decide (before + runs k = 1)%nat | _ => True end.

Lemma wp_create_root h root mount read_only :
  ewp (create_root root mount read_only)
    (reported h (if (read_only : bool) then 1 else 0)%nat) (St h ()).
Proof.
  unfold create_root, wrapping. apply ewp_bind, ewp_catch, ewp_bind, ewp_perform. intros r _. simpl.
  assert (forall r : reply bool, match r with Done b => b = read_only | _ => True end ->
    reported h (if read_only then 1 else 0)%nat r (St (h ++ [KMkdir root]) ())) as Hfirst.
  { intros r' Hr. exists [KMkdir root]. split; [done|]. simpl. unfold runs. simpl.
    destruct read_only; (split; [lia|]); destruct r' as [b|e|]; done. }
  destruct r as [[]|e|]; [apply ewp_ret, ewp_ret, Hfirst; done| |apply Hfirst; done].
  destruct (is_os_error e); [|apply ewp_throw, Hfirst; done].
  apply ewp_ret. apply ewp_bind, ewp_throw_when; [intros _; by apply Hfirst|].
  intros [-> _]%orb_false_iff. apply ewp_bind, ewp_perform. intros r _. simpl.
  assert (forall k (r : reply bool), Forall quiet k ->
    match r with Done b => b = true | _ => True end ->
    reported h 0 r (St (((h ++ [KMkdir root])
      ++ [KRun ["mount"; "-o"; "remount,rw"; path_string mount]]) ++ k) ())) as Hsecond.
  { intros k r' Hk Hr. eexists. rewrite <- !app_assoc. split; [done|].
    rewrite runs_app, runs_app, (runs_quiet k) by done. unfold runs. simpl.
    split; [lia|]. by destruct r'. }
  destruct r as [[]|e'|].
  - apply ewp_bind, ewp_catch, ewp_perform. intros r _. simpl.
    destruct r as [[]|e'|]; [apply ewp_ret| |]; [..|by apply Hsecond; [repeat constructor|]].
    + by apply Hsecond; [repeat constructor|].
    + destruct (os_errors e'); apply ewp_throw; by apply Hsecond; [repeat constructor|].
  - rewrite <- (app_nil_r (_ ++ [KRun _])). by apply Hsecond.
  - rewrite <- (app_nil_r (_ ++ [KRun _])). by apply Hsecond.
Qed.
Lemma deepest_entry_elem l e : deepest_entry l = Some e -> In e l.
Proof.
  induction l as [|x l IH]; simpl; [done|]. destruct (deepest_entry l) as [d|].
  - destruct (_ <? _)%nat; intros [= <-]; [right; by apply IH|by left].
  - intros [= <-]. by left.
Qed.

Lemma cgroup2_mount_contains root mounts e :
  _cgroup2_mount root mounts = Some e -> contains (me_mount e) root = true.
Proof.
  intros H%deepest_entry_elem%filter_In. destruct H as [_ H].
  by apply andb_true_iff in H as [_ ?].
Qed.

(** A successful report, after [n] commands. *)
Definition prepared (platform : string) (d : dict) (n : nat) : Prop :=
  dget "cgroup_remounted_rw" d = Some (PBool (bool_decide (n = 1%nat))) /\
  platform = "linux" /\
  exists path mount p, dget "cgroup_root" d = Some (PStr (path_string path)) /\
    dget "cgroup_mount" d = Some (PStr (path_string mount)) /\
    contains mount path = true /\ path <> mount /\
    k_exists p (path ++ ["cgroup.kill"]) = Done true.

Definition bootstrapped (platform : string) (h : list kcall) (r : reply dict)
    (st : st kcall unit) : Prop :=
  exists k, hist st = h ++ k /\ (runs k <= 1)%nat /\
    match r with Done d => prepared platform d (runs k) | _ => True end.

Lemma not_prepared platform h k (r : reply dict) :
  (runs k <= 1)%nat -> match r with Done _ => False | _ => True end ->
  bootstrapped platform h r (St (h ++ k) ()).
Proof. intros Hk Hr. exists k. split; [done|]. split; [done|]. by destruct r. Qed.

Lemma wp_create_subtree h k root mount read_only :
  runs k = (if (read_only : bool) then 1 else 0)%nat -> contains mount root = true -> root <> mount ->
  ewp (create_subtree root mount read_only) (bootstrapped "linux" h) (St (h ++ k) ()).
Proof.
  intros Hk Hc Hne. apply ewp_bind. eapply ewp_mono; [apply wp_create_root|].
  intros r [h2 []] (k2 & Hk2 & Hle & Hb). simpl in *. subst h2. rewrite <- Hk, <- runs_app in *.
  rewrite <- app_assoc. destruct r as [b|e|]; [|by apply not_prepared..].
  apply ewp_bind, ewp_perform. intros r Hr. simpl in *. rewrite <- app_assoc.
  assert (runs ((k ++ k2) ++ [KExists (root ++ ["cgroup.kill"])]) = runs (k ++ k2)) as Hruns
    by (rewrite (runs_app (k ++ k2)); unfold runs at 2; simpl; lia).
  destruct r as [killable|e|]; [|apply not_prepared; [by rewrite Hruns|done]..].
  apply ewp_bind, ewp_throw_when; [intros _; apply not_prepared; [by rewrite Hruns|done]|].
  intros ->%negb_false_iff. apply ewp_ret. eexists. split; [done|]. rewrite Hruns.
  split; [done|]. subst b. split; [done|]. split; [done|].
  eexists root, mount, _. split; [done|]. split; [done|]. split; [done|]. split; [done|exact Hr].
Qed.

Lemma wp_prepare root mountinfo platform h :
  ewp (prepare_session_runtime root mountinfo platform) (bootstrapped platform h) (St h ()).
Proof.
  assert (forall k (r : reply dict), Forall quiet k -> match r with Done _ => False | _ => True end ->
    bootstrapped platform h r (St (h ++ k) ())) as Hquiet.
  { intros k r Hk. apply not_prepared. rewrite runs_quiet by done. lia. }
  unfold prepare_session_runtime. apply ewp_bind, ewp_throw_when.
  { intros _. rewrite <- (app_nil_r h) at 2. by apply Hquiet. }
  intros ->%negb_false_iff%str_eqb_eq. apply ewp_bind, ewp_perform. intros r _. simpl.
  destruct r as [path|e|]; [|by apply Hquiet; [repeat constructor|]..].
  apply ewp_bind. eapply ewp_only; [apply only_mounts|].
  eapply ewp_mono; [apply (ewp_true (_mounts mountinfo))|].
  intros r [h1 []] _ k1 Hk1 Hq1. simpl in *. subst h1. rewrite <- app_assoc. simpl.
  assert (Forall quiet (KResolve root :: k1)) as Hk0 by (by constructor).
  destruct r as [mounts|e|]; [|by apply Hquiet..].
  destruct (_cgroup2_mount path mounts) as [entry|] eqn:Ee; [|by apply ewp_throw, Hquiet].
  apply ewp_bind, ewp_throw_when; [intros _; by apply Hquiet|]. intros Hne%bool_decide_eq_false.
  apply cgroup2_mount_contains in Ee. apply ewp_bind. destruct (negb _).
  - apply ewp_perform. intros r _. simpl. rewrite <- app_assoc.
    assert (runs ((KResolve root :: k1)
      ++ [KRun ["mount"; "-o"; "remount,rw"; path_string (me_mount entry)]]) = 1%nat) as Hr
      by (by rewrite runs_app, runs_quiet).
    destruct r as [[]|e|]; [by apply wp_create_subtree|by apply not_prepared; [rewrite Hr|]..].
  - apply ewp_ret, wp_create_subtree; [by rewrite runs_quiet|done|done].
Qed.

(** Also: The bootstrap remounts the cgroup file system at most once, and reports
    whether it did.  It succeeds only for a root strictly below a cgroup v2
    mount of the mount table, on a kernel that can kill a cgroup. *)
Theorem bootstrap_remounts_once root mountinfo platform h :
  let '(r, st) := prepare_session_runtime root mountinfo platform (St h ()) in
  exists k, hist st = h ++ k /\ (runs k <= 1)%nat /\
  match r with
  | Done d => prepared platform d (runs k)
  | _ => True
  end.
Proof.
  pose proof (wp_prepare root mountinfo platform h) as H. unfold ewp in H.
  by destruct (prepare_session_runtime _ _ _ _).
Qed.
End spec.
