(* ===== verification/Runs.v ===== *)
(** * Managed runs

    The state of [ProcessTrackingService]
    ([src/src/allox/runtime/process_tracking/service.py]) and the operations
    that other threads perform on it: recording the observer's events, failing
    the observer or a plugin, terminating a run, and the queries.

    A method runs on the shared service; the calls it makes are answered by
    the environment.  Between two of its calls, and before it gets a lock,
    other threads may have changed the service: [others] is what they made of
    it.  A section under [self._lock] is not interrupted. *)

From Stdlib Require Import Ascii.
From Stdlib Require String.
From stdpp Require Import gmap pretty.
From S2P Require Import Prelude Effects PyVal Ids Kernel Cgroup Extensions Registry.
Open Scope Z_scope.

(** ** State *)

(** An entry of [self._runs].  A process is its pid, the plugins' handles of
    the execution are a number. *)
Record run := Run {
  r_row : dict;
  r_process : option Z;
  r_lease : string;
  r_stop_reason : option string;
  r_done : bool;
  r_timer : bool;
  r_exited : bool;
  r_feature : option nat;
  r_cgroup : option identity;
  r_target_pid : option Z;
  r_recovery : option recovery_plan }.

Record service := Service {
  sv_runs : list (string * run);
  sv_cookies : gmap Z string;
  sv_closed : bool;
  sv_backend_error : option string;
  sv_next_epoch : Z;
  sv_registry : registry }.

Fixpoint run_in (runs : list (string * run)) (id : string) : option run :=
  match runs with
  | [] => None
  | (k, r) :: runs => if str_eqb k id then Some r else run_in runs id
  end.

Definition run_of (id : string) (s : service) : option run := run_in (sv_runs s) id.

Definition with_runs (runs : list (string * run)) (s : service) : service :=
  Service runs (sv_cookies s) (sv_closed s) (sv_backend_error s) (sv_next_epoch s)
    (sv_registry s).
Definition with_cookies (c : gmap Z string) (s : service) : service :=
  Service (sv_runs s) c (sv_closed s) (sv_backend_error s) (sv_next_epoch s) (sv_registry s).
Definition with_closed (b : bool) (s : service) : service :=
  Service (sv_runs s) (sv_cookies s) b (sv_backend_error s) (sv_next_epoch s) (sv_registry s).
Definition with_backend_error (e : option string) (s : service) : service :=
  Service (sv_runs s) (sv_cookies s) (sv_closed s) e (sv_next_epoch s) (sv_registry s).
Definition with_epoch (n : Z) (s : service) : service :=
  Service (sv_runs s) (sv_cookies s) (sv_closed s) (sv_backend_error s) n (sv_registry s).
Definition with_registry (r : registry) (s : service) : service :=
  Service (sv_runs s) (sv_cookies s) (sv_closed s) (sv_backend_error s) (sv_next_epoch s) r.

(** Change the run [id], which is there. *)
Definition update_run (id : string) (f : run -> run) (s : service) : service :=
  with_runs (map (fun kr => if str_eqb kr.1 id then (kr.1, f kr.2) else kr) (sv_runs s)) s.

Definition set_row (row : dict) (r : run) : run :=
  Run row (r_process r) (r_lease r) (r_stop_reason r) (r_done r) (r_timer r) (r_exited r)
    (r_feature r) (r_cgroup r) (r_target_pid r) (r_recovery r).
Definition set_process (p : option Z) (r : run) : run :=
  Run (r_row r) p (r_lease r) (r_stop_reason r) (r_done r) (r_timer r) (r_exited r)
    (r_feature r) (r_cgroup r) (r_target_pid r) (r_recovery r).
Definition set_stop (x : option string) (r : run) : run :=
  Run (r_row r) (r_process r) (r_lease r) x (r_done r) (r_timer r) (r_exited r)
    (r_feature r) (r_cgroup r) (r_target_pid r) (r_recovery r).
Definition set_done (r : run) : run :=
  Run (r_row r) (r_process r) (r_lease r) (r_stop_reason r) true (r_timer r) (r_exited r)
    (r_feature r) (r_cgroup r) (r_target_pid r) (r_recovery r).
Definition set_timer (b : bool) (r : run) : run :=
  Run (r_row r) (r_process r) (r_lease r) (r_stop_reason r) (r_done r) b (r_exited r)
    (r_feature r) (r_cgroup r) (r_target_pid r) (r_recovery r).
Definition set_exited (r : run) : run :=
  Run (r_row r) (r_process r) (r_lease r) (r_stop_reason r) (r_done r) (r_timer r) true
    (r_feature r) (r_cgroup r) (r_target_pid r) (r_recovery r).
Definition set_feature (f : option nat) (r : run) : run :=
  Run (r_row r) (r_process r) (r_lease r) (r_stop_reason r) (r_done r) (r_timer r) (r_exited r)
    f (r_cgroup r) (r_target_pid r) (r_recovery r).
Definition set_cgroup (i : option identity) (r : run) : run :=
  Run (r_row r) (r_process r) (r_lease r) (r_stop_reason r) (r_done r) (r_timer r) (r_exited r)
    (r_feature r) i (r_target_pid r) (r_recovery r).
Definition set_target (p : option Z) (r : run) : run :=
  Run (r_row r) (r_process r) (r_lease r) (r_stop_reason r) (r_done r) (r_timer r) (r_exited r)
    (r_feature r) (r_cgroup r) p (r_recovery r).

Definition change_row (f : dict -> dict) (r : run) : run := set_row (f (r_row r)) r.

(** ** Calls *)

Inductive scall :=
  (* the store and the registry of executions *)
  | SDescribe (a s : string) | SListCheckpoints (a s : string)
  | SCreateCheckpoint (a s checkpoint_id origin message : string) (pinned : bool) (metadata : dict)
  | SAcquire (a s : string) (recovery : bool) | SRelease (token : string)
  (* cgroups *)
  | GAttach (a s : string) (pid : Z) | GIdentity (a s : string)
  | GFreeze (a s : string) (id : Z) | GThaw (a s : string) (id : Z)
  | GQuiesce (a s : string) (id : Z) | GWaitEmpty (a s : string) (seconds : Z)
  | GKill (a s : string) | GRemove (a s : string) | GOwns (a s : string) (pid : Z)
  | GPids (a s : string)
  (* the observer *)
  | OSeed (pid cookie : Z) | OFinish (pid cookie : Z) | OStatus | OClose
  (* the plugins *)
  | FPrepare (a s : string) | FEnvironment (a s run_id : string) (trace : pyval)
  | FStart (ctx : start_context) | FStatus (h : nat) | FHealthy (h : nat) | FAgentStarted (h : nat)
  | FFinish (h : nat) (outcome : string) (q : quiescence) | FCloseUnverified (h : nat)
  | FStarted (row : dict) | FFinished (row : dict)
  (* processes *)
  | XSpawn | XConfigure (pid : Z) (config : dict) | XWaitStopped (pid : Z) | XPoll (pid : Z)
  | XKill (pid : Z) | XWait (pid : Z) | XWaitTimeout (pid : Z) | XContinue (pid : Z)
  | XState (pid : Z) | XOpenPidfd (pid : Z) | XSignal (pidfd signum : Z) | XClosePidfd (pidfd : Z)
  | XNamespace (pid : Z) (name : string)
  | XTimer (run_id : string) | XThread (run_id : string) | XCloseLauncher
  (* the audit directory *)
  | DMkdir (run_id : string) | DSave (row : dict) | DSaveDurable (row : dict)
  | DAppend (event : dict) | DLoad (run_id : string) | DGlob | DEvents (run_id : string)
  (* clock and identifiers *)
  | TClock | TSleep (ns : Z) | TTimeNs | TUuid | TCookie
  (* waiting for a run to end *)
  | WDone (run_id : string) (seconds : Z).

(** ** What the service asks of its collaborators *)

Class StoreService := {
  st_describe : list scall -> string -> string -> reply dict;
  st_list : list scall -> string -> string -> reply (list string);
  st_checkpoint : list scall -> string -> string -> string -> string -> string -> bool -> dict ->
    reply dict;
  st_current : string -> string -> string;      (* str(store.current(...)) *)
  st_shared : string -> string;                 (* str(store.agent_shared(...)) *)
  st_agent_workspace : string -> string }.      (* its parent *)

Class Cgroups := {
  g_root : string;
  g_attach : list scall -> string -> string -> Z -> reply string;
  g_identity : list scall -> string -> string -> reply identity;
  g_freeze : list scall -> string -> string -> Z -> reply identity;
  g_thaw : list scall -> string -> string -> Z -> reply unit;
  g_quiesce : list scall -> string -> string -> Z -> reply identity;
  g_wait_empty : list scall -> string -> string -> Z -> reply bool;
  g_kill : list scall -> string -> string -> reply unit;
  g_remove : list scall -> string -> string -> reply bool;
  g_owns : list scall -> string -> string -> Z -> reply bool;
  g_pids : list scall -> string -> string -> reply (list Z) }.

Class Observer := {
  o_backend : string;      (* its name *)
  o_seed : list scall -> Z -> Z -> reply unit;
  o_finish : list scall -> Z -> Z -> reply unit;
  o_status : list scall -> reply dict;
  o_close : list scall -> reply unit }.

(** [self.features]: whether it is set, its attributes and its methods. *)
Class ExecutionPlugins := {
  f_present : bool;
  f_names : list string;
  f_lifecycle : bool;
  f_recovery : bool;
  f_prepare : list scall -> string -> string -> reply merged;
  f_environment : list scall -> string -> string -> string -> pyval -> reply dict;
  f_start_execution : list scall -> start_context -> reply nat;
  f_status : list scall -> nat -> reply dict;
  f_healthy : list scall -> nat -> reply unit;
  f_agent_started : list scall -> nat -> reply unit;
  f_finish : list scall -> nat -> string -> quiescence -> reply dict;
  f_close : list scall -> nat -> reply unit;
  f_started : list scall -> dict -> reply unit;
  f_finished : list scall -> dict -> reply unit }.

Inductive stop_status := NotYet | HasStopped | HasExited (code : Z).

(** A line of an event file: whether it ends with a newline, and its JSON. *)
Record line := Line { l_complete : bool; l_json : result pyval }.

Class Platform := {
  x_spawn : list scall -> reply Z;
  x_configure : list scall -> Z -> dict -> reply unit;
  x_wait_stopped : list scall -> Z -> reply stop_status;
  x_poll : list scall -> Z -> reply (option Z);
  x_kill : list scall -> Z -> reply unit;
  x_wait : list scall -> Z -> reply Z;
  x_wait_timeout : list scall -> Z -> reply unit;
  x_continue : list scall -> Z -> reply unit;
  x_state : list scall -> Z -> reply (option string);
  x_open_pidfd : list scall -> Z -> reply Z;
  x_signal : list scall -> Z -> Z -> reply unit;
  x_close_pidfd : list scall -> Z -> reply unit;
  x_namespace : list scall -> Z -> string -> reply Z;
  x_timer : list scall -> string -> reply unit;
  x_thread : list scall -> string -> reply unit;
  x_close_launcher : list scall -> reply unit;
  d_mkdir : list scall -> string -> reply unit;
  d_save : list scall -> dict -> reply unit;
  d_save_durable : list scall -> dict -> reply unit;
  d_append : list scall -> dict -> reply unit;
  d_load : list scall -> string -> reply (result pyval);   (* text read, then its JSON *)
  d_glob : list scall -> reply (list (result pyval));
  d_events : list scall -> string -> reply (option (list line));
  t_clock : list scall -> Z;
  t_time_ns : list scall -> Z;
  t_uuid : list scall -> string;
  t_cookie : list scall -> Z;        (* secrets.randbits(63) *)
  w_done : list scall -> string -> reply bool;
  others : list scall -> service -> service }.   (* the other threads *)

(** * Operations on managed runs

    The methods of [ProcessTrackingService] other than starting and watching a
    run. *)

Section service.
Context `{StoreService} `{Cgroups} `{Observer} `{ExecutionPlugins} `{Platform}.

Definition V (A : Type) : Type := P scall service A.

(** Other threads run up to here. *)
Definition yield_ : V unit := interleave others.

(** A call outside the lock. *)
Definition out {A} (c : scall) (answer : list scall -> reply A) : V A := yield_;; perform c answer.

(** [with self._lock: m] *)
Definition locked {A} (m : V A) : V A := yield_;; m.

(** [self._runs[run_id]] *)
Definition the_run (run_id : string) : V run :=
  r ← read (run_of run_id);
  match r with Some r => mret r | None => throw KeyError end.

Definition on_run (run_id : string) (f : run -> run) : V unit := modify (update_run run_id f).

Definition on_row (run_id : string) (f : dict -> dict) : V unit := on_run run_id (change_row f).

Definition save (row : dict) : V unit := perform (DSave row) (fun l => d_save l row).
Definition save_durable (row : dict) : V unit :=
  perform (DSaveDurable row) (fun l => d_save_durable l row).

(** [try: self._save(row) except OSError: pass] *)
Definition save_quietly (row : dict) : V unit :=
  catch (save row) (fun e => if is_os_error e then mret () else throw e).

(** [type(exc).__name__]; an error of the system is of the class of its number. *)
Definition exn_name (e : exn) : string :=
  match e with
  | WorkspaceError _ => "WorkspaceError" | CheckpointIndexError _ => "CheckpointIndexError"
  | TypeError => "TypeError" | AttributeError => "AttributeError" | KeyError => "KeyError"
  | ValueError _ => "ValueError" | AssertionError => "AssertionError"
  | CalledProcessError => "CalledProcessError" | RuntimeError _ => "RuntimeError"
  | TimeoutError _ => "TimeoutError" | OverflowError => "OverflowError"
  | IndexError => "IndexError" | TimeoutExpired => "TimeoutExpired"
  | JSONDecodeError => "JSONDecodeError"
  | DatabaseError => "OperationalError"
  | OSError what =>
      if str_eqb what "ENOENT" then "FileNotFoundError"
      else if str_eqb what "EEXIST" then "FileExistsError"
      else if str_eqb what "EACCES" || str_eqb what "EPERM" then "PermissionError"
      else "OSError"
  end.

(** ** The observer's events *)

Definition event_keys : list string :=
  ["event"; "pid"; "ppid"; "former_tid"; "comm"; "filename"; "kernel_time_ns"; "birth_ns";
   "parent_birth_ns"; "birth_pid"; "parent_birth_pid"].

Definition selected (message : dict) : dict :=
  List.filter (fun kv => existsb (str_eqb kv.1) event_keys) message.

Definition process_identity (row event : dict) (pid_key birth_key : string) : result string :=
  boot ← dindex "boot_id" row;
  run ← dindex "run_id" row;
  pid ← dindex pid_key event;
  birth ← dindex birth_key event;
  Ok (py_str boot +:+ ":" +:+ py_str run +:+ ":" +:+ py_str pid +:+ ":" +:+ py_str birth).

Definition as_count (v : pyval) : result Z :=
  match v with PInt n => Ok n | _ => Err TypeError end.

(** [event.update({...})] with the next sequence number. *)
Definition stamped (row event : dict) (count : Z) (now : Z) : result dict :=
  a ← dindex "agent_id" row;
  s ← dindex "session_id" row;
  run ← dindex "run_id" row;
  boot ← dindex "boot_id" row;
  Ok (dupdate event [("sequence", PInt count); ("agent_id", a); ("session_id", s);
                     ("run_id", run); ("boot_id", boot); ("observed_ns", PInt now)]).

(** The event of a process, and the process's record in the row. *)
Definition attributed (row event : dict) : result (dict * dict) :=
  match dgetn "pid" event with
  | pid =>
      if py_truthy pid then
        identity ← process_identity row event "birth_pid" "birth_ns";
        let event1 := dset "process_id" (PStr identity) event in
        event2 ← (if py_eqb (dgetn "event" event1) (PStr "fork")
                  then parent ← process_identity row event1 "parent_birth_pid" "parent_birth_ns";
                       Ok (dset "parent_process_id" (PStr parent) event1)
                  else Ok event1);
        processes ← dindex "processes" row;
        match processes with
        | PDict ps =>
            match dget_or identity (PDict [("pid", pid)]) ps with
            | PDict item =>
                let item1 := dset "alive" (PBool (negb (py_eqb (dgetn "event" event2) (PStr "exit"))))
                               (dupdate item event2) in
                Ok (event2, dset "processes" (PDict (dset identity (PDict item1) ps)) row)
            | _ => Err AttributeError
            end
        | _ => Err AttributeError
        end
      else Ok (event, row)
  end.

(** [_append_event]: the counter is raised first, so a malformed event uses up
    a number; the process's record may be changed before the write fails. *)
Definition _append_event (run_id : string) (event : dict) : V unit :=
  r ← the_run run_id;
  count ← lift (v ← dindex "event_count" (r_row r); n ← as_count v; Ok (n + 1));
  let row := dset "event_count" (PInt count) (r_row r) in
  on_run run_id (set_row row);;
  now ← perform TTimeNs (fun l => Done (t_time_ns l));
  event1 ← lift (stamped row event count now);
  x ← lift (attributed row event1);
  on_run run_id (set_row x.2);;
  perform (DAppend x.1) (fun l => d_append l x.1).

Definition _record_event (message : dict) : V unit :=
  match dgetn "cookie" message with
  | PInt cookie =>
      locked
        (id ← read (fun s => sv_cookies s !! cookie);
         match id with
         | None => mret ()
         | Some run_id =>
             _append_event run_id (selected message);;
             r ← the_run run_id; save (r_row r)
         end)
  | _ => mret ()
  end.

(** ** Failures *)

Definition is_active (kr : string * run) : bool := negb (r_done kr.2).

Definition active_ids (s : service) : list string := fst <$> List.filter is_active (sv_runs s).

Definition provider_failed (reason : string) (row : dict) : dict :=
  dset "provider_error" (PStr reason) (dset "session_fenced" (PBool true) row).

(** [_backend_failed] up to the threads it starts, one per active run, each
    terminating its run. *)
Definition _backend_failed (reason : string) : V (list string) :=
  locked
    (modify (with_backend_error (Some reason));;
     active ← read active_ids;
     iterate (fun run_id =>
       on_row run_id (provider_failed reason);;
       r ← the_run run_id; save_quietly (r_row r)) active;;
     mret active).

Definition ERROR_LIMIT : nat := 1000.

(** The status of a plugin's run that is not finalized becomes failed. *)
Definition fail_status (reason : string) (kv : string * pyval) : string * pyval :=
  match kv.2 with
  | PDict status =>
      if py_eqb (dgetn "status" status) (PStr "finalized") then kv
      else (kv.1, PDict (dset "error" (PStr (string_take ERROR_LIMIT reason))
                          (dset "status" (PStr "failed") status)))
  | _ => kv
  end.

Definition feature_failed_row (reason : string) (row : dict) : dict :=
  let row1 := dset "feature_error" (PStr (string_take ERROR_LIMIT reason))
                (dset "session_fenced" (PBool true) row) in
  match dgetn "feature_runs" row1 with
  | PDict fr => dset "feature_runs" (PDict (map (fail_status reason) fr)) row1
  | _ => row1
  end.

Definition stop_with (reason : string) (r : run) : run :=
  match r_stop_reason r with
  | Some _ => r
  | None => change_row (dset "stop_reason" (PStr reason)) (set_stop (Some reason) r)
  end.

Definition session_of (row : dict) : result (string * string) :=
  a ← dindex "agent_id" row; s ← dindex "session_id" row;
  Ok (str_or a EmptyString, str_or s EmptyString).

Definition kill_cgroup (a s : string) : V unit := out (GKill a s) (fun l => g_kill l a s).
Definition poll (pid : Z) : V (option Z) := out (XPoll pid) (fun l => x_poll l pid).
Definition kill_process (pid : Z) : V unit := out (XKill pid) (fun l => x_kill l pid).

(** [except (OSError, WorkspaceError)] *)
Definition os_or_workspace_error (e : exn) : bool :=
  match e with OSError _ | WorkspaceError _ => true | _ => false end.

Definition ignoring (caught : exn -> bool) (m : V unit) : V unit :=
  catch m (fun e => if caught e then mret () else throw e).

Definition _feature_failed (run_id reason : string) : V unit :=
  target ← locked
    (r ← read (run_of run_id);
     match r with
     | None => mret None
     | Some r =>
         if r_done r then mret None
         else
           on_row run_id (feature_failed_row reason);;
           on_run run_id (stop_with "feature_failure");;
           r ← the_run run_id;
           key ← lift (session_of (r_row r));
           save_quietly (r_row r);;
           mret (Some (key, r_process r))
     end);
  match target with
  | None => mret ()
  | Some ((a, s), process) =>
      catch (kill_cgroup a s) (fun e =>
        if os_or_workspace_error e then
          match process with
          | None => mret ()
          | Some pid =>
              code ← poll pid;
              match code with
              | Some _ => mret ()
              | None => ignoring is_os_error (kill_process pid)
              end
          end
        else throw e)
  end.

(** ** Termination *)

(** [_terminate_locked], under the launch lock. *)
Definition _terminate (run_id reason : string) : V unit :=
  target ← locked
    (r ← read (run_of run_id);
     match r with
     | None => mret None
     | Some r =>
         if r_done r then mret None
         else
           exited ← (if str_eqb reason "timeout" then
                       if r_exited r then mret true
                       else match r_process r with
                            | None => mret false
                            | Some pid => code ← perform (XPoll pid) (fun l => x_poll l pid);
                                          mret (bool_decide (is_Some code))
                            end
                     else mret false);
           if (exited : bool) then on_run run_id set_exited;; mret None
           else
             (match r_stop_reason r with
              | Some _ => mret ()
              | None => on_run run_id (stop_with reason);;
                        r ← the_run run_id; save_quietly (r_row r)
              end);;
             r ← the_run run_id;
             key ← lift (session_of (r_row r));
             mret (Some key)
     end);
  match target with
  | None => mret ()
  | Some (a, s) => kill_cgroup a s
  end.

Definition wait_done (run_id : string) (secs : Z) : V bool :=
  out (WDone run_id secs) (fun l => w_done l run_id).

Definition of_session (a s : string) (kr : string * run) : bool :=
  is_active kr && py_eqb (dgetn "agent_id" (r_row kr.2)) (PStr a)
  && py_eqb (dgetn "session_id" (r_row kr.2)) (PStr s).

(** [session_launch_fence], entry: the launch lock is held until its exit. *)
Definition session_launch_fence (a s : string) (terminate : bool) (reason : string)
    : V (list string) :=
  _ ← lift (validate_id "agent" a);
  _ ← lift (validate_id "session" s);
  if terminate then
    ids ← locked (read (fun sv => fst <$> List.filter (of_session a s) (sv_runs sv)));
    iterate (fun id => _terminate id reason) ids;;
    fold_loop (fun stopped id =>
      ended ← wait_done id 10;
      throw_when (negb ended)
        (WorkspaceError "Session cgroup termination timed out; rollback remains fenced");;
      mret (stopped ++ [id])) ids []
  else mret [].

(** ** Queries *)

Definition run_belongs (row : pyval) (a s : string) : result dict :=
  match row with
  | PDict row =>
      ra ← dindex "agent_id" row;
      rs ← dindex "session_id" row;
      raise_if (negb (py_eqb ra (PStr a) && py_eqb rs (PStr s)))
        (WorkspaceError "run does not belong to this Agent/Session");;
      Ok row
  | _ => Err TypeError
  end.

Definition get_run (a s run_id : string) : V dict :=
  _ ← lift (validate_id "run" run_id);
  _ ← lift (validate_id "agent" a);
  _ ← lift (validate_id "session" s);
  locked
    (r ← read (run_of run_id);
     row ← match r with
           | Some r => mret (PDict (r_row r))
           | None =>
               catch (t ← perform (DLoad run_id) (fun l => d_load l run_id); lift t)
                 (fun e => if bool_decide (e = ENOENT) || is_value_error e
                           then throw (WorkspaceError "unknown run") else throw e)
           end;
     lift (run_belongs row a s)).

Definition summary (row : dict) : dict :=
  List.filter (fun kv => negb (str_eqb kv.1 "processes")) row.

(** Rows of the session in the files, in order of their creation. *)
Fixpoint matching_rows (a s : string) (rows : list (result pyval)) : result (list dict) :=
  match rows with
  | [] => Ok []
  | r :: rows =>
      v ← r;
      match v with
      | PDict row =>
          ra ← dindex "agent_id" row;
          rs ← dindex "session_id" row;
          rest ← matching_rows a s rows;
          Ok (if py_eqb ra (PStr a) && py_eqb rs (PStr s) then summary row :: rest else rest)
      | _ => Err TypeError
      end
  end.

Definition created_ns (row : dict) : result Z := v ← dindex "created_ns" row; as_count v.

Fixpoint insert_row (x : Z * dict) (l : list (Z * dict)) : list (Z * dict) :=
  match l with
  | [] => [x]
  | y :: l => if x.1 <=? y.1 then x :: y :: l else y :: insert_row x l
  end.

(** [sorted(rows, key=lambda row: row["created_ns"])], which is stable. *)
Definition sorted_rows (rows : list dict) : result (list dict) :=
  keyed ← mapM (fun row => n ← created_ns row; Ok (n, row)) rows;
  Ok (snd <$> foldr insert_row [] keyed).

Definition list_runs (a s : string) : V (list dict) :=
  _ ← lift (validate_id "agent" a);
  _ ← lift (validate_id "session" s);
  rows ← out DGlob (fun l => d_glob l);
  lift (l ← matching_rows a s rows; sorted_rows l).

(** [after < sequence], as the loop of [events] compares. *)
Definition later (after : Z) (event : pyval) : result bool :=
  match event with
  | PDict d => v ← dindex "sequence" d; n ← as_count v; Ok (after <? n)
  | _ => Err TypeError
  end.

(** The loop over the lines: it stops at an incomplete line and as soon as
    [limit] events are collected. *)
Fixpoint page (after : Z) (limit : nat) (lines : list line) (items : list pyval)
    : result (list pyval) :=
  match lines with
  | [] => Ok items
  | x :: lines =>
      if negb (l_complete x) then Ok items
      else
        event ← l_json x;
        b ← later after event;
        let items1 := if (b : bool) then items ++ [event] else items in
        if (limit <=? length items1)%nat then Ok items1 else page after limit lines items1
  end.

Definition last_sequence (items : list pyval) (after : Z) : result pyval :=
  match last items with
  | Some (PDict d) => dindex "sequence" d
  | Some _ => Err TypeError
  | None => Ok (PInt after)
  end.

Definition events (a s run_id : string) (after limit : pyval) : V dict :=
  match after, limit with
  | PInt after, PInt limit =>
      throw_when ((after <? 0) || (limit <? 1) || (1000 <? limit))
        (WorkspaceError "after must be nonnegative; limit must be 1..1000");;
      row ← get_run a s run_id;
      content ← out (DEvents run_id) (fun l => d_events l run_id);
      items ← lift (match content with
                    | Some lines => page after (Z.to_nat limit) lines []
                    | None => Ok []
                    end);
      next ← lift (last_sequence items after);
      state ← lift (dindex "state" row);
      mret [("events", PList items); ("next_after", next); ("state", state)]
  | _, _ => throw (WorkspaceError "after must be nonnegative; limit must be 1..1000")
  end.

Definition stop (a s run_id : string) : V dict :=
  get_run a s run_id;;
  yield_;;
  known ← read (run_of run_id);
  throw_when (bool_decide (known = None)) (WorkspaceError "cannot control a historical run");;
  _terminate run_id "requested";;
  ended ← wait_done run_id 10;
  throw_when (negb ended)
    (WorkspaceError "Session cgroup termination is incomplete; session remains fenced");;
  get_run a s run_id.

Definition process_status (audit_root : string) : V dict :=
  result ← out OStatus o_status;
  mret (dupdate result
    [("enabled", PBool (negb (str_eqb o_backend "disabled"))); ("execution_enabled", PBool true);
     ("cgroup_root", PStr g_root); ("audit_root", PStr audit_root);
     ("isolation", PStr "bubblewrap")]).

(** ** Shutdown *)

Definition close_processes : V unit :=
  active ← locked
    (closed ← read sv_closed;
     if (closed : bool) then mret None
     else modify (with_closed true);; active ← read active_ids; mret (Some active));
  match active with
  | None => mret ()
  | Some active =>
      iterate (fun id => _terminate id "daemon_shutdown") active;;
      iterate (fun id => wait_done id 10;; mret ()) active;;
      finally (out OClose (fun l => o_close l))
        (out XCloseLauncher (fun l => x_close_launcher l))
  end.
End service.
