(* ===== verification/Launch.v ===== *)
(** * Starting a run

    [ProcessTrackingService.start]: the checks of the request, the recovery
    plan, the launch behind the stop gate, and the clean-up that decides
    whether the session's lease may be given back. *)

From Stdlib Require Import Ascii.
From Stdlib Require String.
From stdpp Require Import gmap pretty.
From S2P Require Import Prelude Paths Effects PyVal Text Ids Kernel Cgroup Extensions Registry.
From S2P Require Import Sandbox Runs.
Open Scope Z_scope.

(** ** Checks of the request *)

Definition no_nul (s : string) : bool := negb (char_in nul s).

Definition good_argument (v : pyval) : bool := match v with PStr s => no_nul s | _ => false end.

Definition good_argv (argv : pyval) : bool :=
  match argv with
  | PList (PStr (String c s) :: l) => no_nul (String c s) && forallb good_argument l
  | _ => false
  end.

(** [0 < timeout <= 86400], a number that is not a boolean. *)
Definition good_timeout (timeout : pyval) : bool :=
  match timeout with
  | PInt n => (0 <? n) && (n <=? 86400)
  | PFloat f =>
      match float_parts f with
      | Some p => match parts_compare (0, 0) p, parts_compare p (86400, 0) with
                  | Lt, (Lt | Eq) => true
                  | _, _ => false
                  end
      | None => false
      end
  | _ => false
  end.

Definition good_variable (kv : string * pyval) : bool :=
  match kv.2 with
  | PStr v => negb (str_eqb kv.1 EmptyString) && negb (char_in "=" kv.1) && no_nul (kv.1 +:+ v)
  | _ => false
  end.

Definition good_env (env : pyval) : bool :=
  match env with PNone => true | PDict d => forallb good_variable d | _ => false end.

Definition _validate_start (argv env timeout : pyval) : result unit :=
  raise_if (negb (good_argv argv))
    (WorkspaceError "argv must be a nonempty array of nonempty strings");;
  raise_if (negb (good_timeout timeout))
    (WorkspaceError "timeout must be in (0, 86400] seconds");;
  raise_if (negb (good_env env))
    (WorkspaceError "env must be a string mapping with valid environment names").

(** The strings of checked arguments. *)
Definition strings (v : pyval) : list string :=
  match v with PList l => (fun x => str_or x EmptyString) <$> l | _ => [] end.

Definition string_items (v : pyval) : list (string * string) :=
  match v with PDict d => (fun kv => (kv.1, str_or kv.2 EmptyString)) <$> d | _ => [] end.

Fixpoint check_ids (items : dict) : result unit :=
  match items with
  | [] => Ok ()
  | (name, PStr v) :: items => _ ← validate_id name v; check_ids items
  | _ :: _ => Err (WorkspaceError "trace_context IDs must be strings")
  end.

(** [set(trace_context) != {"trace_id", "span_id"}] *)
Definition same_keys (d : dict) (keys : list string) : bool :=
  forallb (fun k => existsb (str_eqb k) keys) (dkeys d) &&
  forallb (fun k => existsb (str_eqb k) (dkeys d)) keys.

Section launch.
Context `{StoreService} `{Cgroups} `{Observer} `{ExecutionPlugins} `{Platform}.

Definition check_trace (trace_context : pyval) : result unit :=
  match trace_context with
  | PNone => Ok ()
  | PDict d =>
      raise_if (negb (same_keys d ["trace_id"; "span_id"]))
        (WorkspaceError "trace_context requires trace_id and span_id");;
      check_ids d;;
      raise_if (negb f_present || negb (existsb (str_eqb "agent-monitor") f_names))
        (WorkspaceError "trace_context requires the agent-monitor plugin")
  | _ => Err (WorkspaceError "trace_context requires trace_id and span_id")
  end.

(** ** The recovery plan *)

Definition recovery_keys : list string :=
  ["checkpoint_id"; "recovery_id"; "scrub_runtime"; "require_consistent"].

Definition unknown_keys (d : dict) : list string :=
  sort_strings (List.filter (fun k => negb (existsb (str_eqb k) recovery_keys)) (dkeys d)).

Fixpoint check_booleans (d : dict) (keys : list string) : result unit :=
  match keys with
  | [] => Ok ()
  | k :: keys =>
      raise_if (match dget k d with Some v => negb (is_bool v) | None => false end)
        (WorkspaceError ("process recovery " +:+ k +:+ " must be a boolean"));;
      check_booleans d keys
  end.

(** The checks before the checkpoint is chosen; they give the recovery id. *)
Definition check_recovery (run_id : string) (d : dict) : result string :=
  match unknown_keys d with
  | [] =>
      raise_if (negb f_present || negb f_recovery)
        (WorkspaceError "process recovery requires an ABI-v2 recovery lifecycle plugin");;
      check_booleans d ["scrub_runtime"; "require_consistent"];;
      match dget_or "recovery_id" (PStr ("recovery-" +:+ run_id)) d with
      | PStr r => validate_id "recovery" r
      | _ => Err (WorkspaceError "process recovery recovery_id must be a string")
      end
  | unknown => Err (WorkspaceError ("unknown process recovery keys: " +:+ string_join ", " unknown))
  end.

(** The checkpoint to go back to: a new baseline, or exactly the one named. *)
Definition choose_checkpoint (a s run_id recovery_id : string) (d : dict) : V string :=
  match dgetn "checkpoint_id" d with
  | PNone =>
      let id := "baseline-" +:+ run_id in
      let origin := "allox-system-effects-recovery" in
      let message := "automatic pre-run baseline for " +:+ run_id in
      let metadata := [("run_id", PStr run_id); ("recovery_id", PStr recovery_id)] in
      out (SCreateCheckpoint a s id origin message true metadata)
        (fun l => st_checkpoint l a s id origin message true metadata);;
      mret id
  | PStr raw =>
      id ← lift (validate_id "checkpoint" raw);
      known ← out (SListCheckpoints a s) (fun l => st_list l a s);
      throw_when (negb (existsb (str_eqb id) known))
        (WorkspaceError ("exact recovery checkpoint does not exist: " +:+ id));;
      mret id
  | _ => throw (WorkspaceError "process recovery checkpoint_id must be a string")
  end.

Definition _prepare_recovery_plan (a s run_id : string) (recovery : pyval)
    : V (option recovery_plan) :=
  match recovery with
  | PNone => mret None
  | PDict d =>
      recovery_id ← lift (check_recovery run_id d);
      checkpoint_id ← choose_checkpoint a s run_id recovery_id d;
      mret (Some (ExecutionRecoveryPlan checkpoint_id recovery_id
                    (py_truthy (dget_or "scrub_runtime" (PBool true) d))
                    (py_truthy (dget_or "require_consistent" (PBool true) d))
                    (is_none (dgetn "checkpoint_id" d))))
  | _ => throw (WorkspaceError "process recovery must be an object")
  end.

(** ** The lease *)

(** [self.executions.acquire(...)["lease_token"]], under the registry's lock. *)
Definition acquire_lease (a s : string) (recovery : bool) : V string := fun st =>
  match yield_ st with
  | (_, st1) =>
      let token := t_uuid (hist st1) in
      match acquire a s (PBool recovery) token (sv_registry (obj st1)) with
      | Ok (_, r) => (Done token, St (hist st1 ++ [SAcquire a s recovery])
                                     (with_registry r (obj st1)))
      | Err e => (Raised e, St (hist st1 ++ [SAcquire a s recovery]) (obj st1))
      end
  end.

(** The registry has a lock of its own, so that it changes also while
    [self._lock] is held. *)
Definition release_lease (token : string) : V unit :=
  interleave (fun l sv => with_registry (sv_registry (others l sv)) sv);;
  perform (SRelease token) (fun _ => Done ());;
  modify (fun sv => with_registry (release token (sv_registry sv)).2 sv).

(** ** The gates *)

Context (fuel : nat).   (* of the polling loops *)

Definition clock : V Z := out TClock (fun l => Done (t_clock l)).
Definition pause (ns : Z) : V unit := out (TSleep ns) (fun _ => Done ()).
Definition cut_off {A} : V A := fun st => (Interrupted, st).

(** The loop of [_wait_stopped]. *)
Fixpoint await_stopped (n : nat) (pid deadline : Z) : V unit :=
  match n with
  | O => cut_off
  | S n =>
      now ← clock;
      if deadline <=? now
      then throw (WorkspaceError "exec gate did not stop before attribution timeout")
      else
        st ← out (XWaitStopped pid) (fun l => x_wait_stopped l pid);
        match st with
        | NotYet => pause (ms 10);; await_stopped n pid deadline
        | HasStopped => mret ()
        | HasExited _ =>
            throw (WorkspaceError "exec gate exited before Session attribution was installed")
        end
  end.

Definition _wait_stopped (pid timeout : Z) : V unit :=
  start ← clock; await_stopped fuel pid (start + timeout).

(** The processes of the cgroup other than the launcher that are stopped: a
    process without a status file or a state line is passed over. *)
Fixpoint stopped_pids (launcher : Z) (pids : list Z) : V (list Z) :=
  match pids with
  | [] => mret []
  | pid :: pids =>
      if pid =? launcher then stopped_pids launcher pids
      else
        state ← out (XState pid) (fun l => x_state l pid);
        rest ← stopped_pids launcher pids;
        mret (match state with
              | Some c => if str_eqb c "T" || str_eqb c "t" then pid :: rest else rest
              | None => rest
              end)
  end.

Fixpoint await_inner_gate (n : nat) (launcher : Z) (a s : string) (deadline : Z) : V Z :=
  match n with
  | O => cut_off
  | S n =>
      now ← clock;
      if deadline <=? now then throw (WorkspaceError "inner Bubblewrap launch barrier timed out")
      else
        code ← poll launcher;
        throw_when (bool_decide (is_Some code))
          (WorkspaceError "Bubblewrap exited before the inner launch barrier");;
        pids ← out (GPids a s) (fun l => g_pids l a s);
        stopped ← stopped_pids launcher pids;
        match stopped with
        | [pid] => mret pid
        | [] => pause (ms 10);; await_inner_gate n launcher a s deadline
        | _ => throw (WorkspaceError "inner launch barrier matched multiple stopped processes")
        end
  end.

Definition _wait_inner_gate (launcher : Z) (a s : string) (timeout : Z) : V Z :=
  start ← clock; await_inner_gate fuel launcher a s (start + timeout).

Definition _open_pidfd (pid : Z) : V Z :=
  wrapping os_errors "failed to pin inner launch gate identity"
    (out (XOpenPidfd pid) (fun l => x_open_pidfd l pid)).

Definition _close_pidfd (pidfd : option Z) : V unit :=
  match pidfd with
  | None => mret ()
  | Some fd => ignoring is_os_error (out (XClosePidfd fd) (fun l => x_close_pidfd l fd))
  end.

Definition _pidfd_send_signal (pidfd signum : Z) : V unit :=
  wrapping os_errors ("failed to " +:+ (if signum =? 0 then "validate" else "resume")
                      +:+ " pinned inner launch gate identity")
    (out (XSignal pidfd signum) (fun l => x_signal l pidfd signum)).

Definition _namespace_inode (pid : Z) (namespace : string) : V Z :=
  identity ← wrapping os_errors ("failed to bind execution " +:+ namespace +:+ " namespace")
               (out (XNamespace pid namespace) (fun l => x_namespace l pid namespace));
  throw_when (identity <=? 0)
    (WorkspaceError ("execution " +:+ namespace +:+ " namespace has an invalid identity"));;
  mret identity.

Definition owned (a s : string) (pid : Z) (message : string) : V unit :=
  b ← out (GOwns a s pid) (fun l => g_owns l a s pid);
  throw_when (negb b) (WorkspaceError message).

(** Every lookup by number is between two checks that the pidfd still lives. *)
Definition _target_identity (a s : string) (pid pidfd : Z) (phase : string) : V (Z * Z) :=
  _pidfd_send_signal pidfd 0;;
  owned a s pid ("inner launch gate left the Session cgroup " +:+ phase);;
  _pidfd_send_signal pidfd 0;;
  mnt ← _namespace_inode pid "mnt";
  _pidfd_send_signal pidfd 0;;
  net ← _namespace_inode pid "net";
  _pidfd_send_signal pidfd 0;;
  owned a s pid ("inner launch gate identity changed " +:+ phase);;
  _pidfd_send_signal pidfd 0;;
  mret (mnt, net).
End launch.

(** ** The launch *)

(** The variables of [_start] that its handler looks at. *)
Record locals := Locals {
  lo_cookie : Z;
  lo_process : option Z;
  lo_seeded : bool;
  lo_attached : bool;
  lo_identity : option identity;
  lo_feature : option nat;
  lo_target : option Z;
  lo_pidfd : option Z }.

Definition new_locals (cookie : Z) : locals := Locals cookie None false false None None None None.

Definition lo_set_cookie (c : Z) (l : locals) : locals :=
  Locals c (lo_process l) (lo_seeded l) (lo_attached l) (lo_identity l) (lo_feature l)
    (lo_target l) (lo_pidfd l).
Definition lo_set_process (pid : Z) (l : locals) : locals :=
  Locals (lo_cookie l) (Some pid) (lo_seeded l) (lo_attached l) (lo_identity l) (lo_feature l)
    (lo_target l) (lo_pidfd l).
Definition lo_set_seeded (l : locals) : locals :=
  Locals (lo_cookie l) (lo_process l) true (lo_attached l) (lo_identity l) (lo_feature l)
    (lo_target l) (lo_pidfd l).
Definition lo_set_attached (l : locals) : locals :=
  Locals (lo_cookie l) (lo_process l) (lo_seeded l) true (lo_identity l) (lo_feature l)
    (lo_target l) (lo_pidfd l).
Definition lo_set_identity (i : identity) (l : locals) : locals :=
  Locals (lo_cookie l) (lo_process l) (lo_seeded l) (lo_attached l) (Some i) (lo_feature l)
    (lo_target l) (lo_pidfd l).
Definition lo_set_feature (h : nat) (l : locals) : locals :=
  Locals (lo_cookie l) (lo_process l) (lo_seeded l) (lo_attached l) (lo_identity l) (Some h)
    (lo_target l) (lo_pidfd l).
Definition lo_set_target (pid : Z) (l : locals) : locals :=
  Locals (lo_cookie l) (lo_process l) (lo_seeded l) (lo_attached l) (lo_identity l)
    (lo_feature l) (Some pid) (lo_pidfd l).
Definition lo_set_pidfd (fd : option Z) (l : locals) : locals :=
  Locals (lo_cookie l) (lo_process l) (lo_seeded l) (lo_attached l) (lo_identity l)
    (lo_feature l) (lo_target l) fd.

(** A request to start a run; [rq_run] is its new identifier. *)
Record start_request := StartRequest {
  rq_agent : string; rq_session : string; rq_argv : pyval; rq_env : pyval; rq_timeout : pyval;
  rq_trace : pyval; rq_recovery : pyval; rq_run : string; rq_lease : string }.

Section start.
Context `{StoreService} `{Cgroups} `{Observer} `{ExecutionPlugins} `{Platform}.
Context (audit_root boot_id : string) (fuel : nat).

(** Computations on the service and the local variables. *)
Definition L (A : Type) : Type := P scall (service * locals) A.

Definition sv {A} (m : V A) : L A := zoom fst (fun x o => (x, snd o)) m.
Definition set_local (f : locals -> locals) : L unit := modify (fun o => (fst o, f (snd o))).
Definition local {A} (f : locals -> A) : L A := read (fun o => f (snd o)).

Definition draw_cookie : V Z :=
  perform TCookie (fun l => Done (let c := t_cookie l in if c =? 0 then 1 else c)).

Fixpoint fresh_cookie (n : nat) : L unit :=
  match n with
  | O => sv cut_off
  | S n =>
      cookie ← local lo_cookie;
      taken ← sv (read (fun s => bool_decide (is_Some (sv_cookies s !! cookie))));
      if (taken : bool) then c ← sv draw_cookie; set_local (lo_set_cookie c);; fresh_cookie n
      else mret ()
  end.

(** [directory] and the environments. *)
Definition directory (rq : start_request) : string := audit_root +:+ "/" +:+ rq_run rq.

Definition child_env (rq : start_request) : dict :=
  let current := st_current (rq_agent rq) (rq_session rq) in
  [("PATH", PStr "/usr/local/bin:/usr/bin:/bin"); ("HOME", PStr current);
   ("TMPDIR", PStr (current +:+ "/.allox-tmp")); ("ALLOX_AGENT_ID", PStr (rq_agent rq));
   ("ALLOX_SESSION_ID", PStr (rq_session rq)); ("ALLOX_RUN_ID", PStr (rq_run rq));
   ("ALLOX_AGENT_SHARED", PStr (st_shared (rq_agent rq)));
   ("ALLOX_AGENT_WORKSPACE", PStr (st_agent_workspace (rq_agent rq)))].

Definition launch_config (rq : start_request) (argv : list string) : dict :=
  [("argv", PList (PStr <$> argv));
   ("cwd", PStr (st_current (rq_agent rq) (rq_session rq)));
   ("env", PDict (child_env rq));
   ("stdout", PStr (directory rq +:+ "/stdout.log"));
   ("stderr", PStr (directory rq +:+ "/stderr.log"))].

Definition recovery_row (p : recovery_plan) : dict :=
  [("checkpoint_id", PStr (rp_checkpoint_id p)); ("recovery_id", PStr (rp_recovery_id p));
   ("scrub_runtime", PBool (rp_scrub_runtime p));
   ("require_consistent", PBool (rp_require_consistent p));
   ("baseline_created", PBool (rp_baseline_created p))].

Definition first_row (rq : start_request) (epoch now cookie : Z) (plan : option recovery_plan)
    (metadata : dict) : dict :=
  let row :=
    [("run_id", PStr (rq_run rq)); ("run_epoch", PInt epoch); ("agent_id", PStr (rq_agent rq));
     ("session_id", PStr (rq_session rq)); ("backend", PStr o_backend);
     ("isolation", PStr "bubblewrap"); ("boot_id", PStr boot_id); ("state", PStr "starting");
     ("created_ns", PInt now); ("event_count", PInt 0); ("processes", PDict []);
     ("audit_directory", PStr (directory rq)); ("trace_complete", PBool false);
     ("cookie", PInt cookie)] in
  let row := if f_present && f_lifecycle then dset "feature_runs" (PDict []) row else row in
  let row := match plan with Some p => dset "recovery" (PDict (recovery_row p)) row
             | None => row end in
  let row := dupdate row metadata in
  match rq_trace rq with PDict d => dset "trace_context" (PDict d) row | _ => row end.

Definition nothing_contributed : merged := Merged [] [] [] [].

(** The section under the lock that registers the run; it gives the launch
    configuration, the epoch and the plugins' metadata. *)
Definition register_run (rq : start_request) (plan : option recovery_plan)
    : L (dict * Z * dict) :=
  sv yield_;;
  closed ← sv (read sv_closed);
  throw_when closed (WorkspaceError "process tracking service is shutting down");;
  error ← sv (read sv_backend_error);
  match error with
  | Some (String c e) =>
      throw (WorkspaceError ("process tracking provider failed: " +:+ String c e))
  | _ => mret ()
  end;;
  fresh_cookie fuel;;
  cookie ← local lo_cookie;
  epoch ← sv (read sv_next_epoch);
  sv (modify (with_epoch (epoch + 1)));;
  sv (perform (DMkdir (rq_run rq)) (fun l => d_mkdir l (rq_run rq)));;
  c ← (if f_present
       then sv (perform (FPrepare (rq_agent rq) (rq_session rq))
                  (fun l => f_prepare l (rq_agent rq) (rq_session rq)))
       else mret nothing_contributed);
  let env := match rq_env rq with PDict d => d | _ => [] end in
  let env := dupdate env (environment c) in
  more ← (if f_present
          then sv (perform (FEnvironment (rq_agent rq) (rq_session rq) (rq_run rq) (rq_trace rq))
                     (fun l => f_environment l (rq_agent rq) (rq_session rq) (rq_run rq)
                                 (rq_trace rq)))
          else mret []);
  let env := dupdate env more in
  argv ← lift (build_bwrap_argv (st_current (rq_agent rq) (rq_session rq))
                 (st_shared (rq_agent rq)) (rq_agent rq) (rq_session rq) (strings (rq_argv rq))
                 (string_items (PDict env)) (mounts c) (PBool (f_present && f_lifecycle))
                 (Some (rq_run rq)));
  now ← sv (perform TTimeNs (fun l => Done (t_time_ns l)));
  let row := first_row rq epoch now cookie plan (metadata c) in
  sv (modify (fun s => with_cookies (<[cookie := rq_run rq]> (sv_cookies s))
       (with_runs (sv_runs s ++ [(rq_run rq, Run row None (rq_lease rq) None false false false
                                                None None None plan)]) s)));;
  sv (save row);;
  mret (launch_config rq (prefixes c ++ argv), epoch, metadata c).

(** Spawning the gate, up to the observer's seed. *)
Definition launch_gate (rq : start_request) (config : dict) : L (Z * identity * string) :=
  pid ← sv (out XSpawn (fun l => x_spawn l));
  set_local (lo_set_process pid);;
  sv (out (XConfigure pid config) (fun l => x_configure l pid config));;
  sv (locked (on_run (rq_run rq) (set_process (Some pid))));;
  sv (_wait_stopped fuel pid (seconds 5));;
  cgroup ← sv (out (GAttach (rq_agent rq) (rq_session rq) pid)
                 (fun l => g_attach l (rq_agent rq) (rq_session rq) pid));
  set_local lo_set_attached;;
  identity ← sv (out (GIdentity (rq_agent rq) (rq_session rq))
                   (fun l => g_identity l (rq_agent rq) (rq_session rq)));
  set_local (lo_set_identity identity);;
  sv (locked (on_run (rq_run rq) (set_cgroup (Some identity))));;
  cookie ← local lo_cookie;
  sv (out (OSeed pid cookie) (fun l => o_seed l pid cookie));;
  set_local lo_set_seeded;;
  mret (pid, identity, cgroup).

Definition healthy (h : nat) : V unit := out (FHealthy h) (fun l => f_healthy l h).

(** The plugins' start at the frozen inner gate: the gate's pid and pidfd, its
    namespaces and the handle. *)
Definition start_plugins (rq : start_request) (plan : option recovery_plan) (epoch : Z)
    (metadata : dict) (pid : Z) (identity : identity) : L (Z * Z * (Z * Z) * nat) :=
  let a := rq_agent rq in
  let s := rq_session rq in
  sv (out (XContinue pid) (fun l => x_continue l pid));;
  target ← sv (_wait_inner_gate fuel pid a s (seconds 10));
  set_local (lo_set_target target);;
  fd ← sv (_open_pidfd target);
  set_local (lo_set_pidfd (Some fd));;
  sv (out (GFreeze a s (id_inode identity)) (fun l => g_freeze l a s (id_inode identity)));;
  ns ← sv (_target_identity a s target fd "before Observer readiness");
  let ctx := ExecutionStartContext a s (rq_run rq) epoch target (id_path identity)
               (id_relative_path identity) (id_inode identity) ns.1 ns.2 (directory rq) boot_id
               metadata plan in
  h ← sv (out (FStart ctx) (fun l => f_start_execution l ctx));
  set_local (lo_set_feature h);;
  sv (healthy h);;
  sv (locked (on_run (rq_run rq) (fun r => set_target (Some target) (set_feature (Some h) r));;
              status ← perform (FStatus h) (fun l => f_status l h);
              on_row (rq_run rq) (dset "feature_runs" (PDict status))));;
  mret (target, fd, ns, h).

(** The row becomes that of a running process. *)
Definition running_row (pid : Z) (target : option Z) (cgroup : string) (row : dict) : dict :=
  let row := dset "root_pid" (PInt (default pid target)) row in
  let row := match target with
             | Some t => if t =? pid then row else dset "launcher_pid" (PInt pid) row
             | None => row
             end in
  dset "state" (PStr "running") (dset "cgroup" (PStr cgroup) row).

Definition mark_running (rq : start_request) (pid : Z) (target : option Z) (handle : option nat)
    (cgroup : string) : V unit :=
  locked
    (error ← read sv_backend_error;
     match error with Some (String c e) => throw (WorkspaceError (String c e)) | _ => mret () end;;
     match handle with
     | Some h => perform (FHealthy h) (fun l => f_healthy l h) | None => mret () end;;
     on_row (rq_run rq) (running_row pid target cgroup);;
     r ← the_run (rq_run rq);
     (if f_present then perform (FStarted (r_row r)) (fun l => f_started l (r_row r))
      else mret ());;
     (if f_present && f_lifecycle then save_durable (r_row r) else save (r_row r))).

Definition SIGCONT : Z := 18.

(** The release of the gate once the plugins are ready: the same target in the
    same namespaces, and plugins that are healthy before and after their last
    transition. *)
Definition release_gate (rq : start_request) (identity : identity)
    (started : Z * Z * (Z * Z) * nat) : L unit :=
  let '(target, fd, ns, h) := started in
  let a := rq_agent rq in
  let s := rq_session rq in
  ready ← sv (_target_identity a s target fd "after Observer readiness");
  throw_when (negb (bool_decide (ready = ns)))
    (WorkspaceError "inner launch gate namespaces changed after Observer readiness");;
  sv (healthy h);;
  sv (out (FAgentStarted h) (fun l => f_agent_started l h));;
  sv (healthy h);;
  finally
    (sv (_pidfd_send_signal fd SIGCONT);;
     sv (out (GThaw a s (id_inode identity)) (fun l => g_thaw l a s (id_inode identity))))
    (sv (_close_pidfd (Some fd));; set_local (lo_set_pidfd None)).

(** The body of the [try]. *)
Definition start_body (rq : start_request) : L dict :=
  plan ← sv (_prepare_recovery_plan (rq_agent rq) (rq_session rq) (rq_run rq) (rq_recovery rq));
  reg ← register_run rq plan;
  let '(config, epoch, metadata) := reg in
  gate ← launch_gate rq config;
  let '(pid, identity, cgroup) := gate in
  (if f_present && f_lifecycle then
     started ← start_plugins rq plan epoch metadata pid identity;
     let '(target, _, _, h) := started in
     sv (mark_running rq pid (Some target) (Some h) cgroup);;
     release_gate rq identity started
   else
     sv (mark_running rq pid None None cgroup);;
     sv (out (XContinue pid) (fun l => x_continue l pid)));;
  sv (locked (on_run (rq_run rq) (set_timer true)));;
  sv (out (XTimer (rq_run rq)) (fun l => x_timer l (rq_run rq)));;
  sv (out (XThread (rq_run rq)) (fun l => x_thread l (rq_run rq)));;
  r ← sv (locked (the_run (rq_run rq)));
  mret (r_row r).
End start.
