(* ===== verification/RunStable.v ===== *)
(** * Runs under interference

    Every thread may work on every run.  What each of them promises to the
    others is the relation [stable]: a run once registered stays registered and
    keeps its lease, its process, its plugins' handle, the identity of its
    cgroup and the fields of its row that name it; a reason to stop and the end
    of the run are final; the numbers of its events do not go back.  The relation
    [respects K] says moreover that a run of [K] is given no process, handle or
    cgroup: that is for the thread which starts it. *)

From Stdlib Require Import Ascii.
From Stdlib Require String.
From stdpp Require Import gmap pretty.
From S2P Require Import Prelude Effects PyVal Ids Kernel Cgroup Extensions Registry Runs Launch.
Open Scope Z_scope.

(** * Facts about runs

    The table of runs under its updates, the evidence in a history of calls,
    and the rules for the steps the operations of the service share. *)

(** ** The table of runs *)

Lemma run_in_update id id' f runs :
  run_in (map (fun kr => if str_eqb kr.1 id then (kr.1, f kr.2) else kr) runs) id' =
  (if str_eqb id' id then f <$> run_in runs id' else run_in runs id').
Proof.
  induction runs as [|[k r] runs IH]; simpl; [by destruct (str_eqb id' id)|].
  destruct (str_eqb k id) eqn:Ek; simpl; destruct (str_eqb k id') eqn:Ek'; try done.
  - apply str_eqb_eq in Ek as ->, Ek' as ->. by rewrite str_eqb_refl.
  - apply str_eqb_eq in Ek' as ->. by rewrite Ek.
Qed.

Lemma run_of_update id f s : run_of id (update_run id f s) = f <$> run_of id s.
Proof. unfold run_of. simpl. by rewrite run_in_update, str_eqb_refl. Qed.

Lemma run_of_update_other id id' f s :
  id' <> id -> run_of id' (update_run id f s) = run_of id' s.
Proof.
  intros Hne%str_eqb_neq. unfold run_of. simpl. by rewrite run_in_update, Hne.
Qed.

Lemma run_of_registry id r s : run_of id (with_registry r s) = run_of id s.
Proof. done. Qed.

Lemma run_of_cookies id c s : run_of id (with_cookies c s) = run_of id s.
Proof. done. Qed.

(** ** Evidence in the history *)

(** The call [c] was made when [n] calls had been made already, at a moment of
    which [ok] holds. *)
Definition answered (n : nat) (h : list scall) (c : scall) (ok : list scall -> Prop) : Prop :=
  exists h1 h2, h = h1 ++ c :: h2 /\ (n <= length h1)%nat /\ ok h1.

Lemma answered_app n h k c ok : answered n h c ok -> answered n (h ++ k) c ok.
Proof.
  intros (h1 & h2 & -> & Hn & Hok). exists h1, (h2 ++ k). split; [|done].
  by rewrite <- app_assoc.
Qed.

Lemma answered_here (n : nat) h c (ok : list scall -> Prop) :
  (n <= length h)%nat -> ok h -> answered n (h ++ [c]) c ok.
Proof. intros. by exists h, []. Qed.

(** Anything but giving a lease back. *)
Definition keeps_lease (c : scall) : Prop := match c with SRelease _ => False | _ => True end.

(** A call that obtains nothing and gives no lease back. *)
Definition quiet (c : scall) : Prop :=
  match c with
  | XSpawn | GAttach _ _ _ | OSeed _ _ | FStart _ | SRelease _ => False
  | _ => True
  end.

Lemma quiet_keeps c : quiet c -> keeps_lease c.
Proof. by destruct c. Qed.

Section runs.
Context `{StoreService} `{Cgroups} `{Observer} `{ExecutionPlugins} `{Platform}.

(** ** Which calls the steps make *)

Lemma only_the_run p id : only p (the_run id).
Proof. unfold the_run. repeat only_step. Qed.

Lemma only_out {A} (p : scall -> Prop) c (f : list scall -> reply A) : p c -> only p (out c f).
Proof. intros Hc. unfold out, yield_. by repeat only_step. Qed.

Lemma only_locked {A} p (m : V A) : only p m -> only p (locked m).
Proof. intros Hm. unfold locked, yield_. by repeat only_step. Qed.

(** ** Rules for the steps *)

Lemma wp_out {A} c (f : list scall -> reply A) (Q : reply A -> st scall service -> Prop) s :
  (forall o r, f (hist s) = r -> Q r (St (hist s ++ [c]) o)) -> ewp (out c f) Q s.
Proof. intros HQ. unfold out, yield_. apply ewp_bind, ewp_interleave, ewp_perform. auto. Qed.

(** A run that is there: the computation goes on with it. *)
Lemma wp_the_run id (Q : reply run -> st scall service -> Prop) s :
  (forall r, run_of id (obj s) = Some r -> Q (Done r) s) ->
  (run_of id (obj s) = None -> Q (Raised KeyError) s) ->
  ewp (the_run id) Q s.
Proof.
  intros Hr Hn. unfold the_run. apply ewp_bind, ewp_read.
  destruct (run_of id (obj s)); [by apply ewp_ret, Hr|by apply ewp_throw, Hn].
Qed.

Lemma wp_locked {A} (m : V A) (Q : reply A -> st scall service -> Prop) s :
  ewp m Q (St (hist s) (others (hist s) (obj s))) -> ewp (locked m) Q s.
Proof. intros HQ. unfold locked, yield_. by apply ewp_bind, ewp_interleave. Qed.
End runs.

(** ** The relation *)

Definition naming_keys : list string :=
  ["run_id"; "agent_id"; "session_id"; "boot_id"; "cookie"; "audit_directory"; "created_ns"].

(** The processes of a row are a dictionary of dictionaries. *)
Definition is_task (kv : string * pyval) : bool := match kv.2 with PDict _ => true | _ => false end.

Definition tasks_ok (row : dict) : bool :=
  match dget "processes" row with Some (PDict ps) => forallb is_task ps | _ => false end.

(** The number of the last event. *)
Definition event_number (row : dict) : Z :=
  match dget "event_count" row with Some (PInt n) => n | _ => -1 end.

Record row_kept (row row' : dict) : Prop := {
  kept_names : forall k, k ∈ naming_keys -> dget k row' = dget k row;
  kept_tasks : tasks_ok row = true -> tasks_ok row' = true;
  kept_events : event_number row <= event_number row' }.

Definition stays {A} (o o' : option A) : Prop := forall a, o = Some a -> o' = Some a.

Record run_kept (r r' : run) : Prop := {
  kept_row : row_kept (r_row r) (r_row r');
  kept_lease : r_lease r' = r_lease r;
  kept_recovery : r_recovery r' = r_recovery r;
  kept_process : stays (r_process r) (r_process r');
  kept_feature : stays (r_feature r) (r_feature r');
  kept_cgroup : stays (r_cgroup r) (r_cgroup r');
  kept_stop : stays (r_stop_reason r) (r_stop_reason r');
  kept_done : r_done r = true -> r_done r' = true }.

Definition stable : relation service := fun s s' =>
  forall id r, run_of id s = Some r -> exists r', run_of id s' = Some r' /\ run_kept r r'.

#[export] Instance row_kept_preorder : PreOrder row_kept.
Proof.
  split.
  - intros row. by split; [done|done|lia].
  - intros a b c [A1 A2 A3] [B1 B2 B3]. split; [|auto|lia].
    intros k Hk. by rewrite B1, A1.
Qed.

#[export] Instance run_kept_preorder : PreOrder run_kept.
Proof.
  split.
  - intros r. by split; [|done|done|intros ? ?..|].
  - intros a b c [A1 A2 A3 A4 A5 A6 A7 A8] [B1 B2 B3 B4 B5 B6 B7 B8].
    split; [by transitivity (r_row b)|congruence|congruence|unfold stays in *; eauto..].
Qed.

#[export] Instance stable_preorder : PreOrder stable.
Proof.
  split.
  - intros s id r Hr. by exists r.
  - intros a b c Hab Hbc id r Hr. destruct (Hab id r Hr) as (r1 & Hr1 & Hk1).
    destruct (Hbc id r1 Hr1) as (r2 & Hr2 & Hk2). exists r2. split; [done|]. by transitivity r1.
Qed.

(** What the thread that starts a run gives to it. *)
Definition held (r : run) : option Z * option nat * option identity :=
  (r_process r, r_feature r, r_cgroup r).

Definition holdings (id : string) (s : service) : option (option Z * option nat * option identity) :=
  held <$> run_of id s.

Record respects (K : string -> Prop) (s s' : service) : Prop := {
  respects_runs : stable s s';
  respects_handles : forall id, K id -> holdings id s' = holdings id s }.

#[export] Instance respects_preorder K : PreOrder (respects K).
Proof.
  split.
  - intros s. by split.
  - intros a b c [A1 A2] [B1 B2]. split; [by transitivity b|].
    intros id Hid. by rewrite B2, A2.
Qed.

Lemma respects_weaken (K K' : string -> Prop) s s' :
  (forall id, K' id -> K id) -> respects K s s' -> respects K' s s'.
Proof. intros Hsub [Hs Hh]. split; auto. Qed.

Lemma respects_none s s' : stable s s' -> respects (fun _ => False) s s'.
Proof. by split. Qed.

(** ** Changes that respect it *)

Lemma stable_update id f s :
  (forall r, run_of id s = Some r -> run_kept r (f r)) -> stable s (update_run id f s).
Proof.
  intros Hf id' r Hr. destruct (decide (id' = id)) as [->|Hne].
  - exists (f r). rewrite run_of_update, Hr. by split; [|apply Hf].
  - exists r. by rewrite run_of_update_other.
Qed.

Lemma stable_same_runs s s' : sv_runs s' = sv_runs s -> stable s s'.
Proof. intros Heq id r Hr. exists r. unfold run_of in *. by rewrite Heq. Qed.

Lemma respects_same_runs K s s' : sv_runs s' = sv_runs s -> respects K s s'.
Proof.
  intros Heq. split; [by apply stable_same_runs|]. intros id _. unfold holdings, run_of. by rewrite Heq.
Qed.

Lemma respects_update K id f s :
  (forall r, run_of id s = Some r -> run_kept r (f r) /\ held (f r) = held r) ->
  respects K s (update_run id f s).
Proof.
  intros Hf. split; [apply stable_update; intros r Hr; by apply Hf|]. intros id' _. unfold holdings.
  destruct (decide (id' = id)) as [->|Hne]; [|by rewrite run_of_update_other].
  rewrite run_of_update. destruct (run_of id s) as [r|] eqn:Hr; [|done]. simpl.
  by rewrite (proj2 (Hf r eq_refl)).
Qed.

Lemma run_kept_row r f : row_kept (r_row r) (f (r_row r)) -> run_kept r (change_row f r).
Proof. intros Hr. by split; [|done|done|intros ? ?..|]. Qed.

(** A field that neither names the run nor counts its events. *)
Definition plain (k : string) : bool :=
  negb (existsb (str_eqb k) ("processes" :: "event_count" :: naming_keys)).

Lemma row_kept_set k v row : plain k = true -> row_kept row (dset k v row).
Proof.
  unfold plain. rewrite negb_true_iff. intros Hk.
  assert (Hne : forall k', k' ∈ "processes" :: "event_count" :: naming_keys -> k' <> k).
  { intros k' Hk' ->. apply not_true_iff_false in Hk. apply Hk, existsb_exists.
    exists k. split; [by apply list_elem_of_In|apply str_eqb_refl]. }
  split.
  - intros k' Hk'. rewrite dget_dset_ne; [done|]. apply Hne. set_solver.
  - unfold tasks_ok. rewrite dget_dset_ne; [done|]. apply Hne. set_solver.
  - unfold event_number. rewrite dget_dset_ne; [lia|]. apply Hne. set_solver.
Qed.

Lemma row_kept_update row fields :
  forallb (fun kv => plain kv.1) fields = true -> row_kept row (dupdate row fields).
Proof.
  unfold dupdate. revert row. induction fields as [|[k v] fields IH]; intros row Hf; simpl in *; [done|].
  apply andb_prop in Hf as [Hk Hf]. etransitivity; [by apply (row_kept_set k v)|by apply IH].
Qed.

Lemma row_kept_compose row row1 row2 : row_kept row row1 -> row_kept row1 row2 -> row_kept row row2.
Proof. apply transitivity. Qed.

Lemma row_kept_failed_provider reason row : row_kept row (provider_failed reason row).
Proof.
  unfold provider_failed. eapply row_kept_compose; [by apply (row_kept_set "session_fenced")|].
  by apply row_kept_set.
Qed.

Lemma row_kept_failed_feature reason row : row_kept row (feature_failed_row reason row).
Proof.
  unfold feature_failed_row. set (row1 := dset "feature_error" _ _).
  assert (Hrow1 : row_kept row row1).
  { eapply row_kept_compose; [by apply (row_kept_set "session_fenced")|by apply row_kept_set]. }
  destruct (dgetn "feature_runs" row1); try done.
  eapply row_kept_compose; [exact Hrow1|]. by apply row_kept_set.
Qed.

Lemma run_kept_stop reason r : run_kept r (stop_with reason r).
Proof.
  unfold stop_with. destruct (r_stop_reason r) as [x|] eqn:E; [done|].
  split; simpl; [by apply row_kept_set|done|done| | | | |done]; intros x Hx; simpl in *; congruence.
Qed.

Lemma held_stop reason r : held (stop_with reason r) = held r.
Proof. unfold stop_with. by destruct (r_stop_reason r). Qed.

Lemma run_kept_exited r : run_kept r (set_exited r).
Proof. by split; [|done|done|intros ? ?..|]. Qed.

Lemma run_kept_timer b r : run_kept r (set_timer b r).
Proof. by split; [|done|done|intros ? ?..|]. Qed.

Lemma run_kept_done r : run_kept r (set_done r).
Proof. by split; [|done|done|intros ? ?..|]. Qed.

(** The number and the record of an event. *)
Lemma tasks_ok_set identity item ps row :
  tasks_ok row = true -> dget "processes" row = Some (PDict ps) ->
  tasks_ok (dset "processes" (PDict (dset identity (PDict item) ps)) row) = true.
Proof.
  unfold tasks_ok. intros Hok E. rewrite E in Hok. rewrite dget_dset_eq. clear E.
  induction ps as [|[k v] ps IH]; simpl in *; [done|].
  apply andb_prop in Hok as [Hv Hps]. destruct (str_eqb identity k); simpl; [by rewrite Hps|].
  by rewrite Hv, IH.
Qed.

Lemma row_kept_attributed row event x : attributed row event = Ok x -> row_kept row x.2.
Proof.
  unfold attributed. destruct (py_truthy _); [|by intros [= <-]].
  destruct (process_identity row event _ _) as [identity|]; [|done]. simpl.
  set (event2 := if py_eqb _ _ then _ else _). destruct event2 as [ev|]; [|done]. simpl.
  destruct (dindex "processes" row) as [v|] eqn:Ep; [|done]. simpl.
  destruct v as [| | | | | |ps]; try done.
  destruct (dget_or identity _ ps) as [| | | | | |item]; try done. intros [= <-]. simpl.
  assert (Hp : dget "processes" row = Some (PDict ps)).
  { unfold dindex in Ep. destruct (dget "processes" row); [congruence|done]. }
  split.
  - intros k Hk. rewrite dget_dset_ne; [done|]. intros ->. by vm_compute in Hk; set_solver.
  - intros Hok. by apply tasks_ok_set.
  - unfold event_number. rewrite dget_dset_ne by done. lia.
Qed.

Lemma row_kept_counted n row :
  dget "event_count" row = Some (PInt n) -> row_kept row (dset "event_count" (PInt (n + 1)) row).
Proof.
  intros E. split.
  - intros k Hk. rewrite dget_dset_ne; [done|]. intros ->. by vm_compute in Hk; set_solver.
  - unfold tasks_ok. by rewrite dget_dset_ne.
  - unfold event_number. rewrite dget_dset_eq, E. lia.
Qed.

(** ** The operations respect it *)

Section operations.
Context `{StoreService} `{Cgroups} `{Observer} `{ExecutionPlugins} `{Platform}.
Context (K : string -> Prop) (others_respect : forall h s, respects K s (others h s)).

Lemma moves_yield : moves (respects K) yield_.
Proof. by apply moves_interleave. Qed.

Lemma moves_out {A} c (f : list scall -> reply A) : moves (respects K) (out c f).
Proof.
  unfold out. apply moves_bind; [exact _|apply moves_yield|]. intros _. apply moves_perform, _.
Qed.

Lemma moves_locked {A} (m : V A) : moves (respects K) m -> moves (respects K) (locked m).
Proof. intros Hm. unfold locked. apply moves_bind; [exact _|apply moves_yield|done]. Qed.

Lemma moves_the_run id : moves (respects K) (the_run id).
Proof.
  unfold the_run. apply moves_bind; [exact _|apply moves_read, _|].
  intros [r|]; [apply moves_ret, _|apply moves_throw, _].
Qed.

Lemma moves_on_run id f :
  (forall r, run_kept r (f r)) -> (forall r, held (f r) = held r) -> moves (respects K) (on_run id f).
Proof. intros Hf Hh. apply moves_modify. intros s. by apply respects_update. Qed.

Lemma moves_on_row id f : (forall row, row_kept row (f row)) -> moves (respects K) (on_row id f).
Proof. intros Hf. apply moves_on_run; [|done]. intros r. by apply run_kept_row. Qed.

Lemma moves_save_quietly row : moves (respects K) (save_quietly row).
Proof.
  unfold save_quietly, save. apply moves_catch; [exact _|apply moves_perform, _|].
  intros e. destruct (is_os_error e); [apply moves_ret, _|apply moves_throw, _].
Qed.

Lemma moves_ignoring caught (m : V unit) : moves (respects K) m -> moves (respects K) (ignoring caught m).
Proof.
  intros Hm. unfold ignoring. apply moves_catch; [exact _|done|].
  intros e. destruct (caught e); [apply moves_ret, _|apply moves_throw, _].
Qed.

(** The structure of an operation, with the rules above for its steps. *)
Ltac moves_service :=
  repeat first
    [ apply moves_out | apply moves_locked | apply moves_the_run | apply moves_yield
    | apply moves_save_quietly | apply moves_ignoring
    | apply moves_on_row; intros ?
    | apply moves_on_run; intros ?; [|first [reflexivity|apply held_stop]]
    | match goal with
      | |- moves _ (match ?x with _ => _ end) => destruct x
      | |- moves _ (if ?x then _ else _) => destruct x
      end
    | moves_step ].

(** A computation seen from a known state. *)
Lemma moves_ewp {A} (m : V A) :
  (forall s, ewp m (fun _ s' => respects K (obj s) (obj s')) s) -> moves (respects K) m.
Proof. done. Qed.

Lemma run_kept_set_row r row : row_kept (r_row r) row -> run_kept r (set_row row r).
Proof. intros Hr. by apply (run_kept_row r (fun _ => row)). Qed.

Lemma moves_append id event : moves (respects K) (_append_event id event).
Proof.
  apply moves_ewp. intros s. unfold _append_event. apply ewp_bind, wp_the_run; [|done].
  intros r Hr. apply ewp_bind, ewp_lift.
  destruct (dindex "event_count" (r_row r)) as [v|] eqn:Ei; simpl; [|done].
  destruct v as [| |n| | | |]; simpl; try done. apply ewp_bind, ewp_modify. simpl.
  assert (Hc : dget "event_count" (r_row r) = Some (PInt n)).
  { unfold dindex in Ei. destruct (dget _ _); congruence. }
  set (row := dset "event_count" _ _).
  assert (Hrow : row_kept (r_row r) row) by by apply row_kept_counted.
  assert (Hfirst : respects K (obj s) (update_run id (set_row row) (obj s))).
  { apply respects_update. intros r' Hr'. split; [|done]. rewrite Hr in Hr'. injection Hr' as <-.
    by apply run_kept_set_row. }
  apply ewp_bind, ewp_perform. intros t <-. simpl. apply ewp_bind, ewp_lift.
  destruct (stamped _ _ _ _) as [event1|]; [|done].
  apply ewp_bind, ewp_lift. destruct (attributed row event1) as [x|] eqn:Ex; [|done].
  apply ewp_bind, ewp_modify, ewp_perform. simpl. intros _ _.
  etransitivity; [exact Hfirst|]. apply respects_update. intros r' Hr'. split; [|done].
  rewrite run_of_update, Hr in Hr'. injection Hr' as <-. apply run_kept_set_row. simpl.
  by eapply row_kept_attributed.
Qed.

#[local] Opaque _append_event.

Lemma moves_record message : moves (respects K) (_record_event message).
Proof.
  unfold _record_event, save. destruct (dgetn "cookie" message); moves_service. apply moves_append.
Qed.

Lemma moves_feature_failed id reason : moves (respects K) (_feature_failed id reason).
Proof.
  unfold _feature_failed, kill_cgroup, poll, kill_process.
  moves_service; [apply row_kept_failed_feature|apply run_kept_stop].
Qed.

Lemma moves_backend_failed reason : moves (respects K) (_backend_failed reason).
Proof.
  unfold _backend_failed. moves_service.
  - apply moves_modify. intros s. by apply respects_same_runs.
  - apply row_kept_failed_provider.
Qed.

Lemma moves_terminate id reason : moves (respects K) (_terminate id reason).
Proof.
  unfold _terminate, kill_cgroup. moves_service; [apply run_kept_exited..|apply run_kept_stop].
Qed.

#[local] Opaque _terminate.

Lemma moves_fence a s terminate reason : moves (respects K) (session_launch_fence a s terminate reason).
Proof.
  unfold session_launch_fence, wait_done.
  repeat first [apply moves_terminate|moves_step|apply moves_locked|apply moves_out
    | match goal with |- moves _ (if ?x then _ else _) => destruct x end].
Qed.

Lemma moves_close : moves (respects K) close_processes.
Proof.
  unfold close_processes, wait_done.
  repeat first [apply moves_terminate|apply moves_locked|apply moves_out
    | match goal with
      | |- moves _ (if ?x then _ else _) => destruct x
      | |- moves _ (match ?x with _ => _ end) => destruct x
      end | moves_step].
  apply moves_modify. intros s. by apply respects_same_runs.
Qed.

End operations.
