(* ===== verification/Unwind.v ===== *)
(** * When a start fails

    The [except BaseException] clause of [ProcessTrackingService._start], and
    [_start] itself.  What the clause may assume about the launch is in the
    local variables [locals]; whether it may give the lease back is decided
    from them and from what the clean-up achieves. *)

From Stdlib Require Import Ascii.
From Stdlib Require String.
From stdpp Require Import gmap pretty.
From S2P Require Import Prelude Effects PyVal Ids Kernel Cgroup Extensions Registry.
From S2P Require Import Runs Launch.
Open Scope Z_scope.

Definition is_workspace_error (e : exn) : bool :=
  match e with WorkspaceError _ => true | _ => false end.

(** [except (OSError, subprocess.TimeoutExpired)] *)
Definition os_or_timeout (e : exn) : bool :=
  match e with OSError _ | TimeoutExpired => true | _ => false end.

(** [try: m except caught: <the value is a>] *)
Definition or_else {C O A} (caught : exn -> bool) (m : P C O A) (a : A) : P C O A :=
  catch m (fun e => if caught e then mret a else throw e).

Definition any_exception (_ : exn) : bool := true.

(** [type(exc).__name__] of what a clause caught; a [BaseException] that is no
    [Exception] is a [KeyboardInterrupt]. *)
Definition caught_name {A} (r : reply A) : string :=
  match r with
  | Raised e => exn_name e
  | _ => "KeyboardInterrupt"
  end.

(** [try: m except BaseException as exc: handler type(exc).__name__; raise] *)
Definition unwinding_with {C O A} (m : P C O A) (handler : string -> P C O unit) : P C O A := fun s =>
  match m s with
  | (Done a, s') => (Done a, s')
  | (r, s') =>
      match handler (caught_name r) s' with
      | (Done _, s'') => (r, s'')
      | (Raised e', s'') => (Raised e', s'')
      | (Interrupted, s'') => (Interrupted, s'')
      end
  end.

Lemma ewp_unwinding_with {C O A} (m : P C O A) handler
    (Q : reply A -> st C O -> Prop) s :
  ewp m (fun r s' =>
    match r with
    | Done a => Q (Done a) s'
    | _ => ewp (handler (caught_name r)) (fun r' s'' =>
             match r' with
             | Done _ => Q r s''
             | Raised e => Q (Raised e) s''
             | Interrupted => Q Interrupted s''
             end) s'
    end) s -> ewp (unwinding_with m handler) Q s.
Proof.
  unfold ewp, unwinding_with. destruct (m s) as [[a|e|] s']; simpl; [done|..];
    destruct (handler _ s') as [[[]|e'|] s'']; done.
Qed.

Lemma ewp_or_else {C O A} (caught : exn -> bool) (m : P C O A) a (Q : reply A -> st C O -> Prop) s :
  ewp m (fun r s' => match r with
                    | Raised e => if caught e then Q (Done a) s' else Q (Raised e) s'
                    | _ => Q r s'
                    end) s -> ewp (or_else caught m a) Q s.
Proof.
  intros H. apply ewp_catch. eapply ewp_mono; [exact H|]. intros [b|e|] s' HQ; [done| |done].
  by destruct (caught e).
Qed.

Section unwind.
Context `{StoreService} `{Cgroups} `{Observer} `{ExecutionPlugins} `{Platform}.
Context (a s run_id token : string).

(** ** The steps of the clause *)

(** Kill what the launch started, when it still runs. *)
Definition kill_launch (l : locals) : V unit :=
  match lo_process l with
  | None => mret ()
  | Some pid =>
      code ← poll pid;
      match code with
      | Some _ => mret ()
      | None =>
          (if lo_attached l then ignoring os_or_workspace_error (kill_cgroup a s) else mret ());;
          ignoring is_os_error (kill_process pid);;
          ignoring os_or_timeout (out (XWaitTimeout pid) (fun h => x_wait_timeout h pid))
      end
  end.

(** [empty]: no process, or one that ended and left its cgroup empty. *)
Definition launch_empty (l : locals) : V bool :=
  match lo_process l with
  | None => mret true
  | Some pid =>
      or_else os_or_workspace_error
        (code ← poll pid;
         match code with
         | None => mret false
         | Some _ =>
             if lo_attached l then out (GWaitEmpty a s 5) (fun h => g_wait_empty h a s 5)
             else mret true
         end) false
  end.

Definition quiescence_of (i : identity) : quiescence :=
  ExecutionQuiescence (id_path i) (id_inode i).

Definition quiesce_cgroup (i : identity) : V quiescence :=
  q ← out (GQuiesce a s (id_inode i)) (fun h => g_quiesce h a s (id_inode i));
  mret (quiescence_of q).

(** [empty] and [quiescence] after the cgroup was to be proved quiescent. *)
Definition launch_quiescence (l : locals) (empty : bool) : V (bool * option quiescence) :=
  match empty && lo_attached l, lo_identity l with
  | true, Some i =>
      or_else is_workspace_error (q ← quiesce_cgroup i; mret (true, Some q)) (false, None)
  | _, _ => mret (empty, None)
  end.

(** [tracker_finalized] *)
Definition finish_observer (pid cookie : Z) : V unit :=
  out (OFinish pid cookie) (fun h => o_finish h pid cookie).

Definition launch_tracker (l : locals) (empty : bool) : V bool :=
  match lo_seeded l && empty, lo_process l with
  | true, Some pid =>
      or_else is_workspace_error (finish_observer pid (lo_cookie l);; mret true) false
  | _, _ => mret (negb (lo_seeded l))
  end.

(** [features_finalized] *)
Definition close_unverified (h : nat) : V unit :=
  out (FCloseUnverified h) (fun l => f_close l h).

Definition finish_plugins (h : nat) (outcome : string) (q : quiescence) : V dict :=
  out (FFinish h outcome q) (fun l => f_finish l h outcome q).

Definition launch_features (l : locals) (empty : bool) (q : option quiescence) : V bool :=
  match lo_feature l with
  | None => mret true
  | Some h =>
      match empty, q with
      | true, Some q =>
          catch (result ← finish_plugins h "launch_failed" q;
                 on_row run_id (dset "feature_runs" (PDict result));;
                 mret true)
            (fun _ => close_unverified h;; mret false)
      | _, _ => close_unverified h;; mret false
      end
  end.

Definition remove_cgroup : V bool := out (GRemove a s) (fun h => g_remove h a s).

Definition launch_removed (l : locals) (release_safe : bool) : V bool :=
  if lo_attached l && release_safe then or_else any_exception remove_cgroup false
  else mret release_safe.

Definition launch_failed_row (release_safe : bool) (error : string) (row : dict) : dict :=
  dupdate row
    [("state", PStr "failed"); ("trace_complete", PBool false);
     ("lifecycle_complete", PBool false); ("session_fenced", PBool (negb release_safe));
     ("error", PStr error)].

Definition forget_cookie (cookie : Z) : V unit :=
  modify (fun s => with_cookies (delete cookie (sv_cookies s)) s).

(** The last section under the lock: the run has failed. *)
Definition fail_run (l : locals) (release_safe : bool) (error : string) : V bool :=
  locked
    (forget_cookie (lo_cookie l);;
     failed ← read (run_of run_id);
     match failed with
     | None => mret release_safe
     | Some _ =>
         on_row run_id (launch_failed_row release_safe error);;
         r ← the_run run_id;
         safe ← catch (save_durable (r_row r);; mret release_safe)
                  (fun _ => on_row run_id (dset "session_fenced" (PBool true));; mret false);
         on_run run_id set_done;;
         mret safe
     end).

(** The whole clause, with the local variables of the launch. *)
Definition settle_launch (l : locals) (error : string) : V unit :=
  _close_pidfd (lo_pidfd l);;
  kill_launch l;;
  empty ← launch_empty l;
  eq ← launch_quiescence l empty;
  let '(empty, quiescence) := eq in
  tracker_finalized ← launch_tracker l empty;
  features_finalized ← launch_features l empty quiescence;
  release_safe ← launch_removed l (empty && tracker_finalized && features_finalized);
  release_safe ← fail_run l release_safe error;
  if (release_safe : bool) then yield_;; release_lease token else mret ().
End unwind.

(** ** [_start] and [start] *)

Section start.
Context `{StoreService} `{Cgroups} `{Observer} `{ExecutionPlugins} `{Platform}.
Context (audit_root boot_id : string) (fuel : nat).

Definition fail_launch (rq : start_request) (error : string) : L unit :=
  l ← local (fun l => l);
  sv (settle_launch (rq_agent rq) (rq_session rq) (rq_run rq) (rq_lease rq) l error).

Definition guarded_start (rq : start_request) : L dict :=
  unwinding_with (start_body audit_root boot_id fuel rq) (fail_launch rq).

(** A computation with local variables of its own. *)
Definition with_locals {A} (l : locals) (m : L A) : V A := fun s =>
  match m (St (hist s) (obj s, l)) with
  | (r, s') => (r, St (hist s') (fst (obj s')))
  end.

Definition describe_session (a s : string) : V dict :=
  out (SDescribe a s) (fun l => st_describe l a s).

Definition _start (a s : string) (argv env timeout trace_context recovery : pyval) : V dict :=
  _ ← lift (validate_id "agent" a);
  _ ← lift (validate_id "session" s);
  lift (_validate_start argv env timeout);;
  lift (check_trace trace_context);;
  describe_session a s;;
  lease ← acquire_lease a s (negb (is_none recovery));
  run_id ← out TUuid (fun l => Done (t_uuid l));
  cookie ← draw_cookie;
  with_locals (new_locals cookie)
    (guarded_start
       (StartRequest a s argv env timeout trace_context recovery run_id lease)).

(** [start]: under the launch lock. *)
Definition start (a s : string) (argv env timeout trace_context recovery : pyval) : V dict :=
  yield_;; _start a s argv env timeout trace_context recovery.
End start.

Lemma ewp_with_locals `{Platform} {A} (l : locals) (m : L A) (Q : reply A -> st scall service -> Prop) s :
  ewp m (fun r s' => Q r (St (hist s') (fst (obj s')))) (St (hist s) (obj s, l)) ->
  ewp (with_locals l m) Q s.
Proof. unfold ewp, with_locals. by destruct (m _) as [r s']. Qed.
