(* ===== verification/Watch.v ===== *)
(** * The end of a run

    [ProcessTrackingService._watch]: the thread that waits for the run's root
    process, brings the evidence that nothing of the run is left, commits the
    outcome and only then gives the session's lease back. *)

From Stdlib Require Import Ascii.
From Stdlib Require String.
From stdpp Require Import gmap pretty.
From S2P Require Import Prelude Effects PyVal Ids Kernel Cgroup Extensions Registry.
From S2P Require Import Runs Launch Unwind.
Open Scope Z_scope.

(** ** The row at the end *)

(** [for task in row["processes"].values(): task["alive"] = False] *)
Definition dead (kv : string * pyval) : result (string * pyval) :=
  match kv.2 with
  | PDict task => Ok (kv.1, PDict (dset "alive" (PBool false) task))
  | _ => Err TypeError
  end.

Definition all_dead (row : dict) : result dict :=
  processes ← dindex "processes" row;
  match processes with
  | PDict ps => ps' ← mapM dead ps; Ok (dset "processes" (PDict ps') row)
  | _ => Err AttributeError
  end.

Definition outcome_of (stopped : bool) : string := if stopped then "stopped" else "completed".

(** The fields that say how the run ended; [traced] when a provider observed it. *)
Definition outcome_fields (successful stopped traced : bool) (row : dict) : dict :=
  dupdate row
    [("trace_complete", PBool (successful && traced)); ("lifecycle_complete", PBool successful);
     ("state", PStr (if successful then outcome_of stopped else "failed"));
     ("session_fenced", PBool (negb successful))].

(** What every late failure makes of the row. *)
Definition unfinished (row : dict) : dict :=
  dupdate row
    [("state", PStr "failed"); ("lifecycle_complete", PBool false);
     ("trace_complete", PBool false); ("session_fenced", PBool true)].

Definition unfinished_by (error : string) (row : dict) : dict :=
  dset "error" (PStr error) (unfinished row).

(** [row.setdefault("error", ...)] *)
Definition default_error (error : string) (row : dict) : dict :=
  match dget "error" row with Some _ => row | None => dset "error" (PStr error) row end.

Definition truthy_option (o : option string) : bool :=
  match o with Some (String _ _) => true | _ => false end.

(** [any(result.get("release_allowed") is not True for result in ...)] *)
Fixpoint not_authorized (results : dict) : result bool :=
  match results with
  | [] => Ok false
  | (_, PDict r) :: results =>
      match dget "release_allowed" r with
      | Some (PBool true) => not_authorized results
      | _ => Ok true
      end
  | _ :: _ => Err AttributeError
  end.

(** ** The thread *)

(** The variables of [_watch] that change. *)
Record flags := Flags { cgroup_quiescent : bool; tracker_finalized : bool; features_finalized : bool }.

Definition set_quiescent (f : flags) : flags :=
  Flags true (tracker_finalized f) (features_finalized f).
Definition set_tracker (f : flags) : flags :=
  Flags (cgroup_quiescent f) true (features_finalized f).
Definition set_features (f : flags) : flags :=
  Flags (cgroup_quiescent f) (tracker_finalized f) true.

Section watch.
Context `{StoreService} `{Cgroups} `{Observer} `{ExecutionPlugins} `{Platform}.

Definition W (A : Type) : Type := P scall (service * flags) A.

Definition on_service {A} (m : V A) : W A := zoom fst (fun x o => (x, snd o)) m.
Definition set_flag (f : flags -> flags) : W unit := modify (fun o => (fst o, f (snd o))).
Definition get_flags : W flags := read snd.

Context (run_id : string).

(** A look at the shared row outside the lock. *)
Definition row_now {A} (f : dict -> result A) : V A :=
  yield_;; r ← the_run run_id; lift (f (r_row r)).

Definition cookie_of (row : dict) : result Z := v ← dindex "cookie" row; as_count v.

Definition root_exited (code : Z) : V unit :=
  locked
    (on_run run_id set_exited;;
     on_run run_id (set_timer false);;
     on_row run_id (dset "root_exit_code" (PInt code))).

(** The cgroup is empty, and then certified quiescent. *)
Definition await_quiescence (identity : option identity) : V quiescence :=
  key ← row_now session_of;
  empty ← out (GWaitEmpty key.1 key.2 10) (fun l => g_wait_empty l key.1 key.2 10);
  throw_when (negb empty)
    (WorkspaceError "Session cgroup did not become empty after root exit");;
  match identity with
  | None => throw (WorkspaceError "Session cgroup identity is missing at finalization")
  | Some i => key ← row_now session_of; quiesce_cgroup key.1 key.2 i
  end.

Definition notify_finished : V unit :=
  if f_present
  then yield_;; r ← the_run run_id;
       perform (FFinished (r_row r)) (fun l => f_finished l (r_row r))
  else mret ().

(** The plugins' results; a recovery run needs every plugin's authorization. *)
Definition settle_plugins (h : nat) (recovery : bool) (q : quiescence) : V unit :=
  out (FHealthy h) (fun l => f_healthy l h);;
  yield_;;
  r ← the_run run_id;
  results ← finish_plugins h (outcome_of (truthy_option (r_stop_reason r))) q;
  on_row run_id (dset "feature_runs" (PDict results));;
  refused ← (if recovery then lift (not_authorized results) else mret false);
  throw_when refused (WorkspaceError "recovery verification did not authorize Session release").

(** The body of the [try]; [r] is the run as the thread found it. *)
Definition watch_body (r : run) : W unit :=
  match r_process r with
  | None => throw AttributeError
  | Some pid =>
      code ← on_service (out (XWait pid) (fun l => x_wait l pid));
      on_service (root_exited code);;
      q ← on_service (await_quiescence (r_cgroup r));
      set_flag set_quiescent;;
      on_service notify_finished;;
      cookie ← on_service (row_now cookie_of);
      on_service (finish_observer pid cookie);;
      set_flag set_tracker;;
      match r_feature r with
      | None => mret ()
      | Some h =>
          on_service (settle_plugins h (negb (bool_decide (r_recovery r = None))) q);;
          set_flag set_features
      end
  end.

Definition watch_failed (r : run) (e : exn) : W unit :=
  f ← get_flags;
  match r_feature r with
  | Some h => if features_finalized f then mret () else on_service (close_unverified h)
  | None => mret ()
  end;;
  on_service (locked (on_row run_id (fun row =>
    dset "trace_complete" (PBool false) (dset "error" (PStr (exn_name e)) row)))).

(** [self._save_durable(row)], whose failure fails the run; whether it held. *)
Definition commit : V bool :=
  r ← the_run run_id;
  catch (save_durable (r_row r);; mret true)
    (fun e => on_row run_id (unfinished_by (exn_name e));; mret false).

(** The cgroup's removal and the commit of the row that records it. *)
Definition retire_cgroup : V bool :=
  r ← the_run run_id;
  key ← lift (session_of (r_row r));
  removed ← catch (perform (GRemove key.1 key.2) (fun l => g_remove l key.1 key.2))
              (fun e => on_row run_id (dset "error" (PStr (exn_name e)));; mret false);
  on_row run_id (dset "cgroup_removed" (PBool removed));;
  (if (removed : bool) then mret ()
   else on_row run_id (fun row => default_error "CgroupRemovalIncomplete" (unfinished row)));;
  committed ← commit;
  mret (removed && committed).

(** [successful], before anything is committed. *)
Definition succeeded (f : flags) (s : service) (row : dict) : bool :=
  cgroup_quiescent f && tracker_finalized f && features_finalized f
  && bool_decide (sv_backend_error s = None) && negb (dhas "error" row).

(** The section under the lock that ends the run. *)
Definition conclude (f : flags) : V unit :=
  locked
    (on_run run_id (set_timer false);;
     r ← the_run run_id;
     successful ← read (fun s => succeeded f s (r_row r));
     on_row run_id (outcome_fields successful (truthy_option (r_stop_reason r))
                      (negb (str_eqb o_backend "disabled")));;
     r ← the_run run_id;
     row ← (if (successful : bool) then lift (all_dead (r_row r)) else mret (r_row r));
     now ← perform TTimeNs (fun l => Done (t_time_ns l));
     on_row run_id (fun _ => dset "finished_ns" (PInt now) row);;
     cookie ← lift (cookie_of row);
     forget_cookie cookie;;
     committed ← commit;
     retired ← (if successful && committed then retire_cgroup else mret false);
     (if (retired : bool)
      then r ← the_run run_id; release_lease (r_lease r)
      else mret ());;
     on_run run_id set_done).

Definition new_flags (r : run) : flags := Flags false false (bool_decide (r_feature r = None)).

Definition watched (r : run) : W unit :=
  catch (watch_body r) (watch_failed r);;
  f ← get_flags;
  on_service (conclude f).

Definition run_watched (r : run) : V unit := fun s =>
  match watched r (St (hist s) (obj s, new_flags r)) with
  | (reply, s') => (reply, St (hist s') (fst (obj s')))
  end.

Definition _watch : V unit := yield_;; r ← the_run run_id; run_watched r.
End watch.
