(* ===== verification/WatchSpec.v ===== *)
(** * What the end of a run promises

    A session's lease is given back only on evidence: the cgroup certified
    quiescent, the observer finished, the plugins finished and, for a recovery
    run, authorizing; then the outcome committed, the cgroup removed, and the
    row that says so committed again.  Otherwise the run ends failed and
    fenced, and the lease stays. *)

From Stdlib Require Import Ascii.
From Stdlib Require String.
From stdpp Require Import gmap pretty.
From S2P Require Import Prelude Effects PyVal Ids Kernel Cgroup Extensions Registry.
From S2P Require Import Runs Launch RunStable Unwind Watch.
Open Scope Z_scope.

Section watch.
Context `{StoreService} `{Cgroups} `{Observer} `{ExecutionPlugins} `{Platform}.

(** What a flag of [_watch] stands for. *)
Definition quiesced (n : nat) (h : list scall) : Prop :=
  exists a s id i, answered n h (GQuiesce a s id) (fun h => g_quiesce h a s id = Done i).

Definition observed (n : nat) (h : list scall) : Prop :=
  exists pid cookie, answered n h (OFinish pid cookie) (fun h => o_finish h pid cookie = Done ()).

Definition plugins_finished (x : nat) (recovery : bool) (n : nat) (h : list scall) : Prop :=
  exists outcome q results,
    answered n h (FHealthy x) (fun h => f_healthy h x = Done ()) /\
    answered n h (FFinish x outcome q) (fun h => f_finish h x outcome q = Done results) /\
    (recovery = true -> not_authorized results = Ok false).

Definition plugins_settled (r : run) (n : nat) (h : list scall) : Prop :=
  match r_feature r with
  | Some x => plugins_finished x (negb (bool_decide (r_recovery r = None))) n h
  | None => True
  end.

Definition evidence (r : run) (n : nat) (f : flags) (h : list scall) : Prop :=
  (cgroup_quiescent f = true -> quiesced n h) /\
  (tracker_finalized f = true -> observed n h) /\
  (features_finalized f = true -> plugins_settled r n h).

Lemma quiesced_app n h k : quiesced n h -> quiesced n (h ++ k).
Proof. intros (a & s & id & i & Hq). exists a, s, id, i. by apply answered_app. Qed.

Lemma observed_app n h k : observed n h -> observed n (h ++ k).
Proof. intros (p & c & Ho). exists p, c. by apply answered_app. Qed.

Lemma plugins_settled_app r n h k : plugins_settled r n h -> plugins_settled r n (h ++ k).
Proof.
  unfold plugins_settled. destruct (r_feature r); [|done].
  intros (o & q & res & Ha & Hb & Hc). exists o, q, res. by repeat split; [apply answered_app..|].
Qed.

Lemma evidence_app r n f h k : evidence r n f h -> evidence r n f (h ++ k).
Proof.
  intros (Ha & Hb & Hc). split; [|split].
  - intros Hf. by apply quiesced_app, Ha.
  - intros Hf. by apply observed_app, Hb.
  - intros Hf. by apply plugins_settled_app, Hc.
Qed.

(** ** The calls of the parts *)

Lemma only_row_now {A} p id (f : dict -> result A) : only p (row_now id f).
Proof. unfold row_now, yield_. by repeat only_step. Qed.

Lemma only_quiesce a s i : only keeps_lease (quiesce_cgroup a s i).
Proof. unfold quiesce_cgroup. apply only_bind; [by apply only_out|]. intros q. apply only_ret. Qed.

Lemma only_await id i : only keeps_lease (await_quiescence id i).
Proof.
  unfold await_quiescence.
  by repeat first [apply only_row_now|apply only_quiesce|apply only_out|only_step].
Qed.

Lemma only_root_exited id code : only keeps_lease (root_exited id code).
Proof. apply only_locked. unfold on_row, on_run. by repeat only_step. Qed.

Lemma only_notify id : only keeps_lease (notify_finished id).
Proof. unfold notify_finished, yield_. by repeat only_step. Qed.

Lemma only_finish_observer pid c : only keeps_lease (finish_observer pid c).
Proof. by apply only_out. Qed.

Lemma only_settle_plugins id h b q : only keeps_lease (settle_plugins id h b q).
Proof.
  unfold settle_plugins, finish_plugins, yield_, on_row, on_run.
  by repeat first [apply only_the_run|apply only_out|only_step].
Qed.

(** ** The body *)

(** What holds all along the thread, from its start [s0]. *)
Definition gathered (r : run) (s0 : st scall service) (s : st scall (service * flags)) : Prop :=
  exists k, hist s = hist s0 ++ k /\ Forall keeps_lease k /\
            evidence r (length (hist s0)) (snd (obj s)) (hist s).

Lemma wp_on_service {A} r s0 (m : V A) s (Q : reply A -> st scall service -> Prop) :
  gathered r s0 s -> only keeps_lease m ->
  ewp m Q (St (hist s) (fst (obj s))) ->
  ewp (on_service m) (fun x s' => gathered r s0 s' /\ snd (obj s') = snd (obj s) /\
                                  Q x (St (hist s') (fst (obj s')))) s.
Proof.
  intros (k & Hk & Hkeep & Hev) Honly HQ. apply ewp_zoom. eapply ewp_only; [exact Honly|].
  eapply ewp_mono; [exact HQ|]. intros x s' Hx k' Hk' Hkeep'. simpl in *.
  split; [|split; [done|by destruct s']]. exists (k ++ k'). simpl.
  rewrite Hk', Hk, app_assoc. split; [done|]. split; [by apply Forall_app|].
  rewrite <- Hk. by apply evidence_app.
Qed.

Lemma gathered_set_flag r s0 g s (Q : reply unit -> st scall (service * flags) -> Prop) :
  gathered r s0 s ->
  evidence r (length (hist s0)) (g (snd (obj s))) (hist s) ->
  (forall s', gathered r s0 s' -> Q (Done ()) s') ->
  ewp (set_flag g) Q s.
Proof.
  intros (k & Hk & Hkeep & _) Hev HQ. apply ewp_modify, HQ. by exists k.
Qed.

Lemma wp_quiesce_cgroup a s i st0 n :
  (n <= length (hist st0))%nat ->
  ewp (quiesce_cgroup a s i) (fun r s' => match r with Done _ => quiesced n (hist s') | _ => True end) st0.
Proof.
  intros Hn. unfold quiesce_cgroup. apply ewp_bind, wp_out. intros o [q|e|] Hq; [|done..].
  apply ewp_ret. exists a, s, (id_inode i), q. simpl. by apply answered_here.
Qed.

Lemma wp_row_now {A} id (f : dict -> result A) (Q : reply A -> st scall service -> Prop) s :
  (forall r o, Q r (St (hist s) o)) -> ewp (row_now id f) Q s.
Proof.
  intros HQ. unfold row_now, yield_, the_run. apply ewp_bind, ewp_interleave, ewp_bind.
  apply ewp_bind, ewp_read. destruct (run_of _ _); [apply ewp_ret, ewp_lift|apply ewp_throw].
  - destruct (f _); apply HQ.
  - apply HQ.
Qed.

Lemma wp_await id i st0 n :
  (n <= length (hist st0))%nat ->
  ewp (await_quiescence id i)
    (fun r s' => match r with Done _ => quiesced n (hist s') | _ => True end) st0.
Proof.
  intros Hn. unfold await_quiescence. apply ewp_bind, wp_row_now.
  intros [key|e|] o; [|done..]. apply ewp_bind, wp_out. intros o' [b|e|] _; [|done..].
  apply ewp_bind, ewp_throw_when; [done|]. intros _.
  destruct i as [i|]; [|by apply ewp_throw].
  apply ewp_bind, wp_row_now. intros [key'|e|] o''; [|done..].
  apply wp_quiesce_cgroup. simpl. rewrite length_app. lia.
Qed.

Lemma wp_settle_plugins id x b q st0 n :
  (n <= length (hist st0))%nat ->
  ewp (settle_plugins id x b q)
    (fun r s' => match r with Done _ => plugins_finished x b n (hist s') | _ => True end) st0.
Proof.
  intros Hn. unfold settle_plugins, finish_plugins, yield_, the_run.
  apply ewp_bind, wp_out. intros o [[]|e|] Hh; [|done..].
  apply ewp_bind, ewp_interleave, ewp_bind. apply ewp_bind, ewp_read.
  destruct (run_of _ _) as [r|]; [|by apply ewp_throw]. apply ewp_ret.
  apply ewp_bind, wp_out. intros o' [results|e|] Hf; [|done..]. simpl in *.
  apply ewp_bind, ewp_modify, ewp_bind. simpl.
  assert (Hdone : forall refused : bool, (b = true -> refused = false -> not_authorized results = Ok false) ->
    ewp (throw_when refused (WorkspaceError "recovery verification did not authorize Session release"))
      (fun r s' => match r with Done _ => plugins_finished x b n (hist s') | _ => True end)
      (St ((hist st0 ++ [FHealthy x]) ++
           [FFinish x (outcome_of (truthy_option (r_stop_reason r))) q])
          (update_run id (change_row (dset "feature_runs" (PDict results))) o'))).
  { intros refused Hr. apply ewp_throw_when; [done|]. intros ->.
    eexists _, q, results. split; [apply answered_app, answered_here; [done|exact Hh]|].
    split; [|intros Hb; by apply Hr]. apply answered_here; [|exact Hf].
    rewrite length_app. lia. }
  destruct b; [apply ewp_lift; destruct (not_authorized results) as [refused|e]; [|done]|apply ewp_ret];
    apply Hdone; [intros _ ->; done|done].
Qed.

(** A step of the body that gives the fact [R], then the rest. *)
Lemma wp_body_step {A B} r s0 (m : V A) (f : A -> W B) (R : A -> list scall -> Prop) s :
  gathered r s0 s -> only keeps_lease m ->
  ewp m (fun x s' => match x with Done a => R a (hist s') | _ => True end)
    (St (hist s) (fst (obj s))) ->
  (forall a s', gathered r s0 s' -> R a (hist s') ->
     ewp (f a) (fun _ s'' => gathered r s0 s'') s') ->
  ewp (on_service m ≫= f) (fun _ s' => gathered r s0 s') s.
Proof.
  intros Hg Honly HR Hf. apply ewp_bind. eapply ewp_mono; [by apply wp_on_service|].
  intros [a|e|] s' (Hg' & _ & Ha); [by apply Hf|done..].
Qed.

Lemma wp_nothing {A} (m : V A) s :
  ewp m (fun x _ => match x with Done _ => True | _ => True end) s.
Proof. eapply ewp_mono; [apply ewp_true|]. by intros []. Qed.

Lemma gathered_length r s0 s : gathered r s0 s -> (length (hist s0) <= length (hist s))%nat.
Proof. intros (k & -> & _). rewrite length_app. lia. Qed.

Lemma gathered_evidence r s0 s :
  gathered r s0 s -> evidence r (length (hist s0)) (snd (obj s)) (hist s).
Proof. by intros (k & _ & _ & Hev). Qed.

Lemma wp_finish_observer pid cookie st0 n :
  (n <= length (hist st0))%nat ->
  ewp (finish_observer pid cookie)
    (fun r s' => match r with Done _ => observed n (hist s') | _ => True end) st0.
Proof.
  intros Hn. apply wp_out. intros o [[]|e|] Hf; [|done..].
  exists pid, cookie. by apply answered_here.
Qed.

(** The flags are raised on evidence, however the body ends. *)
Lemma wp_watch_body r id s0 s :
  gathered r s0 s -> ewp (watch_body id r) (fun _ s' => gathered r s0 s') s.
Proof.
  intros Hg. unfold watch_body. destruct (r_process r) as [pid|]; [|by apply ewp_throw].
  apply wp_body_step with (R := fun _ _ => True); [done|by apply only_out|apply wp_nothing|].
  intros code s1 Hg1 _.
  apply wp_body_step with (R := fun _ _ => True); [done|apply only_root_exited|apply wp_nothing|].
  intros _ s2 Hg2 _.
  apply wp_body_step with (R := fun _ => quiesced (length (hist s0)));
    [done|apply only_await|by apply wp_await, (gathered_length r)|].
  intros q s3 Hg3 Hq. apply ewp_bind, (gathered_set_flag r s0); [done| |].
  { destruct (gathered_evidence _ _ _ Hg3) as (_ & Hb & Hc). by split. }
  intros s4 Hg4.
  apply wp_body_step with (R := fun _ _ => True); [done|apply only_notify|apply wp_nothing|].
  intros _ s5 Hg5 _.
  apply wp_body_step with (R := fun _ _ => True); [done|apply only_row_now|apply wp_nothing|].
  intros cookie s6 Hg6 _.
  apply wp_body_step with (R := fun _ => observed (length (hist s0)));
    [done|apply only_finish_observer|by apply wp_finish_observer, (gathered_length r)|].
  intros _ s7 Hg7 Ho. apply ewp_bind, (gathered_set_flag r s0); [done| |].
  { destruct (gathered_evidence _ _ _ Hg7) as (Ha & _ & Hc). by split. }
  intros s8 Hg8. destruct (r_feature r) as [x|] eqn:Ex; [|by apply ewp_ret].
  apply wp_body_step with (R := fun _ => plugins_settled r (length (hist s0)));
    [done|apply only_settle_plugins| |].
  { unfold plugins_settled. rewrite Ex. by apply wp_settle_plugins, (gathered_length r). }
  intros _ s9 Hg9 Hset. apply (gathered_set_flag r s0); [done| |done].
  destruct (gathered_evidence _ _ _ Hg9) as (Ha & Hb & _). by split.
Qed.

(** ** The last section under the lock *)

Definition failed_row (row : dict) : Prop :=
  dget "state" row = Some (PStr "failed") /\ dget "session_fenced" row = Some (PBool true) /\
  dget "lifecycle_complete" row = Some (PBool false) /\
  dget "trace_complete" row = Some (PBool false).

Definition finished_row (row : dict) : Prop :=
  (dget "state" row = Some (PStr "completed") \/ dget "state" row = Some (PStr "stopped")) /\
  dget "session_fenced" row = Some (PBool false) /\
  dget "lifecycle_complete" row = Some (PBool true) /\
  dget "cgroup_removed" row = Some (PBool true) /\ dhas "error" row = false.

(** The run ended without success and its lease is kept. *)
Definition fenced (id : string) (s s' : st scall service) (r : reply unit) : Prop :=
  (exists k, hist s' = hist s ++ k /\ Forall keeps_lease k) /\
  (r = Done () -> exists x, run_of id (obj s') = Some x /\ r_done x = true /\ failed_row (r_row x)).

(** The run ended well: two commits, the cgroup's removal between them, then the
    release of its lease. *)
Definition released (id : string) (h : list scall) (s' : st scall service) : Prop :=
  exists x row a b,
    run_of id (obj s') = Some x /\ r_done x = true /\ finished_row (r_row x) /\
    hist s' = h ++ [TTimeNs; DSaveDurable row; GRemove a b; DSaveDurable (r_row x);
                    SRelease (r_lease x)] /\
    d_save_durable (h ++ [TTimeNs]) row = Done () /\
    g_remove (h ++ [TTimeNs; DSaveDurable row]) a b = Done true /\
    d_save_durable (h ++ [TTimeNs; DSaveDurable row; GRemove a b]) (r_row x) = Done () /\
    session_of row = Ok (a, b).

Lemma failed_outcome stopped traced row now :
  failed_row (dset "finished_ns" (PInt now) (outcome_fields false stopped traced row)).
Proof.
  unfold failed_row, outcome_fields, dupdate. simpl. rewrite !dget_dset. simpl. done.
Qed.

Lemma failed_unfinished row : failed_row (unfinished row).
Proof. unfold failed_row, unfinished, dupdate. simpl. by rewrite !dget_dset. Qed.

Lemma failed_set_error v row : failed_row row -> failed_row (dset "error" v row).
Proof. unfold failed_row. by rewrite !dget_dset. Qed.

Lemma failed_unfinished_by e row : failed_row (unfinished_by e row).
Proof. apply failed_set_error, failed_unfinished. Qed.

Lemma failed_default_error e row : failed_row row -> failed_row (default_error e row).
Proof. unfold default_error. destruct (dget "error" row); [done|]. apply failed_set_error. Qed.

Lemma failed_set_removed v row : failed_row row -> failed_row (dset "cgroup_removed" v row).
Proof. unfold failed_row. by rewrite !dget_dset. Qed.

Lemma all_dead_get row row' k :
  all_dead row = Ok row' -> k <> "processes" -> dget k row' = dget k row.
Proof.
  unfold all_dead. intros E Hk.
  destruct (dindex "processes" row) as [v|]; [|done]. simpl in E.
  destruct v; try done. destruct (mapM dead d) as [ps|] eqn:Em; [|done].
  injection E as <-. by rewrite dget_dset_ne.
Qed.

Lemma wp_commit id r (Q : reply bool -> st scall service -> Prop) s :
  run_of id (obj s) = Some r ->
  (d_save_durable (hist s) (r_row r) = Done () ->
   Q (Done true) (St (hist s ++ [DSaveDurable (r_row r)]) (obj s))) ->
  (forall e, Q (Done false) (St (hist s ++ [DSaveDurable (r_row r)])
                    (update_run id (change_row (unfinished_by (exn_name e))) (obj s)))) ->
  Q Interrupted (St (hist s ++ [DSaveDurable (r_row r)]) (obj s)) ->
  ewp (commit id) Q s.
Proof.
  intros Hr Hok Hfail Hint. unfold commit. apply ewp_bind, wp_the_run; [|by rewrite Hr].
  intros r' Hr'. rewrite Hr in Hr'. injection Hr' as <-.
  apply ewp_catch, ewp_bind. apply ewp_perform. intros [[]|e|] Hd; [|..]; simpl.
  - apply ewp_ret. by apply Hok.
  - apply ewp_bind, ewp_modify, ewp_ret. apply Hfail.
  - done.
Qed.

(** A row of success, before the cgroup's removal is recorded. *)
Definition good_row (row : dict) : Prop :=
  (dget "state" row = Some (PStr "completed") \/ dget "state" row = Some (PStr "stopped")) /\
  dget "session_fenced" row = Some (PBool false) /\
  dget "lifecycle_complete" row = Some (PBool true) /\ dhas "error" row = false.

Lemma good_removed row : good_row row -> finished_row (dset "cgroup_removed" (PBool true) row).
Proof.
  unfold good_row, finished_row, dhas. rewrite !dget_dset. simpl. intros (? & ? & ? & ?). done.
Qed.

Lemma good_outcome stopped traced row row' now :
  dhas "error" row = false -> all_dead (outcome_fields true stopped traced row) = Ok row' ->
  good_row (dset "finished_ns" (PInt now) row').
Proof.
  intros He Hd. unfold good_row, dhas. rewrite !dget_dset. simpl.
  rewrite !(all_dead_get _ _ _ Hd) by done.
  unfold dhas in He. unfold outcome_fields, dupdate. simpl. rewrite !dget_dset. simpl.
  split; [|done]. destruct stopped; simpl; auto.
Qed.

Lemma only_commit id : only keeps_lease (commit id).
Proof.
  unfold commit, save_durable, on_row, on_run.
  by repeat first [apply only_the_run|only_step].
Qed.

Lemma only_retire id : only keeps_lease (retire_cgroup id).
Proof.
  unfold retire_cgroup, on_row, on_run.
  by repeat first [apply only_the_run|apply only_commit|only_step].
Qed.

(** The run [id] ended as failed: what a commit or the removal leaves. *)
Definition ends_failed (id : string) (s' : st scall service) : Prop :=
  exists x, run_of id (obj s') = Some x /\ failed_row (r_row x).

Definition retired (id : string) (r : run) (s s' : st scall service) : Prop :=
  exists x a b,
    run_of id (obj s') = Some x /\ finished_row (r_row x) /\ r_lease x = r_lease r /\
    session_of (r_row r) = Ok (a, b) /\
    hist s' = hist s ++ [GRemove a b; DSaveDurable (r_row x)] /\
    g_remove (hist s) a b = Done true /\
    d_save_durable (hist s ++ [GRemove a b]) (r_row x) = Done ().

Lemma wp_retire id r s :
  run_of id (obj s) = Some r -> good_row (r_row r) ->
  ewp (retire_cgroup id) (fun x s' =>
    match x with
    | Done true => retired id r s s'
    | Done false => ends_failed id s'
    | _ => True
    end) s.
Proof.
  intros Hr Hgood. unfold retire_cgroup. apply ewp_bind, wp_the_run; [|by rewrite Hr].
  intros r' Hr'. rewrite Hr in Hr'. injection Hr' as <-.
  apply ewp_bind, ewp_lift. destruct (session_of (r_row r)) as [[a b]|e] eqn:Ek; [|done].
  assert (Hlost : forall f s', run_of id (obj s') = Some (change_row f r) ->
    ewp (on_row id (dset "cgroup_removed" (PBool false));;
         on_row id (fun row => default_error "CgroupRemovalIncomplete" (unfinished row));;
         committed ← commit id; mret (false && committed))
      (fun x s' => match x with
                   | Done true => retired id r s s' | Done false => ends_failed id s' | _ => True
                   end) s').
  { intros f s' Hs'. apply ewp_bind, ewp_modify, ewp_bind, ewp_modify, ewp_bind.
    eapply wp_commit; [simpl; by rewrite !run_of_update, Hs'|..]; [intros _|intros e|done]; simpl;
      apply ewp_ret; (eexists; split; [simpl; by rewrite !run_of_update, Hs'|]); simpl.
    - apply failed_default_error, failed_unfinished.
    - apply failed_unfinished_by. }
  apply ewp_bind, ewp_catch, ewp_perform. intros [[]|e|] Hg; [..|done].
  - apply ewp_bind, ewp_modify. apply ewp_bind, ewp_ret. apply ewp_bind.
    eapply wp_commit; [simpl; by rewrite run_of_update, Hr|..]; [intros Hd|intros e|done]; simpl in *;
      apply ewp_ret; simpl.
    + eexists _, a, b. split; [simpl; by rewrite run_of_update, Hr|]. simpl.
      split; [by apply good_removed|]. split; [done|]. split; [done|].
      split; [by rewrite <- app_assoc|done].
    + eexists. split; [simpl; by rewrite !run_of_update, Hr|]. apply failed_unfinished_by.
  - apply (Hlost (fun row => row)). simpl. rewrite Hr. by destruct r.
  - apply ewp_bind, ewp_modify, ewp_ret. eapply (Hlost (dset "error" (PStr (exn_name e)))).
    simpl. by rewrite run_of_update, Hr.
Qed.

Lemma keeps_lease_fenced id s0 s r k :
  hist s = hist s0 ++ k -> Forall keeps_lease k -> r <> Done () -> fenced id s0 s r.
Proof. intros Hk Hf Hr. split; [by exists k|done]. Qed.

(** The retirement and what follows it. *)
Definition after_commit (id : string) (successful committed : bool) : V unit :=
  retired ← (if successful && committed then retire_cgroup id else mret false);
  (if (retired : bool) then r ← the_run id; release_lease (r_lease r) else mret ());;
  on_run id set_done.

Lemma only_after_failure id : only keeps_lease (on_run id set_done).
Proof. unfold on_run. by repeat only_step. Qed.

Lemma wp_mark_done id s0 s k :
  hist s = hist s0 ++ k -> Forall keeps_lease k -> ends_failed id s ->
  ewp (on_run id set_done) (fun r s' => fenced id s0 s' r) s.
Proof.
  intros Hk Hkeep (x & Hx & Hf). apply ewp_modify. split; [by exists k|]. intros _.
  exists (set_done x). simpl. by rewrite run_of_update, Hx.
Qed.

Lemma wp_released id r row s0 s :
  hist s = hist s0 ++ [TTimeNs; DSaveDurable row] ->
  d_save_durable (hist s0 ++ [TTimeNs]) row = Done () ->
  run_of id (obj s) = Some r -> r_row r = row -> good_row row ->
  ewp (after_commit id true true)
    (fun x s' => fenced id s0 s' x \/ (x = Done () /\ released id (hist s0) s')) s.
Proof.
  intros Hh Hd Hr Hrow Hgood. unfold after_commit. simpl. apply ewp_bind.
  eapply ewp_only; [apply only_retire|].
  eapply ewp_mono; [eapply wp_retire; [exact Hr|by rewrite Hrow]|].
  intros x s1 Hx k Hk Hkeep.
  assert (Hk1 : hist s1 = hist s0 ++ ([TTimeNs; DSaveDurable row] ++ k))
    by by rewrite app_assoc, <- Hh.
  assert (Hkeep1 : Forall keeps_lease ([TTimeNs; DSaveDurable row] ++ k))
    by by repeat constructor.
  destruct x as [[]|e|]; [|..].
  - destruct Hx as (x & a & b & Hx & Hfin & Hl & Hkey & Hh1 & Hg & Hd2).
    apply ewp_bind, ewp_bind, wp_the_run; [|by rewrite Hx]. intros x' Hx'.
    rewrite Hx in Hx'. injection Hx' as <-. unfold release_lease.
    apply ewp_bind, ewp_interleave, ewp_bind. apply ewp_perform. intros y <-.
    apply ewp_modify, ewp_modify. right. split; [done|].
    exists (set_done x), row, a, b. simpl. rewrite Hh1, Hh, <- !app_assoc. simpl.
    rewrite Hh in Hg, Hd2. rewrite <- app_assoc in Hd2. simpl in Hd2.
    rewrite Hrow in Hkey.
    split; [|done]. rewrite run_of_update. simpl. unfold run_of in *. simpl. by rewrite Hx.
  - apply ewp_bind, ewp_ret. eapply ewp_mono; [by eapply wp_mark_done|]. auto.
  - left. by eapply keeps_lease_fenced.
  - left. by eapply keeps_lease_fenced.
Qed.

(** From the final row of the run to its end. *)
Definition closing (id : string) (ok : bool) (row : dict) : V unit :=
  now ← perform TTimeNs (fun l => Done (t_time_ns l));
  on_row id (fun _ => dset "finished_ns" (PInt now) row);;
  cookie ← lift (cookie_of row);
  forget_cookie cookie;;
  committed ← commit id;
  after_commit id ok committed.

Lemma wp_closing id (ok : bool) r row s :
  run_of id (obj s) = Some r ->
  (forall now, if ok then good_row (dset "finished_ns" (PInt now) row)
               else failed_row (dset "finished_ns" (PInt now) row)) ->
  ewp (closing id ok row)
    (fun x s' => fenced id s s' x \/ (ok = true /\ x = Done () /\ released id (hist s) s')) s.
Proof.
  intros Hr Hrow. unfold closing. apply ewp_bind, ewp_perform. intros t <-. simpl.
  set (now := t_time_ns (hist s)). specialize (Hrow now).
  apply ewp_bind, ewp_modify, ewp_bind, ewp_lift. simpl.
  destruct (cookie_of row) as [cookie|e]; [|left; by eapply keeps_lease_fenced; [| |]; [done|..]; repeat constructor].
  apply ewp_bind, ewp_modify, ewp_bind. simpl.
  eapply wp_commit; [simpl; rewrite run_of_cookies, run_of_update, Hr; done|..]; simpl.
  - intros Hd. destruct ok; [|].
    + rewrite <- app_assoc. simpl.
      eapply ewp_mono; [eapply (wp_released id _ (dset "finished_ns" (PInt now) row) s); [done| |..]|].
      * exact Hd.
      * simpl. by rewrite run_of_cookies, run_of_update, Hr.
      * done.
      * done.
      * intros x s' [Hf|[-> Hrel]]; [by left|right; done].
    + unfold after_commit. simpl. apply ewp_bind, ewp_ret, ewp_bind, ewp_ret. eapply ewp_mono.
      * eapply (wp_mark_done id s); [simpl; by rewrite <- app_assoc|by repeat constructor|].
        eexists. split; [simpl; by rewrite run_of_cookies, run_of_update, Hr|done].
      * auto.
  - intros e. unfold after_commit. rewrite andb_false_r. apply ewp_bind, ewp_ret, ewp_bind, ewp_ret.
    eapply ewp_mono.
    + eapply (wp_mark_done id s); [simpl; by rewrite <- app_assoc|by repeat constructor|].
      eexists. split; [simpl; by rewrite !run_of_update, run_of_cookies, run_of_update, Hr|].
      apply failed_unfinished_by.
    + auto.
  - left. eapply keeps_lease_fenced; [simpl; by rewrite <- app_assoc|by repeat constructor|done].
Qed.

Lemma wp_conclude id f s :
  ewp (conclude id f)
    (fun r s' => fenced id s s' r \/
       (r = Done () /\ released id (hist s) s' /\
        cgroup_quiescent f = true /\ tracker_finalized f = true /\ features_finalized f = true)) s.
Proof.
  assert (Hnil : forall r s', hist s' = hist s -> r <> Done () -> fenced id s s' r).
  { intros r s' Hh Hr. apply (keeps_lease_fenced id s s' r []); [by rewrite app_nil_r|done..]. }
  unfold conclude. apply wp_locked, ewp_bind, ewp_modify, ewp_bind.
  apply wp_the_run; [|intros _; left; by apply Hnil].
  intros r Hr. apply ewp_bind, ewp_read. simpl in *.
  set (ok := succeeded f _ (r_row r)). apply ewp_bind, ewp_modify, ewp_bind. simpl.
  apply wp_the_run; simpl; rewrite run_of_update, Hr; [|done].
  intros x [= <-]. simpl. apply ewp_bind.
  assert (Hclose : forall row s1, hist s1 = hist s -> is_Some (run_of id (obj s1)) ->
    (forall now, if ok then good_row (dset "finished_ns" (PInt now) row)
                 else failed_row (dset "finished_ns" (PInt now) row)) ->
    ewp (closing id ok row) (fun r s' => fenced id s s' r \/
       (r = Done () /\ released id (hist s) s' /\
        cgroup_quiescent f = true /\ tracker_finalized f = true /\ features_finalized f = true)) s1).
  { intros row s1 Hh [x Hx] Hrow. eapply ewp_mono; [by eapply wp_closing|].
    unfold fenced. rewrite Hh. intros y s' [Hf|(Hok & -> & Hrel)]; [by left|right].
    split; [done|]. split; [done|]. unfold ok, succeeded in Hok.
    apply andb_prop in Hok as [Hok _]. apply andb_prop in Hok as [Hok _].
    apply andb_prop in Hok as [Hok Hc]. by apply andb_prop in Hok as [Ha Hb]. }
  assert (Hsome : is_Some (run_of id (update_run id
      (change_row (outcome_fields ok (truthy_option (r_stop_reason r))
         (negb (str_eqb o_backend "disabled")))) (update_run id (set_timer false)
           (others (hist s) (obj s)))))).
  { rewrite run_of_update. simpl in *. rewrite Hr. eauto. }
  destruct ok eqn:Eok.
  - apply ewp_lift. destruct (all_dead _) as [row|e] eqn:Ed; [|left; by apply Hnil].
    apply Hclose; [done|done|]. intros now. eapply good_outcome; [|exact Ed].
    unfold ok, succeeded in Eok. apply andb_prop in Eok as [_ Eok]. by apply negb_true_iff in Eok.
  - apply ewp_ret. apply Hclose; [done|done|]. intros now. apply failed_outcome.
Qed.

(** ** The thread *)

Lemma wp_watch_failed r id e s0 s :
  gathered r s0 s -> ewp (watch_failed id r e) (fun _ s' => gathered r s0 s') s.
Proof.
  intros Hg. unfold watch_failed. apply ewp_bind, ewp_read, ewp_bind.
  assert (Hrow : forall s, gathered r s0 s ->
    ewp (on_service (locked (on_row id (fun row =>
           dset "trace_complete" (PBool false) (dset "error" (PStr (exn_name e)) row)))))
      (fun _ s' => gathered r s0 s') s).
  { intros s1 H1'. eapply ewp_mono; [apply wp_on_service; [done| |apply ewp_true]|by intros x s' []].
    apply only_locked. unfold on_row, on_run. by repeat only_step. }
  destruct (r_feature r) as [x|]; [|by apply ewp_ret, Hrow].
  destruct (features_finalized _); [by apply ewp_ret, Hrow|].
  eapply ewp_mono; [apply wp_on_service; [done|by apply only_out|apply ewp_true]|].
  intros [[]|e'|] s1 (Hg' & _); [by apply Hrow|done..].
Qed.

Lemma wp_watched id r s0 s :
  gathered r s0 s ->
  ewp (watched id r) (fun x s' =>
    (exists k, hist s' = hist s0 ++ k /\ Forall keeps_lease k /\ x <> Done ()) \/
    exists s1, gathered r s0 s1 /\
      let st' := St (hist s') (fst (obj s')) in
      fenced id (St (hist s1) (fst (obj s1))) st' x \/
      (x = Done () /\ released id (hist s1) st' /\ quiesced (length (hist s0)) (hist s1) /\
       observed (length (hist s0)) (hist s1) /\ plugins_settled r (length (hist s0)) (hist s1))) s.
Proof.
  intros Hg. unfold watched. apply ewp_bind, ewp_catch.
  assert (Hkept : forall s1 (x : reply unit), gathered r s0 s1 -> x <> Done () ->
    exists k, hist s1 = hist s0 ++ k /\ Forall keeps_lease k /\ x <> Done ()).
  { intros s1 x (k & Hk & Hf & _) Hx. by exists k. }
  assert (Hend : forall s1, gathered r s0 s1 ->
    ewp (f ← get_flags; on_service (conclude id f)) (fun x s' =>
    (exists k, hist s' = hist s0 ++ k /\ Forall keeps_lease k /\ x <> Done ()) \/
    exists s1, gathered r s0 s1 /\
      let st' := St (hist s') (fst (obj s')) in
      fenced id (St (hist s1) (fst (obj s1))) st' x \/
      (x = Done () /\ released id (hist s1) st' /\ quiesced (length (hist s0)) (hist s1) /\
       observed (length (hist s0)) (hist s1) /\ plugins_settled r (length (hist s0)) (hist s1))) s1).
  { intros s1 Hg1. apply ewp_bind, ewp_read, ewp_zoom.
    eapply ewp_mono; [apply wp_conclude|]. intros x s' Hx. right. exists s1. split; [done|].
    simpl. destruct s' as [h' o']. simpl. destruct Hx as [Hf|(-> & Hrel & Ha & Hb & Hc)]; [by left|].
    right. destruct (gathered_evidence _ _ _ Hg1) as (Ea & Eb & Ec).
    split; [done|]. split; [done|]. split; [by apply Ea|]. split; [by apply Eb|by apply Ec]. }
  eapply ewp_mono; [by eapply wp_watch_body|]. intros [[]|e|] s1 Hg1.
  - by apply Hend.
  - eapply ewp_mono; [by eapply wp_watch_failed|]. intros [[]|e'|] s2 Hg2.
    + by apply Hend.
    + left. by apply Hkept.
    + left. by apply Hkept.
  - left. by apply Hkept.
Qed.

(** C4: the thread that ends a run gives the session's lease back only on
    evidence.  Whatever the collaborators answer and the other threads do,
    either no lease is released, and a thread that gets to its end leaves the
    run done, failed and fenced; or the cgroup was certified quiescent, the
    observer finished, the plugins finished and, for a recovery run, authorized
    the release, and after that the last calls are the commit of the outcome,
    the removal of the cgroup, the commit of the run's final row and the
    release of its lease. *)
Theorem watch_releases_on_evidence id s :
  ewp (_watch id) (fun x s' =>
    fenced id s s' x \/
    (x = Done () /\
     exists r k, run_of id (others (hist s) (obj s)) = Some r /\ Forall keeps_lease k /\
       let n := length (hist s) in
       let h := hist s ++ k in
       quiesced n h /\ observed n h /\ plugins_settled r n h /\ released id h s')) s.
Proof.
  unfold _watch, yield_. apply ewp_bind, ewp_interleave, ewp_bind, wp_the_run; simpl;
    [|intros _; left; by apply keeps_lease_fenced with []; [by rewrite app_nil_r|..]].
  intros r Hr. unfold ewp, run_watched.
  assert (Hg : gathered r s (St (hist s) (others (hist s) (obj s), new_flags r))).
  { exists []. rewrite app_nil_r. split; [done|]. split; [done|]. split; [done|]. split; [done|].
    simpl. rewrite bool_decide_eq_true. unfold plugins_settled. by intros ->. }
  pose proof (wp_watched id r s _ Hg) as Hw. unfold ewp in Hw.
  destruct (watched id r _) as [x s']. simpl in *.
  destruct Hw as [(k & Hk & Hf & Hx)|(s2 & (k & Hk & Hkeep & _) & Hend)].
  - left. by apply keeps_lease_fenced with k.
  - destruct Hend as [[(k' & Hk' & Hkeep') Hdone]|(-> & Hrel & Ha & Hb & Hc)].
    + left. split; [|done]. exists (k ++ k'). simpl in *. rewrite Hk', Hk, app_assoc.
      split; [done|by apply Forall_app].
    + right. split; [done|]. exists r, k. rewrite <- Hk. done.
Qed.
End watch.
