(* ===== verification/DemoRuns.v ===== *)
(** * A service that runs

    Collaborators that answer every call, so that the operations of the service
    can be run and the theorems about them be applied. *)

From Stdlib Require Import Ascii.
From Stdlib Require String.
From stdpp Require Import gmap pretty.
From S2P Require Import Prelude Effects PyVal Ids Kernel Cgroup Extensions Registry.
From S2P Require Import Runs Launch Unwind Watch.
Open Scope Z_scope.

Definition demo_identity : identity := Identity "/sys/fs/cgroup/allox/a/s" "/allox/a/s" 77.

Definition demo_result : dict :=
  [("plugin", PDict [("status", PStr "finalized"); ("release_allowed", PBool true)])].

#[export] Instance demo_store : StoreService := {|
  st_describe _ _ _ := Done [];
  st_list _ _ _ := Done ["c1"];
  st_checkpoint _ _ _ _ _ _ _ _ := Done [];
  st_current a s := "/store/" +:+ a +:+ "/" +:+ s;
  st_shared a := "/store/" +:+ a +:+ "/workspace/shared";
  st_agent_workspace a := "/store/" +:+ a +:+ "/workspace" |}.

#[export] Instance demo_cgroups : Cgroups := {|
  g_root := "/sys/fs/cgroup/allox";
  g_attach _ _ _ _ := Done "/sys/fs/cgroup/allox/a/s";
  g_identity _ _ _ := Done demo_identity;
  g_freeze _ _ _ _ := Done demo_identity;
  g_thaw _ _ _ _ := Done ();
  g_quiesce _ _ _ _ := Done demo_identity;
  g_wait_empty _ _ _ _ := Done true;
  g_kill _ _ _ := Done ();
  g_remove _ _ _ := Done true;
  g_owns _ _ _ _ := Done true;
  g_pids _ _ _ := Done [100; 101] |}.

#[export] Instance demo_observer : Observer := {|
  o_backend := "process-tree";
  o_seed _ _ _ := Done ();
  o_finish _ _ _ := Done ();
  o_status _ := Done [];
  o_close _ := Done () |}.

#[export] Instance demo_plugins : ExecutionPlugins := {|
  f_present := true;
  f_names := ["agent-monitor"; "system-effects"];
  f_lifecycle := true;
  f_recovery := true;
  f_prepare _ _ _ := Done nothing_contributed;
  f_environment _ _ _ _ _ := Done [];
  f_start_execution _ _ := Done 0%nat;
  f_status _ _ := Done demo_result;
  f_healthy _ _ := Done ();
  f_agent_started _ _ := Done ();
  f_finish _ _ _ _ := Done demo_result;
  f_close _ _ := Done ();
  f_started _ _ := Done ();
  f_finished _ _ := Done () |}.

(** The clock counts the calls made so far. *)
#[export] Instance demo_platform : Platform := {|
  x_spawn _ := Done 100;
  x_configure _ _ _ := Done ();
  x_wait_stopped _ _ := Done HasStopped;
  x_poll _ _ := Done None;
  x_kill _ _ := Done ();
  x_wait _ _ := Done 0;
  x_wait_timeout _ _ := Done ();
  x_continue _ _ := Done ();
  x_state _ _ := Done (Some "T");
  x_open_pidfd _ _ := Done 9;
  x_signal _ _ _ := Done ();
  x_close_pidfd _ _ := Done ();
  x_namespace _ _ _ := Done 4026531840;
  x_timer _ _ := Done ();
  x_thread _ _ := Done ();
  x_close_launcher _ := Done ();
  d_mkdir _ _ := Done ();
  d_save _ _ := Done ();
  d_save_durable _ _ := Done ();
  d_append _ _ := Done ();
  d_load _ _ := Raised ENOENT;
  d_glob _ := Done [];
  d_events _ _ := Done None;
  t_clock h := Z.of_nat (length h);
  t_time_ns h := Z.of_nat (length h);
  t_uuid h := "0123456789abcdef";
  t_cookie h := 41;
  w_done _ _ := Done true;
  others _ s := s |}.

Definition demo_service : service := Service [] ∅ false None 1 empty_registry.

Definition demo_start : reply dict * st scall service :=
  start "/audit" "boot-1" 10 "a" "s" (PList [PStr "true"]) PNone (PInt 300) PNone PNone
    (St [] demo_service).

Definition demo_run_id : string := "0123456789abcdef".

Definition demo_running : st scall service := demo_start.2.

(** The start gives the row of a running process and holds the session's lease. *)
Example demo_starts :
  (match demo_start.1 with Done row => (dget "state" row, dget "root_pid" row) | _ => (None, None) end)
    = (Some (PStr "running"), Some (PInt 101)) /\
  leased (sv_registry (obj demo_running)) ("a", "s") = true.
Proof. by vm_compute. Qed.

(** Its end completes the run and gives the lease back. *)
Example demo_ends :
  let (r, s) := _watch demo_run_id demo_running in
  r = Done () /\
  (match run_of demo_run_id (obj s) with
   | Some x => (r_done x, dget "state" (r_row x), dget "session_fenced" (r_row x))
   | None => (false, None, None)
   end) = (true, Some (PStr "completed"), Some (PBool false)) /\
  leased (sv_registry (obj s)) ("a", "s") = false.
Proof. by vm_compute. Qed.
