(* ===== verification/WatchEnds.v ===== *)
(** * The end of a run is reached

    Whatever fails on the way, a thread whose collaborators answer gets to the
    end of [_watch]: the run is done, and nobody waits for it for ever. *)

From Stdlib Require Import Ascii.
From Stdlib Require String.
From stdpp Require Import gmap pretty.
From S2P Require Import Prelude Effects PyVal Ids Kernel Cgroup Extensions Registry.
From S2P Require Import Runs Launch RunStable Unwind Watch WatchSpec DemoRuns.
Open Scope Z_scope.

(** ** What the thread needs of a run *)

Record run_ready (r : run) : Prop := {
  ready_session : is_ok (session_of (r_row r)) = true;
  ready_cookie : is_ok (cookie_of (r_row r)) = true;
  ready_tasks : tasks_ok (r_row r) = true }.

Lemma session_of_kept row row' : row_kept row row' -> session_of row' = session_of row.
Proof.
  intros Hk. unfold session_of, dindex.
  rewrite (kept_names _ _ Hk "agent_id"), (kept_names _ _ Hk "session_id"); [done|..];
    vm_compute; set_solver.
Qed.

Lemma cookie_of_kept row row' : row_kept row row' -> cookie_of row' = cookie_of row.
Proof.
  intros Hk. unfold cookie_of, dindex. rewrite (kept_names _ _ Hk "cookie"); [done|].
  vm_compute. set_solver.
Qed.

Lemma run_ready_kept r r' : run_kept r r' -> run_ready r -> run_ready r'.
Proof.
  intros Hk [Hs Hc Ht]. pose proof (kept_row _ _ Hk) as Hrow.
  split; [by rewrite (session_of_kept _ _ Hrow)|by rewrite (cookie_of_kept _ _ Hrow)|].
  by apply (kept_tasks _ _ Hrow).
Qed.

Lemma all_dead_ok row : tasks_ok row = true -> exists row', all_dead row = Ok row' /\ row_kept row row'.
Proof.
  unfold all_dead, dindex, tasks_ok. intros Hok.
  destruct (dget "processes" row) as [v|] eqn:Ep; [|done]. destruct v as [| | | | | |ps]; try done.
  simpl. assert (Hps : exists ps', mapM dead ps = Ok ps' /\ forallb is_task ps' = true).
  { clear Ep. induction ps as [|[k v] ps IH]; simpl in *; [by exists []|].
    apply andb_prop in Hok as [Hv Hps]. destruct (IH Hps) as (ps' & E & Hps').
    destruct v as [| | | | | |task]; try done. simpl. rewrite E. simpl. eexists. by split. }
  destruct Hps as (ps' & E & Hps'). rewrite E. simpl. eexists. split; [done|].
  split.
  - intros k Hk. rewrite dget_dset_ne; [done|]. intros ->. vm_compute in Hk. set_solver.
  - intros _. unfold tasks_ok. by rewrite dget_dset_eq.
  - unfold event_number. rewrite dget_dset_ne by done. lia.
Qed.

(** ** Computations that are not interrupted *)

Definition calm {C O A} (m : P C O A) : Prop := forall s, (m s).1 <> Interrupted.

Section calm.
Context {C O : Type}.

Lemma calm_ret {A} (a : A) : calm (mret a : P C O A).
Proof. by intros s. Qed.

Lemma calm_throw {A} e : calm (throw e : P C O A).
Proof. by intros s. Qed.

Lemma calm_throw_when b e : calm (throw_when b e : P C O unit).
Proof. by destruct b. Qed.

Lemma calm_lift {A} (r : result A) : calm (lift r : P C O A).
Proof. by destruct r. Qed.

Lemma calm_read {A} (f : O -> A) : calm (read f : P C O A).
Proof. by intros s. Qed.

Lemma calm_modify f : calm (modify f : P C O unit).
Proof. by intros s. Qed.

Lemma calm_interleave f : calm (interleave f : P C O unit).
Proof. by intros s. Qed.

Lemma calm_perform {A} c (f : list C -> reply A) :
  (forall h, f h <> Interrupted) -> calm (perform c f : P C O A).
Proof. intros Hf s. apply Hf. Qed.

Lemma calm_bind {A B} (m : P C O A) (f : A -> P C O B) :
  calm m -> (forall a, calm (f a)) -> calm (m ≫= f).
Proof.
  intros Hm Hf s. specialize (Hm s). unfold mbind, P_bind.
  destruct (m s) as [[a|e|] s1]; simpl in *; [apply Hf|done..].
Qed.

Lemma calm_catch {A} (m : P C O A) h : calm m -> (forall e, calm (h e)) -> calm (catch m h).
Proof.
  intros Hm Hh s. specialize (Hm s). unfold catch.
  destruct (m s) as [[a|e|] s1]; simpl in *; [done|apply Hh|done].
Qed.

Lemma calm_zoom {O' A} (get : O -> O') put (m : P C O' A) :
  calm m -> calm (zoom get put m : P C O A).
Proof. intros Hm s. unfold zoom. specialize (Hm (St (hist s) (get (obj s)))). by destruct (m _). Qed.
End calm.

Ltac calm_step :=
  first
    [ apply calm_ret | apply calm_throw | apply calm_throw_when | apply calm_lift
    | apply calm_read | apply calm_modify | apply calm_interleave | apply calm_zoom
    | apply calm_perform | apply calm_bind; [|intros ?] | apply calm_catch; [|intros ?]
    | match goal with
      | |- calm (match ?x with _ => _ end) => destruct x
      | |- calm (if ?x then _ else _) => destruct x
      end ].

(** ** The thread respects the runs *)

Section respecting.
Context `{StoreService} `{Cgroups} `{Observer} `{ExecutionPlugins} `{Platform}.
Context (K : string -> Prop) (others_respect : forall h s, respects K s (others h s)).

(** A computation that has variables of its own. *)
Definition respects_first {X} : relation (service * X) := fun o o' => respects K o.1 o'.1.

#[export] Instance respects_first_preorder {X} : PreOrder (@respects_first X).
Proof. split; [intros o|intros a b c]; unfold respects_first; [done|]. by transitivity (b.1). Qed.

Lemma moves_first {X A} (m : V A) : moves (respects K) m ->
  moves (respects_first (X := X))
    (zoom fst (fun x o => (x, snd o)) m).
Proof.
  intros Hm s. unfold zoom, respects_first. specialize (Hm (St (hist s) (fst (obj s)))).
  by destruct (m _).
Qed.

Lemma moves_variables {X} (f : service * X -> service * X) : (forall o, fst (f o) = fst o) ->
  moves (respects_first (X := X)) (modify f : P scall (service * X) unit).
Proof. intros Hf. apply moves_modify. intros o. unfold respects_first. by rewrite Hf. Qed.

Lemma moves_on_service {A} (m : V A) : moves (respects K) m -> moves respects_first (on_service m).
Proof. apply moves_first. Qed.

Lemma moves_set_flag f : moves respects_first (set_flag f).
Proof. by apply moves_variables. Qed.

Lemma moves_row_now {A} id (f : dict -> result A) : moves (respects K) (row_now id f).
Proof.
  unfold row_now. apply moves_bind; [exact _|by apply (moves_yield K others_respect)|]. intros _.
  apply moves_bind; [exact _|apply moves_the_run|]. intros r. apply moves_lift, _.
Qed.

Lemma row_kept_unfinished_by e row : row_kept row (unfinished_by e row).
Proof.
  unfold unfinished_by, unfinished.
  eapply row_kept_compose; [|by apply row_kept_set]. by apply row_kept_update.
Qed.

Lemma row_kept_lost row : row_kept row (default_error "CgroupRemovalIncomplete" (unfinished row)).
Proof.
  assert (Hu : row_kept row (unfinished row)) by by apply row_kept_update.
  unfold default_error. destruct (dget _ _); [done|].
  eapply row_kept_compose; [exact Hu|by apply row_kept_set].
Qed.

Lemma moves_commit id : moves (respects K) (commit id).
Proof.
  unfold commit, save_durable. apply moves_bind; [exact _|apply moves_the_run|]. intros r.
  apply moves_catch; [exact _|by repeat moves_step|]. intros e.
  apply moves_bind; [exact _| |intros _; by apply moves_ret, _].
  apply moves_on_row. intros row. apply row_kept_unfinished_by.
Qed.

Lemma moves_forget cookie : moves (respects K) (forget_cookie cookie).
Proof. apply moves_modify. intros s. by apply respects_same_runs. Qed.

Lemma moves_release token : moves (respects K) (release_lease token).
Proof.
  unfold release_lease. apply moves_bind; [exact _| |intros _].
  - apply moves_interleave. intros h s. by apply respects_same_runs.
  - apply moves_bind; [exact _|apply moves_perform, _|intros _]. apply moves_modify.
    intros s. by apply respects_same_runs.
Qed.

Ltac moves_watch :=
  repeat first
    [ apply moves_on_service | apply moves_set_flag | apply moves_row_now
    | apply (moves_out K others_respect) | apply (moves_locked K others_respect) | apply moves_the_run
    | apply (moves_yield K others_respect)
    | apply moves_on_row; intros ? | apply moves_on_run; intros ?; [|reflexivity]
    | apply moves_commit | apply moves_forget
    | match goal with
      | |- moves _ (match ?x with _ => _ end) => destruct x
      | |- moves _ (if ?x then _ else _) => destruct x
      end
    | moves_step ].

Lemma moves_watch_body id r : moves respects_first (watch_body id r).
Proof.
  unfold watch_body, root_exited, await_quiescence, quiesce_cgroup, notify_finished,
    finish_observer, settle_plugins, finish_plugins.
  moves_watch; first [apply run_kept_exited|apply run_kept_timer|by apply row_kept_set].
Qed.

Lemma moves_failed id r e : moves respects_first (watch_failed id r e).
Proof.
  unfold watch_failed, get_flags, close_unverified. moves_watch.
  eapply row_kept_compose; [by apply (row_kept_set "error")|by apply row_kept_set].
Qed.

Lemma moves_retire id : moves (respects K) (retire_cgroup id).
Proof.
  unfold retire_cgroup. moves_watch;
    first [by apply row_kept_set|apply row_kept_lost|by apply (row_kept_set "error")].
Qed.

#[local] Opaque retire_cgroup release_lease.

Lemma moves_after_commit id ok committed : moves (respects K) (after_commit id ok committed).
Proof.
  unfold after_commit. repeat first [apply moves_retire|apply moves_release|progress moves_watch].
  apply run_kept_done.
Qed.

#[local] Transparent retire_cgroup release_lease.

(** The row that ends the run is made of the one that is there. *)
Lemma all_dead_kept row row' : all_dead row = Ok row' -> row_kept row row'.
Proof.
  unfold all_dead, dindex. destruct (dget "processes" row) as [v|] eqn:Ep; [|done].
  destruct v as [| | | | | |ps]; try done. simpl. destruct (mapM dead ps) as [ps'|] eqn:E; [|done].
  intros [= <-]. split.
  - intros k Hk. rewrite dget_dset_ne; [done|]. intros ->. vm_compute in Hk. set_solver.
  - intros _. unfold tasks_ok. rewrite dget_dset_eq. clear Ep. revert ps' E.
    induction ps as [|[k v] ps IH]; intros ps' E; [by injection E as <-|].
    destruct v as [| | | | | |task]; try done. simpl in E.
    destruct (mapM dead ps) as [l|]; [|done]. injection E as <-. simpl. by apply IH.
  - unfold event_number. rewrite dget_dset_ne by done. lia.
Qed.

Lemma wp_closing_respects id ok row s :
  (forall r, run_of id (obj s) = Some r -> row_kept (r_row r) row) ->
  ewp (closing id ok row) (fun _ s' => respects K (obj s) (obj s')) s.
Proof.
  intros Hrow. unfold closing. apply ewp_bind, ewp_perform. intros t <-. simpl.
  apply ewp_bind, ewp_modify. set (s1 := St _ _). assert (Hs1 : respects K (obj s) (obj s1)).
  { apply respects_update. intros r Hr. split; [|done].
    apply (run_kept_row r (fun _ => _)). eapply row_kept_compose; [by apply Hrow|by apply row_kept_set]. }
  eapply ewp_mono.
  - instantiate (1 := fun _ s' => respects K (obj s1) (obj s')).
    assert (Hm : moves (respects K) (c ← lift (cookie_of row); forget_cookie c;;
                   committed ← commit id; after_commit id ok committed)).
    { apply moves_bind; [exact _|apply moves_lift, _|intros c].
      apply moves_bind; [exact _|apply moves_forget|intros _].
      apply moves_bind; [exact _|apply moves_commit|apply moves_after_commit]. }
    exact (Hm s1).
  - intros y s2 Hs2. by transitivity (obj s1).
Qed.

Lemma wp_conclude_respects id f s :
  ewp (conclude id f) (fun _ s' => respects K (obj s) (obj s')) s.
Proof.
  unfold conclude. apply wp_locked, ewp_bind, ewp_modify, ewp_bind. simpl.
  set (o := update_run id (set_timer false) _).
  assert (Ho : respects K (obj s) o).
  { etransitivity; [apply others_respect|]. apply respects_update. intros r _.
    split; [apply run_kept_timer|done]. }
  apply wp_the_run; simpl; [|done]. intros r Hr. apply ewp_bind, ewp_read. set (ok := succeeded _ _ _).
  apply ewp_bind, ewp_modify, ewp_bind. simpl. set (row1 := outcome_fields _ _ _) in *.
  assert (Ho1 : respects K (obj s) (update_run id (change_row row1) o)).
  { etransitivity; [exact Ho|]. apply respects_update. intros r' _. split; [|done].
    apply run_kept_row. by apply row_kept_update. }
  apply wp_the_run; simpl; rewrite run_of_update, Hr; [|done]. intros r1 [= <-]. simpl.
  apply ewp_bind. assert (Hclose : forall row, row_kept (row1 (r_row r)) row ->
    ewp (closing id ok row) (fun _ s' => respects K (obj s) (obj s'))
      (St (hist s) (update_run id (change_row row1) o))).
  { intros row Hrow. eapply ewp_mono; [apply wp_closing_respects|].
    - simpl. rewrite run_of_update, Hr. by intros r' [= <-].
    - intros y s' Hs'. by etransitivity. }
  destruct ok; [|by apply ewp_ret, Hclose]. apply ewp_lift.
  destruct (all_dead (row1 (r_row r))) as [row|e] eqn:E; [|done]. by apply Hclose, all_dead_kept.
Qed.

Lemma moves_watch id : moves (respects K) (_watch id).
Proof.
  unfold _watch. apply moves_bind; [exact _|apply (moves_yield K others_respect)|intros _].
  apply moves_bind; [exact _|apply moves_the_run|]. intros r s. unfold run_watched.
  assert (Hm : moves respects_first (watched id r)).
  { unfold watched, get_flags. apply moves_bind; [exact _| |intros _].
    - apply moves_catch; [exact _|apply moves_watch_body|apply moves_failed].
    - apply moves_bind; [exact _|apply moves_read, _|]. intros f. apply moves_on_service.
      intros s1. apply wp_conclude_respects. }
  specialize (Hm (St (hist s) (obj s, new_flags r))). by destruct (watched id r _).
Qed.
End respecting.

(** ** The thread gets to its end *)

Section ends.
Context `{StoreService} `{Cgroups} `{Observer} `{ExecutionPlugins} `{Platform}.

(** No collaborator is interrupted, and giving up on the plugins does not fail. *)
Record calm_collaborators : Prop := {
  calm_wait : forall h pid, x_wait h pid <> Interrupted;
  calm_empty : forall h a s n, g_wait_empty h a s n <> Interrupted;
  calm_quiesce : forall h a s id, g_quiesce h a s id <> Interrupted;
  calm_remove : forall h a s, g_remove h a s <> Interrupted;
  calm_observer : forall h pid c, o_finish h pid c <> Interrupted;
  calm_finished : forall h row, f_finished h row <> Interrupted;
  calm_healthy : forall h x, f_healthy h x <> Interrupted;
  calm_finish : forall h x o q, f_finish h x o q <> Interrupted;
  calm_close : forall h x, f_close h x = Done ();
  calm_save : forall h row, d_save_durable h row <> Interrupted }.

Context (others_stable : forall h s, stable s (others h s)) (Hcalm : calm_collaborators).

Lemma others_none h s : respects (fun _ => False) s (others h s).
Proof. by apply respects_none. Qed.

Lemma calm_out {A} c (f : list scall -> reply A) : (forall h, f h <> Interrupted) -> calm (out c f).
Proof. intros Hf. unfold out, yield_. by repeat calm_step. Qed.

Lemma calm_the_run id : calm (the_run id).
Proof. unfold the_run. by repeat calm_step. Qed.

Lemma calm_row_now {A} id (f : dict -> result A) : calm (row_now id f).
Proof. unfold row_now, yield_. by repeat first [apply calm_the_run|calm_step]. Qed.

Lemma calm_watch_body id r : calm (watch_body id r).
Proof.
  unfold watch_body, on_service, set_flag, root_exited, locked, on_row, on_run, await_quiescence,
    quiesce_cgroup, notify_finished, finish_observer, settle_plugins, finish_plugins, yield_.
  repeat first [apply calm_row_now|apply calm_the_run|apply calm_out|calm_step]; intros h;
    first [apply (calm_wait Hcalm)|apply (calm_empty Hcalm)|apply (calm_quiesce Hcalm)
          |apply (calm_observer Hcalm)|apply (calm_finished Hcalm)|apply (calm_healthy Hcalm)
          |apply (calm_finish Hcalm)].
Qed.

Lemma wp_failed_done id r e s x :
  run_of id (fst (obj s)) = Some x ->
  ewp (watch_failed id r e) (fun y s' => y = Done () /\ stable (fst (obj s)) (fst (obj s'))) s.
Proof.
  intros Hx. unfold watch_failed. apply ewp_bind, ewp_read, ewp_bind.
  assert (Hrow : forall s1, stable (fst (obj s)) (fst (obj s1)) ->
    ewp (on_service (locked (on_row id (fun row =>
           dset "trace_complete" (PBool false) (dset "error" (PStr (exn_name e)) row)))))
      (fun y s' => y = Done () /\ stable (fst (obj s)) (fst (obj s'))) s1).
  { intros s1 H1'. apply ewp_zoom, wp_locked, ewp_modify. split; [done|]. simpl.
    etransitivity; [exact H1'|]. etransitivity; [apply others_stable|]. apply stable_update.
    intros y _. apply run_kept_row. eapply row_kept_compose; [by apply (row_kept_set "error")|].
    by apply row_kept_set. }
  destruct (r_feature r) as [h|]; [|by apply ewp_ret, Hrow].
  destruct (features_finalized _); [by apply ewp_ret, Hrow|].
  apply ewp_zoom. unfold close_unverified. unfold out, yield_.
  apply ewp_bind, ewp_interleave, ewp_perform. intros y Hy. rewrite (calm_close Hcalm) in Hy.
  subst y. simpl. apply Hrow. simpl. apply others_stable.
Qed.

(** The run is there, with what its end needs. *)
Definition has (id : string) (s : service) : Prop :=
  exists r, run_of id s = Some r /\ run_ready r.

Lemma has_stable id s s' : stable s s' -> has id s -> has id s'.
Proof.
  intros Hs (r & Hr & Hready). destruct (Hs id r Hr) as (r' & Hr' & Hk). exists r'.
  split; [done|]. by apply (run_ready_kept r).
Qed.

Lemma stable_on_row id f s : (forall row, row_kept row (f row)) ->
  stable s (update_run id (change_row f) s).
Proof. intros Hf. apply stable_update. intros r _. by apply run_kept_row. Qed.

(** [commit] and [retire_cgroup] give an answer and keep the run. *)
Definition answers (id : string) (y : reply bool) (s' : st scall service) : Prop :=
  (exists b, y = Done b) /\ has id (obj s').

Lemma wp_commit_answers id s : has id (obj s) -> ewp (commit id) (answers id) s.
Proof.
  intros Hhas. destruct Hhas as (r & Hr & Hready) eqn:E. clear E.
  unfold commit. apply ewp_bind, wp_the_run; [|by rewrite Hr].
  intros r' _. apply ewp_catch, ewp_bind, ewp_perform. intros [[]|e|] Hy; simpl.
  - apply ewp_ret. split; [by eexists|]. by exists r.
  - apply ewp_bind, ewp_modify, ewp_ret. split; [by eexists|]. simpl.
    eapply has_stable; [by apply stable_on_row; intros row; apply row_kept_unfinished_by|].
    by exists r.
  - by destruct (calm_save Hcalm (hist s) (r_row r')).
Qed.

Lemma wp_retire_answers id s : has id (obj s) -> ewp (retire_cgroup id) (answers id) s.
Proof.
  intros (r & Hr & Hready). unfold retire_cgroup. apply ewp_bind, wp_the_run; [|by rewrite Hr].
  intros r' Hr'. rewrite Hr in Hr'. injection Hr' as <-. apply ewp_bind, ewp_lift.
  pose proof (ready_session _ Hready) as Hs. destruct (session_of (r_row r)) as [[a b]|]; [|done].
  assert (Hrest : forall removed s1, has id (obj s1) ->
    ewp (on_row id (dset "cgroup_removed" (PBool removed));;
         (if (removed : bool) then mret ()
          else on_row id (fun row => default_error "CgroupRemovalIncomplete" (unfinished row)));;
         committed ← commit id; mret (removed && committed)) (answers id) s1).
  { intros removed s1 Hhas. apply ewp_bind, ewp_modify.
    assert (Hhas1 : has id (update_run id (change_row (dset "cgroup_removed" (PBool removed)))
                              (obj s1))).
    { eapply has_stable; [|exact Hhas]. apply stable_on_row. intros row. by apply row_kept_set. }
    destruct removed; apply ewp_bind; [apply ewp_ret|apply ewp_modify]; apply ewp_bind;
      (eapply ewp_mono; [apply wp_commit_answers|]).
    - done.
    - intros y s' [[y' ->] Hy]. apply ewp_ret. by split; [eexists|].
    - simpl. eapply has_stable; [|exact Hhas1]. apply stable_on_row, row_kept_lost.
    - intros y s' [[y' ->] Hy]. apply ewp_ret. by split; [eexists|]. }
  apply ewp_bind, ewp_catch, ewp_perform. intros [removed|e|] Hy.
  - apply Hrest. by exists r.
  - apply ewp_bind, ewp_modify, ewp_ret, Hrest. simpl. eapply has_stable.
    + apply stable_on_row. intros row. by apply (row_kept_set "error").
    + by exists r.
  - by destruct (calm_remove Hcalm (hist s) a b).
Qed.

Definition is_done (id : string) (s : service) : Prop :=
  exists r, run_of id s = Some r /\ r_done r = true.

Lemma wp_set_done id s :
  has id (obj s) -> ewp (on_run id set_done) (fun y s' => y = Done () /\ is_done id (obj s')) s.
Proof.
  intros (r & Hr & _). apply ewp_modify. split; [done|]. exists (set_done r). simpl.
  by rewrite run_of_update, Hr.
Qed.

Lemma wp_after_commit_done id ok committed s :
  has id (obj s) ->
  ewp (after_commit id ok committed) (fun y s' => y = Done () /\ is_done id (obj s')) s.
Proof.
  intros Hhas. unfold after_commit. apply ewp_bind.
  assert (Hret : ewp (if ok && committed then retire_cgroup id else mret false) (answers id) s).
  { destruct (ok && committed); [by apply wp_retire_answers|]. apply ewp_ret. by split; [eexists|]. }
  eapply ewp_mono; [exact Hret|]. intros y s2 [[retired ->] Hhas2]. apply ewp_bind.
  destruct retired; [|by apply ewp_ret, wp_set_done].
  destruct Hhas2 as (r2 & Hr2 & Hready2). apply ewp_bind, wp_the_run; [|by rewrite Hr2].
  intros r3 _. unfold release_lease. apply ewp_bind, ewp_interleave, ewp_bind, ewp_perform.
  intros y <-. apply ewp_modify, wp_set_done. by exists r2.
Qed.

Lemma wp_closing_done id ok row r s :
  run_of id (obj s) = Some r -> run_ready r -> row_kept (r_row r) row ->
  ewp (closing id ok row) (fun y s' => y = Done () /\ is_done id (obj s')) s.
Proof.
  intros Hr Hready Hrow. unfold closing. apply ewp_bind, ewp_perform. intros t <-. simpl.
  set (now := t_time_ns _). apply ewp_bind, ewp_modify. simpl.
  apply ewp_bind, ewp_lift. rewrite (cookie_of_kept _ _ Hrow).
  pose proof (ready_cookie _ Hready) as Hc. destruct (cookie_of (r_row r)) as [c|]; [|done].
  apply ewp_bind, ewp_modify, ewp_bind. eapply ewp_mono.
  - apply wp_commit_answers. simpl. eexists. split.
    + by rewrite run_of_cookies, run_of_update, Hr.
    + eapply run_ready_kept; [|exact Hready].
      apply (run_kept_row r (fun _ => dset "finished_ns" (PInt now) row)).
      eapply row_kept_compose; [exact Hrow|by apply row_kept_set].
  - intros y s1 [[committed ->] Hhas1]. by apply wp_after_commit_done.
Qed.

Lemma wp_conclude_done id f s :
  has id (obj s) -> ewp (conclude id f) (fun y s' => y = Done () /\ is_done id (obj s')) s.
Proof.
  intros Hhas. unfold conclude. apply wp_locked, ewp_bind, ewp_modify, ewp_bind. simpl.
  assert (Hhas1 : has id (update_run id (set_timer false) (others (hist s) (obj s)))).
  { eapply has_stable; [|eapply has_stable; [apply others_stable|exact Hhas]].
    apply stable_update. intros r _. apply run_kept_timer. }
  destruct Hhas1 as (r & Hr & Hready). apply wp_the_run; simpl; rewrite Hr; [|done].
  intros r' [= <-]. apply ewp_bind, ewp_read. set (ok := succeeded _ _ _).
  apply ewp_bind, ewp_modify, ewp_bind. simpl. set (row1 := outcome_fields _ _ _) in *.
  apply wp_the_run; simpl; rewrite run_of_update, Hr; [|done]. intros r1 [= <-]. simpl.
  assert (Hrow1 : row_kept (r_row r) (row1 (r_row r))) by by apply row_kept_update.
  assert (Hready1 : run_ready (change_row row1 r)).
  { eapply run_ready_kept; [|exact Hready]. by apply run_kept_row. }
  assert (Hclose : forall row, row_kept (row1 (r_row r)) row ->
    ewp (closing id ok row) (fun y s' => y = Done () /\ is_done id (obj s'))
      (St (hist s) (update_run id (change_row row1)
        (update_run id (set_timer false) (others (hist s) (obj s)))))).
  { intros row Hrow. eapply wp_closing_done; [|exact Hready1|exact Hrow].
    simpl. by rewrite run_of_update, Hr. }
  apply ewp_bind. destruct ok; [|by apply ewp_ret, Hclose].
  apply ewp_lift. destruct (all_dead_ok (row1 (r_row r))) as (row & E & Hrow).
  { apply (kept_tasks _ _ Hrow1), (ready_tasks _ Hready). }
  rewrite E. by apply Hclose.
Qed.

(** C6: the thread that ends a run gets to its end.  When the collaborators
    answer, one way or the other, and the other threads respect the runs, the
    run is done at the end of [_watch], so that whoever waits for it goes on:
    a failing observer, plugin, cgroup or disk does not leave it running. *)
Theorem watch_concludes id r s :
  run_of id (obj s) = Some r -> run_ready r ->
  ewp (_watch id) (fun y s' => y = Done () /\ is_done id (obj s')) s.
Proof.
  intros Hr Hready. unfold _watch, yield_. apply ewp_bind, ewp_interleave, ewp_bind. simpl.
  destruct (others_stable (hist s) _ id r Hr) as (r0 & Hr0 & Hk).
  apply wp_the_run; simpl; rewrite Hr0; [|done]. intros r1 [= <-].
  set (s1 := St (hist s) (others (hist s) (obj s), new_flags r0)).
  assert (Hhas : has id (fst (obj s1))) by (exists r0; split; [done|by apply (run_ready_kept r)]).
  assert (Hend : forall s2, has id (fst (obj s2)) ->
    ewp (f ← get_flags; on_service (conclude id f))
      (fun y s' => y = Done () /\ is_done id (fst (obj s'))) s2).
  { intros s2 H2'. apply ewp_bind, ewp_read, ewp_zoom. simpl. by apply wp_conclude_done. }
  assert (Hw : ewp (watched id r0) (fun y s' => y = Done () /\ is_done id (fst (obj s'))) s1).
  { unfold watched. apply ewp_bind, ewp_catch. unfold ewp at 1.
    pose proof (calm_watch_body id r0 s1) as Hni. pose proof (moves_watch_body _ others_none id r0 s1) as [Hmv _].
    destruct (watch_body id r0 s1) as [[[]|e|] s2]; simpl in *; [| |done].
    - apply Hend. by eapply has_stable; [exact Hmv|].
    - pose proof (has_stable _ _ _ Hmv Hhas) as Hhas2. pose proof Hhas2 as (x & Hx & _).
      eapply ewp_mono; [by eapply wp_failed_done|]. intros y s3 [-> Hs3]. apply Hend.
      by eapply has_stable. }
  unfold ewp, run_watched. simpl. unfold ewp, s1 in Hw. simpl in Hw.
  by destruct (watched id r0 _) as [y s'].
Qed.
End ends.

Lemma demo_run_calm : calm_collaborators.
Proof. by split. Qed.

Lemma demo_others_stable h s : stable s (others h s).
Proof. done. Qed.

(** The run of the demonstration, as its thread finds it. *)
Definition demo_run : run :=
  match run_of demo_run_id (obj demo_running) with
  | Some r => r
  | None => Run [] None EmptyString None false false false None None None None
  end.

Lemma watch_concludes_witness :
  run_of demo_run_id (obj demo_running) = Some demo_run /\ run_ready demo_run /\
  ewp (_watch demo_run_id) (fun y s' => y = Done () /\ is_done demo_run_id (obj s')) demo_running.
Proof.
  assert (Hr : run_of demo_run_id (obj demo_running) = Some demo_run) by (vm_compute; reflexivity).
  assert (Hready : run_ready demo_run) by (split; vm_compute; reflexivity).
  split; [exact Hr|]. split; [exact Hready|].
  apply (watch_concludes demo_others_stable demo_run_calm demo_run_id demo_run); [exact Hr|exact Hready].
Defined.
