(* ===== verification/Respect.v ===== *)
(** * Every operation respects the runs

    What one thread does to a run, another can rely on: the relation of
    [RunStable], proved here also of [stop] and of [start], which is the only
    operation that gives a run its process, its plugins' handle and its cgroup,
    and gives them to no run but its own. *)

From Stdlib Require Import Ascii.
From Stdlib Require String.
From stdpp Require Import gmap pretty.
From S2P Require Import Prelude Effects PyVal Ids Kernel Cgroup Extensions Registry.
From S2P Require Import Runs Launch RunStable Unwind Watch WatchSpec DemoRuns WatchEnds.
Open Scope Z_scope.

Section respect.
Context `{StoreService} `{Cgroups} `{Observer} `{ExecutionPlugins} `{Platform}.
Context (K : string -> Prop) (others_respect : forall h s, respects K s (others h s)).

(** The structure of an operation, up to the changes of a run. *)
Ltac moves_start :=
  repeat first
    [ apply moves_first | apply moves_variables; done
    | apply (moves_out K others_respect) | apply (moves_locked K others_respect)
    | apply moves_the_run | apply (moves_yield K others_respect)
    | apply moves_commit | apply moves_forget | apply moves_release
    | apply moves_modify; intros ?; by apply respects_same_runs
    | apply moves_save_quietly | apply (moves_terminate K others_respect)
    | apply moves_on_row; intros ? | apply moves_on_run; intros ?; [|reflexivity]
    | match goal with
      | |- moves _ (match ?x with _ => _ end) => destruct x
      | |- moves _ (if ?x then _ else _) => destruct x
      end
    | moves_step ].

(** ** Queries and [stop] *)

Lemma moves_get_run a s id : moves (respects K) (get_run a s id).
Proof. unfold get_run. moves_start. Qed.

Lemma moves_list_runs a s : moves (respects K) (list_runs a s).
Proof. unfold list_runs. moves_start. Qed.

Lemma moves_events a s id after limit : moves (respects K) (events a s id after limit).
Proof. unfold events. repeat first [apply moves_get_run|progress moves_start]. Qed.

Lemma moves_stop a s id : moves (respects K) (stop a s id).
Proof. unfold stop, wait_done. repeat first [apply moves_get_run|progress moves_start]. Qed.

(** ** The steps of a start that do not give the run anything *)

Lemma moves_cut_off {A} : moves (respects K) (cut_off (A := A)).
Proof. intros s. reflexivity. Qed.

Lemma moves_await_stopped n pid d : moves (respects K) (await_stopped n pid d).
Proof.
  induction n as [|n IH]; simpl; [apply moves_cut_off|]. unfold clock, pause.
  repeat first [exact IH|progress moves_start].
Qed.

Lemma moves_stopped_pids l pids : moves (respects K) (stopped_pids l pids).
Proof.
  induction pids as [|pid pids IH]; simpl; [apply moves_ret, _|].
  repeat first [exact IH|progress moves_start].
Qed.

Lemma moves_inner_gate n l a s d : moves (respects K) (await_inner_gate n l a s d).
Proof.
  induction n as [|n IH]; simpl; [apply moves_cut_off|]. unfold clock, pause, poll.
  repeat first [exact IH|apply moves_stopped_pids|progress moves_start].
Qed.

Lemma moves_target_identity a s pid fd phase : moves (respects K) (_target_identity a s pid fd phase).
Proof.
  unfold _target_identity, _pidfd_send_signal, _namespace_inode, owned, wrapping. moves_start.
Qed.

Lemma moves_acquire a s r : moves (respects K) (acquire_lease a s r).
Proof.
  intros st. unfold acquire_lease, yield_, interleave. simpl.
  destruct (acquire _ _ _ _ _) as [[t g]|e]; simpl; [|apply others_respect].
  etransitivity; [apply others_respect|]. by apply respects_same_runs.
Qed.

Lemma moves_plan a s id v : moves (respects K) (_prepare_recovery_plan a s id v).
Proof. unfold _prepare_recovery_plan, choose_checkpoint. moves_start. Qed.

Lemma moves_close_pidfd fd : moves (respects K) (_close_pidfd fd).
Proof. unfold _close_pidfd, ignoring. moves_start. Qed.

Lemma row_kept_launch_failed b e row : row_kept row (launch_failed_row b e row).
Proof. by apply row_kept_update. Qed.

Lemma row_kept_running pid t cg row : row_kept row (running_row pid t cg row).
Proof.
  unfold running_row. eapply row_kept_compose; [|by apply row_kept_set].
  eapply row_kept_compose; [|by apply row_kept_set].
  assert (Hroot : forall v, row_kept row (dset "root_pid" v row)) by (intros; by apply row_kept_set).
  destruct t as [t|]; [|apply Hroot]. destruct (t =? pid); [apply Hroot|].
  eapply row_kept_compose; [apply Hroot|by apply row_kept_set].
Qed.

(** The clause for a failed start. *)
Lemma moves_settle a s id token l e : moves (respects K) (settle_launch a s id token l e).
Proof.
  unfold settle_launch, kill_launch, launch_empty, launch_quiescence, quiesce_cgroup, launch_tracker,
    finish_observer, launch_features, finish_plugins, close_unverified, launch_removed, remove_cgroup,
    fail_run, or_else, ignoring, kill_cgroup, kill_process, poll, save_durable.
  repeat first [apply moves_close_pidfd|progress moves_start];
    first [apply row_kept_launch_failed|apply run_kept_done|by apply row_kept_set].
Qed.

(** ** A start gives its own run, once each, what that run holds *)

Section launching.
Context (me : string) (Kme : K me).

(** What the launch of [me] does to the runs. *)
Definition launched : relation service := respects (fun id => K id /\ id <> me).

#[local] Instance launched_preorder : PreOrder launched.
Proof. apply respects_preorder. Qed.

Lemma respects_launched s s' : respects K s s' -> launched s s'.
Proof. apply respects_weaken. by intros id [Hid _]. Qed.

(** What the run holds as far as the launch has got: it is not registered, it
    has no process, no cgroup, no plugins, and whatever it has in the end. *)
Notation held_by := (option (option Z * option nat * option identity)).

Definition unregistered : held_by -> Prop := fun h => h = None.
Definition spawnable : held_by -> Prop := fun h => h = Some (None, None, None).
Definition attachable : held_by -> Prop := fun h => exists p, h = Some (p, None, None).
Definition observable : held_by -> Prop := fun h => exists p c, h = Some (p, None, c).
Definition complete : held_by -> Prop := fun _ => True.

Definition staged (o : service) (X : held_by -> Prop) (s : service) : Prop :=
  launched o s /\ X (holdings me s).

Definition reaches (o : service) (X : held_by -> Prop) {A} (r : reply A) (s : service) : Prop :=
  launched o s /\ match r with Done _ => X (holdings me s) | _ => True end.

Lemma staged_respects o x s s' : staged o x s -> respects K s s' -> staged o x s'.
Proof.
  intros [Ho Hx] Hs. split; [by etransitivity; [|apply respects_launched]|].
  by rewrite (respects_handles _ _ _ Hs me Kme).
Qed.

(** The rules for both kinds of computations. *)
Lemma reach_bind {O A B} (get : O -> service) (m : P scall O A) (f : A -> P scall O B) o x y s :
  ewp m (fun r s' => reaches o x r (get (obj s'))) s ->
  (forall a s', staged o x (get (obj s')) -> ewp (f a) (fun r s'' => reaches o y r (get (obj s''))) s') ->
  ewp (m ≫= f) (fun r s' => reaches o y r (get (obj s'))) s.
Proof.
  intros Hm Hf. apply ewp_bind. eapply ewp_mono; [exact Hm|]. intros [a|e|] s' [Ho Hx]; simpl in *.
  - apply Hf. by split.
  - by split.
  - by split.
Qed.

Lemma reach_moves {A} (m : L A) o x s :
  moves (respects_first K) m -> staged o x (fst (obj s)) ->
  ewp m (fun r s' => reaches o x r (fst (obj s'))) s.
Proof.
  intros Hm Hs. unfold ewp. specialize (Hm s). destruct (m s) as [r s'].
  destruct (staged_respects _ _ _ _ Hs Hm) as [Ho Hx]. split; [done|]. by destruct r.
Qed.

Definition registered (X : held_by -> Prop) : held_by -> Prop := fun h => X h /\ h <> None.

Lemma staged_known (X : held_by -> Prop) o s : ~ X None -> staged o X s -> staged o (registered X) s.
Proof. intros Hn [Ho Hx]. split; [done|]. split; [done|]. intros E. by rewrite E in Hx. Qed.

(** What the run does not hold yet may be given to it. *)
Lemma run_kept_process p r : r_process r = None -> run_kept r (set_process p r).
Proof. intros Hp. by split; [done|done|done|intros ? ?; simpl; congruence..|]. Qed.

Lemma run_kept_cgroup c r : r_cgroup r = None -> run_kept r (set_cgroup c r).
Proof. intros Hp. by split; [done|done|done|intros ? ?; simpl; congruence..|]. Qed.

Lemma run_kept_feature t h r : r_feature r = None -> run_kept r (set_target t (set_feature h r)).
Proof. intros Hp. by split; [done|done|done|intros ? ?; simpl; congruence..|]. Qed.

(** A section under the lock that gives the run something. *)
Lemma reach_give {A} f (rest : V A) o x y s :
  (forall r, x (Some (held r)) -> run_kept r (f r) /\ y (Some (held (f r)))) ->
  moves (respects K) rest -> staged o (registered x) (fst (obj s)) ->
  ewp (sv (locked (on_run me f;; rest))) (fun r s' => reaches o y r (fst (obj s'))) s.
Proof.
  intros Hf Hrest Hs. apply ewp_zoom. simpl. apply wp_locked, ewp_bind, ewp_modify. simpl.
  destruct (staged_respects _ _ _ _ Hs (others_respect (hist s) _)) as [Ho Hx].
  set (o1 := others _ _) in *.
  assert (Hnext : staged o y (update_run me f o1)).
  { unfold holdings in Hx. destruct Hx as [Hx Hn], (run_of me o1) as [r|] eqn:Hr; [|done].
    apply Hf in Hx as [Hk Hy]. split.
    - etransitivity; [exact Ho|]. split.
      + apply stable_update. intros r' Hr'. rewrite Hr in Hr'. by injection Hr' as <-.
      + intros id [_ Hne]. unfold holdings. by rewrite run_of_update_other.
    - unfold holdings. by rewrite run_of_update, Hr. }
  unfold ewp. specialize (Hrest (St (hist s) (update_run me f o1))). destruct (rest _) as [r s'].
  simpl in *. destruct (staged_respects _ _ _ _ Hnext Hrest) as [Ho' Hx']. split; [done|].
  by destruct r.
Qed.

Lemma reach_set f o x y s :
  (forall r, x (Some (held r)) -> run_kept r (f r) /\ y (Some (held (f r)))) ->
  staged o (registered x) (fst (obj s)) ->
  ewp (sv (locked (on_run me f))) (fun r s' => reaches o y r (fst (obj s'))) s.
Proof.
  intros Hf Hs. pose proof (reach_give f (mret ()) o x y s Hf (moves_ret _ _) Hs) as Hg.
  exact Hg.
Qed.

(** The run is registered, holding nothing. *)
Lemma run_in_app runs id r id' :
  run_in (runs ++ [(id, r)]) id' =
  match run_in runs id' with Some x => Some x | None => if str_eqb id id' then Some r else None end.
Proof.
  induction runs as [|[k x] runs IH]; simpl; [done|]. by destruct (str_eqb k id').
Qed.

Lemma staged_registered o r c s :
  staged o unregistered s -> held r = (None, None, None) ->
  staged o spawnable (with_cookies c (with_runs (sv_runs s ++ [(me, r)]) s)).
Proof.
  intros [Ho Hx] Hr. unfold unregistered, holdings, run_of in Hx. split; [etransitivity; [exact Ho|split]|].
  - intros id x Hid. exists x. unfold run_of in *. simpl. by rewrite run_in_app, Hid.
  - intros id [_ Hne]. unfold holdings, run_of. simpl. rewrite run_in_app.
    destruct (run_in (sv_runs s) id); [done|]. apply not_eq_sym, str_eqb_neq in Hne. by rewrite Hne.
  - unfold spawnable, holdings, run_of. simpl. rewrite run_in_app.
    destruct (run_in (sv_runs s) me); [done|]. simpl. by rewrite str_eqb_refl, <- Hr.
Qed.
End launching.

(** ** The body of a start *)

Section body.
Context (audit boot : string) (fuel : nat) (rq : start_request) (Kme : K (rq_run rq)).

Notation me := (rq_run rq).

Lemma respects_fresh_cookie n : moves (respects_first K) (fresh_cookie n).
Proof.
  induction n as [|n IH]; simpl; [apply moves_first, moves_cut_off|]. unfold draw_cookie, local, set_local.
  repeat first [exact IH|progress moves_start].
Qed.

Lemma moves_mark_running pid target handle cgroup :
  moves (respects K) (mark_running rq pid target handle cgroup).
Proof.
  unfold mark_running, save, save_durable. moves_start. apply row_kept_running.
Qed.

Lemma respects_release_gate identity started : moves (respects_first K) (release_gate rq identity started).
Proof.
  unfold release_gate, healthy, _pidfd_send_signal, wrapping, set_local.
  repeat first [apply moves_target_identity|apply moves_close_pidfd|progress moves_start].
Qed.

#[local] Opaque mark_running release_gate.

Ltac moves_launch :=
  repeat first
    [ apply respects_fresh_cookie | apply moves_await_stopped | apply moves_inner_gate
    | apply moves_target_identity | apply moves_plan | apply moves_mark_running
    | apply respects_release_gate | progress moves_start ].

Ltac reach_step :=
  eapply reach_bind with (get := fst);
    [solve [apply (reach_moves _ Kme); [moves_launch|eassumption]]
    |intros ? ? ?].

Lemma wp_register plan o s :
  staged me o unregistered (fst (obj s)) ->
  ewp (register_run audit boot fuel rq plan)
    (fun r s' => reaches me o spawnable r (fst (obj s'))) s.
Proof.
  intros Hs. unfold register_run, draw_cookie, local, set_local. repeat reach_step.
  eapply reach_bind with (get := fst) (x := spawnable).
  - apply ewp_zoom, ewp_modify. by apply staged_registered.
  - intros _ s1 Hs1. simpl in Hs1. unfold save. repeat reach_step.
    apply (reach_moves _ Kme); [moves_start|done].
Qed.
Lemma wp_gate config o s :
  staged me o spawnable (fst (obj s)) ->
  ewp (launch_gate fuel rq config) (fun r s' => reaches me o observable r (fst (obj s'))) s.
Proof.
  intros Hs. unfold launch_gate, _wait_stopped, clock, set_local, local. repeat reach_step.
  eapply reach_bind with (get := fst) (x := attachable).
  { apply (reach_set me Kme _ o spawnable); [|apply staged_known; [done|eassumption]].
    intros r [= Hp Hf Hc]. split; [by apply run_kept_process|].
    eexists. unfold held. simpl. by rewrite Hf, Hc. }
  intros ? ? ?. repeat reach_step. eapply reach_bind with (get := fst) (x := observable).
  { apply (reach_set me Kme _ o attachable); [|apply staged_known; [by intros []|eassumption]].
    intros r [p [= Hp Hf Hc]]. split; [by apply run_kept_cgroup|].
    exists p. eexists. unfold held. simpl. by rewrite Hp, Hf. }
  intros ? ? ?. repeat reach_step. apply (reach_moves _ Kme); [moves_start|done].
Qed.

Lemma wp_plugins plan epoch metadata pid identity o s :
  staged me o observable (fst (obj s)) ->
  ewp (start_plugins audit boot fuel rq plan epoch metadata pid identity)
    (fun r s' => reaches me o complete r (fst (obj s'))) s.
Proof.
  intros Hs. unfold start_plugins, set_local, _wait_inner_gate, _open_pidfd, wrapping, healthy, clock.
  repeat reach_step. eapply reach_bind with (get := fst) (x := complete).
  { apply (reach_give me Kme _ _ o observable); [|by moves_start; apply row_kept_set|].
    - intros r (p & c & [= Hp Hf Hc]). split; [by apply run_kept_feature|done].
    - apply staged_known; [by intros (? & ? & ?)|eassumption]. }
  intros ? ? ?. apply (reach_moves _ Kme); [moves_start|done].
Qed.

(** ** The start as a whole *)

Lemma wp_body o s :
  staged me o unregistered (fst (obj s)) ->
  ewp (start_body audit boot fuel rq) (fun r s' => reaches me o complete r (fst (obj s'))) s.
Proof.
  intros Hs. unfold start_body. reach_step.
  eapply reach_bind with (get := fst); [by apply wp_register|]. intros [[config epoch] metadata] s1 Hs1.
  eapply reach_bind with (get := fst); [by apply wp_gate|]. intros [[pid identity] cgroup] s2 Hs2.
  eapply reach_bind with (get := fst) (x := complete).
  - destruct (f_present && f_lifecycle).
    + eapply reach_bind with (get := fst); [by apply wp_plugins|]. intros [[[target fd] ns] h] s3 Hs3.
      reach_step. by apply (reach_moves _ Kme); [moves_launch|].
    + apply (reach_moves _ Kme); [moves_launch|]. by destruct Hs2; split.
  - intros ? s3 Hs3. apply (reach_moves _ Kme); [|done]. moves_launch. apply run_kept_timer.
Qed.

Lemma wp_guarded_start o s :
  staged me o unregistered (fst (obj s)) ->
  ewp (guarded_start audit boot fuel rq) (fun _ s' => launched me o (fst (obj s'))) s.
Proof.
  intros Hs. unfold guarded_start. apply ewp_unwinding_with.
  eapply ewp_mono; [by apply wp_body|]. intros r s1 [Ho _].
  assert (Hfail : forall e, ewp (fail_launch rq e) (fun _ s' => launched me o (fst (obj s'))) s1).
  { intros e. unfold ewp. assert (Hm : moves (respects_first K) (fail_launch rq e)).
    { unfold fail_launch, local. apply moves_bind; [exact _|apply moves_read, _|].
      intros l. apply moves_first, moves_settle. }
    specialize (Hm s1). destruct (fail_launch rq e s1) as [y s2].
    etransitivity; [exact Ho|]. apply (respects_launched me), Hm. }
  destruct r as [row|e|]; [done| |]; (eapply ewp_mono; [apply Hfail|]); by intros [[]|e'|] s2.
Qed.
End body.

Lemma respects_then {A B} (m : V A) (f : A -> V B) (R : relation service) o s :
  (forall x y, respects K x y -> R x y) -> moves (respects K) m -> respects K o (obj s) ->
  (forall a s', respects K o (obj s') -> ewp (f a) (fun _ s'' => R o (obj s'')) s') ->
  ewp (m ≫= f) (fun _ s' => R o (obj s')) s.
Proof.
  intros HR Hm Ho Hf. apply ewp_bind. unfold ewp at 1. specialize (Hm s).
  destruct (m s) as [[a|e|] s1]; simpl in *; [apply Hf|apply HR..]; by etransitivity.
Qed.

(** [start]: the run it registers is named by an identifier that it drew. *)
Lemma wp_start audit boot fuel a s argv env timeout trace recovery st :
  (forall l, K (t_uuid l)) -> (forall l, run_of (t_uuid l) (obj st) = None) ->
  ewp (start audit boot fuel a s argv env timeout trace recovery)
    (fun _ st' => respects (fun id => K id /\ forall l, id <> t_uuid l) (obj st) (obj st')) st.
Proof.
  intros HK Hfresh. set (R := respects _).
  assert (Hweak : forall x y, respects K x y -> R x y).
  { intros x y. apply respects_weaken. by intros id [Hid _]. }
  unfold start, _start, describe_session. assert (Ho : respects K (obj st) (obj st)) by done.
  revert Ho. generalize st at 2 4. intros st1 Ho.
  do 7 (apply respects_then;
    [exact Hweak|solve [repeat first [apply moves_acquire|progress moves_start]]|exact Ho
    |clear Ho; intros ? ? Ho]).
  unfold out, yield_. do 2 apply ewp_bind. apply ewp_interleave, ewp_perform. intros y <-. simpl.
  set (s1 := St _ _). assert (Ho1 : respects K (obj st) (obj s1)).
  { etransitivity; [exact Ho|apply others_respect]. }
  clearbody s1. set (id := t_uuid _). apply respects_then; [exact Hweak|by unfold draw_cookie; moves_start|done|].
  intros cookie s2 Ho2. apply ewp_with_locals. eapply ewp_mono.
  - apply wp_guarded_start with (o := obj s2); [exact (HK _)|]. split; [done|].
    change (holdings id (obj s2) = None). rewrite (respects_handles _ _ _ Ho2 id (HK _)).
    unfold holdings, id. by rewrite Hfresh.
  - simpl. intros r s3 Hs3. transitivity (obj s2); [by apply Hweak|]. revert Hs3.
    apply respects_weaken. intros x [Hx Hne]. split; [done|apply Hne].
Qed.

(** C34: what one thread does to a run, another can rely on.  Every operation
    on the runs - starting one, watching its end, recording an event, a failure
    of the observer or of a plugin, a termination, a stop, the fence of a
    session, the shutdown and the queries - respects them, however it ends and
    whatever the collaborators answer, given that the operations of the other
    threads respect them as well: a run keeps its lease, process, plugins,
    cgroup and the fields that name it, its processes stay a table of
    dictionaries, its events' numbers do not go back, and its end and the reason
    for it are final.  What a run holds is given to it by its own start only:
    of the runs of [K], which no other thread starts, the operations change
    neither process, plugins nor cgroup, and a start, whose identifiers were in
    nobody's use, changes them of no run but those it named. *)
Theorem operations_respect_runs message id reason a s terminate audit boot fuel argv env timeout
    trace recovery after limit :
  (moves (respects K) (_record_event message) /\ moves (respects K) (_backend_failed reason) /\
   moves (respects K) (_feature_failed id reason) /\ moves (respects K) (_terminate id reason) /\
   moves (respects K) (session_launch_fence a s terminate reason) /\
   moves (respects K) close_processes /\ moves (respects K) (stop a s id) /\
   moves (respects K) (_watch id) /\ moves (respects K) (get_run a s id) /\
   moves (respects K) (list_runs a s) /\ moves (respects K) (events a s id after limit)) /\
  (forall st, (forall l, K (t_uuid l)) -> (forall l, run_of (t_uuid l) (obj st) = None) ->
   ewp (start audit boot fuel a s argv env timeout trace recovery)
     (fun _ st' => respects (fun id => K id /\ forall l, id <> t_uuid l) (obj st) (obj st')) st).
Proof.
  split; [|intros st HK Hfresh; by apply wp_start].
  split; [by apply moves_record|]. split; [by apply moves_backend_failed|].
  split; [by apply moves_feature_failed|]. split; [by apply moves_terminate|].
  split; [by apply moves_fence|]. split; [by apply moves_close|]. split; [apply moves_stop|].
  split; [by apply moves_watch|]. split; [apply moves_get_run|]. split; [apply moves_list_runs|].
  apply moves_events.
Qed.
End respect.

(** The start of the demonstration, and then the end of the run it started. *)
Lemma operations_respect_runs_witness :
  moves (respects (fun _ => True)) (_watch demo_run_id) /\
  respects (fun id => True /\ forall l, id <> t_uuid l) demo_service (obj demo_running).
Proof.
  assert (Hothers : forall h s, respects (fun _ => True) s (others h s)) by (intros h s; split; done).
  pose proof (operations_respect_runs _ Hothers [] demo_run_id "requested" "a" "s" true "/audit"
    "boot-1" 10 (PList [PStr "true"]) PNone (PInt 300) PNone PNone (PInt 0) (PInt 10)) as [Hm Hs].
  split; [apply Hm|].
  exact (Hs (St [] demo_service) (fun _ => I) (fun _ => eq_refl)).
Defined.
