(* ===== verification/EventsSpec.v ===== *)
(** * The events of a run

    What is appended is numbered without gaps, and reading the file page by
    page gives every event once, in order. *)

From Stdlib Require Import Ascii Sorted.
From Stdlib Require String.
From stdpp Require Import gmap pretty.
From S2P Require Import Prelude Effects PyVal Ids Kernel Cgroup Extensions Registry.
From S2P Require Import Runs Launch RunStable DemoRuns.
Open Scope Z_scope.

(** ** Appending *)

Section append.
Context `{StoreService} `{Cgroups} `{Observer} `{ExecutionPlugins} `{Platform}.

Lemma stamped_sequence row event count now e :
  stamped row event count now = Ok e -> dget "sequence" e = Some (PInt count).
Proof.
  unfold stamped. destruct (dindex "agent_id" row); [|done]. simpl.
  destruct (dindex "session_id" row); [|done]. simpl.
  destruct (dindex "run_id" row); [|done]. simpl.
  destruct (dindex "boot_id" row); [|done]. simpl. intros [= <-].
  unfold dupdate. simpl. by rewrite !dget_dset.
Qed.

Lemma attributed_sequence row event x :
  attributed row event = Ok x -> dget "sequence" x.1 = dget "sequence" event.
Proof.
  unfold attributed. destruct (py_truthy _); [|by intros [= <-]].
  destruct (process_identity row event _ _) as [identity|]; [|done]. simpl.
  set (event1 := dset "process_id" _ event).
  destruct (py_eqb _ _); simpl.
  - destruct (process_identity row event1 _ _) as [parent|]; [|done]. simpl.
    destruct (dindex "processes" row) as [[]|]; try done. simpl.
    destruct (dget_or _ _ _); try done. intros [= <-]. simpl. unfold event1. by rewrite !dget_dset_ne.
  - destruct (dindex "processes" row) as [[]|]; try done. simpl.
    destruct (dget_or _ _ _); try done. intros [= <-]. simpl. unfold event1. by rewrite dget_dset_ne.
Qed.

Lemma attributed_count row event x :
  attributed row event = Ok x -> dget "event_count" x.2 = dget "event_count" row.
Proof.
  unfold attributed. destruct (py_truthy _); [|by intros [= <-]].
  destruct (process_identity row event _ _) as [identity|]; [|done]. simpl.
  set (event2 := if py_eqb _ _ then _ else _). destruct event2 as [ev|]; [|done]. simpl.
  destruct (dindex "processes" row) as [[]|]; try done. simpl.
  destruct (dget_or _ _ _); try done. intros [= <-]. simpl. by rewrite dget_dset_ne.
Qed.

(** Also: an event that is recorded gets the number after the run's last one, and
    the run's count is then this number: the numbers in the file have no gap
    and no repetition.  The event is written once. *)
Theorem append_numbers_events id event s :
  ewp (_append_event id event) (fun y s' =>
    match y with
    | Done _ =>
        exists r r' e,
          run_of id (obj s) = Some r /\ run_of id (obj s') = Some r' /\
          dget "sequence" e = Some (PInt (event_number (r_row r) + 1)) /\
          event_number (r_row r') = event_number (r_row r) + 1 /\
          hist s' = hist s ++ [TTimeNs; DAppend e]
    | _ => True
    end) s.
Proof.
  unfold _append_event. apply ewp_bind, wp_the_run; [|done].
  intros r Hr. apply ewp_bind, ewp_lift.
  destruct (dindex "event_count" (r_row r)) as [v|] eqn:Ei; simpl; [|done].
  destruct v as [| |n| | | |]; simpl; try done. apply ewp_bind, ewp_modify. simpl.
  assert (Hc : event_number (r_row r) = n).
  { unfold dindex in Ei. unfold event_number. destruct (dget _ _); [|done]. by injection Ei as ->. }
  apply ewp_bind, ewp_perform. intros t <-. simpl. apply ewp_bind, ewp_lift.
  destruct (stamped _ _ _ _) as [event1|] eqn:Es; [|done].
  apply ewp_bind, ewp_lift. destruct (attributed _ event1) as [x|] eqn:Ex; [|done].
  apply ewp_bind, ewp_modify, ewp_perform. simpl. intros [[]|e|] _; [|done..].
  exists r. eexists _, x.1. split; [done|]. split; [by rewrite !run_of_update, Hr|].
  rewrite Hc. split; [by rewrite (attributed_sequence _ _ _ Ex), (stamped_sequence _ _ _ _ _ Es)|].
  split; [|by rewrite <- app_assoc]. unfold event_number. simpl.
  by rewrite (attributed_count _ _ _ Ex), dget_dset_eq.
Qed.
End append.

(** ** Paging *)

(** An event with its number, and the line that holds it. *)
Definition numbered (e : Z * dict) : Prop := dget "sequence" e.2 = Some (PInt e.1).

Definition line_of (e : Z * dict) : line := Line true (Ok (PDict e.2)).

Definition after_number (after : Z) (e : Z * dict) : bool := after <? e.1.

Definition selection (after : Z) (es : list (Z * dict)) : list (Z * dict) :=
  List.filter (after_number after) es.

Definition shown (es : list (Z * dict)) : list pyval := (fun e => PDict e.2) <$> es.

(** What may follow the complete lines: nothing, or a line being written. *)
Definition torn (tail : list line) : Prop :=
  match tail with [] => True | x :: _ => l_complete x = false end.

Lemma page_torn after limit tail items : torn tail -> page after limit tail items = Ok items.
Proof. destruct tail as [|x tail]; simpl; [done|]. by intros ->. Qed.

Lemma page_spec after limit es tail items :
  Forall numbered es -> torn tail -> (length items < limit)%nat ->
  page after limit ((line_of <$> es) ++ tail) items =
    Ok (items ++ shown (take (limit - length items) (selection after es))).
Proof.
  intros Hes Htail. revert items. induction Hes as [|[n d] es Hn Hes IH]; intros items Hl; simpl.
  - rewrite page_torn by done. by rewrite take_nil, app_nil_r.
  - unfold numbered in Hn. simpl in Hn. unfold dindex. rewrite Hn. simpl.
    unfold selection. simpl. unfold after_number at 1. simpl.
    destruct (after <? n) eqn:E; simpl.
    + rewrite length_app. simpl. destruct (limit <=? length items + 1)%nat eqn:El.
      * apply Nat.leb_le in El. replace (limit - length items)%nat with 1%nat by lia.
        done.
      * apply Nat.leb_gt in El. rewrite IH by (rewrite length_app; simpl; lia).
        rewrite length_app, <- app_assoc. simpl. unfold selection.
        replace (limit - length items)%nat with (S (limit - (length items + 1))) by lia. done.
    + assert (El : (limit <=? length items)%nat = false) by (apply Nat.leb_gt; lia).
      rewrite El. by apply IH.
Qed.

(** Reading page after page from the number [after], with [n] pages at most. *)
Fixpoint read_pages (n limit : nat) (after : Z) (lines : list line) : result (list pyval) :=
  match n with
  | O => Ok []
  | S n =>
      items ← page after limit lines [];
      match items with
      | [] => Ok []
      | _ =>
          next ← last_sequence items after;
          next ← as_count next;
          rest ← read_pages n limit next lines;
          Ok (items ++ rest)
      end
  end.

Definition increasing (es : list (Z * dict)) : Prop := StronglySorted (fun a b => a.1 < b.1) es.

Lemma selection_all after es : Forall (fun e => after < e.1) es -> selection after es = es.
Proof.
  induction 1 as [|e es He _ IH]; [done|]. unfold selection, after_number in *. simpl.
  by rewrite (proj2 (Z.ltb_lt _ _) He), IH.
Qed.

Lemma selection_none after es : Forall (fun e => e.1 <= after) es -> selection after es = [].
Proof.
  induction 1 as [|e es He _ IH]; [done|]. unfold selection, after_number in *. simpl.
  by rewrite (proj2 (Z.ltb_ge _ _) He), IH.
Qed.

Lemma selection_app after l1 l2 : selection after (l1 ++ l2) = selection after l1 ++ selection after l2.
Proof. apply List.filter_app. Qed.

(** Going on after the event [e] gives what follows it. *)
Lemma selection_next l1 e l2 : increasing (l1 ++ e :: l2) -> selection e.1 (l1 ++ e :: l2) = l2.
Proof.
  intros Hs. apply StronglySorted_app in Hs as (Hlt & _ & Hs2).
  apply StronglySorted_inv in Hs2 as [_ He]. rewrite selection_app.
  rewrite selection_none; [|apply Forall_forall; intros x Hx; specialize (Hlt x e Hx ltac:(left)); lia].
  unfold selection, after_number. simpl. rewrite Z.ltb_irrefl. by apply selection_all.
Qed.

Lemma selection_selection after next es :
  after <= next -> selection next (selection after es) = selection next es.
Proof.
  intros Hle. induction es as [|e es IH]; [done|]. unfold selection, after_number in *. simpl.
  destruct (after <? e.1) eqn:Ea; simpl; [by rewrite IH|].
  apply Z.ltb_ge in Ea. rewrite (proj2 (Z.ltb_ge next e.1)); [done|lia].
Qed.

Lemma selection_increasing after es : increasing es -> increasing (selection after es).
Proof.
  induction 1 as [|e es Hs IH He]; [constructor|]. unfold selection, after_number in *. simpl.
  destruct (after <? e.1); [|done]. constructor; [done|].
  apply Forall_forall. intros x Hx. rewrite Forall_forall in He. apply He.
  by apply list_elem_of_In, List.filter_In in Hx as [Hx%list_elem_of_In _].
Qed.

Lemma selection_numbered after es : Forall numbered es -> Forall numbered (selection after es).
Proof.
  rewrite !Forall_forall. intros Hes x Hx.
  by apply list_elem_of_In, List.filter_In in Hx as [Hx%list_elem_of_In _]; auto.
Qed.

Lemma selection_above after es : Forall (fun e => after < e.1) (selection after es).
Proof.
  apply Forall_forall. intros x Hx. apply list_elem_of_In, List.filter_In in Hx as [_ Hx].
  by apply Z.ltb_lt.
Qed.

Lemma last_sequence_shown l e after :
  numbered e -> last_sequence (shown (l ++ [e])) after = Ok (PInt e.1).
Proof.
  intros He. unfold last_sequence, shown. rewrite fmap_app. simpl. rewrite last_snoc.
  unfold dindex. by rewrite He.
Qed.

(** A page that is not empty ends with an event; what it leaves comes after. *)
Lemma page_split limit (sel : list (Z * dict)) :
  (0 < limit)%nat -> sel <> [] ->
  exists l e, take limit sel = l ++ [e] /\ sel = l ++ e :: drop limit sel.
Proof.
  intros Hl Hne. destruct (@exists_last _ (take limit sel)) as (l & e & E).
  - destruct sel, limit; done || lia.
  - exists l, e. split; [done|]. change (e :: drop limit sel) with ([e] ++ drop limit sel).
    by rewrite app_assoc, <- E, take_drop.
Qed.

Lemma read_page n limit after lines l e :
  numbered e -> page after limit lines [] = Ok (shown (l ++ [e])) ->
  read_pages (S n) limit after lines =
    (rest ← read_pages n limit e.1 lines; Ok (shown (l ++ [e]) ++ rest)).
Proof.
  intros He Hp. simpl. rewrite Hp. simpl. rewrite (last_sequence_shown l e after He). simpl.
  destruct (shown (l ++ [e])) eqn:E; [|done]. apply (f_equal length) in E.
  unfold shown in E. rewrite length_fmap, length_app in E. simpl in E. lia.
Qed.

(** C38: reading the events page by page gives the same as reading the file at
    once: whatever the size of a page, the pages from the number [after] on,
    each from the number the one before it gave, are together the events with
    a greater number, each once and in order, up to a line that is still being
    written. *)
Theorem pages_cover es tail after limit n :
  Forall numbered es -> increasing es -> torn tail -> (0 < limit)%nat ->
  (length (selection after es) < n)%nat ->
  read_pages n limit after ((line_of <$> es) ++ tail) = Ok (shown (selection after es)).
Proof.
  intros Hes Hs Ht Hl. revert after. induction n as [|n IH]; intros after Hn; [lia|].
  pose proof (page_spec after limit es tail [] Hes Ht Hl) as Hp. simpl in Hp.
  rewrite Nat.sub_0_r in Hp.
  destruct (decide (selection after es = [])) as [E|E].
  { simpl. rewrite Hp, E, take_nil. done. }
  destruct (page_split limit _ Hl E) as (l & e & Et & Esel). rewrite Et in Hp.
  assert (He : numbered e).
  { pose proof (selection_numbered after es Hes) as Hnum. rewrite Esel in Hnum.
    by apply Forall_app in Hnum as [_ [? _]%Forall_cons]. }
  assert (Hnext : selection e.1 es = drop limit (selection after es)).
  { rewrite <- (selection_selection after).
    - rewrite Esel at 1. apply selection_next. rewrite <- Esel. by apply selection_increasing.
    - pose proof (selection_above after es) as Ha. rewrite Esel in Ha.
      apply Forall_app in Ha as [_ [Ha _]%Forall_cons]. lia. }
  rewrite (read_page n limit after _ l e He Hp), IH.
  - rewrite Hnext. simpl. unfold shown. rewrite <- (fmap_app (fun x : Z * dict => PDict x.2)).
    by rewrite <- Et, take_drop.
  - rewrite Hnext, length_drop. apply (f_equal length) in Esel.
    rewrite length_app in Esel. simpl in Esel. lia.
Qed.

Definition demo_events : list (Z * dict) :=
  (fun n => (n, [("sequence", PInt n)])) <$> [1; 2; 3; 4; 5].

Lemma pages_cover_witness :
  read_pages 5 2 1 ((line_of <$> demo_events) ++ [Line false (Err JSONDecodeError)])
    = Ok (shown (selection 1 demo_events)).
Proof.
  apply (pages_cover demo_events [Line false (Err JSONDecodeError)] 1 2 5).
  - vm_compute. repeat constructor.
  - vm_compute. repeat constructor.
  - reflexivity.
  - lia.
  - vm_compute. lia.
Defined.
