(* ===== verification/UnwindSpec.v ===== *)
(** * What a failed start leaves behind

    Whatever a launch obtained before it failed is accounted for: the session's
    lease is given back only when the process has ended, its cgroup is empty,
    certified quiescent and removed, the observer and the plugins have finished
    and the failed row is durable; otherwise the run is fenced. *)

From Stdlib Require Import Ascii.
From Stdlib Require String.
From stdpp Require Import gmap pretty.
From S2P Require Import Prelude Effects PyVal Ids Kernel Cgroup Extensions Registry.
From S2P Require Import Runs Launch RunStable Unwind.
Open Scope Z_scope.

Section settle.
Context `{StoreService} `{Cgroups} `{Observer} `{ExecutionPlugins} `{Platform}.
Context (a s id token : string) (l : locals).

(** ** The evidence *)

Definition process_ended (n : nat) (h : list scall) : Prop :=
  forall pid, lo_process l = Some pid ->
    exists code, answered n h (XPoll pid) (fun h => x_poll h pid = Done (Some code)).

Definition cgroup_emptied (n : nat) (h : list scall) : Prop :=
  lo_attached l = true -> is_Some (lo_process l) ->
    answered n h (GWaitEmpty a s 5) (fun h => g_wait_empty h a s 5 = Done true).

Definition cgroup_certified (n : nat) (h : list scall) (q : quiescence) : Prop :=
  exists i j, lo_identity l = Some i /\ q = quiescence_of j /\
    answered n h (GQuiesce a s (id_inode i)) (fun h => g_quiesce h a s (id_inode i) = Done j).

Definition observer_finished (n : nat) (h : list scall) : Prop :=
  forall pid, lo_seeded l = true -> lo_process l = Some pid ->
    answered n h (OFinish pid (lo_cookie l)) (fun h => o_finish h pid (lo_cookie l) = Done ()).

Definition features_finished (n : nat) (h : list scall) : Prop :=
  forall x, lo_feature l = Some x ->
    exists q result, cgroup_certified n h q /\
      answered n h (FFinish x "launch_failed" q)
        (fun h => f_finish h x "launch_failed" q = Done result).

Definition cgroup_gone (n : nat) (h : list scall) : Prop :=
  lo_attached l = true -> answered n h (GRemove a s) (fun h => g_remove h a s = Done true).

Definition given_back (n : nat) (h : list scall) : Prop :=
  process_ended n h /\ cgroup_emptied n h /\ observer_finished n h /\ features_finished n h /\
  cgroup_gone n h.

(** ** The steps *)

(** [knows Q m]: an answer [b] of [m] is backed by [Q b] in the history. *)
Definition knows {A} (Q : A -> nat -> list scall -> Prop) (m : V A) : Prop :=
  forall n st, (n <= length (hist st))%nat ->
    ewp m (fun x st' => match x with Done b => Q b n (hist st') | _ => True end) st.

Lemma knows_empty :
  knows (fun b n h => b = true -> process_ended n h /\ cgroup_emptied n h) (launch_empty a s l).
Proof.
  intros n st Hn. unfold launch_empty, process_ended, cgroup_emptied.
  destruct (lo_process l) as [pid|]; [|by apply ewp_ret; split; [|intros _ []]].
  apply ewp_or_else, ewp_bind. unfold poll. apply wp_out. intros o [code|e|] Hp; [| |done].
  - destruct code as [code|]; [|by apply ewp_ret].
    assert (Hpoll : answered n (hist st ++ [XPoll pid]) (XPoll pid)
                      (fun h => x_poll h pid = Done (Some code))) by by apply answered_here.
    destruct (lo_attached l) eqn:Ea.
    + apply wp_out. intros o' [b|e|] Hb; simpl in *; [|by destruct (os_or_workspace_error e)|done].
      intros ->. split; [intros p [= <-]; exists code; by apply answered_app|].
      intros _ _. apply answered_here; [rewrite length_app; lia|done].
    + apply ewp_ret. intros _. split; [intros p [= <-]; by exists code|done].
  - by destruct (os_or_workspace_error e).
Qed.

Lemma knows_quiescence empty :
  knows (fun eq n h => (eq.1 = true -> empty = true) /\
                       (forall q, eq.2 = Some q -> cgroup_certified n h q))
    (launch_quiescence a s l empty).
Proof.
  intros n st Hn. unfold launch_quiescence.
  destruct empty eqn:Ee; simpl; [|by apply ewp_ret].
  destruct (lo_attached l); simpl; [|by apply ewp_ret].
  destruct (lo_identity l) as [i|] eqn:Ei; [|by apply ewp_ret].
  apply ewp_or_else, ewp_bind. unfold quiesce_cgroup. apply ewp_bind, wp_out.
  intros o [j|e|] Hj; [| |done].
  - apply ewp_ret, ewp_ret. simpl. split; [done|]. intros q [= <-]. exists i, j.
    split; [done|]. split; [done|]. by apply answered_here.
  - by destruct (is_workspace_error e).
Qed.

Lemma knows_tracker empty :
  knows (fun b n h => b = true -> empty = true -> observer_finished n h) (launch_tracker l empty).
Proof.
  intros n st Hn. unfold launch_tracker, observer_finished.
  destruct (lo_seeded l) eqn:Es; simpl; [|by apply ewp_ret].
  destruct empty; simpl; [|by apply ewp_ret].
  destruct (lo_process l) as [pid|] eqn:Ep; [|by apply ewp_ret].
  apply ewp_or_else, ewp_bind. unfold finish_observer. apply wp_out. intros o [[]|e|] Hf; [| |done].
  - apply ewp_ret. intros _ _ p _ [= <-]. by apply answered_here.
  - by destruct (is_workspace_error e).
Qed.

Lemma knows_features empty q :
  knows (fun b n h => b = true -> (forall q', q = Some q' -> cgroup_certified n h q') ->
                      features_finished n h) (launch_features id l empty q).
Proof.
  intros n st Hn. unfold launch_features, features_finished.
  destruct (lo_feature l) as [x|]; [|by apply ewp_ret].
  assert (Hclose : forall st, ewp (close_unverified x;; mret false)
    (fun r st' => match r with
                  | Done b => b = true ->
                      (forall q', q = Some q' -> cgroup_certified n (hist st') q') ->
                      forall x0, Some x = Some x0 -> exists q result,
                        cgroup_certified n (hist st') q /\
                        answered n (hist st') (FFinish x0 "launch_failed" q)
                          (fun h => f_finish h x0 "launch_failed" q = Done result)
                  | _ => True end) st).
  { intros st1. apply ewp_bind. unfold close_unverified. apply wp_out.
    intros o [[]|e|] _; [by apply ewp_ret|done..]. }
  destruct empty; [|apply Hclose]. destruct q as [q|]; [|apply Hclose].
  apply ewp_catch, ewp_bind. unfold finish_plugins. apply wp_out.
  intros o [result|e|] Hf; [|apply Hclose|done].
  apply ewp_bind, ewp_modify, ewp_ret. simpl. intros _ Hc y [= <-].
  exists q, result. split; [by apply Hc|]. by apply answered_here.
Qed.

Lemma knows_removed safe :
  knows (fun b n h => b = true -> safe = true /\ cgroup_gone n h) (launch_removed a s l safe).
Proof.
  intros n st Hn. unfold launch_removed, cgroup_gone. destruct (lo_attached l); simpl.
  - destruct safe; [|by apply ewp_ret]. apply ewp_or_else. unfold remove_cgroup. apply wp_out.
    intros o [b|e|] Hb; simpl; [|done|done]. intros ->. split; [done|]. intros _. by apply answered_here.
  - apply ewp_ret. intros ->. by split.
Qed.

(** ** The failed run *)

Definition start_failed (safe : bool) (row : dict) : Prop :=
  dget "state" row = Some (PStr "failed") /\
  dget "session_fenced" row = Some (PBool (negb safe)) /\
  dget "lifecycle_complete" row = Some (PBool false).

Lemma start_failed_row safe error row : start_failed safe (launch_failed_row safe error row).
Proof. unfold start_failed, launch_failed_row, dupdate. simpl. by rewrite !dget_dset. Qed.

Lemma start_failed_fenced row safe :
  start_failed safe row -> start_failed false (dset "session_fenced" (PBool true) row).
Proof. unfold start_failed. rewrite !dget_dset. simpl. by intros (? & ? & ?). Qed.

(** The registered run, if there is one, is done and failed; it is fenced
    unless the lease goes back. *)
Definition run_failed (safe : bool) (sv : service) : Prop :=
  forall r, run_of id sv = Some r -> r_done r = true /\ start_failed safe (r_row r).

Definition failure_durable (n : nat) (h : list scall) : Prop :=
  exists row, start_failed true row /\
    answered n h (DSaveDurable row) (fun h => d_save_durable h row = Done ()).

Lemma wp_fail_run safe error n st :
  (n <= length (hist st))%nat ->
  ewp (fail_run id l safe error) (fun x st' =>
    match x with
    | Done b =>
        (b = true -> safe = true) /\ run_failed b (obj st') /\
        (b = true -> run_of id (obj st') = None \/ failure_durable n (hist st'))
    | _ => True
    end) st.
Proof.
  intros Hn. unfold fail_run. apply wp_locked, ewp_bind, ewp_modify, ewp_bind, ewp_read. simpl.
  unfold run_failed. destruct (run_of id _) as [r|] eqn:Er.
  - apply ewp_bind, ewp_modify, ewp_bind. simpl.
    apply wp_the_run; simpl; rewrite run_of_update, Er; [|done]. intros r' [= <-].
    apply ewp_bind, ewp_catch, ewp_bind, ewp_perform. intros [[]|e|] Hd; simpl in *; [| |done].
    + apply ewp_ret, ewp_bind, ewp_modify, ewp_ret. simpl. split; [done|].
      rewrite !run_of_update, Er. simpl. split; [intros r' [= <-]; split; [done|apply start_failed_row]|].
      intros ->. right. eexists. split; [apply start_failed_row|]. apply answered_here; [done|exact Hd].
    + apply ewp_bind, ewp_modify, ewp_ret, ewp_bind, ewp_modify, ewp_ret. simpl.
      split; [done|]. rewrite !run_of_update, Er. simpl. split; [|done].
      intros r' [= <-]. split; [done|]. eapply start_failed_fenced, start_failed_row.
  - apply ewp_ret. simpl. split; [done|]. rewrite Er. split; [done|auto].
Qed.

(** ** The whole clause *)

Lemma only_ignoring p caught (m : V unit) : only p m -> only p (ignoring caught m).
Proof. intros Hm. unfold ignoring. by repeat first [done|only_step]. Qed.

Lemma only_or_else {A} p caught (m : V A) x : only p m -> only p (or_else caught m x).
Proof. intros Hm. unfold or_else. by repeat first [done|only_step]. Qed.

(** [m] gives no lease back, and what it answers is backed. *)
Lemma wp_knows {A B} (Q : A -> nat -> list scall -> Prop) (m : V A) (f : A -> V B)
    (R : reply B -> st scall service -> Prop) n h0 st k :
  only quiet m -> knows Q m ->
  hist st = h0 ++ k -> Forall quiet k -> (n <= length (hist st))%nat ->
  (forall x st' k', hist st' = h0 ++ k' -> Forall quiet k' ->
     (exists k2, hist st' = hist st ++ k2) ->
     match x with Done b => Q b n (hist st') -> ewp (f b) R st'
                | Raised e => R (Raised e) st' | Interrupted => R Interrupted st' end) ->
  ewp (m ≫= f) R st.
Proof.
  intros Honly Hq Hk Hkeep Hn Hgo. apply ewp_bind. eapply ewp_only; [exact Honly|].
  eapply ewp_mono; [by apply Hq|]. intros x st' Hx k2 Hk2 Hkeep2.
  assert (Hall : Forall quiet (k ++ k2)) by by apply Forall_app.
  assert (Heq : hist st' = h0 ++ k ++ k2) by by rewrite Hk2, Hk, app_assoc.
  specialize (Hgo x st' (k ++ k2) Heq Hall (ex_intro _ k2 Hk2)). destruct x; auto.
Qed.

(** Evidence stays when more calls are made. *)
Definition extends (h h' : list scall) : Prop := exists k, h' = h ++ k.

Lemma extends_trans h1 h2 h3 : extends h1 h2 -> extends h2 h3 -> extends h1 h3.
Proof. intros [k1 ->] [k2 ->]. exists (k1 ++ k2). by rewrite app_assoc. Qed.

Lemma answered_extends n h h' c ok : extends h h' -> answered n h c ok -> answered n h' c ok.
Proof. intros [k ->]. apply answered_app. Qed.

Lemma process_ended_extends n h h' : extends h h' -> process_ended n h -> process_ended n h'.
Proof.
  intros Hx Hp pid Hpid. destruct (Hp pid Hpid) as [code Hc]. exists code.
  by eapply answered_extends.
Qed.

Lemma cgroup_emptied_extends n h h' : extends h h' -> cgroup_emptied n h -> cgroup_emptied n h'.
Proof. intros Hx Hc Ha Hp. eapply answered_extends; [done|by apply Hc]. Qed.

Lemma cgroup_certified_extends n h h' q :
  extends h h' -> cgroup_certified n h q -> cgroup_certified n h' q.
Proof.
  intros Hx (i & j & Hi & Hq & Hc). exists i, j. split; [done|]. split; [done|].
  by eapply answered_extends.
Qed.

Lemma observer_finished_extends n h h' :
  extends h h' -> observer_finished n h -> observer_finished n h'.
Proof. intros Hx Ho pid Hs Hp. eapply answered_extends; [done|by apply Ho]. Qed.

Lemma features_finished_extends n h h' :
  extends h h' -> features_finished n h -> features_finished n h'.
Proof.
  intros Hx Hf x Hxx. destruct (Hf x Hxx) as (q & r & Hq & Hr). exists q, r.
  split; [by eapply cgroup_certified_extends|by eapply answered_extends].
Qed.

Lemma cgroup_gone_extends n h h' : extends h h' -> cgroup_gone n h -> cgroup_gone n h'.
Proof. intros Hx Hg Ha. eapply answered_extends; [done|by apply Hg]. Qed.

Lemma only_kill_launch : only quiet (kill_launch a s l).
Proof.
  unfold kill_launch, poll, kill_cgroup, kill_process.
  by repeat first [apply only_ignoring|apply only_out|only_step].
Qed.

Lemma only_launch_empty : only quiet (launch_empty a s l).
Proof.
  unfold launch_empty, poll. by repeat first [apply only_or_else|apply only_out|only_step].
Qed.

Lemma only_launch_quiescence empty : only quiet (launch_quiescence a s l empty).
Proof.
  unfold launch_quiescence, quiesce_cgroup.
  by repeat first [apply only_or_else|apply only_out|only_step].
Qed.

Lemma only_launch_tracker empty : only quiet (launch_tracker l empty).
Proof.
  unfold launch_tracker, finish_observer.
  by repeat first [apply only_or_else|apply only_out|only_step].
Qed.

Lemma only_launch_features empty q : only quiet (launch_features id l empty q).
Proof.
  unfold launch_features, finish_plugins, close_unverified, on_row, on_run.
  by repeat first [apply only_out|only_step].
Qed.

Lemma only_launch_removed safe : only quiet (launch_removed a s l safe).
Proof.
  unfold launch_removed, remove_cgroup. by repeat first [apply only_or_else|apply only_out|only_step].
Qed.

Lemma only_fail_run safe error : only quiet (fail_run id l safe error).
Proof.
  unfold fail_run, forget_cookie, on_row, on_run, save_durable. apply only_locked.
  by repeat first [apply only_the_run|only_step].
Qed.

Lemma only_close_pidfd fd : only quiet (_close_pidfd fd).
Proof. unfold _close_pidfd. by repeat first [apply only_ignoring|apply only_out|only_step]. Qed.

(** Nothing to know. *)
Lemma knows_nothing {A} (m : V A) : knows (fun _ _ _ => True) m.
Proof. intros n st _. eapply ewp_mono; [apply ewp_true|]. by intros []. Qed.

(** How the clause ends: the lease goes back as the last call, on evidence, or
    it stays and the run is fenced. *)
Definition settled (h0 : list scall) (x : reply unit) (st' : st scall service) : Prop :=
  (exists k, hist st' = h0 ++ k /\ Forall quiet k /\
             (x = Done () -> run_failed false (obj st'))) \/
  (exists k, x = Done () /\ hist st' = (h0 ++ k) ++ [SRelease token] /\ Forall quiet k /\
             given_back (length h0) (h0 ++ k)).

(** From [fail_run] on. *)
Lemma wp_settle_end safe error h0 k st :
  hist st = h0 ++ k -> Forall quiet k ->
  (safe = true -> given_back (length h0) (hist st)) ->
  ewp (release_safe ← fail_run id l safe error;
       if (release_safe : bool) then yield_;; release_lease token else mret ())
    (settled h0) st.
Proof.
  intros Hk Hkeep Hgiven. apply ewp_bind. eapply ewp_only; [apply only_fail_run|].
  assert (Hn : (length h0 <= length (hist st))%nat) by (rewrite Hk, length_app; lia).
  eapply ewp_mono; [by apply (wp_fail_run safe error (length h0))|].
  intros x st' Hx k2 Hk2 Hkeep2. rewrite Hk, <- app_assoc in Hk2.
  assert (Hall : Forall quiet (k ++ k2)) by by apply Forall_app.
  destruct x as [[]|e|]; [| |left; by exists (k ++ k2)|left; by exists (k ++ k2)].
  - destruct Hx as (Hs & _ & _). specialize (Hgiven (Hs eq_refl)).
    unfold yield_, release_lease. apply ewp_bind, ewp_interleave, ewp_bind, ewp_interleave.
    apply ewp_bind, ewp_perform. intros y <-. apply ewp_modify. right. exists (k ++ k2). simpl.
    rewrite Hk2. split; [done|]. split; [done|]. split; [done|].
    destruct Hgiven as (Ha & Hb & Hc & Hd & He). rewrite Hk in Ha, Hb, Hc, Hd, He.
    assert (Hx : extends (h0 ++ k) (h0 ++ k ++ k2)) by (exists k2; by rewrite <- app_assoc).
    split; [by eapply process_ended_extends|]. split; [by eapply cgroup_emptied_extends|].
    split; [by eapply observer_finished_extends|]. split; [by eapply features_finished_extends|].
    by eapply cgroup_gone_extends.
  - apply ewp_ret. left. exists (k ++ k2). by destruct Hx as (_ & Hrun & _).
Qed.

Lemma wp_settle_launch error st :
  ewp (settle_launch a s id token l error) (settled (hist st)) st.
Proof.
  assert (Hkept : forall k x st', hist st' = hist st ++ k -> Forall quiet k -> x <> Done () ->
    settled (hist st) x st') by (intros k x st' Hk Hf Hx; left; by exists k).
  assert (Hlen : forall h k, h = hist st ++ k -> (length (hist st) <= length h)%nat)
    by (intros h k ->; rewrite length_app; lia).
  unfold settle_launch.
  eapply (wp_knows (fun _ _ _ => True)) with (k := []); [apply only_close_pidfd|apply knows_nothing|by rewrite app_nil_r|done|apply le_n|].
  intros [[]|e|] st1 k1 Hk1 Hf1 _; [intros _|by eapply Hkept..].
  eapply (wp_knows (fun _ _ _ => True)); [apply only_kill_launch|apply knows_nothing|done|done|by eapply Hlen|].
  intros [[]|e|] st2 k2 Hk2 Hf2 _; [intros _|by eapply Hkept..].
  eapply wp_knows; [apply only_launch_empty|apply knows_empty|done|done|by eapply Hlen|].
  intros [empty|e|] st3 k3 Hk3 Hf3 _; [intros He|by eapply Hkept..].
  eapply wp_knows; [apply only_launch_quiescence|apply knows_quiescence|done|done|by eapply Hlen|].
  intros [[empty' q]|e|] st4 k4 Hk4 Hf4 Hx4; [intros [Hee Hq]|by eapply Hkept..]. simpl in Hee, Hq.
  eapply wp_knows; [apply only_launch_tracker|apply knows_tracker|done|done|by eapply Hlen|].
  intros [tracked|e|] st5 k5 Hk5 Hf5 Hx5; [intros Ht|by eapply Hkept..].
  eapply wp_knows; [apply only_launch_features|apply knows_features|done|done|by eapply Hlen|].
  intros [finished|e|] st6 k6 Hk6 Hf6 Hx6; [intros Hfin|by eapply Hkept..].
  eapply wp_knows; [apply only_launch_removed|apply knows_removed|done|done|by eapply Hlen|].
  intros [safe|e|] st7 k7 Hk7 Hf7 Hx7; [intros Hrem|by eapply Hkept..].
  eapply wp_settle_end; [done|done|]. intros Hsafe. destruct (Hrem Hsafe) as [Hall Hgone].
  apply andb_prop in Hall as [[Hempty Htrack]%andb_prop Hfeat].
  destruct (He (Hee Hempty)) as [Hp Hc].
  pose proof (extends_trans _ _ _ Hx6 Hx7) as Hx57.
  pose proof (extends_trans _ _ _ Hx5 Hx57) as Hx47.
  pose proof (extends_trans _ _ _ Hx4 Hx47) as Hx37.
  pose proof (extends_trans _ _ _ Hx5 Hx6) as Hx46.
  split; [by eapply process_ended_extends|]. split; [by eapply cgroup_emptied_extends|].
  split; [eapply observer_finished_extends; [exact Hx57|exact (Ht Htrack Hempty)]|].
  split; [|done]. eapply features_finished_extends; [exact Hx7|]. apply Hfin; [done|].
  intros q' E. eapply cgroup_certified_extends; [exact Hx46|by apply Hq].
Qed.
End settle.
