(* ===== verification/LaunchSpec.v ===== *)
(** * Nothing a launch obtains is forgotten

    Each call that obtains something is followed at once by the local variable
    that records it, so that the clause for a failed start knows of it. *)

From Stdlib Require Import Ascii.
From Stdlib Require String.
From stdpp Require Import gmap pretty.
From S2P Require Import Prelude Effects PyVal Ids Kernel Cgroup Extensions Registry.
From S2P Require Import Sandbox Runs Launch RunStable Unwind UnwindSpec DemoRuns.
Open Scope Z_scope.

Section launch.
Context `{StoreService} `{Cgroups} `{Observer} `{ExecutionPlugins} `{Platform}.

(** ** The account of a launch *)

(** What the local variables must say of a call that obtained something. *)
Definition recorded (l : locals) (c : scall) (h : list scall) : Prop :=
  match c with
  | XSpawn => forall pid, x_spawn h = Done pid -> lo_process l = Some pid
  | GAttach a s pid => forall p, g_attach h a s pid = Done p ->
      lo_attached l = true /\ lo_process l = Some pid
  | OSeed pid cookie => o_seed h pid cookie = Done () ->
      lo_seeded l = true /\ lo_process l = Some pid /\ lo_cookie l = cookie
  | FStart ctx => forall x, f_start_execution h ctx = Done x -> lo_feature l = Some x
  | _ => True
  end.

Definition accounted (l : locals) (h0 k : list scall) : Prop :=
  forall k1 c k2, k = k1 ++ c :: k2 -> recorded l c (h0 ++ k1).

Lemma quiet_recorded l c h : quiet c -> recorded l c h.
Proof. by destruct c. Qed.

Lemma accounted_nil l h0 : accounted l h0 [].
Proof. intros k1 c k2 E. by destruct k1. Qed.

Lemma accounted_snoc l h0 k c :
  accounted l h0 k -> recorded l c (h0 ++ k) -> accounted l h0 (k ++ [c]).
Proof.
  intros Ha Hc k1 c' k2 E. destruct k2 as [|c2 k2 _] using rev_ind.
  - apply app_inj_tail in E as [-> ->]. done.
  - rewrite app_comm_cons, app_assoc in E. apply app_inj_tail in E as [-> _]. by eapply Ha.
Qed.

Lemma accounted_quiet l h0 k k2 :
  accounted l h0 k -> Forall quiet k2 -> accounted l h0 (k ++ k2).
Proof.
  intros Ha Hq. induction k2 as [|c k2 IH] using rev_ind; [by rewrite app_nil_r|].
  apply Forall_app in Hq as [Hq Hc]. rewrite app_assoc. apply accounted_snoc; [by apply IH|].
  apply quiet_recorded. by apply Forall_cons in Hc as [? _].
Qed.

Lemma accounted_mono l l' h0 k :
  (forall c h, recorded l c h -> recorded l' c h) -> accounted l h0 k -> accounted l' h0 k.
Proof. intros Hm Ha k1 c k2 E. apply Hm. by eapply Ha. Qed.

(** What holds all along a launch that began after the calls [h0]. *)
Definition tracked (h0 : list scall) (s : st scall (service * locals)) : Prop :=
  exists k, hist s = h0 ++ k /\ Forall keeps_lease k /\ accounted (snd (obj s)) h0 k.

Lemma tracked_quiet h0 s k s' :
  tracked h0 s -> hist s' = hist s ++ k -> Forall quiet k -> snd (obj s') = snd (obj s) ->
  tracked h0 s'.
Proof.
  intros (k0 & Hk0 & Hf & Ha) Hk Hq Hl. exists (k0 ++ k). rewrite Hk, Hk0, app_assoc, Hl.
  split; [done|]. split; [|by apply accounted_quiet].
  apply Forall_app. split; [done|]. eapply Forall_impl; [exact Hq|]. apply quiet_keeps.
Qed.

(** The local variables may say more than before. *)
Definition says_more (l l' : locals) : Prop := forall c h, recorded l c h -> recorded l' c h.

Lemma tracked_local h0 s s' :
  tracked h0 s -> hist s' = hist s -> says_more (snd (obj s)) (snd (obj s')) -> tracked h0 s'.
Proof.
  intros (k & Hk & Hf & Ha) Hh Hm. exists k. rewrite Hh. split; [done|]. split; [done|].
  by eapply accounted_mono.
Qed.

(** The call [c] is made and then recorded. *)
Lemma tracked_call h0 s c s' :
  tracked h0 s -> keeps_lease c -> hist s' = hist s ++ [c] ->
  says_more (snd (obj s)) (snd (obj s')) -> recorded (snd (obj s')) c (hist s) -> tracked h0 s'.
Proof.
  intros (k & Hk & Hf & Ha) Hc Hh Hm Hr. exists (k ++ [c]). rewrite Hh, Hk, app_assoc.
  split; [done|]. split; [apply Forall_app; split; [done|by constructor]|].
  apply accounted_snoc; [by eapply accounted_mono|]. by rewrite <- Hk.
Qed.

(** ** The steps *)

Lemma wp_sv_quiet {A} h0 (m : V A) s (Q : reply A -> st scall (service * locals) -> Prop) :
  tracked h0 s -> only quiet m ->
  (forall x s', tracked h0 s' -> snd (obj s') = snd (obj s) -> Q x s') ->
  ewp (sv m) Q s.
Proof.
  intros Ht Hm HQ. apply ewp_zoom. eapply ewp_only; [exact Hm|].
  eapply ewp_mono; [apply ewp_true|]. intros x s' _ k Hk Hq. apply HQ; [|done].
  eapply tracked_quiet; [exact Ht|simpl; exact Hk|done|done].
Qed.

Lemma wp_quiet {A B} h0 (m : V A) (f : A -> L B) (s : st scall (service * locals)) l :
  snd (obj s) = l -> tracked h0 s -> only quiet m ->
  (forall a s', snd (obj s') = l -> tracked h0 s' -> ewp (f a) (fun _ s'' => tracked h0 s'') s') ->
  ewp (sv m ≫= f) (fun _ s' => tracked h0 s') s.
Proof.
  intros Hl Ht Hm Hf. apply ewp_bind. eapply wp_sv_quiet; [done|done|].
  intros [a|e|] s' Ht' Hl'; [|done..]. apply Hf; [|done]. by rewrite Hl', Hl.
Qed.

(** A call that obtained something, not yet recorded. *)
Definition pending {A} (h0 : list scall) (c : scall) (answer : list scall -> reply A) (a : A)
    (l : locals) (s : st scall (service * locals)) : Prop :=
  exists s0, tracked h0 s0 /\ hist s = hist s0 ++ [c] /\ snd (obj s0) = l /\ snd (obj s) = l /\
             answer (hist s0) = Done a.

Lemma wp_obtain {A B} h0 c (answer : list scall -> reply A) (f : A -> L B)
    (s : st scall (service * locals)) l :
  snd (obj s) = l -> tracked h0 s -> keeps_lease c ->
  (forall h, (forall a, answer h <> Done a) -> recorded l c h) ->
  (forall a s', pending h0 c answer a l s' -> ewp (f a) (fun _ s'' => tracked h0 s'') s') ->
  ewp (x ← sv (out c answer); f x) (fun _ s' => tracked h0 s') s.
Proof.
  intros Hl Ht Hc Hno Hf. apply ewp_bind, ewp_zoom, wp_out. intros o x Hx. simpl in *.
  assert (Hsame : forall s', hist s' = hist s ++ [c] -> snd (obj s') = l ->
            (forall a, x <> Done a) -> tracked h0 s').
  { intros s' Hh Hl' Hnx. eapply (tracked_call h0 s c); [done|done|done|..].
    - rewrite Hl', Hl. by intros ? ?.
    - rewrite Hl'. apply Hno. by rewrite Hx. }
  destruct x as [a|e|]; [|by apply Hsame..]. apply Hf. by exists s.
Qed.

(** Its record. *)
Lemma wp_record {A B} h0 c (answer : list scall -> reply A) a (note : locals -> locals)
    (m : L B) s l :
  pending h0 c answer a l s -> keeps_lease c -> says_more l (note l) ->
  (forall h, answer h = Done a -> recorded (note l) c h) ->
  (forall s', snd (obj s') = note l -> tracked h0 s' -> ewp m (fun _ s'' => tracked h0 s'') s') ->
  ewp (set_local note;; m) (fun _ s' => tracked h0 s') s.
Proof.
  intros (s0 & Ht & Hh & Hl0 & Hl & Ha) Hc Hm Hr Hgo. apply ewp_bind, ewp_modify.
  apply Hgo; [by simpl; rewrite Hl|].
  eapply (tracked_call h0 s0 c); [done|done|exact Hh|..]; simpl; rewrite ?Hl0, Hl; [done|].
  by apply Hr.
Qed.

(** A local variable that only adds. *)
Lemma wp_note {B} h0 (g : locals -> locals) (m : L B) (s : st scall (service * locals)) l :
  snd (obj s) = l -> tracked h0 s -> says_more l (g l) ->
  (forall s', snd (obj s') = g l -> tracked h0 s' -> ewp m (fun _ s'' => tracked h0 s'') s') ->
  ewp (set_local g;; m) (fun _ s' => tracked h0 s') s.
Proof.
  intros Hl Ht Hm Hgo. apply ewp_bind, ewp_modify. apply Hgo; [by simpl; rewrite Hl|].
  eapply tracked_local; [exact Ht|done|]. simpl. by rewrite Hl.
Qed.

(** ** Before anything is obtained *)

Lemma only_sv {A} p (m : V A) : only p m -> only p (sv m).
Proof. apply only_zoom. Qed.

Lemma only_set_local p f : only p (set_local f).
Proof. apply only_modify. Qed.

Lemma only_yield p : only p yield_.
Proof. apply only_interleave. Qed.

Lemma only_choose a s run_id recovery_id d :
  only quiet (choose_checkpoint a s run_id recovery_id d).
Proof.
  unfold choose_checkpoint. destruct (dgetn "checkpoint_id" d);
    by repeat first [apply only_out|only_step].
Qed.

Lemma only_plan a s run_id recovery : only quiet (_prepare_recovery_plan a s run_id recovery).
Proof.
  unfold _prepare_recovery_plan. destruct recovery; try apply only_throw; try apply only_ret.
  by repeat first [apply only_choose|only_step].
Qed.

Lemma only_fresh_cookie n : only quiet (fresh_cookie n).
Proof.
  induction n as [|n IH]; simpl.
  - apply only_sv, only_same. by intros s.
  - unfold local, draw_cookie.
    by repeat first [apply only_sv|apply only_set_local|exact IH|only_step].
Qed.

Lemma only_register audit boot fuel rq plan : only quiet (register_run audit boot fuel rq plan).
Proof.
  unfold register_run, save, local.
  by repeat first [apply only_sv|apply only_yield|apply only_set_local|apply only_fresh_cookie
                  |apply only_perform|only_step].
Qed.

(** Only the cookie of the local variables has changed. *)
Definition still_new : relation (service * locals) := fun o o' =>
  (exists c, o.2 = new_locals c) -> exists c, o'.2 = new_locals c.

#[local] Instance still_new_preorder : PreOrder still_new.
Proof. split; unfold still_new; [intros o Ho; exact Ho|]. intros a b c Hab Hbc Ha. auto. Qed.

Lemma moves_sv {A} (m : V A) : moves still_new (sv m).
Proof. intros s Hs. unfold sv, zoom. by destruct (m _). Qed.

Lemma moves_fresh_cookie n : moves still_new (fresh_cookie n).
Proof.
  induction n as [|n IH]; simpl; [apply moves_sv|]. unfold local.
  apply moves_bind; [exact _|apply moves_read, _|]. intros c.
  apply moves_bind; [exact _|apply moves_sv|]. intros []; [|apply moves_ret, _].
  apply moves_bind; [exact _|apply moves_sv|]. intros c'.
  apply moves_bind; [exact _| |intros []; exact IH].
  apply moves_modify. intros o [c0 E]. exists c'. simpl. by rewrite E.
Qed.

Lemma moves_register audit boot fuel rq plan : moves still_new (register_run audit boot fuel rq plan).
Proof.
  unfold register_run, local.
  repeat first [apply moves_sv|apply moves_fresh_cookie
    | match goal with
      | |- moves _ (match ?x with _ => _ end) => destruct x
      | |- moves _ (if ?x then _ else _) => destruct x
      end | moves_step].
Qed.

(** ** The launch *)

Ltac recorded_case :=
  let c := fresh "c" in let h := fresh "h" in
  intros c h; destruct c; simpl; (done || naive_solver).

Lemma says_more_process c pid : says_more (new_locals c) (lo_set_process pid (new_locals c)).
Proof. recorded_case. Qed.

Lemma says_more_attached l : says_more l (lo_set_attached l).
Proof. recorded_case. Qed.

Lemma says_more_identity i l : says_more l (lo_set_identity i l).
Proof. recorded_case. Qed.

Lemma says_more_seeded l : says_more l (lo_set_seeded l).
Proof. recorded_case. Qed.

Lemma says_more_target p l : says_more l (lo_set_target p l).
Proof. recorded_case. Qed.

Lemma says_more_pidfd fd l : says_more l (lo_set_pidfd fd l).
Proof. recorded_case. Qed.

Lemma says_more_feature x l : lo_feature l = None -> says_more l (lo_set_feature x l).
Proof. intros Hl. recorded_case. Qed.

Lemma wp_done_tracked {A} h0 (m : V A) s :
  tracked h0 s -> only quiet m -> ewp (sv m) (fun _ s' => tracked h0 s') s.
Proof. intros Ht Hm. by eapply wp_sv_quiet. Qed.

Lemma only_await_stopped n pid deadline : only quiet (await_stopped n pid deadline).
Proof.
  revert pid deadline. induction n as [|n IH]; intros pid deadline; simpl.
  - by apply only_same.
  - unfold clock, pause. by repeat first [apply only_out|apply IH|only_step].
Qed.

Lemma only_wait_stopped n pid t : only quiet (_wait_stopped n pid t).
Proof.
  unfold _wait_stopped, clock. apply only_bind; [by apply only_out|]. intros c.
  apply only_await_stopped.
Qed.

Lemma only_stopped_pids launcher pids : only quiet (stopped_pids launcher pids).
Proof.
  induction pids as [|pid pids IH]; simpl; [apply only_ret|].
  by repeat first [apply only_out|apply IH|only_step].
Qed.

Lemma only_await_inner n launcher a s deadline : only quiet (await_inner_gate n launcher a s deadline).
Proof.
  revert deadline. induction n as [|n IH]; intros deadline; simpl.
  - by apply only_same.
  - unfold clock, pause, poll.
    by repeat first [apply only_out|apply IH|apply only_stopped_pids|only_step].
Qed.

Lemma only_wait_inner n launcher a s t : only quiet (_wait_inner_gate n launcher a s t).
Proof.
  unfold _wait_inner_gate, clock. apply only_bind; [by apply only_out|]. intros c.
  apply only_await_inner.
Qed.

Lemma only_wrapping {A} p caught what (m : V A) : only p m -> only p (wrapping caught what m).
Proof. intros Hm. unfold wrapping. by repeat first [done|only_step]. Qed.

Lemma only_signal fd n : only quiet (_pidfd_send_signal fd n).
Proof. unfold _pidfd_send_signal. apply only_wrapping. by apply only_out. Qed.

Lemma only_namespace pid ns : only quiet (_namespace_inode pid ns).
Proof.
  unfold _namespace_inode. apply only_bind; [apply only_wrapping; by apply only_out|].
  intros i. by repeat only_step.
Qed.

Lemma only_owned a s pid msg : only quiet (owned a s pid msg).
Proof. unfold owned. by repeat first [apply only_out|only_step]. Qed.

Lemma only_target a s pid fd phase : only quiet (_target_identity a s pid fd phase).
Proof.
  unfold _target_identity.
  by repeat first [apply only_signal|apply only_owned|apply only_namespace|only_step].
Qed.

Lemma only_on_run p id f : only p (locked (on_run id f)).
Proof. apply only_locked, only_modify. Qed.

Lemma only_mark_running rq pid target h cgroup : only quiet (mark_running rq pid target h cgroup).
Proof.
  unfold mark_running, on_row, on_run, save, save_durable. apply only_locked.
  by repeat first [apply only_the_run|apply only_perform|only_step].
Qed.

Lemma only_register_plugins id target h :
  only quiet (locked (on_run id (fun r => set_target (Some target) (set_feature (Some h) r));;
                      status ← perform (FStatus h) (fun l => f_status l h);
                      on_row id (dset "feature_runs" (PDict status)))).
Proof. apply only_locked. unfold on_row, on_run. by repeat first [apply only_perform|only_step]. Qed.

Lemma only_release_gate rq identity started : only quiet (release_gate rq identity started).
Proof.
  unfold release_gate. destruct started as [[[target fd] ns] h]. unfold healthy.
  by repeat first [apply only_sv|apply only_target|apply only_out|apply only_signal
                  |apply only_close_pidfd|apply only_set_local|only_step].
Qed.

(** What the locals say after the observer's seed, and after the plugins' start. *)
Definition seeded_locals (c pid : Z) (i : identity) : locals :=
  lo_set_seeded (lo_set_identity i (lo_set_attached (lo_set_process pid (new_locals c)))).

Lemma ewp_assoc {C O A B D} (m : P C O A) (g : A -> P C O B) (f : B -> P C O D) Q s :
  ewp (a ← m; b ← g a; f b) Q s -> ewp (b ← (a ← m; g a); f b) Q s.
Proof. unfold ewp, mbind, P_bind. by destruct (m s) as [[a|e|] s']. Qed.

(** The steps of a launch: an answer of each, and the locals after it. *)
Lemma wp_launch_gate {B} h0 fuel rq config (f : Z * identity * string -> L B) s c :
  snd (obj s) = new_locals c -> tracked h0 s ->
  (forall pid i g s', snd (obj s') = seeded_locals c pid i -> tracked h0 s' ->
     ewp (f (pid, i, g)) (fun _ s'' => tracked h0 s'') s') ->
  ewp (launch_gate fuel rq config ≫= f) (fun _ s' => tracked h0 s') s.
Proof.
  intros Hl Ht Hf. unfold launch_gate.
  apply ewp_assoc. eapply wp_obtain; [exact Hl|done|done| |].
  { intros h Hno pid Hp. by destruct (Hno pid). }
  intros pid s0 Hs0. apply ewp_assoc.
  eapply wp_record; [exact Hs0|done|apply says_more_process| |].
  { intros h Hp p Hp'. rewrite Hp in Hp'. by injection Hp' as <-. }
  intros s1 Hl1 Ht1.
  apply ewp_assoc. eapply wp_quiet; [exact Hl1|done|by apply only_out|]. intros _ s2 Hl2 Ht2.
  apply ewp_assoc. eapply wp_quiet; [exact Hl2|done|apply only_on_run|]. intros _ s3 Hl3 Ht3.
  apply ewp_assoc. eapply wp_quiet; [exact Hl3|done|apply only_wait_stopped|]. intros _ s4 Hl4 Ht4.
  apply ewp_assoc.
  eapply wp_obtain; [exact Hl4|done|done| |].
  { intros h Hno p Hp. by destruct (Hno p). }
  intros g s4' Hs4. apply ewp_assoc.
  eapply wp_record; [exact Hs4|done|apply says_more_attached|by intros h _ q Hq|].
  intros s5 Hl5 Ht5.
  apply ewp_assoc. eapply wp_quiet; [exact Hl5|done|by apply only_out|]. intros i s6 Hl6 Ht6.
  apply ewp_assoc. eapply wp_note; [exact Hl6|done|apply says_more_identity|]. intros s7 Hl7 Ht7.
  apply ewp_assoc. eapply wp_quiet; [exact Hl7|done|apply only_on_run|]. intros _ s8 Hl8 Ht8.
  apply ewp_assoc, ewp_bind, ewp_read. rewrite Hl8. simpl. apply ewp_assoc.
  eapply wp_obtain; [exact Hl8|done|done| |].
  { intros h Hno Hp. by destruct (Hno ()). }
  intros u s8' Hs8. apply ewp_assoc.
  eapply wp_record; [exact Hs8|done|apply says_more_seeded|by intros h _ _|].
  intros s9 Hl9 Ht9. apply ewp_bind, ewp_ret. by apply Hf.
Qed.

Lemma wp_start_plugins {B} h0 audit boot fuel rq plan epoch meta pid i
    (f : Z * Z * (Z * Z) * nat -> L B) s c :
  snd (obj s) = seeded_locals c pid i -> tracked h0 s ->
  (forall r s', tracked h0 s' -> ewp (f r) (fun _ s'' => tracked h0 s'') s') ->
  ewp (start_plugins audit boot fuel rq plan epoch meta pid i ≫= f) (fun _ s' => tracked h0 s') s.
Proof.
  intros Hl Ht Hf. unfold start_plugins, healthy.
  apply ewp_assoc. eapply wp_quiet; [exact Hl|done|by apply only_out|]. intros _ s1 Hl1 Ht1.
  apply ewp_assoc. eapply wp_quiet; [exact Hl1|done|apply only_wait_inner|]. intros target s2 Hl2 Ht2.
  apply ewp_assoc. eapply wp_note; [exact Hl2|done|apply says_more_target|]. intros s3 Hl3 Ht3.
  apply ewp_assoc. eapply wp_quiet; [exact Hl3|done|apply only_wrapping; by apply only_out|].
  intros fd s4 Hl4 Ht4.
  apply ewp_assoc. eapply wp_note; [exact Hl4|done|apply says_more_pidfd|]. intros s5 Hl5 Ht5.
  apply ewp_assoc. eapply wp_quiet; [exact Hl5|done|by apply only_out|]. intros _ s6 Hl6 Ht6.
  apply ewp_assoc. eapply wp_quiet; [exact Hl6|done|apply only_target|]. intros ns s7 Hl7 Ht7.
  apply ewp_assoc. set (ctx := ExecutionStartContext _ _ _ _ _ _ _ _ _ _ _ _ _ _).
  eapply wp_obtain; [exact Hl7|done|done| |].
  { intros h Hno x Hx. by destruct (Hno x). }
  intros h s7' Hs7. apply ewp_assoc.
  eapply wp_record; [exact Hs7|done|by apply says_more_feature| |].
  { intros h' Hx y Hy. rewrite Hx in Hy. by injection Hy as <-. }
  intros s8 Hl8 Ht8.
  apply ewp_assoc. eapply wp_quiet; [exact Hl8|done|by apply only_out|]. intros _ s9 Hl9 Ht9.
  apply ewp_assoc. eapply wp_quiet; [exact Hl9|done|apply only_register_plugins|]. intros _ s10 Hl10 Ht10.
  apply ewp_bind, ewp_ret. by apply Hf.
Qed.

(** ** The body of the start *)

Definition untouched (h0 : list scall) (s : st scall (service * locals)) : Prop :=
  (exists k, hist s = h0 ++ k /\ Forall quiet k) /\ exists c, snd (obj s) = new_locals c.

Lemma untouched_tracked h0 s : untouched h0 s -> tracked h0 s.
Proof.
  intros [(k & Hk & Hq) _]. exists k. split; [done|].
  split; [eapply Forall_impl; [exact Hq|apply quiet_keeps]|].
  apply (accounted_quiet _ h0 [] k); [apply accounted_nil|done].
Qed.

Lemma wp_untouched {A B} h0 (m : L A) (f : A -> L B) s :
  untouched h0 s -> only quiet m -> moves still_new m ->
  (forall a s', untouched h0 s' -> ewp (f a) (fun _ s'' => tracked h0 s'') s') ->
  ewp (m ≫= f) (fun _ s' => tracked h0 s') s.
Proof.
  intros Hu Hm Hmv Hf. apply ewp_bind. unfold ewp at 1.
  destruct (Hm s) as (k & Hk & Hq). specialize (Hmv s). destruct Hu as [(k0 & Hk0 & Hq0) Hc].
  assert (Hu' : untouched h0 (m s).2).
  { split; [|by apply Hmv]. exists (k0 ++ k). rewrite Hk, Hk0, app_assoc. split; [done|].
    by apply Forall_app. }
  destruct (m s) as [[a|e|] s']; [by apply Hf|by apply untouched_tracked..].
Qed.

Definition more_said : relation (service * locals) := fun o o' => says_more o.2 o'.2.

#[local] Instance more_said_preorder : PreOrder more_said.
Proof.
  split; unfold more_said, says_more; [by intros o c h|]. intros a b c Hab Hbc x h Hx. auto.
Qed.

Lemma moves_sv_more {A} (m : V A) : moves more_said (sv m).
Proof. intros s. unfold sv, zoom, more_said. destruct (m _). by intros c h. Qed.

Lemma moves_release_gate rq identity started : moves more_said (release_gate rq identity started).
Proof.
  unfold release_gate. destruct started as [[[target fd] ns] h].
  repeat first [apply moves_sv_more|moves_step].
  apply moves_modify. intros o. apply says_more_pidfd.
Qed.

Lemma wp_more {A} h0 (m : L A) s :
  tracked h0 s -> only quiet m -> moves more_said m ->
  ewp m (fun _ s' => tracked h0 s') s.
Proof.
  intros (k0 & Hk0 & Hf & Ha) Hm Hmv. destruct (Hm s) as (k & Hk & Hq). specialize (Hmv s).
  unfold ewp. exists (k0 ++ k). rewrite Hk, Hk0, app_assoc. split; [done|].
  split; [apply Forall_app; split; [done|]; eapply Forall_impl; [exact Hq|apply quiet_keeps]|].
  apply accounted_quiet; [|done]. by eapply accounted_mono.
Qed.

Lemma wp_after {A B} h0 (m : L A) (f : A -> L B) s :
  ewp m (fun _ s' => tracked h0 s') s ->
  (forall a s', tracked h0 s' -> ewp (f a) (fun _ s'' => tracked h0 s'') s') ->
  ewp (m ≫= f) (fun _ s' => tracked h0 s') s.
Proof.
  intros Hm Hf. apply ewp_bind. eapply ewp_mono; [exact Hm|].
  intros [a|e|] s' Ht; [by apply Hf|done..].
Qed.

Lemma wp_start_body audit boot fuel rq h0 s :
  untouched h0 s -> ewp (start_body audit boot fuel rq) (fun _ s' => tracked h0 s') s.
Proof.
  intros Hu. unfold start_body.
  apply wp_untouched; [done|apply only_sv, only_plan|apply moves_sv|]. intros plan s1 Hu1.
  apply wp_untouched; [done|apply only_register|apply moves_register|].
  intros [[config epoch] meta] s2 Hu2. pose proof Hu2 as [_ [c Hc]].
  eapply wp_launch_gate; [exact Hc|by apply untouched_tracked|]. intros pid i g s3 Hl3 Ht3.
  assert (Htail : forall s, tracked h0 s ->
    ewp (sv (locked (on_run (rq_run rq) (set_timer true)));;
         sv (out (XTimer (rq_run rq)) (fun l => x_timer l (rq_run rq)));;
         sv (out (XThread (rq_run rq)) (fun l => x_thread l (rq_run rq)));;
         r ← sv (locked (the_run (rq_run rq)));
         mret (r_row r)) (fun _ s' => tracked h0 s') s).
  { intros s4 Ht4. apply wp_more; [done| |].
    - repeat first [apply only_sv|apply only_on_run|apply only_out|apply only_locked
                   |apply only_the_run|done|only_step].
    - repeat first [apply moves_sv_more|moves_step]. }
  apply wp_after; [|intros _; apply Htail].
  destruct (f_present && f_lifecycle).
  - eapply wp_start_plugins; [exact Hl3|done|]. intros [[[target fd] ns] h] s4 Ht4.
    apply wp_after; [apply wp_done_tracked; [done|apply only_mark_running]|].
    intros _ s5 Ht5. apply wp_more; [done|apply only_release_gate|apply moves_release_gate].
  - apply wp_after; [apply wp_done_tracked; [done|apply only_mark_running]|].
    intros _ s5 Ht5. apply wp_done_tracked; [done|by apply only_out].
Qed.

(** ** The theorem *)

(** Whatever was obtained after the first [n] calls was given back. *)
Definition nothing_left (rq : start_request) (n : nat) (h : list scall) : Prop :=
  let a := rq_agent rq in
  let s := rq_session rq in
  (forall pid, answered n h XSpawn (fun h => x_spawn h = Done pid) ->
     exists code, answered n h (XPoll pid) (fun h => x_poll h pid = Done (Some code))) /\
  (forall pid p, answered n h (GAttach a s pid) (fun h => g_attach h a s pid = Done p) ->
     answered n h (GWaitEmpty a s 5) (fun h => g_wait_empty h a s 5 = Done true) /\
     answered n h (GRemove a s) (fun h => g_remove h a s = Done true)) /\
  (forall pid c, answered n h (OSeed pid c) (fun h => o_seed h pid c = Done ()) ->
     answered n h (OFinish pid c) (fun h => o_finish h pid c = Done ())) /\
  (forall ctx x, answered n h (FStart ctx) (fun h => f_start_execution h ctx = Done x) ->
     exists q i j result, q = quiescence_of j /\
       answered n h (GQuiesce a s (id_inode i)) (fun h => g_quiesce h a s (id_inode i) = Done j) /\
       answered n h (FFinish x "launch_failed" q)
         (fun h => f_finish h x "launch_failed" q = Done result)).

Lemma answered_split h0 k c ok :
  answered (length h0) (h0 ++ k) c ok -> exists k1 k2, k = k1 ++ c :: k2 /\ ok (h0 ++ k1).
Proof.
  intros (h1 & h2 & E & Hlen & Hok).
  destruct (app_eq_inv _ _ _ _ E) as [(x & E1 & E2)|(x & -> & E2)]; [|by exists x, h2].
  assert (x = []) as ->.
  { apply (f_equal length) in E1. rewrite length_app in E1. destruct x; [done|simpl in E1; lia]. }
  exists [], h2. simpl in E2. rewrite app_nil_r in *. by subst.
Qed.

(** What was obtained is in the account. *)
Lemma answered_recorded l h0 k k2 c (ok : list scall -> Prop) :
  accounted l h0 k -> Forall quiet k2 ->
  answered (length h0) ((h0 ++ k) ++ k2) c ok -> ~ quiet c ->
  exists h, ok h /\ recorded l c h.
Proof.
  intros Ha Hq Hans Hc. rewrite <- app_assoc in Hans.
  apply answered_split in Hans as (k1 & k3 & E & Hok). exists (h0 ++ k1). split; [done|].
  by apply (accounted_quiet l h0 k k2 Ha Hq) with k3.
Qed.

Lemma given_back_nothing_left rq l h0 k k2 :
  accounted l h0 k -> Forall quiet k2 ->
  given_back (rq_agent rq) (rq_session rq) l (length (h0 ++ k)) ((h0 ++ k) ++ k2) ->
  nothing_left rq (length h0) ((h0 ++ k) ++ k2).
Proof.
  intros Ha Hq (Hp & Hc & Ho & Hf & Hg).
  assert (Hlow : forall c ok, answered (length (h0 ++ k)) ((h0 ++ k) ++ k2) c ok ->
            answered (length h0) ((h0 ++ k) ++ k2) c ok).
  { intros c ok (h1 & h2 & E & Hl & Hok). exists h1, h2. split; [done|].
    rewrite length_app in Hl. split; [lia|done]. }
  split; [|split; [|split]].
  - intros pid Hx. destruct (answered_recorded l h0 k k2 _ _ Ha Hq Hx (fun x => x))
      as (h & Hok & Hr). destruct (Hp pid (Hr pid Hok)) as [code Hcode]. exists code. by apply Hlow.
  - intros pid p Hx. destruct (answered_recorded l h0 k k2 _ _ Ha Hq Hx (fun x => x))
      as (h & Hok & Hr). destruct (Hr p Hok) as [Hatt Hproc].
    split; apply Hlow; [by apply Hc; [|exists pid]|by apply Hg].
  - intros pid c Hx. destruct (answered_recorded l h0 k k2 _ _ Ha Hq Hx (fun x => x))
      as (h & Hok & Hr). destruct (Hr Hok) as (Hs & Hproc & <-). apply Hlow. by apply Ho.
  - intros ctx x Hx. destruct (answered_recorded l h0 k k2 _ _ Ha Hq Hx (fun x => x))
      as (h & Hok & Hr).
    destruct (Hf x (Hr x Hok)) as (q & result & (i & j & _ & -> & Hq') & Hfin).
    exists (quiescence_of j), i, j, result.
    split; [done|]. split; by apply Hlow.
Qed.

Definition launch_of (audit boot : string) (fuel : nat) (rq : start_request) (cookie : Z) : V dict :=
  with_locals (new_locals cookie) (guarded_start audit boot fuel rq).

(** C5: a launch that fails gives the session's lease back only when nothing it
    obtained is left.  Whatever the collaborators answer and the other threads
    do, a launch that succeeds releases no lease; one that fails releases at
    most its own, as its last call, and then the process it spawned has ended,
    the cgroup it was attached to was seen empty and was removed, the observer
    it was made known to has finished, and the plugins started for it have
    finished on a cgroup certified quiescent. *)
Theorem failed_launch_leaves_nothing audit boot fuel rq cookie s :
  ewp (launch_of audit boot fuel rq cookie) (fun x s' =>
    exists k, Forall keeps_lease k /\
      (hist s' = hist s ++ k \/
       ((forall row, x <> Done row) /\ hist s' = (hist s ++ k) ++ [SRelease (rq_lease rq)] /\
        nothing_left rq (length (hist s)) (hist s ++ k)))) s.
Proof.
  unfold launch_of. apply ewp_with_locals. unfold guarded_start. apply ewp_unwinding_with.
  eapply ewp_mono.
  { apply (wp_start_body _ _ _ _ (hist s)). split; [exists []; simpl; by rewrite app_nil_r|].
    by exists cookie. }
  intros x s1 (k & Hk & Hkeep & Hacc).
  assert (Hfail : forall x error, (forall row : dict, x <> Done row) ->
    ewp (fail_launch rq error) (fun r' s'' =>
      let Q := fun (y : reply dict) => exists k, Forall keeps_lease k /\
        (hist s'' = hist s ++ k \/
         ((forall row, y <> Done row) /\ hist s'' = (hist s ++ k) ++ [SRelease (rq_lease rq)] /\
          nothing_left rq (length (hist s)) (hist s ++ k))) in
      match r' with Done _ => Q x | Raised e => Q (Raised e) | Interrupted => Q Interrupted end) s1).
  { clear x. intros x error Hx. unfold fail_launch, local. apply ewp_bind, ewp_read, ewp_zoom.
    eapply ewp_mono; [apply wp_settle_launch|]. simpl. intros y s2 Hsettled.
    assert (Hq : exists k, Forall keeps_lease k /\ (hist s2 = hist s ++ k \/
        y = Done () /\ hist s2 = (hist s ++ k) ++ [SRelease (rq_lease rq)] /\
        nothing_left rq (length (hist s)) (hist s ++ k))).
    { destruct Hsettled as [(k2 & Hk2 & Hq2 & _)|(k2 & -> & Hk2 & Hq2 & Hgiven)]; simpl in *;
        exists (k ++ k2); (split; [apply Forall_app; split; [done|];
          eapply Forall_impl; [exact Hq2|apply quiet_keeps]|]); rewrite app_assoc, <- Hk.
      - by left.
      - right. split; [done|]. split; [done|]. rewrite Hk in *. by eapply given_back_nothing_left. }
    destruct Hq as (k2 & Hk2 & [Hh|(-> & Hh & Hn)]).
    - destruct y; exists k2; auto.
    - exists k2. auto. }
  destruct x as [row|e|]; [|by apply Hfail..]. exists k. auto.
Qed.

(** C30: the clause for a failed start decides about the lease.  It releases the
    lease only when the process has ended, its cgroup was empty, the observer
    and the plugins have finished and the cgroup was removed; when it gets to
    its end without a release, the run is done, failed and fenced. *)
Theorem failed_start_settles a s id token l error st :
  ewp (settle_launch a s id token l error) (fun x st' =>
    (exists k, hist st' = hist st ++ k /\ Forall keeps_lease k /\
               (x = Done () -> run_failed id false (obj st'))) \/
    (exists k, x = Done () /\ hist st' = (hist st ++ k) ++ [SRelease token] /\
               Forall keeps_lease k /\ given_back a s l (length (hist st)) (hist st ++ k))) st.
Proof.
  eapply ewp_mono; [apply wp_settle_launch|].
  assert (Hkeeps : forall k, Forall quiet k -> Forall keeps_lease k).
  { intros k Hq. eapply Forall_impl; [exact Hq|apply quiet_keeps]. }
  intros x st' [(k & Hk & Hq & Hx)|(k & Hx & Hk & Hq & Hg)]; [left|right]; exists k; auto.
Qed.
End launch.
