(* ===== verification/Restart.v ===== *)
(** * After a restart of the daemon

    The part of [ProcessTrackingService.__init__] that reads the state files of
    earlier runs: a run that had not ended, or had ended fenced, is interrupted,
    and its session gets a lease that nobody will give back. *)

From Stdlib Require Import Ascii.
From Stdlib Require String.
From stdpp Require Import gmap pretty.
From S2P Require Import Prelude Effects PyVal Ids Kernel Cgroup Extensions Registry Runs Launch.
From S2P Require Import DemoRuns.
Open Scope Z_scope.

(** [row["state"] in {"starting", "running"} or row.get("session_fenced")] *)
Definition unfinished_run (row : dict) : result bool :=
  state ← dindex "state" row;
  active ← in_set state [PStr "starting"; PStr "running"];
  Ok (active || py_truthy (dgetn "session_fenced" row)).

(** The status of a plugin that was not finalized. *)
Definition interrupt_status (kv : string * pyval) : string * pyval :=
  match kv.2 with
  | PDict status =>
      if py_eqb (dgetn "status" status) (PStr "finalized") then kv
      else (kv.1, PDict (dset "status" (PStr "interrupted") status))
  | _ => kv
  end.

(** [if task.get("alive"): task["alive"] = None] *)
Definition interrupt_task (kv : string * pyval) : result (string * pyval) :=
  match kv.2 with
  | PDict task =>
      Ok (if py_truthy (dgetn "alive" task) then (kv.1, PDict (dset "alive" PNone task)) else kv)
  | _ => Err AttributeError
  end.

Definition interrupted_row (row : dict) : result dict :=
  let row := dset "trace_complete" (PBool false)
               (dset "session_fenced" (PBool true) (dset "state" (PStr "interrupted") row)) in
  let row := match dgetn "feature_runs" row with
             | PDict fr => dset "feature_runs" (PDict (map interrupt_status fr)) row
             | _ => row
             end in
  processes ← dindex "processes" row;
  match processes with
  | PDict ps => ps' ← mapM interrupt_task ps; Ok (dset "processes" (PDict ps') row)
  | _ => Err AttributeError
  end.

(** [max(self._next_run_epoch, run_epoch + 1)] for a positive integer. *)
Definition epoch_after (row : dict) (next : Z) : Z :=
  match dgetn "run_epoch" row with
  | PInt n => if 0 <? n then Z.max next (n + 1) else next
  | _ => next
  end.

(** An identifier as [validate_id] gets it. *)
Definition as_text (v : pyval) : result string :=
  match v with PStr s => Ok s | _ => Err TypeError end.

Section restart.
Context `{StoreService} `{Cgroups} `{Observer} `{ExecutionPlugins} `{Platform}.

(** One state file; [recovered] are the sessions that have a lease already. *)
Definition recover_row (recovered : list (string * string)) (file : result pyval)
    : V (list (string * string)) :=
  v ← lift file;
  match v with
  | PDict row =>
      modify (fun s => with_epoch (epoch_after row (sv_next_epoch s)) s);;
      b ← lift (unfinished_run row);
      if (b : bool) then
        row ← lift (interrupted_row row);
        save row;;
        a ← lift (dindex "agent_id" row);
        s ← lift (dindex "session_id" row);
        a ← lift (as_text a);
        s ← lift (as_text s);
        if existsb (fun k => bool_decide (k = (a, s))) recovered then mret recovered
        else acquire_lease a s false;; mret (recovered ++ [(a, s)])
      else mret recovered
  | _ => throw AttributeError
  end.

Definition restart : V unit :=
  files ← perform DGlob (fun l => d_glob l);
  fold_loop recover_row files [];;
  mret ().
End restart.

(** * What a restart promises

    A session whose run was cut off stays closed: it has a lease, so that
    nothing is started in it and it is not changed; the numbers of new runs are
    above those of all earlier ones. *)

(** Fields that the interruption leaves alone. *)
Lemma interrupted_row_get row row' :
  interrupted_row row = Ok row' ->
  dget "state" row' = Some (PStr "interrupted") /\ dget "session_fenced" row' = Some (PBool true) /\
  dget "agent_id" row' = dget "agent_id" row /\ dget "session_id" row' = dget "session_id" row.
Proof.
  unfold interrupted_row. set (row1 := dset "trace_complete" _ _). intros E.
  set (row2 := match dgetn "feature_runs" row1 with PDict fr => _ | _ => row1 end) in *.
  assert (Hget : forall k, k <> "feature_runs" -> dget k row2 = dget k row1).
  { intros k Hk. unfold row2. destruct (dgetn "feature_runs" row1); try done.
    by apply dget_dset_ne. }
  destruct (dindex "processes" row2) as [v|]; [|done]. simpl in E. destruct v; try done.
  destruct (mapM interrupt_task d); [|done]. injection E as <-.
  rewrite !dget_dset_ne by done. rewrite !Hget by done. unfold row1.
  by rewrite !dget_dset.
Qed.

Section restart.
Context `{StoreService} `{Cgroups} `{Observer} `{ExecutionPlugins} `{Platform}.

(** Identifiers drawn at different times differ, and nobody gives up a lease
    while the daemon starts. *)
Context (fresh_tokens : forall h1 h2, t_uuid h1 = t_uuid h2 -> length h1 = length h2).
Context (others_quiet : forall h s, sv_registry (others h s) = sv_registry s /\
                                    sv_next_epoch (others h s) = sv_next_epoch s).

(** Every lease was drawn before now. *)
Definition drawn (s : st scall service) : Prop :=
  forall t k, leases (sv_registry (obj s)) !! t = Some k ->
    exists h, t = t_uuid h /\ (length h < length (hist s))%nat.

Definition has_lease (k : key) (r : registry) : Prop := exists t, leases r !! t = Some k.

Lemma leased_has_lease r k : has_lease k r -> leased r k = true.
Proof.
  intros [t Ht]. unfold leased. apply existsb_exists. exists (t, k).
  split; [|by apply bool_decide_eq_true]. by apply list_elem_of_In, elem_of_map_to_list.
Qed.

(** The files seen so far are settled: [recovered] are the sessions that were
    closed, and the epoch is above those of the files. *)
Record closed_off (recovered : list key) (files : list (result pyval)) (s : st scall service)
    : Prop := {
  closed_leases : Forall (fun k => has_lease k (sv_registry (obj s))) recovered;
  closed_rows : forall row, Ok (PDict row) ∈ files -> unfinished_run row = Ok true ->
    exists a b row', dget "agent_id" row = Some (PStr a) /\ dget "session_id" row = Some (PStr b) /\
      (a, b) ∈ recovered /\ DSave row' ∈ hist s /\
      dget "state" row' = Some (PStr "interrupted") /\
      dget "session_fenced" row' = Some (PBool true) /\
      dget "agent_id" row' = Some (PStr a) /\ dget "session_id" row' = Some (PStr b);
  closed_epochs : forall row n, Ok (PDict row) ∈ files -> dget "run_epoch" row = Some (PInt n) ->
    0 < n -> n < sv_next_epoch (obj s);
  closed_drawn : drawn s }.

Lemma epoch_after_ge row n : n <= epoch_after row n.
Proof. unfold epoch_after. destruct (dgetn _ _); try lia. destruct (0 <? z); lia. Qed.

Lemma epoch_after_gt row next n :
  dget "run_epoch" row = Some (PInt n) -> 0 < n -> n < epoch_after row next.
Proof.
  intros E Hn. unfold epoch_after, dgetn, dget_or. rewrite E.
  rewrite (proj2 (Z.ltb_lt 0 n)) by done. lia.
Qed.

(** A lease that is acquired. *)
Lemma wp_acquire_lease a b (Q : reply string -> st scall service -> Prop) s :
  drawn s ->
  (forall s', hist s' = hist s ++ [SAcquire a b false] ->
     sv_next_epoch (obj s') = sv_next_epoch (obj s) ->
     (forall k, has_lease k (sv_registry (obj s)) -> has_lease k (sv_registry (obj s'))) ->
     has_lease (a, b) (sv_registry (obj s')) -> drawn s' -> Q (Done (t_uuid (hist s))) s') ->
  (forall e s', Q (Raised e) s') ->
  ewp (acquire_lease a b false) Q s.
Proof.
  intros Hdrawn Hok Herr. unfold ewp, acquire_lease, yield_, interleave. simpl.
  destruct (acquire a b (PBool false) (t_uuid (hist s)) _) as [[d r]|e] eqn:E; simpl; [|apply Herr].
  unfold acquire in E. destruct (check_key a b) as [k|] eqn:Ek; [|done]. simpl in E.
  assert (k = (a, b)) as ->.
  { unfold check_key in Ek. destruct (validate_id "agent" a) as [a'|] eqn:Ea; [|done]. simpl in Ek.
    destruct (validate_id "session" b) as [b'|] eqn:Eb; [|done]. simpl in Ek. injection Ek as <-.
    unfold validate_id in *. destruct (ID_RE a); [|done]. destruct (ID_RE b); [|done].
    injection Ea as <-. by injection Eb as <-. }
  unfold raise_if in E. destruct (is_mutating _ _); [done|]. simpl in E.
  destruct (leased _ _) eqn:El; [done|]. simpl in E. injection E as <- <-.
  assert (Hfresh : leases (sv_registry (obj s)) !! t_uuid (hist s) = None).
  { destruct (leases _ !! _) as [k|] eqn:Ek'; [|done]. destruct (Hdrawn _ _ Ek') as (h & Eh & Hlen).
    apply fresh_tokens in Eh. lia. }
  destruct (others_quiet (hist s) (obj s)) as [Hreg Hep]. rewrite Hreg in *.
  apply Hok; simpl; [done|done| | |].
  - intros k [t Ht]. exists t. simpl. rewrite lookup_insert_ne; [done|].
    intros <-. congruence.
  - exists (t_uuid (hist s)). simpl. by rewrite lookup_insert_eq.
  - intros t k. simpl. destruct (decide (t = t_uuid (hist s))) as [->|Hne].
    + intros _. exists (hist s). split; [done|]. rewrite length_app. simpl. lia.
    + rewrite lookup_insert_ne by done. intros Ht. destruct (Hdrawn t k Ht) as (h & -> & Hlen).
      exists h. split; [done|]. rewrite length_app. lia.
Qed.

(** A file that needs nothing: only the epoch moves. *)
Lemma closed_off_epoch recovered files row s :
  closed_off recovered files s ->
  unfinished_run row <> Ok true ->
  closed_off recovered (files ++ [Ok (PDict row)])
    (St (hist s) (with_epoch (epoch_after row (sv_next_epoch (obj s))) (obj s))).
Proof.
  intros [Hl Hr He Hd] Hrow. split; simpl; [done| | |done].
  - intros row' Hin Hu. apply elem_of_app in Hin as [Hin|Hin]; [by apply Hr|].
    apply list_elem_of_singleton in Hin. congruence.
  - intros row' n Hin Hn Hpos. pose proof (epoch_after_ge row (sv_next_epoch (obj s))).
    apply elem_of_app in Hin as [Hin|Hin].
    + pose proof (He row' n Hin Hn Hpos). lia.
    + apply list_elem_of_singleton in Hin. injection Hin as ->. by apply epoch_after_gt.
Qed.

(** A file whose session is closed now. *)
Lemma closed_off_row recovered recovered' files row row' a b s s' :
  closed_off recovered files s ->
  interrupted_row row = Ok row' ->
  dget "agent_id" row' = Some (PStr a) -> dget "session_id" row' = Some (PStr b) ->
  hist s ⊆ hist s' -> DSave row' ∈ hist s' ->
  (forall k, has_lease k (sv_registry (obj s)) -> has_lease k (sv_registry (obj s'))) ->
  sv_next_epoch (obj s') = epoch_after row (sv_next_epoch (obj s)) ->
  recovered ⊆ recovered' -> (a, b) ∈ recovered' ->
  Forall (fun k => has_lease k (sv_registry (obj s'))) recovered' ->
  drawn s' ->
  closed_off recovered' (files ++ [Ok (PDict row)]) s'.
Proof.
  intros [Hl Hr He Hd] Hrow' Ha Hb Hhist Hsave Hkeep Hep Hsub Hin Hall Hd'.
  destruct (interrupted_row_get _ _ Hrow') as (Hst & Hfe & Hag & Hse).
  split; [done| | |done].
  - intros row2 Hin2 Hu. apply elem_of_app in Hin2 as [Hin2|Hin2].
    + destruct (Hr row2 Hin2 Hu) as (a2 & b2 & r2 & ? & ? & ? & ? & ? & ? & ? & ?).
      exists a2, b2, r2. by repeat split; auto.
    + apply list_elem_of_singleton in Hin2. injection Hin2 as ->. exists a, b, row'.
      by rewrite <- Hag, <- Hse.
  - intros row2 n Hin2 Hn Hpos. rewrite Hep. pose proof (epoch_after_ge row (sv_next_epoch (obj s))).
    apply elem_of_app in Hin2 as [Hin2|Hin2].
    + pose proof (He row2 n Hin2 Hn Hpos). lia.
    + apply list_elem_of_singleton in Hin2. injection Hin2 as ->. by apply epoch_after_gt.
Qed.

Lemma drawn_app s s' k :
  drawn s -> hist s' = hist s ++ k -> sv_registry (obj s') = sv_registry (obj s) -> drawn s'.
Proof.
  intros Hd Hh Hr t x. rewrite Hr. intros Ht. destruct (Hd t x Ht) as (h & -> & Hlen).
  exists h. split; [done|]. rewrite Hh, length_app. lia.
Qed.

Lemma wp_recover_row recovered files file s :
  closed_off recovered files s ->
  ewp (recover_row recovered file) (fun r s' =>
    match r with Done recovered' => closed_off recovered' (files ++ [file]) s' | _ => True end) s.
Proof.
  intros Hc. unfold recover_row. apply ewp_bind, ewp_lift. destruct file as [v|e]; [|done].
  destruct v as [| | | | | |row]; try done. apply ewp_bind, ewp_modify, ewp_bind, ewp_lift.
  destruct (unfinished_run row) as [[]|e] eqn:Eu; [| |done].
  2: { apply ewp_ret. by apply closed_off_epoch; [|rewrite Eu]. }
  apply ewp_bind, ewp_lift. destruct (interrupted_row row) as [row'|] eqn:Er; [|done].
  apply ewp_bind. unfold save. apply ewp_perform. intros [[]|e|] _; [|done..]. simpl.
  apply ewp_bind, ewp_lift. unfold dindex.
  destruct (dget "agent_id" row') as [va|] eqn:Ea; [|done].
  apply ewp_bind, ewp_lift. destruct (dget "session_id" row') as [vb|] eqn:Eb; [|done].
  apply ewp_bind, ewp_lift. destruct va as [| | | |a| |]; try done.
  apply ewp_bind, ewp_lift. destruct vb as [| | | |b| |]; try done. simpl.
  set (s1 := St (hist s ++ [DSave row']) (with_epoch _ _)).
  assert (Hd1 : drawn s1) by (eapply (drawn_app s s1 [DSave row']); [apply Hc|done|done]).
  assert (Hsub : hist s ⊆ hist s1) by (simpl; set_solver).
  assert (Hin1 : DSave row' ∈ hist s1) by (simpl; set_solver).
  match goal with |- ewp (if ?x then _ else _) _ _ => destruct x eqn:Ex end.
  - apply ewp_ret. eapply (closed_off_row recovered recovered); try done.
    + apply existsb_exists in Ex as (k & Hk & ->%bool_decide_eq_true). by apply list_elem_of_In.
    + apply Hc.
  - apply ewp_bind, wp_acquire_lease; [done| |done].
    intros s2 Hh2 Hep2 Hkeep2 Hlease Hd2. apply ewp_ret.
    eapply (closed_off_row recovered (recovered ++ [(a, b)])); try done.
    + rewrite Hh2. set_solver.
    + rewrite Hh2. set_solver.
    + set_solver.
    + set_solver.
    + apply Forall_app. split; [|by constructor].
      eapply Forall_impl; [apply Hc|]. intros k Hk. by apply Hkeep2.
Qed.

(** C21: a restart closes what was cut off.  For every run whose state file says
    starting, running or fenced, the run is saved as interrupted and fenced and
    its session has a lease, so that the session is neither started in nor
    changed; and the epoch of the next run is above those of all runs on disk. *)
Theorem restart_closes_sessions s files :
  d_glob (hist s) = Done files ->
  drawn s ->
  ewp restart (fun y s' =>
    match y return Prop with
    | Done _ =>
        (forall row, Ok (PDict row) ∈ files -> unfinished_run row = Ok true ->
           exists a b row',
             dget "agent_id" row = Some (PStr a) /\ dget "session_id" row = Some (PStr b) /\
             DSave row' ∈ hist s' /\ dget "state" row' = Some (PStr "interrupted") /\
             dget "session_fenced" row' = Some (PBool true) /\
             leased (sv_registry (obj s')) (a, b) = true) /\
        (forall row n, Ok (PDict row) ∈ files -> dget "run_epoch" row = Some (PInt n) -> 0 < n ->
           n < sv_next_epoch (obj s'))
    | _ => True
    end) s.
Proof.
  intros Hglob Hdrawn. unfold restart. apply ewp_bind, ewp_perform. rewrite Hglob. intros r <-.
  apply ewp_bind.
  eapply (ewp_fold_loop _ (fun rest recovered s' =>
            exists seen, files = seen ++ rest /\ closed_off recovered seen s')).
  - exists []. split; [done|]. split; [done| | |].
    + intros row Hin. by apply elem_of_nil in Hin.
    + intros row n Hin. by apply elem_of_nil in Hin.
    + by apply (drawn_app s _ [DGlob]).
  - intros file rest recovered s' (seen & -> & Hc). eapply ewp_mono; [by apply wp_recover_row|].
    intros [recovered'|e|] s'' Hc'; [|done..]. exists (seen ++ [file]).
    by rewrite <- app_assoc.
  - intros recovered s' (seen & Heq & Hc). rewrite app_nil_r in Heq. subst seen. apply ewp_ret.
    destruct Hc as [Hl Hr He Hd]. split; [|done]. intros row Hin Hu.
    destruct (Hr row Hin Hu) as (a & b & row' & Ha & Hb & Hk & Hs & Hst & Hfe & _).
    exists a, b, row'. repeat split; try done. apply leased_has_lease.
    rewrite Forall_forall in Hl. by apply Hl.
Qed.
End restart.

Definition demo_state (state : string) : dict :=
  [("run_id", PStr "r"); ("run_epoch", PInt 6); ("agent_id", PStr "a"); ("session_id", PStr "s");
   ("state", PStr state);
   ("processes", PDict [("p", PDict [("pid", PInt 4); ("alive", PBool true)])])].

(** The demonstration, with the identifiers numbered and a state file left. *)
Definition numbered_platform (files : list (result pyval)) : Platform := {|
  x_spawn := x_spawn; x_configure := x_configure; x_wait_stopped := x_wait_stopped;
  x_poll := x_poll; x_kill := x_kill; x_wait := x_wait; x_wait_timeout := x_wait_timeout;
  x_continue := x_continue; x_state := x_state; x_open_pidfd := x_open_pidfd;
  x_signal := x_signal; x_close_pidfd := x_close_pidfd; x_namespace := x_namespace;
  x_timer := x_timer; x_thread := x_thread; x_close_launcher := x_close_launcher;
  d_mkdir := d_mkdir; d_save := d_save; d_save_durable := d_save_durable; d_append := d_append;
  d_load := d_load; d_glob := fun _ => Done files; d_events := d_events;
  t_clock := t_clock; t_time_ns := t_time_ns;
  t_uuid := fun h => String.string_of_list_ascii (repeat "0"%char (length h));
  t_cookie := t_cookie; w_done := w_done; others := fun _ s => s |}.

Definition demo_files : list (result pyval) :=
  [Ok (PDict (demo_state "running")); Ok (PDict (demo_state "completed"))].

Lemma numbered_fresh files h1 h2 :
  @t_uuid (numbered_platform files) h1 = @t_uuid (numbered_platform files) h2 ->
  length h1 = length h2.
Proof.
  simpl. intros E. apply (f_equal String.list_ascii_of_string) in E.
  rewrite !String.list_ascii_of_string_of_list_ascii in E.
  apply (f_equal length) in E. by rewrite !repeat_length in E.
Qed.

Lemma restart_closes_sessions_witness :
  ewp (@restart (numbered_platform demo_files)) (fun y s' =>
    match y return Prop with
    | Done _ =>
        (forall row, Ok (PDict row) ∈ demo_files -> unfinished_run row = Ok true ->
           exists a b row',
             dget "agent_id" row = Some (PStr a) /\ dget "session_id" row = Some (PStr b) /\
             DSave row' ∈ hist s' /\ dget "state" row' = Some (PStr "interrupted") /\
             dget "session_fenced" row' = Some (PBool true) /\
             leased (sv_registry (obj s')) (a, b) = true) /\
        (forall row n, Ok (PDict row) ∈ demo_files -> dget "run_epoch" row = Some (PInt n) -> 0 < n ->
           n < sv_next_epoch (obj s'))
    | _ => True
    end) (St [] demo_service).
Proof.
  apply restart_closes_sessions.
  - intros h1 h2. apply numbered_fresh.
  - intros h s. split; reflexivity.
  - reflexivity.
  - intros t k E. vm_compute in E. discriminate E.
Defined.
