(* ===== verification/Launcher.v ===== *)
(** * The process launcher

    [_StableProcessLauncher] of
    [src/src/allox/runtime/process_tracking/service.py]: one thread that lives
    as long as the daemon spawns every workload, on requests that other threads
    put into its queue.  Every step below is one atomic action of a thread. *)

From stdpp Require Import base gmap sets list relations.
From S2P Require Import Prelude.
(** What [subprocess.Popen] gave: a process or what it raised. *)
Inductive outcome := Process (pid : Z) | Error (e : exn).

(** [self._requests] holds requests, named by numbers, and the [None] that ends
    the thread. *)
Record launcher := Launcher {
  requests : list (option nat);
  closed : bool;                    (* self._closed *)
  serving : bool;                   (* the thread has not returned *)
  answers : gmap nat outcome }.     (* "done" is set; "process" or "error" *)

Definition new_launcher : launcher := Launcher [] false true ∅.

(** [spawn], up to its wait: the request is put, or refused. *)
Definition spawn_put (r : nat) (l : launcher) : result launcher :=
  if closed l then Err (WorkspaceError "process launcher is closed")
  else Ok (Launcher (requests l ++ [Some r]) (closed l) (serving l) (answers l)).

(** [spawn], after its wait. *)
Definition spawn_result (r : nat) (l : launcher) : option (result Z) :=
  match answers l !! r with
  | None => None                                    (* still waiting *)
  | Some (Process pid) => Some (Ok pid)
  | Some (Error e) => Some (Err e)
  end.

(** One turn of [_serve], when the queue holds something; [popen] answers. *)
Definition serve (popen : nat -> outcome) (l : launcher) : option launcher :=
  if serving l then
    match requests l with
    | [] => None                                    (* [get] waits *)
    | None :: q => Some (Launcher q (closed l) false (answers l))
    | Some r :: q => Some (Launcher q (closed l) true (<[r := popen r]> (answers l)))
    end
  else None.

(** [close], up to its join. *)
Definition close_put (l : launcher) : launcher :=
  if closed l then l
  else Launcher (requests l ++ [None]) true (serving l) (answers l).

(** The join of [close] returns. *)
Definition joined (l : launcher) : bool := negb (serving l).

(** ** Steps *)

Inductive action := Spawn (r : nat) | Serve | Close.

Section steps.
Context (popen : nat -> outcome).

(** A request has a number of its own. *)
Definition fresh (r : nat) (l : launcher) : Prop :=
  Some r ∉ requests l /\ answers l !! r = None.

Inductive step : launcher -> action -> launcher -> Prop :=
  | step_spawn r l l' : fresh r l -> spawn_put r l = Ok l' -> step l (Spawn r) l'
  | step_refused r l e : spawn_put r l = Err e -> step l (Spawn r) l
  | step_serve l l' : serve popen l = Some l' -> step l Serve l'
  | step_close l : step l Close (close_put l).

Inductive run : launcher -> list action -> launcher -> Prop :=
  | run_nil l : run l [] l
  | run_cons l a l' acts l'' : step l a l' -> run l' acts l'' -> run l (a :: acts) l''.

Definition reachable (l : launcher) : Prop := exists acts, run new_launcher acts l.

(** How often the thread took its turn. *)
Definition turns (acts : list action) : nat :=
  length (List.filter (fun a => match a with Serve => true | _ => false end) acts).
End steps.

(** * What the launcher promises

    The end marker is the last element of the queue and is there exactly while
    the closed launcher still serves, so no request that was accepted is lost:
    each is answered after as many turns of the thread as requests were before
    it, and a join that returns finds all of them answered. *)

Section launcher.
Context (popen : nat -> outcome).

(** ** The invariant *)

Definition is_request (x : option nat) : Prop := is_Some x.

Record well_formed (l : launcher) : Prop := {
  wf_open : closed l = false -> serving l = true /\ Forall is_request (requests l);
  wf_closing : closed l = true -> serving l = true ->
    exists q, requests l = q ++ [None] /\ Forall is_request q;
  wf_ended : serving l = false -> requests l = [] }.

Lemma new_well_formed : well_formed new_launcher.
Proof. split; simpl; [by split|done|done]. Qed.

Lemma serve_well_formed l l' : well_formed l -> serve popen l = Some l' -> well_formed l'.
Proof.
  intros [Ho Hc He]. unfold serve. destruct l as [q c b ans]. simpl in *.
  destruct b; [|done]. destruct q as [|[r|] q]; [done|intros [= <-]..].
  - split; simpl; [| |done].
    + intros Hc'. destruct (Ho Hc') as [_ Hq]. by apply Forall_cons in Hq as [_ Hq].
    + intros Hc' _. destruct (Hc Hc' eq_refl) as (q' & Eq & Hq').
      destruct q' as [|x q']; simplify_eq/=. apply Forall_cons in Hq' as [_ Hq']. by exists q'.
  - assert (c = true) as ->.
    { destruct c; [done|]. destruct (Ho eq_refl) as [_ Hq]. apply Forall_cons in Hq as [[? ?] _].
      done. }
    destruct (Hc eq_refl eq_refl) as (q' & Eq & Hq').
    destruct q' as [|x q']; simplify_eq/=; [by split|].
    apply Forall_cons in Hq' as [[? ?] _]. done.
Qed.

Lemma step_well_formed l a l' : well_formed l -> step popen l a l' -> well_formed l'.
Proof.
  intros Hwf Hs. destruct Hs as [r l l' _ Hp|r l e Hp|l l' Hp|l].
  - unfold spawn_put in Hp. destruct (closed l) eqn:Ec; [done|]. injection Hp as <-.
    destruct (wf_open l Hwf Ec) as [Hs Hq]. split; simpl; [|congruence|congruence].
    intros _. split; [done|]. apply Forall_app. split; [done|]. constructor; [by eexists|done].
  - done.
  - by eapply serve_well_formed.
  - unfold close_put. destruct (closed l) eqn:Ec; [done|].
    destruct (wf_open l Hwf Ec) as [Hs Hq]. split; simpl; [done| |congruence].
    intros _ _. by exists (requests l).
Qed.

Lemma run_well_formed l acts l' : run popen l acts l' -> well_formed l -> well_formed l'.
Proof. induction 1 as [|l a l1 acts l2 Hs _ IH]; [done|]. intros Hwf. by eapply IH, step_well_formed. Qed.

Lemma reachable_well_formed l : reachable popen l -> well_formed l.
Proof. intros [acts Hr]. eapply run_well_formed; [exact Hr|apply new_well_formed]. Qed.

(** ** Liveness *)

(** An answer stays. *)
Definition answered (r : nat) (l : launcher) : Prop := answers l !! r = Some (popen r).

(** The request waits behind [n] others. *)
Definition waits (r : nat) (n : nat) (l : launcher) : Prop :=
  requests l !! n = Some (Some r).

Lemma answered_step r l a l' : answered r l -> step popen l a l' -> answered r l'.
Proof.
  unfold answered. intros Hr Hs. destruct Hs as [r' l l' _ Hp|r' l e Hp|l l' Hp|l].
  - unfold spawn_put in Hp. destruct (closed l); [done|]. by injection Hp as <-.
  - done.
  - unfold serve in Hp. destruct (serving l); [|done].
    destruct (requests l) as [|[r'|] q]; [done|injection Hp as <-..]; simpl; [|done].
    destruct (decide (r' = r)) as [->|Hne]; [by rewrite lookup_insert_eq|].
    by rewrite lookup_insert_ne.
  - unfold close_put. by destruct (closed l).
Qed.

Lemma answered_run r l acts l' : run popen l acts l' -> answered r l -> answered r l'.
Proof. induction 1; [done|]. intros Hr. by apply IHrun, (answered_step r l a). Qed.

(** A turn brings the request forward; the others' actions leave it. *)
Lemma waits_step r n l a l' :
  waits r n l -> step popen l a l' ->
  match a with
  | Serve => match n with O => answered r l' | S n => waits r n l' end
  | _ => waits r n l'
  end.
Proof.
  unfold waits, answered. intros Hr Hs. destruct Hs as [r' l l' _ Hp|r' l e Hp|l l' Hp|l].
  - unfold spawn_put in Hp. destruct (closed l); [done|]. injection Hp as <-. simpl.
    by apply lookup_app_l_Some.
  - done.
  - unfold serve in Hp. destruct (serving l); [|done].
    destruct (requests l) as [|[r'|] q]; [done|injection Hp as <-..]; simpl.
    + destruct n as [|n]; simpl in Hr; [|done]. injection Hr as ->. by rewrite lookup_insert_eq.
    + destruct n as [|n]; simpl in Hr; [done|]. done.
  - unfold close_put. destruct (closed l); [done|]. simpl. by apply lookup_app_l_Some.
Qed.

Lemma turns_cons a acts :
  turns (a :: acts) = match a with Serve => S (turns acts) | _ => turns acts end.
Proof. by destruct a. Qed.

(** The thread is never stuck while a request waits. *)
Lemma serve_enabled r n l : well_formed l -> waits r n l -> exists l', serve popen l = Some l'.
Proof.
  unfold waits, serve. intros Hwf Hr. destruct (serving l) eqn:Es.
  - destruct (requests l) as [|[r'|] q]; [done|by eexists..].
  - by rewrite (wf_ended l Hwf Es) in Hr.
Qed.

Lemma serving_enabled l l' : serve popen l = Some l' -> serving l = true.
Proof. unfold serve. by destruct (serving l). Qed.

(** Each turn brings the request one forward, until it is answered. *)
Lemma waits_run l acts l' : run popen l acts l' -> forall r n, waits r n l ->
  if (n <? turns acts)%nat then answered r l' else waits r (n - turns acts) l'.
Proof.
  induction 1 as [l|l a l1 acts l2 Hs Hrun IH]; intros r n Hw.
  { unfold turns. simpl. by rewrite Nat.sub_0_r. }
  pose proof (waits_step r n l a l1 Hw Hs) as Hw1. rewrite turns_cons.
  destruct a; [by apply IH| |by apply IH]. destruct n as [|n]; [by eapply answered_run|].
  exact (IH r n Hw1).
Qed.

(** The turns of the thread alone. *)
Lemma serve_alone r n : forall l, well_formed l -> waits r n l ->
  exists l', run popen l (replicate (S n) Serve) l'.
Proof.
  induction n as [|n IH]; intros l Hwf Hw; destruct (serve_enabled _ _ _ Hwf Hw) as [l1 Hl1].
  - exists l1. eapply run_cons; [by apply step_serve|apply run_nil].
  - destruct (IH l1) as [l2 Hl2]; [by eapply serve_well_formed|exact (waits_step r _ l _ l1 Hw (step_serve _ _ _ Hl1))|].
    exists l2. eapply run_cons; [by apply step_serve|exact Hl2].
Qed.

(** C33: a request that waits behind [n] others is never left waiting.
    Whatever the threads do, a close of the launcher or spawns that fail
    included: while the thread has taken at most [n] turns, it is alive and has
    its next turn to take, and the request has come forward by one for each; and
    from the turn [n + 1] on the request has its answer, the one
    [subprocess.Popen] gave for it.  The thread can take these turns by itself,
    with nobody's help. *)
Theorem spawn_answered r n l :
  reachable popen l -> waits r n l ->
  (forall acts l', run popen l acts l' ->
    if (n <? turns acts)%nat
    then spawn_result r l' = Some (match popen r with Process pid => Ok pid | Error e => Err e end)
    else waits r (n - turns acts) l' /\ serving l' = true /\ exists l'', serve popen l' = Some l'') /\
  exists l', run popen l (replicate (S n) Serve) l'.
Proof.
  intros Hwf%reachable_well_formed Hw. split; [|by eapply serve_alone].
  intros acts l' Hrun. pose proof (waits_run _ _ _ Hrun r n Hw) as H.
  pose proof (run_well_formed _ _ _ Hrun Hwf) as Hwf'.
  destruct (n <? turns acts)%nat.
  - unfold spawn_result. rewrite H. by destruct (popen r).
  - destruct (serve_enabled _ _ _ Hwf' H) as [l'' Hl'']. split; [done|].
    split; [by eapply serving_enabled|by exists l''].
Qed.

(** Also: no accepted request is lost: in every reachable state a request that
    was accepted is answered or waits in the queue, and while it waits the
    thread has a turn to take; so once the join of a [close] returns, every
    request ever accepted has its answer. *)
Theorem close_loses_nothing acts l r :
  run popen new_launcher acts l ->
  (exists before after l1 l2, acts = before ++ Spawn r :: after /\
     run popen new_launcher before l1 /\ spawn_put r l1 = Ok l2 /\ run popen l2 after l) ->
  (spawn_result r l <> None \/
   (exists n, waits r n l /\ exists l', serve popen l = Some l')) /\
  (joined l = true -> spawn_result r l <> None).
Proof.
  intros Hrun (before & after & l1 & l2 & -> & Hbefore & Hput & Hafter).
  assert (Hwf : well_formed l) by (apply reachable_well_formed; by eexists).
  assert (Hhere : answered r l \/ exists n, waits r n l).
  { assert (Hw : exists n, waits r n l2).
    { exists (length (requests l1)). unfold spawn_put in Hput. destruct (closed l1); [done|].
      injection Hput as <-. unfold waits. simpl. by rewrite lookup_app_r, Nat.sub_diag. }
    assert (Hgen : answered r l2 \/ exists n, waits r n l2) by by right.
    clear -Hafter Hgen. induction Hafter as [l|l a l1 acts l2 Hs _ IH]; [done|].
    apply IH. destruct Hgen as [Ha|[n Hw]]; [left; by eapply answered_step|].
    pose proof (waits_step r n l a l1 Hw Hs) as Hw1.
    destruct a; [right; by exists n| |right; by exists n].
    destruct n as [|n]; [by left|right; by exists n]. }
  assert (Hres : answered r l -> spawn_result r l <> None).
  { unfold answered, spawn_result. intros ->. by destruct (popen r). }
  split.
  - destruct Hhere as [Ha|[n Hw]]; [left; by apply Hres|right]. exists n.
    split; [done|]. by eapply serve_enabled.
  - unfold joined. intros Hj%negb_true_iff. destruct Hhere as [Ha|[n Hw]]; [by apply Hres|].
    unfold waits in Hw. by rewrite (wf_ended l Hwf Hj) in Hw.
Qed.
End launcher.

Definition demo_popen (r : nat) : outcome :=
  match r with O => Process 41 | _ => Error (OSError "ENOENT") end.

Definition demo_queue : launcher := Launcher [Some 0%nat; Some 1%nat] false true ∅.

Definition demo_turned : launcher :=
  Launcher [None] true true (<[1%nat := Error (OSError "ENOENT")]> (<[0%nat := Process 41]> ∅)).

Lemma demo_turns : run demo_popen demo_queue [Serve; Close; Serve] demo_turned.
Proof.
  eapply run_cons; [by apply step_serve|]. eapply run_cons; [by apply step_close|].
  eapply run_cons; [by apply step_serve|]. apply run_nil.
Defined.

Lemma demo_queue_reachable popen : reachable popen demo_queue.
Proof.
  exists [Spawn 0; Spawn 1]. eapply run_cons.
  - apply (step_spawn _ _ _ (Launcher [Some 0%nat] false true ∅)); [split; [set_solver|done]|done].
  - eapply run_cons; [|apply run_nil].
    apply step_spawn; [split; [simpl; set_solver|done]|done].
Defined.

(** The second of two requests, the launcher being closed between their turns;
    and when the first one fails, the second still has its turn. *)
Lemma spawn_answered_witness :
  spawn_result 1 demo_turned = Some (Err (OSError "ENOENT")) /\
  exists l', run (fun _ => Error (OSError "EAGAIN")) demo_queue [Serve] l' /\
    serving l' = true.
Proof.
  split.
  - exact (proj1 (spawn_answered demo_popen 1 1 demo_queue (demo_queue_reachable _) eq_refl)
      [Serve; Close; Serve] demo_turned demo_turns).
  - assert (Hs : run (fun _ => Error (OSError "EAGAIN")) demo_queue [Serve]
      (Launcher [Some 1%nat] false true (<[0%nat := Error (OSError "EAGAIN")]> ∅)))
      by (eapply run_cons; [by apply step_serve|apply run_nil]).
    eexists. split; [exact Hs|].
    exact (proj1 (proj2 (proj1 (spawn_answered _ 1 1 demo_queue (demo_queue_reachable _) eq_refl) [Serve] _ Hs))).
Defined.

Definition demo_closed : launcher := Launcher [] true false (<[0%nat := Process 41]> ∅).

Lemma close_loses_nothing_witness :
  joined demo_closed = true /\ spawn_result 0 demo_closed <> None.
Proof.
  assert (Hafter : run demo_popen (Launcher [Some 0%nat] false true ∅) [Close; Serve; Serve] demo_closed).
  { eapply run_cons; [by apply step_close|]. eapply run_cons; [by apply step_serve|].
    eapply run_cons; [by apply step_serve|]. apply run_nil. }
  split; [reflexivity|].
  refine (proj2 (close_loses_nothing demo_popen [Spawn 0; Close; Serve; Serve] demo_closed 0 _ _) _).
  - eapply run_cons; [|exact Hafter]. apply step_spawn; [split; [set_solver|done]|reflexivity].
  - exists [], [Close; Serve; Serve], new_launcher, (Launcher [Some 0%nat] false true ∅).
    split; [reflexivity|]. split; [apply run_nil|]. split; [reflexivity|exact Hafter].
  - reflexivity.
Defined.
