(* ===== verification/Durable.v ===== *)
(** * The durable run state

    [ProcessTrackingService._save_durable]: the row goes to a new file that is
    written out, synced and renamed over [state.json], and the directory is
    synced.  The object is the audit directory; every change of it is also
    recorded, so that what a crash at any moment leaves can be stated. *)

From Stdlib Require Import Ascii.
From Stdlib Require String.
From stdpp Require Import gmap.
From S2P Require Import Prelude Effects PyVal Kernel.
Open Scope Z_scope.

(** A file: its bytes, and whether all of them reached the disk. *)
Record file := File { f_bytes : list ascii; f_synced : bool }.

(** The entries of the directory, and whether they reached the disk. *)
Record directory := Directory { entries : gmap string file; dir_synced : bool }.

(** The directory now, and all it was since the call began. *)
Record disk := Disk { now : directory; seen : list directory }.

Inductive dcall := OpenDir | Create (name : string) | Write (bytes : list ascii) | SyncFile
  | CloseFile | Rename (src dst : string) | SyncDir | Unlink (name : string) | CloseDir.

(** What the system answers: an error, or for a write how much it took. *)
Class Syscalls := {
  sys : list dcall -> dcall -> reply unit;
  sys_write : list dcall -> list ascii -> reply Z }.

Definition change (f : directory -> directory) (d : disk) : disk :=
  let d' := f (now d) in Disk d' (seen d ++ [d']).

Definition put_file (name : string) (x : file) (d : directory) : directory :=
  Directory (<[name := x]> (entries d)) false.

Definition append_file (name : string) (bytes : list ascii) (d : directory) : directory :=
  match entries d !! name with
  | Some x => Directory (<[name := File (f_bytes x ++ bytes) false]> (entries d)) (dir_synced d)
  | None => d
  end.

Definition sync_file (name : string) (d : directory) : directory :=
  match entries d !! name with
  | Some x => Directory (<[name := File (f_bytes x) true]> (entries d)) (dir_synced d)
  | None => d
  end.

Definition rename_file (src dst : string) (d : directory) : directory :=
  match entries d !! src with
  | Some x => Directory (<[dst := x]> (delete src (entries d))) false
  | None => d
  end.

Definition unlink_file (name : string) (d : directory) : directory :=
  Directory (delete name (entries d)) false.

Definition sync_dir (d : directory) : directory := Directory (entries d) true.

(** [token] is [secrets.token_hex(16)]. *)
Definition temporary_file (token : string) : string := ".state." +:+ token +:+ ".tmp".

Section durable.
Context `{Syscalls} (token : string) (encoded : list ascii).

Notation temporary := (temporary_file token).

Definition D (A : Type) : Type := P dcall disk A.

(** A system call that changes the directory when it succeeds. *)
Definition syscall (c : dcall) (f : directory -> directory) : D unit :=
  perform c (fun l => sys l c);; modify (change f).

(** A system call that leaves the directory. *)
Definition syscall_ (c : dcall) : D unit := perform c (fun l => sys l c).

(** [os.O_EXCL]: the temporary file is not there yet. *)
Definition create : D unit :=
  there ← read (fun d => bool_decide (is_Some (entries (now d) !! temporary)));
  throw_when there (OSError "EEXIST");;
  syscall (Create temporary) (put_file temporary (File [] false)).

(** The loop of writes; every turn takes at least a byte. *)
Fixpoint write_all (n : nat) (view : list ascii) : D unit :=
  match n, view with
  | _, [] => mret ()
  | O, _ => fun s => (Interrupted, s)
  | S n, _ =>
      written ← perform (Write view) (fun l => sys_write l view);
      throw_when (written <=? 0) (WorkspaceError "short write while committing process state");;
      modify (change (append_file temporary (take (Z.to_nat written) view)));;
      write_all n (drop (Z.to_nat written) view)
  end.

(** The temporary file is written out and synced; its descriptor is closed. *)
Definition write_temporary : D unit :=
  finally (write_all (length encoded) encoded;; syscall SyncFile (sync_file temporary))
    (syscall_ CloseFile).

(** [if temporary_created: try: os.unlink(...) except OSError: pass] *)
Definition remove_temporary : D unit :=
  catch (syscall (Unlink temporary) (unlink_file temporary))
    (fun e => if is_os_error e then mret () else throw e).

(** The part of the [try] with the temporary file there, and the part after the
    rename, when nothing is left to be removed. *)
Definition after_rename : D unit := syscall SyncDir sync_dir.

Definition before_rename : D unit :=
  write_temporary;; syscall (Rename temporary "state.json") (rename_file temporary "state.json").

Definition failing_commit {A} (m : D A) : D A :=
  wrapping is_os_error "failed to commit durable process state" m.

Definition _save_durable : D unit :=
  wrapping is_os_error "failed to open process audit directory" (syscall_ OpenDir);;
  finally
    (wrapping is_os_error "failed to create durable process state" create;;
     unwinding (failing_commit before_rename) remove_temporary;;
     failing_commit after_rename)
    (syscall_ CloseDir).
End durable.

(** * What the durable save promises

    At every moment [state.json] is what it was or the whole new row, on disk;
    when the save returns it is the new row and the directory is synced; and the
    loop of writes ends. *)

Section durable.
Context `{Syscalls} (token : string) (encoded : list ascii).

Notation temporary := (temporary_file token).

Lemma temporary_other : temporary <> "state.json".
Proof. by unfold temporary_file. Qed.

Definition state_of (d : directory) : option file := entries d !! "state.json".

(** The old state or the complete new one. *)
Definition sound (old : option file) (d : directory) : Prop :=
  state_of d = old \/ state_of d = Some (File encoded true).

(** The old state, the temporary file holding [x], and nothing unsound seen. *)
Definition writing (old : option file) (x : option file) (d : disk) : Prop :=
  state_of (now d) = old /\ entries (now d) !! temporary = x /\ Forall (sound old) (seen d).

Definition all_sound (old : option file) (d : disk) : Prop :=
  sound old (now d) /\ Forall (sound old) (seen d).

Lemma writing_sound old x d : writing old x d -> all_sound old d.
Proof. intros (Hs & _ & Hf). split; [by left|done]. Qed.

(** A change of the temporary file only. *)
Lemma writing_change old x x' f d :
  writing old x d -> state_of (f (now d)) = state_of (now d) ->
  entries (f (now d)) !! temporary = x' -> writing old x' (change f d).
Proof.
  intros (Hs & _ & Hf) Hsame Hx'. split; simpl; [by rewrite Hsame|]. split; [done|].
  apply Forall_app. split; [done|]. constructor; [|done]. left. by rewrite Hsame.
Qed.

Lemma wp_syscall_ c (Q : reply unit -> st dcall disk -> Prop) s :
  (forall r h, Q r (St h (obj s))) -> ewp (syscall_ c) Q s.
Proof. intros HQ. apply ewp_perform. intros r _. apply HQ. Qed.

(** A call that fails changes nothing. *)
Lemma wp_syscall c f (Q : reply unit -> st dcall disk -> Prop) s :
  (forall r h, r <> Done () -> Q r (St h (obj s))) ->
  (forall h, Q (Done ()) (St h (change f (obj s)))) ->
  ewp (syscall c f) Q s.
Proof.
  intros Hno Hyes. unfold syscall. apply ewp_bind, ewp_perform. intros [[]|e|] _.
  - apply ewp_modify, Hyes.
  - by apply Hno.
  - by apply Hno.
Qed.

(** The loop appends what is left of the bytes. *)
Lemma wp_write_all old n view done_ s :
  writing old (Some (File done_ false)) (obj s) -> (length view <= n)%nat ->
  ewp (write_all token n view) (fun r s' =>
    match r with
    | Done _ => writing old (Some (File (done_ ++ view) false)) (obj s')
    | _ => exists x, writing old (Some x) (obj s')
    end) s.
Proof.
  revert view done_ s. induction n as [|n IH]; intros view done_ s Hw Hn.
  - destruct view; [|simpl in Hn; lia]. apply ewp_ret. by rewrite app_nil_r.
  - destruct view as [|b view]; [apply ewp_ret; by rewrite app_nil_r|].
    cbn [write_all]. apply ewp_bind, ewp_perform. intros [written|e|] _; [|by eexists..].
    apply ewp_bind, ewp_throw_when; [by eexists|]. intros Hpos%Z.leb_gt.
    apply ewp_bind, ewp_modify. simpl obj.
    set (k := Z.to_nat written). assert (Hk : (0 < k)%nat) by lia.
    eapply ewp_mono.
    + eapply (IH (drop k (b :: view)) (done_ ++ take k (b :: view))).
      * simpl obj. destruct Hw as (Hs & Ht & Hf).
        eapply writing_change; [by split; [exact Hs|split; [exact Ht|exact Hf]]| |].
        -- unfold append_file. rewrite Ht. unfold state_of. simpl.
           by rewrite lookup_insert_ne by apply temporary_other.
        -- unfold append_file. rewrite Ht. simpl. by rewrite lookup_insert_eq.
      * rewrite length_drop. simpl in *. lia.
    + intros [[]|e|] s' Hs'; [|done..]. by rewrite <- app_assoc, take_drop in Hs'.
Qed.

Lemma wp_write_temporary old s :
  writing old (Some (File [] false)) (obj s) ->
  ewp (write_temporary token encoded) (fun r s' =>
    match r with
    | Done _ => writing old (Some (File encoded true)) (obj s')
    | _ => exists x, writing old (Some x) (obj s')
    end) s.
Proof.
  intros Hw. unfold write_temporary. apply ewp_finally, ewp_bind.
  eapply ewp_mono; [by apply (wp_write_all old)|].
  intros [[]|e|] s1 H1; [|apply wp_syscall_; by intros [[]|e'|] h..].
  simpl in H1. apply wp_syscall.
  - intros r h Hr. apply wp_syscall_. destruct r as [[]|e|]; [done|..]; intros [[]|e'|] h';
      by exists (File encoded false).
  - intros h. assert (Hs : writing old (Some (File encoded true)) (change (sync_file temporary) (obj s1))).
    { pose proof H1 as (_ & Ht & _). eapply writing_change; [exact H1| |];
        unfold sync_file; rewrite Ht; unfold state_of; simpl.
      - by rewrite lookup_insert_ne by apply temporary_other.
      - by rewrite lookup_insert_eq. }
    apply wp_syscall_. simpl. intros [[]|e'|] h'; [done|by eexists..].
Qed.

(** After the rename: the new row, complete, and no temporary file. *)
Definition renamed (d : disk) (old : option file) : Prop :=
  state_of (now d) = Some (File encoded true) /\ entries (now d) !! temporary = None /\
  Forall (sound old) (seen d).

Lemma renamed_sound old d : renamed d old -> all_sound old d.
Proof. intros (Hs & _ & Hf). split; [by right|done]. Qed.

Lemma wp_before_rename old s :
  writing old (Some (File [] false)) (obj s) ->
  ewp (before_rename token encoded) (fun r s' =>
    match r with
    | Done _ => renamed (obj s') old
    | _ => exists x, writing old (Some x) (obj s')
    end) s.
Proof.
  intros Hw. unfold before_rename. apply ewp_bind.
  eapply ewp_mono; [by apply wp_write_temporary|]. intros [[]|e|] s1 H1; [|done..].
  apply wp_syscall.
  - intros [[]|e|] h Hr; [done|by eexists..].
  - intros h. destruct H1 as (_ & Ht & Hf).
    assert (Hnow : state_of (rename_file temporary "state.json" (now (obj s1)))
                   = Some (File encoded true)).
    { unfold rename_file. rewrite Ht. unfold state_of. simpl. by rewrite lookup_insert_eq. }
    split; [exact Hnow|]. split.
    + unfold change, rename_file. simpl. rewrite Ht. simpl.
      rewrite lookup_insert_ne by (intros E; by apply temporary_other). by rewrite lookup_delete_eq.
    + simpl. apply Forall_app. split; [done|]. constructor; [|done]. by right.
Qed.

Lemma ewp_wrapping {A} caught what (m : P dcall disk A) (Q : reply A -> st dcall disk -> Prop) s :
  ewp m (fun r s' => match r with Raised e => forall e', Q (Raised e') s' | _ => Q r s' end) s ->
  ewp (wrapping caught what m) Q s.
Proof.
  intros Hm. apply ewp_catch. eapply ewp_mono; [exact Hm|]. intros [a|e|] s' HQ; [done| |done].
  destruct (caught e); apply HQ.
Qed.

Lemma wp_remove_temporary old x s :
  writing old x (obj s) ->
  ewp (remove_temporary token) (fun _ s' => all_sound old (obj s')) s.
Proof.
  intros Hw. unfold remove_temporary. apply ewp_catch.
  apply wp_syscall; [intros r h Hr|intros h].
  - assert (Hs : all_sound old (obj s)) by by eapply writing_sound.
    destruct r as [[]|e|]; simpl; [done| |done]. by destruct (is_os_error e).
  - apply (writing_sound old None). eapply writing_change; [exact Hw| |]; unfold unlink_file, state_of; simpl.
    + rewrite lookup_delete_ne; [done|apply temporary_other].
    + by rewrite lookup_delete_eq.
Qed.

(** The part between the creation of the temporary file and the end. *)
Lemma wp_commit_file old s :
  writing old (Some (File [] false)) (obj s) ->
  ewp (unwinding (failing_commit (before_rename token encoded)) (remove_temporary token);;
       failing_commit after_rename) (fun r s' =>
    all_sound old (obj s') /\
    (r = Done () -> renamed (obj s') old /\ dir_synced (now (obj s')) = true)) s.
Proof.
  intros Hw. apply ewp_bind, ewp_unwinding. unfold failing_commit at 1. apply ewp_wrapping.
  eapply ewp_mono; [by apply wp_before_rename|].
  assert (Hclean : forall s1 x, writing old (Some x) (obj s1) ->
    ewp (remove_temporary token) (fun _ s' => all_sound old (obj s')) s1).
  { intros s1 x Hs1. by eapply wp_remove_temporary. }
  intros [[]|e|] s1 H1.
  - unfold failing_commit. apply ewp_wrapping. apply wp_syscall.
    + intros [[]|e|] h Hr; [done| |]; try intros e'; (split; [by apply renamed_sound|done]).
    + intros h. assert (Hr : renamed (change sync_dir (obj s1)) old).
      { destruct H1 as (Hs & Ht & Hf). split; [exact Hs|]. split; [exact Ht|]. simpl.
        apply Forall_app. split; [done|]. constructor; [by right|done]. }
      split; [by apply renamed_sound|]. by intros _.
  - destruct H1 as [x Hx]. intros e'. eapply ewp_mono; [by eapply Hclean|].
    intros [[]|e2|] s2 Hs2; by split.
  - destruct H1 as [x Hx]. eapply ewp_mono; [by eapply Hclean|].
    intros [[]|e2|] s2 Hs2; by split.
Qed.

(** C22: the durable save is atomic and durable.  At every moment, so also when
    the machine stops there, [state.json] is what it was before or the complete
    new row, which is on the disk before the name refers to it; and when the
    save returns, the new row is there, the directory is synced and no
    temporary file is left.  However often a write takes only some bytes, and
    whatever fails, a failed save leaves the old state or the whole new one. *)
Theorem save_durable_atomic h d :
  let old := state_of d in
  ewp (_save_durable token encoded) (fun r s' =>
    Forall (sound old) (now (obj s') :: seen (obj s')) /\
    (r = Done () ->
       state_of (now (obj s')) = Some (File encoded true) /\
       dir_synced (now (obj s')) = true /\ entries (now (obj s')) !! temporary = None))
    (St h (Disk d [])).
Proof.
  intros old. assert (H0 : all_sound old (Disk d [])) by (split; [by left|done]).
  unfold _save_durable. apply ewp_bind, ewp_wrapping, wp_syscall_.
  assert (Hend : forall r s1, all_sound old (obj s1) ->
    (r = Done () -> renamed (obj s1) old /\ dir_synced (now (obj s1)) = true) ->
    ewp (syscall_ CloseDir) (fun r' s' =>
      match r' with
      | Done _ => (fun y => Forall (sound old) (now (obj s') :: seen (obj s')) /\
          (y = Done () -> state_of (now (obj s')) = Some (File encoded true) /\
             dir_synced (now (obj s')) = true /\ entries (now (obj s')) !! temporary = None)) r
      | Raised e => Forall (sound old) (now (obj s') :: seen (obj s')) /\
          (Raised e = Done () -> state_of (now (obj s')) = Some (File encoded true) /\
             dir_synced (now (obj s')) = true /\ entries (now (obj s')) !! temporary = None)
      | Interrupted => Forall (sound old) (now (obj s') :: seen (obj s')) /\
          (@Interrupted unit = Done () -> state_of (now (obj s')) = Some (File encoded true) /\
             dir_synced (now (obj s')) = true /\ entries (now (obj s')) !! temporary = None)
      end) s1).
  { intros r s1 [Hs Hf] Hr. apply wp_syscall_. simpl.
    assert (Hall : Forall (sound old) (now (obj s1) :: seen (obj s1))) by by constructor.
    intros [[]|e|] h'; (split; [done|]); [|done..]. intros Hd.
    destruct (Hr Hd) as [(Hst & Ht & _) Hsync]. done. }
  assert (Hd : Forall (sound old) [d]) by (constructor; [by left|done]).
  intros [[]|e|] h'; [|intros e'; by split|by split].
  apply ewp_finally, ewp_bind, ewp_wrapping. unfold create. apply ewp_bind, ewp_read, ewp_bind.
  apply ewp_throw_when; [intros _ e'; by apply (Hend (Raised e'))|]. simpl. intros _. apply wp_syscall.
  - intros [[]|e|] h2 Hr; [done|intros e'; by apply (Hend (Raised e'))|by apply (Hend Interrupted)].
  - intros h2. eapply ewp_mono.
    + apply (wp_commit_file old). simpl. eapply (writing_change old (entries d !! temporary));
        [by split|..]; unfold state_of; simpl.
      * by rewrite lookup_insert_ne by apply temporary_other.
      * by rewrite lookup_insert_eq.
    + intros r s2 [Hs2 Hr2]. by apply (Hend r).
Qed.
End durable.
