(* ===== verification/Tracker.v ===== *)
(** * The adapter of the eBPF collector

    [EbpfBackend] of
    [src/plugins/process-tree/src/allox_process_tree/backend.py]: the observer
    that the service seeds and finishes.  A thread reads the collector's
    messages while others send it commands and wait for their
    acknowledgements; all of them share the state below under one condition. *)

From Stdlib Require Import Ascii.
From Stdlib Require String.
From stdpp Require Import gmap pretty.
From S2P Require Import Prelude Effects PyVal Kernel Runs.
Open Scope Z_scope.

Definition TRACKER_ABI : Z := 1.

Record backend := Backend {
  acks : gset (string * Z);          (* self._acks *)
  b_ready : bool;
  b_closed : bool;
  b_error : option string }.

Definition with_acks (a : gset (string * Z)) (b : backend) : backend :=
  Backend a (b_ready b) (b_closed b) (b_error b).
Definition set_ready (b : backend) : backend := Backend (acks b) true (b_closed b) (b_error b).
Definition set_closed (b : backend) : backend := Backend (acks b) (b_ready b) true (b_error b).
Definition set_error (e : string) (b : backend) : backend :=
  Backend (acks b) (b_ready b) (b_closed b) (Some e).

Inductive tcall :=
  | TEvent (message : dict)          (* self._on_event *)
  | TFailure (reason : string)       (* self._on_failure *)
  | TCommand (text : string)         (* write and flush of its standard input *)
  | TClock | TWait (ns : Z)
  | TPoll | TTerminate | TWaitExit | TKill | TJoin | TCloseStreams.

Class Collector := {
  t_event : list tcall -> dict -> reply unit;
  t_failure : list tcall -> string -> reply unit;
  t_command : list tcall -> string -> reply unit;
  t_now : list tcall -> Z;
  t_poll : list tcall -> reply bool;              (* it has ended *)
  t_terminate : list tcall -> reply unit;
  t_wait_exit : list tcall -> reply unit;
  t_kill : list tcall -> reply unit;
  t_others : list tcall -> backend -> backend }.  (* the other threads *)

Section tracker.
Context `{Collector} (fuel : nat).

Definition T (A : Type) : Type := P tcall backend A.

Definition t_yield : T unit := interleave t_others.

(** [with self._condition: m] *)
Definition with_condition {A} (m : T A) : T A := t_yield;; m.

(** ** The reader *)

(** The first failure counts; it is reported unless the adapter was closed. *)
Definition _fail (reason : string) : T unit :=
  notify ← with_condition
    (b ← read (fun b => b);
     match b_error b with
     | None => modify (set_error reason);; mret (negb (b_closed b))
     | Some _ => mret false
     end);
  if (notify : bool) then t_yield;; perform (TFailure reason) (fun l => t_failure l reason)
  else mret ().

(** [(str(message.get("operation")), int(message.get("cookie", 0)))] *)
Definition ack_of (message : dict) : result (string * Z) :=
  cookie ← py_int (dget_or "cookie" (PInt 0) message);
  Ok (py_str (dgetn "operation" message), cookie).

(** One line; the value says whether the loop goes on. *)
Definition read_line (line : result pyval) : T bool :=
  match line with
  | Err JSONDecodeError => _fail "collector returned invalid JSON";; mret false
  | Err e => throw e
  | Ok (PDict message) =>
      let kind := dgetn "kind" message in
      if py_eqb kind (PStr "ready") then
        if negb (py_eqb (dgetn "abi" message) (PInt TRACKER_ABI)) then
          _fail ("collector ABI " +:+ py_str (dgetn "abi" message) +:+ " != required ABI "
                 +:+ pretty TRACKER_ABI);;
          mret false
        else with_condition (modify set_ready);; mret true
      else if py_eqb kind (PStr "ack") then
        with_condition
          (key ← lift (ack_of message);
           modify (fun b => with_acks ({[ key ]} ∪ acks b) b));;
        mret true
      else if py_eqb kind (PStr "event") then
        t_yield;; perform (TEvent message) (fun l => t_event l message);; mret true
      else if py_eqb kind (PStr "error") then
        _fail (py_str (dget_or "error" (PStr "collector error") message));; mret false
      else _fail "collector returned an unknown message kind";; mret false
  | Ok _ => throw AttributeError
  end.

Fixpoint read_lines (lines : list (result pyval)) : T unit :=
  match lines with
  | [] => mret ()
  | line :: lines => more ← read_line line; if (more : bool) then read_lines lines else mret ()
  end.

(** [lines] is what the collector writes until its output ends. *)
Definition _read_stdout (lines : list (result pyval)) : T unit :=
  finally
    (catch (read_lines lines)
       (fun e => _fail ("collector protocol/consumer failure: " +:+ exn_name e)))
    (t_yield;;
     closed ← read b_closed;
     if (closed : bool) then mret () else _fail "collector exited unexpectedly").

(** ** Commands *)

Definition t_clock_now : T Z := perform TClock (fun l => Done (t_now l)).

Definition failed (b : backend) : bool :=
  match b_error b with Some (String _ _) => true | _ => false end.

Definition check_error : T unit :=
  b ← read (fun b => b);
  match b_error b with
  | Some (String c e) => throw (WorkspaceError ("eBPF tracker failed: " +:+ String c e))
  | _ => mret ()
  end.

(** The wait for the acknowledgement; the condition is given up meanwhile. *)
Fixpoint await_ack (n : nat) (operation : string) (key : string * Z) (deadline : Z) : T unit :=
  match n with
  | O => fun s => (Interrupted, s)
  | S n =>
      b ← read (fun b => b);
      if bool_decide (key ∈ acks b) || bool_decide (is_Some (b_error b)) then mret ()
      else
        now ← t_clock_now;
        throw_when (deadline - now <=? 0)
          (WorkspaceError ("eBPF tracker " +:+ operation +:+ " acknowledgement timed out"));;
        perform (TWait (deadline - now)) (fun _ => Done ());;
        t_yield;;
        await_ack n operation key deadline
  end.

(** [self._acks.remove(key)] *)
Definition consume (key : string * Z) : T unit :=
  b ← read (fun b => b);
  if bool_decide (key ∈ acks b) then modify (with_acks (acks b ∖ {[ key ]})) else throw KeyError.

Definition command (operation : string) (pid cookie : Z) : string :=
  operation +:+ " " +:+ pretty pid +:+ " " +:+ pretty cookie +:+ String "010" EmptyString.

Definition _control (operation : string) (pid cookie : Z) : T unit :=
  throw_when ((pid <=? 0) || (cookie <=? 0))
    (WorkspaceError "tracker pid and cookie must be positive");;
  with_condition
    (check_error;;
     catch (perform (TCommand (command operation pid cookie))
              (fun l => t_command l (command operation pid cookie)))
       (fun e => if is_os_error e
                 then throw (WorkspaceError "eBPF tracker control channel failed") else throw e);;
     start ← t_clock_now;
     await_ack fuel operation (operation, cookie) (start + seconds 5);;
     check_error;;
     consume (operation, cookie)).

Definition seed (pid cookie : Z) : T unit := _control "seed" pid cookie.
Definition finish (pid cookie : Z) : T unit := _control "finish" pid cookie.

Definition backend_status (pid : Z) : T dict :=
  with_condition
    (b ← read (fun b => b);
     mret [("backend", PStr "ebpf"); ("abi", PInt TRACKER_ABI);
           ("ready", PBool (b_ready b && bool_decide (b_error b = None)));
           ("error", match b_error b with Some e => PStr e | None => PNone end);
           ("pid", PInt pid)]).

Definition stop_collector : T unit :=
  ended ← (t_yield;; perform TPoll (fun l => t_poll l));
  if (ended : bool) then mret ()
  else
    perform TTerminate (fun l => t_terminate l);;
    catch (t_yield;; perform TWaitExit (fun l => t_wait_exit l))
      (fun e => if bool_decide (e = TimeoutExpired) then
                  perform TKill (fun l => t_kill l);;
                  t_yield;; perform TWaitExit (fun l => t_wait_exit l)
                else throw e).

Definition close_backend : T unit :=
  first ← with_condition
    (closed ← read b_closed;
     if (closed : bool) then mret false else modify set_closed;; mret true);
  if (first : bool) then
    stop_collector;;
    t_yield;; perform TJoin (fun _ => Done ());;
    perform TCloseStreams (fun _ => Done ())
  else mret ().

(** ** Start *)

(** The wait for readiness in the constructor. *)
Fixpoint await_ready (n : nat) (deadline : Z) : T unit :=
  match n with
  | O => fun s => (Interrupted, s)
  | S n =>
      b ← read (fun b => b);
      if b_ready b || bool_decide (is_Some (b_error b)) then mret ()
      else
        now ← t_clock_now;
        if deadline - now <=? 0 then mret ()
        else
          perform (TWait (deadline - now)) (fun _ => Done ());;
          t_yield;;
          await_ready n deadline
  end.

(** [__init__] once the collector runs; [detail] is what it wrote to its
    standard error. *)
Definition await_collector (ready_timeout : Z) (detail : string) : T unit :=
  start ← t_clock_now;
  with_condition (await_ready fuel (start + ready_timeout));;
  t_yield;;
  ready ← read b_ready;
  if (ready : bool) then mret ()
  else
    t_yield;;
    b ← read (fun b => b);
    let error := match b_error b with
                 | Some (String c e) => String c e
                 | _ => "collector readiness timed out"
                 end in
    close_backend;;
    throw (WorkspaceError ("eBPF tracker unavailable: " +:+ error +:+ String "010" EmptyString
                           +:+ detail)).
End tracker.

(** * What the adapter of the collector promises

    A command returns only on its own acknowledgement; a collector that fails,
    or ends, is noticed for good, reported at most once and never waited for. *)

(** What the threads keep of each other's work: a failure, the readiness and
    the end are final; acknowledgements come and go. *)
Record tracker_kept (b b' : backend) : Prop := {
  kept_error : forall e, b_error b = Some e -> b_error b' = Some e;
  kept_closed : b_closed b = true -> b_closed b' = true;
  kept_ready : b_ready b = true -> b_ready b' = true }.

#[export] Instance tracker_kept_preorder : PreOrder tracker_kept.
Proof. split; [by intros b; split|]. intros a b c [A1 A2 A3] [B1 B2 B3]. split; auto. Qed.

Definition is_failure (c : tcall) : bool := match c with TFailure _ => true | _ => false end.

(** How often a failure was reported. *)
Definition reports (k : list tcall) : nat := length (List.filter is_failure k).

Lemma reports_app k1 k2 : reports (k1 ++ k2) = (reports k1 + reports k2)%nat.
Proof. unfold reports. by rewrite List.filter_app, length_app. Qed.

Section tracker.
Context `{Collector} (fuel : nat).
Context (others_kept : forall h b, tracker_kept b (t_others h b)).

(** ** The reader *)

(** Nothing is reported any more. *)
Definition silenced (b : backend) : Prop := b_error b <> None \/ b_closed b = true.

(** From [s] to [s'], at most one failure is reported, none once one is
    remembered or the adapter is closed, and what is reported is remembered. *)
Definition once (s s' : st tcall backend) : Prop :=
  exists k, hist s' = hist s ++ k /\ tracker_kept (obj s) (obj s') /\
    (silenced (obj s) -> reports k = 0%nat) /\
    (reports k <= 1)%nat /\ (reports k = 1%nat -> b_error (obj s') <> None).

Lemma kept_silenced b b' : tracker_kept b b' -> silenced b -> silenced b'.
Proof.
  intros Hk [Hb|Hb]; [left|right; by apply (kept_closed _ _ Hk)].
  destruct (b_error b) as [e|] eqn:E; [|done]. by rewrite (kept_error _ _ Hk e E).
Qed.

Lemma kept_not_none b b' : tracker_kept b b' -> b_error b <> None -> b_error b' <> None.
Proof.
  intros Hk Hb. destruct (b_error b) as [e|] eqn:E; [|done].
  by rewrite (kept_error _ _ Hk e E).
Qed.

Lemma once_quiet s s' k :
  hist s' = hist s ++ k -> reports k = 0%nat -> tracker_kept (obj s) (obj s') -> once s s'.
Proof. intros Hk Hr Ht. exists k. rewrite Hr. split_and!; try done. lia. Qed.

#[export] Instance once_preorder : PreOrder once.
Proof.
  split; [intros s; apply (once_quiet s s []); by rewrite ?app_nil_r|].
  intros s s1 s2 (k & Hk & Hkept & Hz & Hle & Hset) (k2 & Hk2 & Hkept2 & Hz2 & Hle2 & Hset2).
  exists (k ++ k2). rewrite Hk2, Hk, app_assoc, reports_app.
  split; [done|]. split; [by transitivity (obj s1)|].
  split; [intros Hb; rewrite (Hz Hb), Hz2; [done|by eapply kept_silenced]|].
  destruct (decide (reports k = 1%nat)) as [E|E].
  - rewrite (Hz2 (or_introl (Hset E))). split; [lia|]. intros _. by eapply kept_not_none; [|apply Hset].
  - split; [lia|]. intros E2. apply Hset2. lia.
Qed.

Definition reports_once {A} (m : T A) : Prop := forall s, once s (m s).2.

Lemma once_ret {A} (a : A) : reports_once (mret a : T A).
Proof. intros s. reflexivity. Qed.

Lemma once_throw {A} e : reports_once (throw e : T A).
Proof. intros s. reflexivity. Qed.

Lemma once_lift {A} (r : result A) : reports_once (lift r : T A).
Proof. by intros s; destruct r. Qed.

Lemma once_read {A} (f : backend -> A) : reports_once (read f : T A).
Proof. intros s. reflexivity. Qed.

Lemma once_modify f : (forall b, tracker_kept b (f b)) -> reports_once (modify f : T unit).
Proof. intros Hf s. eapply (once_quiet _ _ []); simpl; [by rewrite app_nil_r|done|apply Hf]. Qed.

Lemma once_yield : reports_once t_yield.
Proof.
  intros s. eapply (once_quiet _ _ []); simpl; [by rewrite app_nil_r|done|apply others_kept].
Qed.

Lemma once_perform {A} c (answer : list tcall -> reply A) :
  is_failure c = false -> reports_once (perform c answer : T A).
Proof.
  intros Hc s. apply (once_quiet _ _ [c]); [done| |reflexivity].
  unfold reports. simpl. by rewrite Hc.
Qed.

Lemma once_bind {A B} (m : T A) (f : A -> T B) :
  reports_once m -> (forall a, reports_once (f a)) -> reports_once (m ≫= f).
Proof.
  intros Hm Hf s. specialize (Hm s). unfold mbind, P_bind.
  destruct (m s) as [[a|e|] s1]; simpl in *; [|done..]. etransitivity; [exact Hm|apply Hf].
Qed.

Lemma once_catch {A} (m : T A) h :
  reports_once m -> (forall e, reports_once (h e)) -> reports_once (catch m h).
Proof.
  intros Hm Hh s. specialize (Hm s). unfold catch.
  destruct (m s) as [[a|e|] s1]; simpl in *; [done| |done]. etransitivity; [exact Hm|apply Hh].
Qed.

Lemma once_finally {A} (m : T A) fin :
  reports_once m -> reports_once fin -> reports_once (finally m fin).
Proof.
  intros Hm Hf s. specialize (Hm s). unfold finally. destruct (m s) as [r s1]. simpl in *.
  specialize (Hf s1). destruct (fin s1) as [[[]|e|] s2]; simpl in *; by transitivity s1.
Qed.

(** The first failure is remembered before it is reported. *)
Lemma once__fail reason : reports_once (_fail reason).
Proof.
  intros [h b]. cbv [_fail with_condition t_yield mbind P_bind interleave read modify perform mret P_ret].
  cbn.
  pose proof (others_kept h b) as Hk. set (b1 := t_others h b) in *. clearbody b1.
  destruct (b_error b1) as [e|] eqn:E; simpl.
  { apply (once_quiet _ _ []); simpl; [by rewrite app_nil_r|done|done]. }
  assert (Hset : tracker_kept b (set_error reason b1)).
  { etransitivity; [exact Hk|]. split; simpl; [intros e0; by rewrite E|done|done]. }
  destruct (b_closed b1) eqn:Ec; simpl.
  { apply (once_quiet _ _ []); simpl; [by rewrite app_nil_r|done|done]. }
  exists [TFailure reason]. split; [done|].
  assert (Hk2 : tracker_kept b (t_others h (set_error reason b1))).
  { etransitivity; [exact Hset|apply others_kept]. }
  split; [done|]. split.
  { intros Hb. destruct (kept_silenced _ _ Hk Hb) as [Hb1|Hb1]; [by rewrite E in Hb1|].
    by rewrite Ec in Hb1. }
  split; [done|]. intros _. simpl.
  by rewrite (kept_error _ _ (others_kept h (set_error reason b1)) reason eq_refl).
Qed.

Lemma fail_settles reason s : b_error (obj (_fail reason s).2) <> None.
Proof.
  destruct s as [h b].
  cbv [_fail with_condition t_yield mbind P_bind interleave read modify perform mret P_ret]. cbn.
  set (b1 := t_others h b). clearbody b1. destruct (b_error b1) as [e|] eqn:E; cbn; [by rewrite E|].
  destruct (b_closed b1); cbn; [done|].
  by rewrite (kept_error _ _ (others_kept h (set_error reason b1)) reason eq_refl).
Qed.

Ltac once_step :=
  first
    [ apply once_ret | apply once_throw | apply once_lift | apply once_read | apply once_yield
    | apply once__fail | apply once_perform; reflexivity
    | apply once_bind; [|intros ?] | apply once_catch; [|intros ?] | apply once_finally
    | apply once_modify; intros ?; by split ].

Lemma once_read_line line : reports_once (read_line line).
Proof.
  unfold read_line, with_condition.
  repeat first [once_step | match goal with |- reports_once (match ?x with _ => _ end) => destruct x end].
Qed.

Lemma once_read_lines lines : reports_once (read_lines lines).
Proof.
  induction lines as [|line lines IH]; simpl; [once_step|].
  apply once_bind; [apply once_read_line|]. intros []; [exact IH|once_step].
Qed.

Lemma once_read_stdout lines : reports_once (_read_stdout lines).
Proof.
  unfold _read_stdout. repeat first [apply once_read_lines|once_step|
    match goal with |- reports_once (match ?x with _ => _ end) => destruct x end].
Qed.

(** However the reading went, the last look finds the adapter closed or
    remembers that the collector is gone. *)
Lemma finally_snd {A} (m : T A) fin s : (finally m fin s).2 = (fin (m s).2).2.
Proof. unfold finally. destruct (m s) as [r s1]. simpl. by destruct (fin s1) as [[[]|e|] s2]. Qed.

Lemma reader_settles lines s : silenced (obj (_read_stdout lines s).2).
Proof.
  unfold _read_stdout. rewrite finally_snd. set (s1 := (catch _ _ s).2). clearbody s1.
  cbv [t_yield mbind P_bind interleave read]. cbn.
  destruct (b_closed (t_others (hist s1) (obj s1))) eqn:E; cbn; [by right|].
  left. apply fail_settles.
Qed.

(** Also: whatever the collector writes, well formed or not, and whatever its
    consumer does with the events, the reader ends with the adapter closed or
    its failure remembered; it reports at most one failure, none when a
    failure was already known or the adapter closed, and each reported failure
    is remembered. *)
Theorem collector_end_noticed lines s :
  let s' := (_read_stdout lines s).2 in
  silenced (obj s') /\
  exists k, hist s' = hist s ++ k /\ (reports k <= 1)%nat /\
    (silenced (obj s) -> reports k = 0%nat) /\ (reports k = 1%nat -> b_error (obj s') <> None).
Proof.
  split; [apply reader_settles|].
  destruct (once_read_stdout lines s) as (k & Hk & _ & Hz & Hle & Hset). by exists k.
Qed.

(** ** Commands *)

Definition is_wait (c : tcall) : bool := match c with TWait _ => true | _ => false end.
Definition waits (k : list tcall) : nat := length (List.filter is_wait k).

Lemma waits_app k1 k2 : waits (k1 ++ k2) = (waits k1 + waits k2)%nat.
Proof. unfold waits. by rewrite List.filter_app, length_app. Qed.

(** Five seconds pass within [wakeups] waits. *)
Definition paced (wakeups : nat) : Prop := forall h k,
  (wakeups <= waits k)%nat -> t_now h + seconds 5 <= t_now (h ++ k).

(** A wait for an acknowledgement that ends was granted, or sees a failure, or
    has timed out; it calls nothing but the clock and the condition. *)
Lemma await_ack_ends n operation key deadline s :
  let r := await_ack n operation key deadline s in
  (exists k, hist r.2 = hist s ++ k) /\
  match r.1 with
  | Done _ => key ∈ acks (obj r.2) \/ is_Some (b_error (obj r.2))
  | Raised e => exists m, e = WorkspaceError m
  | Interrupted => True
  end.
Proof.
  revert s. induction n as [|n IH]; intros s; simpl.
  { split; [exists []; by rewrite app_nil_r|done]. }
  cbv [mbind P_bind read]. cbn.
  destruct (bool_decide (key ∈ acks (obj s))) eqn:Ea; cbn.
  { split; [exists []; by rewrite app_nil_r|left; by apply bool_decide_eq_true in Ea]. }
  destruct (bool_decide (is_Some (b_error (obj s)))) eqn:Ee; cbn.
  { split; [exists []; by rewrite app_nil_r|right; by apply bool_decide_eq_true in Ee]. }
  cbv [t_clock_now t_yield perform interleave throw_when]. cbn.
  destruct (deadline - t_now (hist s) <=? 0); cbn.
  { split; [by exists [TClock]|by eexists]. }
  match goal with |- context [await_ack n _ _ _ ?s'] => destruct (IH s') as [[k Hk] Hr] end.
  split; [|exact Hr]. rewrite Hk. cbn. rewrite <- !app_assoc. by eexists.
Qed.

Lemma await_ack_settles wakeups n operation key h k s :
  paced wakeups -> hist s = h ++ k -> (waits k <= wakeups < n + waits k)%nat ->
  (await_ack n operation key (t_now h + seconds 5) s).1 <> Interrupted.
Proof.
  intros Hp. revert k s. induction n as [|n IH]; intros k s Hs Hn; [lia|]. simpl.
  cbv [mbind P_bind read]. cbn.
  destruct (bool_decide (key ∈ acks (obj s))); cbn; [done|].
  destruct (bool_decide (is_Some (b_error (obj s)))); cbn; [done|].
  cbv [t_clock_now t_yield perform interleave throw_when]. cbn. rewrite Hs.
  destruct (Z.leb_spec (t_now h + seconds 5 - t_now (h ++ k)) 0); cbn; [done|].
  apply (IH (k ++ [TClock; TWait (t_now h + seconds 5 - t_now (h ++ k))])); cbn.
  - by rewrite <- !app_assoc.
  - rewrite waits_app. cbn. destruct (decide (wakeups <= waits k)%nat) as [Hw|Hw]; [|lia].
    specialize (Hp h k Hw). lia.
Qed.

(** What a command that ends has done. *)
Definition acknowledged (operation : string) (pid cookie : Z) (h : list tcall)
    (s' : st tcall backend) : Prop :=
  0 < pid /\ 0 < cookie /\
  t_command h (command operation pid cookie) = Done () /\
  (exists k, hist s' = h ++ TCommand (command operation pid cookie) :: k) /\
  exists b, (operation, cookie) ∈ acks b /\ failed b = false /\
            obj s' = with_acks (acks b ∖ {[ (operation, cookie) ]}) b.

Lemma check_error_spec s :
  (failed (obj s) = false /\ check_error s = (Done (), s)) \/
  exists m, check_error s = (Raised (WorkspaceError m), s).
Proof.
  unfold failed, check_error. cbv [mbind P_bind read]. cbn.
  destruct (b_error (obj s)) as [[|c e]|]; cbn; [by left|right; by eexists|by left].
Qed.

Lemma ewp_check_error (Q : reply unit -> st tcall backend -> Prop) s :
  (failed (obj s) = false -> Q (Done ()) s) ->
  (forall m, Q (Raised (WorkspaceError m)) s) -> ewp check_error Q s.
Proof.
  intros Hok Hbad. unfold ewp. destruct (check_error_spec s) as [[Hf ->]|[m ->]];
    [by apply Hok|apply Hbad].
Qed.

(** After the command was sent: the rest of [_control]. *)
Lemma ewp_acknowledgement operation pid cookie h s :
  0 < pid -> 0 < cookie -> t_command h (command operation pid cookie) = Done () ->
  hist s = h ++ [TCommand (command operation pid cookie)] ->
  ewp (start ← t_clock_now;
       await_ack fuel operation (operation, cookie) (start + seconds 5);;
       check_error;; consume (operation, cookie))
    (fun r s' => match r with
                 | Done _ => acknowledged operation pid cookie h s'
                 | Raised e => (exists m, e = WorkspaceError m) \/
                               (e = KeyError /\ b_error (obj s') = Some ""%string)
                 | Interrupted => forall n, paced n -> (fuel <= n)%nat
                 end) s.
Proof.
  intros Hpid Hc Hcmd Hs. unfold ewp, t_clock_now.
  cbv [perform mbind P_bind]. cbn.
  set (s1 := St (hist s ++ [TClock]) (obj s)).
  pose proof (await_ack_ends fuel operation (operation, cookie) (t_now (hist s) + seconds 5) s1)
    as [[k Hk] Hr].
  pose proof (fun n Hp => await_ack_settles n fuel operation (operation, cookie) (hist s) [TClock] s1
                            Hp eq_refl) as Hend.
  destruct (await_ack fuel operation (operation, cookie) (t_now (hist s) + seconds 5) s1)
    as [[[]|e|] s2]; cbn in *; [|by left|].
  2: { intros n Hp. destruct (decide (n < fuel)%nat); [|lia].
       exfalso. apply (Hend n Hp); [unfold waits; simpl; lia|done]. }
  destruct (check_error_spec s2) as [[Hf ->]|[m ->]]; cbn; [|left; by eexists].
  unfold consume. cbv [mbind P_bind read]. cbn.
  destruct (bool_decide ((operation, cookie) ∈ acks (obj s2))) eqn:Ea; cbn.
  - apply bool_decide_eq_true in Ea. split_and!; try done.
    + exists (TClock :: k). cbn. rewrite Hk. subst s1. cbn. rewrite Hs. by rewrite <- !app_assoc.
    + by exists (obj s2).
  - apply bool_decide_eq_false in Ea. destruct Hr as [Hr|[e He]]; [done|]. right.
    split; [done|]. unfold failed in Hf. rewrite He in *. by destruct e.
Qed.

(** Also: a command returns only when it was sent whole and the collector's own
    acknowledgement of it, same operation and same cookie, had arrived with no
    failure known; that acknowledgement is used up, so it answers no second
    command.  Given that five seconds pass within [n] wake-ups the command
    never waits for ever, and otherwise it raises [WorkspaceError], an error
    of the pipe that is not an [OSError], or, only after a failure whose
    message is empty, [KeyError]. *)
Theorem command_acknowledged operation pid cookie n s :
  paced n -> (n < fuel)%nat ->
  t_command (hist s) (command operation pid cookie) <> Interrupted ->
  match _control fuel operation pid cookie s with
  | (Done _, s') => acknowledged operation pid cookie (hist s) s'
  | (Raised e, s') =>
      (exists m, e = WorkspaceError m) \/ (e = KeyError /\ b_error (obj s') = Some ""%string) \/
      (t_command (hist s) (command operation pid cookie) = Raised e /\ is_os_error e = false)
  | (Interrupted, _) => False
  end.
Proof.
  intros Hp Hn Hcmd.
  enough (ewp (_control fuel operation pid cookie)
    (fun r s' => match r with
     | Done _ => acknowledged operation pid cookie (hist s) s'
     | Raised e =>
         (exists m, e = WorkspaceError m) \/ (e = KeyError /\ b_error (obj s') = Some ""%string) \/
         (t_command (hist s) (command operation pid cookie) = Raised e /\ is_os_error e = false)
     | Interrupted => False end) s) as He.
  { unfold ewp in He. by destruct (_control fuel operation pid cookie s) as [[[]|e|] s']. }
  unfold _control. apply ewp_bind, ewp_throw_when;
    intros Hpos; [by left; eexists|apply orb_false_iff in Hpos; rewrite !Z.leb_gt in Hpos].
  unfold with_condition. apply ewp_bind, ewp_interleave. cbn.
  apply ewp_bind, ewp_check_error; [intros _|intros m; left; by eexists].
  apply ewp_bind, ewp_catch, ewp_perform. intros r <-. cbn [hist obj].
  destruct (t_command (hist s) (command operation pid cookie)) as [[]|e|] eqn:Ec;
    cbv beta iota.
  - eapply ewp_mono; [apply (ewp_acknowledgement operation pid cookie (hist s)); [apply Hpos..|done|done]|].
    intros [[]|e|] s' Hr; cbn in *; [done|tauto|]. specialize (Hr n Hp). lia.
  - destruct (is_os_error e) eqn:Eo; apply ewp_throw; [by left; eexists|by right; right].
  - done.
Qed.
End tracker.

(** ** A concrete collector *)

(** Its other thread hands in what [said] says of the calls so far. *)
Definition demo_collector (said : list tcall -> backend -> backend) : Collector := {|
  t_event _ _ := Done ();
  t_failure _ _ := Done ();
  t_command _ _ := Done ();
  t_now l := Z.of_nat (waits l) * seconds 5;
  t_poll _ := Done true;
  t_terminate _ := Done ();
  t_wait_exit _ := Done ();
  t_kill _ := Done ();
  t_others := said |}.

Definition fresh : backend := Backend ∅ true false None.

(** The acknowledgement arrives during the first wait. *)
Definition acknowledging (h : list tcall) (b : backend) : backend :=
  if (waits h =? 1)%nat then with_acks {[ ("seed"%string, 7) ]} b else b.

Lemma demo_paced said : @paced (demo_collector said) 1.
Proof. intros h k Hk. unfold t_now. simpl. rewrite waits_app. unfold seconds. lia. Defined.

Lemma command_acknowledged_witness :
  acknowledged (H := demo_collector acknowledging) "seed" 42 7 []
    (@_control (demo_collector acknowledging) 5 "seed" 42 7 (St [] fresh)).2.
Proof.
  exact (@command_acknowledged (demo_collector acknowledging) 5 "seed" 42 7 1 (St [] fresh)
           (demo_paced _) ltac:(lia) ltac:(discriminate)).
Defined.

Lemma acknowledging_keeps h b : tracker_kept b (@t_others (demo_collector acknowledging) h b).
Proof. simpl. unfold acknowledging. destruct (waits h =? 1)%nat; by split. Defined.

(** An event, then an object of a kind unknown. *)
Lemma collector_end_noticed_witness :
  silenced (obj (@_read_stdout (demo_collector acknowledging)
    [Ok (PDict [("kind", PStr "event")]); Ok (PDict [("kind", PStr "odd")])] (St [] fresh)).2).
Proof.
  exact (proj1 (@collector_end_noticed (demo_collector acknowledging) acknowledging_keeps
    [Ok (PDict [("kind", PStr "event")]); Ok (PDict [("kind", PStr "odd")])] (St [] fresh))).
Defined.

(** The collector reports an error with an empty message: the failure is known
    ([_error is not None]) and yet false, so the command leaves the wait,
    passes the check of the error, and fails to find its acknowledgement. *)
Definition empty_error (h : list tcall) (b : backend) : backend :=
  if (waits h =? 1)%nat then (@_read_stdout (demo_collector (fun _ b => b))
    [Ok (PDict [("kind", PStr "error"); ("error", PStr "")])] (St h b)).2.(obj) else b.

Theorem empty_error_escapes :
  (@_control (demo_collector empty_error) 5 "seed" 42 7 (St [] fresh)).1 = Raised KeyError.
Proof. vm_compute. reflexivity. Qed.
