(* ===== verification/Share.v ===== *)
(** * Sharing files between sessions

    [src/plugins/session-share/src/allox_session_share/sharing.py]: a session
    that opted in reads, lists and writes files of another that opted in, below
    the directory it shares.  The daemon opens the files itself, one component
    at a time, while agents change the same directories; so the disk is an
    inode graph that others may change between any two calls, and the calls are
    those of the [os] module on descriptors. *)

From Stdlib Require Import Ascii.
From Stdlib Require String.
From stdpp Require Import gmap sorting.
From S2P Require Import Prelude Effects PyVal Ids StoreFiles Kernel.
Open Scope Z_scope.

(** * Base64

    [base64.b64encode] and [base64.b64decode(..., validate=True)] of Python's
    standard library, on which the plugin and its tool carry the contents of
    files.  Bytes and text are strings of 8-bit characters. *)

Definition byte_of (c : ascii) : Z := Z.of_N (N_of_ascii c).
Definition char_of (n : Z) : ascii := ascii_of_N (Z.to_N n).

Lemma char_of_byte c : char_of (byte_of c) = c.
Proof. unfold char_of, byte_of. by rewrite N2Z.id, ascii_N_embedding. Qed.

Lemma byte_of_char n : 0 <= n < 256 -> byte_of (char_of n) = n.
Proof. intros Hn. unfold char_of, byte_of. rewrite N_ascii_embedding by lia. lia. Qed.

Lemma byte_range c : 0 <= byte_of c < 256.
Proof. unfold byte_of. pose proof (N_ascii_bounded c). lia. Qed.

(** ** The alphabet *)

(** The 6-bit value [n] as a character. *)
Definition sextet_char (n : Z) : ascii :=
  char_of (if n <? 26 then 65 + n else if n <? 52 then 71 + n else if n <? 62 then n - 4
           else if n =? 62 then 43 else 47).

Definition sextet (c : ascii) : option Z :=
  let b := byte_of c in
  if (65 <=? b) && (b <=? 90) then Some (b - 65)
  else if (97 <=? b) && (b <=? 122) then Some (b - 71)
  else if (48 <=? b) && (b <=? 57) then Some (b + 4)
  else if b =? 43 then Some 62
  else if b =? 47 then Some 63
  else None.

Definition PAD : ascii := "="%char.

Lemma sextet_of_char n : 0 <= n < 64 -> sextet (sextet_char n) = Some n.
Proof.
  intros Hn. unfold sextet, sextet_char. rewrite byte_of_char; repeat case_match; simplify_eq/=;
    try (f_equal; lia); try lia; exfalso; lia.
Qed.

Lemma sextet_char_pad n : 0 <= n < 64 -> sextet_char n <> PAD.
Proof. intros Hn E. pose proof (sextet_of_char n Hn) as Hs. by rewrite E in Hs. Qed.

(** ** Encoding and decoding *)

Definition quad (a b c d : ascii) (s : string) : string := String a (String b (String c (String d s))).

Fixpoint b64encode (s : string) : string :=
  match s with
  | EmptyString => EmptyString
  | String a s =>
      let x := byte_of a in
      match s with
      | EmptyString =>
          quad (sextet_char (x / 4)) (sextet_char (x mod 4 * 16)) PAD PAD EmptyString
      | String b s =>
          let y := byte_of b in
          match s with
          | EmptyString =>
              quad (sextet_char (x / 4)) (sextet_char (x mod 4 * 16 + y / 16))
                (sextet_char (y mod 16 * 4)) PAD EmptyString
          | String c s =>
              let z := byte_of c in
              quad (sextet_char (x / 4)) (sextet_char (x mod 4 * 16 + y / 16))
                (sextet_char (y mod 16 * 4 + z / 64)) (sextet_char (z mod 64)) (b64encode s)
          end
      end
  end.

(** [None] is [binascii.Error]: a character outside the alphabet, padding in
    the wrong place, or an incomplete group.  The bits that a padded group has
    too many are not looked at. *)
Fixpoint b64decode (s : string) : option string :=
  match s with
  | EmptyString => Some EmptyString
  | String a (String b (String c (String d s))) =>
      x ← sextet a; y ← sextet b;
      let first := char_of (x * 4 + y / 16) in
      if bool_decide (c = PAD) then
        if bool_decide (d = PAD) && str_eqb s EmptyString
        then Some (String first EmptyString) else None
      else
        z ← sextet c;
        let second := char_of (y mod 16 * 16 + z / 4) in
        if bool_decide (d = PAD) then
          if str_eqb s EmptyString then Some (String first (String second EmptyString)) else None
        else
          w ← sextet d;
          rest ← b64decode s;
          Some (String first (String second (String (char_of (z mod 4 * 64 + w)) rest)))
  | _ => None
  end.

(** Induction by groups of three bytes. *)
Lemma triples_ind (P : string -> Prop) :
  P EmptyString -> (forall a, P (String a EmptyString)) ->
  (forall a b, P (String a (String b EmptyString))) ->
  (forall a b c s, P s -> P (String a (String b (String c s)))) -> forall s, P s.
Proof.
  intros H0 Ha Hb Hc. fix IH 1. intros [|a [|b [|c s]]]; [done..|]. apply Hc, IH.
Qed.

Lemma group_range x y z : 0 <= x < 256 -> 0 <= y < 256 -> 0 <= z < 256 ->
  0 <= x / 4 < 64 /\ 0 <= x mod 4 * 16 + y / 16 < 64 /\ 0 <= y mod 16 * 4 + z / 64 < 64 /\
  0 <= z mod 64 < 64.
Proof. intros. repeat split; Z.to_euclidean_division_equations; lia. Qed.

Lemma first_byte a y : 0 <= y < 256 ->
  char_of (byte_of a / 4 * 4 + (byte_of a mod 4 * 16 + y / 16) / 16) = a.
Proof.
  intros Hy. rewrite <- (char_of_byte a) at 3. f_equal. pose proof (byte_range a).
  Z.to_euclidean_division_equations. lia.
Qed.

Lemma second_byte b x z : 0 <= z < 256 ->
  char_of ((x mod 4 * 16 + byte_of b / 16) mod 16 * 16 + (byte_of b mod 16 * 4 + z / 64) / 4) = b.
Proof.
  intros Hz. rewrite <- (char_of_byte b) at 3. f_equal. pose proof (byte_range b).
  Z.to_euclidean_division_equations. lia.
Qed.

Lemma third_byte c y :
  char_of ((y mod 16 * 4 + byte_of c / 64) mod 4 * 64 + byte_of c mod 64) = c.
Proof.
  rewrite <- (char_of_byte c) at 3. f_equal. pose proof (byte_range c).
  Z.to_euclidean_division_equations. lia.
Qed.

(** ** What a decoder recovers *)

Lemma decode_group a b c s :
  b64decode (quad (sextet_char (byte_of a / 4)) (sextet_char (byte_of a mod 4 * 16 + byte_of b / 16))
               (sextet_char (byte_of b mod 16 * 4 + byte_of c / 64))
               (sextet_char (byte_of c mod 64)) s)
  = rest ← b64decode s; Some (String a (String b (String c rest))).
Proof.
  pose proof (group_range _ _ _ (byte_range a) (byte_range b) (byte_range c)) as (G1 & G2 & G3 & G4).
  unfold quad. cbn [b64decode]. rewrite !sextet_of_char by done. cbn [mbind option_bind].
  rewrite !bool_decide_eq_false_2 by (by apply sextet_char_pad). cbn [mbind option_bind].
  rewrite first_byte, second_byte, third_byte by apply byte_range. done.
Qed.

Lemma b64_roundtrip s : b64decode (b64encode s) = Some s.
Proof.
  induction s as [|a|a b|a b c s IH] using triples_ind; [done|..]; simpl b64encode.
  - pose proof (group_range _ 0 0 (byte_range a) ltac:(lia) ltac:(lia)) as (G1 & G2 & _).
    rewrite Z.add_0_r in G2. unfold quad. cbn [b64decode].
    rewrite !sextet_of_char by done. cbn [mbind option_bind].
    rewrite !bool_decide_eq_true_2 by done. cbn.
    pose proof (first_byte a 0 ltac:(lia)) as E. rewrite Z.add_0_r in E. by rewrite E.
  - pose proof (group_range _ _ 0 (byte_range a) (byte_range b) ltac:(lia)) as (G1 & G2 & G3 & _).
    rewrite Z.add_0_r in G3. unfold quad. cbn [b64decode].
    rewrite !sextet_of_char by done. cbn [mbind option_bind].
    rewrite bool_decide_eq_false_2 by (by apply sextet_char_pad).
    rewrite bool_decide_eq_true_2 by done. cbn.
    rewrite first_byte by apply byte_range.
    pose proof (second_byte b (byte_of a) 0 ltac:(lia)) as E. rewrite Z.add_0_r in E. by rewrite E.
  - by rewrite decode_group, IH.
Qed.

Lemma b64encode_length s :
  Z.of_nat (String.length (b64encode s)) = (Z.of_nat (String.length s) + 2) / 3 * 4.
Proof.
  induction s as [|a|a b|a b c s IH] using triples_ind; [done..|].
  simpl b64encode. unfold quad. cbn [String.length]. rewrite !Nat2Z.inj_succ.
  Z.to_euclidean_division_equations. lia.
Qed.

(** An encoding is ASCII. *)
Lemma b64encode_eq_nil s : b64encode s = EmptyString -> s = EmptyString.
Proof. by destruct s as [|a [|b [|c s]]]. Qed.

(** * The service *)

Abbreviation identity := (string * string)%type.

(** ** The disk *)

Inductive inode_kind :=
  | IDir (entries : gmap string Z)
  | IFile (data : string)
  | ILink (target : string)
  | IFifo
  | ISocket
  | IDevice (refusal : option string).   (* how opening it fails, if it does *)

(** [i_size] is [st_size] of what is neither a file nor a link. *)
Record inode := Inode { i_kind : inode_kind; i_nlink : Z; i_device : Z; i_size : Z }.

Record disk := Disk {
  inodes : gmap Z inode;
  currents : gmap identity Z;       (* what the path [current] of a session names *)
  fds : gmap Z Z }.                 (* the open descriptors of this thread *)

Definition S_ISREG (i : inode) : bool := match i_kind i with IFile _ => true | _ => false end.
Definition S_ISDIR (i : inode) : bool := match i_kind i with IDir _ => true | _ => false end.

Definition st_size (i : inode) : Z :=
  match i_kind i with
  | IFile s | ILink s => Z.of_nat (String.length s)
  | _ => i_size i
  end.

Definition entries_of (d : disk) (i : Z) : option (gmap string Z) :=
  match inodes d !! i with Some (Inode (IDir es) _ _ _) => Some es | _ => None end.

Definition with_inodes (m : gmap Z inode) (d : disk) : disk := Disk m (currents d) (fds d).
Definition with_fds (m : gmap Z Z) (d : disk) : disk := Disk (inodes d) (currents d) m.

Definition put_kind (i : Z) (k : inode_kind) (d : disk) : disk :=
  with_inodes (alter (fun n => Inode k (i_nlink n) (i_device n) (i_size n)) i (inodes d)) d.

Definition unlinked (i : Z) (d : disk) : disk :=
  with_inodes (alter (fun n => Inode (i_kind n) (i_nlink n - 1) (i_device n) (i_size n)) i
                 (inodes d)) d.

(** A number not in use. *)
Definition unused {A} (m : gmap Z A) : Z := 1 + foldr Z.max 2 (map_to_list m).*1.

(** ** What the kernel does

    Flags always contain [O_NOFOLLOW]; [directory] is [O_DIRECTORY], and without
    it they contain [O_NONBLOCK], with which a FIFO opens at once.  A socket
    cannot be opened, and a device only when its driver lets it. *)

Definition EBADF : exn := OSError "EBADF".
Definition ENOTDIR : exn := OSError "ENOTDIR".

Definition of_fd (fd : Z) (d : disk) : result Z :=
  match fds d !! fd with Some i => Ok i | None => Err EBADF end.

Definition dir_of (fd : Z) (d : disk) : result (Z * gmap string Z) :=
  i ← of_fd fd d;
  match entries_of d i with Some es => Ok (i, es) | None => Err ENOTDIR end.

Definition ENXIO : exn := OSError "ENXIO".

Definition open_inode (directory : bool) (i : Z) (d : disk) : result (Z * disk) :=
  match inodes d !! i with
  | None => Err ENOENT
  | Some n =>
      let opened := Ok (unused (fds d), with_fds (<[unused (fds d) := i]> (fds d)) d) in
      match i_kind n with
      | ILink _ => Err (OSError "ELOOP")
      | IDir _ => opened
      | IFile _ | IFifo => if directory then Err ENOTDIR else opened
      | ISocket => Err (if directory then ENOTDIR else ENXIO)
      | IDevice refusal =>
          if directory then Err ENOTDIR
          else match refusal with Some errno => Err (OSError errno) | None => opened end
      end
  end.

Definition open_current (id : identity) (d : disk) : result (Z * disk) :=
  match currents d !! id with Some i => open_inode true i d | None => Err ENOENT end.

Definition open_at (fd : Z) (name : string) (directory : bool) (d : disk) : result (Z * disk) :=
  x ← dir_of fd d;
  match x.2 !! name with Some i => open_inode directory i d | None => Err ENOENT end.

Definition close_fd (fd : Z) (d : disk) : result (unit * disk) :=
  _ ← of_fd fd d; Ok ((), with_fds (delete fd (fds d)) d).

Definition fstat (fd : Z) (d : disk) : result (inode * disk) :=
  i ← of_fd fd d;
  match inodes d !! i with Some n => Ok (n, d) | None => Err EBADF end.

Definition scandir (fd : Z) (d : disk) : result (list string * disk) :=
  x ← dir_of fd d; Ok ((map_to_list x.2).*1, d).

Definition stat_at (fd : Z) (name : string) (d : disk) : result (inode * disk) :=
  x ← dir_of fd d;
  match x.2 !! name ≫= fun i => inodes d !! i with Some n => Ok (n, d) | None => Err ENOENT end.

Definition read_fd (fd : Z) (limit : nat) (d : disk) : result (string * disk) :=
  i ← of_fd fd d;
  match inodes d !! i with
  | Some (Inode (IFile s) _ _ _) => Ok (string_take limit s, d)
  | _ => Err (OSError "EISDIR")
  end.

(** [O_WRONLY | O_CREAT | O_EXCL]: a new file of the same file system. *)
Definition create_at (fd : Z) (name : string) (d : disk) : result (Z * disk) :=
  x ← dir_of fd d;
  match x.2 !! name, inodes d !! x.1 with
  | None, Some parent =>
      let i := unused (inodes d) in
      let d1 := with_inodes (<[i := Inode (IFile EmptyString) 1 (i_device parent) 0]> (inodes d)) d in
      let d2 := put_kind x.1 (IDir (<[name := i]> x.2)) d1 in
      Ok (unused (fds d), with_fds (<[unused (fds d) := i]> (fds d)) d2)
  | _, _ => Err (OSError "EEXIST")
  end.

Definition write_fd (fd : Z) (data : string) (d : disk) : result (unit * disk) :=
  i ← of_fd fd d; Ok ((), put_kind i (IFile data) d).

Definition sync_fd (fd : Z) (d : disk) : result (unit * disk) := _ ← of_fd fd d; Ok ((), d).

Definition replace_at (fd : Z) (src dst : string) (d : disk) : result (unit * disk) :=
  x ← dir_of fd d;
  match x.2 !! src with
  | None => Err ENOENT
  | Some i =>
      let moved := put_kind x.1 (IDir (<[dst := i]> (delete src x.2))) d in
      match x.2 !! dst with
      | None => Ok ((), moved)
      | Some old =>
          match entries_of d old with
          | Some _ => Err (OSError "EISDIR")
          | None => Ok ((), if bool_decide (old = i) then d else unlinked old moved)
          end
      end
  end.

Definition unlink_at (fd : Z) (name : string) (d : disk) : result (unit * disk) :=
  x ← dir_of fd d;
  match x.2 !! name with
  | None => Err ENOENT
  | Some i =>
      match entries_of d i with
      | Some _ => Err (OSError "EISDIR")
      | None => Ok ((), unlinked i (put_kind x.1 (IDir (delete name x.2)) d))
      end
  end.

(** ** Calls *)

Inductive hcall :=
  | HMutex | HMutexEnd                             (* self._lock *)
  | HDescribe (id : identity)
  | HPolicyExists (id : identity) | HPolicyRead (id : identity)
  | HSave (id : identity) (policy : dict)
  | HEvent (event : dict) (id : identity)
  | HLock (id : identity) | HUnlock (id : identity)           (* store._session_lock *)
  | HAccess (id : identity) (write : bool) | HAccessEnd (id : identity) (write : bool)
  | HUuid
  | HOpen (id : identity) | HOpenAt (fd : Z) (name : string) (directory : bool)
  | HClose (fd : Z) | HFstat (fd : Z) | HScandir (fd : Z) | HStatAt (fd : Z) (name : string)
  | HRead (fd : Z) (limit : nat) | HCreateAt (fd : Z) (name : string)
  | HWrite (fd : Z) (data : string) | HFsync (fd : Z)
  | HReplace (fd : Z) (src dst : string) | HUnlinkAt (fd : Z) (name : string).

(** The store, the registry of executions and the machine.  [h_fault] is the
    error with which the kernel refuses the call, if it does; [h_others] is what
    everybody else makes of the disk. *)
Class ShareHost := {
  h_describe : list hcall -> identity -> reply unit;
  h_policy_exists : list hcall -> identity -> bool;
  h_policy_read : list hcall -> identity -> reply pyval;
  h_save : list hcall -> identity -> dict -> reply unit;
  h_event : list hcall -> dict -> identity -> reply unit;
  h_lock : list hcall -> identity -> reply unit;
  h_unlock : list hcall -> identity -> reply unit;
  h_access : list hcall -> identity -> bool -> reply unit;
  h_access_end : list hcall -> identity -> bool -> reply unit;
  h_uuid : list hcall -> string;
  h_fault : list hcall -> hcall -> option string;
  h_others : list hcall -> disk -> disk }.

Definition MAX_BYTES : Z := 256 * 1024.
Definition MAX_ENTRIES : Z := 1000.

(** ** Paths *)

Definition relative_parts (path : pyval) : result (list string) :=
  match path with
  | PStr (String c rest) =>
      let s := String c rest in
      raise_if (char_in "000" s || char_in "092" s)
        (WorkspaceError "path must be a relative POSIX path");;
      if str_eqb s "." then Ok []
      else
        let parts := string_split "/" s in
        raise_if (existsb (fun part => str_eqb part EmptyString || str_eqb part "." || str_eqb part "..")
                    parts)
          (WorkspaceError "absolute paths and dot components are not allowed");;
        Ok parts
  | _ => Err (WorkspaceError "path must be a relative POSIX path")
  end.

(** [_policy_path]: the identity it checks. *)
Definition _policy_path (identity : pyval * pyval) : result (string * string) :=
  match identity with
  | (PStr agent, PStr session) =>
      _ ← validate_id "agent" agent;
      _ ← validate_id "session" session;
      Ok (agent, session)
  | _ => Err (WorkspaceError "Agent and Session IDs must be strings")
  end.

(** [v[k]] and [{**v}] of what a policy file holds. *)
Definition pitem (k : string) (v : pyval) : result pyval :=
  match v with PDict d => dindex k d | _ => Err TypeError end.
Definition as_mapping (v : pyval) : result dict :=
  match v with PDict d => Ok d | _ => Err TypeError end.

Section share.
Context `{ShareHost}.

Definition H_ (A : Type) : Type := P hcall disk A.

(** A system call: the others have been at the disk; then it fails without
    effect or does [f]. *)
Definition sys_now {A} (c : hcall) (f : disk -> result (A * disk)) : H_ A := fun s =>
  let h := hist s ++ [c] in
  match h_fault (hist s) c with
  | Some what => (Raised (OSError what), St h (obj s))
  | None => match f (obj s) with
            | Ok (a, d) => (Done a, St h d)
            | Err e => (Raised e, St h (obj s))
            end
  end.

Definition sys {A} (c : hcall) (f : disk -> result (A * disk)) : H_ A :=
  interleave h_others;; sys_now c f.

(** [with enter: m] *)
Definition within {A} (enter exit : H_ unit) (m : H_ A) : H_ A := enter;; finally m exit.

Definition tell (c : hcall) (answer : list hcall -> reply unit) : H_ unit := perform c answer.

Definition append_event (event : dict) (id : identity) : H_ unit :=
  tell (HEvent event id) (fun h => h_event h event id).

Definition session_lock {A} (id : identity) : H_ A -> H_ A :=
  within (tell (HLock id) (fun h => h_lock h id)) (tell (HUnlock id) (fun h => h_unlock h id)).

Definition share_access {A} (id : identity) (write : bool) : H_ A -> H_ A :=
  within (tell (HAccess id write) (fun h => h_access h id write))
         (tell (HAccessEnd id write) (fun h => h_access_end h id write)).

(** ** Policies *)

Definition DEFAULT_POLICY : dict :=
  [("enabled", PBool false); ("scope", PStr "."); ("permission", PStr "read")].

Definition _policy (who : pyval * pyval) : H_ pyval :=
  id ← lift (_policy_path who);
  tell (HDescribe id) (fun h => h_describe h id);;
  exists_ ← perform (HPolicyExists id) (fun h => Done (h_policy_exists h id));
  if negb exists_ then mret (PDict DEFAULT_POLICY)
  else perform (HPolicyRead id) (fun h => h_policy_read h id).

(** ** Opening a path *)

(** Whatever [m] does, its result as a value. *)
Definition attempt {A} (m : H_ A) : H_ (reply A) := fun s => let '(r, s') := m s in (Done r, s').
Definition settle {A} (r : reply A) : H_ A := fun s => (r, s).

(** The loop over the components; the value is the descriptor that the
    variable [fd] holds when the loop ends or fails. *)
Fixpoint walk (directory : bool) (device : Z) (parts : list string) (fd : Z) : H_ (Z * reply unit) :=
  match parts with
  | [] => mret (fd, Done ())
  | part :: parts =>
      let last := bool_decide (parts = []) in
      r ← attempt (sys (HOpenAt fd part (directory || negb last)) (open_at fd part (directory || negb last)));
      match r with
      | Done next_fd =>
          r ← attempt (sys (HClose fd) (close_fd fd));
          match r with
          | Done _ =>
              r ← attempt (sys (HFstat next_fd) (fstat next_fd));
              match r with
              | Done info =>
                  if negb (i_device info =? device) then
                    mret (next_fd, Raised (WorkspaceError "cross-filesystem sharing is not supported"))
                  else walk directory device parts next_fd
              | Raised e => mret (next_fd, Raised e)
              | Interrupted => mret (next_fd, Interrupted)
              end
          | Raised e => mret (fd, Raised e)
          | Interrupted => mret (fd, Interrupted)
          end
      | Raised e => mret (fd, Raised e)
      | Interrupted => mret (fd, Interrupted)
      end
  end.

Definition opened (directory : bool) (parts : list string) (fd : Z) : H_ (Z * reply unit) :=
  r ← attempt (sys (HFstat fd) (fstat fd));
  match r with
  | Done root => walk directory (i_device root) parts fd
  | Raised e => mret (fd, Raised e)
  | Interrupted => mret (fd, Interrupted)
  end.

(** [with self._open(target, parts, directory=directory) as fd: body] *)
Definition _open {A} (target : identity) (parts : list string) (directory : bool)
    (body : Z -> H_ A) : H_ A :=
  _ ← lift (current target.1 target.2);
  fd ← sys (HOpen target) (open_current target);
  x ← opened directory parts fd;
  finally (settle x.2;; body x.1) (sys (HClose x.1) (close_fd x.1)).

(** ** Access to a file or directory *)

Definition entry_row (e : string * inode) : dict :=
  [("name", PStr e.1);
   ("type", PStr (if S_ISDIR e.2 then "directory" else if S_ISREG e.2 then "file" else "unsupported"));
   ("size", PInt (st_size e.2))].

Definition by_name (a b : string * inode) : Prop := string_le a.1 b.1.

#[export] Instance by_name_dec a b : Decision (by_name a b).
Proof. unfold by_name. apply _. Defined.

Definition list_entries (fd : Z) : H_ dict :=
  names ← sys (HScandir fd) (scandir fd);
  entries ← fold_loop (fun (entries : list (string * inode)) name =>
      throw_when (Z.of_nat (length entries) =? MAX_ENTRIES)
        (WorkspaceError "directory exceeds 1000 entries; list a subdirectory");;
      info ← sys (HStatAt fd name) (stat_at fd name);
      mret (entries ++ [(name, info)])) names [];
  mret [("entries", PList (PDict ∘ entry_row <$> merge_sort by_name entries))].

Definition read_limit : nat := Z.to_nat (MAX_BYTES + 1).

Definition read_file (fd : Z) : H_ dict :=
  info ← sys (HFstat fd) (fstat fd);
  throw_when (negb (S_ISREG info) || negb (i_nlink info =? 1))
    (WorkspaceError "only regular files without hard links can be shared");;
  throw_when (MAX_BYTES <? st_size info) (WorkspaceError "file exceeds 256 KiB");;
  data ← sys (HRead fd read_limit) (read_fd fd read_limit);
  let size := Z.of_nat (String.length data) in
  throw_when (MAX_BYTES <? size) (WorkspaceError "file exceeds 256 KiB");;
  mret [("data_base64", PStr (b64encode data)); ("size", PInt size)].

Definition write_data (encoded : pyval) : result string :=
  match encoded with
  | PStr s =>
      raise_if ((MAX_BYTES + 2) / 3 * 4 <? Z.of_nat (String.length s))
        (WorkspaceError "write requires base64 data up to 256 KiB");;
      match b64decode s with
      | None => Err (WorkspaceError "invalid base64 data")
      | Some data =>
          raise_if (MAX_BYTES <? Z.of_nat (String.length data)) (WorkspaceError "file exceeds 256 KiB");;
          Ok data
      end
  | _ => Err (WorkspaceError "write requires base64 data up to 256 KiB")
  end.

(** [except FileNotFoundError] *)
Definition if_missing {A} (default : A) (m : H_ A) : H_ A :=
  catch m (fun e => if bool_decide (e = ENOENT) then mret default else throw e).

Definition replaceable (old : option inode) : bool :=
  match old with Some n => S_ISREG n && (i_nlink n =? 1) | None => true end.

Definition temporary_file (token : string) : string := ".allox-share-" +:+ token.

(** The new contents go to a temporary file, which then replaces the entry;
    [old] is what the entry was. *)
Definition write_entry (target : identity) (audit : dict) (name data : string) (parent : Z)
    (old : option inode) : H_ unit :=
  throw_when (negb (replaceable old))
    (WorkspaceError "cannot replace a link, directory or special file");;
  token ← perform HUuid (fun h => Done (h_uuid h));
  let temporary := temporary_file token in
  fd ← sys (HCreateAt parent temporary) (create_at parent temporary);
  finally
    (finally (sys (HWrite fd data) (write_fd fd data);; sys (HFsync fd) (sync_fd fd))
             (sys (HClose fd) (close_fd fd));;
     append_event (dset "size" (PInt (Z.of_nat (String.length data)))
                     (dset "op" (PStr "share.write_prepared") audit)) target;;
     sys (HReplace parent temporary name) (replace_at parent temporary name);;
     sys (HFsync parent) (sync_fd parent))
    (if_missing () (sys (HUnlinkAt parent temporary) (unlink_at parent temporary))).

Definition write_file (target : identity) (audit : dict) (name data : string) (parent : Z) : H_ unit :=
  old ← if_missing None (n ← sys (HStatAt parent name) (stat_at parent name); mret (Some n));
  write_entry target audit name data parent old.

Definition _access (target : identity) (policy : pyval) (action : string) (params audit : dict)
    : H_ dict :=
  scope ← lift (v ← pitem "scope" policy; relative_parts v);
  path ← lift (relative_parts (dget_or "path" (PStr ".") params));
  let parts := scope ++ path in
  if str_eqb action "list" then _open target parts true list_entries
  else
    throw_when (bool_decide (path = [])) (WorkspaceError "read/write requires a file path");;
    if str_eqb action "read" then _open target parts false read_file
    else
      data ← lift (write_data (dgetn "data_base64" params));
      _open target (removelast parts) true
        (write_file target audit (List.last parts EmptyString) data);;
      mret [("written", PInt (Z.of_nat (String.length data)))].

(** ** Requests *)

Definition named (caller : identity) (policy : dict) : dict :=
  dupdate [("agent_id", PStr caller.1); ("session_id", PStr caller.2)] policy.

Definition as_pyvals (id : identity) : pyval * pyval := (PStr id.1, PStr id.2).

Definition enable (caller : identity) (params : dict) : H_ dict :=
  let scope := dget_or "scope" (PStr ".") params in
  let permission := dget_or "permission" (PStr "read") params in
  parts ← lift (relative_parts scope);
  known ← lift (in_set permission [PStr "read"; PStr "write"]);
  throw_when (negb known) (WorkspaceError "permission must be read or write");;
  session_lock caller (_open caller parts true (fun _ => mret ()));;
  mret [("enabled", PBool true); ("scope", scope); ("permission", permission)].

Definition configure (caller : identity) (action : string) (policy : pyval) (params : dict)
    : H_ dict :=
  policy ← (if str_eqb action "enable" then enable caller params
            else lift (d ← as_mapping policy; Ok (dset "enabled" (PBool false) d)));
  tell (HSave caller policy) (fun h => h_save h caller policy);;
  append_event (dupdate [("op", PStr ("share." +:+ action))] policy) caller;;
  mret (named caller policy).

(** What the [try] of an access does, down to the audit of its success. *)
Definition checked_access (target : identity) (policy : pyval) (action : string)
    (params audit : dict) : H_ dict :=
  target_policy ← _policy (as_pyvals target);
  enabled ← lift (pitem "enabled" policy);
  open_ ← (if negb (py_truthy enabled) then mret false
           else v ← lift (pitem "enabled" target_policy); mret (py_truthy v));
  throw_when (negb open_) (WorkspaceError "both Sessions must enable share");;
  read_only ← (if str_eqb action "write"
               then v ← lift (pitem "permission" target_policy);
                    mret (negb (py_eqb v (PStr "write")))
               else mret false);
  throw_when read_only (WorkspaceError "target share is read-only");;
  result ← share_access target (str_eqb action "write")
             (session_lock target (_access target target_policy action params audit));
  append_event (dset "result" (PStr "success") audit) target;;
  mret result.

Definition denied (e : exn) : bool :=
  match e with OSError _ | WorkspaceError _ => true | _ => false end.

(** [except (OSError, WorkspaceError) as exc] *)
Definition access_failed (target : identity) (audit : dict) (e : exn) : H_ dict :=
  if denied e then
    append_event (dset "result" (PStr "denied_or_failed") audit) target;;
    throw (if is_os_error e then WorkspaceError "shared file unavailable or unsupported" else e)
  else throw e.

Definition access_request (caller : identity) (policy : pyval) (action : string) (params : dict)
    : H_ dict :=
  throw_when (negb (str_eqb action "list" || str_eqb action "read" || str_eqb action "write"))
    (WorkspaceError "unknown share action");;
  target ← lift (_policy_path (dgetn "target_agent_id" params, dgetn "target_session_id" params));
  let path := dget_or "path" (PStr ".") params in
  lift (relative_parts path);;
  let audit := [("op", PStr ("share." +:+ action)); ("caller_agent_id", PStr caller.1);
                ("caller_session_id", PStr caller.2); ("path", path)] in
  catch (checked_access target policy action params audit) (access_failed target audit).

Definition dispatch (caller : identity) (action : string) (params : dict) : H_ dict :=
  within (tell HMutex (fun _ => Done ())) (tell HMutexEnd (fun _ => Done ()))
    (policy ← _policy (as_pyvals caller);
     if str_eqb action "status" then d ← lift (as_mapping policy); mret (named caller d)
     else if str_eqb action "enable" || str_eqb action "disable"
     then configure caller action policy params
     else access_request caller policy action params).
End share.
