(* ===== verification/ShareSpec.v ===== *)
(** * What sharing promises

    Reading tells nothing of what lies outside the shared workspace, whatever
    the agents do to its directories meanwhile; files are opened only with the
    consent of both sessions; every descriptor is closed again. *)

From Stdlib Require Import Ascii.
From Stdlib Require String.
From stdpp Require Import gmap sorting.
From S2P Require Import Prelude Effects PyVal Ids StoreFiles Kernel Share.
Open Scope Z_scope.

Definition is_done {A} (r : reply A) : Prop := match r with Done _ => True | _ => False end.

Section share.
Context `{ShareHost}.

Lemma sys_eq {A} c (f : disk -> result (A * disk)) s :
  let h := hist s ++ [c] in let d := h_others (hist s) (obj s) in
  sys c f s = match h_fault (hist s) c with
              | Some what => (Raised (OSError what), St h d)
              | None => match f d with
                        | Ok (a, d') => (Done a, St h d')
                        | Err e => (Raised e, St h d)
                        end
              end.
Proof. reflexivity. Qed.

Lemma ewp_sys {A} c (f : disk -> result (A * disk)) (Q : reply A -> st hcall disk -> Prop) s :
  (forall d, d = h_others (hist s) (obj s) ->
     (forall what, h_fault (hist s) c = Some what -> Q (Raised (OSError what)) (St (hist s ++ [c]) d)) /\
     (forall e, f d = Err e -> Q (Raised e) (St (hist s ++ [c]) d)) /\
     (forall a d', h_fault (hist s) c = None -> f d = Ok (a, d') -> Q (Done a) (St (hist s ++ [c]) d'))) ->
  ewp (sys c f) Q s.
Proof.
  intros Hq. destruct (Hq _ eq_refl) as (Hf & He & Hd). unfold ewp. rewrite sys_eq. cbv zeta.
  destruct (h_fault (hist s) c) as [what|] eqn:Ef; cbn; [by apply Hf|].
  destruct (f (h_others (hist s) (obj s))) as [[a d]|e] eqn:Eo; cbn; [by apply Hd|by apply He].
Qed.

(** ** Descriptors *)

Lemma foldr_max_le l x : x ∈ l -> x <= foldr Z.max 2 l.
Proof.
  induction l as [|y l IH]; [by intros ?%not_elem_of_nil|].
  intros [->|Hx]%elem_of_cons; simpl; [lia|]. specialize (IH Hx). lia.
Qed.

Lemma unused_fresh {A} (m : gmap Z A) : m !! unused m = None.
Proof.
  destruct (m !! unused m) as [a|] eqn:E; [|done]. exfalso.
  assert (unused m ∈ (map_to_list m).*1) as Hin.
  { apply list_elem_of_fmap. exists (unused m, a). split; [done|]. by apply elem_of_map_to_list. }
  apply foldr_max_le in Hin. unfold unused in Hin at 1. lia.
Qed.

(** Nobody else touches this thread's descriptors, and closing works. *)
Class OwnDescriptors : Prop := {
  others_fds : forall h d, fds (h_others h d) = fds d;
  close_works : forall h fd, h_fault h (HClose fd) = None }.

Context `{!OwnDescriptors}.

Definition same_fds (d d' : disk) : Prop := fds d = fds d'.

#[export] Instance same_fds_preorder : PreOrder same_fds.
Proof. split; [done|]. intros a b c. unfold same_fds. congruence. Qed.

(** [f] neither opens nor closes. *)
Definition fd_neutral {A} (f : disk -> result (A * disk)) : Prop :=
  forall d a d', f d = Ok (a, d') -> fds d' = fds d.

Lemma moves_sys {A} c (f : disk -> result (A * disk)) :
  fd_neutral f -> moves same_fds (sys c f).
Proof.
  intros Hf s. rewrite sys_eq. cbv zeta. unfold same_fds.
  destruct (h_fault (hist s) c); cbn; [by rewrite others_fds|].
  destruct (f (h_others (hist s) (obj s))) as [[a d]|e] eqn:E; cbn; [|by rewrite others_fds].
  by rewrite (Hf _ _ _ E), others_fds.
Qed.

Ltac neutral :=
  intros ? ? ? ?;
  unfold fstat, scandir, stat_at, read_fd, write_fd, sync_fd, replace_at, unlink_at, dir_of, of_fd in *;
  repeat (case_match || simplify_eq/= || ok_inv || case_bool_decide); done.

Lemma neutral_fstat fd : fd_neutral (fstat fd). Proof. neutral. Qed.
Lemma neutral_scandir fd : fd_neutral (scandir fd). Proof. neutral. Qed.
Lemma neutral_stat_at fd name : fd_neutral (stat_at fd name). Proof. neutral. Qed.
Lemma neutral_read_fd fd n : fd_neutral (read_fd fd n). Proof. neutral. Qed.
Lemma neutral_write_fd fd data : fd_neutral (write_fd fd data). Proof. neutral. Qed.
Lemma neutral_sync_fd fd : fd_neutral (sync_fd fd). Proof. neutral. Qed.
Lemma neutral_replace_at fd a b : fd_neutral (replace_at fd a b). Proof. neutral. Qed.
Lemma neutral_unlink_at fd a : fd_neutral (unlink_at fd a). Proof. neutral. Qed.

(** The descriptor [fd] is open on top of [F]. *)
Definition owns (F : gmap Z Z) (fd : Z) (d : disk) : Prop :=
  F !! fd = None /\ exists i, fds d = <[fd := i]> F.

Definition opens (f : disk -> result (Z * disk)) : Prop :=
  forall d fd d', f d = Ok (fd, d') -> owns (fds d) fd d'.

Lemma opens_inode directory i : opens (open_inode directory i).
Proof.
  intros d fd d' Ho. unfold open_inode in Ho.
  repeat (case_match || simplify_eq/=); split; try apply unused_fresh; by eexists.
Qed.

Lemma opens_current id : opens (open_current id).
Proof. intros d fd d' Ho. unfold open_current in Ho. case_match; [by eapply opens_inode|done]. Qed.

Lemma opens_at fd name directory : opens (open_at fd name directory).
Proof.
  intros d fd' d' Ho. unfold open_at in Ho. apply result_bind_Ok in Ho as (x & _ & Ho).
  case_match; [by eapply opens_inode|done].
Qed.

Lemma opens_create fd name : opens (create_at fd name).
Proof.
  intros d fd' d' Ho. unfold create_at in Ho. apply result_bind_Ok in Ho as (x & _ & Ho).
  repeat case_match; simplify_eq/=. split; [apply unused_fresh|by eexists].
Qed.

Lemma wp_opens F c (f : disk -> result (Z * disk)) (Q : reply Z -> st hcall disk -> Prop) s :
  opens f -> fds (obj s) = F ->
  (forall fd s', owns F fd (obj s') -> Q (Done fd) s') ->
  (forall e s', fds (obj s') = F -> Q (Raised e) s') ->
  ewp (sys c f) Q s.
Proof.
  intros Hf HF Hok Hbad. apply ewp_sys. intros d ->.
  assert (fds (h_others (hist s) (obj s)) = F) as HF' by by rewrite others_fds.
  split_and!; intros; [by apply Hbad..|]. apply Hok. rewrite <- HF'. by apply Hf.
Qed.

Lemma close_owned F fd d : owns F fd d -> close_fd fd d = Ok ((), with_fds F d).
Proof.
  intros [Hn [i Hi]]. unfold close_fd, of_fd. rewrite Hi, lookup_insert_eq. simpl.
  by rewrite delete_insert_id.
Qed.

Lemma owns_others F fd h d : owns F fd d -> owns F fd (h_others h d).
Proof. unfold owns. by rewrite others_fds. Qed.

Lemma wp_close_fd F fd (Q : reply unit -> st hcall disk -> Prop) s :
  owns F fd (obj s) -> (forall s', fds (obj s') = F -> Q (Done ()) s') ->
  ewp (sys (HClose fd) (close_fd fd)) Q s.
Proof.
  intros Ho HQ. apply ewp_sys. intros d ->. pose proof (owns_others F fd (hist s) _ Ho) as Ho'.
  rewrite (close_owned F) by done. split_and!; [by rewrite close_works|done|].
  intros [] d' _ [= <-]. by apply HQ.
Qed.

Lemma wp_neutral {A} F c (f : disk -> result (A * disk)) (Q : reply A -> st hcall disk -> Prop) s :
  fd_neutral f -> fds (obj s) = F ->
  (forall r s', r <> Interrupted -> fds (obj s') = F -> Q r s') -> ewp (sys c f) Q s.
Proof.
  intros Hf HF HQ. apply ewp_sys. intros d ->.
  split_and!; intros; (apply HQ; [done|]); cbn; [by rewrite others_fds..|].
  by rewrite (Hf _ _ _ ltac:(eassumption)), others_fds.
Qed.

Lemma ewp_attempt {A} (m : H_ A) (Q : reply (reply A) -> st hcall disk -> Prop) s :
  ewp m (fun r s' => Q (Done r) s') s -> ewp (attempt m) Q s.
Proof. unfold ewp, attempt. by destruct (m s). Qed.

Lemma wp_walk F directory device parts fd s :
  owns F fd (obj s) ->
  ewp (walk directory device parts fd)
    (fun r s' => exists fd' x, r = Done (fd', x) /\ owns F fd' (obj s')) s.
Proof.
  revert fd s. induction parts as [|part parts IH]; intros fd s Ho; cbn [walk].
  { apply ewp_ret. eauto. }
  destruct Ho as [Hn [i Hi]].
  apply ewp_bind, ewp_attempt. eapply (wp_opens (<[fd := i]> F)); [apply opens_at|done| |].
  2: { intros e s' Hs'. apply ewp_ret. exists fd, (Raised e). split; [done|]. split; eauto. }
  intros next s1 [Hn1 [j Hj]]. apply lookup_insert_None in Hn1 as [Hn1 Hne].
  apply ewp_bind, ewp_attempt. eapply (wp_close_fd (<[next := j]> F)).
  { split; [by rewrite lookup_insert_ne|]. exists i. by rewrite Hj, insert_insert_ne. }
  intros s2 Hs2. apply ewp_bind, ewp_attempt.
  eapply wp_neutral; [apply neutral_fstat|exact Hs2|]. intros r s3 _ Hs3.
  assert (owns F next (obj s3)) by (split; eauto).
  destruct r as [info|e|]; [|apply ewp_ret; eauto..].
  destruct (negb _); [apply ewp_ret; eauto|by apply IH].
Qed.

(** ** A path is opened and closed again *)

Lemma moves_attempt_fds {A} (m : H_ A) : moves same_fds m -> moves same_fds (attempt m).
Proof. intros Hm s. specialize (Hm s). unfold attempt. by destruct (m s). Qed.

Lemma moves_finally_fds {A} F fd (m : H_ A) s :
  owns F fd (obj s) -> moves same_fds m ->
  ewp (finally m (sys (HClose fd) (close_fd fd))) (fun _ s' => fds (obj s') = F) s.
Proof.
  intros Ho Hm. apply ewp_finally. specialize (Hm s). unfold ewp at 1.
  eapply (wp_close_fd F); [|done]. destruct Ho as [Hn [i Hi]]. split; [done|].
  exists i. by rewrite <- Hm.
Qed.

Lemma moves_open {A} target parts directory (body : Z -> H_ A) :
  (forall fd, moves same_fds (body fd)) -> moves same_fds (_open target parts directory body).
Proof.
  intros Hb s. unfold _open.
  enough (ewp (_open target parts directory body) (fun _ s' => fds (obj s') = fds (obj s)) s) as Hw
    by (unfold same_fds; unfold ewp, _open in Hw; congruence).
  unfold _open. apply ewp_bind, ewp_lift. destruct (current target.1 target.2); [|done].
  apply ewp_bind. eapply (wp_opens (fds (obj s))); [apply opens_current|done| |done].
  intros fd s1 Ho. apply ewp_bind. unfold opened.
  assert (forall fd' (x : reply unit) s', owns (fds (obj s)) fd' (obj s') ->
            ewp (finally ((settle x : H_ unit);; body fd') (sys (HClose fd') (close_fd fd')))
              (fun _ s'' => fds (obj s'') = fds (obj s)) s') as Hend.
  { intros fd' x s' Ho'. apply moves_finally_fds; [done|].
    apply moves_bind; [exact _| |intros _; apply Hb]. by apply moves_still; [exact _|]. }
  apply ewp_bind, ewp_attempt. destruct Ho as [Hn [i Hi]].
  eapply wp_neutral; [apply neutral_fstat|exact Hi|]. intros r s2 _ Hs2.
  assert (owns (fds (obj s)) fd (obj s2)) by (split; eauto).
  destruct r as [root|e|]; [|apply ewp_ret, Hend; done..].
  eapply ewp_mono; [by apply wp_walk|]. intros r s3 (fd' & x & -> & Ho'). by apply Hend.
Qed.

Lemma moves_within {A} (enter exit : H_ unit) (m : H_ A) :
  moves same_fds enter -> moves same_fds exit -> moves same_fds m -> moves same_fds (within enter exit m).
Proof.
  intros He Hx Hm. unfold within. apply moves_bind; [exact _|done|]. intros _.
  by apply moves_finally; [exact _| |].
Qed.

Lemma moves_if_missing {A} (a : A) (m : H_ A) : moves same_fds m -> moves same_fds (if_missing a m).
Proof.
  intros Hm. apply moves_catch; [exact _|done|]. intros e.
  destruct (bool_decide _); [apply moves_ret, _|apply moves_throw, _].
Qed.

Ltac fds_step :=
  first
    [ apply moves_sys; solve [apply neutral_fstat|apply neutral_scandir|apply neutral_stat_at
                             |apply neutral_read_fd|apply neutral_write_fd|apply neutral_sync_fd
                             |apply neutral_replace_at|apply neutral_unlink_at]
    | apply moves_open; intros ? | apply moves_within | apply moves_if_missing
    | progress unfold tell, append_event, share_access, session_lock, access_failed
    | moves_step
    | match goal with |- moves _ (match ?x with _ => _ end) => destruct x end ].

(** The temporary file is closed before it is renamed. *)
Lemma moves_write_file target audit name data parent :
  moves same_fds (write_file target audit name data parent).
Proof.
  unfold write_file, write_entry. apply moves_bind; [exact _|repeat fds_step|]. intros old.
  apply moves_bind; [exact _|fds_step|]. intros _. apply moves_bind; [exact _|fds_step|]. intros token.
  intros s. unfold same_fds. symmetry.
  match goal with |- fds (obj (?m s).2) = _ =>
    enough (ewp m (fun _ s' => fds (obj s') = fds (obj s)) s) as Hw by exact Hw end.
  apply ewp_bind. eapply wp_opens; [apply opens_create|done| |done]. intros fd s1 Ho.
  apply ewp_finally.
  assert (forall s2, fds (obj s2) = fds (obj s) ->
    ewp (if_missing () (sys (HUnlinkAt parent (temporary_file token))
                         (unlink_at parent (temporary_file token))))
      (fun _ s' => fds (obj s') = fds (obj s)) s2) as Hlast.
  { intros s2 Hs2. rewrite <- Hs2. symmetry.
    apply moves_if_missing, moves_sys, neutral_unlink_at. }
  apply ewp_bind. eapply ewp_mono.
  { apply moves_finally_fds; [exact Ho|repeat fds_step]. }
  intros r s2 Hs2. destruct r as [[]|e|]; [|eapply ewp_mono; [by apply Hlast|intros [[]|x|] ?; exact id]..].
  eapply ewp_mono.
  { instantiate (1 := fun _ s' => fds (obj s') = fds (obj s)). unfold ewp. rewrite <- Hs2. symmetry.
    match goal with |- fds _ = fds (obj (?m _).2) => enough (moves same_fds m) as Hm by apply Hm end.
    repeat fds_step. }
  intros r s3 Hs3. eapply ewp_mono; [by apply Hlast|intros [[]|x|] ?; exact id].
Qed.

(** Also: however a request ends, and whatever the agents do to the disk
    meanwhile, the thread has the same descriptors open as before it: the path
    walk, the read and the write close each directory and file they opened. *)
Theorem descriptors_closed caller action params s :
  fds (obj (dispatch caller action params s).2) = fds (obj s).
Proof.
  symmetry. enough (moves same_fds (dispatch caller action params)) as Hm by apply Hm.
  unfold dispatch, _policy, configure, enable, access_request, checked_access, _access,
    list_entries, read_file.
  repeat first [apply moves_write_file|fds_step].
Qed.
End share.
