(* ===== verification/ShareSecrecy.v ===== *)
(** * Reading tells nothing of the rest of the disk

    Two disks that agree on the workspace of a session, and differ anywhere
    else, are indistinguishable to whoever lists or reads its shared files,
    although agents change directories, plant links and move files between any
    two calls.  It is a relational argument: the same request runs on both
    disks, and every call keeps their agreement. *)

From Stdlib Require Import Ascii.
From Stdlib Require String.
From stdpp Require Import gmap sorting.
From S2P Require Import Prelude Effects PyVal Ids StoreFiles Kernel Share.
Open Scope Z_scope.

Section secrecy.
Context `{ShareHost} (target : identity).
(** The inodes that belong to the workspace of [target]. *)
Context (inside : Z -> Prop).

(** The disks have the same workspace, which is closed: its directories hold
    entries of its own only, and this thread has nothing else open. *)
Record agree (d1 d2 : disk) : Prop := {
  ag_current : currents d1 !! target = currents d2 !! target;
  ag_fds : fds d1 = fds d2;
  ag_inodes : forall i, inside i -> inodes d1 !! i = inodes d2 !! i;
  ag_root : forall i, currents d1 !! target = Some i -> inside i;
  ag_closed : forall i es name j,
    inside i -> entries_of d1 i = Some es -> es !! name = Some j -> inside j;
  ag_open : forall fd i, fds d1 !! fd = Some i -> inside i }.

(** What the others do inside does not depend on the outside, and brings
    nothing in. *)
Class Secluded : Prop := {
  others_agree : forall h d1 d2, agree d1 d2 -> agree (h_others h d1) (h_others h d2) }.
Context `{!Secluded}.

Definition rel (s1 s2 : st hcall disk) : Prop := hist s1 = hist s2 /\ agree (obj s1) (obj s2).

Definition same {A} (m : H_ A) : Prop := forall s1 s2, rel s1 s2 ->
  (m s1).1 = (m s2).1 /\ rel (m s1).2 (m s2).2.

(** ** Rules *)

Lemma same_ret {A} (a : A) : same (mret a). Proof. by intros s1 s2 Hr. Qed.
Lemma same_throw {A} e : same (throw e : H_ A). Proof. by intros s1 s2 Hr. Qed.
Lemma same_settle {A} (r : reply A) : same (settle r). Proof. by intros s1 s2 Hr. Qed.
Lemma same_throw_when b e : same (throw_when b e). Proof. by destruct b. Qed.
Lemma same_lift {A} (r : result A) : same (lift r : H_ A). Proof. by destruct r. Qed.

Lemma same_perform {A} c (answer : list hcall -> reply A) : same (perform c answer).
Proof.
  intros s1 s2 [Hh Ha]. unfold perform. cbn. rewrite Hh. split; [done|]. by split; cbn; rewrite ?Hh.
Qed.

Lemma same_bind {A B} (m : H_ A) (f : A -> H_ B) :
  same m -> (forall a, same (f a)) -> same (m ≫= f).
Proof.
  intros Hm Hf s1 s2 Hr. destruct (Hm s1 s2 Hr) as [Hv Hr']. unfold mbind, P_bind.
  destruct (m s1) as [r1 s1'], (m s2) as [r2 s2']. cbn in *. subst r2.
  destruct r1; [by apply Hf|done..].
Qed.

(** The only identity that the parameters can name is [target]. *)
Lemma same_lift_target {B} (f : identity -> H_ B) :
  (forall id, id = target -> same (f id)) -> same (lift (_policy_path (as_pyvals target)) ≫= f).
Proof.
  intros Hf. unfold _policy_path, as_pyvals. destruct target as [a s]. cbn.
  destruct (validate_id "agent" a); cbn; [|by intros ???].
  destruct (validate_id "session" s); cbn; [by apply Hf|by intros ???].
Qed.

Lemma same_catch {A} (m : H_ A) h : same m -> (forall e, same (h e)) -> same (catch m h).
Proof.
  intros Hm Hh s1 s2 Hr. destruct (Hm s1 s2 Hr) as [Hv Hr']. unfold catch.
  destruct (m s1) as [r1 s1'], (m s2) as [r2 s2']. cbn in *. subst r2.
  destruct r1; [done|by apply Hh|done].
Qed.

Lemma same_finally {A} (m : H_ A) fin : same m -> same fin -> same (finally m fin).
Proof.
  intros Hm Hf s1 s2 Hr. destruct (Hm s1 s2 Hr) as [Hv Hr']. unfold finally.
  destruct (m s1) as [r1 s1'], (m s2) as [r2 s2']. cbn in *. subst r2.
  destruct (Hf s1' s2' Hr') as [Hv2 Hr2]. destruct (fin s1') as [q1 ?], (fin s2') as [q2 ?].
  cbn in *. subst q2. by destruct q1 as [[]|e|].
Qed.

Lemma same_attempt {A} (m : H_ A) : same m -> same (attempt m).
Proof.
  intros Hm s1 s2 Hr. destruct (Hm s1 s2 Hr) as [Hv Hr']. unfold attempt.
  destruct (m s1), (m s2). cbn in *. by subst.
Qed.

Lemma same_within {A} (enter exit : H_ unit) (m : H_ A) :
  same enter -> same exit -> same m -> same (within enter exit m).
Proof. intros He Hx Hm. apply same_bind; [done|]. intros _. by apply same_finally. Qed.

Lemma same_fold_loop {A B} (f : B -> A -> H_ B) l b :
  (forall b x, same (f b x)) -> same (fold_loop f l b).
Proof.
  intros Hf. revert b. induction l as [|x l IH]; intros b; simpl; [apply same_ret|].
  by apply same_bind.
Qed.

(** ** System calls *)

Definition answers_agree {A} (r1 r2 : result (A * disk)) : Prop :=
  match r1, r2 with
  | Ok (a1, d1), Ok (a2, d2) => a1 = a2 /\ agree d1 d2
  | Err e1, Err e2 => e1 = e2
  | _, _ => False
  end.

Definition blind {A} (f : disk -> result (A * disk)) : Prop :=
  forall d1 d2, agree d1 d2 -> answers_agree (f d1) (f d2).

Lemma same_sys {A} c (f : disk -> result (A * disk)) : blind f -> same (sys c f).
Proof.
  intros Hf s1 s2 [Hh Ha]. unfold sys, interleave, sys_now, mbind, P_bind. cbn. rewrite Hh.
  pose proof (others_agree (hist s2) _ _ Ha) as Ha'.
  destruct (h_fault (hist s2) c); cbn; [by split|]. specialize (Hf _ _ Ha').
  destruct (f _) as [[a1 d1]|e1], (f _) as [[a2 d2]|e2]; cbn in *; try done.
  - destruct Hf as [-> Hd]. by split.
  - subst. by split.
Qed.

Lemma dir_of_agree fd d1 d2 : agree d1 d2 -> dir_of fd d1 = dir_of fd d2.
Proof.
  intros Ha. unfold dir_of, of_fd. rewrite <- (ag_fds _ _ Ha).
  destruct (fds d1 !! fd) as [i|] eqn:E; simpl; [|done]. unfold entries_of.
  by rewrite (ag_inodes _ _ Ha) by (by eapply ag_open).
Qed.

Lemma dir_of_inside fd d1 d2 i es name j :
  agree d1 d2 -> dir_of fd d1 = Ok (i, es) -> es !! name = Some j -> inside j.
Proof.
  intros Ha. unfold dir_of, of_fd. destruct (fds d1 !! fd) as [i'|] eqn:E; simpl; [|done].
  destruct (entries_of d1 i') as [es'|] eqn:E2; [|done]. intros [= -> ->] Hn.
  eapply ag_closed; [done| |done|done]. by eapply ag_open.
Qed.

Lemma agree_with_fds m d1 d2 :
  agree d1 d2 -> (forall fd i, m !! fd = Some i -> inside i) ->
  agree (with_fds m d1) (with_fds m d2).
Proof. intros [] Hm. by split. Qed.

Lemma blind_inode directory i : inside i -> blind (open_inode directory i).
Proof.
  intros Hi d1 d2 Ha. unfold open_inode. rewrite <- (ag_inodes _ _ Ha i Hi), <- (ag_fds _ _ Ha).
  assert (agree (with_fds (<[unused (fds d1):=i]> (fds d1)) d1)
                (with_fds (<[unused (fds d1):=i]> (fds d1)) d2)) as Ha'.
  { apply agree_with_fds; [done|]. intros fd j. rewrite lookup_insert_Some.
    intros [[_ <-]|[_ Hj]]; [done|]. by eapply ag_open. }
  destruct (inodes d1 !! i) as [n|]; [|done]. destruct (i_kind n) as [| | | | |[]], directory; cbn; done.
Qed.

Lemma blind_current : blind (open_current target).
Proof.
  intros d1 d2 Ha. unfold open_current. rewrite <- (ag_current _ _ Ha).
  destruct (currents d1 !! target) as [i|] eqn:E; [|done].
  apply blind_inode; [|done]. by eapply ag_root.
Qed.

Lemma blind_at fd name directory : blind (open_at fd name directory).
Proof.
  intros d1 d2 Ha. unfold open_at. rewrite <- (dir_of_agree fd _ _ Ha).
  destruct (dir_of fd d1) as [[i es]|e] eqn:E; simpl; [|done].
  destruct (es !! name) as [j|] eqn:Ej; [|done].
  apply blind_inode; [|done]. by eapply dir_of_inside.
Qed.

Lemma blind_close fd : blind (close_fd fd).
Proof.
  intros d1 d2 Ha. unfold close_fd, of_fd. rewrite <- (ag_fds _ _ Ha).
  destruct (fds d1 !! fd) as [i|]; simpl; [|done]. split; [done|].
  apply agree_with_fds; [done|]. intros fd' j [_ Hj]%lookup_delete_Some. by eapply ag_open.
Qed.

Lemma blind_fstat fd : blind (fstat fd).
Proof.
  intros d1 d2 Ha. unfold fstat, of_fd. rewrite <- (ag_fds _ _ Ha).
  destruct (fds d1 !! fd) as [i|] eqn:E; simpl; [|done].
  rewrite <- (ag_inodes _ _ Ha) by (by eapply ag_open). by destruct (inodes d1 !! i).
Qed.

Lemma blind_scandir fd : blind (scandir fd).
Proof.
  intros d1 d2 Ha. unfold scandir. rewrite <- (dir_of_agree fd _ _ Ha).
  by destruct (dir_of fd d1) as [[i es]|e].
Qed.

Lemma blind_stat_at fd name : blind (stat_at fd name).
Proof.
  intros d1 d2 Ha. unfold stat_at. rewrite <- (dir_of_agree fd _ _ Ha).
  destruct (dir_of fd d1) as [[i es]|e] eqn:E; simpl; [|done].
  destruct (es !! name) as [j|] eqn:Ej; simpl; [|done].
  rewrite <- (ag_inodes _ _ Ha) by (by eapply dir_of_inside). by destruct (inodes d1 !! j).
Qed.

Lemma blind_read_fd fd n : blind (read_fd fd n).
Proof.
  intros d1 d2 Ha. unfold read_fd, of_fd. rewrite <- (ag_fds _ _ Ha).
  destruct (fds d1 !! fd) as [i|] eqn:E; simpl; [|done].
  rewrite <- (ag_inodes _ _ Ha) by (by eapply ag_open).
  by destruct (inodes d1 !! i) as [[[]]|].
Qed.

Ltac same_step :=
  first
    [ apply same_sys; solve [apply blind_current|apply blind_at|apply blind_close|apply blind_fstat
                            |apply blind_scandir|apply blind_stat_at|apply blind_read_fd]
    | apply same_ret | apply same_throw | apply same_settle | apply same_throw_when
    | apply same_lift | apply same_perform | apply same_bind; [|intros ?]
    | apply same_catch; [|intros ?] | apply same_within | apply same_finally | apply same_attempt
    | apply same_fold_loop; intros ? ?
    | progress unfold tell, append_event, share_access, session_lock, access_failed, list_entries, read_file, _policy
    | match goal with |- same (match ?x with _ => _ end) => destruct x end ].

Lemma same_walk directory device parts fd : same (walk directory device parts fd).
Proof.
  revert fd. induction parts as [|part parts IH]; intros fd; cbn [walk]; [apply same_ret|].
  repeat first [apply IH|same_step].
Qed.

Lemma same_open {A} parts directory (body : Z -> H_ A) :
  (forall fd, same (body fd)) -> same (_open target parts directory body).
Proof.
  intros Hb. unfold _open, opened. repeat first [apply Hb|apply same_walk|same_step].
Qed.

Lemma same_access policy action params audit :
  action = "list" \/ action = "read" -> same (_access target policy action params audit).
Proof.
  intros [-> | ->]; unfold _access.
  - rewrite str_eqb_refl. repeat first [apply same_open; intros ?|same_step].
  - rewrite (proj2 (str_eqb_neq "read" "list")), str_eqb_refl by done.
    repeat first [apply same_open; intros ?|same_step].
Qed.

(** C8: listing and reading keep within the workspace of the session that
    shares.  On two disks that agree on that workspace, and may differ in
    everything outside it, a request that lists or reads there gets the same
    answer and makes the same calls, whatever links the workspace contains and
    however its directories are changed between two calls. *)
Theorem reading_keeps_within caller action params s1 s2 :
  action = "list" \/ action = "read" ->
  (dgetn "target_agent_id" params, dgetn "target_session_id" params) = as_pyvals target ->
  hist s1 = hist s2 -> agree (obj s1) (obj s2) ->
  (dispatch caller action params s1).1 = (dispatch caller action params s2).1 /\
  hist (dispatch caller action params s1).2 = hist (dispatch caller action params s2).2.
Proof.
  intros Hact Ht Hh Ha.
  enough (same (dispatch caller action params)) as Hs.
  { destruct (Hs s1 s2 (conj Hh Ha)) as [Hv [Hr _]]. done. }
  assert (str_eqb action "enable" || str_eqb action "disable" = false) as He
    by (by destruct Hact as [-> | ->]).
  unfold dispatch, access_request, checked_access. rewrite He, Ht.
  repeat first [apply same_lift_target; intros ? ?; subst|apply same_access; exact Hact|same_step].
Qed.
End secrecy.
