(* ===== verification/ShareConsent.v ===== *)
(** * Sharing needs consent, and is recorded

    No workspace is opened for a request before both sessions were found
    willing and the registry granted the access, which still lasts; and every
    attempt ends with a record in the audit of the session it was aimed at. *)

From Stdlib Require Import Ascii.
From Stdlib Require String.
From stdpp Require Import gmap sorting.
From S2P Require Import Prelude Effects PyVal Ids StoreFiles Kernel Share ShareSpec.
Open Scope Z_scope.

(** Calls that open no workspace. *)
Definition closed_call (c : hcall) : Prop := match c with HOpen _ => False | _ => True end.

(** Calls of an access to [target], while it is granted. *)
Definition access_call (target : identity) (c : hcall) : Prop :=
  match c with HOpen id => id = target | HAccessEnd _ _ => False | _ => True end.

Definition step_call (c : hcall) : Prop := match c with HOpen _ | HAccessEnd _ _ => False | _ => True end.

Section consent.
Context `{ShareHost}.

(** ** Which calls the parts of a request make *)

Section calls.
Context (p : hcall -> Prop).

Lemma only_sys {A} c (f : disk -> result (A * disk)) : p c -> only p (sys c f).
Proof.
  intros Hc s. exists [c]. rewrite sys_eq. cbv zeta. split; [|by constructor].
  destruct (h_fault (hist s) c); [done|]. by destruct (f _) as [[]|].
Qed.

Lemma only_settle {A} (r : reply A) : only p (settle r).
Proof. by apply only_same. Qed.

Lemma only_attempt {A} (m : H_ A) : only p m -> only p (attempt m).
Proof. intros Hm s. destruct (Hm s) as (k & Hk & Hp). exists k. unfold attempt. by destruct (m s). Qed.

Lemma only_within {A} (enter exit : H_ unit) (m : H_ A) :
  only p enter -> only p exit -> only p m -> only p (within enter exit m).
Proof. intros He Hx Hm. apply only_bind; [done|]. intros _. by apply only_finally. Qed.
End calls.

Ltac share_only :=
  first
    [ apply only_sys; exact I | apply only_settle | apply only_attempt | apply only_within
    | progress unfold tell, append_event, share_access, session_lock, if_missing, access_failed
    | apply only_perform; exact I | only_step ].

Lemma only_walk p directory device parts fd :
  (forall c, step_call c -> p c) -> only p (walk directory device parts fd).
Proof.
  intros Hp. revert fd. induction parts as [|part parts IH]; intros fd; cbn [walk]; [apply only_ret|].
  repeat first [apply only_sys; apply Hp; exact I|apply IH|share_only].
Qed.

Lemma only_access target policy action params audit :
  only (access_call target) (_access target policy action params audit).
Proof.
  unfold _access, _open, opened, list_entries, read_file, write_file, write_entry.
  repeat first [apply only_walk; by intros [] ?|apply only_sys; exact eq_refl|share_only].
Qed.

Lemma only_policy who : only closed_call (_policy who).
Proof. unfold _policy. repeat share_only. Qed.

(** ** Consent *)

Lemma policy_path_of who id : _policy_path (as_pyvals who) = Ok id -> id = who.
Proof.
  unfold _policy_path, as_pyvals. destruct who as [a b]. cbn. intros Hid. by ok_inv.
Qed.

(** [id]'s policy was read, after [n] calls, and is [ok]. *)
Definition agreed (n : nat) (h : list hcall) (id : identity) (ok : pyval -> Prop) : Prop :=
  exists h1 h2 p, h = h1 ++ HPolicyRead id :: h2 /\ (n <= length h1)%nat /\
    h_policy_read h1 id = Done p /\ ok p.

Definition enabled (p : pyval) : Prop := exists v, pitem "enabled" p = Ok v /\ py_truthy v = true.
Definition writable (p : pyval) : Prop :=
  exists v, pitem "permission" p = Ok v /\ py_eqb v (PStr "write") = true.

(** The registry granted the access and still does. *)
Definition granted (n : nat) (h : list hcall) (id : identity) (write : bool) : Prop :=
  exists h1 h2, h = h1 ++ HAccess id write :: h2 /\ (n <= length h1)%nat /\
    h_access h1 id write = Done () /\ HAccessEnd id write ∉ h2.

Definition consent (n : nat) (h : list hcall) (caller target : identity) (write : bool) : Prop :=
  agreed n h caller enabled /\ agreed n h target enabled /\
  (write = true -> agreed n h target writable) /\ granted n h target write.

Lemma agreed_app n h k id ok : agreed n h id ok -> agreed n (h ++ k) id ok.
Proof.
  intros (h1 & h2 & p & -> & Hn & Hp). exists h1, (h2 ++ k), p.
  split; [by rewrite <- app_assoc|done].
Qed.

Lemma agreed_le n m h id ok : (n <= m)%nat -> agreed m h id ok -> agreed n h id ok.
Proof. intros Hn (h1 & h2 & p & ? & ? & ?). exists h1, h2, p. split; [done|]. split; [lia|done]. Qed.

Lemma consent_app target n h k caller write :
  Forall (access_call target) k -> consent n h caller target write ->
  consent n (h ++ k) caller target write.
Proof.
  intros Hk (Hc & Ht & Hw & h1 & h2 & -> & Hn & Ha & He).
  split; [by apply agreed_app|]. split; [by apply agreed_app|].
  split; [by intros ?; apply agreed_app, Hw|].
  exists h1, (h2 ++ k). split; [by rewrite <- app_assoc|]. split; [done|]. split; [done|].
  rewrite not_elem_of_app. split; [done|]. intros Hin.
  by pose proof (proj1 (Forall_forall _ _) Hk _ Hin).
Qed.

(** Every workspace opened since the first [n] calls was [allowed] then. *)
Definition lawful (n : nat) (allowed : list hcall -> identity -> Prop) (h : list hcall) : Prop :=
  forall h1 id h2, h = h1 ++ HOpen id :: h2 -> (n <= length h1)%nat -> allowed h1 id.

Lemma lawful_app n allowed h k :
  lawful n allowed h ->
  (forall k1 id k2, k = k1 ++ HOpen id :: k2 -> allowed (h ++ k1) id) -> lawful n allowed (h ++ k).
Proof.
  intros Hh Hk h1 id h2 E Hn. apply app_eq_app in E as (l & [[-> E]|[-> E]]).
  - destruct l as [|c l]; simplify_eq/=.
    + specialize (Hk [] id h2 eq_refl). by rewrite !app_nil_r in Hk.
    + by eapply Hh.
  - by eapply Hk.
Qed.

Lemma lawful_closed n allowed h k :
  Forall closed_call k -> lawful n allowed h -> lawful n allowed (h ++ k).
Proof.
  intros Hk Hh. apply lawful_app; [done|]. intros k1 id k2 ->.
  apply Forall_app in Hk as [_ Hk]. by apply Forall_cons_1 in Hk as [[] _].
Qed.

Lemma lawful_start n allowed h : (length h <= n)%nat -> lawful n allowed h.
Proof. intros Hn h1 id h2 -> Hle. rewrite length_app in Hn. simpl in Hn. lia. Qed.

Lemma lawful_access n allowed target caller write h k :
  Forall (access_call target) k -> lawful n allowed h -> consent n h caller target write ->
  (forall h', consent n h' caller target write -> allowed h' target) ->
  lawful n allowed (h ++ k).
Proof.
  intros Hk Hh Hc Ha. apply lawful_app; [done|]. intros k1 id k2 ->.
  apply Forall_app in Hk as [Hk1 Hk]. apply Forall_cons_1 in Hk as [Hid _]. simpl in Hid. subst id.
  by apply Ha, consent_app.
Qed.

(** What is true of [p], but not of the policy of a session that has none, was
    read from the file of [id]. *)
Definition recorded (n : nat) (h : list hcall) (id : identity) (p : pyval) : Prop :=
  forall ok : pyval -> Prop, ok p -> ~ ok (PDict DEFAULT_POLICY) -> agreed n h id ok.

Lemma not_default_enabled : ~ enabled (PDict DEFAULT_POLICY).
Proof. by intros (v & [= <-] & Hv). Qed.

Lemma not_default_writable : ~ writable (PDict DEFAULT_POLICY).
Proof. by intros (v & [= <-] & Hv). Qed.

Lemma wp_closed {A} (m : H_ A) n allowed s :
  only closed_call m -> lawful n allowed (hist s) -> ewp m (fun _ s' => lawful n allowed (hist s')) s.
Proof.
  intros Hm Hl. destruct (Hm s) as (k & Hk & Hc). unfold ewp. rewrite Hk. by apply lawful_closed.
Qed.

Lemma wp_policy who n s : (n <= length (hist s))%nat ->
  ewp (_policy who) (fun r s' =>
    (exists k, hist s' = hist s ++ k /\ Forall closed_call k) /\
    forall p, r = Done p -> exists id, _policy_path who = Ok id /\ recorded n (hist s') id p) s.
Proof.
  intros Hn. pose proof (only_policy who s) as Ho. split; [exact Ho|]. clear Ho.
  enough (ewp (_policy who) (fun r s' =>
    forall p, r = Done p -> exists id, _policy_path who = Ok id /\ recorded n (hist s') id p) s)
    as Hw by exact Hw.
  unfold _policy, tell. apply ewp_bind, ewp_lift. destruct (_policy_path who) as [id|e]; [|done].
  apply ewp_bind, ewp_perform. intros [[]|e|] _; [|done..].
  apply ewp_bind, ewp_perform. intros r <-. cbn. destruct (h_policy_exists _ id); cbn.
  - apply ewp_perform. intros r Hr p ->. exists id. split; [done|]. intros ok Hok _.
    eexists _, [], p. split; [done|]. split; [cbn; rewrite !length_app; lia|done].
  - apply ewp_ret. intros p [= <-]. exists id. split; [done|]. by intros ok.
Qed.

(** The access goes on while it is granted. *)
Lemma wp_share_access {A} n allowed caller target write (m : H_ A) s :
  only (access_call target) m -> lawful n allowed (hist s) -> (n <= length (hist s))%nat ->
  agreed n (hist s) caller enabled -> agreed n (hist s) target enabled ->
  (write = true -> agreed n (hist s) target writable) ->
  (forall h', consent n h' caller target write -> allowed h' target) ->
  ewp (share_access target write m) (fun _ s' => lawful n allowed (hist s')) s.
Proof.
  intros Hm Hl Hn Hc Ht Hw Ha. unfold share_access, within, tell.
  apply ewp_bind, ewp_perform. intros r Hr.
  set (s1 := St (hist s ++ [HAccess target write]) (obj s)).
  assert (lawful n allowed (hist s1)) as Hl1 by (apply lawful_closed; [by repeat constructor|done]).
  destruct r as [[]|e|]; [|done..]. apply ewp_finally.
  destruct (Hm s1) as (k & Hk & Hacc). unfold ewp at 1.
  assert (consent n (hist s1) caller target write) as Hcon.
  { split; [by apply agreed_app|]. split; [by apply agreed_app|].
    split; [by intros ?; apply agreed_app, Hw|]. exists (hist s), []. by repeat split; [..|set_solver]. }
  assert (lawful n allowed (hist (m s1).2)) as Hl2
    by (rewrite Hk; by eapply lawful_access).
  apply ewp_perform. intros r2 _. cbn.
  assert (lawful n allowed (hist (m s1).2 ++ [HAccessEnd target write]))
    by (apply lawful_closed; [by repeat constructor|done]).
  by destruct r2 as [[]|e2|].
Qed.

(** The two policies and the registry let the access through. *)
Lemma wp_checked_access n allowed caller target policy action params audit s :
  lawful n allowed (hist s) -> (n <= length (hist s))%nat -> recorded n (hist s) caller policy ->
  (forall h', consent n h' caller target (str_eqb action "write") -> allowed h' target) ->
  ewp (checked_access target policy action params audit)
    (fun _ s' => lawful n allowed (hist s')) s.
Proof.
  intros Hl Hn Hpol Ha. unfold checked_access. apply ewp_bind.
  eapply ewp_mono; [by apply (wp_policy _ n)|]. intros r s1 ((k1 & Hk1 & Hc1) & Ht).
  assert (lawful n allowed (hist s1)) as Hl1 by (rewrite Hk1; by apply lawful_closed).
  destruct r as [tp|e|]; [|done..]. destruct (Ht tp eq_refl) as (id & Hid & Htp).
  apply policy_path_of in Hid as ->.
  assert (recorded n (hist s1) caller policy) as Hp1.
  { intros ok Hok Hd. rewrite Hk1. by apply agreed_app, Hpol. }
  clear Ht. apply ewp_bind, ewp_lift. destruct (pitem "enabled" policy) as [v|e] eqn:Ev; [|done].
  apply ewp_bind. destruct (py_truthy v) eqn:Hv; simpl negb; cbv iota; [|by apply ewp_ret, ewp_bind].
  apply ewp_bind, ewp_lift. destruct (pitem "enabled" tp) as [w|e] eqn:Ew; [|done].
  apply ewp_ret, ewp_bind, ewp_throw_when; [done|]. intros Hw%negb_false_iff.
  apply ewp_bind.
  assert (agreed n (hist s1) caller enabled) as Hcon1
    by (apply Hp1; [by exists v|apply not_default_enabled]).
  assert (agreed n (hist s1) target enabled) as Hcon2
    by (apply Htp; [by exists w|apply not_default_enabled]).
  assert (forall b : bool, (b = false -> str_eqb action "write" = true -> agreed n (hist s1) target writable) ->
    ewp (throw_when b (WorkspaceError "target share is read-only");;
         result ← share_access target (str_eqb action "write")
                    (session_lock target (_access target tp action params audit));
         append_event (dset "result" (PStr "success") audit) target;; mret result)
      (fun _ s' => lawful n allowed (hist s')) s1) as Hrest.
  { intros b Hb. apply ewp_bind, ewp_throw_when; [done|]. intros Hbf. apply ewp_bind.
    eapply ewp_mono.
    - apply (wp_share_access n allowed caller); [|done| |done|done|by apply Hb|done].
      + unfold session_lock. repeat first [apply only_access|share_only].
      + rewrite Hk1, length_app. lia.
    - intros r s2 Hl2. destruct r as [res|e|]; [|done..].
      apply wp_closed; [repeat share_only|done]. }
  destruct (str_eqb action "write") eqn:Eact; [|by apply ewp_ret, Hrest].
  apply ewp_bind, ewp_lift. destruct (pitem "permission" tp) as [x|e] eqn:Ex; [|done].
  apply ewp_ret, Hrest. intros Hx%negb_false_iff _. apply Htp; [by exists x|apply not_default_writable].
Qed.

Definition own_call (caller : identity) (action : string) (c : hcall) : Prop :=
  match c with HOpen id => id = caller /\ action = "enable" | _ => True end.

Lemma only_configure caller action policy params :
  only (own_call caller action) (configure caller action policy params).
Proof.
  unfold configure, enable, _open, opened. destruct (str_eqb action "enable") eqn:E.
  - apply str_eqb_eq in E.
    repeat first [apply only_walk; by intros [] ?|apply only_sys; by split|share_only].
  - repeat share_only.
Qed.

(** The target that the parameters name. *)
Definition target_of (params : dict) : result identity :=
  _policy_path (dgetn "target_agent_id" params, dgetn "target_session_id" params).

(** Whose workspace a request may open, after the calls [h]. *)
Definition may_open (n : nat) (caller : identity) (action : string) (params : dict)
    (h : list hcall) (id : identity) : Prop :=
  (action = "enable" /\ id = caller) \/
  (target_of params = Ok id /\ consent n h caller id (str_eqb action "write")).

Lemma wp_access_request n caller policy action params s :
  let allowed := may_open n caller action params in
  lawful n allowed (hist s) -> (n <= length (hist s))%nat -> recorded n (hist s) caller policy ->
  ewp (access_request caller policy action params) (fun _ s' => lawful n allowed (hist s')) s.
Proof.
  intros allowed Hl Hn Hpol. unfold access_request.
  apply ewp_bind, ewp_throw_when; [done|]. intros _. apply ewp_bind, ewp_lift.
  fold (target_of params). destruct (target_of params) as [target|e] eqn:Et; [|done].
  apply ewp_bind, ewp_lift. destruct (relative_parts _); [|done]. apply ewp_catch.
  eapply ewp_mono.
  { apply (wp_checked_access n allowed caller); [done|done|done|]. intros h' Hc. by right. }
  intros r s1 Hl1. destruct r as [res|e|]; [done| |done]. apply wp_closed; [repeat share_only|done].
Qed.

(** C7: a workspace is opened for a request only when its owner asks for it,
    to enable sharing, or when the parameters name it and, earlier in this
    very request, the policy files of the caller and of the target were read
    and both said enabled, for a write that of the target said writable, and
    the registry granted an access that has not ended. *)
Theorem shares_by_consent caller action params s :
  let n := length (hist s) in
  lawful n (may_open n caller action params) (hist (dispatch caller action params s).2).
Proof.
  intros n. set (allowed := may_open n caller action params).
  enough (ewp (dispatch caller action params) (fun _ s' => lawful n allowed (hist s')) s) as Hw
    by exact Hw.
  unfold dispatch, within, tell. apply ewp_bind, ewp_perform. intros r <-.
  set (s1 := St (hist s ++ [HMutex]) (obj s)).
  assert (lawful n allowed (hist s1)) as Hl1.
  { apply lawful_closed; [by repeat constructor|]. by apply lawful_start. }
  apply ewp_finally.
  match goal with |- ewp ?m _ _ =>
    assert (ewp m (fun _ s' => lawful n allowed (hist s')) s1) as Hm end.
  2: { eapply ewp_mono; [exact Hm|]. intros r s2 Hl2. apply ewp_perform. intros r' <-.
       by apply lawful_closed; [repeat constructor|]. }
  apply ewp_bind. eapply ewp_mono; [apply (wp_policy _ n); subst s1 n; cbn; rewrite length_app; lia|].
  intros r s2 ((k & Hk & Hc) & Hp).
  assert (lawful n allowed (hist s2)) as Hl2 by (rewrite Hk; by apply lawful_closed).
  assert (n <= length (hist s2))%nat as Hn2.
  { rewrite Hk. subst s1 n. cbn. rewrite !length_app. lia. }
  destruct r as [policy|e|]; [|done..]. destruct (Hp policy eq_refl) as (id & Hid & Hrec).
  apply policy_path_of in Hid as ->.
  destruct (str_eqb action "status"); [apply wp_closed; [repeat share_only|done]|].
  destruct (str_eqb action "enable" || str_eqb action "disable").
  - destruct (only_configure caller action policy params s2) as (k2 & Hk2 & Hown). unfold ewp.
    rewrite Hk2. apply lawful_app; [done|]. intros k1 id k3 ->.
    apply Forall_app in Hown as [_ Hown]. apply Forall_cons_1 in Hown as [[Hid Ha] _]. by left.
  - by apply wp_access_request.
Qed.

(** ** Audit *)

Definition audit_of (caller : identity) (action : string) (params : dict) (result : string) : dict :=
  [("op", PStr ("share." +:+ action)); ("caller_agent_id", PStr caller.1);
   ("caller_session_id", PStr caller.2); ("path", dget_or "path" (PStr ".") params);
   ("result", PStr result)].

Definition since (s0 s : st hcall disk) : Prop := exists k, hist s = hist s0 ++ k.

Lemma wp_since {A} (m : H_ A) s0 s :
  only (fun _ => True) m -> since s0 s -> ewp m (fun _ s' => since s0 s') s.
Proof.
  intros Hm [k Hk]. destruct (Hm s) as (k2 & Hk2 & _). exists (k ++ k2). by rewrite Hk2, Hk, app_assoc.
Qed.

(** After [m], which was not the end of it. *)
Lemma wp_since_bind {A B} (m : H_ A) (f : A -> H_ B) (Q : reply B -> st hcall disk -> Prop) s0 s :
  only (fun _ => True) m -> since s0 s ->
  (forall r s', since s0 s' -> (forall b, r <> Done b) -> Q r s') ->
  (forall a s', since s0 s' -> ewp (f a) Q s') -> ewp (m ≫= f) Q s.
Proof.
  intros Hm Hs Hbad Hf. apply ewp_bind. eapply ewp_mono; [by apply (wp_since m s0)|].
  intros [a|e|] s' Hs'; [by apply Hf|by apply Hbad..].
Qed.

Definition ends_with (s0 : st hcall disk) (c : hcall) (s : st hcall disk) : Prop :=
  exists k, hist s = hist s0 ++ k ++ [c].

Lemma wp_record_event (event : dict) id (Q : reply unit -> st hcall disk -> Prop) s0 s :
  since s0 s -> (forall r s', ends_with s0 (HEvent event id) s' -> Q r s') ->
  ewp (append_event event id) Q s.
Proof.
  intros [k Hk] HQ. unfold append_event, tell. apply ewp_perform. intros r _. apply HQ.
  exists k. cbn. by rewrite Hk, app_assoc.
Qed.

Lemma ends_since s0 c s : ends_with s0 c s -> since s0 s.
Proof. intros [k Hk]. by exists (k ++ [c]). Qed.

Lemma only_all_access target policy action params audit :
  only (fun _ => True) (_access target policy action params audit).
Proof.
  intros s. destruct (only_access target policy action params audit s) as (k & Hk & _).
  exists k. split; [done|]. by apply Forall_forall.
Qed.

Lemma only_all_policy who : only (fun _ => True) (_policy who).
Proof. unfold _policy. repeat share_only. Qed.

Lemma wp_success_recorded target policy action params audit s :
  ewp (checked_access target policy action params audit) (fun r s' =>
    since s s' /\
    (is_done r -> ends_with s (HEvent (dset "result" (PStr "success") audit) target) s')) s.
Proof.
  set (Q := fun (r : reply dict) s' => since s s' /\
    (is_done r -> ends_with s (HEvent (dset "result" (PStr "success") audit) target) s')).
  assert (forall r s', since s s' -> (forall b, r <> Done b) -> Q r s') as Hbad.
  { intros r s' Hs Hr. split; [done|]. destruct r as [b| |]; [by destruct (Hr b)|done..]. }
  unfold checked_access.
  apply (wp_since_bind _ _ Q s); [apply only_all_policy|by exists []; rewrite app_nil_r|done|].
  intros tp s1 Hs1. do 6 (apply (wp_since_bind _ _ Q s);
    [repeat first [apply only_all_access|share_only]|assumption|done|clear dependent s1; intros ? s1 Hs1]).
  apply ewp_bind, (wp_record_event _ _ _ s); [done|]. intros [[]|e|] s2 Hs2;
    [by split; [eapply ends_since|]|apply Hbad; [by eapply ends_since|done]..].
Qed.

(** Also: an attempt to list, read or write is recorded with the session it is
    aimed at.  When the request names a session and a path, then before
    anything is returned the success is recorded, and before an error of the
    system or of the workspace is reported the failure is; a request ends
    without a record only by another kind of exception or an interrupt. *)
Theorem attempts_recorded caller policy action params target parts s :
  str_eqb action "list" || str_eqb action "read" || str_eqb action "write" = true ->
  target_of params = Ok target -> relative_parts (dget_or "path" (PStr ".") params) = Ok parts ->
  match access_request caller policy action params s with
  | (Done _, s') =>
      exists k, hist s' = hist s ++ k ++ [HEvent (audit_of caller action params "success") target]
  | (Raised e, s') =>
      denied e = false \/
      exists k, hist s' = hist s ++ k ++
                  [HEvent (audit_of caller action params "denied_or_failed") target]
  | (Interrupted, _) => True
  end.
Proof.
  intros Hact Ht Hpath. unfold access_request. rewrite Hact. fold (target_of params). rewrite Ht, Hpath.
  cbn [raise_if negb lift mbind P_bind mret P_ret throw_when].
  set (audit := [_; _; _; _]).
  set (m := checked_access target policy action params audit).
  pose proof (wp_success_recorded target policy action params audit s) as [Hsince Hok]. fold m in Hsince, Hok.
  set (h := access_failed target audit).
  change (let (r, s') := catch m h s in
          match r with
          | Done _ => ends_with s (HEvent (audit_of caller action params "success") target) s'
          | Raised e => denied e = false \/
              ends_with s (HEvent (audit_of caller action params "denied_or_failed") target) s'
          | Interrupted => True
          end).
  unfold catch, h, access_failed. clearbody m. destruct (m s) as [[res|e|] s1]; cbn in Hsince, Hok; [by apply Hok| |done].
  destruct (denied e) eqn:Ed; [|by left].
  match goal with |- let (r, s') := ?x in _ => destruct x as [r s'] eqn:E end.
  unfold append_event, tell, perform, mbind, P_bind in E.
  assert (hist s' = hist s1 ++ [HEvent (dset "result" (PStr "denied_or_failed") audit) target])
    as Hs' by (destruct (h_event _ _ _); by injection E as <- <-).
  destruct r as [x|e2|]; [|right|done]; (destruct Hsince as [k Hk]; cbn in Hk).
  - exfalso. by destruct (h_event _ _ _).
  - exists k. by rewrite Hs', Hk, <- app_assoc.
Qed.
End consent.
