(* ===== verification/ShareQuiet.v ===== *)
(** * What a shared file is, when nobody interferes

    An abstract account of access to a workspace, in terms of the directory
    graph alone: no descriptors, no system calls.  While nobody else changes
    the disk and the kernel refuses nothing, the descriptors of [_open] and of
    the reader implement it, and what was written is what is read. *)

From Stdlib Require Import Ascii.
From Stdlib Require String.
From stdpp Require Import gmap sorting.
From S2P Require Import Prelude Effects PyVal Ids StoreFiles Kernel Share ShareSpec.
Open Scope Z_scope.

(** ** The abstract account *)

(** What may be opened in the place of a component: never a link; where a
    directory is wanted, only a directory; else what can be opened at all. *)
Definition enters (directory : bool) (n : inode) : result unit :=
  match i_kind n with
  | ILink _ => Err (OSError "ELOOP")
  | IDir _ => Ok ()
  | k =>
      raise_if directory ENOTDIR;;
      match k with
      | ISocket => Err ENXIO
      | IDevice (Some errno) => Err (OSError errno)
      | _ => Ok ()
      end
  end.

Fixpoint descend (d : disk) (device : Z) (directory : bool) (parts : list string) (i : Z) : result Z :=
  match parts with
  | [] => Ok i
  | part :: parts =>
      match entries_of d i with
      | None => Err ENOTDIR
      | Some es =>
          match es !! part with
          | None => Err ENOENT
          | Some j =>
              match inodes d !! j with
              | None => Err ENOENT
              | Some n =>
                  enters (directory || negb (bool_decide (parts = []))) n;;
                  raise_if (negb (i_device n =? device))
                    (WorkspaceError "cross-filesystem sharing is not supported");;
                  descend d device directory parts j
              end
          end
      end
  end.

Definition locate (d : disk) (target : identity) (directory : bool) (parts : list string) : result Z :=
  _ ← current target.1 target.2;
  match currents d !! target with
  | None => Err ENOENT
  | Some i =>
      match inodes d !! i with
      | None => Err ENOENT
      | Some n => enters true n;; descend d (i_device n) directory parts i
      end
  end.

(** The contents of a file that may be shared. *)
Definition shared_file (d : disk) (target : identity) (parts : list string) : result string :=
  i ← locate d target false parts;
  match inodes d !! i with
  | Some (Inode (IFile data) 1 _ _) =>
      raise_if (MAX_BYTES <? Z.of_nat (String.length data)) (WorkspaceError "file exceeds 256 KiB");;
      Ok data
  | _ => Err (WorkspaceError "only regular files without hard links can be shared")
  end.

Section quiet.
Context `{ShareHost}.

(** Nobody interferes. *)
Class Quiet : Prop := {
  quiet_others : forall h d, h_others h d = d;
  quiet_fault : forall h c, h_fault h c = None }.
Context `{!Quiet}.

Lemma sys_quiet {A} c (f : disk -> result (A * disk)) s :
  sys c f s = match f (obj s) with
              | Ok (a, d) => (Done a, St (hist s ++ [c]) d)
              | Err e => (Raised e, St (hist s ++ [c]) (obj s))
              end.
Proof. rewrite sys_eq. cbv zeta. by rewrite quiet_fault, quiet_others. Qed.

Lemma ewp_quiet {A} c (f : disk -> result (A * disk)) (Q : reply A -> st hcall disk -> Prop) s :
  match f (obj s) with
  | Ok (a, d) => Q (Done a) (St (hist s ++ [c]) d)
  | Err e => Q (Raised e) (St (hist s ++ [c]) (obj s))
  end -> ewp (sys c f) Q s.
Proof. intros Hf. unfold ewp. rewrite sys_quiet. by destruct (f (obj s)) as [[]|]. Qed.

Lemma open_inode_enters directory i d :
  open_inode directory i d =
  match inodes d !! i with
  | None => Err ENOENT
  | Some n => enters directory n;;
              Ok (unused (fds d), with_fds (<[unused (fds d) := i]> (fds d)) d)
  end.
Proof.
  unfold open_inode, enters. destruct (inodes d !! i) as [n|]; [|done].
  by destruct (i_kind n) as [| | | | |[]], directory.
Qed.

Lemma with_fds_twice m m' d : with_fds m (with_fds m' d) = with_fds m d.
Proof. done. Qed.

Lemma fd_looked_up F fd i d : of_fd fd (with_fds (<[fd := i]> F) d) = Ok i.
Proof. unfold of_fd, with_fds. cbn. by rewrite lookup_insert_eq. Qed.

(** The walk on descriptors arrives where the abstract descent does. *)
Lemma wp_walk_quiet F directory device parts d : forall fd i h
    (Q : reply (Z * reply unit) -> st hcall disk -> Prop),
  F !! fd = None ->
  (forall fd' i' e h', descend d device directory parts i = Err e -> F !! fd' = None ->
     Q (Done (fd', Raised e)) (St h' (with_fds (<[fd' := i']> F) d))) ->
  (forall fd' i' h', descend d device directory parts i = Ok i' -> F !! fd' = None ->
     Q (Done (fd', Done ())) (St h' (with_fds (<[fd' := i']> F) d))) ->
  ewp (walk directory device parts fd) Q (St h (with_fds (<[fd := i]> F) d)).
Proof.
  induction parts as [|part parts IH]; intros fd i h Q HF Hbad Hok; cbn [walk descend] in *.
  { by apply ewp_ret, Hok. }
  apply ewp_bind, ewp_attempt, ewp_quiet. cbn [obj hist]. unfold open_at, dir_of.
  rewrite fd_looked_up. cbn [mbind result_bind].
  change (entries_of (with_fds _ d) i) with (entries_of d i).
  destruct (entries_of d i) as [es|]; cbn [mbind result_bind snd];
    [|by apply ewp_ret, Hbad].
  destruct (es !! part) as [j|]; [|by apply ewp_ret, Hbad]. rewrite open_inode_enters.
  change (inodes (with_fds _ d)) with (inodes d).
  destruct (inodes d !! j) as [n|] eqn:En; [|by apply ewp_ret, Hbad].
  destruct (enters _ n) as [[]|e]; cbn [mbind result_bind]; [|by apply ewp_ret, Hbad].
  set (next := unused _). assert (<[fd := i]> F !! next = None) as Hnext by apply unused_fresh.
  apply lookup_insert_None in Hnext as [Hnext Hne].
  apply ewp_bind, ewp_attempt, ewp_quiet. cbn [obj hist].
  rewrite (close_owned (<[next := j]> F)).
  2: { split; [by rewrite lookup_insert_ne|]. exists i. cbn. by rewrite insert_insert_ne. }
  apply ewp_bind, ewp_attempt, ewp_quiet. cbn [obj hist].
  rewrite !with_fds_twice. unfold fstat. rewrite fd_looked_up. cbn [mbind result_bind].
  change (inodes (with_fds _ d)) with (inodes d). rewrite En.
  destruct (i_device n =? device); cbn [negb raise_if mbind result_bind] in *;
    [by apply IH|by apply ewp_ret, Hbad].
Qed.

(** [_open] runs its body where the path leads, and closes. *)
Lemma wp_open_quiet {A} target parts directory (body : Z -> H_ A) d h
    (Q : reply A -> st hcall disk -> Prop) :
  (forall e h', locate d target directory parts = Err e -> Q (Raised e) (St h' d)) ->
  (forall i fd h', locate d target directory parts = Ok i -> fds d !! fd = None ->
     ewp (body fd) (fun r s' => fds (obj s') = <[fd := i]> (fds d) /\
                      forall h'', Q r (St h'' (with_fds (fds d) (obj s'))))
       (St h' (with_fds (<[fd := i]> (fds d)) d))) ->
  ewp (_open target parts directory body) Q (St h d).
Proof.
  intros Hbad Hok. unfold locate in *. unfold _open.
  apply ewp_bind, ewp_lift. destruct (current target.1 target.2); cbn [mbind result_bind] in *;
    [|by apply Hbad].
  apply ewp_bind, ewp_quiet. cbn [obj hist]. unfold open_current.
  destruct (currents d !! target) as [i|]; [|by apply Hbad]. rewrite open_inode_enters.
  destruct (inodes d !! i) as [n|] eqn:En; [|by apply Hbad].
  destruct (enters true n) as [[]|e]; cbn [mbind result_bind] in *; [|by apply Hbad].
  set (fd := unused _). assert (fds d !! fd = None) as Hfd by apply unused_fresh.
  apply ewp_bind. unfold opened. apply ewp_bind, ewp_attempt, ewp_quiet. cbn [obj hist].
  unfold fstat. rewrite fd_looked_up. cbn [mbind result_bind].
  change (inodes (with_fds _ d)) with (inodes d). rewrite En.
  apply wp_walk_quiet; [done|..].
  - intros fd' i' e h' He HF. apply ewp_finally. unfold settle, mbind, P_bind. unfold ewp at 1. cbn.
    apply ewp_quiet. cbn [obj hist]. rewrite (close_owned (fds d)) by (split; eauto).
    rewrite with_fds_twice. destruct d. by apply Hbad.
  - intros fd' i' h' Hi HF. apply ewp_finally. apply ewp_bind. unfold settle at 1, ewp at 1. cbn [fst snd].
    eapply ewp_mono; [by apply Hok|]. intros r s' [Hs' HQ]. apply ewp_quiet.
    rewrite (close_owned (fds d)) by (split; eauto). apply HQ.
Qed.

(** ** Reading *)

Lemma string_take_all n s : (String.length s <= n)%nat -> string_take n s = s.
Proof.
  revert s. induction n as [|n IH]; intros [|c s] Hn; simpl in *; [done|lia|done|].
  by rewrite IH by lia.
Qed.

Definition read_reply (data : string) : dict :=
  [("data_base64", PStr (b64encode data)); ("size", PInt (Z.of_nat (String.length data)))].

(** What [_access] makes of the scope and the path. *)
Definition shared_parts (policy : pyval) (params : dict) : result (list string) :=
  scope ← (v ← pitem "scope" policy; relative_parts v);
  path ← relative_parts (dget_or "path" (PStr ".") params);
  raise_if (bool_decide (path = [])) (WorkspaceError "read/write requires a file path");;
  Ok (scope ++ path).

(** The two parts of a result, without the calls made. *)
Definition outcome {A} (x : reply A * st hcall disk) : reply A * disk := (x.1, obj x.2).

Definition replied {A} (r : result A) : reply A := match r with Ok a => Done a | Err e => Raised e end.

Lemma wp_read_quiet F fd i d (Q : reply dict -> st hcall disk -> Prop) h :
  (forall h', Q (replied (data ← match inodes d !! i with
                  | Some (Inode (IFile data) 1 _ _) =>
                      raise_if (MAX_BYTES <? Z.of_nat (String.length data))
                        (WorkspaceError "file exceeds 256 KiB");;
                      Ok data
                  | _ => Err (WorkspaceError "only regular files without hard links can be shared")
                  end; Ok (read_reply data))) (St h' (with_fds (<[fd := i]> F) d))) ->
  is_Some (inodes d !! i) -> ewp (read_file fd) Q (St h (with_fds (<[fd := i]> F) d)).
Proof.
  intros HQ [n Hn]. unfold read_file. apply ewp_bind, ewp_quiet. cbn [obj hist].
  unfold fstat. rewrite fd_looked_up. cbn [mbind result_bind].
  change (inodes (with_fds _ d)) with (inodes d). rewrite Hn in *. cbn in HQ.
  destruct n as [k nlink device size]. unfold S_ISREG, st_size. cbn [i_kind i_nlink i_size].
  destruct k as [es|data|l| | |refusal]; cbn in HQ; try (apply ewp_bind, ewp_throw_when; [intros _; apply HQ|done]).
  destruct (Z.eqb_spec nlink 1) as [->|Hne]; cbn [negb orb].
  2: { apply ewp_bind, ewp_throw_when; [intros _|done].
       destruct nlink as [|[| |]|]; cbn in HQ; try apply HQ. done. }
  apply ewp_bind, ewp_throw_when; [done|intros _].
  destruct (MAX_BYTES <? Z.of_nat (String.length data)) eqn:Em; cbn in HQ;
    (apply ewp_bind, ewp_throw_when; [intros ?; simplify_eq; try apply HQ|intros ?; simplify_eq]).
  apply ewp_bind, ewp_quiet. cbn [obj hist]. unfold read_fd. rewrite fd_looked_up. cbn [mbind result_bind].
  change (inodes (with_fds _ d)) with (inodes d). rewrite Hn.
  apply Z.ltb_ge in Em. rewrite string_take_all by (unfold read_limit; lia).
  apply ewp_bind, ewp_throw_when; [intros ?%Z.ltb_lt; lia|intros _]. apply ewp_ret, HQ.
Qed.

Lemma locate_inode d target directory parts i :
  locate d target directory parts = Ok i -> is_Some (inodes d !! i).
Proof.
  unfold locate. intros (x & _ & Hl)%result_bind_Ok.
  destruct (currents d !! target) as [j|]; [|done].
  destruct (inodes d !! j) as [n|] eqn:En; [|done]. apply result_bind_Ok in Hl as ([] & _ & Hl).
  assert (is_Some (inodes d !! j)) as Hj by (by exists n). clear En. revert Hl.
  generalize (i_device n). clear n. intros device. revert j Hj.
  induction parts as [|part parts IH]; intros j Hj; cbn; [by intros [= <-]|].
  destruct (entries_of d j) as [es|]; [|done]. destruct (es !! part) as [k|]; [|done].
  destruct (inodes d !! k) as [n|] eqn:En; [|done].
  intros (? & _ & (? & _ & Hl)%result_bind_Ok)%result_bind_Ok. by apply (IH k); [exists n|].
Qed.

Lemma read_outcome target policy params audit s :
  outcome (_access target policy "read" params audit s) =
  (replied (parts ← shared_parts policy params;
            data ← shared_file (obj s) target parts; Ok (read_reply data)), obj s).
Proof.
  destruct s as [h d]. cbn [obj].
  enough (ewp (_access target policy "read" params audit) (fun r' s' =>
      r' = replied (parts ← shared_parts policy params;
                    data ← shared_file d target parts; Ok (read_reply data)) /\ obj s' = d) (St h d))
    as [E1 E2] by (unfold outcome; by rewrite E1, E2).
  unfold _access, shared_parts. apply ewp_bind, ewp_lift.
  destruct (v ← pitem "scope" policy; relative_parts v) as [scope|e]; [|done].
  apply ewp_bind, ewp_lift. cbn [mbind result_bind].
  destruct (relative_parts _) as [path|e]; [|done]. cbn [mbind result_bind].
  rewrite (proj2 (str_eqb_neq "read" "list")), str_eqb_refl by done.
  destruct (bool_decide (path = [])); [done|].
  apply ewp_bind, ewp_ret. cbn [raise_if mbind result_bind].
  unfold shared_file. apply wp_open_quiet.
  - intros e h' He. by rewrite He.
  - intros i fd h' Hi Hfd. pose proof (locate_inode _ _ _ _ _ Hi) as Hin. rewrite Hi.
    cbn [mbind result_bind]. apply wp_read_quiet; [|done]. intros h2. split; [done|].
    intros h3. split; [done|]. by destruct d.
Qed.

(** C25: while nobody else changes the disk and the kernel fails no call for a
    reason outside the model ([Quiet]), a read through descriptors and system
    calls implements the abstract account of a shared file: with the scope of
    the policy and the path of the request it answers with the file's contents
    in base64 and their size, or with the very error the account gives, for a
    missing or malformed path, a link, another file system, a socket or a device
    that does not open, a hard link, a FIFO or a device that opens, or a file too
    large; and the disk, descriptors included, is as it was. *)
Theorem read_refines target policy params audit s :
  outcome (_access target policy "read" params audit s) =
  (replied (parts ← shared_parts policy params;
            data ← shared_file (obj s) target parts; Ok (read_reply data)), obj s).
Proof. apply read_outcome. Qed.
End quiet.

(** * What was written is what is read

    A write replaces the named entry by a new file and leaves every directory
    on the way to it in place, so that the path leads to the new contents. *)

(** ** Paths through directories that are kept *)

Definition is_dir (d : disk) (i : Z) : Prop := is_Some (entries_of d i).

(** Every directory is still one, on the same file system, and still holds its
    directories under their names. *)
Record keeps_dirs (d d' : disk) : Prop := {
  kd_current : currents d' = currents d;
  kd_dir : forall i n es, inodes d !! i = Some n -> i_kind n = IDir es ->
    exists n' es', inodes d' !! i = Some n' /\ i_kind n' = IDir es' /\ i_device n' = i_device n /\
      forall part j, es !! part = Some j -> is_dir d j -> es' !! part = Some j }.

Lemma entries_kind d i es :
  entries_of d i = Some es <-> exists n, inodes d !! i = Some n /\ i_kind n = IDir es.
Proof.
  unfold entries_of. split.
  - destruct (inodes d !! i) as [[[] ? ? ?]|]; try done. intros [= ->]. by eexists.
  - intros ([k ? ? ?] & -> & Hk). simpl in Hk. by rewrite Hk.
Qed.

Lemma enters_dir n : enters true n = Ok () -> exists es, i_kind n = IDir es.
Proof. unfold enters. destruct (i_kind n); try done. by eexists. Qed.

Lemma dir_enters directory n es : i_kind n = IDir es -> enters directory n = Ok ().
Proof. unfold enters. by intros ->. Qed.

Lemma descend_kept d d' device parts : keeps_dirs d d' -> forall i j,
  descend d device true parts i = Ok j -> descend d' device true parts i = Ok j.
Proof.
  intros Hk. induction parts as [|part parts IH]; intros i j; cbn [descend]; [done|].
  destruct (entries_of d i) as [es|] eqn:Ees; [|done]. destruct (es !! part) as [k|] eqn:Ek; [|done].
  destruct (inodes d !! k) as [n|] eqn:En; [|done]. cbn [orb].
  intros ([] & He & (? & Hd%raise_if_Ok & Hj)%result_bind_Ok)%result_bind_Ok.
  apply enters_dir in He as [es2 Hes2]. apply entries_kind in Ees as (ni & Hni & Hki).
  destruct (kd_dir _ _ Hk _ _ _ Hni Hki) as (ni' & es' & Hni' & Hki' & _ & Hkeep).
  assert (entries_of d' i = Some es') as -> by (apply entries_kind; eauto).
  rewrite (Hkeep _ _ Ek) by (exists es2; apply entries_kind; eauto).
  destruct (kd_dir _ _ Hk _ _ _ En Hes2) as (n' & es2' & -> & Hk2 & Hdev & _).
  rewrite (dir_enters _ _ _ Hk2), Hdev, Hd. by apply IH.
Qed.

Lemma descend_snoc d device directory parts name i :
  descend d device directory (parts ++ [name]) i
  = j ← descend d device true parts i; descend d device directory [name] j.
Proof.
  revert i. induction parts as [|part parts IH]; intros i; [done|].
  rewrite <- app_comm_cons. cbn [descend]. destruct (entries_of d i) as [es|]; [|done].
  destruct (es !! part) as [k|]; [|done]. destruct (inodes d !! k) as [n|]; [|done].
  rewrite (bool_decide_eq_false_2 (parts ++ [name] = [])) by (by destruct parts).
  cbn [negb orb]. rewrite orb_true_r. destruct (enters true n); [|done]. cbn [mbind result_bind].
  destruct (raise_if _ _); [|done]. cbn [mbind result_bind]. by rewrite IH.
Qed.

Lemma descend_device d device directory parts i j n :
  inodes d !! i = Some n -> i_device n = device -> descend d device directory parts i = Ok j ->
  exists n', inodes d !! j = Some n' /\ i_device n' = device.
Proof.
  revert i n. induction parts as [|part parts IH]; intros i n Hn Hd; cbn [descend];
    [intros [= <-]; eauto|].
  destruct (entries_of d i) as [es|]; [|done]. destruct (es !! part) as [k|]; [|done].
  destruct (inodes d !! k) as [m|] eqn:Em; [|done].
  intros (? & _ & (? & Hm%raise_if_Ok%negb_false_iff%Z.eqb_eq & Hj)%result_bind_Ok)%result_bind_Ok.
  by eapply IH.
Qed.

(** The file that a kept path and a new entry lead to. *)
Lemma shared_file_at d d' target parts name p es j data size :
  keeps_dirs d d' -> locate d target true parts = Ok p ->
  entries_of d' p = Some es -> es !! name = Some j ->
  (forall n, inodes d !! p = Some n -> inodes d' !! j = Some (Inode (IFile data) 1 (i_device n) size)) ->
  Z.of_nat (String.length data) <= MAX_BYTES ->
  shared_file d' target (parts ++ [name]) = Ok data.
Proof.
  intros Hk Hl Hes Hj Hf Hlen. unfold shared_file, locate in *.
  apply result_bind_Ok in Hl as (c & -> & Hl). cbn [mbind result_bind].
  rewrite (kd_current _ _ Hk). destruct (currents d !! target) as [r|]; [|done].
  destruct (inodes d !! r) as [n|] eqn:En; [|done].
  apply result_bind_Ok in Hl as ([] & [es0 He]%enters_dir & Hl).
  destruct (kd_dir _ _ Hk _ _ _ En He) as (n' & es' & -> & He' & Hdev & _).
  rewrite (dir_enters _ _ _ He'), Hdev. cbn [mbind result_bind].
  rewrite descend_snoc, (descend_kept _ _ _ _ Hk _ _ Hl). cbn [mbind result_bind descend].
  rewrite Hes, Hj.
  destruct (descend_device _ _ _ _ _ _ _ En eq_refl Hl) as (np & Hnp & Hdp).
  rewrite (Hf _ Hnp). cbn. rewrite Hdp, Z.eqb_refl. cbn.
  rewrite (Hf _ Hnp). cbn. by rewrite (proj2 (Z.ltb_ge _ _)).
Qed.

(** ** Replacing an entry *)

(** The directory [p] holds [es]; [tmp] is the new file [i] with [data]. *)
Definition with_new_file (d : disk) (p : Z) (es : gmap string Z) (tmp : string) (i : Z) (np : inode)
    (data : string) : gmap Z inode :=
  <[p := Inode (IDir (<[tmp := i]> es)) (i_nlink np) (i_device np) (i_size np)]>
    (<[i := Inode (IFile data) 1 (i_device np) 0]> (inodes d)).

Lemma create_write F fd p d es np tmp data :
  entries_of d p = Some es -> inodes d !! p = Some np -> es !! tmp = None ->
  let i := unused (inodes d) in
  let fd2 := unused (<[fd := p]> F) in
  create_at fd tmp (with_fds (<[fd := p]> F) d)
    = Ok (fd2, Disk (with_new_file d p es tmp i np EmptyString) (currents d)
                 (<[fd2 := i]> (<[fd := p]> F))) /\
  write_fd fd2 data (Disk (with_new_file d p es tmp i np EmptyString) (currents d)
                 (<[fd2 := i]> (<[fd := p]> F)))
    = Ok ((), Disk (with_new_file d p es tmp i np data) (currents d)
                 (<[fd2 := i]> (<[fd := p]> F))).
Proof.
  intros He Hp Ht i fd2. assert (inodes d !! i = None) as Hi by apply unused_fresh.
  assert (p <> i) as Hne by congruence.
  split.
  - unfold create_at, dir_of. rewrite fd_looked_up. cbn [mbind result_bind].
    change (entries_of (with_fds _ d) p) with (entries_of d p). rewrite He.
    cbn [mbind result_bind fst snd]. rewrite Ht.
    change (inodes (with_fds _ d)) with (inodes d). rewrite Hp.
    unfold put_kind, with_inodes, with_new_file. cbn.
    rewrite (alter_alt_Some _ _ _ np) by (by rewrite lookup_insert_ne). done.
  - unfold write_fd, of_fd. cbn [fds]. rewrite lookup_insert_eq. cbn [mbind result_bind].
    unfold put_kind, with_inodes, with_new_file. cbn.
    rewrite alter_insert_ne, (alter_alt_Some _ _ _ (Inode (IFile EmptyString) 1 (i_device np) 0))
      by (done || by rewrite lookup_insert_eq). cbn.
    by rewrite insert_insert_eq.
Qed.

(** Directories are kept when only the entries [tmp] and [name] of [p], which
    are no directories, change. *)
Lemma kept_dirs_of d d' p es np es' tmp name :
  currents d' = currents d -> inodes d !! p = Some np -> entries_of d p = Some es ->
  (exists np', inodes d' !! p = Some np' /\ i_kind np' = IDir es' /\ i_device np' = i_device np) ->
  (forall j, j <> p -> is_dir d j -> inodes d' !! j = inodes d !! j) ->
  (forall part j, es !! part = Some j -> part <> tmp -> part <> name -> es' !! part = Some j) ->
  es !! tmp = None -> (forall j, es !! name = Some j -> ~ is_dir d j) ->
  keeps_dirs d d'.
Proof.
  intros Hc Hnp Hes (np' & Hp' & Hk' & Hd') Hj He Ht Hn. split; [done|]. intros i n es0 Hi Hk.
  destruct (decide (i = p)) as [->|Hne].
  - assert (n = np) as -> by congruence.
    assert (es0 = es) as -> by (apply entries_kind in Hes as (n2 & ? & ?); congruence).
    exists np', es'. split_and!; try done. intros part j Hpart Hdir. apply He; [done|congruence|].
    intros ->. by apply (Hn j).
  - exists n, es0. rewrite Hj; [done|done|]. exists es0. apply entries_kind. eauto.
Qed.

(** The disk after the renaming: [name] leads to the new file. *)
Lemma renamed F fd p d es np tmp name data :
  entries_of d p = Some es -> inodes d !! p = Some np -> es !! tmp = None -> name <> tmp ->
  (forall old, es !! name = Some old -> exists n s, inodes d !! old = Some n /\ i_kind n = IFile s) ->
  let i := unused (inodes d) in
  let d2 := Disk (with_new_file d p es tmp i np data) (currents d) (<[fd := p]> F) in
  let es3 := <[name := i]> (delete tmp (<[tmp := i]> es)) in
  exists d3, replace_at fd tmp name d2 = Ok ((), d3) /\ fds d3 = <[fd := p]> F /\
    unlink_at fd tmp d3 = Err ENOENT /\ keeps_dirs d d3 /\ entries_of d3 p = Some es3 /\
    inodes d3 !! i = Some (Inode (IFile data) 1 (i_device np) 0).
Proof.
  intros He Hp Ht Hname Hold i d2 es3.
  assert (inodes d !! i = None) as Hi by apply unused_fresh.
  assert (p <> i) as Hpi by congruence.
  assert (dir_of fd d2 = Ok (p, <[tmp := i]> es)) as Hdir.
  { unfold dir_of, of_fd, entries_of, d2, with_new_file. cbn. rewrite lookup_insert_eq. cbn.
    by rewrite lookup_insert_eq. }
  assert (forall d3, fds d3 = <[fd := p]> F -> currents d3 = currents d ->
    inodes d3 !! p = Some (Inode (IDir es3) (i_nlink np) (i_device np) (i_size np)) ->
    inodes d3 !! i = Some (Inode (IFile data) 1 (i_device np) 0) ->
    (forall j, j <> p -> is_dir d j -> inodes d3 !! j = inodes d !! j) ->
    fds d3 = <[fd := p]> F /\ unlink_at fd tmp d3 = Err ENOENT /\ keeps_dirs d d3 /\
    entries_of d3 p = Some es3 /\ inodes d3 !! i = Some (Inode (IFile data) 1 (i_device np) 0)) as Hend.
  { intros d3 Hf Hc Hp3 Hi3 Hj. assert (entries_of d3 p = Some es3) as Hes3
      by (apply entries_kind; eexists; split; [exact Hp3|done]).
    split_and!; try done.
    - unfold unlink_at, dir_of, of_fd. rewrite Hf, lookup_insert_eq. cbn [mbind result_bind].
      rewrite Hes3. cbn [mbind result_bind fst snd]. unfold es3.
      by rewrite lookup_insert_ne, lookup_delete_eq by done.
    - eapply (kept_dirs_of d d3 p es np es3 tmp name); try done; [by eexists| |].
      + intros part j Hpart Htm Hnm. unfold es3.
        by rewrite lookup_insert_ne, lookup_delete_ne, lookup_insert_ne by done.
      + intros j Hj2 [es2 Hd2]. destruct (Hold j Hj2) as (n & s & Hn & Hk).
        apply entries_kind in Hd2 as (n2 & ? & ?). congruence. }
  assert (inodes (put_kind p (IDir es3) d2) !! p
          = Some (Inode (IDir es3) (i_nlink np) (i_device np) (i_size np))) as Hbp.
  { unfold put_kind, d2, with_new_file. cbn. rewrite lookup_alter_eq, lookup_insert_eq. done. }
  assert (forall j, j <> p -> inodes (put_kind p (IDir es3) d2) !! j
          = if decide (j = i) then Some (Inode (IFile data) 1 (i_device np) 0) else inodes d !! j) as Hbj.
  { intros j Hj. unfold put_kind, d2, with_new_file. cbn.
    rewrite lookup_alter_ne, lookup_insert_ne by done.
    case_decide as Hji; [by rewrite Hji, lookup_insert_eq|by rewrite lookup_insert_ne]. }
  unfold replace_at. rewrite Hdir. cbn [mbind result_bind fst snd].
  rewrite lookup_insert_eq, (lookup_insert_ne _ tmp name) by done.
  destruct (es !! name) as [old|] eqn:Eold.
  2: { eexists. split; [done|]. apply Hend; try done.
       - rewrite Hbj by done. by rewrite decide_True.
       - intros j Hj [es2 Hd2]. rewrite Hbj by done. rewrite decide_False; [done|]. intros ->.
         apply entries_kind in Hd2 as (n2 & ? & _). congruence. }
  destruct (Hold old eq_refl) as (n & content & Hn & Hkn).
  assert (old <> i) as Hoi by congruence.
  assert (old <> p) as Hop.
  { intros ->. apply entries_kind in He as (n2 & ? & ?). congruence. }
  assert (entries_of d2 old = None) as ->.
  { unfold entries_of, d2, with_new_file. cbn. rewrite !lookup_insert_ne by done. rewrite Hn.
    destruct n as [k ? ? ?]. cbn in Hkn. by rewrite Hkn. }
  rewrite bool_decide_eq_false_2 by done. eexists. split; [done|].
  assert (forall j, j <> old -> inodes (unlinked old (put_kind p (IDir es3) d2)) !! j
            = inodes (put_kind p (IDir es3) d2) !! j) as Hu.
  { intros j Hj. unfold unlinked. cbn. by rewrite lookup_alter_ne. }
  apply Hend; try done.
  - by rewrite Hu.
  - rewrite Hu, Hbj by done. by rewrite decide_True.
  - intros j Hj [es2 Hd2]. apply entries_kind in Hd2 as (n2 & Hn2 & Hk2).
    assert (j <> old) by (intros ->; congruence).
    rewrite Hu, Hbj by done. rewrite decide_False; [done|]. congruence.
Qed.

(** ** The write *)

(** Every entry leads to something. *)
Definition no_dangling (d : disk) : Prop := forall i es name j,
  entries_of d i = Some es -> es !! name = Some j -> is_Some (inodes d !! j).

Lemma descend_dir d device parts : forall i j,
  is_dir d i -> descend d device true parts i = Ok j -> is_dir d j.
Proof.
  induction parts as [|part parts IH]; intros i j Hi; cbn [descend]; [by intros [= <-]|].
  destruct (entries_of d i) as [es|]; [|done]. destruct (es !! part) as [k|]; [|done].
  destruct (inodes d !! k) as [m|] eqn:Em; [|done]. cbn [orb].
  intros ([] & [es2 He]%enters_dir & (? & _ & Hj)%result_bind_Ok)%result_bind_Ok.
  eapply IH; [|exact Hj]. exists es2. apply entries_kind. eauto.
Qed.

Lemma locate_dir d target parts p : locate d target true parts = Ok p -> is_dir d p.
Proof.
  unfold locate. intros (x & _ & Hl)%result_bind_Ok.
  destruct (currents d !! target) as [i|]; [|done]. destruct (inodes d !! i) as [n|] eqn:En; [|done].
  apply result_bind_Ok in Hl as ([] & [es He]%enters_dir & Hl).
  eapply descend_dir; [|exact Hl]. exists es. apply entries_kind. eauto.
Qed.

Section write.
Context `{ShareHost} `{!Quiet}.

#[local] Instance quiet_descriptors : OwnDescriptors.
Proof. split; intros; [by rewrite quiet_others|apply quiet_fault]. Qed.

(** The new file is in the place of the old one. *)
Definition placed (d : disk) (p : Z) (name data : string) (d' : disk) : Prop :=
  keeps_dirs d d' /\ exists es j, entries_of d' p = Some es /\ es !! name = Some j /\
    forall n, inodes d !! p = Some n -> inodes d' !! j = Some (Inode (IFile data) 1 (i_device n) 0).

Lemma dir_of_parent F fd p d es :
  entries_of d p = Some es -> dir_of fd (with_fds (<[fd := p]> F) d) = Ok (p, es).
Proof.
  intros He. unfold dir_of. rewrite fd_looked_up. cbn [mbind result_bind].
  change (entries_of (with_fds _ d) p) with (entries_of d p). by rewrite He.
Qed.

Lemma wp_entry_quiet target audit name data F fd p d es old h :
  entries_of d p = Some es -> (forall l, temporary_file (h_uuid l) <> name) ->
  (forall o, es !! name = Some o -> exists n, inodes d !! o = Some n /\ old = Some n) ->
  ewp (write_entry target audit name data fd old)
    (fun r s' => is_done r -> placed d p name data (obj s')) (St h (with_fds (<[fd := p]> F) d)).
Proof.
  intros He Htmp Hold. pose proof He as (np & Hp & Hkp)%entries_kind.
  unfold write_entry. apply ewp_bind, ewp_throw_when; [done|]. intros Hrep%negb_false_iff.
  apply ewp_bind, ewp_perform. intros r <-. cbn [hist]. set (tmp := temporary_file (h_uuid h)).
  apply ewp_bind, ewp_quiet. cbn [obj hist].
  destruct (es !! tmp) as [x|] eqn:Et.
  { unfold create_at. rewrite (dir_of_parent _ _ _ _ es) by done. cbn [mbind result_bind fst snd].
    rewrite Et. by intros []. }
  destruct (create_write F fd p d es np tmp data He Hp Et) as [-> Hwrite].
  set (i := unused (inodes d)) in *. set (fd2 := unused (<[fd := p]> F)) in *.
  destruct (renamed F fd p d es np tmp name data He Hp Et) as (d3 & Hren & Hf3 & Hun & Hkeep & He3 & Hi3).
  { intros E. by apply (Htmp h). }
  { intros o Ho. destruct (Hold o Ho) as (n & Hn & ->). cbn in Hrep. apply andb_prop in Hrep as [Hreg _].
    unfold S_ISREG in Hreg. exists n. destruct (i_kind n) as [|s| | | |] eqn:Ek; try done. by exists s. }
  apply ewp_finally. apply ewp_bind, ewp_finally, ewp_bind, ewp_quiet. cbn [obj hist].
  rewrite Hwrite. apply ewp_quiet. cbn [obj hist]. unfold sync_fd, of_fd at 1. cbn [fds].
  rewrite lookup_insert_eq. cbn [mbind result_bind]. apply ewp_quiet. cbn [obj hist].
  rewrite (close_owned (<[fd := p]> F)) by (split; [apply unused_fresh|by exists i]).
  unfold with_fds at 1. cbn [inodes currents].
  set (d2 := Disk (with_new_file d p es tmp i np data) (currents d) (<[fd := p]> F)) in *.
  apply ewp_bind. unfold append_event, tell. apply ewp_perform. intros r _. cbn [hist obj].
  destruct r as [[]|e|]; [|eapply ewp_mono; [apply ewp_true|by intros [[]|e2|] s' _ []]..].
  apply ewp_bind, ewp_quiet. cbn [obj hist]. fold i d2 in Hren. rewrite Hren.
  apply ewp_quiet. cbn [obj hist]. unfold sync_fd, of_fd. rewrite Hf3, lookup_insert_eq.
  cbn [mbind result_bind]. unfold if_missing. apply ewp_catch, ewp_quiet. cbn [obj hist].
  rewrite Hun, bool_decide_eq_true_2 by done. apply ewp_ret. intros _. split; [done|].
  exists (<[name := i]> (delete tmp (<[tmp := i]> es))), i. split; [done|].
  split; [by rewrite lookup_insert_eq|]. intros n Hn. assert (n = np) as -> by congruence. exact Hi3.
Qed.

Lemma wp_write_quiet target audit name data F fd p d h :
  is_dir d p -> no_dangling d -> (forall l, temporary_file (h_uuid l) <> name) ->
  ewp (write_file target audit name data fd)
    (fun r s' => is_done r -> placed d p name data (obj s')) (St h (with_fds (<[fd := p]> F) d)).
Proof.
  intros [es He] Hwf Htmp. unfold write_file, if_missing.
  apply ewp_bind, ewp_catch, ewp_bind, ewp_quiet. cbn [obj hist].
  unfold stat_at. rewrite (dir_of_parent _ _ _ _ es) by done. cbn [mbind result_bind fst snd].
  change (inodes (with_fds _ d)) with (inodes d).
  destruct (es !! name) as [o|] eqn:Eo; cbn [mbind option_bind].
  - destruct (Hwf _ _ _ _ He Eo) as [n Hn]. rewrite Hn. apply ewp_ret.
    apply (wp_entry_quiet _ _ _ _ _ _ _ _ es); [done|done|]. intros o' Ho'. simplify_eq. eauto.
  - rewrite bool_decide_eq_true_2 by done. apply ewp_ret.
    apply (wp_entry_quiet _ _ _ _ _ _ _ _ es); [done|done|]. intros o Ho. congruence.
Qed.

Lemma placed_fds d p name data d' m : placed d p name data d' -> placed d p name data (with_fds m d').
Proof. intros [[Hc Hd] He]. split; [by split|exact He]. Qed.

(** What a write that succeeds leaves behind. *)
Lemma wp_access_write target policy params audit parts d h :
  no_dangling d -> shared_parts policy params = Ok parts ->
  (forall l, temporary_file (h_uuid l) <> List.last parts EmptyString) ->
  ewp (_access target policy "write" params audit) (fun r s' => is_done r ->
      exists data, write_data (dgetn "data_base64" params) = Ok data /\
                   shared_file (obj s') target parts = Ok data) (St h d).
Proof.
  intros Hwf Hparts Htmp. unfold _access, shared_parts in *. apply ewp_bind, ewp_lift.
  destruct (v ← pitem "scope" policy; relative_parts v) as [scope|e]; [|done].
  cbn [mbind result_bind] in Hparts. apply ewp_bind, ewp_lift.
  destruct (relative_parts _) as [path|e]; [|done]. cbn [mbind result_bind] in Hparts.
  destruct (bool_decide (path = [])) eqn:Epath; [done|]. apply bool_decide_eq_false in Epath.
  cbn [raise_if mbind result_bind] in Hparts. injection Hparts as <-.
  rewrite (proj2 (str_eqb_neq "write" "list")), (proj2 (str_eqb_neq "write" "read")) by done.
  apply ewp_bind, ewp_ret, ewp_bind, ewp_lift.
  destruct (write_data (dgetn "data_base64" params)) as [data|e] eqn:Ew; [|by intros []].
  apply ewp_bind, wp_open_quiet; [by intros e h' _ []|]. intros p fd h' Hl Hfd.
  pose proof (locate_dir _ _ _ _ Hl) as Hdir.
  split.
  - pose proof (moves_write_file target audit (List.last (scope ++ path) EmptyString) data fd
      (St h' (with_fds (<[fd := p]> (fds d)) d))) as Hm. exact (eq_sym Hm).
  - pose proof (wp_write_quiet target audit (List.last (scope ++ path) EmptyString) data (fds d) fd p d h'
      Hdir Hwf Htmp) as Hw. unfold ewp in Hw. intros h''.
    destruct (write_file _ _ _ _ _ _) as [[[]|e|] s']; cbn in *; [|by intros []..].
    specialize (Hw I). apply (placed_fds _ _ _ _ _ (fds d)) in Hw as [Hkeep (es & j & He & Hj & Hi)].
    apply ewp_ret. intros _. exists data. split; [done|].
    rewrite (app_removelast_last EmptyString (l := scope ++ path)) at 1 by (by destruct scope, path).
    eapply shared_file_at; try done.
    unfold write_data in Ew. destruct (dgetn _ _); try done. ok_inv.
    destruct (b64decode _); [|done]. ok_inv. by apply Z.ltb_ge.
Qed.

(** C26: what was written is what is read.  While nobody interferes, after a
    write that returned, reading the same path, at any later time while the
    disk stays so, returns the bytes that were written, and the disk is not
    changed by the reading. *)
Theorem write_then_read target policy params audit params' audit' parts s r s1 h :
  no_dangling (obj s) ->
  shared_parts policy params = Ok parts -> shared_parts policy params' = Ok parts ->
  (forall l, temporary_file (h_uuid l) <> List.last parts EmptyString) ->
  _access target policy "write" params audit s = (Done r, s1) ->
  exists data, write_data (dgetn "data_base64" params) = Ok data /\
    outcome (_access target policy "read" params' audit' (St h (obj s1)))
    = (Done (read_reply data), obj s1).
Proof.
  intros Hwf Hparts Hparts' Htmp Hrun. destruct s as [h0 d].
  pose proof (wp_access_write target policy params audit parts d h0 Hwf Hparts Htmp) as Hw.
  unfold ewp in Hw. rewrite Hrun in Hw. destruct (Hw I) as (data & Hdata & Hfile).
  cbn in Hfile. exists data. split; [done|]. rewrite read_outcome, Hparts'. cbn. by rewrite Hfile.
Qed.
End write.
