(* ===== verification/ShareEndpoint.v ===== *)
(** * The ways to the sharing service

    [endpoint.py], [plugin.py] and [tool.py] of
    [src/plugins/session-share/src/allox_session_share/]: a socket per session
    outside its sandbox, whose requests carry the identity of the session the
    socket belongs to; the adapter by which the daemon reaches the service; and
    the tool an agent runs inside the sandbox.  The texts of JSON are those of
    the [json] module, whose functions are parameters. *)

From Stdlib Require Import Ascii.
From Stdlib Require String.
From stdpp Require Import gmap pretty sorting.
From S2P Require Import Prelude Effects PyVal Ids Paths Kernel Extensions Share ShareSpec.
From S2P Require Import ShareQuiet.
Open Scope Z_scope.

Definition newline : ascii := "010"%char.

(** ** A request at the socket of a session *)

Section handler.
Context `{ShareHost}.
(** [json.loads] of a line; which process is at the other end; whether it
    belongs to the session; the line read. *)
Context (loads : string -> result pyval).
Context (peer : list hcall -> reply Z) (owns : list hcall -> identity -> Z -> reply bool).
Context (readline : list hcall -> reply string).

Definition ask {A} (f : list hcall -> reply A) : H_ A := fun s => (f (hist s), s).

Definition MAX_REQUEST : Z := 512 * 1024.

Definition IDENTITY_KEYS : list string := ["agent_id"; "session_id"; "caller"].

(** A request that may be dispatched: its action and parameters. *)
Definition checked_request (line : string) : result (string * dict) :=
  raise_if ((MAX_REQUEST <? Z.of_nat (String.length line)) || negb (ends_with_char newline line))
    (WorkspaceError "invalid share request size");;
  request ← loads line;
  match request with
  | PDict d =>
      match dget_or "params" (PDict []) d with
      | PDict params =>
          raise_if (existsb (fun k => dhas k params) IDENTITY_KEYS)
            (WorkspaceError "caller identity cannot be supplied by the Agent");;
          match dgetn "action" d with
          | PStr action => Ok (action, params)
          | _ => Err (WorkspaceError "invalid share action")
          end
      | _ => Err (WorkspaceError "invalid share request")
      end
  | _ => Err (WorkspaceError "invalid share request")
  end.

Definition answer (id : identity) : H_ dict :=
  pid ← ask peer;
  mine ← ask (fun h => owns h id pid);
  throw_when (negb mine) (WorkspaceError "caller does not belong to this Session");;
  line ← ask readline;
  request ← lift (checked_request line);
  result ← dispatch id request.1 request.2;
  mret [("ok", PBool true); ("result", PDict result)].

(** [except (WorkspaceError, ValueError)] *)
Definition disclosed (e : exn) : bool :=
  match e with
  | WorkspaceError _ | ValueError _ | JSONDecodeError | CheckpointIndexError _ => true
  | _ => false
  end.

Definition refusal (e : exn) : dict :=
  [("ok", PBool false);
   ("error", PStr (if disclosed e then exn_str e else "share request failed"))].

(** [ShareHandler.handle]: the response that is written back. *)
Definition handle (id : identity) : H_ dict := catch (answer id) (fun e => mret (refusal e)).

(** What the process at the other end gets. *)
Inductive served (id : identity) (s : st hcall disk) : dict -> st hcall disk -> Prop :=
  | Served pid line action params result s' :
      peer (hist s) = Done pid -> owns (hist s) id pid = Done true ->
      readline (hist s) = Done line -> checked_request line = Ok (action, params) ->
      Share.dispatch id action params s = (Done result, s') ->
      served id s [("ok", PBool true); ("result", PDict result)] s'
  | Refused e s' :
      (s' = s \/ exists pid, peer (hist s) = Done pid /\ owns (hist s) id pid = Done true) ->
      served id s (refusal e) s'.

(** Also: a request at the socket of a session is answered whatever happens,
    except an interrupt.  It reaches the service, and the disk, only when the
    process at the other end belongs to the session and the request is well
    formed; it acts as that session, for a request that names an identity is
    refused; and the text of an error is that of a workspace or value error or
    a fixed one. *)
Theorem socket_speaks_for_session id s :
  match handle id s with
  | (Done response, s') => served id s response s'
  | (Raised _, _) => False
  | (Interrupted, _) => True
  end.
Proof.
  unfold handle, catch, answer, ask, mbind, P_bind.
  destruct (peer (hist s)) as [pid|e|] eqn:Ep; [|by constructor; left|done].
  destruct (owns (hist s) id pid) as [[]|e|] eqn:Eo; [|by constructor; left|by constructor; left|done].
  cbn [negb throw_when mret P_ret].
  destruct (readline (hist s)) as [line|e|] eqn:El; [|by constructor; left|done].
  destruct (checked_request line) as [[action params]|e] eqn:Er; cbn [lift mret P_ret throw];
    [|by constructor; left].
  cbn [fst snd]. destruct (dispatch id action params s) as [[result|e|] s'] eqn:Ed; [| |done].
  - cbn. by econstructor.
  - cbn. constructor. right. eauto.
Qed.
End handler.

(** ** The table of sockets *)

Inductive ecall :=
  | EMkdir | ETempdir | EBind (path : string) | EChmod (path : string) | EServe (path : string)
  | EShutdown (path : string) | EServerClose (path : string) | ECleanup (directory : string).

Record endpoints := Endpoints {
  directory : option string;                 (* self._directory *)
  servers : list (identity * string) }.      (* self._servers, in order *)

Class SocketHost := {
  e_mkdir : list ecall -> reply unit;
  e_tempdir : list ecall -> reply string;
  e_do : list ecall -> ecall -> reply unit }.

Section endpoints.
Context `{SocketHost}.

Definition E_ (A : Type) : Type := P ecall endpoints A.

Definition e_call (c : ecall) : E_ unit := perform c (fun l => e_do l c).

Definition server_of (id : identity) (l : list (identity * string)) : option string :=
  snd <$> List.find (fun x => bool_decide (x.1 = id)) l.

Definition socket_path (directory : string) (n : nat) : string :=
  directory +:+ "/" +:+ pretty (Z.of_nat n) +:+ ".sock".

(** [endpoint], under the lock. *)
Definition endpoint (id : identity) : E_ string :=
  o ← read (fun o => o);
  match server_of id (servers o) with
  | Some address => mret address
  | None =>
      perform EMkdir (fun l => e_mkdir l);;
      (match directory o with
       | Some _ => mret ()
       | None =>
           d ← perform ETempdir (fun l => e_tempdir l);
           modify (fun o => Endpoints (Some d) (servers o))
       end);;
      o ← read (fun o => o);
      let path := socket_path (default EmptyString (directory o)) (length (servers o)) in
      e_call (EBind path);;
      e_call (EChmod path);;
      modify (fun o => Endpoints (directory o) (servers o ++ [(id, path)]));;
      e_call (EServe path);;
      mret path
  end.

(** [close], under the lock. *)
Definition close_endpoints : E_ unit :=
  o ← read (fun o => o);
  iterate (fun x : identity * string => e_call (EShutdown x.2);; e_call (EServerClose x.2)) (servers o);;
  modify (fun o => Endpoints (directory o) []);;
  match directory o with
  | Some d => e_call (ECleanup d);; modify (fun o => Endpoints None (servers o))
  | None => mret ()
  end.

(** The sockets have the numbers of their rows. *)
Definition numbered (o : endpoints) : Prop :=
  NoDup (servers o).*1 /\
  forall n x, servers o !! n = Some x -> x.2 = socket_path (default EmptyString (directory o)) n.

Definition numbered_empty (o : endpoints) : Prop := directory o = None -> servers o = [].

Definition table (o : endpoints) : Prop := numbered o /\ numbered_empty o.

Lemma server_of_None id l : server_of id l = None -> id ∉ l.*1.
Proof.
  unfold server_of. intros Hl%fmap_None Hin. apply list_elem_of_fmap in Hin as ([i a] & -> & Hin).
  apply list_elem_of_In, (List.find_none _ _ Hl) in Hin. by rewrite bool_decide_eq_true_2 in Hin.
Qed.

Lemma server_of_Some id l a : server_of id l = Some a -> (id, a) ∈ l.
Proof.
  unfold server_of. intros ([i b] & Hf & ->)%fmap_Some. cbn.
  apply List.find_some in Hf as [Hin Hi]. apply bool_decide_eq_true in Hi. cbn in Hi. subst i.
  by apply list_elem_of_In.
Qed.

Lemma socket_path_inj d n m : socket_path d n = socket_path d m -> n = m.
Proof.
  unfold socket_path. intros E. apply (inj (String.append _)) in E. apply (inj (String.append _)) in E.
  apply string_app_inj_r in E. apply (inj pretty) in E. lia.
Qed.

Lemma numbered_snoc d l id :
  numbered (Endpoints (Some d) l) -> id ∉ l.*1 ->
  numbered (Endpoints (Some d) (l ++ [(id, socket_path d (length l))])).
Proof.
  intros [Hd Hn] Hid. split; cbn in *.
  - rewrite fmap_app. apply NoDup_app. split; [done|]. split; [|apply NoDup_singleton].
    intros x Hx. cbn. rewrite list_elem_of_singleton. by intros ->.
  - intros n x [Hx|[Hge Hx]]%lookup_app_Some; [by apply Hn|].
    apply list_lookup_singleton_Some in Hx as [Hz <-]. cbn. f_equal. lia.
Qed.

Lemma wp_e_call c (Q : reply unit -> st ecall endpoints -> Prop) s :
  (forall r h, Q r (St h (obj s))) -> ewp (e_call c) Q s.
Proof. intros HQ. unfold e_call. apply ewp_perform. intros r _. apply HQ. Qed.

Lemma endpoint_table id s : table (obj s) ->
  table (obj (endpoint id s).2) /\
  forall a, (endpoint id s).1 = Done a -> (id, a) ∈ servers (obj (endpoint id s).2).
Proof.
  intros [Hnum Hemp].
  enough (ewp (endpoint id) (fun r s' => table (obj s') /\
    forall a, r = Done a -> (id, a) ∈ servers (obj s')) s) as Hw by exact Hw.
  unfold endpoint. apply ewp_bind, ewp_read.
  destruct (server_of id (servers (obj s))) as [a|] eqn:Ea.
  { apply ewp_ret. split; [done|]. intros b [= <-]. by apply server_of_Some. }
  apply server_of_None in Ea. apply ewp_bind, ewp_perform. intros r _. destruct r as [[]|e|]; [|by split..].
  apply ewp_bind.
  assert (forall d h, numbered (Endpoints (Some d) (servers (obj s))) ->
    ewp (o ← read (fun o => o);
         let path := socket_path (default EmptyString (directory o)) (length (servers o)) in
         e_call (EBind path);; e_call (EChmod path);;
         modify (fun o => Endpoints (directory o) (servers o ++ [(id, path)]));;
         e_call (EServe path);; mret path)
      (fun r s' => table (obj s') /\ forall a, r = Done a -> (id, a) ∈ servers (obj s'))
      (St h (Endpoints (Some d) (servers (obj s))))) as Hrest.
  { intros d h Hn. assert (table (Endpoints (Some d) (servers (obj s)))) as Ht by by split.
    apply ewp_bind, ewp_read. cbv zeta. cbn [obj directory servers default].
    apply ewp_bind, wp_e_call. intros [[]|e|] h1; [|by split..].
    apply ewp_bind, wp_e_call. intros [[]|e|] h2; [|by split..].
    apply ewp_bind, ewp_modify. cbn [obj directory servers].
    assert (table (Endpoints (Some d) (servers (obj s) ++
        [(id, socket_path d (length (servers (obj s))))]))) as Ht2 by (split; [by apply numbered_snoc|done]).
    apply ewp_bind, wp_e_call. intros [[]|e|] h3; [|by split..].
    apply ewp_ret. split; [done|]. intros a [= <-]. cbn. rewrite elem_of_app. right. by left. }
  destruct s as [h [od l]]. cbn [obj directory servers] in *. destruct od as [d|].
  - apply ewp_ret. by apply Hrest.
  - apply ewp_bind, ewp_perform. intros r _. destruct r as [d|e|]; [|by split..].
    apply ewp_modify. cbn [obj directory servers]. apply Hrest.
    pose proof (Hemp eq_refl) as El. cbn in El. rewrite El. split; [apply NoDup_nil_2|].
    by intros [|n] x Hx.
Qed.

Lemma iterate_obj {A} (f : A -> E_ unit) l s :
  (forall x s, obj (f x s).2 = obj s) -> obj (iterate f l s).2 = obj s.
Proof.
  intros Hf. revert s. induction l as [|x l IH]; intros s; [done|]. simpl. unfold mbind, P_bind.
  specialize (Hf x s). destruct (f x s) as [[[]|e|] s1]; cbn in *; [|done..]. by rewrite IH.
Qed.

Lemma close_table s : table (obj s) -> table (obj (close_endpoints s).2).
Proof.
  intros [Hnum Hemp]. enough (ewp close_endpoints (fun _ s' => table (obj s')) s) as Hw by exact Hw.
  unfold close_endpoints. apply ewp_bind, ewp_read. apply ewp_bind.
  match goal with |- ewp ?m _ _ => assert (obj (m s).2 = obj s) as Ho end.
  { apply iterate_obj. intros x s1. unfold e_call, perform, mbind, P_bind. cbn.
    by destruct (e_do _ _) as [[]|e|]. }
  unfold ewp at 1. destruct (iterate _ _ s) as [[[]|e|] s1]; cbn in Ho |- *; [|by rewrite Ho..].
  assert (forall od, table (Endpoints od [])) as Ht.
  { intros od. split; [|done]. split; [apply NoDup_nil_2|]. by intros [|n] x Hx. }
  apply ewp_bind, ewp_modify. destruct (directory (obj s)); [|apply ewp_ret, Ht].
  apply ewp_bind, wp_e_call. intros [[]|e|] h; cbn; [|apply Ht..]. apply ewp_modify, Ht.
Qed.

(** States of the table. *)
Inductive table_reachable : endpoints -> Prop :=
  | table_new : table_reachable (Endpoints None [])
  | table_endpoint id s : table_reachable (obj s) -> table_reachable (obj (endpoint id s).2)
  | table_close s : table_reachable (obj s) -> table_reachable (obj (close_endpoints s).2).

(** Also: however sockets are requested and closed, and whichever of these calls
    fail, no two sessions share a socket, and the address that a session is
    given is that of its own. *)
Theorem sockets_distinct o : table_reachable o ->
  (forall i j a, (i, a) ∈ servers o -> (j, a) ∈ servers o -> i = j) /\
  forall id h a, (endpoint id (St h o)).1 = Done a -> (id, a) ∈ servers (obj (endpoint id (St h o)).2).
Proof.
  intros Hr. assert (table o) as Ht.
  { induction Hr as [|id s _ IH|s _ IH].
    - split; [|done]. split; [apply NoDup_nil_2|]. by intros [|n] x Hx.
    - by apply endpoint_table.
    - by apply close_table. }
  split; [|intros id h; by apply (endpoint_table id (St h o))].
  destruct Ht as [[_ Hn] _]. intros i j a Hi Hj.
  apply list_elem_of_lookup in Hi as [n Hi]. apply list_elem_of_lookup in Hj as [m Hj].
  pose proof (Hn _ _ Hi) as E1. pose proof (Hn _ _ Hj) as E2. cbn in *.
  pose proof (socket_path_inj _ _ _ (eq_trans (eq_sym E1) E2)) as ->. congruence.
Qed.
End endpoints.

(** ** The adapter of the daemon *)

Definition _required (params : dict) (key : string) : result string :=
  match dgetn key params with
  | PStr (String c s) => Ok (String c s)
  | _ => Err (WorkspaceError ("missing string parameter: " +:+ key))
  end.

(** [SessionShareFeature.prepare_execution], given the endpoint's address. *)
Definition share_contribution (tool address : string) : result contribution :=
  socket ← sandbox_mount address "/run/allox/share.sock" true;
  script ← sandbox_mount tool "/run/allox/share.py" true;
  Ok (ExecutionContribution [] [] [socket; script] [("session_share", PBool true)]).

Definition removeprefix (p s : string) : string :=
  if starts_with p s then string_drop (String.length p) s else s.

(** [SessionShareFeature.dispatch] *)
Definition feature_dispatch `{ShareHost} (action : string) (params : dict) : H_ dict :=
  agent_id ← lift (_required params "agent_id");
  session_id ← lift (_required params "session_id");
  Share.dispatch (agent_id, session_id) (removeprefix "share." action) params.

(** ** The tool *)

Section tool.
Context (loads : string -> result pyval).

(** [call], given the line that comes back. *)
Definition call_result (line : string) : result pyval :=
  raise_if ((512 * 1024 <? Z.of_nat (String.length line)) || negb (ends_with_char newline line))
    (ValueError "invalid share response");;
  response ← loads line;
  match response with
  | PDict d =>
      if py_truthy (dgetn "ok" d) then dindex "result" d
      else Err (ValueError (py_str (dget_or "error" (PStr "share request failed") d)))
  | _ => Err AttributeError
  end.

(** The parameters of the request, from the parsed arguments. *)
Definition tool_params (action scope permission target path : string) (stdin : string) : result dict :=
  params ← (if str_eqb action "enable" then Ok [("scope", PStr scope); ("permission", PStr permission)]
            else if str_eqb action "list" || str_eqb action "read" || str_eqb action "write" then
              match string_split "/" target with
              | [String a agent; String b session] =>
                  Ok [("target_agent_id", PStr (String a agent));
                      ("target_session_id", PStr (String b session)); ("path", PStr path)]
              | _ => Err (ValueError "target must be agent_id/session_id")
              end
            else Ok []);
  if str_eqb action "write" then
    let data := string_take (Z.to_nat (256 * 1024 + 1)) stdin in
    raise_if (256 * 1024 <? Z.of_nat (String.length data)) (ValueError "file exceeds 256 KiB");;
    Ok (dset "data_base64" (PStr (b64encode data)) params)
  else Ok params.

(** What [read] writes to its standard output. *)
Definition tool_output (result : pyval) : Prelude.result string :=
  match result with
  | PDict d =>
      v ← dindex "data_base64" d;
      match v with
      | PStr s => match b64decode s with Some data => Ok data | None => Err (ValueError "") end
      | _ => Err TypeError
      end
  | _ => Err TypeError
  end.
End tool.

Lemma string_take_short n s :
  Z.of_nat (String.length (string_take (Z.to_nat (n + 1)) s)) <= n -> Z.of_nat (String.length s) <= n.
Proof.
  intros Hl. destruct (decide (Z.of_nat (String.length s) <= n)) as [Hs|Hs]; [done|exfalso].
  assert (forall k t, (k <= String.length t)%nat -> String.length (string_take k t) = k) as Ht.
  { induction k as [|k IH]; intros [|c t] Hk; cbn in *; [done|done|lia|]. by rewrite IH by lia. }
  rewrite Ht in Hl by lia. lia.
Qed.

(** Also: the tool and the service understand each other: what the tool reads
    from its input for a write, up to 256 KiB, passes the service's limits on
    the encoded and on the decoded size and is decoded to the same bytes; and
    what the service answers to a read comes out of the tool as the contents
    of the file. *)
Theorem tool_carries_bytes scope permission target path stdin params data :
  tool_params "write" scope permission target path stdin = Ok params ->
  Z.of_nat (String.length stdin) <= MAX_BYTES /\
  write_data (dgetn "data_base64" params) = Ok stdin /\
  tool_output (PDict [("data_base64", PStr (b64encode data)); ("size", PInt (Z.of_nat (String.length data)))])
    = Ok data.
Proof.
  intros Hp. unfold tool_params in Hp. apply result_bind_Ok in Hp as (p & _ & Hp).
  rewrite str_eqb_refl in Hp. cbv zeta in Hp. apply result_bind_Ok in Hp as ([] & Hl%raise_if_Ok & Hp).
  apply Z.ltb_ge in Hl. remember (Z.to_nat (256 * 1024 + 1)) as n eqn:En.
  injection Hp as <-. rewrite En in *. clear En n.
  assert (Z.of_nat (String.length stdin) <= MAX_BYTES) as Hlen by (by apply string_take_short in Hl).
  rewrite string_take_all by (unfold MAX_BYTES in Hlen; lia). split; [done|].
  split.
  - unfold dgetn, dget_or. rewrite dget_dset_eq. cbn [default from_option id]. unfold write_data.
    rewrite b64encode_length, b64_roundtrip, (proj2 (Z.ltb_ge _ _) Hlen).
    rewrite (proj2 (Z.ltb_ge _ _)); [done|].
    unfold MAX_BYTES in *. Z.to_euclidean_division_equations. lia.
  - unfold tool_output, dindex. cbn [dget]. rewrite str_eqb_refl. cbn [mbind result_bind].
    by rewrite b64_roundtrip.
Qed.
