(* ===== verification/ShareDemo.v ===== *)
(** * Sharing, run on a small disk *)

From Stdlib Require Import Ascii.
From Stdlib Require String.
From stdpp Require Import gmap sorting.
From S2P Require Import Prelude Effects PyVal Ids StoreFiles Kernel Share ShareSpec.
From S2P Require Import ShareSecrecy ShareConsent ShareQuiet ShareEndpoint.
Open Scope Z_scope.

Definition alice : identity := ("alice", "s1").
Definition bob : identity := ("bob", "s2").

Definition open_policy : pyval :=
  PDict [("enabled", PBool true); ("scope", PStr "."); ("permission", PStr "write")].

(** Every session shares everything, and [others] change the disk. *)
Definition demo_host (others : list hcall -> disk -> disk) : ShareHost := {|
  h_describe _ _ := Done ();
  h_policy_exists _ _ := true;
  h_policy_read _ _ := Done open_policy;
  h_save _ _ _ := Done ();
  h_event _ _ _ := Done ();
  h_lock _ _ := Done ();
  h_unlock _ _ := Done ();
  h_access _ _ _ := Done ();
  h_access_end _ _ _ := Done ();
  h_uuid _ := "7f";
  h_fault _ _ := None;
  h_others := others |}.

(** Bob's workspace is the directory 1 with a file and a link; the file 9,
    elsewhere, holds [secret]. *)
Definition bob_entries : gmap string Z := {[ "a.txt" := 2; "link" := 3 ]}.

Definition demo_disk (secret : string) : disk :=
  Disk {[ 1 := Inode (IDir bob_entries) 1 5 0;
          2 := Inode (IFile "hi") 1 5 0;
          3 := Inode (ILink "/elsewhere/9") 1 5 0;
          9 := Inode (IFile secret) 1 5 0 ]}
       {[ bob := 1 ]} ∅.

Definition request (path : string) : dict :=
  [("target_agent_id", PStr "bob"); ("target_session_id", PStr "s2"); ("path", PStr path);
   ("data_base64", PStr (b64encode "new"))].

(** The agents rename the file away and back as the calls go on. *)
Definition renaming (h : list hcall) (d : disk) : disk :=
  if Nat.even (length h)
  then put_kind 1 (IDir {[ "b.txt" := 2; "link" := 3 ]}) d
  else put_kind 1 (IDir bob_entries) d.

#[export] Instance demo_quiet : @Quiet (demo_host (fun _ d => d)).
Proof. by split. Defined.

#[export] Instance demo_descriptors : @OwnDescriptors (demo_host renaming).
Proof. split; [|done]. intros h d. simpl. unfold renaming. by destruct (Nat.even (length h)). Defined.

Lemma descriptors_closed_witness :
  fds (obj (@dispatch (demo_host renaming) alice "read" (request "a.txt") (St [] (demo_disk "x"))).2) = ∅.
Proof.
  exact (@descriptors_closed (demo_host renaming) demo_descriptors alice "read" (request "a.txt")
           (St [] (demo_disk "x"))).
Defined.

Definition bobs (i : Z) : Prop := i = 1 \/ i = 2 \/ i = 3.

Lemma bob_entries_inside name j : bob_entries !! name = Some j -> bobs j.
Proof.
  unfold bob_entries. intros [[_ <-]|[_ Hj]]%lookup_insert_Some; [by right; left|].
  apply lookup_singleton_Some in Hj as [_ <-]. by right; right.
Defined.

Lemma demo_agree : agree bob bobs (demo_disk "x") (demo_disk "y").
Proof.
  split; try done.
  - intros i [->|[->| ->]]; reflexivity.
  - intros i Hi. left. by injection Hi as <-.
  - intros i es name j [->|[->| ->]].
    + change (entries_of (demo_disk "x") 1) with (Some bob_entries). intros [= <-].
      apply bob_entries_inside.
    + change (entries_of (demo_disk "x") 2) with (@None (gmap string Z)). done.
    + change (entries_of (demo_disk "x") 3) with (@None (gmap string Z)). done.
Defined.

#[export] Instance demo_secluded : @Secluded (demo_host (fun _ d => d)) bob bobs.
Proof. by split. Defined.

(** Bob's link to the secret is not followed: the answer is the same for any
    secret, and it is an error. *)
Lemma reading_keeps_within_witness :
  (@dispatch (demo_host (fun _ d => d)) alice "read" (request "link") (St [] (demo_disk "x"))).1
  = (@dispatch (demo_host (fun _ d => d)) alice "read" (request "link") (St [] (demo_disk "y"))).1.
Proof.
  exact (proj1 (@reading_keeps_within (demo_host (fun _ d => d)) bob bobs demo_secluded alice "read"
    (request "link") (St [] (demo_disk "x")) (St [] (demo_disk "y")) (or_intror eq_refl) eq_refl
    eq_refl demo_agree)).
Defined.

Lemma attempts_recorded_witness : exists k,
  hist (@access_request (demo_host (fun _ d => d)) alice open_policy "read" (request "a.txt")
          (St [] (demo_disk "x"))).2
  = [] ++ k ++ [HEvent (audit_of alice "read" (request "a.txt") "success") bob].
Proof.
  exact (@attempts_recorded (demo_host (fun _ d => d)) alice open_policy "read" (request "a.txt")
    bob ["a.txt"] (St [] (demo_disk "x")) eq_refl eq_refl eq_refl).
Defined.

Lemma read_refines_witness :
  outcome (@_access (demo_host (fun _ d => d)) bob open_policy "read" (request "a.txt") []
             (St [] (demo_disk "x"))) = (Done (read_reply "hi"), demo_disk "x").
Proof.
  exact (@read_refines (demo_host (fun _ d => d)) demo_quiet bob open_policy (request "a.txt") []
           (St [] (demo_disk "x"))).
Defined.

Lemma demo_no_dangling : no_dangling (demo_disk "x").
Proof.
  intros i es name j He Hj. unfold entries_of in He.
  destruct (decide (i = 1)) as [->|Hne].
  - change (Some bob_entries = Some es) in He. injection He as <-.
    destruct (bob_entries_inside _ _ Hj) as [->|[->| ->]]; by eexists.
  - exfalso. destruct (inodes (demo_disk "x") !! i) as [n|] eqn:En; [|done].
    unfold demo_disk in En. cbn [inodes] in En.
    apply lookup_insert_Some in En as [[<- _]|[_ En]]; [done|].
    apply lookup_insert_Some in En as [[_ <-]|[_ En]]; [done|].
    apply lookup_insert_Some in En as [[_ <-]|[_ En]]; [done|].
    by apply lookup_singleton_Some in En as [_ <-].
Defined.

Lemma write_then_read_witness : exists data,
  write_data (dgetn "data_base64" (request "a.txt")) = Ok data /\
  outcome (@_access (demo_host (fun _ d => d)) bob open_policy "read" (request "a.txt") []
     (St [] (obj (@_access (demo_host (fun _ d => d)) bob open_policy "write" (request "a.txt") []
                    (St [] (demo_disk "x"))).2)))
  = (Done (read_reply data),
     obj (@_access (demo_host (fun _ d => d)) bob open_policy "write" (request "a.txt") []
            (St [] (demo_disk "x"))).2).
Proof.
  apply (@write_then_read (demo_host (fun _ d => d)) demo_quiet bob open_policy (request "a.txt") []
    (request "a.txt") [] ["a.txt"] (St [] (demo_disk "x")) [("written", PInt 3)] _ []
    demo_no_dangling eq_refl eq_refl ltac:(discriminate)).
  vm_compute. reflexivity.
Defined.

Lemma tool_carries_bytes_witness : exists params,
  tool_params "write" "." "read" "bob/s2" "a.txt" "new" = Ok params /\
  write_data (dgetn "data_base64" params) = Ok "new".
Proof.
  eexists. split; [reflexivity|].
  exact (proj1 (proj2 (tool_carries_bytes "." "read" "bob/s2" "a.txt" "new" _ "" eq_refl))).
Defined.

(** A hard link, and a file of another file system, are not served. *)
Example hard_link_refused :
  shared_file (Disk {[ 1 := Inode (IDir bob_entries) 1 5 0; 2 := Inode (IFile "hi") 2 5 0 ]}
                 {[ bob := 1 ]} ∅) bob ["a.txt"]
  = Err (WorkspaceError "only regular files without hard links can be shared") /\
  shared_file (Disk {[ 1 := Inode (IDir bob_entries) 1 5 0; 2 := Inode (IFile "hi") 1 6 0 ]}
                 {[ bob := 1 ]} ∅) bob ["a.txt"]
  = Err (WorkspaceError "cross-filesystem sharing is not supported").
Proof. vm_compute. done. Qed.

(** A socket does not open, nor does a device whose driver refuses; a FIFO and a
    device that open are not served. *)
Definition special_disk (k : inode_kind) : disk :=
  Disk {[ 1 := Inode (IDir bob_entries) 1 5 0; 2 := Inode k 1 5 0 ]} {[ bob := 1 ]} ∅.

Example special_files_refused :
  shared_file (special_disk ISocket) bob ["a.txt"] = Err (OSError "ENXIO") /\
  shared_file (special_disk (IDevice (Some "ENODEV"))) bob ["a.txt"] = Err (OSError "ENODEV") /\
  shared_file (special_disk (IDevice None)) bob ["a.txt"]
    = Err (WorkspaceError "only regular files without hard links can be shared") /\
  shared_file (special_disk IFifo) bob ["a.txt"]
    = Err (WorkspaceError "only regular files without hard links can be shared").
Proof. vm_compute. done. Qed.
