(* ===== verification/Json.v ===== *)
(** * JSON text

    [json.dumps] and [json.loads] with their default separators and
    [ensure_ascii], as the monitoring plugin uses them for its wire format, its
    size limits and the rows of its database.  Texts are ASCII, so the length
    of a text is the number of its bytes.  The digits of a float are those of
    [float.__repr__]: a parameter, with the law that reading them gives the
    float back.  Characters above [U+00FF] are outside this model of [str], and
    [loads] refuses them. *)

From Stdlib Require Import Ascii SpecFloat.
From Stdlib Require String.
From stdpp Require Import pretty.
From S2P Require Import Prelude PyVal.
Open Scope Z_scope.

(** ** Numbers *)

Class FloatText := {
  float_repr : spec_float -> string;
  float_of : string -> spec_float }.

Definition float_finite (f : spec_float) : bool :=
  match f with S754_zero _ | S754_finite _ _ _ => true | _ => false end.

(** The interpreter refuses to print or read integers of more digits. *)
Definition MAX_STR_DIGITS : nat := 4300.

Definition int_repr (z : Z) : result string :=
  if (MAX_STR_DIGITS <? String.length (pretty (Z.abs z)))%nat
  then Err (ValueError "Exceeds the limit (4300 digits) for integer string conversion")
  else Ok (pretty z).

(** ** Printing *)

Definition char_u (n : N) : string :=
  "\u00" +:+ String (hex_digit (n / 16)%N) (String (hex_digit (n mod 16)%N) EmptyString).

(** The escapes of one character: [ESCAPE_DCT], or [\u] and four digits for
    what is not printable ASCII. *)
Definition escape_char (c : ascii) : string :=
  if bool_decide (c = quote_char) then String "\" (String quote_char EmptyString)
  else if bool_decide (c = "\"%char) then "\\"
  else if bool_decide (c = "010"%char) then "\n"
  else if bool_decide (c = "013"%char) then "\r"
  else if bool_decide (c = "009"%char) then "\t"
  else if bool_decide (c = "012"%char) then "\f"
  else if bool_decide (c = "008"%char) then "\b"
  else if in_range " " "~" c then String c EmptyString
  else char_u (ascii_n c).

Definition quoted (s : string) : string :=
  String quote_char (string_concat_map escape_char s +:+ String quote_char EmptyString).

Section json.
Context `{FloatText}.

Definition float_dumps (allow_nan : bool) (f : spec_float) : result string :=
  match f with
  | S754_nan => if allow_nan then Ok "NaN" else Err (ValueError "Out of range float values are not JSON compliant")
  | S754_infinity s =>
      if allow_nan then Ok (if s then "-Infinity" else "Infinity")
      else Err (ValueError "Out of range float values are not JSON compliant")
  | _ => Ok (float_repr f)
  end.

(** [json.dumps(v, allow_nan=allow_nan)] *)
Fixpoint dumps (allow_nan : bool) (v : pyval) : result string :=
  match v with
  | PNone => Ok "null"
  | PBool b => Ok (if b then "true" else "false")
  | PInt z => int_repr z
  | PFloat f => float_dumps allow_nan f
  | PStr s => Ok (quoted s)
  | PList l =>
      parts ← mapM (dumps allow_nan) l;
      Ok ("[" +:+ string_join ", " parts +:+ "]")
  | PDict d =>
      parts ← mapM (fun kv => t ← dumps allow_nan kv.2; Ok (quoted kv.1 +:+ ": " +:+ t)) d;
      Ok ("{" +:+ string_join ", " parts +:+ "}")
  end.

(** ** Reading *)

Definition json_space (c : ascii) : bool :=
  bool_decide (c = " "%char) || bool_decide (c = "009"%char) || bool_decide (c = "010"%char)
  || bool_decide (c = "013"%char).

Fixpoint skip_space (s : string) : string :=
  match s with
  | String c s' => if json_space c then skip_space s' else s
  | EmptyString => EmptyString
  end.

(** The longest prefix of digits. *)
Fixpoint span_digits (s : string) : string * string :=
  match s with
  | String c s' =>
      if is_digit c then let '(a, b) := span_digits s' in (String c a, b) else (EmptyString, s)
  | EmptyString => (EmptyString, EmptyString)
  end.

(** The rest of the text after the character [c], when it starts with it. *)
Definition strip_char (c : ascii) (s : string) : option string :=
  match s with
  | String d s' => if bool_decide (d = c) then Some s' else None
  | EmptyString => None
  end.

(** Digits, if there are any. *)
Definition digits (s : string) : option (string * string) :=
  match span_digits s with
  | (EmptyString, _) => None
  | r => Some r
  end.

(** An optional sign, then a zero alone or digits that do not start with one. *)
Definition scan_int (s : string) : option (string * string) :=
  let '(sign, s) := match strip_char "-" s with
                    | Some s' => ("-", s')
                    | None => (EmptyString, s)
                    end in
  match strip_char "0" s with
  | Some s' => Some (sign +:+ "0", s')
  | None => '(ds, rest) ← digits s; Some (sign +:+ ds, rest)
  end.

(** A point and digits, if they follow. *)
Definition scan_frac (s : string) : string * string :=
  match s' ← strip_char "." s; digits s' with
  | Some (ds, rest) => (String "." ds, rest)
  | None => (EmptyString, s)
  end.

(** An exponent, if it follows. *)
Definition scan_exp (s : string) : string * string :=
  match s with
  | String c s' =>
      let '(sign, s'') := match s' with
                          | String d t => if char_in d "-+" then (String d EmptyString, t)
                                          else (EmptyString, s')
                          | EmptyString => (EmptyString, s')
                          end in
      match digits s'' with
      | Some (ds, rest) => if char_in c "eE" then (String c (sign +:+ ds), rest) else (EmptyString, s)
      | None => (EmptyString, s)
      end
  | EmptyString => (EmptyString, s)
  end.

(** An integer, or a float when there is a fraction or an exponent. *)
Definition scan_number (s : string) : option (string * string * string) :=
  '(i, s1) ← scan_int s;
  let '(f, s2) := scan_frac s1 in
  let '(e, s3) := scan_exp s2 in
  Some (i, f +:+ e, s3).

Definition int_value (i : string) : result Z :=
  let '(neg, ds) := match strip_char "-" i with Some ds => (true, ds) | None => (false, i) end in
  if (MAX_STR_DIGITS <? String.length ds)%nat
  then Err (ValueError "Exceeds the limit (4300 digits) for integer string conversion")
  else match parse_digits 0 false ds with
       | Some z => Ok (if (neg : bool) then - z else z)
       | None => Err JSONDecodeError
       end.

Definition parse_number (s : string) : result (pyval * string) :=
  match scan_number s with
  | None => Err JSONDecodeError
  | Some (i, EmptyString, rest) => z ← int_value i; Ok (PInt z, rest)
  | Some (i, x, rest) => Ok (PFloat (float_of (i +:+ x)), rest)
  end.

Definition hex_value (c : ascii) : option N :=
  if is_digit c then Some (ascii_n c - 48)%N
  else if in_range "a" "f" c then Some (ascii_n c - 87)%N
  else if in_range "A" "F" c then Some (ascii_n c - 55)%N
  else None.

(** The character after a backslash. *)
Definition simple_escape (c : ascii) : option ascii :=
  if bool_decide (c = quote_char) then Some quote_char
  else match c with
       | "\" => Some "\" | "/" => Some "/" | "b" => Some "008" | "f" => Some "012"
       | "n" => Some "010" | "r" => Some "013" | "t" => Some "009"
       | _ => None
       end%char.

(** The rest of a string literal, up to its closing quote. *)
Fixpoint parse_chars (s : string) : result (string * string) :=
  match s with
  | EmptyString => Err JSONDecodeError
  | String c s' =>
      if bool_decide (c = quote_char) then Ok (EmptyString, s')
      else if bool_decide (c = "\"%char) then
        match s' with
        | String "u" (String a (String b (String x (String y t)))) =>
            match hex_value a, hex_value b, hex_value x, hex_value y with
            | Some 0%N, Some 0%N, Some x, Some y =>
                '(r, rest) ← parse_chars t;
                Ok (String (ascii_of_N (16 * x + y)) r, rest)
            | _, _, _, _ => Err JSONDecodeError
            end
        | String e t =>
            match simple_escape e with
            | Some c => '(r, rest) ← parse_chars t; Ok (String c r, rest)
            | None => Err JSONDecodeError
            end
        | EmptyString => Err JSONDecodeError
        end
      else if (ascii_n c <? 32)%N then Err JSONDecodeError
      else '(r, rest) ← parse_chars s'; Ok (String c r, rest)
  end.

Definition expect (c : ascii) (s : string) : result string :=
  match strip_char c s with Some s' => Ok s' | None => Err JSONDecodeError end.

Definition keywords : list (string * pyval) :=
  [("null", PNone); ("true", PBool true); ("false", PBool false); ("NaN", PFloat S754_nan);
   ("Infinity", PFloat (S754_infinity false)); ("-Infinity", PFloat (S754_infinity true))].

Fixpoint keyword (l : list (string * pyval)) (s : string) : option (pyval * string) :=
  match l with
  | [] => None
  | (w, v) :: l =>
      if starts_with w s then Some (v, string_drop (String.length w) s) else keyword l s
  end.

Fixpoint parse_value (n : nat) (s : string) : result (pyval * string) :=
  match n with
  | O => Err JSONDecodeError
  | S n =>
      match strip_char "[" s, strip_char "{" s, strip_char quote_char s with
      | Some s', _, _ =>
          match strip_char "]" (skip_space s') with
          | Some t => Ok (PList [], t)
          | None => '(l, rest) ← parse_elements n (skip_space s'); Ok (PList l, rest)
          end
      | _, Some s', _ =>
          match strip_char "}" (skip_space s') with
          | Some t => Ok (PDict [], t)
          | None => '(l, rest) ← parse_members n (skip_space s');
                    Ok (PDict (fold_left (fun d kv => dset kv.1 kv.2 d) l []), rest)
          end
      | _, _, Some s' => '(w, rest) ← parse_chars s'; Ok (PStr w, rest)
      | None, None, None =>
          match keyword keywords s with
          | Some r => Ok r
          | None => parse_number s
          end
      end
  end
(** One element or more, up to the closing bracket. *)
with parse_elements (n : nat) (s : string) : result (list pyval * string) :=
  match n with
  | O => Err JSONDecodeError
  | S n =>
      '(v, t) ← parse_value n s;
      match strip_char "," (skip_space t) with
      | Some t => '(l, rest) ← parse_elements n (skip_space t); Ok (v :: l, rest)
      | None => t ← expect "]" (skip_space t); Ok ([v], t)
      end
  end
with parse_members (n : nat) (s : string) : result (list (string * pyval) * string) :=
  match n with
  | O => Err JSONDecodeError
  | S n =>
      t ← expect quote_char s;
      '(k, t) ← parse_chars t;
      t ← expect ":" (skip_space t);
      '(v, t) ← parse_value n (skip_space t);
      match strip_char "," (skip_space t) with
      | Some t => '(l, rest) ← parse_members n (skip_space t); Ok ((k, v) :: l, rest)
      | None => t ← expect "}" (skip_space t); Ok ([(k, v)], t)
      end
  end.

(** [json.loads(s)]; each level of nesting consumes characters, so the length
    of the text is fuel enough. *)
Definition loads (s : string) : result pyval :=
  '(v, rest) ← parse_value (S (2 * String.length s)) (skip_space s);
  match skip_space rest with
  | EmptyString => Ok v
  | _ => Err JSONDecodeError
  end.
End json.

(** ** Induction on values *)

Section pyval_induction.
Context (P : pyval -> Prop).
Context (Hnone : P PNone) (Hbool : forall b, P (PBool b)) (Hint : forall z, P (PInt z)).
Context (Hfloat : forall f, P (PFloat f)) (Hstr : forall s, P (PStr s)).
Context (Hlist : forall l, Forall P l -> P (PList l)).
Context (Hdict : forall d : dict, Forall (fun kv => P kv.2) d -> P (PDict d)).

Fixpoint pyval_rect' (v : pyval) : P v :=
  match v with
  | PNone => Hnone
  | PBool b => Hbool b
  | PInt z => Hint z
  | PFloat f => Hfloat f
  | PStr s => Hstr s
  | PList l =>
      Hlist l ((fix go l := match l return Forall P l with
                            | [] => List.Forall_nil _
                            | x :: l => List.Forall_cons _ x l (pyval_rect' x) (go l)
                            end) l)
  | PDict d =>
      Hdict d ((fix go (d : dict) := match d return Forall (fun kv => P kv.2) d with
                            | [] => List.Forall_nil _
                            | kv :: d => List.Forall_cons _ kv d (pyval_rect' kv.2) (go d)
                            end) d)
  end.
End pyval_induction.

(** * What is printed is read back

    [loads] inverts [dumps] on every value with distinct keys, whatever float
    printer satisfies the law of [float.__repr__].  The lemmas follow the
    grammar: digits, numbers, string literals, values. *)

(** [float.__repr__] prints a JSON number with a fraction or an exponent, and
    reading it gives the float back. *)
Class FloatTextOk `{FloatText} := {
  float_repr_number f : float_finite f = true ->
    exists i c x, scan_number (float_repr f) = Some (i, String c x, EmptyString)
                  /\ float_repr f = i +:+ String c x;
  float_of_repr f : float_finite f = true -> float_of (float_repr f) = f }.

(** Python dictionaries have distinct keys. *)
Fixpoint keyed (v : pyval) : Prop :=
  match v with
  | PList l => (fix go l := match l with [] => True | v :: l => keyed v /\ go l end) l
  | PDict d =>
      NoDup (dkeys d) /\
      (fix go (d : dict) := match d with [] => True | kv :: d => keyed kv.2 /\ go d end) d
  | _ => True
  end.

(** The text after a value: nothing, or a separator. *)
Definition stops (r : string) : bool :=
  match r with EmptyString => true | String c _ => char_in c ",]}" end.

Lemma keyed_list l : keyed (PList l) <-> Forall keyed l.
Proof. induction l as [|v l IH]; simpl in *; [by split|]. rewrite Forall_cons. by rewrite <-IH. Qed.

Lemma keyed_dict d : keyed (PDict d) <-> NoDup (dkeys d) /\ Forall (fun kv => keyed kv.2) d.
Proof.
  simpl. f_equiv. induction d as [|kv d IH]; simpl in *; [by split|]. rewrite Forall_cons. by rewrite <-IH.
Qed.

(** ** Characters *)

Lemma strip_char_Some c s t : strip_char c s = Some t <-> s = String c t.
Proof.
  destruct s as [|d s]; simpl; [done|]. case_bool_decide; split; congruence.
Qed.

Lemma strip_char_eq c s : strip_char c (String c s) = Some s.
Proof. by apply strip_char_Some. Qed.

Lemma expect_eq c s : expect c (String c s) = Ok s.
Proof. unfold expect. by rewrite strip_char_eq. Qed.

Lemma strip_char_ne c d s : d <> c -> strip_char c (String d s) = None.
Proof. intros. simpl. by rewrite bool_decide_eq_false_2. Qed.

Lemma strip_char_app c s r :
  strip_char c (s +:+ r) =
  match s with
  | EmptyString => strip_char c r
  | _ => (fun t => t +:+ r) <$> strip_char c s
  end.
Proof. destruct s as [|d s]; [done|]. rewrite string_app_cons. simpl. by case_bool_decide. Qed.

Lemma strip_char_stops c r : stops r = true -> char_in c ",]}" = false -> strip_char c r = None.
Proof.
  destruct r as [|d r]; simpl; [done|]. intros Hd Hc. case_bool_decide; [|done]. congruence.
Qed.

Lemma stops_digit r : stops r = true -> span_digits r = (EmptyString, r).
Proof.
  destruct r as [|c r]; [done|]. intros Hc. cbn [span_digits].
  assert (is_digit c = false) as ->; [|done]. unfold stops in Hc.
  apply not_true_is_false. intros Hd. revert Hc.
  unfold is_digit, in_range, char_in, string_existsb in *.
  repeat case_bool_decide; simplify_eq; try discriminate; done.
Qed.

(** ** Digits and numbers *)

(** No digit comes next. *)
Definition no_digit (r : string) : Prop := span_digits r = (EmptyString, r).

Lemma span_digits_app s r a b :
  no_digit r -> span_digits s = (a, b) -> span_digits (s +:+ r) = (a, b +:+ r).
Proof.
  intros Hr. revert a b. induction s as [|c s IH]; intros a b; simpl.
  - intros [= <- <-]. exact Hr.
  - destruct (is_digit c).
    + destruct (span_digits s) as [a' b'] eqn:E. rewrite (IH a' b') by done. by intros [= <- <-].
    + by intros [= <- <-].
Qed.

Lemma span_digits_spec s a b : span_digits s = (a, b) -> s = a +:+ b /\ string_forallb is_digit a = true.
Proof.
  revert a b. induction s as [|c s IH]; intros a b; simpl; [by intros [= <- <-]|].
  destruct (is_digit c) eqn:Hc; [|by intros [= <- <-]].
  destruct (span_digits s) as [a' b'] eqn:E. intros [= <- <-].
  destruct (IH _ _ eq_refl) as [-> ?]. simpl. by rewrite Hc.
Qed.

Lemma digits_app s r a b :
  no_digit r -> digits s = Some (a, b) -> digits (s +:+ r) = Some (a, b +:+ r).
Proof.
  intros Hr. unfold digits. destruct (span_digits s) as [a' b'] eqn:E.
  rewrite (span_digits_app _ _ _ _ Hr E). destruct a'; [done|]. by intros [= <- <-].
Qed.

Lemma digits_app_None s r :
  no_digit r -> digits s = None -> digits (s +:+ r) = None.
Proof.
  intros Hr. unfold digits. destruct (span_digits s) as [a' b'] eqn:E.
  rewrite (span_digits_app _ _ _ _ Hr E). by destruct a'.
Qed.

Lemma digits_all ds : ds <> EmptyString -> string_forallb is_digit ds = true ->
  digits ds = Some (ds, EmptyString).
Proof.
  intros Hne Hd. unfold digits. assert (span_digits ds = (ds, EmptyString)) as ->; [|by destruct ds].
  clear Hne. induction ds as [|c ds IH]; [done|]. simpl in *.
  apply andb_true_iff in Hd as [-> Hd]. by rewrite IH.
Qed.

Lemma scan_int_app s r i t :
  no_digit r -> scan_int s = Some (i, t) -> scan_int (s +:+ r) = Some (i, t +:+ r).
Proof.
  intros Hr. unfold scan_int. rewrite strip_char_app. destruct s as [|c s]; [done|].
  destruct (strip_char "-" (String c s)) as [s'|] eqn:E; cbn [fmap option_fmap option_map].
  - rewrite strip_char_app. destruct s' as [|d s']; [done|].
    destruct (strip_char "0" _) as [u|] eqn:E0; cbn [fmap option_fmap option_map]; [by intros [= <- <-]|].
    destruct (digits (String d s')) as [[ds rest]|] eqn:Ed; [|done]. simpl.
    rewrite (digits_app _ _ _ _ Hr Ed). by intros [= <- <-].
  - rewrite strip_char_app.
    destruct (strip_char "0" _) as [u|] eqn:E0; cbn [fmap option_fmap option_map]; [by intros [= <- <-]|].
    destruct (digits (String c s)) as [[ds rest]|] eqn:Ed; [|done]. simpl.
    rewrite (digits_app _ _ _ _ Hr Ed). by intros [= <- <-].
Qed.

Lemma scan_frac_app s r f t :
  stops r = true -> scan_frac s = (f, t) -> scan_frac (s +:+ r) = (f, t +:+ r).
Proof.
  intros Hr. unfold scan_frac. rewrite strip_char_app. destruct s as [|c s].
  - rewrite (strip_char_stops "." r) by done. intros [= <- <-]. reflexivity.
  - destruct (strip_char "." (String c s)) as [s'|] eqn:E; cbn; [|by intros [= <- <-]].
    destruct (digits s') as [[ds rest]|] eqn:Ed.
    + rewrite (digits_app _ _ _ _ (stops_digit _ Hr) Ed). by intros [= <- <-].
    + rewrite (digits_app_None _ _ (stops_digit _ Hr) Ed). by intros [= <- <-].
Qed.

Lemma scan_exp_app s r e t :
  stops r = true -> scan_exp s = (e, t) -> scan_exp (s +:+ r) = (e, t +:+ r).
Proof.
  intros Hr. destruct s as [|c s].
  - intros [= <- <-]. rewrite !string_app_nil_l. unfold scan_exp. destruct r as [|d r]; [done|].
    assert (char_in d "eE" = false) as ->; [|by repeat case_match].
    simpl in Hr. apply not_true_is_false. intros Hd. revert Hr Hd. unfold char_in, string_existsb.
    repeat case_bool_decide; simplify_eq; done.
  - rewrite string_app_cons. unfold scan_exp.
    destruct s as [|d s].
    + rewrite string_app_nil_l. intros H.
      assert (e = EmptyString /\ t = String c EmptyString) as [-> ->] by (simpl in H; by simplify_eq).
      destruct r as [|x r]; [done|].
      assert (char_in x "-+" = false) as ->.
      { simpl in Hr. apply not_true_is_false. intros Hd. revert Hr Hd. unfold char_in, string_existsb.
        repeat case_bool_decide; simplify_eq; done. }
      unfold digits. rewrite (stops_digit _ Hr). done.
    + rewrite string_app_cons. destruct (char_in d "-+") eqn:Ed.
      * destruct (digits s) as [[ds rest]|] eqn:E.
        -- rewrite (digits_app _ _ _ _ (stops_digit _ Hr) E). destruct (char_in c "eE"); by intros [= <- <-].
        -- rewrite (digits_app_None _ _ (stops_digit _ Hr) E). by intros [= <- <-].
      * rewrite <-string_app_cons. destruct (digits (String d s)) as [[ds rest]|] eqn:E.
        -- rewrite (digits_app _ _ _ _ (stops_digit _ Hr) E). destruct (char_in c "eE"); by intros [= <- <-].
        -- rewrite (digits_app_None _ _ (stops_digit _ Hr) E). by intros [= <- <-].
Qed.

Lemma scan_number_app s r i x t :
  stops r = true -> scan_number s = Some (i, x, t) -> scan_number (s +:+ r) = Some (i, x, t +:+ r).
Proof.
  intros Hr. unfold scan_number. destruct (scan_int s) as [[i1 s1]|] eqn:Ei; [|done]. simpl.
  rewrite (scan_int_app _ _ _ _ (stops_digit _ Hr) Ei). simpl.
  destruct (scan_frac s1) as [f s2] eqn:Ef. rewrite (scan_frac_app _ _ _ _ Hr Ef).
  destruct (scan_exp s2) as [e s3] eqn:Ee. rewrite (scan_exp_app _ _ _ _ Hr Ee).
  by intros [= <- <- <-].
Qed.

(** ** Integers *)

Lemma pretty_char_digit n : (n < 10)%N -> is_digit (pretty_N_char n) = true /\
  Z.of_N (ascii_n (pretty_N_char n)) - 48 = Z.of_N n.
Proof.
  intros H. assert (forall k : nat, (k < 10)%nat -> is_digit (pretty_N_char (N.of_nat k)) = true
    /\ Z.of_N (ascii_n (pretty_N_char (N.of_nat k))) - 48 = Z.of_N (N.of_nat k)) as Hall.
  { intros k Hk. do 10 (destruct k as [|k]; [done|]). lia. }
  specialize (Hall (N.to_nat n)). rewrite N2Nat.id in Hall. apply Hall. lia.
Qed.

(** What a decimal number is made of, and its value after the digits before. *)
Record decimal (ds : string) (x : N) : Prop := {
  decimal_digits : string_forallb is_digit ds = true;
  decimal_head c t : ds = String c t -> (0 < x)%N -> c <> "0"%char;
  decimal_ne : (0 < x)%N -> ds <> EmptyString;
  decimal_value a p : ds <> EmptyString ->
    parse_digits a p ds = Some (a * 10 ^ Z.of_nat (String.length ds) + Z.of_N x) }.

Lemma parse_digits_app a p ds s :
  string_forallb is_digit ds = true -> ds <> EmptyString ->
  parse_digits a p (ds +:+ s) = z ← parse_digits a p ds; parse_digits z true s.
Proof.
  revert a p. induction ds as [|c ds IH]; [done|]. intros a p. simpl. intros [Hc Hd]%andb_true_iff _.
  rewrite Hc. destruct ds as [|d ds]; [done|]. by apply IH.
Qed.

Lemma decimal_snoc ds x n :
  decimal ds x -> (n < 10)%N -> (0 < 10 * x + n)%N -> (x = 0%N -> ds = EmptyString) ->
  decimal (ds +:+ String (pretty_N_char n) EmptyString) (10 * x + n).
Proof.
  intros [Hd Hh Hne Hv] Hn Hpos H0. destruct (pretty_char_digit n Hn) as [Hc Hcv].
  split.
  - rewrite string_forallb_app, Hd. simpl. by rewrite Hc.
  - intros c t Heq _. destruct ds as [|d ds].
    + injection Heq as <- <-. assert (x = 0)%N as ->.
      { destruct (decide (x = 0%N)); [done|]. exfalso. apply Hne; [lia|done]. }
      intros E. rewrite E in Hcv. simpl in Hcv. lia.
    + injection Heq as <- <-. apply (Hh d ds); [done|].
      destruct (decide (x = 0%N)) as [->|]; [|lia]. by specialize (H0 eq_refl).
  - intros _ E. by destruct ds.
  - intros a p _. destruct (decide (ds = EmptyString)) as [->|Hds].
    + assert (x = 0)%N as ->.
      { destruct (decide (x = 0%N)); [done|]. exfalso. apply Hne; [lia|done]. }
      simpl. rewrite Hc, Hcv. f_equal. lia.
    + rewrite parse_digits_app, Hv by done. simpl. rewrite Hc, Hcv, string_length_app. f_equal.
      simpl. rewrite Nat2Z.inj_add, Z.pow_add_r by lia. simpl. lia.
Qed.

Lemma pretty_go_decimal x :
  exists ds, (forall s, pretty_N_go x s = ds +:+ s) /\ decimal ds x /\ (x = 0%N -> ds = EmptyString).
Proof.
  induction (N.lt_wf_0 x) as [x _ IH]. destruct (decide (x = 0%N)) as [->|Hx].
  - exists EmptyString. split; [intros; apply pretty_N_go_0|]. split; [|done].
    by split.
  - destruct (IH (x / 10)%N) as (ds & Hs & Hd & H0); [apply N.div_lt; lia|].
    exists (ds +:+ String (pretty_N_char (x mod 10)) EmptyString). split; [|split; [|done]].
    + intros s. rewrite pretty_N_go_step by lia. rewrite Hs, string_app_assoc. done.
    + rewrite (N.div_mod x 10) at 2 by done.
      apply decimal_snoc; [done|by apply N.mod_lt|pose proof (N.div_mod x 10); lia|done].
Qed.

Lemma pretty_N_decimal x : (0 < x)%N -> decimal (pretty x) x.
Proof.
  intros Hx. unfold pretty, pretty_N. rewrite decide_False by lia.
  destruct (pretty_go_decimal x) as (ds & Hs & Hd & _). by rewrite Hs, string_app_nil_r.
Qed.

Lemma decimal_scan ds x : decimal ds x -> (0 < x)%N ->
  strip_char "0" ds = None /\ digits ds = Some (ds, EmptyString) /\ strip_char "-" ds = None.
Proof.
  intros [Hd Hh Hne _] Hx. split; [|split].
  - destruct ds as [|c t]; [done|]. apply strip_char_ne. by apply (Hh c t).
  - by apply digits_all; [apply Hne|].
  - destruct ds as [|c t]; [done|]. apply strip_char_ne. intros ->. by simpl in Hd.
Qed.

Lemma scan_pretty (z : Z) : scan_number (pretty z) = Some (pretty z, EmptyString, EmptyString).
Proof.
  unfold scan_number, scan_int. destruct z as [|p|p]; [done|..].
  - change (pretty (Z.pos p)) with (pretty (N.pos p)).
    destruct (decimal_scan (pretty (N.pos p)) (N.pos p)) as (H0 & Hd & Hm); [by apply pretty_N_decimal|lia|].
    by rewrite Hm, H0, Hd.
  - change (pretty (Z.neg p)) with (String "-" (pretty (N.pos p))). rewrite strip_char_eq.
    destruct (decimal_scan (pretty (N.pos p)) (N.pos p)) as (H0 & Hd & Hm); [by apply pretty_N_decimal|lia|].
    by rewrite H0, Hd.
Qed.

Lemma int_value_pretty z t : int_repr z = Ok t -> t = pretty z /\ int_value t = Ok z.
Proof.
  unfold int_repr. destruct (Nat.ltb _ _) eqn:Hl; [done|]. intros [= <-]. split; [done|].
  unfold int_value. destruct z as [|p|p]; [done|..].
  - change (pretty (Z.pos p)) with (pretty (N.pos p)) in *. change (Z.abs (Z.pos p)) with (Z.pos p) in Hl.
    destruct (decimal_scan (pretty (N.pos p)) (N.pos p)) as (_ & _ & ->); [by apply pretty_N_decimal|lia|].
    change (pretty (Z.pos p)) with (pretty (N.pos p)) in Hl. rewrite Hl.
    rewrite (decimal_value _ (N.pos p)); [done|by apply pretty_N_decimal|].
    by apply (decimal_ne _ (N.pos p)); [apply pretty_N_decimal|].
  - change (pretty (Z.neg p)) with (String "-" (pretty (N.pos p))). rewrite strip_char_eq.
    change (Z.abs (Z.neg p)) with (Z.pos p) in Hl.
    change (pretty (Z.pos p)) with (pretty (N.pos p)) in Hl. rewrite Hl.
    rewrite (decimal_value _ (N.pos p)); [done|by apply pretty_N_decimal|].
    by apply (decimal_ne _ (N.pos p)); [apply pretty_N_decimal|].
Qed.

(** ** String literals *)

Lemma hex_value_digit n : (n < 16)%N -> hex_value (hex_digit n) = Some n.
Proof.
  intros H. assert (exists k, (k < 16)%nat /\ n = N.of_nat k) as (k & Hk & ->).
  { exists (N.to_nat n). lia. }
  do 16 (destruct k as [|k]; [reflexivity|]). lia.
Qed.

Lemma ascii_n_lt c : (ascii_n c < 256)%N.
Proof. apply N_ascii_bounded. Qed.

Lemma parse_chars_u x y t :
  parse_chars (String "\" (String "u" (String "0" (String "0" (String x (String y t)))))) =
  match hex_value x, hex_value y with
  | Some x, Some y => '(r, rest) ← parse_chars t; Ok (String (ascii_of_N (16 * x + y)) r, rest)
  | _, _ => Err JSONDecodeError
  end.
Proof. reflexivity. Qed.

Lemma parse_escaped c s r t :
  parse_chars s = Ok (r, t) -> parse_chars (escape_char c +:+ s) = Ok (String c r, t).
Proof.
  intros Hs. unfold escape_char.
  repeat (case_bool_decide; [subst; rewrite !string_app_cons, string_app_nil_l; cbn; by rewrite Hs|]).
  destruct (in_range " " "~" c) eqn:Hr.
  - rewrite string_app_cons, string_app_nil_l. cbn. rewrite !bool_decide_eq_false_2 by done.
    unfold in_range in Hr. apply andb_true_iff in Hr as [Hr _]. apply N.leb_le in Hr.
    assert ((ascii_n c <? 32)%N = false) as -> by (by apply N.ltb_ge). by rewrite Hs.
  - unfold char_u. rewrite string_app_assoc, !string_app_cons, !string_app_nil_l, parse_chars_u.
    pose proof (ascii_n_lt c).
    rewrite !hex_value_digit by (try (apply N.mod_lt; done); apply N.Div0.div_lt_upper_bound; lia).
    rewrite Hs. cbn [mbind result_bind].
    assert (16 * (ascii_n c / 16) + ascii_n c mod 16 = ascii_n c)%N as ->
      by (rewrite <-N.div_mod; done).
    unfold ascii_n. by rewrite ascii_N_embedding.
Qed.

Lemma parse_quoted s rest :
  parse_chars (string_concat_map escape_char s +:+ String quote_char rest) = Ok (s, rest).
Proof.
  induction s as [|c s IH]; [done|]. simpl. rewrite string_app_assoc. by apply parse_escaped.
Qed.

(** ** Values *)

(** A printed value starts with neither white space nor a closing bracket. *)
Definition value_head (t : string) : Prop :=
  exists c t', t = String c t' /\ json_space c = false /\ c <> "]"%char /\ c <> "}"%char.

Lemma value_head_app t r : value_head t -> value_head (t +:+ r).
Proof. intros (c & t' & -> & H). rewrite string_app_cons. by exists c, (t' +:+ r). Qed.

Lemma value_head_skip t : value_head t -> skip_space t = t.
Proof. intros (c & t' & -> & H & _). simpl. by rewrite H. Qed.

Lemma value_head_close t : value_head t -> strip_char "]" t = None /\ strip_char "}" t = None.
Proof. intros (c & t' & -> & _ & ? & ?). by rewrite !strip_char_ne. Qed.

Lemma value_head_length t : value_head t -> (1 <= String.length t)%nat.
Proof. intros (c & t' & -> & _). simpl. lia. Qed.

Lemma scan_number_head s : is_Some (scan_number s) -> value_head s.
Proof.
  intros [[[i x] t] H]. destruct s as [|c s]; [done|]. exists c, s. split; [done|].
  repeat split.
  - unfold json_space. repeat case_bool_decide; subst; try done.
  - by intros ->.
  - by intros ->.
Qed.

Lemma quoted_head s : value_head (quoted s).
Proof. unfold quoted. by eexists _, _. Qed.

Lemma keyword_None s : is_Some (scan_number s) -> keyword keywords s = None.
Proof.
  intros [v H]. unfold keywords, keyword.
  repeat match goal with
  | |- context [starts_with ?w s] =>
      let E := fresh in destruct (starts_with w s) eqn:E;
      [apply starts_with_spec in E as [u ->]; discriminate H|]
  end. done.
Qed.

Section roundtrip.
Context `{FloatTextOk} (allow_nan : bool).

Lemma parse_value_number n s : is_Some (scan_number s) -> parse_value (S n) s = parse_number s.
Proof.
  intros Hs. cbn [parse_value]. rewrite (keyword_None _ Hs). destruct Hs as [v Hv].
  destruct (strip_char "[" s) eqn:E1; [apply strip_char_Some in E1 as ->; discriminate Hv|].
  destruct (strip_char "{" s) eqn:E2; [apply strip_char_Some in E2 as ->; discriminate Hv|].
  by destruct (strip_char quote_char s) eqn:E3; [apply strip_char_Some in E3 as ->; discriminate Hv|].
Qed.

Lemma float_dumps_spec f t : float_dumps allow_nan f = Ok t ->
  float_finite f = true /\ t = float_repr f \/ (t, PFloat f) ∈ keywords.
Proof.
  destruct f as [s|s| |s m e]; simpl; try (intros [= <-]; by left); destruct allow_nan; try done;
    intros [= <-]; right; [destruct s|]; repeat (left || right).
Qed.

Lemma int_number z t : int_repr z = Ok t -> scan_number t = Some (t, EmptyString, EmptyString).
Proof. intros [-> _]%int_value_pretty. apply scan_pretty. Qed.

Lemma dumps_head v t : dumps allow_nan v = Ok t -> value_head t.
Proof.
  destruct v; cbn [dumps].
  - intros [= <-]. by eexists _, _.
  - intros [= <-]. destruct b; by eexists _, _.
  - intros Hz. apply scan_number_head. rewrite (int_number _ _ Hz). by eexists.
  - intros [[Hf ->]|Hk]%float_dumps_spec.
    + apply scan_number_head. destruct (float_repr_number f Hf) as (i & c & x & -> & _). by eexists.
    + unfold keywords in Hk. set_unfold in Hk. destruct_or!; simplify_eq; by eexists _, _.
  - intros [= <-]. apply quoted_head.
  - intros (parts & _ & [= <-])%result_bind_Ok. by eexists _, _.
  - intros (parts & _ & [= <-])%result_bind_Ok. by eexists _, _.
Qed.

(** The text of a value, in front of a separator, is read as the value. *)
Definition reads (v : pyval) : Prop := forall t r n,
  dumps allow_nan v = Ok t -> keyed v -> stops r = true -> (2 * String.length t <= n)%nat ->
  parse_value n (t +:+ r) = Ok (v, r).

Lemma reads_int z : reads (PInt z).
Proof.
  intros t r n Ht _ Hr Hn. cbn [dumps] in Ht.
  pose proof (scan_number_app _ _ _ _ _ Hr (int_number _ _ Ht)) as Hs.
  pose proof (value_head_length _ (dumps_head (PInt z) _ Ht)) as Hl.
  destruct n as [|n]; [lia|].
  rewrite parse_value_number by (by rewrite Hs). unfold parse_number. rewrite Hs.
  apply int_value_pretty in Ht as [_ ->]. done.
Qed.

(** The words are told apart by their first letters. *)
Lemma reads_keyword w v r n : (w, v) ∈ keywords -> (2 * String.length w <= n)%nat ->
  parse_value n (w +:+ r) = Ok (v, r).
Proof.
  intros Hk Hn. assert (keyword keywords (w +:+ r) = Some (v, r)) as Hw.
  { unfold keywords in Hk. set_unfold in Hk. unfold keywords, keyword.
    destruct_or!; simplify_eq; rewrite ?string_app_cons;
      repeat (rewrite if_eq_false by done); by rewrite if_eq_true by apply starts_with_app. }
  destruct n as [|n]; [|cbn [parse_value]; rewrite Hw];
    unfold keywords in Hk; set_unfold in Hk; destruct_or!; simplify_eq; simpl in Hn; try lia; done.
Qed.

Lemma reads_float f : reads (PFloat f).
Proof.
  intros t r n Ht _ Hr Hn. pose proof (value_head_length _ (dumps_head (PFloat f) _ Ht)) as Hl.
  apply float_dumps_spec in Ht as [[Hf ->]|Hk]; [|by apply reads_keyword].
  destruct (float_repr_number f Hf) as (i & c & x & Hs & Heq).
  apply (scan_number_app _ r) in Hs; [|done]. destruct n as [|n]; [lia|].
  rewrite parse_value_number by (by rewrite Hs). unfold parse_number.
  rewrite Hs, string_app_nil_l, <-Heq. by rewrite float_of_repr.
Qed.

Lemma reads_str s : reads (PStr s).
Proof.
  intros t r n [= <-] _ _ Hn. destruct n as [|n]; [simpl in Hn; lia|].
  unfold quoted. rewrite string_app_cons, string_app_assoc, string_app_cons, string_app_nil_l.
  cbn [parse_value]. rewrite strip_char_eq, !strip_char_ne by done. by rewrite parse_quoted.
Qed.

Lemma reads_atom v : v = PNone \/ (exists b, v = PBool b) -> reads v.
Proof.
  intros Hv t r n Ht _ _ Hn.
  pose proof (value_head_length _ (dumps_head v _ Ht)). destruct n as [|n]; [lia|].
  destruct Hv as [->|[b ->]]; [|destruct b]; injection Ht as <-; apply reads_keyword; try done;
    unfold keywords; set_solver.
Qed.

Lemma join_cons p q ps r :
  string_join ", " (p :: q :: ps) +:+ r = p +:+ (String "," (String " " (string_join ", " (q :: ps) +:+ r))).
Proof.
  change (string_join ", " (p :: q :: ps)) with (p +:+ (", " +:+ string_join ", " (q :: ps))).
  by rewrite !string_app_assoc, !string_app_cons, string_app_nil_l.
Qed.

Lemma join_length p q ps :
  String.length (string_join ", " (p :: q :: ps)) =
  (String.length p + 2 + String.length (string_join ", " (q :: ps)))%nat.
Proof.
  change (string_join ", " (p :: q :: ps)) with (p +:+ (", " +:+ string_join ", " (q :: ps))).
  rewrite !string_length_app. simpl. lia.
Qed.

Lemma reads_elements l parts r n :
  Forall reads l -> Forall keyed l -> mapM (dumps allow_nan) l = Ok parts -> l <> [] ->
  (2 * String.length (string_join ", " parts) + 1 <= n)%nat ->
  parse_elements n (string_join ", " parts +:+ String "]" r) = Ok (l, r).
Proof.
  intros Hl. revert parts n. induction Hl as [|v l Hv Hl IH]; [done|].
  intros parts n [Hk Hkl]%Forall_cons Hm _ Hn. cbn [mapM] in Hm.
  apply result_bind_Ok in Hm as (p & Hp & Hm). apply result_bind_Ok in Hm as (ps & Hps & [= <-]).
  destruct n as [|n]; [lia|]. destruct l as [|w l].
  - cbn in Hps. injection Hps as <-. cbn [string_join parse_elements] in *.
    rewrite Hv by (done || lia). cbn [mbind result_bind].
    cbn [skip_space json_space]. done.
  - destruct ps as [|q ps].
    { cbn [mapM] in Hps. by apply result_bind_Ok in Hps as (? & _ & (? & _ & [=])%result_bind_Ok). }
    rewrite join_cons. rewrite join_length in Hn. cbn [parse_elements].
    rewrite Hv by (done || lia). cbn [mbind result_bind].
    rewrite (value_head_skip (String "," _)) by (by eexists _, _).
    rewrite strip_char_eq. cbn [skip_space].
    rewrite if_eq_true by done. rewrite value_head_skip.
    + by rewrite (IH (q :: ps)) by (done || lia).
    + cbn [mapM] in Hps. apply result_bind_Ok in Hps as (q' & Hq & (ps' & _ & [= -> ->])%result_bind_Ok).
      apply dumps_head in Hq. destruct ps as [|]; [by apply value_head_app|].
      rewrite join_cons. by apply value_head_app.
Qed.

(** One member of an object. *)
Definition member_text (kv : string * pyval) : result string :=
  t ← dumps allow_nan kv.2; Ok (quoted kv.1 +:+ ": " +:+ t).

Lemma parse_key k t : expect quote_char (quoted k +:+ t) = Ok (string_concat_map escape_char k +:+ String quote_char t).
Proof.
  unfold quoted, expect. rewrite string_app_cons, strip_char_eq, string_app_assoc, string_app_cons.
  by rewrite string_app_nil_l.
Qed.

Lemma parse_member_head n k v t u :
  value_head t -> parse_value n (t +:+ u) = Ok (v, u) ->
  parse_members (S n) ((quoted k +:+ ": " +:+ t) +:+ u) =
  match strip_char "," (skip_space u) with
  | Some t => '(l, rest) ← parse_members n (skip_space t); Ok ((k, v) :: l, rest)
  | None => t ← expect "}" (skip_space u); Ok ([(k, v)], t)
  end.
Proof.
  intros Ht Hv. cbn [parse_members]. rewrite !string_app_assoc, parse_key. cbn [mbind result_bind].
  rewrite parse_quoted. cbn [mbind result_bind].
  rewrite !string_app_cons, string_app_nil_l, (value_head_skip (String ":" _)) by (by eexists _, _).
  rewrite expect_eq. cbn [mbind result_bind skip_space].
  rewrite if_eq_true, value_head_skip by (done || by apply value_head_app). by rewrite Hv.
Qed.

Lemma member_head k v p : member_text (k, v) = Ok p -> value_head p.
Proof. intros (t & _ & [= <-])%result_bind_Ok. apply value_head_app, quoted_head. Qed.

Lemma reads_members (d : dict) parts r n :
  Forall (fun kv => reads kv.2) d -> Forall (fun kv => keyed kv.2) d ->
  mapM member_text d = Ok parts -> d <> [] ->
  (2 * String.length (string_join ", " parts) + 1 <= n)%nat ->
  parse_members n (string_join ", " parts +:+ String "}" r) = Ok (d, r).
Proof.
  intros Hl. revert parts n. induction Hl as [|[k v] d Hv Hl IH]; [done|].
  intros parts n [Hk Hkl]%Forall_cons Hm _ Hn. cbn [mapM] in Hm. cbn [fst snd] in *.
  apply result_bind_Ok in Hm as (p & Hp & Hm). apply result_bind_Ok in Hm as (ps & Hps & [= <-]).
  apply result_bind_Ok in Hp as (t & Ht & [= <-]). cbn [fst snd] in *.
  pose proof (dumps_head _ _ Ht) as Hth. destruct n as [|n]; [lia|].
  assert (forall u, (2 * String.length (quoted k +:+ ": " +:+ t) <= S n)%nat -> stops u = true ->
    parse_value n (t +:+ u) = Ok (v, u)) as Hread.
  { intros u Hu Hs. apply Hv; [done..|]. rewrite !string_length_app in Hu. simpl in Hu. lia. }
  destruct d as [|[k' v'] d].
  - cbn in Hps. injection Hps as <-. cbn [string_join] in *.
    rewrite (parse_member_head n k v) by (done || apply Hread; (done || lia)). done.
  - cbn [mapM] in Hps. apply result_bind_Ok in Hps as (q & Hq & (ps' & Hps' & [= <-])%result_bind_Ok).
    rewrite join_cons. rewrite join_length in Hn.
    rewrite (parse_member_head n k v) by (done || apply Hread; (done || lia)).
    rewrite (value_head_skip (String "," _)) by (by eexists _, _).
    rewrite strip_char_eq. cbn [skip_space]. rewrite if_eq_true by done. rewrite value_head_skip.
    + rewrite (IH (q :: ps')); [done|done| |done|lia].
      cbn [mapM]. rewrite Hq. cbn [mbind result_bind]. by rewrite Hps'.
    + apply member_head in Hq. destruct ps' as [|]; [by apply value_head_app|].
      rewrite join_cons. by apply value_head_app.
Qed.

(** A dictionary built from members with distinct keys is the list of them. *)
Lemma fold_dset_app (d e : dict) : NoDup (dkeys (e ++ d)) -> fold_left (fun d kv => dset kv.1 kv.2 d) d e = e ++ d.
Proof.
  revert e. induction d as [|[k v] d IH]; intros e Hd; [by rewrite app_nil_r|]. simpl.
  assert (dset k v e = e ++ [(k, v)]) as ->.
  { assert (k ∉ dkeys e) as Hk.
    { unfold dkeys in *. rewrite fmap_app in Hd. apply NoDup_app in Hd as (_ & Hd & _).
      intros Hk. apply (Hd k Hk). left. }
    clear -Hk. induction e as [|[k' v'] e IH]; [done|]. simpl in *.
    destruct (str_eqb k k') eqn:E; [apply str_eqb_eq in E; set_solver|]. rewrite IH; [done|set_solver]. }
  rewrite IH; rewrite <-app_assoc; done.
Qed.

Lemma join_head (parts : list string) :
  match parts with [] => True | p :: _ => value_head p end -> parts <> [] ->
  forall r, value_head (string_join ", " parts +:+ r).
Proof.
  intros Hp Hne r. destruct parts as [|p [|q ps]]; [done|by apply value_head_app|].
  rewrite join_cons. by apply value_head_app.
Qed.

Lemma reads_list l : Forall reads l -> reads (PList l).
Proof.
  intros Hl t r n (parts & Hp & [= <-])%result_bind_Ok Hk%keyed_list _ Hn.
  rewrite !string_length_app in Hn. simpl in Hn. destruct n as [|n]; [lia|].
  rewrite !string_app_assoc, !string_app_cons, !string_app_nil_l. cbn [parse_value]. rewrite strip_char_eq.
  destruct l as [|v l]; [cbn in Hp; by injection Hp as <-|].
  assert (value_head (string_join ", " parts +:+ String "]" r)) as Hh.
  { cbn [mapM] in Hp. apply result_bind_Ok in Hp as (p & Hp & (ps & _ & [= <-])%result_bind_Ok).
    apply join_head; [by apply dumps_head in Hp|done]. }
  rewrite value_head_skip by done. destruct (value_head_close _ Hh) as [-> _].
  by rewrite (reads_elements (v :: l)) by (done || lia).
Qed.

Lemma reads_dict (d : dict) : Forall (fun kv => reads kv.2) d -> reads (PDict d).
Proof.
  intros Hl t r n (parts & Hp & [= <-])%result_bind_Ok [Hd Hk]%keyed_dict _ Hn.
  rewrite !string_length_app in Hn. simpl in Hn. destruct n as [|n]; [lia|].
  rewrite !string_app_assoc, !string_app_cons, !string_app_nil_l. cbn [parse_value].
  rewrite (strip_char_ne "[") by done. rewrite strip_char_eq.
  destruct d as [|[k v] d]; [cbn in Hp; by injection Hp as <-|].
  assert (value_head (string_join ", " parts +:+ String "}" r)) as Hh.
  { cbn [mapM] in Hp. apply result_bind_Ok in Hp as (p & Hp & (ps & _ & [= <-])%result_bind_Ok).
    apply join_head; [by apply member_head in Hp|done]. }
  rewrite value_head_skip by done. destruct (value_head_close _ Hh) as [_ ->].
  rewrite (reads_members ((k, v) :: d)) by (done || lia). cbn [mbind result_bind].
  by rewrite (fold_dset_app _ []).
Qed.

Lemma reads_all v : reads v.
Proof.
  induction v as [| | | | |l IH|d IH] using pyval_rect'.
  - apply reads_atom. by left.
  - apply reads_atom. right. by eexists.
  - apply reads_int.
  - apply reads_float.
  - apply reads_str.
  - by apply reads_list.
  - by apply reads_dict.
Qed.

(** Also: [json.loads(json.dumps(v))] is [v]. *)
Theorem loads_dumps v t : dumps allow_nan v = Ok t -> keyed v -> loads t = Ok v.
Proof.
  intros Ht Hk. pose proof (dumps_head _ _ Ht) as Hh. unfold loads.
  rewrite (value_head_skip _ Hh). rewrite <-(string_app_nil_r t) at 2.
  rewrite (reads_all v t EmptyString) by (done || lia). done.
Qed.
End roundtrip.

(** ** A printer of floats that satisfies the law

    The mantissa in decimal and the binary exponent. *)

Definition demo_repr (f : spec_float) : string :=
  match f with
  | S754_finite s m e => pretty (if s then Z.neg m else Z.pos m) +:+ ".0e" +:+ pretty e
  | S754_zero s => (if s then "-0" else "0") +:+ ".0"
  | _ => EmptyString
  end.

(** A decimal integer without the limit on its digits. *)
Definition demo_int (s : string) : Z :=
  match strip_char "-" s with
  | Some ds => - default 0 (parse_digits 0 false ds)
  | None => default 0 (parse_digits 0 false s)
  end.

Definition demo_of (s : string) : spec_float :=
  match scan_number s with
  | Some (i, x, _) =>
      match demo_int i with
      | Z0 => S754_zero (starts_with "-" i)
      | Z.pos m => S754_finite false m (demo_int (string_drop 3 x))
      | Z.neg m => S754_finite true m (demo_int (string_drop 3 x))
      end
  | None => S754_nan
  end.

#[export] Instance demo_float_text : FloatText := {| float_repr := demo_repr; float_of := demo_of |}.

Lemma demo_int_pretty (z : Z) : demo_int (pretty z) = z.
Proof.
  unfold demo_int. destruct z as [|p|p]; [done|..].
  - change (pretty (Z.pos p)) with (pretty (N.pos p)). pose proof (pretty_N_decimal (N.pos p)) as Hd.
    destruct (decimal_scan (pretty (N.pos p)) (N.pos p)) as (_ & _ & ->); [by apply Hd|lia|].
    rewrite (decimal_value _ _ (Hd ltac:(lia))); [done|]. by apply (decimal_ne _ _ (Hd ltac:(lia))).
  - change (pretty (Z.neg p)) with (String "-" (pretty (N.pos p))). rewrite strip_char_eq.
    pose proof (pretty_N_decimal (N.pos p)) as Hd.
    rewrite (decimal_value _ _ (Hd ltac:(lia))); [done|]. by apply (decimal_ne _ _ (Hd ltac:(lia))).
Qed.

Lemma scan_int_pretty (z : Z) : scan_int (pretty z) = Some (pretty z, EmptyString).
Proof.
  pose proof (scan_pretty z) as H. unfold scan_number in H.
  destruct (scan_int (pretty z)) as [[i t]|]; [|done]. cbn in H.
  destruct (scan_frac t) as [f t2] eqn:Ef. destruct (scan_exp t2) as [e t3] eqn:Ee.
  injection H as -> Hx ->. destruct f; [|done]. rewrite string_app_nil_l in Hx. subst e.
  assert (t = t2) as ->.
  { unfold scan_frac in Ef. destruct (t' ← strip_char "." t; digits t') as [[? ?]|]; congruence. }
  assert (t2 = EmptyString) as ->; [|done].
  destruct t2 as [|c u]; [done|]. unfold scan_exp in Ee.
  repeat case_match; simplify_eq.
Qed.

(** The number, a fraction and an exponent are told apart. *)
Lemma scan_demo (m e : Z) :
  scan_number (pretty m +:+ ".0e" +:+ pretty e) = Some (pretty m, ".0e" +:+ pretty e, EmptyString).
Proof.
  assert (no_digit (".0e" +:+ pretty e)) as Hr by done.
  unfold scan_number. rewrite (scan_int_app _ _ _ _ Hr (scan_int_pretty m)).
  cbn [mbind option_bind]. rewrite !string_app_cons, !string_app_nil_l.
  replace (scan_frac _) with (".0", String "e" (pretty e)) by reflexivity.
  assert (scan_exp (String "e" (pretty e)) = (String "e" (pretty e), EmptyString)) as ->; [|done].
  unfold scan_exp. destruct e as [|p|p]; [done|..].
  - change (pretty (Z.pos p)) with (pretty (N.pos p)). pose proof (pretty_N_decimal (N.pos p) ltac:(lia)) as Hd.
    destruct (decimal_scan _ _ Hd) as (_ & Hds & _); [lia|].
    destruct (pretty (N.pos p)) as [|d t] eqn:Et; [done|].
    assert (char_in d "-+" = false) as ->; [|by rewrite Hds].
    apply decimal_digits in Hd. simpl in Hd. apply andb_true_iff in Hd as [Hd _].
    apply not_true_is_false. revert Hd. unfold char_in, string_existsb.
    repeat case_bool_decide; simplify_eq; done.
  - change (pretty (Z.neg p)) with (String "-" (pretty (N.pos p))).
    pose proof (pretty_N_decimal (N.pos p) ltac:(lia)) as Hd.
    destruct (decimal_scan _ _ Hd) as (_ & Hds & _); [lia|].
    change (char_in "-" "-+") with true. cbv beta iota zeta. by rewrite Hds.
Qed.

#[export] Instance demo_float_text_ok : FloatTextOk.
Proof.
  split.
  - intros [s|s| |s m e]; try done; intros _.
    + exists (if s then "-0" else "0"), "."%char, "0". by destruct s.
    + eexists _, "."%char, _. split; [apply scan_demo|done].
  - intros [s|s| |s m e]; try done; intros _; [by destruct s|].
    cbn [float_of demo_float_text float_repr demo_repr]. unfold demo_of. rewrite scan_demo.
    rewrite demo_int_pretty. cbn [string_drop]. rewrite !string_app_cons, string_app_nil_l. cbn [string_drop].
    rewrite demo_int_pretty. by destruct s.
Qed.
