(* ===== verification/Exporter.v ===== *)
(** * The background exporter of the monitoring plugin

    [BackgroundExporter] of
    [src/plugins/agent-monitor/src/allox_agent_monitor/background.py]: a bounded
    queue of encoded events between the threads of an application and one worker
    that sends batches to the collector.  Every access to the shared object is
    inside [with self._condition]; so the program is a set of sections that run
    one at a time, and a thread that waits gives the others their turn.  Each
    section is a function on the object; [step] interleaves the sections of any
    number of callers with those of the worker.  A waiting thread may be resumed
    at any moment, as [Condition.wait] allows; times are in nanoseconds.  The
    system may refuse to start the worker: then [submit] raises with the event
    queued, and nothing is ever sent. *)

From Stdlib Require Import Ascii SpecFloat.
From Stdlib Require String.
From stdpp Require Import gmap.
From Stdlib Require Import Ascii.
From S2P Require Import Prelude PyVal Json.
Open Scope Z_scope.

Record options := Options {
  batch_size : nat;
  capacity : Z;
  max_bytes : Z;
  interval : Z;
  timeout : Z }.

(** [type(v) is int and lo <= v <= hi] *)
Definition exact_int_between (lo hi : Z) (v : pyval) : bool :=
  match v with PInt z => (lo <=? z) && (z <=? hi) | _ => false end.

(** [type(v) in (int, float) and 0 < v <= hi] *)
Definition positive_up_to (hi : Z) (v : pyval) : bool :=
  match v with
  | PInt z => (0 <? z) && (z <=? hi)
  | PFloat (S754_finite false m e) =>
      match parts_compare (Z.pos m, e) (hi, 0) with Gt => false | _ => true end
  | _ => false
  end.

(** The checks of [__init__]. *)
Definition check_options (capacity max_bytes interval timeout : pyval) : result unit :=
  raise_if (negb (exact_int_between 1 65536 capacity)) (ValueError "queue_capacity must be 1..65536");;
  raise_if (negb (exact_int_between 65536 (64 * 1024 * 1024) max_bytes))
    (ValueError "queue_bytes must be 64 KiB..64 MiB");;
  raise_if (negb (positive_up_to 5 interval))
    (ValueError "flush_interval must be 0..5 seconds (exclusive zero)");;
  raise_if (negb (positive_up_to 60 timeout))
    (ValueError "export_timeout must be 0..60 seconds (exclusive zero)").

(** The shared object; a queued event is its text and the time it came. *)
Record exporter := Exporter {
  x_pid : Z;
  x_queue : list (string * Z);
  x_thread : bool;                   (* the worker was started *)
  x_closing : bool;
  x_error : option exn;
  x_force : Z;
  attempted : Z;
  acknowledged : Z;
  x_failed : Z;
  pending_bytes : Z;
  wire_bytes : Z;
  emit_ns : Z;
  batch_requests : Z;
  queue_wait_ns : Z;
  peak_pending_events : Z;
  peak_pending_bytes : Z;
  queue_full_waits : Z }.

Definition BackgroundExporter (pid : Z) : exporter :=
  Exporter pid [] false false None 0 0 0 0 0 0 0 0 0 0 0 0.

Definition pending (x : exporter) : Z := attempted x - acknowledged x - x_failed x.

Definition text_bytes (t : string) : Z := Z.of_nat (String.length t).
Definition texts_bytes (l : list string) : Z := foldr (fun t n => text_bytes t + n) 0 l.

Definition _check_pid (here : Z) (x : exporter) : result unit :=
  raise_if (negb (here =? x_pid x)) (RuntimeError "create a new Tracer after fork").

(** ** Updates of the object *)

Definition count_attempt (bad : Z) (x : exporter) : exporter :=
  Exporter (x_pid x) (x_queue x) (x_thread x) (x_closing x) (x_error x) (x_force x)
    (attempted x + 1) (acknowledged x) (x_failed x + bad) (pending_bytes x) (wire_bytes x) (emit_ns x)
    (batch_requests x) (queue_wait_ns x) (peak_pending_events x) (peak_pending_bytes x)
    (queue_full_waits x).

Definition add_wait (ns : Z) (x : exporter) : exporter :=
  Exporter (x_pid x) (x_queue x) (x_thread x) (x_closing x) (x_error x) (x_force x)
    (attempted x) (acknowledged x) (x_failed x) (pending_bytes x) (wire_bytes x) (emit_ns x)
    (batch_requests x) (queue_wait_ns x + ns) (peak_pending_events x) (peak_pending_bytes x)
    (queue_full_waits x).

Definition count_full_wait (x : exporter) : exporter :=
  Exporter (x_pid x) (x_queue x) (x_thread x) (x_closing x) (x_error x) (x_force x)
    (attempted x) (acknowledged x) (x_failed x) (pending_bytes x) (wire_bytes x) (emit_ns x)
    (batch_requests x) (queue_wait_ns x) (peak_pending_events x) (peak_pending_bytes x)
    (queue_full_waits x + 1).

(** The event is queued and the worker is there from now on; the attempt is
    counted already. *)
Definition enqueue (encoded : string) (now : Z) (x : exporter) : exporter :=
  Exporter (x_pid x) (x_queue x ++ [(encoded, now)]) true (x_closing x) (x_error x) (x_force x)
    (attempted x) (acknowledged x) (x_failed x) (pending_bytes x + text_bytes encoded)
    (wire_bytes x + text_bytes encoded) (emit_ns x) (batch_requests x) (queue_wait_ns x)
    (Z.max (peak_pending_events x) (pending x))
    (Z.max (peak_pending_bytes x) (pending_bytes x + text_bytes encoded)) (queue_full_waits x).

Definition unqueue (rest : list (string * Z)) (x : exporter) : exporter :=
  Exporter (x_pid x) rest (x_thread x) (x_closing x) (x_error x) (x_force x)
    (attempted x) (acknowledged x) (x_failed x) (pending_bytes x) (wire_bytes x) (emit_ns x)
    (batch_requests x + 1) (queue_wait_ns x) (peak_pending_events x) (peak_pending_bytes x)
    (queue_full_waits x).

Definition acknowledge (batch : list string) (ns : Z) (x : exporter) : exporter :=
  Exporter (x_pid x) (x_queue x) (x_thread x) (x_closing x) (x_error x) (x_force x)
    (attempted x) (acknowledged x + Z.of_nat (length batch)) (x_failed x)
    (pending_bytes x - texts_bytes batch) (wire_bytes x) (emit_ns x + ns)
    (batch_requests x) (queue_wait_ns x) (peak_pending_events x) (peak_pending_bytes x)
    (queue_full_waits x).

(** The stream stops: what is queued fails with the batch. *)
Definition abandon (batch : list string) (e : exn) (ns : Z) (x : exporter) : exporter :=
  Exporter (x_pid x) [] (x_thread x) (x_closing x) (Some e) (x_force x)
    (attempted x) (acknowledged x)
    (x_failed x + Z.of_nat (length batch) + Z.of_nat (length (x_queue x))) 0 (wire_bytes x)
    (emit_ns x + ns) (batch_requests x) (queue_wait_ns x) (peak_pending_events x)
    (peak_pending_bytes x) (queue_full_waits x).

Definition force_up_to (target : Z) (x : exporter) : exporter :=
  Exporter (x_pid x) (x_queue x) (x_thread x) (x_closing x) (x_error x)
    (Z.max (x_force x) target)
    (attempted x) (acknowledged x) (x_failed x) (pending_bytes x) (wire_bytes x) (emit_ns x)
    (batch_requests x) (queue_wait_ns x) (peak_pending_events x) (peak_pending_bytes x)
    (queue_full_waits x).

Definition fence (x : exporter) : exporter :=
  Exporter (x_pid x) (x_queue x) (x_thread x) true (x_error x) (x_force x)
    (attempted x) (acknowledged x) (x_failed x) (pending_bytes x) (wire_bytes x) (emit_ns x)
    (batch_requests x) (queue_wait_ns x) (peak_pending_events x) (peak_pending_bytes x)
    (queue_full_waits x).

(** ** Sections *)

(** How a section ends: the call returns or raises, or the thread waits. *)
Inductive verdict := Return | Raise (e : exn) | Wait.

Section exporter.
Context `{FloatText} (opts : options).

(** [self._closing or self._error is not None] *)
Definition refusing (x : exporter) : bool := x_closing x || bool_decide (is_Some (x_error x)).

(** The condition of the loop in [submit]. *)
Definition is_full (encoded : string) (x : exporter) : bool :=
  (capacity opts <=? pending x) || (max_bytes opts <? pending_bytes x + text_bytes encoded).

(** The text that is queued; the limit leaves room for the envelope. *)
Definition encode (event : pyval) : result string :=
  encoded ← dumps false event;
  raise_if (60000 <? text_bytes encoded) (ValueError "buffered event too large");;
  Ok encoded.

Definition submit_section (encoded : string) (started deadline now : Z) (waited : bool)
    (x : exporter) : verdict * exporter :=
  if is_full encoded x && negb (refusing x) then
    let x := if waited then x else count_full_wait x in
    if deadline - now <=? 0 then
      (Raise (TimeoutError "profiling queue backpressure timed out; event not accepted"),
       add_wait (now - started) (count_attempt 1 x))
    else (Wait, x)
  else
    let x := add_wait (now - started) x in
    if refusing x then
      (Raise (RuntimeError "profiling exporter closed or failed"), count_attempt 1 x)
    else (Return, enqueue encoded now (count_attempt 0 x)).

(** The worker: about to look at the queue, waiting for more events, sending a
    batch, about to record the outcome, ended; and a thread that the system
    refused to start, which the object keeps. *)
Inductive worker :=
  | Unstarted
  | Idle
  | Gathering
  | Emitting (batch : list string) (started : Z)
  | Settling (batch : list string) (started : Z) (error : option exn)
  | Stopped.

(** The events that fit in one request; the first one always goes. *)
Fixpoint take_batch (n : nat) (first : bool) (size : Z) (queue : list (string * Z)) :
    list string * list (string * Z) :=
  match n, queue with
  | S n, (encoded, t) :: rest =>
      if negb first && (65536 <? size + text_bytes encoded + 2) then ([], queue)
      else let '(batch, queue) := take_batch n false (size + text_bytes encoded + 2) rest in
           (encoded :: batch, queue)
  | _, _ => ([], queue)
  end.

Definition form_batch (now : Z) (x : exporter) : worker * exporter :=
  let '(batch, rest) := take_batch (batch_size opts) true 64 (x_queue x) in
  (Emitting batch now, unqueue rest x).

(** The second loop: without the lock held in between; looking at the head of
    an empty queue would end the thread. *)
Definition gather_section (now : Z) (x : exporter) : worker * exporter :=
  if negb (x_closing x) && (x_force x <=? acknowledged x + x_failed x)
     && (length (x_queue x) <? batch_size opts)%nat then
    match x_queue x with
    | [] => (Stopped, x)
    | (_, t) :: _ => if t + interval opts - now <=? 0 then form_batch now x else (Gathering, x)
    end
  else form_batch now x.

Definition idle_section (now : Z) (x : exporter) : worker * exporter :=
  match x_queue x with
  | [] => if x_closing x then (Stopped, x) else (Idle, x)
  | _ => gather_section now x
  end.

(** What is sent for a batch. *)
Definition request (batch : list string) : result pyval :=
  events ← mapM loads batch;
  Ok (PDict [("event", PStr "batch"); ("events", PList events)]).

(** The collector vouches for every event of the batch. *)
Definition complete_acknowledgement (n : nat) (ack : pyval) : bool :=
  match ack with
  | PDict d =>
      match dgetn "accepted" d, dgetn "durable" d, dgetn "event_count" d with
      | PBool true, PBool true, PInt z => z =? Z.of_nat n
      | _, _, _ => false
      end
  | _ => false
  end.

(** [reply] is what [self._emit] returns or raises. *)
Definition emit_error (batch : list string) (reply : result pyval) : option exn :=
  match request batch with
  | Err e => Some e
  | Ok _ =>
      match reply with
      | Err e => Some e
      | Ok ack =>
          if complete_acknowledgement (length batch) ack then None
          else Some (RuntimeError "batch lacks a complete durable acknowledgement")
      end
  end.

Definition settle_section (batch : list string) (started now : Z) (error : option exn)
    (x : exporter) : worker * exporter :=
  match error with
  | None => (Idle, acknowledge batch (now - started) x)
  | Some e => (Stopped, abandon batch e (now - started) x)
  end.

(** The barrier is set in the same section that first looks at the counts. *)
Definition flush_section (target deadline now : Z) (x : exporter) : verdict :=
  if acknowledged x + x_failed x <? target then
    if deadline - now <=? 0 then
      Raise (TimeoutError "profiling durability barrier timed out; delivery remains unconfirmed")
    else Wait
  else if negb (x_failed x =? 0) then
    Raise (RuntimeError "profiling durability barrier has failed events")
  else Return.

(** ** Threads *)

Inductive client :=
  | Submitting (encoded : string) (started deadline : Z) (waited : bool)
  | Closing
  | Entering (deadline : Z) (of_close : bool)          (* flush, before its section *)
  | Flushing (target deadline : Z) (of_close : bool)
  | Joining (outcome : result unit) (deadline : Z)
  | Finished (outcome : result unit).

(** The object, the threads, and what was accepted and sent so far: a call of
    [_emit] is its batch and how it failed. *)
Record system := System {
  s_pid : Z;
  s_now : Z;
  s_exporter : exporter;
  s_worker : worker;
  s_clients : gmap nat client;
  s_accepted : list string;
  s_sent : list (list string * option exn) }.

Definition start_system (pid now : Z) : system :=
  System pid now (BackgroundExporter pid) Idle ∅ [] [].

Definition set_client (tid : nat) (c : client) (s : system) : system :=
  System (s_pid s) (s_now s) (s_exporter s) (s_worker s) (<[tid := c]> (s_clients s))
    (s_accepted s) (s_sent s).

Definition set_exporter (x : exporter) (s : system) : system :=
  System (s_pid s) (s_now s) x (s_worker s) (s_clients s) (s_accepted s) (s_sent s).

Definition set_worker (w : worker * exporter) (s : system) : system :=
  System (s_pid s) (s_now s) w.2 w.1 (s_clients s) (s_accepted s) (s_sent s).

Definition log_accepted (encoded : string) (s : system) : system :=
  System (s_pid s) (s_now s) (s_exporter s) (s_worker s) (s_clients s)
    (s_accepted s ++ [encoded]) (s_sent s).

Definition log_sent (batch : list string) (e : option exn) (s : system) : system :=
  System (s_pid s) (s_now s) (s_exporter s) (s_worker s) (s_clients s)
    (s_accepted s) (s_sent s ++ [(batch, e)]).

(** [submit], up to the queue. *)
Definition submit (tid : nat) (event : pyval) (s : system) : system :=
  match _check_pid (s_pid s) (s_exporter s) with
  | Err e => set_client tid (Finished (Err e)) s
  | Ok _ =>
      match encode event with
      | Err e => set_client tid (Finished (Err e)) (set_exporter (count_attempt 1 (s_exporter s)) s)
      | Ok encoded =>
          set_client tid (Submitting encoded (s_now s) (s_now s + timeout opts) false) s
      end
  end.

(** [flush], up to its section. *)
Definition flush (tid : nat) (of_close : bool) (s : system) : system :=
  match _check_pid (s_pid s) (s_exporter s) with
  | Err e => set_client tid (Finished (Err e)) s
  | Ok _ => set_client tid (Entering (s_now s + timeout opts) of_close) s
  end.

Definition close (tid : nat) (s : system) : system :=
  match _check_pid (s_pid s) (s_exporter s) with
  | Err e => set_client tid (Finished (Err e)) s
  | Ok _ => set_client tid Closing s
  end.

(** After [flush]: the [finally] of [close] joins the worker, if there is one. *)
Definition flushed (tid : nat) (of_close : bool) (outcome : result unit) (s : system) : system :=
  if of_close && x_thread (s_exporter s)
  then set_client tid (Joining outcome (s_now s + timeout opts)) s
  else set_client tid (Finished outcome) s.

Definition flush_step (tid : nat) (target deadline : Z) (of_close : bool) (s : system) : system :=
  match flush_section target deadline (s_now s) (s_exporter s) with
  | Return => flushed tid of_close (Ok ()) s
  | Raise e => flushed tid of_close (Err e) s
  | Wait => set_client tid (Flushing target deadline of_close) s
  end.

Definition is_unstarted (w : worker) : bool := match w with Unstarted => true | _ => false end.

Definition worker_alive (s : system) : bool :=
  x_thread (s_exporter s) && match s_worker s with Stopped | Unstarted => false | _ => true end.

(** The next section of a thread. *)
Definition resume (tid : nat) (c : client) (s : system) : option system :=
  match c with
  | Submitting encoded started deadline waited =>
      let '(v, x) := submit_section encoded started deadline (s_now s) waited (s_exporter s) in
      let s := set_exporter x s in
      Some match v with
           | Return => log_accepted encoded (set_client tid (Finished (Ok ())) s)
           | Raise e => set_client tid (Finished (Err e)) s
           | Wait => set_client tid (Submitting encoded started deadline true) s
           end
  | Closing => Some (flush tid true (set_exporter (fence (s_exporter s)) s))
  | Entering deadline of_close =>
      let target := attempted (s_exporter s) in
      Some (flush_step tid target deadline of_close
              (set_exporter (force_up_to target (s_exporter s)) s))
  | Flushing target deadline of_close => Some (flush_step tid target deadline of_close s)
  | Joining outcome deadline =>
      if is_unstarted (s_worker s) then
        Some (set_client tid (Finished (Err (RuntimeError
          "cannot join thread before it is started"))) s)
      else if negb (worker_alive s) then Some (set_client tid (Finished outcome) s)
      else if deadline <=? s_now s then
        Some (set_client tid (Finished (Err (TimeoutError
          "profiling worker did not stop; pending delivery is not durable"))) s)
      else None
  | Finished _ => None
  end.

(** The next section of the worker; [reply] answers the call of [_emit]. *)
Definition _run (reply : result pyval) (s : system) : option system :=
  if x_thread (s_exporter s) then
    match s_worker s with
    | Idle => Some (set_worker (idle_section (s_now s) (s_exporter s)) s)
    | Gathering => Some (set_worker (gather_section (s_now s) (s_exporter s)) s)
    | Emitting batch started =>
        let e := emit_error batch reply in
        Some (log_sent batch e (set_worker (Settling batch started e, s_exporter s) s))
    | Settling batch started e =>
        Some (set_worker (settle_section batch started (s_now s) e (s_exporter s)) s)
    | Stopped | Unstarted => None
    end
  else None.

(** [self._thread.start()] raises: the event is queued and counted by then, and
    the thread that will never run is not replaced. *)
Definition start_fails (tid : nat) (c : client) (s : system) : option system :=
  match c with
  | Submitting encoded started deadline waited =>
      match submit_section encoded started deadline (s_now s) waited (s_exporter s) with
      | (Return, x) =>
          if x_thread (s_exporter s) then None
          else Some (log_accepted encoded
                 (set_client tid (Finished (Err (RuntimeError "can't start new thread")))
                    (set_worker (Unstarted, x) s)))
      | _ => None
      end
  | _ => None
  end.

Inductive move :=
  | Tick (ns : positive)
  | CallSubmit (tid : nat) (event : pyval)
  | CallFlush (tid : nat)
  | CallClose (tid : nat)
  | Resume (tid : nat)
  | StartFails (tid : nat)
  | Work (reply : result pyval).

Definition fresh_thread (tid : nat) (s : system) (s' : system) : option system :=
  match s_clients s !! tid with None => Some s' | Some _ => None end.

Definition step (m : move) (s : system) : option system :=
  match m with
  | Tick ns => Some (System (s_pid s) (s_now s + Z.pos ns) (s_exporter s) (s_worker s)
                       (s_clients s) (s_accepted s) (s_sent s))
  | CallSubmit tid event => fresh_thread tid s (submit tid event s)
  | CallFlush tid => fresh_thread tid s (flush tid false s)
  | CallClose tid => fresh_thread tid s (close tid s)
  | Resume tid => c ← s_clients s !! tid; resume tid c s
  | StartFails tid => c ← s_clients s !! tid; start_fails tid c s
  | Work reply => _run reply s
  end.

Fixpoint steps (ms : list move) (s : system) : option system :=
  match ms with
  | [] => Some s
  | m :: ms => s' ← step m s; steps ms s'
  end.

Definition health (s : system) : result dict :=
  let x := s_exporter s in
  _check_pid (s_pid s) x;;
  Ok [("attempted_events", PInt (attempted x)); ("acknowledged_events", PInt (acknowledged x));
      ("failed_events", PInt (x_failed x)); ("pending_events", PInt (pending x));
      ("pending_bytes", PInt (pending_bytes x));
      ("complete", PBool ((x_failed x =? 0) && (pending x =? 0)));
      ("serialized_bytes", PInt (wire_bytes x)); ("emit_ns", PInt (emit_ns x));
      ("batch_requests", PInt (batch_requests x)); ("queue_wait_ns", PInt (queue_wait_ns x));
      ("queue_full_waits", PInt (queue_full_waits x)); ("queue_capacity", PInt (capacity opts));
      ("queue_bytes_limit", PInt (max_bytes opts));
      ("peak_pending_events", PInt (peak_pending_events x));
      ("peak_pending_bytes", PInt (peak_pending_bytes x));
      ("worker_alive", PBool (worker_alive s));
      ("closed", PBool (x_closing x)); ("export_failed", PBool (bool_decide (is_Some (x_error x))));
      ("durability", PStr "only acknowledged events; memory queue is not crash durable")].
End exporter.

(** * The books of the background exporter

    The invariant that ties the counters of the exporter to its queue, to the
    batch in flight, to what was accepted and to what was sent; every section
    keeps it, so every reachable state has it. *)

(** The batch the worker holds; the part of it that was not sent yet; what the
    counters do not show yet. *)
Definition inflight (w : worker) : list string :=
  match w with Emitting b _ | Settling b _ _ => b | _ => [] end.

Definition unsent (w : worker) : list string :=
  match w with Emitting b _ => b | _ => [] end.

Definition unsettled (w : worker) : Z :=
  match w with Settling b _ None => Z.of_nat (length b) | _ => 0 end.

(** How the stream failed, as soon as the worker knows. *)
Definition failure (x : exporter) (w : worker) : option exn :=
  match w with Settling _ _ e => e | _ => x_error x end.

(** The events whose batch was acknowledged as durable. *)
Definition durable (sent : list (list string * option exn)) : list string :=
  concat (fst <$> filter (fun c => c.2 = None) sent).

Definition sent_texts (sent : list (list string * option exn)) : list string := concat (fst <$> sent).

(** Every call of the collector succeeded, up to the one that failed. *)
Definition fails_last (e : option exn) (sent : list (list string * option exn)) : Prop :=
  match e with
  | None => Forall (fun c => c.2 = None) sent
  | Some e => exists good b, sent = good ++ [(b, Some e)] /\ Forall (fun c => c.2 = None) good
  end.

(** The size the worker computes for a request. *)
Definition batch_bytes (b : list string) : Z := foldr (fun t n => text_bytes t + 2 + n) 64 b.

Section books.
Context `{FloatText} (opts : options).

Definition batch_ok (b : list string) : Prop :=
  (1 <= length b <= batch_size opts)%nat /\ batch_bytes b <= 65536.

Definition encoded_event (t : string) : Prop := exists v, keyed v /\ encode v = Ok t.

Record books (x : exporter) (w : worker) (accepted : list string)
    (sent : list (list string * option exn)) : Prop := Books {
  b_count : attempted x = acknowledged x + x_failed x + Z.of_nat (length (x_queue x))
                          + Z.of_nat (length (inflight w));
  b_bytes : pending_bytes x = texts_bytes (fst <$> x_queue x) + texts_bytes (inflight w);
  b_capacity : pending x <= Z.max 0 (capacity opts);
  b_max : pending_bytes x <= Z.max 0 (max_bytes opts);
  b_nonneg : 0 <= acknowledged x /\ 0 <= x_failed x;
  b_error : is_Some (x_error x) -> w = Stopped /\ 0 < x_failed x;
  b_stopped : w = Stopped -> x_queue x = [] /\ refusing x = true;
  b_gathering : w = Gathering -> x_queue x <> [];
  b_unstarted : x_thread x = false -> w = Idle /\ x_queue x = [];
  b_log : exists lost, accepted = sent_texts sent ++ unsent w ++ (fst <$> x_queue x) ++ lost
                       /\ (x_error x = None -> lost = []);
  b_sent : fails_last (failure x w) sent;
  b_settling b started e : w = Settling b started e -> exists good, sent = good ++ [(b, e)];
  b_acknowledged : acknowledged x + unsettled w = Z.of_nat (length (durable sent));
  b_batches : Forall batch_ok (fst <$> sent);
  b_inflight : match w with Emitting b _ | Settling b _ _ => batch_ok b | _ => True end;
  b_accepted : Z.of_nat (length accepted) <= attempted x;
  b_texts : Forall encoded_event accepted }.

(** The thread was not started. *)
Lemma books_unstarted x acc sent : books x Idle acc sent -> x_thread x = true -> books x Unstarted acc sent.
Proof.
  intros [] Ht. constructor; simpl in *; try done; [|by rewrite Ht]. intros He.
  by destruct (b_error0 He).
Qed.

(** ** Sizes *)

Lemma text_bytes_nonneg t : 0 <= text_bytes t.
Proof. unfold text_bytes. lia. Qed.

Lemma texts_bytes_app a b : texts_bytes (a ++ b) = texts_bytes a + texts_bytes b.
Proof. induction a as [|t a IH]; simpl; [done|]. rewrite IH. lia. Qed.

Lemma texts_bytes_nonneg l : 0 <= texts_bytes l.
Proof. induction l as [|t l IH]; simpl; [done|]. pose proof (text_bytes_nonneg t). lia. Qed.

Lemma encode_bytes v t : encode v = Ok t -> text_bytes t <= 60000.
Proof.
  intros (u & _ & (? & Hr%raise_if_Ok & [= <-])%result_bind_Ok)%result_bind_Ok.
  by apply Z.ltb_ge in Hr.
Qed.

Lemma encoded_bytes t : encoded_event t -> text_bytes t <= 60000.
Proof. intros (v & _ & Hv). by eapply encode_bytes. Qed.

(** A batch is a prefix of the queue, within both limits. *)
Lemma take_batch_split n first size q b r :
  take_batch n first size q = (b, r) -> (fst <$> q) = b ++ (fst <$> r) /\ (length b <= n)%nat.
Proof.
  revert first size q b r. induction n as [|n IH]; intros first size q b r; simpl.
  - intros [= <- <-]. simpl. split; [done|lia].
  - destruct q as [|[t a] q]; [intros [= <- <-]; simpl; split; [done|lia]|].
    destruct (_ && _); [intros [= <- <-]; simpl; split; [done|lia]|].
    destruct (take_batch n false _ q) as [b' r'] eqn:E. intros [= <- <-].
    destruct (IH _ _ _ _ _ E) as [Hq ?]. rewrite fmap_cons, Hq. simpl. split; [done|lia].
Qed.

Lemma take_batch_bytes n size q b r :
  take_batch n false size q = (b, r) -> size <= 65536 -> size + batch_bytes b - 64 <= 65536.
Proof.
  revert size q b r. induction n as [|n IH]; intros size q b r; simpl.
  - intros [= <- <-]. simpl. lia.
  - destruct q as [|[t a] q]; [intros [= <- <-]; simpl; lia|].
    destruct (Z.ltb_spec 65536 (size + text_bytes t + 2)); simpl; [intros [= <- <-]; simpl; lia|].
    destruct (take_batch n false _ q) as [b' r'] eqn:E. intros [= <- <-] _.
    specialize (IH _ _ _ _ E). simpl. lia.
Qed.

Context (Hsize : (0 < batch_size opts)%nat).

Lemma take_batch_ok q b r :
  q <> [] -> Forall encoded_event (fst <$> q) ->
  take_batch (batch_size opts) true 64 q = (b, r) -> batch_ok b.
Proof.
  intros Hne Hq Hb. pose proof (take_batch_split _ _ _ _ _ _ Hb) as [_ Hl].
  destruct (batch_size opts) as [|n] eqn:En; [lia|]. destruct q as [|[t a] q]; [done|].
  simpl in Hb. destruct (take_batch n false _ q) as [b' r'] eqn:E. injection Hb as <- <-.
  apply Forall_cons in Hq as [Ht _]. apply encoded_bytes in Ht. cbn [fst] in Ht.
  apply take_batch_bytes in E; [|lia]. split; [simpl in *; lia|]. simpl. lia.
Qed.

(** ** Logs *)

Lemma sent_texts_app a b : sent_texts (a ++ b) = sent_texts a ++ sent_texts b.
Proof. unfold sent_texts. by rewrite fmap_app, concat_app. Qed.

Lemma durable_app a b : durable (a ++ b) = durable a ++ durable b.
Proof. unfold durable. by rewrite filter_app, fmap_app, concat_app. Qed.

Lemma durable_all sent : Forall (fun c => c.2 = None) sent -> durable sent = sent_texts sent.
Proof.
  unfold durable, sent_texts. induction 1 as [|c sent Hc Hs IH]; [done|].
  rewrite filter_cons_True by done. rewrite !fmap_cons. simpl. by rewrite IH.
Qed.

(** ** What the sections that leave the queue do to the books *)

Lemma refusing_error x : refusing x = false -> x_error x = None.
Proof.
  unfold refusing. intros [_ He]%orb_false_iff. apply bool_decide_eq_false in He.
  by apply eq_None_not_Some.
Qed.

Lemma books_refuse x w acc sent k : books x w acc sent ->
  books (add_wait k (count_attempt 1 x)) w acc sent.
Proof.
  intros []. constructor; simpl; unfold pending in *; simpl in *; try done; try lia.
  intros He. destruct (b_error0 He). split; [done|lia].
Qed.

Lemma books_refuse' x w acc sent k : books x w acc sent ->
  books (count_attempt 1 (add_wait k x)) w acc sent.
Proof. apply books_refuse. Qed.

Lemma books_count_refuse x w acc sent : books x w acc sent -> books (count_attempt 1 x) w acc sent.
Proof.
  intros []. constructor; simpl; unfold pending in *; simpl in *; try done; try lia.
  intros He. destruct (b_error0 He). split; [done|lia].
Qed.

Lemma books_full_wait x w acc sent : books x w acc sent -> books (count_full_wait x) w acc sent.
Proof. by intros []. Qed.

Lemma books_force x w acc sent n : books x w acc sent -> books (force_up_to n x) w acc sent.
Proof. by intros []. Qed.

Lemma books_fence x w acc sent : books x w acc sent -> books (fence x) w acc sent.
Proof.
  intros []. constructor; simpl; try done. intros Hw. split; [by apply b_stopped0|done].
Qed.

Lemma books_accept x w acc sent encoded k now : books x w acc sent ->
  encoded_event encoded -> is_full opts encoded x = false -> refusing x = false ->
  books (enqueue encoded now (count_attempt 0 (add_wait k x))) w (acc ++ [encoded]) sent.
Proof.
  intros [] Henc [Hc Hm]%orb_false_iff Hr. apply Z.leb_gt in Hc. apply Z.ltb_ge in Hm.
  pose proof (refusing_error _ Hr) as He.
  constructor; simpl; unfold pending in *; simpl in *; rewrite ?length_app, ?fmap_app, ?texts_bytes_app in *;
    simpl in *; try done; try lia.
  - rewrite He. by intros [].
  - intros Hs. destruct (b_stopped0 Hs) as [_ ?]. congruence.
  - intros Hg. by destruct (x_queue x).
  - destruct b_log0 as (lost & -> & Hlost). exists []. rewrite Hlost by done. split; [|done].
    by rewrite !app_nil_r, !app_assoc.
  - apply Forall_app. by split; [|apply Forall_singleton].
Qed.

Lemma books_submit_section x w acc sent encoded started deadline now waited v x' :
  books x w acc sent -> encoded_event encoded ->
  submit_section opts encoded started deadline now waited x = (v, x') ->
  books x' w (match v with Return => acc ++ [encoded] | _ => acc end) sent.
Proof.
  intros Hb Henc. unfold submit_section.
  assert (books (if waited then x else count_full_wait x) w acc sent) as Hw
    by (destruct waited; [done|by apply books_full_wait]).
  change (refusing (add_wait (now - started) x)) with (refusing x).
  destruct (is_full opts encoded x) eqn:Hf, (refusing x) eqn:Hr; cbn [andb negb].
  - intros [= <- <-]. by apply books_refuse'.
  - destruct (_ <=? 0); intros [= <- <-]; [by apply books_refuse|done].
  - intros [= <- <-]. by apply books_refuse'.
  - intros [= <- <-]. by apply books_accept.
Qed.

(** ** The worker *)

Lemma books_form_batch x w acc sent now :
  books x w acc sent -> inflight w = [] -> unsent w = [] -> unsettled w = 0 -> failure x w = None ->
  x_error x = None -> x_thread x = true -> x_queue x <> [] ->
  books (form_batch opts now x).2 (form_batch opts now x).1 acc sent.
Proof.
  intros [] Hi Hu Hs Hf He Ht Hq. unfold form_batch.
  destruct (take_batch _ _ _ _) as [b r] eqn:E. cbn [fst snd].
  destruct (take_batch_split _ _ _ _ _ _ E) as [Hsplit Hl].
  assert (length (x_queue x) = length b + length r)%nat as Hlen.
  { rewrite <-(length_fmap fst (x_queue x)), Hsplit, length_app, length_fmap. done. }
  destruct b_log0 as (lost & Hlog & Hlost). rewrite Hu, Hlost, app_nil_r in Hlog by done. simpl in Hlog.
  constructor; simpl; unfold pending in *; simpl in *; rewrite ?Hi, ?Hs, ?Hf, ?He in *; try done; try lia.
  - rewrite b_count0, Hlen. simpl. lia.
  - rewrite b_bytes0, Hsplit, texts_bytes_app. simpl. lia.
  - congruence.
  - exists []. rewrite app_nil_r, Hlog, Hsplit. done.
  - eapply take_batch_ok; [done| |done]. rewrite Hlog in b_texts0.
    by apply Forall_app in b_texts0 as [_ ?].
Qed.

Lemma books_gather x w acc sent now :
  books x w acc sent -> inflight w = [] -> unsent w = [] -> unsettled w = 0 -> failure x w = None ->
  x_error x = None -> x_thread x = true -> x_queue x <> [] ->
  books (gather_section opts now x).2 (gather_section opts now x).1 acc sent.
Proof.
  intros Hb Hi Hu Hs Hf He Ht Hq. unfold gather_section.
  destruct (_ && _); [|by apply books_form_batch with w].
  destruct (x_queue x) as [|[t a] q] eqn:Eq; [done|].
  destruct (_ <=? 0); [by apply books_form_batch with w; rewrite ?Eq|].
  destruct Hb. constructor; simpl; rewrite ?Hi, ?Hu, ?Hs, ?Hf, ?He in *; try done; try congruence.
Qed.

Lemma books_idle x acc sent now :
  books x Idle acc sent -> x_thread x = true ->
  books (idle_section opts now x).2 (idle_section opts now x).1 acc sent.
Proof.
  intros Hb Ht. pose proof Hb as Hb'. unfold idle_section.
  assert (x_error x = None) as He.
  { destruct Hb. destruct (x_error x); [|done]. by destruct b_error0 as [? _]. }
  destruct (x_queue x) eqn:Eq.
  - destruct (x_closing x) eqn:Ec; [|done]. destruct Hb. constructor; simpl; try done.
    + intros []%b_error0; done.
    + intros _. split; [done|]. unfold refusing. by rewrite Ec.
    + congruence.
  - apply books_gather with Idle; rewrite ?Eq; done.
Qed.

Lemma books_sent x acc sent batch started reply :
  books x (Emitting batch started) acc sent ->
  books x (Settling batch started (emit_error batch reply)) acc
    (sent ++ [(batch, emit_error batch reply)]).
Proof.
  intros []. set (e := emit_error batch reply).
  assert (x_error x = None) as He by (destruct (x_error x); [by destruct b_error0|done]).
  simpl in *. rewrite He in *.
  constructor; simpl; rewrite ?He; try done.
  - by intros []%b_unstarted0.
  - destruct b_log0 as (lost & Hl & Hlost). exists lost. split; [|done].
    rewrite Hl, sent_texts_app. unfold sent_texts at 3. simpl. by rewrite app_nil_r, <-app_assoc.
  - destruct e as [e|]; [by eexists _, _|]. apply Forall_app. by split; [|apply Forall_singleton].
  - intros ? ? ? [= <- <- <-]. by eexists.
  - rewrite durable_app, length_app. unfold durable at 2. destruct e as [e|].
    + rewrite filter_cons_False by done. simpl. lia.
    + rewrite filter_cons_True by done. simpl. rewrite app_nil_r. lia.
  - rewrite fmap_app. apply Forall_app. by split; [|apply Forall_singleton].
Qed.

Lemma books_settle x acc sent batch started e now :
  books x (Settling batch started e) acc sent ->
  books (settle_section batch started now e x).2 (settle_section batch started now e x).1 acc sent.
Proof.
  intros [].
  assert (x_error x = None) as He by (destruct (x_error x); [by destruct b_error0|done]).
  pose proof (texts_bytes_nonneg (fst <$> x_queue x)). pose proof (texts_bytes_nonneg batch). destruct b_log0 as (lost & Hl & Hlost).
  simpl in *. destruct e as [e|]; constructor; simpl; unfold pending in *; simpl in *; rewrite ?He in *;
    try done; try lia.
  - intros _. split; [done|]. destruct b_inflight0 as [? _]. lia.
  - intros _. split; [done|]. unfold refusing. simpl. by rewrite orb_true_r.
  - by intros []%b_unstarted0.
  - by eexists.
  - by intros []%b_unstarted0.
  - by eexists.
Qed.
End books.
