(* ===== verification/ExporterSpec.v ===== *)
(** * What the background exporter promises

    Nothing is sent out of order, twice, or after a failure; requests keep the
    collector's limits; a barrier that returned vouches for every event accepted
    before it; and it does return when the collector answers. *)

From Stdlib Require Import Ascii.
From Stdlib Require String.
From stdpp Require Import gmap.
From S2P Require Import Prelude PyVal Json Exporter.
Open Scope Z_scope.

Section reachable.
Context `{FloatTextOk} (opts : options) (Hsize : (0 < batch_size opts)%nat).

(** Events are Python values. *)
Definition move_ok (m : move) : Prop := match m with CallSubmit _ v => keyed v | _ => True end.

Definition reachable (s : system) : Prop :=
  exists pid now ms, Forall move_ok ms /\ steps opts ms (start_system pid now) = Some s.

(** The books are kept, and what a thread is about to queue is an event. *)
Record good (s : system) : Prop := Good {
  g_books : books opts (s_exporter s) (s_worker s) (s_accepted s) (s_sent s);
  g_submitting tid encoded started deadline waited :
    s_clients s !! tid = Some (Submitting encoded started deadline waited) -> encoded_event encoded }.

Lemma good_set_client tid c s :
  good s -> (forall t a b w, c = Submitting t a b w -> encoded_event t) -> good (set_client tid c s).
Proof.
  intros [Hb Hs] Hc. split; [done|]. simpl. intros tid' t a b w.
  destruct (decide (tid' = tid)) as [->|Hne].
  - rewrite lookup_insert_eq. intros [= ->]. by eapply Hc.
  - rewrite lookup_insert_ne by done. apply Hs.
Qed.

Lemma good_set_exporter x s :
  good s -> books opts x (s_worker s) (s_accepted s) (s_sent s) -> good (set_exporter x s).
Proof. by intros [_ Hs] Hb. Qed.

Lemma good_start pid now : good (start_system pid now).
Proof.
  split; [|done]. split; simpl; unfold pending; simpl; try done; try lia.
  by exists [].
Qed.

Lemma good_flushed tid c r s : good s -> good (flushed opts tid c r s).
Proof. intros Hs. unfold flushed. destruct (_ && _); by apply good_set_client. Qed.

Lemma good_flush_step tid target deadline c s : good s -> good (flush_step opts tid target deadline c s).
Proof.
  intros Hs. unfold flush_step. destruct (flush_section _ _ _ _); by (apply good_flushed || apply good_set_client).
Qed.

Lemma good_flush tid c s : good s -> good (flush opts tid c s).
Proof. intros Hs. unfold flush. destruct (_check_pid _ _); by apply good_set_client. Qed.

Lemma good_resume tid c s s' :
  good s -> s_clients s !! tid = Some c -> resume opts tid c s = Some s' -> good s'.
Proof.
  intros Hg Hc. destruct c as [encoded started deadline waited| |deadline cl|target deadline cl|o d|o]; cbn [resume].
  - destruct (submit_section _ _ _ _ _ _ _) as [v x] eqn:Ev. intros [= <-].
    pose proof (g_submitting _ Hg _ _ _ _ _ Hc) as Henc.
    pose proof (books_submit_section opts Hsize _ _ _ _ _ _ _ _ _ _ _ (g_books _ Hg) Henc Ev) as Hb.
    destruct v.
    + split; [exact Hb|]. simpl. intros tid' t a b w. destruct (decide (tid' = tid)) as [->|Hne].
      * by rewrite lookup_insert_eq.
      * rewrite lookup_insert_ne by done. apply (g_submitting _ Hg).
    + apply good_set_client; [|done]. by apply good_set_exporter.
    + apply good_set_client; [by apply good_set_exporter|]. by intros ? ? ? ? [= <- <- <- <-].
  - intros [= <-]. apply good_flush, good_set_exporter, books_fence; [done|apply Hg].
  - intros [= <-]. apply good_flush_step, good_set_exporter, books_force; [done|apply Hg].
  - intros [= <-]. by apply good_flush_step.
  - destruct (is_unstarted _); [intros [= <-]; by apply good_set_client|].
    destruct (negb _); [|destruct (_ <=? _); [|done]]; intros [= <-]; by apply good_set_client.
  - done.
Qed.

Lemma good_run reply s s' : good s -> _run opts reply s = Some s' -> good s'.
Proof.
  intros [Hb Hs]. unfold _run. destruct (x_thread _) eqn:Ht; [|done].
  destruct (s_worker s) eqn:Hw; try done; intros [= <-]; (split; [cbn; rewrite ?Hw|exact Hs]).
  - by apply books_idle.
  - pose proof (b_gathering _ _ _ _ _ Hb eq_refl).
    apply (books_gather opts Hsize _ Gathering); try done.
    + pose proof (b_error _ _ _ _ _ Hb) as He. simpl. destruct (x_error _); [|done]. by destruct He.
    + pose proof (b_error _ _ _ _ _ Hb) as He. simpl. destruct (x_error _); [|done]. by destruct He.
  - by apply (books_sent opts).
  - by apply books_settle.
Qed.

(** A start that fails has queued the event all the same. *)
Lemma start_fails_inv tid c s s' : start_fails opts tid c s = Some s' ->
  exists encoded started deadline waited x, c = Submitting encoded started deadline waited
  /\ submit_section opts encoded started deadline (s_now s) waited (s_exporter s) = (Return, x)
  /\ x_thread (s_exporter s) = false
  /\ s' = log_accepted encoded
            (set_client tid (Finished (Err (RuntimeError "can't start new thread")))
               (set_worker (Unstarted, x) s)).
Proof.
  destruct c as [encoded started deadline waited| | | | |]; try done. cbn [start_fails].
  destruct (submit_section _ _ _ _ _ _ _) as [[] x] eqn:E; try done.
  destruct (x_thread _) eqn:Ht; [done|]. intros [= <-].
  by exists encoded, started, deadline, waited, x.
Qed.

Lemma submit_section_thread encoded started deadline now waited x x' :
  submit_section opts encoded started deadline now waited x = (Return, x') -> x_thread x' = true.
Proof.
  unfold submit_section. destruct (_ && _); [destruct (_ <=? _); by intros [=]|].
  destruct (refusing _); [done|]. by intros [= <-].
Qed.

Lemma good_start_fails tid c s s' :
  good s -> s_clients s !! tid = Some c -> start_fails opts tid c s = Some s' -> good s'.
Proof.
  intros Hg Hc (encoded & started & deadline & waited & x & -> & Ev & Ht & ->)%start_fails_inv.
  pose proof (g_submitting _ Hg _ _ _ _ _ Hc) as Henc.
  pose proof (books_submit_section opts Hsize _ _ _ _ _ _ _ _ _ _ _ (g_books _ Hg) Henc Ev) as Hb.
  destruct (b_unstarted _ _ _ _ _ (g_books _ Hg) Ht) as [Hw _]. rewrite Hw in Hb. split.
  - apply books_unstarted; [exact Hb|by eapply submit_section_thread].
  - simpl. intros tid' t a b w. destruct (decide (tid' = tid)) as [->|Hne].
    + by rewrite lookup_insert_eq.
    + rewrite lookup_insert_ne by done. apply (g_submitting _ Hg).
Qed.

Lemma good_step m s s' : good s -> move_ok m -> step opts m s = Some s' -> good s'.
Proof.
  intros Hg Hm. destruct m as [ns|tid v|tid|tid|tid|tid|reply]; cbn [step]; unfold fresh_thread;
    try (destruct (s_clients s !! tid) eqn:Hc; try done).
  - intros [= <-]. by destruct Hg.
  - intros [= <-]. unfold submit. destruct (_check_pid _ _); [|by apply good_set_client].
    destruct (encode v) as [t|e] eqn:Ev.
    + apply good_set_client; [done|]. intros ? ? ? ? [= <- <- <- <-]. by exists v.
    + apply good_set_client; [|done]. apply good_set_exporter; [done|].
      apply (books_count_refuse opts Hsize), Hg.
  - intros [= <-]. by apply good_flush.
  - intros [= <-]. unfold close. destruct (_check_pid _ _); by apply good_set_client.
  - cbn. by apply good_resume.
  - cbn. by apply good_start_fails.
  - by apply good_run.
Qed.

Lemma steps_ind (P : system -> Prop) ms s s' :
  (forall m s s', P s -> good s -> move_ok m -> step opts m s = Some s' -> P s') ->
  P s -> good s -> Forall move_ok ms -> steps opts ms s = Some s' -> P s' /\ good s'.
Proof.
  intros HP. revert s. induction ms as [|m ms IH]; intros s Hs Hg; [by intros _ [= <-]|].
  intros [Hm Hms]%Forall_cons (s1 & H1 & H2)%bind_Some.
  apply (IH s1); [by eapply HP|by eapply good_step|done|done].
Qed.

Lemma good_steps ms s s' : good s -> Forall move_ok ms -> steps opts ms s = Some s' -> good s'.
Proof. intros Hg Hms Hs. by destruct (steps_ind (fun _ => True) ms s s'). Qed.

Lemma good_reachable s : reachable s -> good s.
Proof. intros (pid & now & ms & Hms & Hs). eapply good_steps; [apply good_start|done|done]. Qed.

(** ** The logs only grow, and the exporter remembers *)

Definition extends (s s' : system) : Prop :=
  s_accepted s `prefix_of` s_accepted s' /\ s_sent s `prefix_of` s_sent s'
  /\ (x_closing (s_exporter s) = true -> x_closing (s_exporter s') = true
                                        /\ s_accepted s' = s_accepted s)
  /\ s_pid s' = s_pid s /\ x_pid (s_exporter s') = x_pid (s_exporter s).

#[export] Instance extends_refl : Reflexive extends.
Proof. by intros s. Qed.

Lemma submit_section_closing encoded started deadline now waited x v x' :
  submit_section opts encoded started deadline now waited x = (v, x') ->
  x_closing x' = x_closing x /\ x_pid x' = x_pid x /\ (v = Return -> x_closing x = false).
Proof.
  unfold submit_section. change (refusing (add_wait (now - started) x)) with (refusing x).
  destruct (is_full opts encoded x), (refusing x) eqn:Hr, waited, (deadline - now <=? 0);
    cbn [andb negb]; intros [= <- <-]; try done;
    (split; [done|]; split; [done|]); intros _; by apply orb_false_iff in Hr as [? _].
Qed.

Lemma extends_flush_step tid target deadline c s s0 :
  extends s0 s -> extends s0 (flush_step opts tid target deadline c s).
Proof.
  intros Hs. unfold flush_step, flushed. destruct (flush_section _ _ _ _); by repeat case_match.
Qed.

Lemma extends_step m s s' : step opts m s = Some s' -> extends s s'.
Proof.
  destruct m as [ns|tid v|tid|tid|tid|tid|reply]; cbn [step]; unfold fresh_thread;
    try (destruct (s_clients s !! tid) as [c|] eqn:Hc; try done).
  - by intros [= <-].
  - intros [= <-]. unfold submit. by destruct (_check_pid _ _), (encode v).
  - intros [= <-]. unfold flush. by destruct (_check_pid _ _).
  - intros [= <-]. unfold close. by destruct (_check_pid _ _).
  - cbn. destruct c as [encoded started deadline waited| |deadline cl|target deadline cl|o d|o]; cbn [resume].
    + destruct (submit_section _ _ _ _ _ _ _) as [v x] eqn:Ev. intros [= <-].
      apply submit_section_closing in Ev as (Hc1 & Hp & Hr). destruct v; (split; [|split; [|split; [|done]]]);
        simpl; try done; try (by eexists); rewrite Hc1; try done.
      intros E. by rewrite Hr in E.
    + intros [= <-]. unfold flush. by destruct (_check_pid _ _).
    + intros [= <-]. by apply extends_flush_step.
    + intros [= <-]. by apply extends_flush_step.
    + destruct (is_unstarted _); [by intros [= <-]|].
      destruct (negb _); [|destruct (_ <=? _); [|done]]; by intros [= <-].
    + done.
  - cbn. intros (encoded & started & deadline & waited & x & -> & Ev & _ & ->)%start_fails_inv.
    apply submit_section_closing in Ev as (Hc1 & Hp & Hr). split; [by eexists|].
    split; [done|]. split; [|done]. simpl. rewrite Hr by done. done.
  - unfold _run. destruct (x_thread _); [|done]. destruct (s_worker s); try done; intros [= <-].
    + unfold idle_section, gather_section, form_batch. by repeat case_match.
    + unfold gather_section, form_batch. by repeat case_match.
    + split; [done|]. split; [by eexists|done].
    + by destruct error.
Qed.

(** ** What was acknowledged *)

Lemma fails_last_durable e sent : fails_last e sent -> durable sent `prefix_of` sent_texts sent.
Proof.
  destruct e as [e|]; simpl.
  - intros (g & b & -> & Hg). rewrite durable_app, sent_texts_app, (durable_all g) by done.
    unfold durable. rewrite filter_cons_False by done. rewrite filter_nil. simpl. rewrite app_nil_r. by eexists.
  - intros Hg. by rewrite durable_all.
Qed.

Lemma sent_accepted s : good s -> sent_texts (s_sent s) `prefix_of` s_accepted s.
Proof. intros [[] _]. destruct b_log as (lost & -> & _). by eexists. Qed.

Lemma durable_accepted s : good s -> durable (s_sent s) `prefix_of` s_accepted s.
Proof.
  intros Hg. etrans; [|by apply sent_accepted]. eapply fails_last_durable, b_sent, Hg.
Qed.

Lemma durable_extends s s' : extends s s' -> durable (s_sent s) `prefix_of` durable (s_sent s').
Proof. intros (_ & [l ->] & _). rewrite durable_app. by eexists. Qed.

Lemma prefix_shorter {A} (a b l : list A) :
  a `prefix_of` l -> b `prefix_of` l -> (length a <= length b)%nat -> a `prefix_of` b.
Proof.
  intros [ka Ha] [kb Hb] Hl. exists (drop (length a) b).
  rewrite <-(take_drop (length a) b) at 1. f_equal.
  assert (take (length a) (b ++ kb) = a) as E by (by rewrite <-Hb, Ha, take_app_length).
  by rewrite take_app_le in E.
Qed.

Lemma attempts_accepted s : good s -> Z.of_nat (length (s_accepted s)) <= attempted (s_exporter s).
Proof. intros [[] _]. done. Qed.

(** When everything counted is acknowledged or failed and nothing failed, the
    acknowledged events reach to the count. *)
Lemma counted_durable s l :
  good s -> l `prefix_of` s_accepted s -> x_failed (s_exporter s) = 0 ->
  Z.of_nat (length l) <= acknowledged (s_exporter s) -> l `prefix_of` durable (s_sent s).
Proof.
  intros Hg Hl Hf Hn. eapply prefix_shorter; [done|by apply durable_accepted|].
  pose proof (b_acknowledged _ _ _ _ _ (g_books _ Hg)) as Ha. unfold unsettled in Ha.
  destruct (s_worker s) as [| | | | |]; try destruct error; lia.
Qed.

(** ** The barrier *)

(** A call of [flush] or [close], begun when [l] had been accepted. *)
Definition barrier (tid : nat) (l : list string) (s : system) : Prop :=
  l `prefix_of` s_accepted s /\
  match s_clients s !! tid with
  | Some (Entering _ _) | Some Closing => True
  | Some (Flushing target _ _) => Z.of_nat (length l) <= target
  | Some (Joining (Ok _) _) | Some (Finished (Ok _)) => l `prefix_of` durable (s_sent s)
  | Some (Joining (Err _) _) | Some (Finished (Err _)) => True
  | _ => False
  end.

Lemma barrier_extends tid l s s' :
  barrier tid l s -> extends s s' -> s_clients s' !! tid = s_clients s !! tid -> barrier tid l s'.
Proof.
  intros [Hl Hc] He Heq. split; [etrans; [done|apply He]|]. rewrite Heq.
  destruct (s_clients s !! tid) as [[| | | |[]|[]]|]; try done; by etrans; [|apply durable_extends].
Qed.

Lemma barrier_flush_step tid l target deadline c s :
  good s -> l `prefix_of` s_accepted s -> Z.of_nat (length l) <= target ->
  barrier tid l (flush_step opts tid target deadline c s).
Proof.
  intros Hg Hl Ht. unfold flush_step, flush_section, flushed.
  destruct (Z.ltb_spec (acknowledged (s_exporter s) + x_failed (s_exporter s)) target).
  - destruct (_ <=? 0); [destruct (_ && _)|]; (split; [done|]); simpl; by rewrite lookup_insert_eq.
  - destruct (Z.eqb_spec (x_failed (s_exporter s)) 0); simpl.
    + assert (l `prefix_of` durable (s_sent s)) by (apply counted_durable; [done|done|done|lia]).
      destruct (_ && _); (split; [done|]); simpl; by rewrite lookup_insert_eq.
    + destruct (_ && _); (split; [done|]); simpl; by rewrite lookup_insert_eq.
Qed.

Definition own_move (tid : nat) (m : move) : Prop := m = Resume tid \/ m = StartFails tid.

Lemma step_others m s s' tid :
  step opts m s = Some s' -> is_Some (s_clients s !! tid) -> ~ own_move tid m ->
  s_clients s' !! tid = s_clients s !! tid.
Proof.
  intros Hs [c Hc] Hm.
  assert (forall t x, s_clients s !! t = None -> (<[t := x]> (s_clients s)) !! tid = s_clients s !! tid) as Hn.
  { intros t x Ht. apply lookup_insert_ne. congruence. }
  destruct m as [ns|t v|t|t|t|t|reply]; cbn [step] in Hs; unfold fresh_thread in Hs;
    try (destruct (s_clients s !! t) as [c'|] eqn:Hc'; try done).
  - by injection Hs as <-.
  - injection Hs as <-. unfold submit. destruct (_check_pid _ _), (encode v); simpl; by rewrite Hn.
  - injection Hs as <-. unfold flush. destruct (_check_pid _ _); simpl; by rewrite Hn.
  - injection Hs as <-. unfold close. destruct (_check_pid _ _); simpl; by rewrite Hn.
  - assert (forall x, (<[t := x]> (s_clients s)) !! tid = s_clients s !! tid) as Hi.
    { intros x. apply lookup_insert_ne. intros ->. apply Hm. by left. }
    cbn in Hs. destruct c'; cbn [resume] in Hs.
    + destruct (submit_section _ _ _ _ _ _ _) as [v x]. injection Hs as <-. destruct v; simpl; by rewrite Hi.
    + injection Hs as <-. unfold flush. destruct (_check_pid _ _); simpl; by rewrite Hi.
    + injection Hs as <-. unfold flush_step, flushed. destruct (flush_section _ _ _ _); repeat case_match; simpl; by rewrite Hi.
    + injection Hs as <-. unfold flush_step, flushed. destruct (flush_section _ _ _ _); repeat case_match; simpl; by rewrite Hi.
    + destruct (is_unstarted _); [injection Hs as <-; simpl; by rewrite Hi|].
      destruct (negb _); [|destruct (_ <=? _); [|done]]; injection Hs as <-; simpl; by rewrite Hi.
    + done.
  - cbn in Hs. apply start_fails_inv in Hs as (? & ? & ? & ? & x & _ & _ & _ & ->). simpl.
    apply lookup_insert_ne. intros ->. apply Hm. by right.
  - unfold _run in Hs. destruct (x_thread _); [|done]. by destruct (s_worker s); try done; injection Hs as <-.
Qed.

Lemma own_or_not m tid : m = Resume tid \/ m = StartFails tid \/ ~ own_move tid m.
Proof.
  unfold own_move. destruct m as [| | | |t|t|]; try (right; right; by intros [[=]|[=]]);
    destruct (decide (t = tid)) as [->|]; auto; right; right; intros [[=]|[=]]; done.
Qed.

(** A thread whose start of the worker fails is in [submit]. *)
Lemma start_fails_submits tid s s' :
  step opts (StartFails tid) s = Some s' ->
  exists encoded started deadline waited,
    s_clients s !! tid = Some (Submitting encoded started deadline waited).
Proof.
  cbn [step]. destruct (s_clients s !! tid) as [c|]; [|done]. cbn.
  intros (? & ? & ? & ? & x & -> & _)%start_fails_inv. by eexists _, _, _, _.
Qed.

Lemma barrier_step tid l m s s' :
  barrier tid l s -> good s -> move_ok m -> step opts m s = Some s' -> barrier tid l s'.
Proof.
  intros Hb Hg Hm Hs. destruct (own_or_not m tid) as [->|[->|Hne]].
  - pose proof Hb as [Hl Hc]. cbn [step] in Hs. destruct (s_clients s !! tid) as [c|] eqn:Etid; [|done].
    cbn in Hs. destruct c; try done; cbn [resume] in Hs.
    + injection Hs as <-. unfold flush. destruct (_check_pid _ _); (split; [done|]); simpl; by rewrite lookup_insert_eq.
    + injection Hs as <-. apply barrier_flush_step; [|done|].
      * apply good_set_exporter; [done|apply books_force, Hg].
      * apply prefix_length in Hl. pose proof (attempts_accepted _ Hg). simpl. lia.
    + injection Hs as <-. by apply barrier_flush_step.
    + destruct (is_unstarted _); [injection Hs as <-; (split; [done|]); simpl; by rewrite lookup_insert_eq|].
      destruct (negb _); [|destruct (_ <=? _); [|done]]; injection Hs as <-; (split; [done|]); simpl;
        by rewrite lookup_insert_eq.
  - destruct (start_fails_submits _ _ _ Hs) as (? & ? & ? & ? & E). destruct Hb as [_ Hc]. by rewrite E in Hc.
  - apply (barrier_extends _ _ _ _ Hb); [by eapply extends_step|].
    apply (step_others _ _ _ _ Hs); [|done]. destruct Hb as [_ Hb].
    destruct (s_clients s !! tid); [by eexists|done].
Qed.

Lemma barrier_call tid m s s' :
  m = CallFlush tid \/ m = CallClose tid -> step opts m s = Some s' -> barrier tid (s_accepted s) s'.
Proof.
  intros [-> | ->]; cbn [step]; unfold fresh_thread; destruct (s_clients s !! tid); try done; intros [= <-];
    unfold flush, close; destruct (_check_pid _ _); (split; [done|]); simpl; by rewrite lookup_insert_eq.
Qed.

(** C17: a durability barrier keeps its word: when [flush], or [close], returns
    without an exception, the collector has acknowledged as durable every event
    that had been accepted before the call, whatever the other threads did. *)
Theorem barrier_is_durable s m tid s1 ms s2 :
  reachable s -> m = CallFlush tid \/ m = CallClose tid -> step opts m s = Some s1 ->
  Forall move_ok ms -> steps opts ms s1 = Some s2 ->
  s_clients s2 !! tid = Some (Finished (Ok ())) -> s_accepted s `prefix_of` durable (s_sent s2).
Proof.
  intros Hr Hm Hs1 Hms Hs2 Hf. apply good_reachable in Hr.
  assert (move_ok m) by (by destruct Hm as [->| ->]).
  destruct (steps_ind (barrier tid (s_accepted s)) ms s1 s2) as [[_ Hb] _]; try done.
  - intros. by eapply barrier_step.
  - by eapply barrier_call.
  - by eapply good_step.
  - by rewrite Hf in Hb.
Qed.

(** ** Requests *)

Definition envelope (events : list pyval) : pyval :=
  PDict [("event", PStr "batch"); ("events", PList events)].

Lemma join_bytes (ts : list string) : ts <> [] ->
  text_bytes (string_join ", " ts) + 2 = foldr (fun t n => text_bytes t + 2 + n) 0 ts.
Proof.
  induction ts as [|t [|u ts] IH]; [done|intros _; simpl; lia|]. intros _. cbn [foldr] in *.
  rewrite <-IH by done. unfold text_bytes. rewrite join_length. lia.
Qed.

Lemma batch_bytes_join b : b <> [] -> batch_bytes b = text_bytes (string_join ", " b) + 66.
Proof.
  intros Hb. enough (batch_bytes b = foldr (fun t n => text_bytes t + 2 + n) 0 b + 64) as ->
    by (rewrite <-join_bytes by done; lia).
  unfold batch_bytes. clear Hb. induction b as [|t b IH]; [done|]. simpl. lia.
Qed.

Lemma encode_dumps v t : encode v = Ok t -> dumps false v = Ok t.
Proof. by intros (u & Hu & (? & _ & [= <-])%result_bind_Ok)%result_bind_Ok. Qed.

Lemma batch_events b : Forall encoded_event b ->
  exists events, Forall2 (fun v t => encode v = Ok t) events b /\ mapM loads b = Ok events
                 /\ mapM (dumps false) events = Ok b.
Proof.
  induction 1 as [|t b (v & Hk & Hv) _ (events & IH & Hl & Hd)]; [by exists []|].
  exists (v :: events). split; [by constructor|]. cbn [mapM].
  rewrite (loads_dumps false v t), (encode_dumps v t) by (done || by apply encode_dumps).
  cbn [mbind result_bind]. by rewrite Hl, Hd.
Qed.

Lemma request_fits b : Forall encoded_event b -> batch_ok opts b ->
  exists events text, Forall2 (fun v t => encode v = Ok t) events b /\ request b = Ok (envelope events)
    /\ dumps false (envelope events) = Ok text /\ text_bytes text <= 65536
    /\ (1 <= length events <= batch_size opts)%nat.
Proof.
  intros Hb [Hl Hn]. destruct (batch_events b Hb) as (events & Hev & Hload & Hdump).
  eexists events, _. split; [done|]. unfold request. rewrite Hload. split; [done|]. split; [|split].
  - unfold envelope. cbn [dumps mapM snd fst]. rewrite Hdump. cbn [mbind result_bind fmap]. reflexivity.
  - rewrite batch_bytes_join in Hn by (intros ->; simpl in Hl; lia). unfold text_bytes in *.
    cbn [string_join]. rewrite !string_length_app in *. simpl. lia.
  - by rewrite (Forall2_length _ _ _ Hev).
Qed.

(** C28: the collector sees the accepted events in their order, each once, and
    nothing after a request that failed; every request is the envelope of one to
    [batch_size] of these events and its text keeps within 64 KiB. *)
Theorem requests_in_order s : reachable s ->
  sent_texts (s_sent s) `prefix_of` s_accepted s
  /\ (forall before b e after, s_sent s = before ++ (b, Some e) :: after -> after = [])
  /\ Forall (fun c => exists events text, Forall2 (fun v t => encode v = Ok t) events c.1
       /\ request c.1 = Ok (envelope events) /\ dumps false (envelope events) = Ok text
       /\ text_bytes text <= 65536 /\ (1 <= length events <= batch_size opts)%nat) (s_sent s).
Proof.
  intros Hg%good_reachable. split; [by apply sent_accepted|]. split.
  - intros before b e after Heq. pose proof (b_sent _ _ _ _ _ (g_books _ Hg)) as Hs. rewrite Heq in Hs.
    destruct (failure _ _); simpl in Hs.
    + destruct Hs as (g & b' & Hs & Hall). destruct after as [|c after _] using rev_ind; [done|].
      rewrite app_comm_cons, app_assoc in Hs. apply app_inj_tail in Hs as [<- _].
      apply Forall_app in Hall as [_ [? _]%Forall_cons]. done.
    + apply Forall_app in Hs as [_ [? _]%Forall_cons]. done.
  - pose proof (b_batches _ _ _ _ _ (g_books _ Hg)) as Hb.
    pose proof (b_texts _ _ _ _ _ (g_books _ Hg)) as Ht.
    destruct (sent_accepted _ Hg) as [rest Hacc]. rewrite Hacc in Ht. apply Forall_app in Ht as [Ht _].
    apply Forall_fmap in Hb. unfold sent_texts in Ht.
    clear Hacc. revert Hb Ht. generalize (s_sent s) as l. induction l as [|c l IH]; [constructor|].
    rewrite fmap_cons. cbn [concat]. intros [Hc Hb]%Forall_cons [Ht1 Ht2]%Forall_app.
    constructor; [by apply request_fits|by apply IH].
Qed.

(** Also: the counters account for every attempt, and both limits hold, at any
    moment of any schedule. *)
Theorem books_balance s : reachable s ->
  let x := s_exporter s in
  attempted x = acknowledged x + x_failed x + Z.of_nat (length (x_queue x) + length (inflight (s_worker s)))
  /\ pending_bytes x = texts_bytes (fst <$> x_queue x) + texts_bytes (inflight (s_worker s))
  /\ pending x <= Z.max 0 (capacity opts) /\ pending_bytes x <= Z.max 0 (max_bytes opts)
  /\ (x_failed x = 0 -> acknowledged x + unsettled (s_worker s) = Z.of_nat (length (durable (s_sent s)))).
Proof. intros [[] _]%good_reachable. simpl. repeat split; try done. lia. Qed.

(** ** The barrier is not waited for in vain *)

(** The acknowledgement of the batch in flight. *)
Definition vouch (s : system) : result pyval :=
  Ok (PDict [("accepted", PBool true); ("event_count", PInt (Z.of_nat (length (inflight (s_worker s)))));
             ("durable", PBool true)]).

(** [n] sections of the worker, with a collector that accepts everything. *)
Fixpoint work (n : nat) (s : system) : option system :=
  match n with
  | O => Some s
  | S n => s' ← _run opts (vouch s) s; work n s'
  end.

Definition stage (w : worker) : nat :=
  match w with Emitting _ _ => 2 | Settling _ _ _ => 1 | _ => 0 end.

Definition left_to_do (s : system) : nat :=
  (3 * length (x_queue (s_exporter s)) + stage (s_worker s))%nat.

(** The stream is sound and somebody waits for [target]. *)
Record waited_for (target : Z) (s : system) : Prop := WaitedFor {
  f_good : good s;
  f_force : target <= x_force (s_exporter s);
  f_attempted : target <= attempted (s_exporter s);
  f_failed : x_failed (s_exporter s) = 0;
  f_started : s_worker s <> Unstarted;
  f_settling b started e : s_worker s <> Settling b started (Some e) }.

Lemma waited_started target s : waited_for target s -> acknowledged (s_exporter s) < target ->
  x_thread (s_exporter s) = true /\ s_worker s <> Stopped /\
  (s_worker s = Idle -> x_queue (s_exporter s) <> []).
Proof.
  intros [[[] _] ? ? ? ? ?] Hlt.
  assert (inflight (s_worker s) <> [] \/ x_queue (s_exporter s) <> []) as Hsome.
  { destruct (inflight (s_worker s)); [|by left]. destruct (x_queue (s_exporter s)); [|by right].
    simpl in *. lia. }
  split; [|split].
  - destruct (x_thread (s_exporter s)); [done|]. destruct b_unstarted as [Hw Hq]; [done|].
    rewrite Hw, Hq in Hsome. by destruct Hsome.
  - intros Hw. destruct (b_stopped Hw) as [Hq _]. rewrite Hw, Hq in Hsome. by destruct Hsome.
  - intros Hw. rewrite Hw in Hsome. by destruct Hsome.
Qed.

Lemma inflight_events s : good s -> Forall encoded_event (unsent (s_worker s)).
Proof.
  intros [[] _]. destruct b_log as (lost & Hl & _). rewrite Hl in b_texts.
  by apply Forall_app in b_texts as [_ [? _]%Forall_app].
Qed.

Lemma emit_vouched s b started : good s -> s_worker s = Emitting b started ->
  emit_error b (vouch s) = None.
Proof.
  intros Hg Hw. pose proof (inflight_events s Hg) as He. pose proof (b_inflight _ _ _ _ _ (g_books _ Hg)) as Hb.
  unfold emit_error, vouch. rewrite Hw in *. simpl in He.
  destruct (request_fits b He Hb) as (events & text & _ & -> & _). simpl. by rewrite Z.eqb_refl.
Qed.

Lemma form_batch_shorter now x :
  x_queue x <> [] ->
  let r := form_batch opts now x in
  (3 * length (x_queue r.2) + stage r.1 < 3 * length (x_queue x))%nat
  /\ (exists b, r.1 = Emitting b now) /\ x_force r.2 = x_force x /\ attempted r.2 = attempted x
  /\ x_failed r.2 = x_failed x.
Proof.
  intros Hq. unfold form_batch. destruct (take_batch _ _ _ _) as [b r] eqn:E. simpl.
  destruct (take_batch_split _ _ _ _ _ _ E) as [Hs _].
  assert (length (x_queue x) = length b + length r)%nat as Hlen.
  { rewrite <-(length_fmap fst (x_queue x)), Hs, length_app, length_fmap. done. }
  assert (0 < length b)%nat as Hb.
  { destruct (batch_size opts) as [|n]; [lia|]. destruct (x_queue x) as [|[t a] q]; [done|].
    simpl in E. destruct (take_batch n _ _ _). injection E as <- _. simpl. lia. }
  split; [simpl; lia|]. split; [by eexists|done].
Qed.

Lemma gather_forced now x target :
  target <= x_force x -> acknowledged x < target -> x_failed x = 0 ->
  gather_section opts now x = form_batch opts now x.
Proof.
  intros Hf Ha H0'. unfold gather_section.
  destruct (Z.leb_spec (x_force x) (acknowledged x + x_failed x)); [lia|]. by rewrite andb_false_r.
Qed.

Lemma waited_step target s :
  waited_for target s -> acknowledged (s_exporter s) < target ->
  exists s', _run opts (vouch s) s = Some s' /\ waited_for target s' /\ (left_to_do s' < left_to_do s)%nat
    /\ s_clients s' = s_clients s /\ s_now s' = s_now s.
Proof.
  intros Hwf Hlt. destruct (waited_started _ _ Hwf Hlt) as (Ht & Hst & Hidle).
  destruct Hwf as [Hg Hforce Hatt Hf Hstart Hset]. unfold _run. rewrite Ht.
  assert (forall r, _run opts (vouch s) s = Some r -> good r) as Hgood by (intros; by eapply good_run).
  unfold _run in Hgood. rewrite Ht in Hgood. unfold left_to_do.
  destruct (s_worker s) as [| | |b st|b st [e|]|] eqn:Hw; try done.
  - specialize (Hidle eq_refl). destruct (form_batch_shorter (s_now s) _ Hidle) as (Hm & (b & Hb) & Ef & Ea & E0).
    assert (idle_section opts (s_now s) (s_exporter s) = form_batch opts (s_now s) (s_exporter s)) as Heq.
    { unfold idle_section. destruct (x_queue (s_exporter s)) eqn:Eq; [done|]. by apply (gather_forced _ _ target). }
    rewrite Heq in *. eexists. split; [done|]. split; [|split; [simpl in *; lia|done]].
    split; simpl; rewrite ?Ef, ?Ea, ?E0; try done; [by apply Hgood|by rewrite Hb|]. intros. by rewrite Hb.
  - pose proof (b_gathering _ _ _ _ _ (g_books _ Hg) Hw) as Hq.
    destruct (form_batch_shorter (s_now s) _ Hq) as (Hm & (b & Hb) & Ef & Ea & E0).
    rewrite (gather_forced _ _ target) in * by done.
    eexists. split; [done|]. split; [|split; [simpl in *; lia|done]].
    split; simpl; rewrite ?Ef, ?Ea, ?E0; try done; [by apply Hgood|by rewrite Hb|]. intros. by rewrite Hb.
  - rewrite (emit_vouched s b st) in * by done. eexists. split; [done|]. split; [|split; [simpl; lia|done]].
    split; simpl; try done. by apply Hgood.
  - by destruct (Hset b st e).
  - eexists. split; [done|]. split; [|split; [simpl; lia|done]]. split; simpl; try done. by apply Hgood.
Qed.

(** Flushing threads wait for no more than was forced and attempted. *)
Definition forced (s : system) : Prop := forall tid target deadline c,
  s_clients s !! tid = Some (Flushing target deadline c) ->
  target <= x_force (s_exporter s) /\ target <= attempted (s_exporter s).

Definition counts (x : exporter) : Z * Z := (x_force x, attempted x).

Lemma counts_submit encoded started deadline now waited x v x' :
  submit_section opts encoded started deadline now waited x = (v, x') ->
  x_force x <= x_force x' /\ attempted x <= attempted x'.
Proof.
  unfold submit_section.
  destruct waited, (is_full opts encoded x), (refusing x) eqn:Hr, (deadline - now <=? 0);
    change (refusing (add_wait (now - started) x)) with (refusing x); rewrite ?Hr; cbn [andb negb];
    intros [= <- <-]; simpl; lia.
Qed.

Lemma counts_run now x : counts (idle_section opts now x).2 = counts x
  /\ counts (gather_section opts now x).2 = counts x.
Proof.
  assert (counts (form_batch opts now x).2 = counts x) as Hf
    by (unfold form_batch; by destruct (take_batch _ _ _ _)).
  assert (counts (gather_section opts now x).2 = counts x) as Hg
    by (unfold gather_section; by repeat case_match).
  split; [|done]. unfold idle_section. by repeat case_match.
Qed.

Lemma counts_flush_step tid target deadline c s :
  s_exporter (flush_step opts tid target deadline c s) = s_exporter s.
Proof. unfold flush_step, flushed. destruct (flush_section _ _ _ _); by repeat case_match. Qed.

Lemma counts_step m s s' : step opts m s = Some s' ->
  x_force (s_exporter s) <= x_force (s_exporter s') /\ attempted (s_exporter s) <= attempted (s_exporter s').
Proof.
  destruct m as [ns|tid v|tid|tid|tid|tid|reply]; cbn [step]; unfold fresh_thread;
    try (destruct (s_clients s !! tid) as [c|] eqn:Hc; try done).
  - by intros [= <-].
  - intros [= <-]. unfold submit. destruct (_check_pid _ _), (encode v); simpl; lia.
  - intros [= <-]. unfold flush. by destruct (_check_pid _ _).
  - intros [= <-]. unfold close. by destruct (_check_pid _ _).
  - cbn. destruct c as [encoded started deadline waited| |deadline cl|target deadline cl|o d|o]; cbn [resume].
    + destruct (submit_section _ _ _ _ _ _ _) as [v x] eqn:Ev. intros [= <-].
      apply counts_submit in Ev. by destruct v.
    + intros [= <-]. unfold flush. by destruct (_check_pid _ _).
    + intros [= <-]. rewrite counts_flush_step. simpl. lia.
    + intros [= <-]. by rewrite counts_flush_step.
    + destruct (is_unstarted _); [by intros [= <-]|].
      destruct (negb _); [|destruct (_ <=? _); [|done]]; by intros [= <-].
    + done.
  - cbn. intros (? & ? & ? & ? & x & -> & Ev & _ & ->)%start_fails_inv. by apply counts_submit in Ev.
  - unfold _run. destruct (x_thread _); [|done].
    destruct (counts_run (s_now s) (s_exporter s)) as [[= Hi1 Hi2] [= Hg1 Hg2]].
    destruct (s_worker s); try done; intros [= <-]; simpl; [lia|lia|done|by destruct error].
Qed.

Lemma forced_flush_step tid target deadline c s tid' t d c' :
  s_clients (flush_step opts tid target deadline c s) !! tid' = Some (Flushing t d c') ->
  s_clients s !! tid' = Some (Flushing t d c') \/ t = target.
Proof.
  unfold flush_step, flushed. destruct (decide (tid' = tid)) as [->|Hne].
  - destruct (flush_section _ _ _ _); [destruct (_ && _)..|]; simpl; rewrite lookup_insert_eq; naive_solver.
  - destruct (flush_section _ _ _ _); [destruct (_ && _)..|]; simpl; rewrite lookup_insert_ne by done; by left.
Qed.

Lemma forced_step m s s' : forced s -> good s -> move_ok m -> step opts m s = Some s' -> forced s'.
Proof.
  intros Hf _ _ Hs tid target deadline c Hc. destruct (counts_step _ _ _ Hs) as [H1 H2].
  assert (s_clients s !! tid = Some (Flushing target deadline c) ->
    target <= x_force (s_exporter s') /\ target <= attempted (s_exporter s')) as Hold.
  { intros E. destruct (Hf _ _ _ _ E). lia. }
  destruct m as [ns|t v|t|t|t|t|reply]; cbn [step] in Hs; unfold fresh_thread in Hs;
    try (destruct (s_clients s !! t) as [k|] eqn:Hk; try done).
  - injection Hs as <-. by apply Hold.
  - injection Hs as <-. unfold submit in *.
    destruct (_check_pid _ _), (encode v); simpl in Hc; apply lookup_insert_Some in Hc as [[_ [=]]|[_ Hc]];
      by apply Hold.
  - injection Hs as <-. unfold flush in *.
    destruct (_check_pid _ _); simpl in Hc; apply lookup_insert_Some in Hc as [[_ [=]]|[_ Hc]]; by apply Hold.
  - injection Hs as <-. unfold close in *.
    destruct (_check_pid _ _); simpl in Hc; apply lookup_insert_Some in Hc as [[_ [=]]|[_ Hc]]; by apply Hold.
  - cbn in Hs. destruct k; cbn [resume] in Hs.
    + destruct (submit_section _ _ _ _ _ _ _) as [v x]. injection Hs as <-.
      destruct v; simpl in Hc; apply lookup_insert_Some in Hc as [[_ [=]]|[_ Hc]]; by apply Hold.
    + injection Hs as <-. unfold flush in *.
      destruct (_check_pid _ _); simpl in Hc; apply lookup_insert_Some in Hc as [[_ [=]]|[_ Hc]]; by apply Hold.
    + injection Hs as <-. apply forced_flush_step in Hc as [Hc| ->]; [by apply Hold|].
      rewrite counts_flush_step. simpl. lia.
    + injection Hs as <-. apply forced_flush_step in Hc as [Hc| ->]; [by apply Hold|].
      destruct (Hf _ _ _ _ Hk). lia.
    + destruct (is_unstarted _);
        [injection Hs as <-; simpl in Hc; apply lookup_insert_Some in Hc as [[_ [=]]|[_ Hc]]; by apply Hold|].
      destruct (negb _); [|destruct (_ <=? _); [|done]]; injection Hs as <-; simpl in Hc;
        apply lookup_insert_Some in Hc as [[_ [=]]|[_ Hc]]; by apply Hold.
    + done.
  - cbn in Hs. apply start_fails_inv in Hs as (? & ? & ? & ? & x & _ & _ & _ & ->). simpl in Hc.
    apply lookup_insert_Some in Hc as [[_ [=]]|[_ Hc]]. by apply Hold.
  - assert (s_clients s' = s_clients s) as E; [|rewrite E in Hc; by apply Hold].
    unfold _run in Hs. destruct (x_thread _); [|done]. by destruct (s_worker s); try done; injection Hs as <-.
Qed.

Lemma work_waited target s : waited_for target s ->
  exists n s', (n <= left_to_do s)%nat /\ work n s = Some s' /\ waited_for target s'
    /\ target <= acknowledged (s_exporter s') /\ s_clients s' = s_clients s /\ s_now s' = s_now s.
Proof.
  remember (left_to_do s) as k eqn:Hk. revert s Hk.
  induction (lt_wf k) as [k _ IH]. intros s -> Hw.
  destruct (Z.lt_ge_cases (acknowledged (s_exporter s)) target) as [Hlt|Hge].
  - destruct (waited_step _ _ Hw Hlt) as (s1 & Hs1 & Hw1 & Hm & Hc & Hn).
    destruct (IH _ Hm s1 eq_refl Hw1) as (n & s' & Hn' & Hwork & Hw' & Ha & Hc' & Hnow).
    exists (S n), s'. split; [lia|]. cbn [work]. rewrite Hs1.
    split; [done|]. split; [done|]. split; [done|]. split; congruence.
  - exists 0%nat, s. split; [lia|done].
Qed.


(** ** Closing *)

Lemma prefix_antisym {A} (a b : list A) : a `prefix_of` b -> b `prefix_of` a -> a = b.
Proof.
  intros [k ->] [l Hl]. destruct k; [by rewrite app_nil_r|].
  apply (f_equal length) in Hl. rewrite !length_app in Hl. simpl in Hl. lia.
Qed.

(** Everything accepted is acknowledged and nothing more is accepted. *)
Definition all_durable (s : system) : Prop :=
  x_closing (s_exporter s) = true /\ s_accepted s = durable (s_sent s).

Definition closing_call (tid : nat) (s : system) : Prop :=
  match s_clients s !! tid with
  | Some Closing => True
  | Some (Entering _ c) => c = true /\ x_closing (s_exporter s) = true
  | Some (Flushing target _ c) =>
      c = true /\ x_closing (s_exporter s) = true /\ Z.of_nat (length (s_accepted s)) <= target
  | Some (Joining (Ok _) _) => all_durable s
  | Some (Finished (Ok _)) => all_durable s /\ worker_alive s = false
  | Some (Joining (Err _) _) | Some (Finished (Err _)) => True
  | _ => False
  end.

Lemma alive_step m s s' : x_closing (s_exporter s) = true -> worker_alive s = false ->
  step opts m s = Some s' -> worker_alive s' = false.
Proof.
  intros Hc Ha Hs.
  assert (x_thread (s_exporter s') = x_thread (s_exporter s) ->
          s_worker s' = s_worker s -> worker_alive s' = false) as Hsame.
  { intros E1 E2. unfold worker_alive in *. by rewrite E1, E2. }
  destruct m as [ns|t v|t|t|t|t|reply]; cbn [step] in Hs; unfold fresh_thread in Hs;
    try (destruct (s_clients s !! t) as [k|] eqn:Hk; try done).
  - injection Hs as <-. by apply Hsame.
  - injection Hs as <-. unfold submit in *. destruct (_check_pid _ _), (encode v); by apply Hsame.
  - injection Hs as <-. unfold flush in *. destruct (_check_pid _ _); by apply Hsame.
  - injection Hs as <-. unfold close in *. destruct (_check_pid _ _); by apply Hsame.
  - cbn in Hs. destruct k; cbn [resume] in Hs.
    + destruct (submit_section _ _ _ _ _ _ _) as [v x] eqn:Ev. injection Hs as <-.
      assert (x_thread x = x_thread (s_exporter s)) as Ex; [|destruct v; by apply Hsame].
      unfold submit_section in Ev. change (refusing (add_wait (s_now s - started) (s_exporter s)))
        with (refusing (s_exporter s)) in Ev.
      assert (refusing (s_exporter s) = true) as Hr by (unfold refusing; by rewrite Hc).
      rewrite Hr, andb_false_r in Ev. by injection Ev as <- <-.
    + injection Hs as <-. unfold flush in *. destruct (_check_pid _ _); by apply Hsame.
    + injection Hs as <-. unfold flush_step, flushed in *. destruct (flush_section _ _ _ _); repeat case_match; by apply Hsame.
    + injection Hs as <-. unfold flush_step, flushed in *. destruct (flush_section _ _ _ _); repeat case_match; by apply Hsame.
    + destruct (is_unstarted _); [injection Hs as <-; by apply Hsame|].
      destruct (negb _); [|destruct (_ <=? _); [|done]]; injection Hs as <-; by apply Hsame.
    + done.
  - cbn in Hs. apply start_fails_inv in Hs as (? & ? & ? & ? & x & _ & Ev & _ & ->).
    apply submit_section_closing in Ev as (_ & _ & Hr). by rewrite Hr in Hc.
  - unfold _run in Hs. unfold worker_alive in Ha. destruct (x_thread _); [|done].
    by destruct (s_worker s).
Qed.

Lemma all_durable_step m s s' : all_durable s -> good s' -> step opts m s = Some s' ->
  all_durable s' /\ s_accepted s' = s_accepted s.
Proof.
  intros [Hc Ha] Hg Hs. pose proof (extends_step _ _ _ Hs) as He.
  pose proof (durable_extends _ _ He) as Hd. destruct He as (_ & _ & Hcl & _). destruct (Hcl Hc) as [Hc' Ha'].
  split; [|done]. split; [done|]. apply prefix_antisym; [|by apply durable_accepted].
  by rewrite Ha', Ha.
Qed.

Lemma closing_flush_step tid target deadline s :
  good s -> x_closing (s_exporter s) = true -> Z.of_nat (length (s_accepted s)) <= target ->
  closing_call tid (flush_step opts tid target deadline true s).
Proof.
  intros Hg Hc Ht. unfold flush_step, flush_section, flushed, closing_call.
  destruct (Z.ltb_spec (acknowledged (s_exporter s) + x_failed (s_exporter s)) target).
  - destruct (_ <=? 0); [destruct (_ && _)|]; simpl; by rewrite lookup_insert_eq.
  - destruct (Z.eqb_spec (x_failed (s_exporter s)) 0); cbn [negb andb].
    + assert (all_durable s) as Hall.
      { split; [done|]. apply prefix_antisym; [|by apply durable_accepted].
        apply counted_durable; [done|done|done|lia]. }
      destruct (x_thread (s_exporter s)) eqn:Hth; cbn; rewrite lookup_insert_eq; [done|].
      split; [done|]. unfold worker_alive. cbn. by rewrite Hth.
    + destruct (x_thread _); cbn; by rewrite lookup_insert_eq.
Qed.

Lemma closing_step tid m s s' :
  closing_call tid s -> good s -> move_ok m -> step opts m s = Some s' -> closing_call tid s'.
Proof.
  intros Hb Hg Hm Hs. destruct (own_or_not m tid) as [->|[->|Hne]].
  - unfold closing_call in Hb. cbn [step] in Hs. destruct (s_clients s !! tid) as [c|] eqn:Etid; [|done].
    cbn in Hs. destruct c; try done; cbn [resume] in Hs.
    + injection Hs as <-. unfold flush, closing_call. destruct (_check_pid _ _); simpl; by rewrite lookup_insert_eq.
    + injection Hs as <-. destruct Hb as [-> Hc]. apply closing_flush_step; [|done|].
      * apply good_set_exporter; [done|apply books_force, Hg].
      * simpl. by apply attempts_accepted.
    + injection Hs as <-. destruct Hb as (-> & Hc & Hl). by apply closing_flush_step.
    + unfold closing_call. destruct (is_unstarted _); [injection Hs as <-; simpl; by rewrite lookup_insert_eq|].
      destruct (negb _) eqn:Hal; [|destruct (_ <=? _); [|done]]; injection Hs as <-;
        simpl; rewrite lookup_insert_eq; [|done].
      destruct outcome; [|done]. split; [done|]. by apply negb_true_iff in Hal.
  - destruct (start_fails_submits _ _ _ Hs) as (? & ? & ? & ? & E). unfold closing_call in Hb. by rewrite E in Hb.
  - pose proof (good_step _ _ _ Hg Hm Hs) as Hg'. pose proof (extends_step _ _ _ Hs) as He.
    assert (s_clients s' !! tid = s_clients s !! tid) as Heq.
    { apply (step_others _ _ _ _ Hs); [|done]. unfold closing_call in Hb.
      destruct (s_clients s !! tid); [by eexists|done]. }
    unfold closing_call in *. rewrite Heq. destruct He as (_ & _ & Hcl & _).
    destruct (s_clients s !! tid) as [[| | | |[]|[]]|]; try done.
    + destruct Hb as [? Hc]. by destruct (Hcl Hc).
    + destruct Hb as (? & Hc & Hl). destruct (Hcl Hc) as [? ->]. done.
    + by apply (all_durable_step _ _ _ Hb Hg' Hs).
    + destruct Hb as [Hb Hal]. split; [by apply (all_durable_step _ _ _ Hb Hg' Hs)|].
      eapply alive_step; [apply Hb|done|done].
Qed.

(** Also: closing is final: when [close] returns without an exception, everything
    ever accepted has been acknowledged as durable and the worker has ended; and
    whatever is called afterwards, nothing is accepted or sent any more. *)
Theorem close_is_final s tid s1 ms s2 ms' s3 :
  reachable s -> step opts (CallClose tid) s = Some s1 ->
  Forall move_ok ms -> steps opts ms s1 = Some s2 -> s_clients s2 !! tid = Some (Finished (Ok ())) ->
  Forall move_ok ms' -> steps opts ms' s2 = Some s3 ->
  s_accepted s2 = durable (s_sent s2) /\ worker_alive s2 = false
  /\ s_accepted s3 = s_accepted s2 /\ durable (s_sent s3) = s_accepted s2 /\ worker_alive s3 = false.
Proof.
  intros Hr%good_reachable Hs1 Hms Hs2 Hf Hms' Hs3.
  assert (good s1) as Hg1 by by eapply (good_step (CallClose tid)).
  assert (closing_call tid s1) as Hc1.
  { cbn [step] in Hs1. unfold fresh_thread in Hs1. destruct (s_clients s !! tid); [done|].
    injection Hs1 as <-. unfold close, closing_call. destruct (_check_pid _ _); simpl; by rewrite lookup_insert_eq. }
  destruct (steps_ind (closing_call tid) ms s1 s2) as [Hc2 Hg2]; try done.
  { intros. by eapply closing_step. }
  unfold closing_call in Hc2. rewrite Hf in Hc2. destruct Hc2 as [Hall Hal].
  split; [apply Hall|]. split; [done|].
  destruct (steps_ind (fun s => all_durable s /\ s_accepted s = s_accepted s2 /\ worker_alive s = false)
              ms' s2 s3) as [(Hall3 & Heq & Hal3) _]; try done.
  - intros m t t' (Ha & He & Hl) Hg Hm Hst. pose proof (good_step _ _ _ Hg Hm Hst) as Hg'.
    destruct (all_durable_step _ _ _ Ha Hg' Hst) as [? ->]. split; [done|]. split; [done|].
    eapply alive_step; [apply Ha|done|done].
  - split; [done|]. split; [|done]. rewrite <-Heq. symmetry. apply Hall3.
Qed.

(** Also: in a child of the process that made it the exporter refuses every
    call and stays as it is. *)
Theorem refused_after_fork s tid event :
  s_pid s <> x_pid (s_exporter s) -> s_clients s !! tid = None ->
  let refused := set_client tid (Finished (Err (RuntimeError "create a new Tracer after fork"))) s in
  step opts (CallSubmit tid event) s = Some refused /\ step opts (CallFlush tid) s = Some refused
  /\ step opts (CallClose tid) s = Some refused /\ health opts s = Err (RuntimeError "create a new Tracer after fork").
Proof.
  intros Hp Hc. cbn [step]. unfold fresh_thread, submit, flush, close, health, _check_pid. rewrite Hc.
  apply Z.eqb_neq in Hp. by rewrite Hp.
Qed.
End reachable.

(** * A run of the background exporter

    Two threads submit, one flushes and one closes: the inputs of the witnesses
    of the theorems on the exporter. *)

Definition demo_opts : options := Options 2 3 65536 20000000 10000000000.

Definition demo_event (name : string) (n : Z) : pyval :=
  PDict [("event", PStr "start"); ("name", PStr name); ("start_ns", PInt n)].

Definition accept_ack (n : Z) : result pyval :=
  Ok (PDict [("accepted", PBool true); ("event_count", PInt n); ("durable", PBool true)]).

(** Three events are queued; the worker sends two of them. *)
Definition demo_before : list move :=
  [CallSubmit 0 (demo_event "a" 1); CallSubmit 1 (demo_event "b" 2); Resume 1; Resume 0;
   Work (accept_ack 0); CallSubmit 2 (demo_event "c" 3); Resume 2].

Definition demo_flush : list move :=
  [Resume 3; Work (accept_ack 2); Work (accept_ack 0); Resume 3; Work (accept_ack 0); Tick 5;
   Work (accept_ack 1); Work (accept_ack 0); Resume 3].

Definition demo_close : list move :=
  [Resume 4; Resume 4; Work (accept_ack 0); Resume 4].

Definition demo_at (ms : list move) : option system := steps demo_opts ms (start_system 7 0).

(** The state after moves that are all possible. *)
Definition after (ms : list move) : system := default (start_system 7 0) (demo_at ms).

Lemma demo_reachable ms : Forall move_ok ms -> is_Some (demo_at ms) -> reachable demo_opts (after ms).
Proof. intros Hms [s Hs]. exists 7, 0, ms. unfold after. rewrite Hs. done. Qed.

Lemma demo_event_keyed name n : keyed (demo_event name n).
Proof.
  apply keyed_dict. split; [|by repeat constructor].
  apply (bool_decide_unpack (NoDup ["event"; "name"; "start_ns"])). by vm_compute.
Qed.

Lemma demo_moves_ok : Forall move_ok (demo_before ++ CallFlush 3 :: demo_flush ++ CallClose 4 :: demo_close).
Proof.
  cbn [demo_before demo_flush demo_close app].
  repeat (apply Forall_cons; split; [exact I || apply demo_event_keyed|]). constructor.
Qed.

Lemma requests_in_order_witness :
  reachable demo_opts (after (demo_before ++ CallFlush 3 :: demo_flush))
  /\ length (s_sent (after (demo_before ++ CallFlush 3 :: demo_flush))) = 2%nat
  /\ sent_texts (s_sent (after (demo_before ++ CallFlush 3 :: demo_flush))) `prefix_of`
       s_accepted (after (demo_before ++ CallFlush 3 :: demo_flush)).
Proof.
  assert (reachable demo_opts (after (demo_before ++ CallFlush 3 :: demo_flush))) as Hr.
  { apply demo_reachable; [|vm_compute; by eexists]. pose proof demo_moves_ok as H.
    rewrite app_comm_cons, app_assoc in H. by apply Forall_app in H as [H _]. }
  split; [done|]. split; [by vm_compute|].
  exact (proj1 (requests_in_order demo_opts ltac:(vm_compute; lia) _ Hr)).
Defined.

Lemma barrier_is_durable_witness :
  s_accepted (after demo_before) `prefix_of`
    durable (s_sent (after (demo_before ++ CallFlush 3 :: demo_flush)))
  /\ length (s_accepted (after demo_before)) = 3%nat.
Proof.
  split; [|by vm_compute].
  pose proof demo_moves_ok as H. apply Forall_app in H as [Hb H].
  apply Forall_cons in H as [_ H]. apply Forall_app in H as [Hf _].
  apply (barrier_is_durable demo_opts ltac:(vm_compute; lia) (after demo_before) (CallFlush 3) 3
           (after (demo_before ++ [CallFlush 3])) demo_flush).
  - apply demo_reachable; [done|]. vm_compute. by eexists.
  - by left.
  - by vm_compute.
  - done.
  - by vm_compute.
  - by vm_compute.
Defined.


Definition demo_closed : system := after (demo_before ++ CallFlush 3 :: demo_flush ++ CallClose 4 :: demo_close).

Lemma close_is_final_witness :
  s_accepted demo_closed = durable (s_sent demo_closed) /\ worker_alive demo_closed = false
  /\ s_accepted (default demo_closed (steps demo_opts [CallSubmit 9 (demo_event "d" 4); Resume 9] demo_closed))
     = s_accepted demo_closed.
Proof.
  pose proof demo_moves_ok as H. rewrite app_comm_cons, app_assoc in H. apply Forall_app in H as [Hb H].
  apply Forall_cons in H as [_ Hc].
  destruct (close_is_final demo_opts ltac:(vm_compute; lia) (after (demo_before ++ CallFlush 3 :: demo_flush)) 4
    (after ((demo_before ++ CallFlush 3 :: demo_flush) ++ [CallClose 4])) demo_close demo_closed
    [CallSubmit 9 (demo_event "d" 4); Resume 9]
    (default demo_closed (steps demo_opts [CallSubmit 9 (demo_event "d" 4); Resume 9] demo_closed)))
    as (H1 & H2 & H3 & _).
  - apply demo_reachable; [done|]. vm_compute. by eexists.
  - by vm_compute.
  - exact Hc.
  - by vm_compute.
  - by vm_compute.
  - repeat (apply Forall_cons; split; [exact I || apply demo_event_keyed|]). constructor.
  - by vm_compute.
  - split; [exact H1|]. split; [exact H2|exact H3].
Defined.

(** The system refuses the worker to the first caller: its event is queued, later
    calls queue more and return, nothing is ever sent, [health] shows no failed
    export, [flush] can only time out and [close] raises what [join] raises. *)
Example unstarted_worker_stalls :
  let s := after [CallSubmit 0 (demo_event "a" 1); StartFails 0; CallSubmit 1 (demo_event "b" 2); Resume 1;
                  CallFlush 2; Resume 2; Tick 10000000000; Resume 2;
                  CallClose 3; Resume 3; Resume 3; Tick 10000000000; Resume 3; Resume 3] in
  (s_clients s !! 0%nat, s_clients s !! 1%nat) =
    (Some (Finished (Err (RuntimeError "can't start new thread"))), Some (Finished (Ok ())))
  /\ (forall reply, step demo_opts (Work reply) s = None)
  /\ length (x_queue (s_exporter s)) = 2%nat /\ x_error (s_exporter s) = None
  /\ s_clients s !! 2%nat = Some (Finished (Err (TimeoutError
       "profiling durability barrier timed out; delivery remains unconfirmed")))
  /\ s_clients s !! 3%nat = Some (Finished (Err (RuntimeError "cannot join thread before it is started"))).
Proof. vm_compute. repeat split. Qed.
