(* ===== verification/Trace.v ===== *)
(** * The trace store of the monitoring plugin

    [TraceStore] of
    [src/plugins/agent-monitor/src/allox_agent_monitor/store.py]: spans are rows
    of an SQLite table in the order of their identifiers, each with its fields as
    JSON text.  A statement or a commit may fail, after any history of
    statements; the connection's context manager then puts the table back to
    what it was.  The lock makes every call of a method one step, except that a
    single event is counted in a second section, which touches counters only. *)

From Stdlib Require Import Ascii SpecFloat.
From Stdlib Require String.
From S2P Require Import Prelude Effects PyVal Ids Json.
Open Scope Z_scope.

Definition KINDS : list string := ["run"; "turn"; "llm"; "tool"; "subagent"; "phase"; "process"].
Definition PHASES : list string :=
  ["approval"; "executor_queue"; "tool_execution"; "transport"; "mcp_initialize"; "mcp_discovery";
   "mcp_call"; "server_queue"; "server_ttft"; "server_generation"].

(** ** Checks on values *)

(** [math.isfinite] of an integer that no float comes near raises. *)
Definition too_large_for_float (z : Z) : bool := 2 ^ 1024 - 2 ^ 970 <=? Z.abs z.

Definition number (value : pyval) (label : string) : result pyval :=
  let error := Err (WorkspaceError (label +:+ " must be a finite nonnegative number")) in
  match value with
  | PInt z => if too_large_for_float z then Err OverflowError else if z <? 0 then error else Ok value
  | PFloat (S754_zero _) => Ok value
  | PFloat (S754_finite false _ _) => Ok value
  | _ => error
  end.

Definition identifier (value : pyval) (label : string) : result string :=
  match value with
  | PStr s => validate_id label s
  | _ => Err (WorkspaceError (label +:+ " must be a string"))
  end.

(** [isinstance(v, str) and lo <= len(v) <= hi] *)
Definition string_between (lo hi : nat) (v : pyval) : bool :=
  match v with
  | PStr s => (lo <=? String.length s)%nat && (String.length s <=? hi)%nat
  | _ => false
  end.

(** [isinstance(v, str) and v in names] *)
Definition string_among (names : list string) (v : pyval) : bool :=
  match v with PStr s => bool_decide (s ∈ names) | _ => false end.

(** [type(v) is int and v >= 0] *)
Definition nonnegative_int (v : pyval) : bool := match v with PInt z => 0 <=? z | _ => false end.

(** ** The table *)

Definition key : Type := string * string * string * string.

Record store := Store {
  spans_table : list (key * string);
  accepted : Z;
  rejected : Z;
  collector_ns : Z;
  batching : bool;
  transactions : Z }.

Definition with_table (t : list (key * string)) (s : store) : store :=
  Store t (accepted s) (rejected s) (collector_ns s) (batching s) (transactions s).
Definition with_accepted (n : Z) (s : store) : store :=
  Store (spans_table s) n (rejected s) (collector_ns s) (batching s) (transactions s).
Definition add_rejected (n : Z) (s : store) : store :=
  Store (spans_table s) (accepted s) (rejected s + n) (collector_ns s) (batching s) (transactions s).
Definition add_collector (n : Z) (s : store) : store :=
  Store (spans_table s) (accepted s) (rejected s) (collector_ns s + n) (batching s) (transactions s).
Definition with_batching (b : bool) (s : store) : store :=
  Store (spans_table s) (accepted s) (rejected s) (collector_ns s) b (transactions s).
Definition add_transaction (s : store) : store :=
  Store (spans_table s) (accepted s) (rejected s) (collector_ns s) (batching s) (transactions s + 1).

(** The row of a key, the number of rows of a trace, the rows of a Session. *)
Fixpoint find_row (k : key) (t : list (key * string)) : option string :=
  match t with
  | [] => None
  | (k', payload) :: t => if bool_decide (k = k') then Some payload else find_row k t
  end.

Definition same_trace (k k' : key) : bool := bool_decide (k.1 = k'.1).

Definition count_rows (k : key) (t : list (key * string)) : nat :=
  length (filter (fun r => same_trace k r.1 = true) t).

Definition update_row (k : key) (payload : string) (t : list (key * string)) : list (key * string) :=
  map (fun r => if bool_decide (k = r.1) then (r.1, payload) else r) t.

Inductive dbcall := Select (k : key) | Count (k : key) | Insert (k : key) (payload : string)
  | Update (k : key) (payload : string) | Query (agent session : string) | Commit | Clock.

(** How the database answers a statement, and the clock. *)
Class Sqlite := {
  sql : list dbcall -> dbcall -> reply unit;
  perf_counter_ns : list dbcall -> Z }.

Section trace.
Context `{FloatText} `{Sqlite} (max_spans : Z).

Definition T (A : Type) : Type := P dbcall store A.

Definition execute (c : dbcall) : T unit := perform c (fun l => sql l c).
Definition clock : T Z := perform Clock (fun l => Done (perf_counter_ns l)).

Definition select_payload (k : key) : T (option string) :=
  execute (Select k);; read (fun s => find_row k (spans_table s)).

Definition count_trace (k : key) : T Z :=
  execute (Count k);; read (fun s => Z.of_nat (count_rows k (spans_table s))).

(** The primary key refuses a second row. *)
Definition insert_row (k : key) (payload : string) : T unit :=
  execute (Insert k payload);;
  found ← read (fun s => find_row k (spans_table s));
  throw_when (bool_decide (is_Some found)) DatabaseError;;
  modify (fun s => with_table (spans_table s ++ [(k, payload)]) s).

Definition update_payload (k : key) (payload : string) : T unit :=
  execute (Update k payload);;
  modify (fun s => with_table (update_row k payload (spans_table s)) s).

(** [with self._db: m]: commits, or rolls back whatever was raised. *)
Definition transaction {A} (m : T A) : T A :=
  table ← read spans_table;
  unwinding (a ← m; execute Commit;; mret a) (modify (with_table table)).

(** A row as a dictionary. *)
Definition load_row (payload : string) : result dict :=
  v ← loads payload;
  match v with PDict d => Ok d | _ => Err TypeError end.

(** ** Starting a span *)

(** One of the parents and links of a new span. *)
Definition check_related (k : key) (parent related : pyval) : T unit :=
  id ← lift (identifier related "related span");
  found ← select_payload (k.1, id);
  match found with
  | None => throw (WorkspaceError "parent/link must already exist in this Session trace")
  | Some payload =>
      if py_eqb related parent then
        row ← lift (load_row payload);
        status ← lift (dindex "status" row);
        throw_when (negb (py_eqb status (PStr "running")))
          (WorkspaceError "parent span has already ended")
      else mret ()
  end.

Definition optional_text (event : dict) (name : string) : T unit :=
  let value := dgetn name event in
  throw_when (negb (is_none value) && negb (string_between 0 256 value))
    (WorkspaceError ("invalid " +:+ name)).

Definition copied_fields : list string :=
  ["trace_id"; "span_id"; "parent_id"; "kind"; "name"; "start_ns"; "clock_id"; "turn_id";
   "parallel_group"; "loop_id"; "iteration"; "model"; "input"].

Definition start_row (k : key) (event : dict) (links semantic : pyval) : dict :=
  [("agent_id", PStr k.1.1.1); ("session_id", PStr k.1.1.2)]
  ++ map (fun name => (name, dgetn name event)) copied_fields
  ++ [("links", links); ("semantic_path", semantic); ("status", PStr "running"); ("end_ns", PNone);
      ("duration_ns", PNone); ("metrics", PDict []); ("source", PStr "framework-sdk")].

Definition list_of (v : pyval) : list pyval := match v with PList l => l | _ => [] end.

Definition _validate_start (k : key) (event : dict) : T dict :=
  throw_when (negb (string_among KINDS (dgetn "kind" event))) (WorkspaceError "invalid span kind");;
  throw_when (negb (string_between 1 256 (dgetn "name" event))) (WorkspaceError "invalid span name");;
  throw_when (negb (nonnegative_int (dgetn "start_ns" event)))
    (WorkspaceError "invalid monotonic start time");;
  lift (identifier (dgetn "clock_id" event) "clock");;
  let semantic := dget_or "semantic_path" (PList []) event in
  throw_when (negb (is_list semantic) || (32 <? length (list_of semantic))%nat
              || negb (forallb (string_between 1 128) (list_of semantic)))
    (WorkspaceError "invalid semantic_path");;
  let parent := dgetn "parent_id" event in
  (if is_none parent then mret () else lift (identifier parent "parent");; mret ());;
  let links := dget_or "links" (PList []) event in
  throw_when (negb (is_list links) || (128 <? length (list_of links))%nat)
    (WorkspaceError "invalid causal links");;
  iterate (check_related k parent) ((if py_truthy parent then [parent] else []) ++ list_of links);;
  iterate (optional_text event) ["turn_id"; "parallel_group"; "loop_id"; "model"];;
  let iteration := dgetn "iteration" event in
  throw_when (negb (is_none iteration) && negb (nonnegative_int iteration))
    (WorkspaceError "invalid iteration");;
  throw_when (py_eqb (dgetn "kind" event) (PStr "phase") && negb (string_among PHASES (dgetn "name" event)))
    (WorkspaceError "unknown timing phase");;
  mret (start_row k event links semantic).

(** The branch of [_ingest] for a start. *)
Definition start_span (k : key) (event : dict) (source : string) (run : pyval) (found : option string)
    : T unit :=
  throw_when (bool_decide (is_Some found)) (WorkspaceError "duplicate span start");;
  count ← count_trace k;
  throw_when (max_spans <=? count) (WorkspaceError "trace span limit exceeded");;
  row ← _validate_start k event;
  payload ← lift (dumps true (PDict (dset "process_run_id" run (dset "source" (PStr source) row))));
  insert_row k payload.

(** ** Ending a span *)

Definition ended_before (ended start : pyval) : bool :=
  match ended, start with
  | PInt e, PInt s => e <? s
  | _, _ => true
  end.

Fixpoint check_metrics (metrics : dict) : result unit :=
  match metrics with
  | [] => Ok ()
  | (name, value) :: metrics =>
      raise_if (str_eqb name EmptyString) (WorkspaceError "invalid metric name");;
      number value name;;
      check_metrics metrics
  end.

(** [ended - row["start_ns"]], both integers by then. *)
Definition minus (ended start : pyval) : pyval :=
  match ended, start with PInt e, PInt s => PInt (e - s) | _, _ => PNone end.

Definition end_row (row event : dict) (ended start metrics : pyval) : dict :=
  dset "metrics" metrics
    (dset "error_type" (dgetn "error_type" event)
      (dset "result" (dgetn "result" event)
        (dset "status" (dgetn "status" event)
          (dset "duration_ns" (minus ended start) (dset "end_ns" ended row))))).

(** What an end must agree on with the row of its span. *)
Definition check_end (row event : dict) (source : string) (run : pyval) : result dict :=
  status ← dindex "status" row;
  raise_if (negb (py_eqb status (PStr "running"))) (WorkspaceError "duplicate span end");;
  row_source ← dindex "source" row;
  raise_if (negb (py_eqb row_source (PStr source))) (WorkspaceError "span source mismatch");;
  raise_if (str_eqb source "session-sdk" && negb (py_eqb (dgetn "process_run_id" row) run))
    (WorkspaceError "span process run mismatch");;
  let ended := dgetn "end_ns" event in
  start ← dindex "start_ns" row;
  raise_if (ended_before ended start) (WorkspaceError "invalid monotonic end time");;
  clock ← dindex "clock_id" row;
  raise_if (negb (py_eqb (dgetn "clock_id" event) clock)) (WorkspaceError "span clocks differ");;
  raise_if (negb (string_among ["ok"; "error"; "cancelled"] (dgetn "status" event)))
    (WorkspaceError "invalid span status");;
  match dget_or "metrics" (PDict []) event with
  | PDict metrics => check_metrics metrics;; Ok (end_row row event ended start (PDict metrics))
  | _ => Err (WorkspaceError "metrics must be an object")
  end.

(** The branch of [_ingest] for an end. *)
Definition end_span (k : key) (event : dict) (source : string) (run : pyval) (found : option string)
    : T unit :=
  match found with
  | None => throw (WorkspaceError "span end has no start")
  | Some payload =>
      row ← lift (load_row payload);
      row ← lift (check_end row event source run);
      payload ← lift (dumps true (PDict row));
      update_payload k payload
  end.

(** ** Events *)

(** What [_ingest] checks before it looks at the table. *)
Definition check_event (agent session : pyval) (event : pyval) : result (key * dict) :=
  a ← identifier agent "agent";
  s ← identifier session "session";
  match event with
  | PDict d =>
      match dumps false event with
      | Err _ => Err (WorkspaceError "event must contain finite JSON data")
      | Ok encoded =>
          raise_if (65536 <? Z.of_nat (String.length encoded)) (WorkspaceError "event exceeds 64 KiB");;
          trace ← identifier (dgetn "trace_id" d) "trace";
          span ← identifier (dgetn "span_id" d) "span";
          Ok ((a, s, trace, span), d)
      end
  | _ => Err (WorkspaceError "event must be an object")
  end.

Definition apply_event (k : key) (event : dict) (source : string) (run : pyval) : T unit :=
  found ← select_payload k;
  if py_eqb (dgetn "event" event) (PStr "start") then start_span k event source run found
  else if py_eqb (dgetn "event" event) (PStr "end") then end_span k event source run found
  else throw (WorkspaceError "event must be start or end").

Definition _ingest (agent session event : pyval) (source : string) (run : pyval) : T dict :=
  checked ← lift (check_event agent session event);
  let '(k, d) := checked : key * dict in
  in_batch ← read batching;
  (if (in_batch : bool) then apply_event k d source run
   else transaction (apply_event k d source run));;
  modify (fun s => with_accepted (accepted s + 1) s);;
  modify (fun s => if batching s then s else add_transaction s);;
  mret [("accepted", PBool true); ("trace_id", dgetn "trace_id" d); ("span_id", dgetn "span_id" d)].

(** [any(not isinstance(e, dict) or e.get("event") not in {"start", "end"} for e in events)] *)
Fixpoint some_invalid (events : list pyval) : result bool :=
  match events with
  | [] => Ok false
  | PDict d :: events =>
      known ← in_set (dgetn "event" d) [PStr "start"; PStr "end"];
      if (known : bool) then some_invalid events else Ok true
  | _ :: _ => Ok true
  end.

Definition check_batch (envelope : dict) : result (list pyval) :=
  let events := dgetn "events" envelope in
  raise_if (negb ((length envelope =? 2)%nat && dhas "event" envelope && dhas "events" envelope)
            || negb (is_list events)
            || negb ((1 <=? length (list_of events))%nat && (length (list_of events) <=? 64)%nat))
    (WorkspaceError "batch requires 1..64 events");;
  match dumps false (PDict envelope) with
  | Err _ => Err (WorkspaceError "batch must contain finite JSON data")
  | Ok encoded =>
      raise_if (65536 <? Z.of_nat (String.length encoded)) (WorkspaceError "batch exceeds 64 KiB");;
      invalid ← some_invalid (list_of events);
      raise_if (invalid : bool) (WorkspaceError "batch contains an invalid event");;
      Ok (list_of events)
  end.

Definition ingest_batch (agent session : pyval) (envelope : dict) (source : string) (run : pyval)
    : T dict :=
  started ← clock;
  events ← lift (check_batch envelope);
  let n := Z.of_nat (length events) in
  before ← read accepted;
  finally
    (catch
       (modify (with_batching true);;
        transaction (iterate (fun event => _ingest agent session event source run;; mret ()) events);;
        modify add_transaction;;
        mret [("accepted", PBool true); ("event_count", PInt n); ("durable", PBool true)])
       (fun e => modify (with_accepted before);; modify (add_rejected n);; throw e))
    (modify (with_batching false);;
     now ← clock;
     modify (add_collector (now - started))).

Definition ingest (agent session event : pyval) (source : string) (run : pyval) : T dict :=
  let single :=
    started ← clock;
    finally
      (catch (_ingest agent session event source run)
         (fun e => modify (add_rejected 1);; throw e))
      (now ← clock; modify (add_collector (now - started))) in
  match event with
  | PDict d =>
      if py_eqb (dgetn "event" d) (PStr "batch") then ingest_batch agent session d source run else single
  | _ => single
  end.

(** ** Queries *)

Definition of_session (agent session : string) (trace : option string) (r : key * string) : bool :=
  bool_decide (r.1.1.1 = (agent, session))
  && match trace with Some t => bool_decide (r.1.1.2 = t) | None => true end.

Definition spans (agent session : pyval) (trace : pyval) : T (list dict) :=
  a ← lift (identifier agent "agent");
  s ← lift (identifier session "session");
  t ← (if is_none trace then mret None
       else t ← lift (identifier trace "trace"); mret (Some t));
  execute (Query a s);;
  table ← read spans_table;
  rows ← lift (mapM (fun r => load_row r.2)
    (take (Z.to_nat (max_spans + 1)) (filter (fun r => of_session a s t r = true) table)));
  throw_when (max_spans <? Z.of_nat (length rows))
    (WorkspaceError "query exceeds span limit; select one trace");;
  mret rows.
End trace.
