(* ===== verification/TraceSteps.v ===== *)
(** * What an event does to the table

    The trace store without the database's failures: a function from tables to
    tables for every event.  The store implements it: a call that returns did
    what the function does, event by event, and a call that does not return left
    the table as it was. *)

From Stdlib Require Import Ascii.
From Stdlib Require String.
From S2P Require Import Prelude Effects PyVal Ids Json Trace.
Open Scope Z_scope.

Notation table := (list (key * string)).

Section pure.
Context `{FloatText} (max_spans : Z).

Definition related_ok (k : key) (parent related : pyval) (t : table) : result unit :=
  id ← identifier related "related span";
  found ← Ok (find_row (k.1, id) t);
  match found with
  | None => Err (WorkspaceError "parent/link must already exist in this Session trace")
  | Some payload =>
      if py_eqb related parent then
        row ← load_row payload;
        status ← dindex "status" row;
        raise_if (negb (py_eqb status (PStr "running"))) (WorkspaceError "parent span has already ended")
      else Ok ()
  end.

Fixpoint each {A} (f : A -> result unit) (l : list A) : result unit :=
  match l with [] => Ok () | x :: l => f x;; each f l end.

Definition text_ok (event : dict) (name : string) : result unit :=
  raise_if (negb (is_none (dgetn name event)) && negb (string_between 0 256 (dgetn name event)))
    (WorkspaceError ("invalid " +:+ name)).

Definition start_ok (k : key) (event : dict) (t : table) : result dict :=
  raise_if (negb (string_among KINDS (dgetn "kind" event))) (WorkspaceError "invalid span kind");;
  raise_if (negb (string_between 1 256 (dgetn "name" event))) (WorkspaceError "invalid span name");;
  raise_if (negb (nonnegative_int (dgetn "start_ns" event)))
    (WorkspaceError "invalid monotonic start time");;
  identifier (dgetn "clock_id" event) "clock";;
  let semantic := dget_or "semantic_path" (PList []) event in
  raise_if (negb (is_list semantic) || (32 <? length (list_of semantic))%nat
              || negb (forallb (string_between 1 128) (list_of semantic)))
    (WorkspaceError "invalid semantic_path");;
  let parent := dgetn "parent_id" event in
  (if is_none parent then Ok () else identifier parent "parent";; Ok ());;
  let links := dget_or "links" (PList []) event in
  raise_if (negb (is_list links) || (128 <? length (list_of links))%nat)
    (WorkspaceError "invalid causal links");;
  each (fun related => related_ok k parent related t)
    ((if py_truthy parent then [parent] else []) ++ list_of links);;
  each (text_ok event) ["turn_id"; "parallel_group"; "loop_id"; "model"];;
  let iteration := dgetn "iteration" event in
  raise_if (negb (is_none iteration) && negb (nonnegative_int iteration))
    (WorkspaceError "invalid iteration");;
  raise_if (py_eqb (dgetn "kind" event) (PStr "phase") && negb (string_among PHASES (dgetn "name" event)))
    (WorkspaceError "unknown timing phase");;
  Ok (start_row k event links semantic).

Definition start_table (k : key) (event : dict) (source : string) (run : pyval) (t : table) : result table :=
  found ← Ok (find_row k t);
  raise_if (bool_decide (is_Some found)) (WorkspaceError "duplicate span start");;
  count ← Ok (Z.of_nat (count_rows k t));
  raise_if (max_spans <=? count) (WorkspaceError "trace span limit exceeded");;
  row ← start_ok k event t;
  payload ← dumps true (PDict (dset "process_run_id" run (dset "source" (PStr source) row)));
  Ok (t ++ [(k, payload)]).

Definition end_table (k : key) (event : dict) (source : string) (run : pyval) (t : table) : result table :=
  found ← Ok (find_row k t);
  match found with
  | None => Err (WorkspaceError "span end has no start")
  | Some payload =>
      row ← load_row payload;
      row ← check_end row event source run;
      payload ← dumps true (PDict row);
      Ok (update_row k payload t)
  end.

Definition event_table (k : key) (event : dict) (source : string) (run : pyval) (t : table) : result table :=
  if py_eqb (dgetn "event" event) (PStr "start") then start_table k event source run t
  else if py_eqb (dgetn "event" event) (PStr "end") then end_table k event source run t
  else Err (WorkspaceError "event must be start or end").

(** Events one after the other. *)
Fixpoint events_table (agent session : pyval) (source : string) (run : pyval) (events : list pyval)
    (t : table) : result table :=
  match events with
  | [] => Ok t
  | event :: events =>
      checked ← check_event agent session event;
      t ← event_table checked.1 checked.2 source run t;
      events_table agent session source run events t
  end.

(** The events of a call of [ingest]. *)
Definition is_batch (event : pyval) : option dict :=
  match event with
  | PDict d => if py_eqb (dgetn "event" d) (PStr "batch") then Some d else None
  | _ => None
  end.

Definition events_of (event : pyval) : list pyval :=
  match is_batch event with Some d => list_of (dgetn "events" d) | None => [event] end.
End pure.

Section steps.
Context `{FloatText} `{Sqlite} (max_spans : Z).

(** What the database may raise. *)
Definition sql_raises (e : exn) : Prop := exists h c, sql h c = Raised e.

(** An exception that is not an [Exception], such as [KeyboardInterrupt]. *)
Definition sql_stops : Prop := exists h c, sql h c = Interrupted.

(** [m] leaves the store alone and computes [f] of the table, or the database
    fails. *)
Definition asks {A} (m : T A) (f : table -> result A) : Prop := forall s,
  ewp m (fun r s' => obj s' = obj s /\
    match r with
    | Done a => f (spans_table (obj s)) = Ok a
    | Raised e => f (spans_table (obj s)) = Err e \/ sql_raises e
    | Interrupted => sql_stops
    end) s.

Lemma asks_ret {A} (a : A) : asks (mret a) (fun _ => Ok a).
Proof. intros s. by apply ewp_ret. Qed.

Lemma asks_throw {A} e : asks (throw e : T A) (fun _ => Err e).
Proof. intros s. apply ewp_throw. split; [done|]. by left. Qed.

Lemma asks_lift {A} (r : result A) : asks (lift r) (fun _ => r).
Proof. intros s. apply ewp_lift. destruct r; split; try done. by left. Qed.

Lemma asks_throw_when b e : asks (throw_when b e) (fun _ => raise_if b e).
Proof. intros s. apply ewp_throw_when; intros ->; (split; [done|]); [by left|done]. Qed.

Lemma asks_bind {A B} (m : T A) (g : A -> T B) f h :
  asks m f -> (forall a, asks (g a) (h a)) -> asks (m ≫= g) (fun t => a ← f t; h a t).
Proof.
  intros Hm Hg s. apply ewp_bind. eapply ewp_mono; [apply Hm|]. intros [a|e|] s' [Ho Hf].
  - eapply ewp_mono; [apply Hg|]. rewrite Ho, Hf. by intros r s'' [-> ?].
  - split; [done|]. destruct Hf as [Hf|]; [left; by rewrite Hf|by right].
  - done.
Qed.

Lemma asks_iterate {A} (f : A -> T unit) (g : A -> table -> result unit) l :
  (forall x, asks (f x) (g x)) -> asks (iterate f l) (fun t => each (fun x => g x t) l).
Proof.
  intros Hf. induction l as [|x l IH]; [apply asks_ret|]. simpl.
  apply (asks_bind _ _ (g x) (fun _ t => each (fun x => g x t) l)); [done|]. by intros [].
Qed.

Lemma asks_select k : asks (select_payload k) (fun t => Ok (find_row k t)).
Proof.
  intros s. unfold select_payload, execute. apply ewp_bind. apply ewp_perform. intros [[]|e|] Hr.
  - by apply ewp_read.
  - split; [done|]. right. by eexists _, _.
  - split; [done|]. by eexists _, _.
Qed.

Lemma asks_count k : asks (count_trace k) (fun t => Ok (Z.of_nat (count_rows k t))).
Proof.
  intros s. unfold count_trace, execute. apply ewp_bind. apply ewp_perform. intros [[]|e|] Hr.
  - by apply ewp_read.
  - split; [done|]. right. by eexists _, _.
  - split; [done|]. by eexists _, _.
Qed.


Lemma asks_related k parent related : asks (check_related k parent related) (related_ok k parent related).
Proof.
  unfold check_related, related_ok. apply asks_bind; [apply asks_lift|intros id].
  apply asks_bind; [apply asks_select|intros [payload|]]; [|apply asks_throw].
  destruct (py_eqb related parent); [|apply asks_ret].
  apply asks_bind; [apply asks_lift|intros row].
  apply asks_bind; [apply asks_lift|intros status]. apply asks_throw_when.
Qed.

Lemma asks_start k event : asks (_validate_start k event) (start_ok k event).
Proof.
  unfold _validate_start, start_ok.
  do 3 (apply asks_bind; [apply asks_throw_when|intros []]).
  apply asks_bind; [apply asks_lift|intros clock].
  apply asks_bind; [apply asks_throw_when|intros []].
  apply asks_bind; [|intros []].
  { destruct (is_none _); [apply asks_ret|]. apply asks_bind; [apply asks_lift|intros ?]. apply asks_ret. }
  apply asks_bind; [apply asks_throw_when|intros []].
  apply asks_bind; [apply asks_iterate; intros ?; apply asks_related|intros []].
  apply asks_bind; [|intros []].
  { apply (asks_iterate _ (fun name _ => text_ok event name)). intros name. apply asks_throw_when. }
  do 2 (apply asks_bind; [apply asks_throw_when|intros []]). apply asks_ret.
Qed.

(** [m] changes the table as [f] says, or leaves it alone. *)
Definition changes (m : T unit) (f : table -> result table) : Prop := forall s,
  ewp m (fun r s' =>
    match r with
    | Done _ => exists t, f (spans_table (obj s)) = Ok t /\ obj s' = with_table t (obj s)
    | Raised e => obj s' = obj s /\ (f (spans_table (obj s)) = Err e \/ sql_raises e)
    | Interrupted => obj s' = obj s /\ sql_stops
    end) s.

Lemma changes_asks {A} (m : T A) (g : A -> T unit) f h :
  asks m f -> (forall a, changes (g a) (h a)) -> changes (m ≫= g) (fun t => a ← f t; h a t).
Proof.
  intros Hm Hg s. apply ewp_bind. eapply ewp_mono; [apply Hm|]. intros [a|e|] s' [Ho Hf].
  - eapply ewp_mono; [apply Hg|]. rewrite Ho, Hf. by intros r s''.
  - split; [done|]. destruct Hf as [Hf|]; [left; by rewrite Hf|by right].
  - done.
Qed.

Lemma changes_throw e : changes (throw e) (fun _ => Err e).
Proof. intros s. apply ewp_throw. split; [done|]. by left. Qed.

Lemma changes_update k payload : changes (update_payload k payload) (fun t => Ok (update_row k payload t)).
Proof.
  intros s. unfold update_payload, execute. apply ewp_bind, ewp_perform. intros [[]|e|] Hr.
  - apply ewp_modify. by eexists.
  - split; [done|]. right. by eexists _, _.
  - split; [done|]. by eexists _, _.
Qed.

(** The row is not there: the primary key has nothing to refuse. *)
Lemma changes_insert k payload s : find_row k (spans_table (obj s)) = None ->
  ewp (insert_row k payload) (fun r s' =>
    match r with
    | Done _ => obj s' = with_table (spans_table (obj s) ++ [(k, payload)]) (obj s)
    | Raised e => obj s' = obj s /\ sql_raises e
    | Interrupted => obj s' = obj s /\ sql_stops
    end) s.
Proof.
  intros Hk. unfold insert_row, execute. apply ewp_bind, ewp_perform. intros [[]|e|] Hr.
  - apply ewp_bind, ewp_read, ewp_bind, ewp_throw_when; cbn; rewrite Hk; [done|]. intros _. by apply ewp_modify.
  - split; [done|]. by eexists _, _.
  - split; [done|]. by eexists _, _.
Qed.

Lemma changes_start k event source run s :
  ewp (start_span max_spans k event source run (find_row k (spans_table (obj s)))) (fun r s' =>
    match r with
    | Done _ => exists t, start_table max_spans k event source run (spans_table (obj s)) = Ok t
                          /\ obj s' = with_table t (obj s)
    | Raised e => obj s' = obj s /\
        (start_table max_spans k event source run (spans_table (obj s)) = Err e \/ sql_raises e)
    | Interrupted => obj s' = obj s /\ sql_stops
    end) s.
Proof.
  unfold start_span, start_table. cbn [mbind result_bind].
  destruct (find_row k (spans_table (obj s))) eqn:Hk.
  { apply ewp_bind, ewp_throw_when; [|done]. intros _. by split; [|left]. }
  apply ewp_bind, ewp_throw_when; [done|]. intros _. cbn [raise_if bool_decide mbind result_bind].
  apply ewp_bind. eapply ewp_mono; [apply asks_count|]. intros [n|e|] s1 [Ho Hn]; [|by split; [|right; destruct Hn]|done].
  injection Hn as <-. apply ewp_bind, ewp_throw_when; intros E; rewrite E; [by split; [|left]|].
  cbn [raise_if mbind result_bind].
  apply ewp_bind. eapply ewp_mono; [apply asks_start|]. rewrite Ho.
  intros [row|e|] s2 [Ho2 Hrow];
    [|split; [congruence|]; destruct Hrow as [->|]; [by left|by right]|split; [congruence|done]].
  rewrite Hrow. cbn [mbind result_bind]. apply ewp_bind, ewp_lift.
  destruct (dumps _ _) as [payload|e]; [|split; [congruence|by left]]. cbn [mbind result_bind].
  eapply ewp_mono; [apply changes_insert; congruence|].
  intros [[]|e|] s3; rewrite Ho2, ?Ho.
  - intros ->. by eexists.
  - intros [-> ?]. split; [congruence|by right].
  - intros [-> ?]. split; [congruence|done].
Qed.

Lemma changes_event k event source run :
  changes (apply_event max_spans k event source run) (event_table max_spans k event source run).
Proof.
  intros s. unfold apply_event. apply ewp_bind. eapply ewp_mono; [apply asks_select|].
  intros [found|e|] s1 [Ho Hf]; [|by destruct Hf; [|split; [|right]]|done]. injection Hf as <-.
  unfold event_table. rewrite <-Ho. destruct (py_eqb _ (PStr "start")); [apply changes_start|].
  destruct (py_eqb _ (PStr "end")); [|by apply changes_throw].
  unfold end_span, end_table. cbn [mbind result_bind].
  destruct (find_row k (spans_table (obj s1))) as [payload|]; [|by apply changes_throw].
  revert s1 Ho. intros s1 _.
  apply (changes_asks (lift (load_row payload)) _ (fun _ => load_row payload)
    (fun row t => row ← check_end row event source run; payload ← dumps true (PDict row);
                  Ok (update_row k payload t))); [apply asks_lift|]. intros row.
  apply (changes_asks _ _ (fun _ => _) (fun row t => payload ← dumps true (PDict row);
                  Ok (update_row k payload t))); [apply asks_lift|]. intros row'.
  apply changes_asks; [apply asks_lift|]. intros payload'. apply changes_update.
Qed.

(** ** Transactions and calls *)

Lemma with_table_same o : with_table (spans_table o) o = o.
Proof. by destruct o. Qed.

Lemma with_table_back t o : with_table (spans_table o) (with_table t o) = o.
Proof. by destruct o. Qed.

Lemma transaction_spec m f : changes m f -> forall s,
  ewp (transaction m) (fun r s' =>
    match r with
    | Done _ => exists t, f (spans_table (obj s)) = Ok t /\ obj s' = with_table t (obj s)
    | Raised e => obj s' = obj s /\ (f (spans_table (obj s)) = Err e \/ sql_raises e)
    | Interrupted => obj s' = obj s /\ sql_stops
    end) s.
Proof.
  intros Hm s. unfold transaction, execute. apply ewp_bind, ewp_read, ewp_unwinding, ewp_bind.
  eapply ewp_mono; [apply Hm|]. intros [[]|e|] s1.
  - intros (t & Hf & Ho). apply ewp_bind, ewp_perform. intros [[]|e|] Hr.
    + apply ewp_ret. by exists t.
    + apply ewp_modify. cbn. rewrite Ho. split; [apply with_table_back|]. right. by eexists _, _.
    + apply ewp_modify. cbn. rewrite Ho. split; [apply with_table_back|]. by eexists _, _.
  - intros [Ho He]. apply ewp_modify. cbn. rewrite Ho. by split; [apply with_table_same|].
  - intros [Ho He]. apply ewp_modify. cbn. rewrite Ho. by split; [apply with_table_same|].
Qed.

(** One event is in the table and counted. *)
Definition counted (t : table) (o : store) : store :=
  Store t (accepted o + 1) (rejected o) (collector_ns o) (batching o)
    (if batching o then transactions o else transactions o + 1).

Lemma _ingest_spec agent session event source run s :
  ewp (_ingest max_spans agent session event source run) (fun r s' =>
    match r with
    | Done _ => exists t, events_table max_spans agent session source run [event] (spans_table (obj s)) = Ok t
                          /\ obj s' = counted t (obj s)
    | Raised e => obj s' = obj s /\
        (events_table max_spans agent session source run [event] (spans_table (obj s)) = Err e \/ sql_raises e)
    | Interrupted => obj s' = obj s /\ sql_stops
    end) s.
Proof.
  unfold _ingest. cbn [events_table]. apply ewp_bind, ewp_lift.
  destruct (check_event agent session event) as [[k d]|e]; [|by split; [|left]].
  cbn [mbind result_bind fst snd]. apply ewp_bind, ewp_read, ewp_bind.
  assert (ewp (if batching (obj s) then apply_event max_spans k d source run
               else transaction (apply_event max_spans k d source run)) (fun r s' =>
    match r with
    | Done _ => exists t, event_table max_spans k d source run (spans_table (obj s)) = Ok t
                          /\ obj s' = with_table t (obj s)
    | Raised e => obj s' = obj s /\ (event_table max_spans k d source run (spans_table (obj s)) = Err e
                                   \/ sql_raises e)
    | Interrupted => obj s' = obj s /\ sql_stops
    end) s) as Hev.
  { destruct (batching (obj s)); [apply changes_event|apply transaction_spec, changes_event]. }
  eapply ewp_mono; [exact Hev|]. intros [[]|e|] s1;
    [|by intros [? [He|]]; (split; [done|]); [left; rewrite He|right]|done].
  intros (t & Ht & Ho). rewrite Ht. cbn [mbind result_bind].
  apply ewp_bind, ewp_modify, ewp_bind, ewp_modify, ewp_ret. exists t. split; [done|].
  cbn. rewrite Ho. clear. by destruct (obj s) as [? ? ? ? [] ?].
Qed.

Lemma events_table_app agent session source run l1 l2 t :
  events_table max_spans agent session source run (l1 ++ l2) t =
  t' ← events_table max_spans agent session source run l1 t;
  events_table max_spans agent session source run l2 t'.
Proof.
  revert t. induction l1 as [|e l1 IH]; intros t; [done|]. cbn [app events_table].
  destruct (check_event agent session e) as [c|]; [|done]. cbn [mbind result_bind].
  destruct (event_table max_spans c.1 c.2 source run t); [|done]. cbn [mbind result_bind]. apply IH.
Qed.

Definition in_batch (t : table) (n : Z) (o : store) : store :=
  Store t n (rejected o) (collector_ns o) true (transactions o).

Lemma batch_loop agent session events source run s : batching (obj s) = true ->
  ewp (iterate (fun event => _ingest max_spans agent session event source run;; mret ()) events)
    (fun r s' =>
      match r with
      | Done _ => exists t, events_table max_spans agent session source run events (spans_table (obj s)) = Ok t
          /\ obj s' = in_batch t (accepted (obj s) + Z.of_nat (length events)) (obj s)
      | Raised e => (exists t n, obj s' = in_batch t n (obj s)) /\
          (events_table max_spans agent session source run events (spans_table (obj s)) = Err e \/ sql_raises e)
      | Interrupted => (exists t n, obj s' = in_batch t n (obj s)) /\ sql_stops
      end) s.
Proof.
  intros Hb. apply (ewp_iterate _ (fun l s' => exists done t, events = done ++ l
    /\ events_table max_spans agent session source run done (spans_table (obj s)) = Ok t
    /\ obj s' = in_batch t (accepted (obj s) + Z.of_nat (length done)) (obj s))).
  - exists [], (spans_table (obj s)). split; [done|]. split; [done|]. unfold in_batch. simpl.
    rewrite Z.add_0_r, <-Hb. by destruct (obj s).
  - intros event l s' (done & t & -> & Ht & Ho). apply ewp_bind.
    eapply ewp_mono; [apply _ingest_spec|]. rewrite Ho. intros [d|e|] s2.
    + intros (t' & Ht' & Ho'). apply ewp_ret. exists (done ++ [event]), t'.
      split; [by rewrite <-app_assoc|]. split.
      * by rewrite events_table_app, Ht.
      * rewrite Ho', length_app. unfold counted, in_batch. simpl. f_equal. lia.
    + intros [-> He]. split; [by eexists _, _|]. destruct He as [He|]; [left|by right].
      rewrite events_table_app, Ht. cbn [mbind result_bind]. cbn [events_table] in *.
      destruct (check_event _ _ event) as [c|]; [|done]. cbn [mbind result_bind] in *.
      by destruct (event_table _ _ _ _ _ _).
    + intros [-> Hs]. split; [by eexists _, _|done].
  - intros s' (done & t & -> & Ht & Ho). rewrite app_nil_r. by exists t.
Qed.

(** A batch in its transaction: if it does not return, the table is what it was. *)
Lemma batch_transaction agent session events source run s : batching (obj s) = true ->
  ewp (transaction (iterate (fun event => _ingest max_spans agent session event source run;; mret ()) events))
    (fun r s' =>
      match r with
      | Done _ => exists t, events_table max_spans agent session source run events (spans_table (obj s)) = Ok t
          /\ obj s' = in_batch t (accepted (obj s) + Z.of_nat (length events)) (obj s)
      | Raised e => (exists n, obj s' = in_batch (spans_table (obj s)) n (obj s)) /\
          (events_table max_spans agent session source run events (spans_table (obj s)) = Err e \/ sql_raises e)
      | Interrupted => (exists n, obj s' = in_batch (spans_table (obj s)) n (obj s)) /\ sql_stops
      end) s.
Proof.
  intros Hb. unfold transaction, execute. apply ewp_bind, ewp_read, ewp_unwinding, ewp_bind.
  eapply ewp_mono; [by apply batch_loop|]. intros [[]|e|] s1.
  - intros (t & Ht & Ho). apply ewp_bind, ewp_perform. intros [[]|e|] Hr.
    + apply ewp_ret. by exists t.
    + apply ewp_modify. cbn. rewrite Ho. split; [by eexists|]. right. by eexists _, _.
    + apply ewp_modify. cbn. rewrite Ho. split; [by eexists|]. by eexists _, _.
  - intros [(t & n & Ho) He]. apply ewp_modify. cbn. rewrite Ho. split; [by eexists|done].
  - intros [(t & n & Ho) He]. apply ewp_modify. cbn. rewrite Ho. split; [by eexists|done].
Qed.

Lemma check_batch_events envelope events : check_batch envelope = Ok events ->
  events = list_of (dgetn "events" envelope) /\ (1 <= length events <= 64)%nat.
Proof.
  unfold check_batch. intros ([] & Hs%raise_if_Ok & H1)%result_bind_Ok.
  destruct (dumps _ _) as [encoded|]; [|done].
  apply result_bind_Ok in H1 as ([] & _ & (invalid & _ & ([] & _ & [= <-])%result_bind_Ok)%result_bind_Ok).
  split; [done|]. apply orb_false_iff in Hs as [_ Hs]. apply negb_false_iff in Hs.
  apply andb_true_iff in Hs as [H1%Nat.leb_le H2%Nat.leb_le]. done.
Qed.

(** What a call makes of the table when the database does not fail. *)
Definition ingest_table (agent session event : pyval) (source : string) (run : pyval) (t : table) :
    result table :=
  match is_batch event with
  | Some d => events ← check_batch d; events_table max_spans agent session source run events t
  | None => events_table max_spans agent session source run [event] t
  end.

Lemma ingest_table_events agent session event source run t t' :
  ingest_table agent session event source run t = Ok t' ->
  events_table max_spans agent session source run (events_of event) t = Ok t'.
Proof.
  unfold ingest_table, events_of. destruct (is_batch event) as [d|]; [|done].
  by intros (events & [-> _]%check_batch_events & Ht)%result_bind_Ok.
Qed.

(** The acknowledgement of a batch. *)
Definition batch_ack (n : nat) : dict :=
  [("accepted", PBool true); ("event_count", PInt (Z.of_nat n)); ("durable", PBool true)].

(** The outcome of a call, whatever the database did. *)
Definition outcome (agent session event : pyval) (source : string) (run : pyval) (o : store)
    (r : reply dict) (o' : store) : Prop :=
  let events := events_of event in
  batching o' = false /\
  match r with
  | Done ack => ingest_table agent session event source run (spans_table o) = Ok (spans_table o')
      /\ (is_Some (is_batch event) -> ack = batch_ack (length events))
      /\ accepted o' = accepted o + Z.of_nat (length events) /\ rejected o' = rejected o
      /\ transactions o' = transactions o + 1
  | Raised e => (ingest_table agent session event source run (spans_table o) = Err e \/ sql_raises e)
      /\ spans_table o' = spans_table o /\ accepted o' = accepted o
      /\ rejected o <= rejected o' <= rejected o + Z.of_nat (length events)
      /\ transactions o' = transactions o
  | Interrupted => spans_table o' = spans_table o /\ sql_stops
  end.

Lemma ingest_batch_spec agent session d source run s : batching (obj s) = false ->
  is_batch (PDict d) = Some d ->
  ewp (ingest_batch max_spans agent session d source run) (fun r s' =>
    outcome agent session (PDict d) source run (obj s) r (obj s')) s.
Proof.
  intros Hb Hd. unfold ingest_batch, outcome, ingest_table, events_of, clock. rewrite Hd.
  apply ewp_bind, ewp_perform. intros [started|e|] [= <-].
  apply ewp_bind, ewp_lift. destruct (check_batch d) as [events|e] eqn:Hc.
  2: { cbn. split; [done|]. split; [by left|]. repeat split; try done; lia. }
  apply check_batch_events in Hc as [-> Hn]. set (events := list_of _) in *. cbn [mbind result_bind].
  apply ewp_bind, ewp_read, ewp_finally, ewp_catch, ewp_bind, ewp_modify, ewp_bind.
  eapply ewp_mono; [by apply batch_transaction|]. cbn [obj]. intros [[]|e|] s1.
  - intros (t & Ht & Ho). apply ewp_bind, ewp_modify, ewp_ret.
    apply ewp_bind, ewp_modify, ewp_bind, ewp_perform. intros [now|?|] [= <-]. apply ewp_modify. cbn.
    rewrite Ho. cbn. by repeat split.
  - intros [(n & Ho) He]. apply ewp_bind, ewp_modify, ewp_bind, ewp_modify, ewp_throw.
    apply ewp_bind, ewp_modify, ewp_bind, ewp_perform. intros [now|?|] [= <-]. apply ewp_modify. cbn.
    rewrite Ho. cbn. repeat split; try done; lia.
  - intros [(n & Ho) Hs].
    apply ewp_bind, ewp_modify, ewp_bind, ewp_perform. intros [now|?|] [= <-]. apply ewp_modify. cbn.
    rewrite Ho. by cbn.
Qed.

Lemma ingest_outcome agent session event source run s : batching (obj s) = false ->
  ewp (ingest max_spans agent session event source run) (fun r s' =>
    outcome agent session event source run (obj s) r (obj s')) s.
Proof.
  intros Hb.
  assert (is_batch event = None -> ewp (
    started ← clock;
    finally (catch (_ingest max_spans agent session event source run)
               (fun e => modify (add_rejected 1);; throw e))
      (now ← clock; modify (add_collector (now - started)))) (fun r s' =>
    outcome agent session event source run (obj s) r (obj s')) s) as Hsingle.
  { intros Hn. unfold outcome, ingest_table, events_of, clock. rewrite Hn.
    apply ewp_bind, ewp_perform. intros [started|e|] [= <-].
    apply ewp_finally, ewp_catch. eapply ewp_mono; [apply _ingest_spec|]. cbn [obj]. intros [d|e|] s1.
    - intros (t & Ht & Ho). apply ewp_bind, ewp_perform. intros [now|?|] [= <-]. apply ewp_modify.
      cbn [obj]. rewrite Ho, Ht. unfold counted. rewrite Hb. split; [done|]. split; [done|]. split; [by intros []|done].
    - intros [Ho He]. apply ewp_bind, ewp_modify, ewp_throw, ewp_bind, ewp_perform. intros [now|?|] [= <-].
      apply ewp_modify. cbn [obj]. rewrite Ho. split; [done|]. split; [done|]. cbn. repeat split; try done; lia.
    - intros [Ho Hs]. apply ewp_bind, ewp_perform. intros [now|?|] [= <-]. apply ewp_modify. cbn. by rewrite Ho. }
  unfold ingest. destruct event as [| | | | | |d]; try by apply Hsingle.
  unfold is_batch in Hsingle. destruct (py_eqb (dgetn "event" d) (PStr "batch")) eqn:Hd; [|by apply Hsingle].
  apply ingest_batch_spec; [done|]. unfold is_batch. by rewrite Hd.
Qed.

(** C27: whatever the database does, a call of [ingest] that returns applied its
    events in their order, each to the table the one before left, and counted
    them in one transaction; a call that raises left the table, the accepted
    events and the transactions as they were, a batch as a whole. *)
Theorem ingest_all_or_nothing agent session event source run s : batching (obj s) = false ->
  ewp (ingest max_spans agent session event source run) (fun r s' =>
    outcome agent session event source run (obj s) r (obj s')) s.
Proof. apply ingest_outcome. Qed.

(** Also: with a database that does not fail, [ingest] is the function
    [ingest_table]: it returns exactly when that function gives a table, which is
    then the new one, and otherwise raises the function's exception and leaves
    the table. *)
Theorem ingest_computes agent session event source run s : batching (obj s) = false ->
  (forall h c, sql h c = Done ()) ->
  ewp (ingest max_spans agent session event source run) (fun r s' =>
    match ingest_table agent session event source run (spans_table (obj s)) with
    | Ok t => (exists ack, r = Done ack) /\ spans_table (obj s') = t
    | Err e => r = Raised e /\ spans_table (obj s') = spans_table (obj s)
    end) s.
Proof.
  intros Hb Hsql. eapply ewp_mono; [by apply ingest_outcome|].
  assert (~ sql_stops /\ forall e, ~ sql_raises e) as [Hs Hr].
  { split; [|intros e]; intros (h & c & Hc); rewrite Hsql in Hc; done. }
  intros [ack|e|] s' [_ Ho].
  - destruct Ho as [-> _]. split; [by eexists|done].
  - destruct Ho as ([-> |[]%Hr] & -> & _). done.
  - by destruct Ho as [_ []%Hs].
Qed.
End steps.
