(* ===== verification/TraceSpec.v ===== *)
(** * The life of a span

    A table of spans changes in two ways only: a span of the caller's Session is
    opened, with its parent and links already there, or an open one is ended
    once, by the source that opened it.  Every call of [ingest] is a sequence of
    such changes, and so keeps the shape of the traces. *)

From Stdlib Require Import Ascii.
From Stdlib Require String.
From S2P Require Import Prelude Effects PyVal Ids Json Trace TraceSteps.
Open Scope Z_scope.

Section spec.
Context `{FloatTextOk} (max_spans : Z).

(** A field of a row. *)
Definition field (name : string) (payload : string) : option pyval :=
  match load_row payload with Ok d => dget name d | Err _ => None end.

Definition running (payload : string) : Prop := field "status" payload = Some (PStr "running").

Definition finals : list string := ["ok"; "error"; "cancelled"].

(** The fields an end writes. *)
Definition written_at_end : list string :=
  ["end_ns"; "duration_ns"; "status"; "result"; "error_type"; "metrics"].

(** [id] names the parent, or a link, of a row. *)
Definition refers (payload id : string) : Prop :=
  field "parent_id" payload = Some (PStr id)
  \/ exists l, field "links" payload = Some (PList l) /\ PStr id ∈ l.

Record span_opened (kinds : list string) (k : key) (source : string) (run : pyval) (t : table)
    (payload : string) : Prop := Opened {
  o_running : running payload;
  o_end : field "end_ns" payload = Some PNone /\ field "duration_ns" payload = Some PNone;
  o_start : exists b, field "start_ns" payload = Some (PInt b) /\ 0 <= b;
  o_owner : field "agent_id" payload = Some (PStr k.1.1.1) /\ field "session_id" payload = Some (PStr k.1.1.2)
            /\ field "trace_id" payload = Some (PStr k.1.2) /\ field "span_id" payload = Some (PStr k.2);
  o_source : field "source" payload = Some (PStr source) /\ field "process_run_id" payload = Some run;
  o_kind : exists kind, field "kind" payload = Some (PStr kind) /\ kind ∈ kinds;
  o_refers id : refers payload id -> is_Some (find_row (k.1, id) t);
  o_parent id q : field "parent_id" payload = Some (PStr id) -> find_row (k.1, id) t = Some q -> running q }.

Record ended (source : string) (run : pyval) (p p' : string) : Prop := Ended {
  e_running : running p;
  e_status : exists st, field "status" p' = Some (PStr st) /\ st ∈ finals;
  e_times : exists b e, field "start_ns" p = Some (PInt b) /\ field "end_ns" p' = Some (PInt e)
                        /\ field "duration_ns" p' = Some (PInt (e - b)) /\ b <= e;
  e_source : field "source" p = Some (PStr source);
  e_run : source = "session-sdk" ->
          py_eqb (default PNone (field "process_run_id" p)) run = true;
  e_kept name : name ∉ written_at_end -> field name p' = field name p }.

(** The spans opened are of one of [kinds]. *)
Inductive one_change (kinds : list string) (agent session source : string) (run : pyval) (t : table) :
    table -> Prop :=
  | Opens k p : k.1.1 = (agent, session) -> find_row k t = None ->
      Z.of_nat (count_rows k t) < max_spans -> span_opened kinds k source run t p ->
      one_change kinds agent session source run t (t ++ [(k, p)])
  | Ends k p p' : k.1.1 = (agent, session) -> find_row k t = Some p -> ended source run p p' ->
      one_change kinds agent session source run t (update_row k p' t).

(** Every row is the text of a dictionary. *)
Definition proper_row (payload : string) : Prop :=
  exists row, keyed (PDict row) /\ dumps true (PDict row) = Ok payload.

(** A row is open, or ended no earlier than it started. *)
Definition settled_row (payload : string) : Prop :=
  exists b, field "start_ns" payload = Some (PInt b) /\ 0 <= b /\
    (running payload /\ field "end_ns" payload = Some PNone
     \/ exists st e, field "status" payload = Some (PStr st) /\ st ∈ finals
          /\ field "end_ns" payload = Some (PInt e) /\ field "duration_ns" payload = Some (PInt (e - b))
          /\ b <= e).

(** The shape of the traces: one row per span, no more rows than allowed, each
    well formed, and only earlier rows of the same trace referred to. *)
Record well_formed (t : table) : Prop := WellFormed {
  w_keys : NoDup (t.*1);
  w_count k : Z.of_nat (count_rows k t) <= Z.max 0 max_spans;
  w_rows : Forall (fun r => proper_row r.2 /\ settled_row r.2) t;
  w_refers before k p after id : t = before ++ (k, p) :: after -> refers p id ->
    is_Some (find_row (k.1, id) before) }.

(** ** Tables *)

Lemma find_row_Some k t p : find_row k t = Some p -> (k, p) ∈ t.
Proof.
  induction t as [|[k' p'] t IH]; simpl; [done|]. case_bool_decide; [intros [= ->]; subst; left|right; auto].
Qed.

Lemma find_row_None k t : find_row k t = None <-> k ∉ t.*1.
Proof.
  induction t as [|[k' p'] t IH]; simpl; [set_solver|]. case_bool_decide; [set_solver|].
  rewrite IH. set_solver.
Qed.

Lemma find_row_app k t1 t2 :
  find_row k (t1 ++ t2) = match find_row k t1 with Some p => Some p | None => find_row k t2 end.
Proof. induction t1 as [|[k' p'] t1 IH]; simpl; [done|]. by case_bool_decide. Qed.

Lemma update_row_app k p t1 t2 : update_row k p (t1 ++ t2) = update_row k p t1 ++ update_row k p t2.
Proof. apply map_app. Qed.

Lemma update_row_absent k p t : k ∉ t.*1 -> update_row k p t = t.
Proof.
  induction t as [|[k' p'] t IH]; [done|]. rewrite fmap_cons. intros [H1 H2]%not_elem_of_cons. simpl in *.
  rewrite bool_decide_eq_false_2 by done. by rewrite IH.
Qed.

(** With one row per span, an update replaces the row in its place. *)
Lemma update_row_split k p t : NoDup (t.*1) -> find_row k t = Some p -> forall p',
  exists t1 t2, t = t1 ++ (k, p) :: t2 /\ update_row k p' t = t1 ++ (k, p') :: t2 /\ k ∉ t1.*1 /\ k ∉ t2.*1.
Proof.
  intros Hd Hf p'. apply find_row_Some, list_elem_of_split in Hf as (t1 & t2 & ->).
  exists t1, t2. rewrite fmap_app, fmap_cons in Hd. apply NoDup_app in Hd as (_ & H1 & H2).
  simpl in *. apply NoDup_cons in H2 as [H2 _].
  assert (k ∉ t1.*1) by (intros Hk; apply (H1 k Hk); left).
  repeat split; [|done|done]. rewrite update_row_app. simpl. rewrite bool_decide_eq_true_2 by done.
  by rewrite !update_row_absent.
Qed.

Lemma update_row_keys k p t : (update_row k p t).*1 = t.*1.
Proof.
  induction t as [|[k' p'] t IH]; [done|]. unfold update_row in *. cbn [map].
  rewrite !fmap_cons, IH. cbn [fst]. by case_bool_decide.
Qed.

Lemma update_row_count k p k' t : count_rows k' (update_row k p t) = count_rows k' t.
Proof.
  unfold count_rows. induction t as [|[k2 p2] t IH]; [done|]. unfold update_row in *. cbn [map fst].
  assert ((if bool_decide (k = k2) then (k2, p) else (k2, p2)).1 = k2) as E by by case_bool_decide.
  rewrite !filter_cons. rewrite E. simpl. destruct (decide _); simpl; by rewrite IH.
Qed.

Lemma update_row_find k p k' t : is_Some (find_row k' t) -> is_Some (find_row k' (update_row k p t)).
Proof.
  induction t as [|[k2 p2] t IH]; simpl; [done|]. intros Hf.
  destruct (bool_decide (k = k2)); simpl; case_bool_decide; auto.
Qed.

(** ** Rows as text *)

Lemma load_dumped row p : keyed (PDict row) -> dumps true (PDict row) = Ok p -> load_row p = Ok row.
Proof. intros Hk Hp. unfold load_row. by rewrite (loads_dumps true (PDict row) p Hp Hk). Qed.

Lemma field_dumped row p name : keyed (PDict row) -> dumps true (PDict row) = Ok p -> field name p = dget name row.
Proof. intros Hk Hp. unfold field. by rewrite (load_dumped row p). Qed.

Lemma keyed_dget d name v : keyed (PDict d) -> dget name d = Some v -> keyed v.
Proof. intros [_ Hf]%keyed_dict Hg%dget_Some_elem. by apply (proj1 (Forall_forall _ _) Hf (name, v)). Qed.

Lemma keyed_dget_or d name v : keyed (PDict d) -> keyed v -> keyed (dget_or name v d).
Proof. intros Hd Hv. unfold dget_or. destruct (dget name d) eqn:E; [by eapply keyed_dget|done]. Qed.

Lemma keyed_dset d name v : keyed (PDict d) -> keyed v -> keyed (PDict (dset name v d)).
Proof.
  rewrite !keyed_dict. intros [Hd Hf] Hv. split; [by apply dset_NoDup|]. clear Hd.
  induction Hf as [|[k' v'] d Hkv Hf IH]; simpl; [by repeat constructor|].
  destruct (str_eqb name k'); by constructor.
Qed.

Lemma keyed_start_row k event links semantic :
  keyed (PDict event) -> keyed links -> keyed semantic -> keyed (PDict (start_row k event links semantic)).
Proof.
  intros He Hl Hs. apply keyed_dict. split.
  - apply (bool_decide_unpack (NoDup _)). by vm_compute.
  - assert (forall name, keyed (dgetn name event)) as Hg by (intros; by apply keyed_dget_or).
    unfold start_row, copied_fields. simpl. repeat constructor; simpl; try done; apply Hg.
Qed.

(** ** An event is a change *)

Lemma each_Ok {A} (f : A -> result unit) l u : each f l = Ok u -> Forall (fun x => f x = Ok ()) l.
Proof.
  induction l as [|x l IH]; [constructor|]. simpl.
  intros ([] & Hx & Hl)%result_bind_Ok. constructor; auto.
Qed.

Lemma identifier_Ok v label s : identifier v label = Ok s -> v = PStr s /\ ID_RE s = true.
Proof. destruct v; simpl; try discriminate. by intros [-> ?]%validate_id_Ok. Qed.

Lemma related_Ok k parent related t u : related_ok k parent related t = Ok u ->
  exists id q, related = PStr id /\ find_row (k.1, id) t = Some q
    /\ (py_eqb related parent = true -> running q).
Proof.
  unfold related_ok. intros (id & [-> _]%identifier_Ok & Hf)%result_bind_Ok. cbn [mbind result_bind] in Hf.
  destruct (find_row (k.1, id) t) as [q|] eqn:Hq; [|done]. exists id, q. split; [done|]. split; [done|].
  intros Hp. rewrite Hp in Hf. unfold running, field.
  destruct (load_row q) as [row|]; [|done]. cbn [mbind result_bind] in Hf.
  apply result_bind_Ok in Hf as (st & Hst & Hr%raise_if_Ok%negb_false_iff%py_eqb_str_r).
  unfold dindex in Hst. destruct (dget "status" row); congruence.
Qed.

Definition links_of (event : dict) : pyval := dget_or "links" (PList []) event.
Definition semantic_of (event : dict) : pyval := dget_or "semantic_path" (PList []) event.

Lemma start_ok_Ok k event t row : start_ok k event t = Ok row ->
  row = start_row k event (links_of event) (semantic_of event)
  /\ (exists kind, dgetn "kind" event = PStr kind /\ kind ∈ KINDS)
  /\ (exists b, dgetn "start_ns" event = PInt b /\ 0 <= b)
  /\ (forall id, dgetn "parent_id" event = PStr id -> id <> EmptyString)
  /\ Forall (fun related => related_ok k (dgetn "parent_id" event) related t = Ok ())
       ((if py_truthy (dgetn "parent_id" event) then [dgetn "parent_id" event] else [])
        ++ list_of (links_of event)).
Proof.
  unfold start_ok.
  intros ([] & Hkind%raise_if_Ok%negb_false_iff & ([] & _ & ([] & Hs%raise_if_Ok & (clock & _ & H')%result_bind_Ok)%result_bind_Ok)%result_bind_Ok)%result_bind_Ok.
  apply result_bind_Ok in H' as ([] & _ & ([] & Hp & ([] & _ & ([] & Hr & H')%result_bind_Ok)%result_bind_Ok)%result_bind_Ok).
  apply result_bind_Ok in H' as ([] & _ & ([] & _ & ([] & _ & [= <-])%result_bind_Ok)%result_bind_Ok).
  split; [done|]. split; [|split; [|split; [|by eapply each_Ok]]].
  - destruct (dgetn "kind" event); try done. eexists. split; [done|]. by apply bool_decide_eq_true in Hkind.
  - apply negb_false_iff in Hs. destruct (dgetn "start_ns" event); try done. eexists. split; [done|].
    by apply Z.leb_le.
  - intros id Hid. rewrite Hid in Hp. cbn [is_none] in Hp.
    apply result_bind_Ok in Hp as (? & [[= <-] Hre]%identifier_Ok & _). by intros ->.
Qed.

(** The kinds of [kinds] are all the event can name. *)
Definition kind_within (kinds : list string) (event : dict) : Prop :=
  forall kind, dgetn "kind" event = PStr kind -> kind ∈ KINDS -> kind ∈ kinds.

Lemma start_change kinds k event source run t t' :
  keyed (PDict event) -> keyed run -> kind_within kinds event ->
  dgetn "trace_id" event = PStr k.1.2 -> dgetn "span_id" event = PStr k.2 ->
  start_table max_spans k event source run t = Ok t' ->
  exists p, t' = t ++ [(k, p)] /\ find_row k t = None /\ Z.of_nat (count_rows k t) < max_spans
            /\ span_opened kinds k source run t p /\ proper_row p.
Proof.
  intros He Hrun Hkinds Htr Hsp. unfold start_table. cbn [mbind result_bind].
  intros ([] & Hnone%raise_if_Ok%bool_decide_eq_false & ([] & Hc%raise_if_Ok%Z.leb_gt &
    (row & Hrow & (p & Hp & [= <-])%result_bind_Ok)%result_bind_Ok)%result_bind_Ok)%result_bind_Ok.
  apply start_ok_Ok in Hrow as (-> & (kind & Hkd & Hkin) & (b & Hb & Hb0) & Hpar & Hrel).
  set (row := dset _ _ _) in Hp.
  assert (keyed (PDict row)) as Hk.
  { subst row. apply keyed_dset; [apply keyed_dset; [|done]|done].
    apply keyed_start_row; [done| |]; by apply keyed_dget_or. }
  assert (forall name, field name p = dget name row) as Hfield by (intros; by apply field_dumped).
  assert (forall id, dgetn "parent_id" event = PStr id ->
    related_ok k (PStr id) (PStr id) t = Ok ()) as Hparent.
  { intros id Hid. pose proof (Hpar _ Hid) as Hne. rewrite Hid in Hrel. cbn [py_truthy] in Hrel.
    apply str_eqb_neq in Hne. rewrite Hne in Hrel. by apply Forall_cons in Hrel as [? _]. }
  exists p. split; [done|]. split; [by apply eq_None_not_Some|]. split; [done|]. split; [|by exists row].
  split; unfold running, refers; setoid_rewrite Hfield.
  - done.
  - done.
  - exists b. split; [|done]. change (dget "start_ns" row) with (Some (dgetn "start_ns" event)). congruence.
  - split; [done|]. split; [done|]. by rewrite <-Htr, <-Hsp.
  - done.
  - exists kind. change (dget "kind" row) with (Some (dgetn "kind" event)). split; [congruence|].
    by apply Hkinds.
  - intros id [Hid|(l & Hl & Hid)].
    + change (dget "parent_id" row) with (Some (dgetn "parent_id" event)) in Hid. injection Hid as Hid.
      destruct (related_Ok _ _ _ _ _ (Hparent _ Hid)) as (id' & q & [= <-] & Hq & _). by eexists.
    + change (dget "links" row) with (Some (links_of event)) in Hl. injection Hl as Hl. rewrite Hl in Hrel.
      apply Forall_app in Hrel as [_ Hrel]. cbn [list_of] in Hrel.
      pose proof (proj1 (Forall_forall _ _) Hrel _ Hid) as Hr. apply related_Ok in Hr as (id' & q & [= <-] & Hq & _).
      by eexists.
  - intros id q Hid Hq. change (dget "parent_id" row) with (Some (dgetn "parent_id" event)) in Hid.
    injection Hid as Hid. destruct (related_Ok _ _ _ _ _ (Hparent _ Hid)) as (id' & q' & [= <-] & Hq' & Hr).
    assert (q = q') as -> by congruence. apply Hr. by apply py_eqb_str_l.
Qed.

Lemma check_end_Ok row event source run row' : check_end row event source run = Ok row' ->
  dget "status" row = Some (PStr "running") /\ dget "source" row = Some (PStr source)
  /\ (source = "session-sdk" -> py_eqb (dgetn "process_run_id" row) run = true)
  /\ exists b e metrics, dget "start_ns" row = Some (PInt b) /\ dgetn "end_ns" event = PInt e /\ b <= e
      /\ (exists st, dgetn "status" event = PStr st /\ st ∈ finals)
      /\ dget_or "metrics" (PDict []) event = PDict metrics
      /\ row' = end_row row event (PInt e) (PInt b) (PDict metrics).
Proof.
  unfold check_end, dindex.
  destruct (dget "status" row) as [status|]; [|done]. cbn [mbind result_bind].
  intros ([] & Hst%raise_if_Ok%negb_false_iff%py_eqb_str_r & H1)%result_bind_Ok.
  destruct (dget "source" row) as [src|]; [|done]. cbn [mbind result_bind] in H1.
  apply result_bind_Ok in H1 as ([] & Hsrc%raise_if_Ok%negb_false_iff%py_eqb_str_r & H1).
  apply result_bind_Ok in H1 as ([] & Hrun%raise_if_Ok & H1).
  destruct (dget "start_ns" row) as [start|]; [|done]. cbn [mbind result_bind] in H1.
  apply result_bind_Ok in H1 as ([] & Hend%raise_if_Ok & H1).
  destruct (dget "clock_id" row); [|done]. cbn [mbind result_bind] in H1.
  apply result_bind_Ok in H1 as ([] & _ & ([] & Hfin%raise_if_Ok%negb_false_iff & H1)%result_bind_Ok).
  destruct (dget_or "metrics" (PDict []) event) as [| | | | | |metrics]; try done.
  apply result_bind_Ok in H1 as ([] & _ & [= <-]).
  split; [congruence|]. split; [congruence|]. split.
  { intros ->. rewrite str_eqb_refl in Hrun. by apply negb_false_iff in Hrun. }
  destruct (dgetn "end_ns" event) as [| |e| | | |]; try done. destruct start as [| |b| | | |]; try done.
  exists b, e, metrics. split; [done|]. split; [done|]. split; [by apply Z.ltb_ge|]. split; [|done].
  destruct (dgetn "status" event); try done. eexists. split; [done|]. by apply bool_decide_eq_true in Hfin.
Qed.

Lemma end_row_kept row event e b metrics name : name ∉ written_at_end ->
  dget name (end_row row event e b metrics) = dget name row.
Proof.
  unfold written_at_end. rewrite !not_elem_of_cons. intros (? & ? & ? & ? & ? & ? & _).
  unfold end_row. by rewrite !dget_dset_ne.
Qed.

Lemma end_change k event source run t t' :
  Forall (fun r => proper_row r.2 /\ settled_row r.2) t -> keyed (PDict event) ->
  end_table k event source run t = Ok t' ->
  exists p p', find_row k t = Some p /\ t' = update_row k p' t /\ ended source run p p' /\ proper_row p'.
Proof.
  intros Hrows He. unfold end_table. cbn [mbind result_bind].
  destruct (find_row k t) as [p|] eqn:Hf; [|done].
  destruct (proj1 (Forall_forall _ _) Hrows _ (find_row_Some _ _ _ Hf)) as [(row & Hk & Hp) _].
  cbn [snd] in Hp. rewrite (load_dumped row p Hk Hp). cbn [mbind result_bind].
  intros (row' & Hc & (p' & Hp' & [= <-])%result_bind_Ok)%result_bind_Ok.
  apply check_end_Ok in Hc as (Hst & Hsrc & Hrun & b & e & metrics & Hb & Hend & Hbe & (st & Hfin & Hin) & Hm & ->).
  assert (keyed (PDict metrics)) as Hkm by (rewrite <-Hm; apply keyed_dget_or; [done|by repeat constructor]).
  assert (keyed (PDict (end_row row event (PInt e) (PInt b) (PDict metrics)))) as Hk'.
  { unfold end_row, dgetn. repeat (apply keyed_dset; [|first [exact I|exact Hkm|by apply keyed_dget_or]]). done. }
  assert (forall name, field name p = dget name row) as Hfield by (intros; by apply field_dumped).
  assert (forall name, field name p' = dget name (end_row row event (PInt e) (PInt b) (PDict metrics))) as Hfield'
    by (intros; by apply field_dumped).
  exists p, p'. split; [done|]. split; [done|]. split; [|by eexists].
  split; unfold running; rewrite ?Hfield; try done.
  - exists st. rewrite Hfield'. split; [|done]. unfold end_row. rewrite !dget_dset. simpl. congruence.
  - exists b, e. rewrite !Hfield'. split; [done|]. unfold end_row. rewrite !dget_dset. by split.
  - intros name Hn. rewrite Hfield, Hfield'. by apply end_row_kept.
Qed.

(** ** Changes keep the shape *)

Lemma settled_opened kinds k source run t p : span_opened kinds k source run t p -> settled_row p.
Proof. intros [Hr [He _] (b & Hb & Hb0)]. exists b. split; [done|]. split; [done|]. by left. Qed.

Lemma settled_ended source run p p' : ended source run p p' -> settled_row p -> settled_row p'.
Proof.
  intros [_ (st & Hst & Hin) (b & e & Hb & He & Hd & Hbe) _ _ Hk] (b' & Hb' & Hb0 & _).
  exists b. assert (b' = b) as -> by congruence. split; [rewrite Hk; [done|by vm_compute; set_solver]|].
  split; [done|]. right. by exists st, e.
Qed.

Lemma refers_kept p p' id : (forall name, name ∉ written_at_end -> field name p' = field name p) ->
  refers p' id -> refers p id.
Proof. intros Hk. unfold refers. by rewrite !Hk by (unfold written_at_end; set_solver). Qed.

Lemma count_snoc k k0 p t :
  count_rows k (t ++ [(k0, p)]) = (count_rows k t + if same_trace k k0 then 1 else 0)%nat.
Proof.
  unfold count_rows. rewrite filter_app, length_app, filter_cons. cbn [fst].
  destruct (decide _) as [E|E]; [by rewrite E|]. apply not_true_is_false in E. by rewrite E.
Qed.

Lemma same_trace_count k k0 t : same_trace k k0 = true -> count_rows k t = count_rows k0 t.
Proof.
  intros Hk%bool_decide_eq_true. unfold count_rows. f_equal. apply list_filter_iff. intros [k' p].
  unfold same_trace. by rewrite Hk.
Qed.

Lemma opens_well_formed kinds k p source run t :
  well_formed t -> find_row k t = None -> Z.of_nat (count_rows k t) < max_spans ->
  span_opened kinds k source run t p -> proper_row p -> well_formed (t ++ [(k, p)]).
Proof.
  intros [Hkeys Hcount Hrows Hrefs] Hnone Hlt Hop Hpr. split.
  - rewrite fmap_app. apply NoDup_app. split; [done|]. split; [|apply NoDup_singleton].
    intros k' Hk' ->%list_elem_of_singleton. by apply find_row_None in Hnone.
  - intros k'. rewrite count_snoc. destruct (same_trace k' k) eqn:E; [|specialize (Hcount k'); lia].
    rewrite (same_trace_count _ _ _ E). lia.
  - apply Forall_app. split; [done|]. apply Forall_singleton. split; [done|]. by eapply settled_opened.
  - intros before k' p' after id Heq Hid. destruct after as [|r after _] using rev_ind.
    + apply app_inj_tail in Heq as [-> [= <- <-]]. by eapply o_refers.
    + rewrite app_comm_cons, app_assoc in Heq. apply app_inj_tail in Heq as [-> _].
      by eapply (Hrefs before k' p' after).
Qed.

Lemma ends_well_formed k p p' source run t :
  well_formed t -> find_row k t = Some p -> ended source run p p' -> proper_row p' ->
  well_formed (update_row k p' t).
Proof.
  intros [Hkeys Hcount Hrows Hrefs] Hf He Hpr. split.
  - by rewrite update_row_keys.
  - intros k'. by rewrite update_row_count.
  - apply Forall_forall. intros r Hr. unfold update_row in Hr.
    apply list_elem_of_In, in_map_iff in Hr as (r0 & <- & Hr0%list_elem_of_In).
    pose proof (proj1 (Forall_forall _ _) Hrows _ Hr0) as Hr0'. case_bool_decide; [|done]. cbn [snd].
    split; [done|]. eapply settled_ended; [done|].
    apply (proj1 (Forall_forall _ _) Hrows _ (find_row_Some _ _ _ Hf)).
  - intros before k' q after id Heq Hid.
    apply map_eq_app in Heq as (b0 & rest & -> & <- & Heq). destruct rest as [|[k0 p0] a0]; [done|].
    cbn [map] in Heq. injection Heq as Heq <-. apply update_row_find.
    assert (k0 = k') as -> by (by case_bool_decide; injection Heq as -> _).
    apply (Hrefs b0 k' p0 a0); [done|].
    case_bool_decide as Hk; injection Heq as <-; [|done]. subst k'.
    assert (p0 = p) as ->; [|eapply refers_kept; [apply He|done]].
    rewrite fmap_app, fmap_cons in Hkeys. apply NoDup_app in Hkeys as (_ & Hb & _).
    rewrite find_row_app in Hf. destruct (find_row k b0) eqn:Hfb.
    + apply find_row_Some in Hfb. exfalso. apply (Hb k); [|left].
      by apply (list_elem_of_fmap_2 fst _ (k, s)).
    + simpl in Hf. rewrite bool_decide_eq_true_2 in Hf by done. by injection Hf.
Qed.

(** A call does a sequence of changes, all in the caller's Session. *)
Lemma event_change kinds a s k event source run t t' :
  well_formed t -> keyed (PDict event) -> keyed run -> kind_within kinds event -> k.1.1 = (a, s) ->
  dgetn "trace_id" event = PStr k.1.2 -> dgetn "span_id" event = PStr k.2 ->
  event_table max_spans k event source run t = Ok t' ->
  one_change kinds a s source run t t' /\ well_formed t'.
Proof.
  intros Hw He Hr Hkd Hk Htr Hsp. unfold event_table.
  destruct (py_eqb _ (PStr "start")); [|destruct (py_eqb _ (PStr "end")); [|done]].
  - intros (p & -> & Hn & Hc & Ho & Hp)%(start_change kinds); try done. split; [by apply Opens|].
    by eapply opens_well_formed.
  - intros (p & p' & Hf & -> & Hen & Hp)%end_change; [|apply Hw|done]. split; [by eapply Ends|].
    by eapply ends_well_formed.
Qed.

Lemma check_event_Ok a s event k d : check_event (PStr a) (PStr s) event = Ok (k, d) ->
  event = PDict d /\ k.1.1 = (a, s) /\ dgetn "trace_id" d = PStr k.1.2 /\ dgetn "span_id" d = PStr k.2.
Proof.
  unfold check_event.
  intros (a' & [[= <-] _]%identifier_Ok & (s' & [[= <-] _]%identifier_Ok & Hd)%result_bind_Ok)%result_bind_Ok.
  destruct event as [| | | | | |d']; try done. destruct (dumps _ _); [|done].
  apply result_bind_Ok in Hd as ([] & _ & (tr & [Htr _]%identifier_Ok & (sp & [Hsp _]%identifier_Ok & [= <- <-])%result_bind_Ok)%result_bind_Ok).
  done.
Qed.

Lemma events_change kinds a s source run events t t' :
  well_formed t -> Forall keyed events -> keyed run ->
  Forall (fun e => forall d, e = PDict d -> kind_within kinds d) events ->
  events_table max_spans (PStr a) (PStr s) source run events t = Ok t' ->
  rtc (one_change kinds a s source run) t t' /\ well_formed t'.
Proof.
  intros Hw Hev Hr. revert t Hw. induction Hev as [|e events He Hev IH]; intros t Hw Hkd; cbn [events_table].
  - intros [= <-]. done.
  - apply Forall_cons in Hkd as [Hkd1 Hkd]. intros ([k d] & Hc & (t1 & Ht1 & Hrest)%result_bind_Ok)%result_bind_Ok. cbn [fst snd] in Ht1.
    apply check_event_Ok in Hc as (-> & Hk & Htr & Hsp).
    apply (event_change kinds a s) in Ht1 as [Hone Hw1]; try done; [|by apply Hkd1].
    destruct (IH t1 Hw1 Hkd Hrest) as [? ?]. split; [by eapply rtc_l|done].
Qed.

(** ** Calls *)

Lemma well_formed_nil : well_formed [].
Proof.
  split; [constructor|unfold count_rows; simpl; lia|constructor|]. intros [] ? ? ? ? [=].
Qed.

Lemma keyed_list_of v : keyed v -> Forall keyed (list_of v).
Proof. destruct v; try constructor. intros Hk. by apply keyed_list. Qed.

Lemma keyed_events_of event : keyed event -> Forall keyed (events_of event).
Proof.
  intros Hk. unfold events_of, is_batch. destruct event as [| | | | | |d]; try by repeat constructor.
  destruct (py_eqb _ _); [by apply keyed_list_of, keyed_dget_or|by constructor].
Qed.

(** What nobody but its owner may change: a span that has ended, of another
    Session, or of another source. *)
Definition guarded (a s source : string) (k : key) (p : string) : Prop :=
  ~ running p \/ k.1.1 <> (a, s) \/ field "source" p <> Some (PStr source).

Lemma guarded_change kinds a s source run t t' : NoDup (t.*1) -> one_change kinds a s source run t t' ->
  NoDup (t'.*1) /\ forall k p, (k, p) ∈ t -> guarded a s source k p -> (k, p) ∈ t'.
Proof.
  intros Hd [k0 p0 Hk Hn _ _|k0 p0 p0' Hk Hf He].
  - split; [|intros; apply elem_of_app; by left]. rewrite fmap_app. apply NoDup_app.
    split; [done|]. split; [|apply NoDup_singleton].
    intros k' Hk' ->%list_elem_of_singleton. by apply find_row_None in Hn.
  - split; [by rewrite update_row_keys|]. intros k p Hin Hg.
    destruct (update_row_split _ _ _ Hd Hf p0') as (t1 & t2 & -> & -> & H1 & H2).
    apply elem_of_app in Hin as [Hin|[[= -> ->]|Hin]%elem_of_cons].
    + apply elem_of_app. by left.
    + exfalso. destruct He as [Hr _ _ Hs _ _]. by destruct Hg as [Hg|[Hg|Hg]].
    + apply elem_of_app. right. by right.
Qed.

Lemma guarded_changes kinds a s source run t t' : rtc (one_change kinds a s source run) t t' -> NoDup (t.*1) ->
  forall k p, (k, p) ∈ t -> guarded a s source k p -> (k, p) ∈ t'.
Proof.
  induction 1 as [|t t1 t' H1 _ IH]; [done|]. intros Hd k p Hin Hg.
  destruct (guarded_change _ _ _ _ _ _ _ Hd H1) as [Hd1 Hp]. by apply IH; [|apply Hp|].
Qed.

Lemma ewp_both {C O A} (m : P C O A) (Q R : reply A -> st C O -> Prop) s :
  ewp m Q s -> ewp m R s -> ewp m (fun r s' => Q r s' /\ R r s') s.
Proof. by split. Qed.

Section calls.
Context `{Sqlite}.

Lemma ingest_changes kinds a s event source run st :
  batching (obj st) = false -> well_formed (spans_table (obj st)) -> keyed event -> keyed run ->
  Forall (fun e => forall d, e = PDict d -> kind_within kinds d) (events_of event) ->
  ewp (ingest max_spans (PStr a) (PStr s) event source run) (fun _ st' =>
    well_formed (spans_table (obj st'))
    /\ rtc (one_change kinds a s source run) (spans_table (obj st)) (spans_table (obj st'))) st.
Proof.
  intros Hb Hw He Hr Hkd. eapply ewp_mono; [by apply ingest_outcome|].
  intros [d|e|] st' [_ Ho].
  - destruct Ho as [Ho _]. apply ingest_table_events in Ho.
    by eapply events_change in Ho as [? ?]; [|done|apply keyed_events_of| |].
  - by destruct Ho as (_ & -> & _).
  - by destruct Ho as [-> _].
Qed.

(** A client's calls, each answered, the exceptions included. *)
Record call := Call {
  c_agent : string; c_session : string; c_event : pyval; c_source : string; c_run : pyval }.

Definition serve_calls (calls : list call) : T unit :=
  iterate (fun c =>
    catch (ingest max_spans (PStr (c_agent c)) (PStr (c_session c)) (c_event c) (c_source c) (c_run c);; mret ())
      (fun _ => mret ())) calls.

Definition any_change (t t' : table) : Prop := exists a s source run, one_change KINDS a s source run t t'.

Lemma all_kinds event : Forall (fun e => forall d, e = PDict d -> kind_within KINDS d) (events_of event).
Proof. apply Forall_forall. by intros ? ? ? ? ? ? ?. Qed.

Lemma any_changes a s source run t t' : rtc (one_change KINDS a s source run) t t' -> rtc any_change t t'.
Proof. apply rtc_subrel. intros x y Hxy. by eexists _, _, _, _. Qed.

(** C16: whatever is sent and whatever the database's failures, the traces of a
    new store only ever change by the opening of a span whose parent is open and
    whose links are there, and by the ending, once, of an open span by its
    source; and they are well formed at any time: one row per span, no trace
    beyond its limit, no span that ends before it starts, and no reference but
    to an earlier span of the same trace. *)
Theorem traces_stay_well_formed calls st :
  batching (obj st) = false -> spans_table (obj st) = [] ->
  Forall (fun c => keyed (c_event c) /\ keyed (c_run c)) calls ->
  ewp (serve_calls calls) (fun _ st' =>
    well_formed (spans_table (obj st')) /\ rtc any_change [] (spans_table (obj st'))) st.
Proof.
  intros Hb Ht Hc. unfold serve_calls.
  apply (ewp_iterate _ (fun l st' => Forall (fun c => keyed (c_event c) /\ keyed (c_run c)) l
    /\ batching (obj st') = false /\ well_formed (spans_table (obj st'))
    /\ rtc any_change [] (spans_table (obj st')))).
  - rewrite Ht. split; [done|]. split; [done|]. split; [apply well_formed_nil|done].
  - intros c l st' ([[Hke Hkr] Hl]%Forall_cons & Hb' & Hw & Hr). apply ewp_catch, ewp_bind.
    eapply ewp_mono; [apply ewp_both; [by apply ingest_outcome|by apply (ingest_changes KINDS); try apply all_kinds]|].
    intros r st2 [[Hb2 _] [Hw2 Hr2%any_changes]].
    assert (rtc any_change [] (spans_table (obj st2))) by by etrans.
    by destruct r; [apply ewp_ret|apply ewp_ret|].
  - intros st' (_ & _ & ? & ?). done.
Qed.

(** Also: no call of [ingest] touches a span that has ended, a span of another
    Session, or a span that another source opened: its row stays in the table to
    the letter. *)
Theorem spans_protected a s event source run st :
  batching (obj st) = false -> well_formed (spans_table (obj st)) -> keyed event -> keyed run ->
  ewp (ingest max_spans (PStr a) (PStr s) event source run) (fun _ st' =>
    forall k p, (k, p) ∈ spans_table (obj st) -> guarded a s source k p -> (k, p) ∈ spans_table (obj st')) st.
Proof.
  intros Hb Hw He Hr. eapply ewp_mono; [by apply (ingest_changes KINDS); try apply all_kinds|]. intros r st' [_ Hc].
  apply (guarded_changes _ _ _ _ _ _ _ Hc), Hw.
Qed.
End calls.
End spec.
