(* ===== verification/Delivery.v ===== *)
(** * From the exporter to the store

    The request the exporter's worker sends is a batch the store's checks let
    pass, the store's acknowledgement is one the worker takes for complete, and
    what raises in the store stops the stream: an event counts as acknowledged
    exactly when its batch is in the table. *)

From Stdlib Require Import Ascii.
From Stdlib Require String.
From stdpp Require Import gmap.
From S2P Require Import Prelude Effects PyVal Json Exporter ExporterSpec Trace TraceSteps TraceSpec.
Open Scope Z_scope.

(** The events the Tracer makes: starts and ends of spans. *)
Definition span_event (v : pyval) : Prop :=
  exists d, v = PDict d /\ (dgetn "event" d = PStr "start" \/ dgetn "event" d = PStr "end").

Section delivery.
Context `{FloatTextOk} `{Sqlite} (opts : options) (max_spans : Z).

Lemma some_invalid_spans events : Forall span_event events -> some_invalid events = Ok false.
Proof.
  induction 1 as [|v events (d & -> & Hd) _ IH]; [done|]. cbn [some_invalid].
  destruct Hd as [-> | ->]; exact IH.
Qed.

(** The envelope of a sent batch passes the store's checks. *)
Lemma envelope_checked events text :
  (1 <= length events <= 64)%nat -> Forall span_event events ->
  dumps false (envelope events) = Ok text -> text_bytes text <= 65536 ->
  is_batch (envelope events) = Some [("event", PStr "batch"); ("events", PList events)]
  /\ check_batch [("event", PStr "batch"); ("events", PList events)] = Ok events.
Proof.
  intros [Hlo Hhi] Hev Ht Hn. split; [done|]. unfold check_batch. cbn [dgetn dget_or dget].
  change (dgetn "events" [("event", PStr "batch"); ("events", PList events)]) with (PList events).
  cbn [list_of is_list].
  assert ((1 <=? length events)%nat = true) as -> by by apply Nat.leb_le.
  assert ((length events <=? 64)%nat = true) as -> by by apply Nat.leb_le.
  match goal with |- raise_if ?c ?e ≫= _ = _ => assert (raise_if c e = Ok ()) as -> by reflexivity end.
  cbn [mbind result_bind].
  unfold envelope in Ht. rewrite Ht.
  assert (65536 <? Z.of_nat (String.length text) = false) as -> by by apply Z.ltb_ge.
  cbn [raise_if mbind result_bind]. by rewrite some_invalid_spans.
Qed.

Lemma request_spans b events :
  Forall (fun t => exists v, keyed v /\ span_event v /\ encode v = Ok t) b ->
  request b = Ok (envelope events) -> Forall span_event events.
Proof.
  unfold request, envelope. intros Hb (l & Hl & [= ->])%result_bind_Ok. revert events Hl.
  induction Hb as [|t b (v & Hk & Hs & Hv) _ IH]; intros events Hl; cbn [mapM] in Hl.
  - injection Hl as <-. constructor.
  - apply result_bind_Ok in Hl as (v' & Hv' & (vs & Hvs & [= <-])%result_bind_Ok).
    rewrite (loads_dumps false v t) in Hv' by (done || by apply encode_dumps).
    injection Hv' as <-. constructor; auto.
Qed.

(** C29: delivery is exact: when the worker sends a batch and the store takes it,
    the table has every event of the batch, applied in order, and the exporter
    counts the batch as acknowledged; when the store raises, the table is what it
    was and the exporter's stream stops. *)
Theorem delivery_exact s b started a se source run st :
  (0 < batch_size opts <= 64)%nat -> reachable opts s -> s_worker s = Emitting b started ->
  Forall (fun t => exists v, keyed v /\ span_event v /\ encode v = Ok t) b -> batching (obj st) = false ->
  exists events, Forall2 (fun v t => encode v = Ok t) events b /\ request b = Ok (envelope events) /\
  ewp (ingest max_spans (PStr a) (PStr se) (envelope events) source run) (fun r st' =>
    match r with
    | Done ack => emit_error b (Ok (PDict ack)) = None /\
        events_table max_spans (PStr a) (PStr se) source run events (spans_table (obj st)) = Ok (spans_table (obj st'))
    | Raised e => emit_error b (Err e) = Some e /\ spans_table (obj st') = spans_table (obj st)
    | Interrupted => spans_table (obj st') = spans_table (obj st)
    end) st.
Proof.
  intros [Hsz Hsz64] Hr%good_reachable Hw Hspan Hb; [|done].
  pose proof (inflight_events opts s Hr) as He. pose proof (b_inflight _ _ _ _ _ (g_books _ _ Hr)) as Hok.
  rewrite Hw in *. simpl in He.
  destruct (request_fits opts Hsz b He Hok) as (events & text & Hev & Hreq & Hdump & Hbytes & Hlen).
  exists events. split; [done|]. split; [done|].
  destruct (envelope_checked events text) as [Hbatch Hcheck]; [lia|by eapply request_spans|done|done|].
  eapply ewp_mono; [by apply ingest_outcome|]. intros [ack|e|] st' [_ Ho].
  - destruct Ho as (Ht & Hack & _). unfold ingest_table in Ht. rewrite Hbatch, Hcheck in Ht.
    split; [|exact Ht]. rewrite Hack by by eexists. unfold events_of. rewrite Hbatch.
    unfold emit_error. rewrite Hreq. unfold batch_ack. simpl.
    by rewrite (Forall2_length _ _ _ Hev), Z.eqb_refl.
  - destruct Ho as (_ & -> & _). split; [|done]. unfold emit_error. by rewrite Hreq.
  - by destruct Ho.
Qed.
End delivery.

(** * A trace

    A run with a tool call below it: the inputs of the witnesses of the theorems
    on the trace store, and the calls that leave it with an exception of another
    class than its own. *)

(** A database that works, and one that loses the second commit. *)
#[local] Instance sound_sqlite : Sqlite :=
  {| sql := fun _ _ => Done (); perf_counter_ns := fun h => Z.of_nat (length h) |}.

Definition is_commit (c : dbcall) : bool := match c with Commit => true | _ => false end.

Definition losing_sqlite : Sqlite :=
  {| sql := fun h c => if is_commit c && (0 <? length (filter (fun d => is_commit d = true) h))%nat
                       then Raised DatabaseError else Done ();
     perf_counter_ns := fun h => Z.of_nat (length h) |}.

Definition empty_store : store := Store [] 0 0 0 false 0.

Definition start_event (span : string) (parent : pyval) (kind name : string) (at_ns : Z) : pyval :=
  PDict [("event", PStr "start"); ("trace_id", PStr "t1"); ("span_id", PStr span); ("parent_id", parent);
         ("kind", PStr kind); ("name", PStr name); ("clock_id", PStr "linux-1"); ("start_ns", PInt at_ns)].

Definition end_event (span : string) (at_ns : Z) (metrics : dict) : pyval :=
  PDict [("event", PStr "end"); ("trace_id", PStr "t1"); ("span_id", PStr span);
         ("clock_id", PStr "linux-1"); ("end_ns", PInt at_ns); ("status", PStr "ok"); ("metrics", PDict metrics)].

Definition demo_trace : list pyval :=
  [start_event "root" PNone "run" "main" 10; start_event "call" (PStr "root") "tool" "grep" 20;
   end_event "call" 25 [("bytes", PInt 7)]].

Definition batch_of (events : list pyval) : pyval :=
  PDict [("event", PStr "batch"); ("events", PList events)].

Lemma start_event_keyed span parent kind name n : keyed parent -> keyed (start_event span parent kind name n).
Proof.
  intros Hp. apply keyed_dict. split; [apply (bool_decide_unpack (NoDup _)); by vm_compute|by repeat constructor].
Qed.

Lemma end_event_keyed span n metrics : keyed (PDict metrics) -> keyed (end_event span n metrics).
Proof.
  intros Hm. apply keyed_dict. split; [apply (bool_decide_unpack (NoDup _)); by vm_compute|].
  repeat (constructor; [first [exact I|exact Hm]|]). constructor.
Qed.

Lemma demo_trace_keyed : keyed (batch_of demo_trace).
Proof.
  apply keyed_dict. split; [apply (bool_decide_unpack (NoDup _)); by vm_compute|].
  constructor; [exact I|]. constructor; [|constructor]. cbn [snd]. apply keyed_list.
  constructor; [by apply start_event_keyed|]. constructor; [by apply start_event_keyed|].
  constructor; [|constructor]. apply end_event_keyed. apply keyed_dict. split; [|by repeat constructor].
  apply (bool_decide_unpack (NoDup ["bytes"])). by vm_compute.
Qed.

(** The store after the batch, with the database that works. *)
Definition demo_ingest `{Sqlite} (event : pyval) (s : st dbcall store) : reply dict * st dbcall store :=
  ingest 100 (PStr "bob") (PStr "s1") event "framework-sdk" PNone s.

Definition demo_store : st dbcall store := (demo_ingest (batch_of demo_trace) (St [] empty_store)).2.

Lemma ingest_computes_witness :
  (exists ack, (demo_ingest (batch_of demo_trace) (St [] empty_store)).1 = Done ack)
  /\ Ok (spans_table (obj demo_store)) =
     ingest_table 100 (PStr "bob") (PStr "s1") (batch_of demo_trace) "framework-sdk" PNone [].
Proof.
  pose proof (ingest_computes 100 (PStr "bob") (PStr "s1") (batch_of demo_trace) "framework-sdk" PNone
    (St [] empty_store) eq_refl (fun _ _ => eq_refl)) as H. unfold ewp in H. cbn [obj spans_table empty_store] in H.
  destruct (ingest_table _ _ _ _ _ _ []) as [t|e] eqn:E; [|by vm_compute in E].
  destruct H as [Hack Ht]. split; [exact Hack|]. f_equal. exact Ht.
Defined.

(** The commit of the second call is lost: its batch leaves no trace. *)
Definition later_batch : pyval :=
  batch_of [end_event "root" 30 []; start_event "x" PNone "run" "again" 40].

Definition first_call : st dbcall store :=
  (demo_ingest (H := losing_sqlite) (batch_of demo_trace) (St [] empty_store)).2.

Definition second_call : reply dict * st dbcall store :=
  demo_ingest (H := losing_sqlite) later_batch first_call.

Lemma ingest_all_or_nothing_witness :
  outcome (H0 := losing_sqlite) 100 (PStr "bob") (PStr "s1") later_batch "framework-sdk" PNone
    (obj first_call) second_call.1 (obj second_call.2)
  /\ second_call.1 = Raised DatabaseError /\ length (spans_table (obj second_call.2)) = 2%nat.
Proof.
  split; [|by vm_compute].
  exact (ingest_all_or_nothing (H0 := losing_sqlite) 100 (PStr "bob") (PStr "s1") later_batch "framework-sdk"
    PNone first_call ltac:(by vm_compute)).
Defined.

Definition demo_calls : list call :=
  [Call "bob" "s1" (batch_of demo_trace) "framework-sdk" PNone;
   Call "bob" "s1" (end_event "root" 30 []) "framework-sdk" PNone;
   Call "bob" "s1" (end_event "root" 31 []) "framework-sdk" PNone].

Lemma traces_stay_well_formed_witness :
  well_formed 100 (spans_table (obj (serve_calls 100 demo_calls (St [] empty_store)).2))
  /\ length (spans_table (obj (serve_calls 100 demo_calls (St [] empty_store)).2)) = 2%nat
  /\ accepted (obj (serve_calls 100 demo_calls (St [] empty_store)).2) = 4
  /\ rejected (obj (serve_calls 100 demo_calls (St [] empty_store)).2) = 1.
Proof.
  split; [|by vm_compute].
  apply (traces_stay_well_formed 100 demo_calls (St [] empty_store) eq_refl eq_refl).
  unfold demo_calls. repeat (apply Forall_cons; split; [|]); try apply Forall_nil; try exact I; cbn [c_event c_run];
    (split; [|exact I]).
  - apply demo_trace_keyed.
  - apply end_event_keyed. by split; [constructor|].
  - apply end_event_keyed. by split; [constructor|].
Defined.

(** The Session's own SDK cannot end the span the executor opened, nor can a
    later call change a span that has ended. *)
Definition executor_store : st dbcall store :=
  (ingest 100 (PStr "bob") (PStr "s1") (start_event "process-r1" PNone "process" "allox.execution" 5)
     "allox-executor" (PStr "r1") (St [] empty_store)).2.

Lemma executor_store_formed : well_formed 100 (spans_table (obj executor_store)).
Proof.
  assert (keyed (start_event "process-r1" PNone "process" "allox.execution" 5)) as Hk by by apply start_event_keyed.
  pose proof (ingest_changes 100 KINDS "bob" "s1" (start_event "process-r1" PNone "process" "allox.execution" 5)
    "allox-executor" (PStr "r1") (St [] empty_store) eq_refl (well_formed_nil 100) Hk I (all_kinds _)) as H. exact (proj1 H).
Qed.

Definition forged : reply dict * st dbcall store :=
  ingest 100 (PStr "bob") (PStr "s1") (end_event "process-r1" 9 []) "session-sdk" (PStr "r1") executor_store.

Lemma spans_protected_witness :
  (forall k p, (k, p) ∈ spans_table (obj executor_store) -> guarded "bob" "s1" "session-sdk" k p ->
     (k, p) ∈ spans_table (obj forged.2))
  /\ forged.1 = Raised (WorkspaceError "span source mismatch")
  /\ length (spans_table (obj forged.2)) = 1%nat.
Proof.
  split; [|by vm_compute].
  refine (spans_protected 100 "bob" "s1" (end_event "process-r1" 9 []) "session-sdk" (PStr "r1") executor_store
    _ executor_store_formed _ I); [by vm_compute|].
  apply end_event_keyed. by split; [constructor|].
Defined.

(** From the exporter's queue to the table. *)
Definition pipe_before : list move :=
  [CallSubmit 0 (start_event "root" PNone "run" "main" 10); Resume 0;
   CallSubmit 1 (end_event "root" 30 []); Resume 1; Work (accept_ack 0)].

Lemma delivery_exact_witness :
  exists events, length events = 2%nat /\
    request (inflight (s_worker (after pipe_before))) = Ok (envelope events) /\
    events_table 100 (PStr "bob") (PStr "s1") "session-sdk" (PStr "r1") events [] =
      Ok (spans_table (obj (ingest 100 (PStr "bob") (PStr "s1") (envelope events) "session-sdk" (PStr "r1")
        (St [] empty_store)).2)).
Proof.
  assert (keyed (start_event "root" PNone "run" "main" 10)) as Hk1 by by apply start_event_keyed.
  assert (keyed (end_event "root" 30 [])) as Hk2 by (apply end_event_keyed; by split; [constructor|]).
  destruct (delivery_exact demo_opts 100 (after pipe_before) (inflight (s_worker (after pipe_before))) 0 "bob" "s1"
    "session-sdk" (PStr "r1") (St [] empty_store)) as (events & Hev & Hreq & Hin).
  - vm_compute. lia.
  - apply demo_reachable; [|vm_compute; by eexists].
    repeat (apply Forall_cons; split; [first [exact I|exact Hk1|exact Hk2]|]). constructor.
  - by vm_compute.
  - repeat constructor.
    + exists (start_event "root" PNone "run" "main" 10). split; [exact Hk1|].
      split; [eexists; split; [reflexivity|by left]|by vm_compute].
    + exists (end_event "root" 30 []). split; [exact Hk2|].
      split; [eexists; split; [reflexivity|by right]|by vm_compute].
  - reflexivity.
  - pose proof (Forall2_length _ _ _ Hev) as Hlen.
    exists events. split; [rewrite Hlen; by vm_compute|]. split; [exact Hreq|].
    assert (events = [start_event "root" PNone "run" "main" 10; end_event "root" 30 []]) as ->.
    { assert (request (inflight (s_worker (after pipe_before))) =
        Ok (envelope [start_event "root" PNone "run" "main" 10; end_event "root" 30 []])) as E by by vm_compute.
      rewrite E in Hreq. by injection Hreq. }
    by vm_compute.
Defined.

(** ** Calls that leave with an exception of another class *)

(** Also: a metric that no float comes near raises [OverflowError], and an event
    field that cannot be hashed raises [TypeError], where the store refuses
    every other malformed event with its own exception. *)
Theorem foreign_exceptions :
  (ingest 100 (PStr "bob") (PStr "s1") (end_event "root" 30 [("m", PInt (10 ^ 400))]) "framework-sdk" PNone
     (ingest 100 (PStr "bob") (PStr "s1") (start_event "root" PNone "run" "main" 10) "framework-sdk" PNone
        (St [] empty_store)).2).1 = Raised OverflowError
  /\ (demo_ingest (batch_of [PDict [("event", PList [])]]) (St [] empty_store)).1 = Raised TypeError.
Proof. split; by vm_compute. Qed.

(** Also: a batch refused for its shape is not counted as rejected, while a
    single event refused for its shape is. *)
Theorem malformed_batch_uncounted :
  rejected (obj (demo_ingest (batch_of []) (St [] empty_store)).2) = 0
  /\ (demo_ingest (batch_of []) (St [] empty_store)).1 = Raised (WorkspaceError "batch requires 1..64 events")
  /\ rejected (obj (demo_ingest (PDict []) (St [] empty_store)).2) = 1.
Proof. repeat split; by vm_compute. Qed.
