(* ===== verification/Host.v ===== *)
(** * The host as the system-effects plugin sees it

    Files by path and by descriptor, child processes, threads and the clock.
    What each call returns or raises is a function of the calls made so far, so
    the host may do anything between two of them.  Times are in nanoseconds. *)

From Stdlib Require Import Ascii.
From Stdlib Require String.
From S2P Require Import Prelude Effects PyVal Paths Kernel.
Open Scope Z_scope.

(** The fields of [os.stat_result] the plugin looks at. *)
Record metadata := Metadata {
  st_dev : Z; st_ino : Z; st_mode : Z; st_uid : Z; st_nlink : Z; st_size : Z;
  st_mtime_ns : Z; st_ctime_ns : Z }.

#[export] Instance metadata_eq_dec : EqDecision metadata.
Proof. solve_decision. Defined.

(** [stat.S_ISREG] and [stat.S_ISDIR]: the bits [0o170000] of the mode. *)
Definition S_ISREG (mode : Z) : bool := Z.land mode 61440 =? 32768.
Definition S_ISDIR (mode : Z) : bool := Z.land mode 61440 =? 16384.

(** [mode & 0o022] and [mode & 0o077] *)
Definition writable_by_others (mode : Z) : bool := negb (Z.land mode 18 =? 0).
Definition open_to_others (mode : Z) : bool := negb (Z.land mode 63 =? 0).

Inductive open_flag := O_RDONLY | O_WRONLY | O_RDWR | O_CREAT | O_EXCL | O_CLOEXEC | O_DIRECTORY
  | O_NOFOLLOW | O_NONBLOCK.

Inductive child := Observer | Verifier.

Inductive thread := StdoutReader | StderrReader.

Inductive signal := SIGTERM | SIGKILL.

Inductive hcall :=
  (* paths *)
  | HResolve (p : pure_path)                    (* Path.resolve(strict=True) *)
  | HLstat (p : pure_path)
  | HExists (p : pure_path)
  | HIsSymlink (p : pure_path)
  | HIsDir (p : pure_path)
  | HExecutable (p : pure_path)                 (* os.access(p, os.X_OK) *)
  (* descriptors *)
  | HOpen (p : pure_path) (flags : list open_flag)
  | HOpenAt (dir : Z) (name : string) (flags : list open_flag)
  | HFstat (fd : Z)
  | HStatAt (dir : Z) (name : string)           (* follow_symlinks=False *)
  | HRead (fd : Z) (n : Z)
  | HWrite (fd : Z) (bytes : string)
  | HFsync (fd : Z)
  | HClose (fd : Z)
  | HLock (fd : Z)                              (* flock(fd, LOCK_EX | LOCK_NB) *)
  | HUnlock (fd : Z)
  (* time *)
  | HClock
  | HSleep (ns : Z)
  (* child processes *)
  | HSpawn (c : child) (argv : list string)
  | HStartThread (t : thread)
  | HJoin (t : thread) (ns : Z)
  | HDrained (ns : Z)                           (* the two drain threads of the verifier *)
  | HStdin (bytes : string)                     (* write, flush, close *)
  | HStdinWrite (bytes : string)                (* write, flush *)
  | HStdinClosed
  | HCloseStdin
  | HCloseOutput
  | HPoll (c : child)
  | HWait (c : child) (ns : Z)
  | HKillGroup (c : child) (s : signal)
  | HSignal (c : child) (s : signal)            (* terminate() and kill() *)
  | HDequeue (ns : Z)                           (* Queue.get(timeout=...) *)
  (* the store: complete_deferred_rollback *)
  | HCleanup (agent_id session_id recovery_id : string)
  (* the owner *)
  | HOnFailure (reason : string)
  | HOnClose.

(** What a call returns. *)
Definition answer (c : hcall) : Type :=
  match c with
  | HResolve _ => pure_path
  | HLstat _ | HFstat _ | HStatAt _ _ => metadata
  | HExists _ | HIsSymlink _ | HIsDir _ | HExecutable _ | HStdinClosed => bool
  | HOpen _ _ | HOpenAt _ _ _ | HWrite _ _ | HClock | HSpawn _ _ | HWait _ _ => Z
  | HRead _ _ => string
  | HPoll _ => option Z
  | HCleanup _ _ _ => pyval
  | HDrained _ => (bool * list string * list string)%type  (* one is alive; the chunks of both *)
  | _ => unit
  end.

Class Host := {
  host : list hcall -> forall c : hcall, reply (answer c);
  euid : Z }.

Section host.
Context `{Host} {O : Type}.

Definition call (c : hcall) : P hcall O (answer c) := perform c (fun h => host h c).

(** The clock does not fail. *)
Definition now : P hcall O Z := call HClock.

(** [os.close] in a [finally]. *)
Definition closing {A} (fd : Z) (m : P hcall O A) : P hcall O A := finally m (call (HClose fd)).

(** [uid in {0, os.geteuid()}] *)
Definition trusted_owner (m : metadata) : bool := (st_uid m =? 0) || (st_uid m =? euid).

(** A loop that has turned as often as its fuel allows is cut off. *)
Definition cut_off {A} : P hcall O A := fun s => (Interrupted, s).
End host.

(** ** Reading a file to its end

    [limit] bounds the file; no read asks for more than one byte beyond it. *)

Section reading.
Context `{Host} {O : Type}.

Fixpoint read_chunks (turns : nat) (fd limit consumed : Z) (too_long : exn) : P hcall O string :=
  match turns with
  | 0%nat => cut_off
  | S turns =>
      chunk ← call (HRead fd (Z.min (64 * 1024) (limit + 1 - consumed)));
      if str_eqb chunk EmptyString then mret EmptyString
      else
        let consumed := consumed + Z.of_nat (String.length chunk) in
        throw_when (limit <? consumed) too_long;;
        rest ← read_chunks turns fd limit consumed too_long;
        mret (chunk +:+ rest)
  end.

(** Every turn but the last takes a byte, so these are enough. *)
Definition turns_for (limit : Z) : nat := Z.to_nat (limit + 2).

(** The fields compared before and after: all of [metadata]. *)
Definition read_stable (fd limit : Z) (bounded : metadata -> bool) (unbounded too_long changed : exn)
    : P hcall O string :=
  before ← call (HFstat fd);
  throw_when (negb (bounded before)) unbounded;;
  text ← read_chunks (turns_for limit) fd limit 0 too_long;
  after ← call (HFstat fd);
  throw_when (negb (Z.of_nat (String.length text) =? st_size before) || negb (bool_decide (before = after)))
    changed;;
  mret text.
End reading.

(** ** How a computation moves the whole state

    [travels R m]: the calls made and the object, from before [m] to after it,
    are related by [R], however [m] ends. *)

Definition travels {C O : Type} (R : relation (st C O)) {A} (m : P C O A) : Prop :=
  forall s, R s (m s).2.

Section travels.
Context {C O : Type} (R : relation (st C O)) `{!PreOrder R}.

Lemma travels_still {A} (m : P C O A) : (forall s, (m s).2 = s) -> travels R m.
Proof. intros H s. by rewrite H. Qed.

Lemma travels_ret {A} (a : A) : travels R (mret a : P C O A).
Proof. by apply travels_still. Qed.

Lemma travels_throw {A} e : travels R (throw e : P C O A).
Proof. by apply travels_still. Qed.

Lemma travels_throw_when b e : travels R (throw_when b e : P C O unit).
Proof. apply travels_still. by destruct b. Qed.

Lemma travels_lift {A} (r : result A) : travels R (lift r : P C O A).
Proof. apply travels_still. by destruct r. Qed.

Lemma travels_read {A} (f : O -> A) : travels R (read f : P C O A).
Proof. by apply travels_still. Qed.

Lemma travels_perform {A} c (answer : list C -> reply A) :
  (forall s, R s (St (hist s ++ [c]) (obj s))) -> travels R (perform c answer : P C O A).
Proof. intros H s. apply H. Qed.

Lemma travels_modify f : (forall s, R s (St (hist s) (f (obj s)))) -> travels R (modify f : P C O unit).
Proof. intros H s. apply H. Qed.

Lemma travels_interleave f :
  (forall s, R s (St (hist s) (f (hist s) (obj s)))) -> travels R (interleave f : P C O unit).
Proof. intros H s. apply H. Qed.

Lemma travels_bind {A B} (m : P C O A) (f : A -> P C O B) :
  travels R m -> (forall a, travels R (f a)) -> travels R (m ≫= f).
Proof.
  intros Hm Hf s. specialize (Hm s). unfold mbind, P_bind.
  destruct (m s) as [[a|e|] s1]; simpl in *; [|done..]. by transitivity s1; [|apply Hf].
Qed.

Lemma travels_catch {A} (m : P C O A) h :
  travels R m -> (forall e, travels R (h e)) -> travels R (catch m h).
Proof.
  intros Hm Hh s. specialize (Hm s). unfold catch.
  destruct (m s) as [[a|e|] s1]; simpl in *; [done| |done]. by transitivity s1; [|apply Hh].
Qed.

Lemma travels_finally {A} (m : P C O A) fin :
  travels R m -> travels R fin -> travels R (finally m fin).
Proof.
  intros Hm Hf s. specialize (Hm s). unfold finally. destruct (m s) as [r s1]. simpl in *.
  specialize (Hf s1). destruct (fin s1) as [[[]|e|] s2]; simpl in *; by transitivity s1.
Qed.

Lemma travels_unwinding {A} (m : P C O A) cleanup :
  travels R m -> travels R cleanup -> travels R (unwinding m cleanup).
Proof.
  intros Hm Hc s. specialize (Hm s). unfold unwinding.
  destruct (m s) as [[a|e|] s1]; simpl in *; [done|..];
    specialize (Hc s1); destruct (cleanup s1) as [[[]|e'|] s2]; simpl in *; by transitivity s1.
Qed.

Lemma travels_iterate {A} (f : A -> P C O unit) l :
  (forall x, travels R (f x)) -> travels R (iterate f l).
Proof.
  intros Hf. induction l as [|x l IH]; simpl; [apply travels_ret|]. by apply travels_bind.
Qed.

(** What a computation moves along holds of its outcome. *)
Lemma ewp_travels {A} (m : P C O A) (Q : reply A -> st C O -> Prop) s :
  travels R m -> ewp m (fun r s' => R s s' -> Q r s') s -> ewp m Q s.
Proof. intros Hm H. apply H, Hm. Qed.
End travels.

(** [R] above every part of [m]; what is left are calls and changes. *)
Ltac travel_step :=
  lazymatch goal with
  | |- travels _ (mret _) => apply travels_ret; exact _
  | |- travels _ (throw _) => apply travels_throw; exact _
  | |- travels _ (throw_when _ _) => apply travels_throw_when; exact _
  | |- travels _ (lift _) => apply travels_lift; exact _
  | |- travels _ (read _) => apply travels_read; exact _
  | |- travels _ (_ ≫= _) => apply travels_bind; [exact _| |intros ?]
  | |- travels _ (catch _ _) => apply travels_catch; [exact _| |intros ?]
  | |- travels _ (finally _ _) => apply travels_finally; [exact _| |]
  | |- travels _ (unwinding _ _) => apply travels_unwinding; [exact _| |]
  | |- travels _ (iterate _ _) => apply travels_iterate; [exact _|intros ?]
  | |- travels _ (modify _) => apply travels_modify
  | |- travels _ (match ?x with _ => _ end) => destruct x
  | |- travels _ (let _ := _ in _) => cbv zeta
  end.

(** ** What holds when a computation returns *)

Definition returns {C O A : Type} (m : P C O A) (Q : A -> st C O -> Prop) (s : st C O) : Prop :=
  forall a s', m s = (Done a, s') -> Q a s'.

Section returns.
Context {C O : Type}.

Lemma returns_mono {A} (m : P C O A) (Q Q' : A -> st C O -> Prop) s :
  returns m Q s -> (forall a s', Q a s' -> Q' a s') -> returns m Q' s.
Proof. intros H HQ a s' Hm. by apply HQ, H. Qed.

Lemma returns_ret {A} (a : A) (Q : A -> st C O -> Prop) s : Q a s -> returns (mret a) Q s.
Proof. by intros H b s' [= <- <-]. Qed.

Lemma returns_throw {A} e (Q : A -> st C O -> Prop) s : returns (throw e) Q s.
Proof. intros a s' [=]. Qed.

Lemma returns_throw_when b e (Q : unit -> st C O -> Prop) s :
  (b = false -> Q () s) -> returns (throw_when b e) Q s.
Proof. intros H a s'. destruct b; intros [=]; subst. by apply H. Qed.

Lemma returns_lift {A} (r : result A) (Q : A -> st C O -> Prop) s :
  (forall a, r = Ok a -> Q a s) -> returns (lift r) Q s.
Proof. intros H a s'. destruct r; intros [=]; subst. by apply H. Qed.

Lemma returns_read {A} (f : O -> A) (Q : A -> st C O -> Prop) s :
  Q (f (obj s)) s -> returns (read f) Q s.
Proof. by intros H a s' [= <- <-]. Qed.

Lemma returns_modify f (Q : unit -> st C O -> Prop) s :
  Q () (St (hist s) (f (obj s))) -> returns (modify f) Q s.
Proof. by intros H a s' [= <- <-]. Qed.

Lemma returns_perform {A} c (answer : list C -> reply A) (Q : A -> st C O -> Prop) s :
  (forall a, answer (hist s) = Done a -> Q a (St (hist s ++ [c]) (obj s))) ->
  returns (perform c answer) Q s.
Proof. intros H a s' [= Ha <-]. by apply H. Qed.

Lemma returns_bind {A B} (m : P C O A) (f : A -> P C O B) (Q : B -> st C O -> Prop) s :
  returns m (fun a s' => returns (f a) Q s') s -> returns (m ≫= f) Q s.
Proof.
  intros H b s'. unfold mbind, P_bind. destruct (m s) as [[a|e|] s1] eqn:Hm; [|done..].
  by apply (H _ _ Hm).
Qed.

Lemma returns_catch {A} (m : P C O A) h (Q : A -> st C O -> Prop) s :
  returns m Q s -> (forall e s', m s = (Raised e, s') -> returns (h e) Q s') -> returns (catch m h) Q s.
Proof.
  intros Hm Hh a s'. unfold catch. destruct (m s) as [[b|e|] s1] eqn:E; intros Ha; [|by eapply Hh|done].
  injection Ha as -> ->. by apply Hm.
Qed.

Lemma returns_wrapping {A} caught what (m : P C O A) (Q : A -> st C O -> Prop) s :
  returns m Q s -> returns (wrapping caught what m) Q s.
Proof.
  intros Hm. apply returns_catch; [done|]. intros e s' _.
  destruct (caught e); apply returns_throw.
Qed.

Lemma returns_unwinding {A} (m : P C O A) cleanup (Q : A -> st C O -> Prop) s :
  returns m Q s -> returns (unwinding m cleanup) Q s.
Proof.
  intros Hm a s'. unfold unwinding. destruct (m s) as [[b|e|] s1] eqn:E.
  - intros [= -> ->]. by apply Hm.
  - by destruct (cleanup s1) as [[|?|] ?].
  - by destruct (cleanup s1) as [[|?|] ?].
Qed.

Lemma returns_finally {A} (m : P C O A) fin (Q : A -> st C O -> Prop) s :
  returns m (fun a s' => returns fin (fun _ s'' => Q a s'') s') s -> returns (finally m fin) Q s.
Proof.
  intros Hm a s'. unfold finally. destruct (m s) as [r s1] eqn:E.
  destruct (fin s1) as [[u|?|] s2] eqn:E2; [|done..]. intros [= -> ->]. by eapply Hm.
Qed.

Lemma returns_travels {A} (R : relation (st C O)) (m : P C O A) (Q : A -> st C O -> Prop) s :
  travels R m -> returns m (fun a s' => R s s' -> Q a s') s -> returns m Q s.
Proof. intros Ht H a s' Hm. apply H; [done|]. specialize (Ht s). by rewrite Hm in Ht. Qed.

(** Only the change matters. *)
Lemma returns_along {A} (R : relation (st C O)) (m : P C O A) (Q : A -> st C O -> Prop) s :
  travels R m -> (forall a s', R s s' -> Q a s') -> returns m Q s.
Proof. intros Ht H a s' Hm. apply H. specialize (Ht s). by rewrite Hm in Ht. Qed.

Lemma returns_ewp {A} (m : P C O A) (Q : A -> st C O -> Prop) s :
  returns m Q s -> ewp m (fun r s' => match r with Done a => Q a s' | _ => True end) s.
Proof. intros H. unfold ewp. destruct (m s) as [[a|e|] s'] eqn:E; [|done..]. by apply H. Qed.
End returns.

(** ** Answers in a history *)

Definition answered `{Host} (h : list hcall) (c : hcall) (r : answer c) : Prop :=
  exists before after, h = before ++ c :: after /\ host before c = Done r.

Lemma answered_longer `{Host} h k c r : answered h c r -> answered (h ++ k) c r.
Proof. intros (b & a & -> & Hr). exists b, (a ++ k). by rewrite <-app_assoc. Qed.

Lemma answered_last `{Host} h c r : host h c = Done r -> answered (h ++ [c]) c r.
Proof. by exists h, []. Qed.

(** The history grows. *)
Definition grows {C O : Type} (s s' : st C O) : Prop := hist s `prefix_of` hist s'.

#[export] Instance grows_preorder {C O} : PreOrder (@grows C O).
Proof. unfold grows. split; [by intros ?|]. intros ? ? ?. by etrans. Qed.

Lemma answered_mono `{Host} h h' c r : h `prefix_of` h' -> answered h c r -> answered h' c r.
Proof. intros [k ->]. apply answered_longer. Qed.

(** ** Reading *)

Section reading_facts.
Context `{Host} {O : Type}.

Lemma read_chunks_returns turns fd limit consumed e (s : st hcall O) :
  returns (read_chunks turns fd limit consumed e) (fun text s' =>
    grows s s' /\ (text <> EmptyString -> consumed + Z.of_nat (String.length text) <= limit)) s.
Proof.
  revert consumed s. induction turns as [|turns IH]; intros consumed s; simpl; [by intros ?|].
  apply returns_bind, (returns_perform (HRead _ _)). intros chunk _.
  assert (forall o, grows s (St (hist s ++ [HRead fd (Z.min 65536 (limit + 1 - consumed))]) o)) as Hg
    by (intros o; exists [HRead fd (Z.min 65536 (limit + 1 - consumed))]; done).
  destruct (str_eqb chunk EmptyString); [by apply returns_ret|].
  apply returns_bind, returns_throw_when. intros Hle%Z.ltb_ge.
  apply returns_bind. eapply returns_mono; [apply IH|]. intros rest s' [Hg' Hrest]. apply returns_ret.
  split; [etrans; [apply Hg|exact Hg']|]. intros _. rewrite string_length_app.
  destruct rest as [|c rest]; [simpl; lia|]. specialize (Hrest ltac:(done)). lia.
Qed.

(** Also: a file is taken only as it was the whole time: what is returned has the
    size that both [fstat]s report, which agree in every field, and is within
    the bounds. *)
Theorem read_stable_unchanged fd limit bounded e1 e2 e3 (s : st hcall O) :
  returns (read_stable fd limit bounded e1 e2 e3) (fun text s' => grows s s' /\
    exists m h, hist s' = h ++ [HFstat fd] /\ answered h (HFstat fd) m /\ answered (hist s') (HFstat fd) m
      /\ bounded m = true /\ st_size m = Z.of_nat (String.length text)
      /\ (text <> EmptyString -> st_size m <= limit)) s.
Proof.
  unfold read_stable. apply returns_bind, (returns_perform (HFstat fd)). intros m Hm.
  apply returns_bind, returns_throw_when. intros Hb%negb_false_iff.
  apply returns_bind. eapply returns_mono; [apply read_chunks_returns|]. intros text s1 [Hg Hl].
  apply returns_bind, (returns_perform (HFstat fd)). intros m' Hm'.
  apply returns_bind, returns_throw_when. intros [Hsz%negb_false_iff Heq%negb_false_iff]%orb_false_iff.
  apply bool_decide_eq_true in Heq as <-. apply Z.eqb_eq in Hsz. apply returns_ret.
  unfold grows in *. simpl in *.
  split; [apply prefix_app_r; etrans; [by apply prefix_app_r|exact Hg]|].
  exists m, (hist s1). split; [done|].
  split; [by eapply answered_mono; [exact Hg|apply answered_last]|]. split; [by apply answered_last|].
  split; [done|]. split; [done|]. intros Ht. specialize (Hl Ht). lia.
Qed.

(** Also: reading ends: every turn but the last makes progress, so that the fuel
    of [read_stable] is enough whatever the file does meanwhile. *)
Theorem read_chunks_ends fd limit consumed e turns (s : st hcall O) :
  (forall h c, host h c <> Interrupted) -> consumed <= limit -> limit + 1 - consumed < Z.of_nat turns ->
  (read_chunks turns fd limit consumed e s).1 <> Interrupted.
Proof.
  intros Hh. revert consumed s. induction turns as [|turns IH]; intros consumed s Hc Ht; [lia|].
  change (ewp (read_chunks (S turns) fd limit consumed e) (fun r _ => r <> Interrupted) s). simpl.
  apply ewp_bind, (ewp_perform (HRead _ _)). intros [chunk|x|] Hr; [|done|by destruct (Hh _ (HRead _ _) Hr)].
  destruct (str_eqb chunk EmptyString) eqn:He; [by apply ewp_ret|]. apply str_eqb_neq in He.
  assert (1 <= Z.of_nat (String.length chunk)) by (destruct chunk; [done|simpl; lia]).
  apply ewp_bind, ewp_throw_when; [done|]. intros Hle%Z.ltb_ge. apply ewp_bind.
  apply (ewp_mono _ (fun r _ => r <> Interrupted)); [apply (IH (consumed + Z.of_nat (String.length chunk))); lia|].
  intros [rest|x|] s' Hr'; [by apply ewp_ret|done|done].
Qed.

Lemma turns_enough limit : 0 <= limit -> limit + 1 - 0 < Z.of_nat (turns_for limit).
Proof. unfold turns_for. lia. Qed.
End reading_facts.
