(* ===== verification/EffectsConfig.v ===== *)
(** * The configuration of the system-effects plugin

    [src/plugins/system-effects/src/allox_system_effects/config.py]: which paths,
    digests, scopes and bounds the daemon accepts for the observer it will run
    with its own privileges. *)

From Stdlib Require Import Ascii SpecFloat.
From Stdlib Require String.
From stdpp Require Import pretty.
From S2P Require Import Prelude Effects PyVal Paths Kernel Json Host.
Open Scope Z_scope.

Definition MAX_SCOPE_BYTES : Z := 4 * 1024 * 1024.
Definition MAX_CONFIG_BYTES : Z := 1024 * 1024.
Definition MAX_RECOVERY_OUTPUT_BYTES : Z := 8 * 1024 * 1024.
Definition DEFAULT_HOST_LOCK_PATH : string := "/run/allox-system-effects.lock".

Definition _HEX : string := "0123456789abcdef".
Definition _PROFILES : list pyval := [PStr "control"; PStr "balanced"; PStr "full"].
Definition _OBJECT_MODES : list pyval :=
  [PStr "USER_INPUT"; PStr "KERNEL_FILE_OPEN_PARTIAL"; PStr "KERNEL_FILE_OPEN_WRITE_PARTIAL";
   PStr "KERNEL_OBJECT_EXPANDED_PARTIAL"].

Definition _CONFIG_KEYS : list string :=
  ["observer_path"; "verifier_path"; "recorder_object_path"; "recorder_object_sha256";
   "lifecycle_object_path"; "lifecycle_object_sha256"; "profile"; "object_resolution_mode";
   "bpf_state_scope_file"; "filesystem_state_scope_file"; "linux_state_scope_file";
   "poll_interval_ms"; "drain_timeout_ms"; "ready_timeout"; "finalize_timeout"; "host_lock_path";
   "recovery_verifier_path"; "recovery_helper_path"; "recovery_helper_sha256";
   "recovery_timeout_ms"; "recovery_max_output_bytes"].

Definition _REQUIRED_KEYS : list string :=
  ["observer_path"; "recorder_object_path"; "recorder_object_sha256"; "lifecycle_object_path";
   "lifecycle_object_sha256"].

Definition is_sha256 (value : pyval) : bool :=
  match value with
  | PStr s => (String.length s =? 64)%nat && string_forallb (fun c => char_in c _HEX) s
  | _ => false
  end.

(** ** Numbers within bounds *)

(** A number as mantissa and binary exponent; [None] for infinities and NaN. *)
Definition number_parts (x : Z + spec_float) : option (Z * Z) :=
  match x with inl z => Some (z, 0) | inr f => float_parts f end.

(** [lower <= value <= upper] for finite bounds; exact across [int] and [float]. *)
Definition number_between (lower upper x : Z + spec_float) : bool :=
  match number_parts lower, number_parts x, number_parts upper with
  | Some l, Some v, Some u =>
      match parts_compare l v, parts_compare v u with
      | Gt, _ | _, Gt => false
      | _, _ => true
      end
  | _, _, _ => false
  end.

(** The [float] nearest to a small integer, and the literal [0.1]. *)
Definition float_of_int (z : Z) : spec_float := binary_normalize 53 1024 z 0 false.
Definition tenth : spec_float := S754_finite false 7205759403792794 (-56).

Definition out_of_bounds (key bounds : string) : exn :=
  WorkspaceError ("system-effects " +:+ key +:+ " must be in " +:+ bounds).

(** [_bounded_number(config, key, default, lower, upper, integer=True)] *)
Definition bounded_integer (config : dict) (key : string) (default lower upper : Z) : result Z :=
  let refused := Err (out_of_bounds key ("[" +:+ pretty lower +:+ ", " +:+ pretty upper +:+ "]")) in
  match dget_or key (PInt default) config with
  | PInt z => if (lower <=? z) && (z <=? upper) then Ok z else refused
  | _ => refused
  end.

(** The same without [integer=True]; [bounds] is how the message shows them. *)
Definition bounded_float (config : dict) (key : string) (default lower upper : spec_float)
    (bounds : string) : result spec_float :=
  let value := dget_or key (PFloat default) config in
  match value with
  | PInt z =>
      if number_between (inr lower) (inr upper) (inl z) then Ok (float_of_int z)
      else Err (out_of_bounds key bounds)
  | PFloat f =>
      if number_between (inr lower) (inr upper) (inr f) then Ok f
      else Err (out_of_bounds key bounds)
  | _ => Err (out_of_bounds key bounds)
  end.

(** ** Trusted paths *)

Definition refuse {C O A} (label what : string) : P C O A :=
  throw (WorkspaceError ("system-effects " +:+ label +:+ what)).
Definition refuse_when {C O} (b : bool) (label what : string) : P C O unit :=
  throw_when b (WorkspaceError ("system-effects " +:+ label +:+ what)).

Section config.
Context `{FloatText} `{Host} {O : Type}.

Abbreviation H_ := (P hcall O).

(** A nonempty string without NUL. *)
Definition path_text (raw : pyval) : option string :=
  match raw with
  | PStr s => if str_eqb s EmptyString || char_in "000" s then None else Some s
  | _ => None
  end.

Definition _trusted_regular_path (raw : pyval) (label : string) (executable : bool)
    : H_ pure_path :=
  match path_text raw with
  | None => refuse label " must be a nonempty path"
  | Some s =>
      let path := parse_path s in
      refuse_when (negb (is_absolute path)) label " must be absolute";;
      '(resolved, metadata) ← wrapping is_os_error ("system-effects " +:+ label +:+ " is unavailable")
        (resolved ← call (HResolve path); metadata ← call (HLstat path); mret (resolved, metadata));
      refuse_when (negb (bool_decide (resolved = path)) || negb (S_ISREG (st_mode metadata))
                   || negb (st_nlink metadata =? 1))
        label " must be a canonical singly-linked regular file";;
      refuse_when (negb (trusted_owner metadata) || writable_by_others (st_mode metadata))
        label " must be root/daemon-owned and not group/world writable";;
      (if executable then
         x ← call (HExecutable path); refuse_when (negb x) label " is not executable"
       else mret ());;
      mret path
  end.

Definition no_name (path : pure_path) : bool :=
  match List.last (p_parts path) EmptyString with
  | EmptyString | "." | ".." => true
  | _ => false
  end.

Definition _trusted_host_lock_path (raw : pyval) : H_ pure_path :=
  match path_text raw with
  | None => refuse "host_lock_path" " must be a nonempty path"
  | Some s =>
      let path := parse_path s in
      let directory := path_parent path in
      refuse_when (negb (is_absolute path) || no_name path) "host_lock_path" " must be absolute";;
      '(parent, metadata) ← wrapping is_os_error "system-effects host lock parent is unavailable"
        (parent ← call (HResolve directory); metadata ← call (HLstat directory); mret (parent, metadata));
      refuse_when (negb (bool_decide (parent = directory)) || negb (S_ISDIR (st_mode metadata)))
        "host_lock_path" " parent must be a canonical real directory";;
      refuse_when (negb (trusted_owner metadata) || writable_by_others (st_mode metadata))
        "host lock parent" " must be root/daemon-owned and not group/world writable";;
      found ← catch (m ← call (HLstat path); mret (Some m)) (fun e =>
        if bool_decide (e = ENOENT) then mret None
        else if is_os_error e then
          refuse "host lock" (" is unavailable: " +:+ exn_str e)
        else throw e);
      match found with
      | None => mret path
      | Some metadata =>
          refuse_when (negb (S_ISREG (st_mode metadata)) || negb (st_nlink metadata =? 1)
                       || negb (trusted_owner metadata) || open_to_others (st_mode metadata))
            "host lock" " must be a private singly-linked root/daemon-owned regular file";;
          mret path
      end
  end.

(** ** Scope files *)

(** UTF-8 text of Latin-1 characters; other characters are outside the model of
    [str], as are the UTF-16 and UTF-32 texts that [json.loads] detects. *)
Fixpoint decode_utf8 (s : string) : option string :=
  match s with
  | EmptyString => Some EmptyString
  | String c s' =>
      if (ascii_n c <? 128)%N then String c <$> decode_utf8 s'
      else match s' with
           | String d t =>
               if ((ascii_n c =? 194) || (ascii_n c =? 195))%N && in_range "128" "191" d
               then String (ascii_of_N ((ascii_n c - 192) * 64 + (ascii_n d - 128))) <$> decode_utf8 t
               else None
           | EmptyString => None
           end
  end.

(** [json.loads] of bytes; [UnicodeDecodeError] is caught wherever
    [JSONDecodeError] is. *)
Definition loads_bytes (s : string) : result pyval :=
  match decode_utf8 s with Some t => loads t | None => Err JSONDecodeError end.

Definition scope_flags : list open_flag := [O_RDONLY; O_CLOEXEC; O_NOFOLLOW; O_NONBLOCK].

Definition _read_stable_json (path : pure_path) (label : string) : H_ dict :=
  descriptor ← wrapping is_os_error ("failed to open system-effects " +:+ label)
    (call (HOpen path scope_flags));
  text ← closing descriptor
    (read_stable descriptor MAX_SCOPE_BYTES
       (fun m => S_ISREG (st_mode m) && (st_nlink m =? 1) && (0 <=? st_size m)
                 && (st_size m <=? MAX_SCOPE_BYTES))
       (WorkspaceError ("system-effects " +:+ label +:+ " must be a bounded singly-linked regular file"))
       (WorkspaceError ("system-effects " +:+ label +:+ " exceeds the 4 MiB bound"))
       (WorkspaceError ("system-effects " +:+ label +:+ " changed while it was read")));
  value ← catch (lift (loads_bytes text)) (fun e =>
    if bool_decide (e = JSONDecodeError) then refuse label " is not valid JSON" else throw e);
  match value with
  | PDict d => mret d
  | _ => refuse label " must contain one JSON object"
  end.

Definition _scope (config : dict) (key : string) : H_ (option dict) :=
  match dgetn key config with
  | PNone => mret None
  | raw =>
      path ← _trusted_regular_path raw key false;
      d ← _read_stable_json path key; mret (Some d)
  end.

(** ** The configuration *)

Record SystemEffectsConfig := SystemEffectsConfig_ {
  observer_path : pure_path;
  verifier_path : pure_path;
  recorder_object_path : pure_path;
  recorder_object_sha256 : string;
  lifecycle_object_path : pure_path;
  lifecycle_object_sha256 : string;
  profile : string;
  object_resolution_mode : string;
  bpf_state_scope : option dict;
  filesystem_state_scope : option dict;
  linux_state_scope : option dict;
  poll_interval_ms : Z;
  drain_timeout_ms : Z;
  ready_timeout : spec_float;
  finalize_timeout : spec_float;
  host_lock_path : pure_path;
  recovery_verifier_path : option pure_path;
  recovery_helper_path : option pure_path;
  recovery_helper_sha256 : option string;
  recovery_timeout_ms : Z;
  recovery_max_output_bytes : Z }.

(** [sorted(set(a) - set(b))] *)
Definition keys_without (a b : list string) : list string :=
  sort_strings (remove_dups (List.filter (fun k => negb (existsb (str_eqb k) b)) a)).

(** The value of a key that is a string of the given set; anything unhashable
    raises in the membership test. *)
Definition choice (value : pyval) (among : list pyval) (e : exn) : result string :=
  known ← in_set value among;
  raise_if (negb known) e;;
  match value with PStr s => Ok s | _ => Err e end.

Definition digest_of (value : pyval) (key : string) : result string :=
  raise_if (negb (is_sha256 value))
    (WorkspaceError ("system-effects " +:+ key +:+ " must be 64 lowercase hexadecimal bytes"));;
  match value with PStr s => Ok s | _ => Err TypeError end.

(** The path given, or the one of that name beside the observer. *)
Definition or_beside (raw : pyval) (observer : pure_path) (name : string) : result pyval :=
  match raw with
  | PNone => p ← path_with_name observer name; Ok (PStr (path_str p))
  | _ => Ok raw
  end.

Definition recovery_part (raw : dict) (observer : pure_path)
    : H_ (option pure_path * option pure_path * option string) :=
  let helper := dgetn "recovery_helper_path" raw in
  let sha := dgetn "recovery_helper_sha256" raw in
  let verifier := dgetn "recovery_verifier_path" raw in
  throw_when (xorb (is_none helper) (is_none sha))
    (WorkspaceError ("system-effects recovery_helper_path and recovery_helper_sha256 "
                     +:+ "must be configured together"));;
  throw_when (negb (is_none verifier) && is_none helper)
    (WorkspaceError "system-effects recovery_verifier_path requires a recovery helper");;
  recovery_helper ← (if is_none helper then mret None
                     else p ← _trusted_regular_path helper "recovery_helper_path" true; mret (Some p));
  recovery_sha ← (if is_none sha then mret None
                  else d ← lift (digest_of sha "recovery_helper_sha256"); mret (Some d));
  recovery_verifier ←
    (match recovery_helper with
     | None => mret None
     | Some _ =>
         r ← lift (or_beside verifier observer "deployment-observe-recovery-verify");
         p ← _trusted_regular_path r "recovery_verifier_path" true; mret (Some p)
     end);
  mret (recovery_verifier, recovery_helper, recovery_sha).

Definition from_mapping (raw : pyval) : H_ SystemEffectsConfig :=
  match raw with
  | PDict raw =>
      let unknown := keys_without (dkeys raw) _CONFIG_KEYS in
      let missing := keys_without _REQUIRED_KEYS (dkeys raw) in
      throw_when (negb (bool_decide (unknown = [])))
        (WorkspaceError ("unknown system-effects configuration keys: " +:+ string_join ", " unknown));;
      throw_when (negb (bool_decide (missing = [])))
        (WorkspaceError ("missing system-effects configuration keys: " +:+ string_join ", " missing));;
      v ← lift (dindex "observer_path" raw);
      observer ← _trusted_regular_path v "observer_path" true;
      v ← lift (or_beside (dgetn "verifier_path" raw) observer "deployment-observe-verify");
      verifier ← _trusted_regular_path v "verifier_path" true;
      v ← lift (dindex "recorder_object_path" raw);
      recorder ← _trusted_regular_path v "recorder_object_path" false;
      v ← lift (dindex "lifecycle_object_path" raw);
      lifecycle ← _trusted_regular_path v "lifecycle_object_path" false;
      v ← lift (dindex "recorder_object_sha256" raw);
      w ← lift (dindex "lifecycle_object_sha256" raw);
      recorder_sha ← lift (digest_of v "recorder_object_sha256");
      lifecycle_sha ← lift (digest_of w "lifecycle_object_sha256");
      prof ← lift (choice (dget_or "profile" (PStr "balanced") raw) _PROFILES
        (WorkspaceError "system-effects profile must be control, balanced, or full"));
      mode ← lift (choice (dget_or "object_resolution_mode" (PStr "KERNEL_OBJECT_EXPANDED_PARTIAL") raw)
        _OBJECT_MODES (WorkspaceError "unsupported system-effects object_resolution_mode"));
      '(recovery_verifier, recovery_helper, recovery_sha) ← recovery_part raw observer;
      bpf ← _scope raw "bpf_state_scope_file";
      filesystem ← _scope raw "filesystem_state_scope_file";
      linux ← _scope raw "linux_state_scope_file";
      poll ← lift (bounded_integer raw "poll_interval_ms" 20 1 1000);
      drain ← lift (bounded_integer raw "drain_timeout_ms" 5000 1 60000);
      ready ← lift (bounded_float raw "ready_timeout" (float_of_int 30) tenth (float_of_int 60) "[0.1, 60.0]");
      final ← lift (bounded_float raw "finalize_timeout" (float_of_int 60) tenth (float_of_int 300)
                      "[0.1, 300.0]");
      lock ← _trusted_host_lock_path (dget_or "host_lock_path" (PStr DEFAULT_HOST_LOCK_PATH) raw);
      recovery_timeout ← lift (bounded_integer raw "recovery_timeout_ms" 120000 1 3600000);
      recovery_output ← lift (bounded_integer raw "recovery_max_output_bytes" 65536 1
                                MAX_RECOVERY_OUTPUT_BYTES);
      mret (SystemEffectsConfig_ observer verifier recorder recorder_sha lifecycle lifecycle_sha
              prof mode bpf filesystem linux poll drain ready final lock
              recovery_verifier recovery_helper recovery_sha recovery_timeout recovery_output)
  | _ => throw (WorkspaceError "system-effects plugin configuration must be an object")
  end.
End config.

Definition recovery_enabled (c : SystemEffectsConfig) : bool :=
  match recovery_verifier_path c, recovery_helper_path c, recovery_helper_sha256 c with
  | Some _, Some _, Some _ => true
  | _, _, _ => false
  end.

Definition scopes_enabled (c : SystemEffectsConfig) : list string :=
  fst <$> List.filter (fun ns => match snd ns with Some _ => true | None => false end)
    [("bpf", bpf_state_scope c); ("filesystem", filesystem_state_scope c);
     ("linux", linux_state_scope c)].

(** ** What an accepted configuration guarantees *)

Section trusted.
Context `{FloatText} `{Host} {O : Type}.

(** The host found a canonical, singly linked regular file that only root or the
    daemon can change. *)
Definition trusted_file (h : list hcall) (p : pure_path) (executable : bool) : Prop :=
  is_absolute p = true /\ answered h (HResolve p) p
  /\ (exists m, answered h (HLstat p) m /\ S_ISREG (st_mode m) = true /\ st_nlink m = 1
        /\ trusted_owner m = true /\ writable_by_others (st_mode m) = false)
  /\ (executable = true -> answered h (HExecutable p) true).

Lemma trusted_file_mono h h' p x : h `prefix_of` h' -> trusted_file h p x -> trusted_file h' p x.
Proof.
  intros Hp (Ha & Hr & (m & Hm & Hrest) & Hx). split; [done|].
  split; [by eapply answered_mono|]. split; [|intros Hx'; by eapply answered_mono, Hx].
  exists m. split; [by eapply answered_mono|done].
Qed.

Lemma grows_perform (s : st hcall O) c o : grows s (St (hist s ++ [c]) o).
Proof. by exists [c]. Qed.

Lemma trusted_regular_path_returns raw label executable (s : st hcall O) :
  returns (_trusted_regular_path raw label executable) (fun p s' =>
    grows s s' /\ trusted_file (hist s') p executable) s.
Proof.
  unfold _trusted_regular_path. destruct (path_text raw) as [t|]; [|apply returns_throw].
  apply returns_bind, returns_throw_when. intros Habs%negb_false_iff.
  apply returns_bind, returns_wrapping, returns_bind, (returns_perform (HResolve _)). intros p Hp.
  apply returns_bind, (returns_perform (HLstat _)). intros m Hm. apply returns_ret.
  apply returns_bind, returns_throw_when.
  intros [[Heq%negb_false_iff Hreg%negb_false_iff]%orb_false_iff Hlink%negb_false_iff]%orb_false_iff.
  apply bool_decide_eq_true in Heq as ->. apply Z.eqb_eq in Hlink.
  apply returns_bind, returns_throw_when. intros [Hown%negb_false_iff Hw]%orb_false_iff.
  pose proof (answered_last _ (HResolve _) _ Hp) as Ap. pose proof (answered_last _ (HLstat _) _ Hm) as Am.
  simpl in Ap, Am.
  set (s1 := St ((hist s ++ [HResolve (parse_path t)]) ++ [HLstat (parse_path t)]) (obj s)).
  assert (trusted_file (hist s1) (parse_path t) false) as Ht.
  { split; [done|]. split; [by apply answered_longer|]. split; [|done]. by exists m. }
  assert (grows s s1) as Hg by (unfold grows; simpl; rewrite <-app_assoc; by apply prefix_app_r).
  apply returns_bind. destruct executable; [|apply returns_ret, returns_ret; done].
  apply returns_bind, (returns_perform (HExecutable _)). intros x Hx.
  apply returns_throw_when. intros ->%negb_false_iff. apply returns_ret.
  split; [etrans; [exact Hg|apply grows_perform]|]. simpl.
  split; [done|]. split; [by apply answered_longer, Ht|]. split; [|intros _; by apply answered_last].
  exists m. split; [by apply answered_longer|done].
Qed.

Lemma trusted_path_parsed raw label executable (s : st hcall O) :
  returns (_trusted_regular_path raw label executable) (fun p _ => exists t, raw = PStr t /\ p = parse_path t) s.
Proof.
  unfold _trusted_regular_path. destruct (path_text raw) as [t|] eqn:Et; [|apply returns_throw].
  assert (raw = PStr t) as ->.
  { destruct raw as [| | | |u| |]; try discriminate Et. cbn in Et. by destruct (_ || _); [|injection Et as ->]. }
  apply returns_bind; intros ? ? _. apply returns_bind; intros [resolved metadata] ? _.
  do 3 (apply returns_bind; intros ? ? _). apply returns_ret. by exists t.
Qed.

(** Every call only lengthens the history. *)
Ltac growing :=
  repeat first
    [ travel_step
    | lazymatch goal with
      | |- travels grows (call _) => apply travels_perform; intros ?; apply grows_perform
      | |- travels grows (wrapping _ _ _) => unfold wrapping
      | |- travels grows (closing _ _) => unfold closing
      | |- travels grows (refuse _ _) => unfold refuse
      | |- travels grows (refuse_when _ _ _) => unfold refuse_when
      | |- travels grows (_trusted_regular_path _ _ _) => unfold _trusted_regular_path
      end ].

Lemma read_chunks_grows turns fd limit consumed e :
  travels (@grows hcall O) (read_chunks turns fd limit consumed e).
Proof.
  revert consumed. induction turns as [|turns IH]; intros consumed; simpl; [apply travels_still; [exact _|by intros]|].
  growing. apply IH.
Qed.

Lemma scope_grows config key : travels (@grows hcall O) (_scope config key).
Proof.
  unfold _scope, _read_stable_json, read_stable. destruct (dgetn key config); growing;
    apply read_chunks_grows.
Qed.

(** *** The lock of the host *)

(** The host answered the call with that error. *)
Definition raised (h : list hcall) (c : hcall) (e : exn) : Prop :=
  exists before after, h = before ++ c :: after /\ host before c = Raised e.

(** The lock's file has a name, in a canonical directory that only root or the
    daemon can change; it is private to them, singly linked and regular, or was
    not there yet. *)
Definition trusted_lock (h : list hcall) (p : pure_path) : Prop :=
  is_absolute p = true /\ no_name p = false /\ answered h (HResolve (path_parent p)) (path_parent p)
  /\ (exists m, answered h (HLstat (path_parent p)) m /\ S_ISDIR (st_mode m) = true
        /\ trusted_owner m = true /\ writable_by_others (st_mode m) = false)
  /\ ((exists m, answered h (HLstat p) m /\ S_ISREG (st_mode m) = true /\ st_nlink m = 1
         /\ trusted_owner m = true /\ open_to_others (st_mode m) = false)
      \/ raised h (HLstat p) ENOENT).

Lemma host_lock_returns raw (s : st hcall O) :
  returns (_trusted_host_lock_path raw) (fun p s' => grows s s' /\ trusted_lock (hist s') p) s.
Proof.
  apply (returns_travels grows); [unfold _trusted_host_lock_path; growing|].
  unfold _trusted_host_lock_path. destruct (path_text raw) as [t|]; [|apply returns_throw].
  apply returns_bind, returns_throw_when. intros [Habs%negb_false_iff Hname]%orb_false_iff.
  apply returns_bind, returns_wrapping, returns_bind, (returns_perform (HResolve _)). intros parent Hp.
  apply returns_bind, (returns_perform (HLstat _)). intros m Hm. apply returns_ret.
  apply returns_bind, returns_throw_when. intros [Heq%negb_false_iff Hdir%negb_false_iff]%orb_false_iff.
  apply bool_decide_eq_true in Heq as ->.
  apply returns_bind, returns_throw_when. intros [Hown%negb_false_iff Hw]%orb_false_iff. simpl in Hm |- *.
  assert (forall h o, h = (hist s ++ [HResolve (path_parent (parse_path t))])
      ++ [HLstat (path_parent (parse_path t))] ->
    ((exists m', answered (h ++ [HLstat (parse_path t)]) (HLstat (parse_path t)) m'
        /\ S_ISREG (st_mode m') = true /\ st_nlink m' = 1
        /\ trusted_owner m' = true /\ open_to_others (st_mode m') = false)
     \/ raised (h ++ [HLstat (parse_path t)]) (HLstat (parse_path t)) ENOENT) ->
    returns (mret (parse_path t)) (fun p s' => grows s s' -> grows s s' /\ trusted_lock (hist s') p)
      (St (h ++ [HLstat (parse_path t)]) o : st hcall O)) as Hok.
  { intros h o -> Hl. apply returns_ret. intros Hg. split; [done|]. cbn [hist].
    do 2 (split; [done|]). split; [do 2 apply answered_longer; by apply answered_last|].
    split; [|exact Hl]. exists m. split; [apply answered_longer; by apply answered_last|done]. }
  apply returns_bind. intros found s1. unfold catch, mbind, P_bind, call, perform.
  destruct (host _ (HLstat (parse_path t))) as [m'|e|] eqn:El; cbn.
  - intros [= <- <-]. apply returns_bind, returns_throw_when.
    intros [[[Hreg%negb_false_iff Hlink%negb_false_iff]%orb_false_iff Ho%negb_false_iff]%orb_false_iff Hx]%orb_false_iff.
    apply Z.eqb_eq in Hlink. apply Hok; [done|]. left. exists m'. split; [by apply answered_last|done].
  - case_bool_decide as He; [|destruct (is_os_error e); done].
    intros [= <- <-]. apply Hok; [done|]. right. subst e. by eexists _, [].
  - done.
Qed.

(** *** Scope files *)

(** What the reads of a descriptor from [h] on gave, up to its end. *)
Inductive reads (fd : Z) : list hcall -> string -> list hcall -> Prop :=
  | reads_end h n : host h (HRead fd n) = Done EmptyString -> reads fd h EmptyString (h ++ [HRead fd n])
  | reads_more h n chunk rest h' :
      host h (HRead fd n) = Done chunk -> reads fd (h ++ [HRead fd n]) rest h' ->
      reads fd h (chunk +:+ rest) h'.

Lemma read_chunks_reads turns fd limit consumed e (s : st hcall O) :
  returns (read_chunks turns fd limit consumed e) (fun text s' => reads fd (hist s) text (hist s')) s.
Proof.
  revert consumed s. induction turns as [|turns IH]; intros consumed s; simpl; [by intros ?|].
  apply returns_bind, (returns_perform (HRead _ _)). intros chunk Hc.
  destruct (str_eqb chunk EmptyString) eqn:He.
  - apply str_eqb_eq in He as ->. apply returns_ret. by apply reads_end.
  - apply returns_bind, returns_throw_when. intros _. apply returns_bind.
    eapply returns_mono; [apply IH|]. intros rest s' Hr. apply returns_ret. by eapply reads_more.
Qed.

(** The object is what a trusted file held, which was opened without following
    a link and had the same identity, size and times before and after it was
    read to its end: a bounded, singly linked regular file. *)
Definition scope_read (h : list hcall) (path : pure_path) (d : dict) : Prop :=
  trusted_file h path false
  /\ exists h1 fd h2 m text,
       host h1 (HOpen path scope_flags) = Done fd
       /\ host (h1 ++ [HOpen path scope_flags]) (HFstat fd) = Done m
       /\ reads fd (h1 ++ [HOpen path scope_flags; HFstat fd]) text h2
       /\ host h2 (HFstat fd) = Done m /\ (h2 ++ [HFstat fd]) `prefix_of` h
       /\ S_ISREG (st_mode m) = true /\ st_nlink m = 1
       /\ st_size m = Z.of_nat (String.length text) /\ st_size m <= MAX_SCOPE_BYTES
       /\ loads_bytes text = Ok (PDict d).

(** The scope of the configuration: the one of the file its key names, or none
    when the key is absent. *)
Definition scope_trusted (h : list hcall) (raw : dict) (key : string) (scope : option dict) : Prop :=
  match scope with
  | None => dgetn key raw = PNone
  | Some d => exists t, dgetn key raw = PStr t /\ scope_read h (parse_path t) d
  end.

Lemma scope_trusted_mono h h' raw key scope :
  h `prefix_of` h' -> scope_trusted h raw key scope -> scope_trusted h' raw key scope.
Proof.
  intros Hp. destruct scope as [d|]; [|done].
  intros (t & Ht & Hf & h1 & fd & h2 & m & text & H1 & H2 & H3 & H4 & H5 & H6).
  exists t. split; [done|]. split; [by eapply trusted_file_mono|].
  exists h1, fd, h2, m, text. do 4 (split; [done|]). split; [by etrans|done].
Qed.

Lemma stable_json_returns path label (s : st hcall O) :
  trusted_file (hist s) path false ->
  returns (_read_stable_json path label) (fun d s' => scope_read (hist s') path d) s.
Proof.
  intros Hf. apply (returns_travels grows).
  { unfold _read_stable_json, read_stable. growing; apply read_chunks_grows. }
  unfold _read_stable_json. apply returns_bind, returns_wrapping, (returns_perform (HOpen _ _)). intros fd Ho.
  apply returns_bind, returns_finally. unfold read_stable.
  apply returns_bind, (returns_perform (HFstat fd)). intros m Hm.
  apply returns_bind, returns_throw_when.
  intros [[[Hreg Hlink%Z.eqb_eq]%andb_prop _]%andb_prop Hmax%Z.leb_le]%negb_false_iff%andb_prop.
  apply returns_bind. eapply returns_mono; [apply read_chunks_reads|]. cbn [hist]. intros text s1 Hr.
  apply returns_bind, (returns_perform (HFstat fd)). intros m' Hm'.
  apply returns_bind, returns_throw_when. intros [Hsz%negb_false_iff Heq%negb_false_iff]%orb_false_iff.
  apply bool_decide_eq_true in Heq as <-. apply Z.eqb_eq in Hsz. apply returns_ret.
  apply (returns_perform (HClose fd)). intros [] _. cbn [hist obj].
  apply returns_bind, returns_catch.
  2: { intros e s2 _. destruct (bool_decide _); apply returns_throw. }
  apply returns_lift. intros v Hv. destruct v as [| | | | | |d]; try apply returns_throw.
  apply returns_ret. intros Hg. split; [by eapply trusted_file_mono|]. cbn [hist].
  exists (hist s), fd, (hist s1), m, text. simpl in Hm'.
  split; [done|]. split; [done|]. split; [by rewrite <-app_assoc in Hr|]. split; [done|].
  split; [by apply prefix_app_r|]. split; [done|]. split; [done|]. by split.
Qed.

Lemma scope_returns raw key (s : st hcall O) :
  returns (_scope raw key) (fun d s' => grows s s' /\ scope_trusted (hist s') raw key d) s.
Proof.
  apply (returns_travels grows); [apply scope_grows|]. unfold _scope.
  assert (forall v, dgetn key raw = v -> returns (path ← _trusted_regular_path v key false;
      d ← _read_stable_json path key; mret (Some d))
    (fun d s' => grows s s' -> grows s s' /\ scope_trusted (hist s') raw key d) s) as Hsome.
  { intros v Hv. apply returns_bind. intros p s1 Hp.
    assert (exists t, v = PStr t /\ p = parse_path t) as (t & -> & ->).
    { by eapply trusted_path_parsed. }
    pose proof (trusted_regular_path_returns _ _ _ _ _ _ Hp) as [_ Hf].
    apply returns_bind. eapply returns_mono; [by apply stable_json_returns|]. intros d s2 Hd.
    apply returns_ret. intros Hg. split; [done|]. by exists t. }
  destruct (dgetn key raw) eqn:Ek; try by apply Hsome.
  apply returns_ret. intros Hg. by split.
Qed.

Lemma bounded_integer_Ok config key default lower upper z :
  bounded_integer config key default lower upper = Ok z -> lower <= z <= upper.
Proof.
  unfold bounded_integer. destruct (dget_or _ _ _); try done.
  destruct (Z.leb_spec lower z0), (Z.leb_spec z0 upper); try done. intros [= <-]. lia.
Qed.

Lemma tenth_parts : number_parts (inr tenth) = Some (7205759403792794, -56).
Proof. reflexivity. Qed.

(** An integer between [0.1] and a bound that is an integer. *)
Lemma integer_between upper e z :
  number_parts (inr (float_of_int upper)) = Some (upper * 2 ^ e, - e) -> 0 <= e ->
  number_between (inr tenth) (inr (float_of_int upper)) (inl z) = true -> 1 <= z <= upper.
Proof.
  intros Hu He. unfold number_between. rewrite tenth_parts, Hu. cbn [number_parts].
  unfold parts_compare. cbn [fst snd].
  rewrite (Z.min_l (-56) 0), (Z.min_r 0 (- e)), !Z.sub_diag, !Z.sub_opp_r, !Z.add_0_l, Z.pow_0_r, !Z.mul_1_r by lia.
  change (2 ^ (0 - -56)) with 72057594037927936.
  assert (0 < 2 ^ e) by (apply Z.pow_pos_nonneg; lia).
  destruct (Z.compare_spec 7205759403792794 (z * 72057594037927936));
    destruct (Z.compare_spec (z * 2 ^ e) (upper * 2 ^ e)); intros Hb; try discriminate Hb;
    (split; [lia|apply (Z.mul_le_mono_pos_r _ _ (2 ^ e)); lia]).
Qed.

Lemma bounded_float_Ok config key default upper bounds f :
  upper ∈ [60; 300] ->
  bounded_float config key default tenth (float_of_int upper) bounds = Ok f ->
  number_between (inr tenth) (inr (float_of_int upper)) (inr f) = true.
Proof.
  intros Hu. unfold bounded_float. destruct (dget_or _ _ _); try done.
  - destruct (number_between _ _ (inl z)) eqn:Hb; [|done]. intros [= <-].
    assert (1 <= z <= upper) as Hz.
    { assert (upper = 60 \/ upper = 300) as [Hu2|Hu2] by set_solver; subst upper.
      - by eapply (integer_between 60 47).
      - by eapply (integer_between 300 44). }
    assert (forallb (fun n => number_between (inr tenth) (inr (float_of_int upper))
      (inr (float_of_int (Z.of_nat n)))) (seq 1 (Z.to_nat upper)) = true) as Hall.
    { assert (upper = 60 \/ upper = 300) as [Hu2|Hu2] by set_solver; subst upper; vm_compute; reflexivity. }
    rewrite forallb_forall in Hall. specialize (Hall (Z.to_nat z)). rewrite Z2Nat.id in Hall by lia.
    apply Hall, in_seq. lia.
  - destruct (number_between _ _ _) eqn:Hb; [|done]. by intros [= <-].
Qed.

Lemma digest_of_Ok v key s : digest_of v key = Ok s -> is_sha256 (PStr s) = true.
Proof.
  unfold digest_of. destruct (is_sha256 v) eqn:E; [|done]. destruct v; try done. by intros [= <-].
Qed.

Lemma choice_Ok v among e s : choice v among e = Ok s -> PStr s ∈ among.
Proof.
  unfold choice, in_set. destruct (hashable v); [|done]. simpl. destruct (py_in v among) eqn:E; [|done].
  destruct v; try done. intros [= <-]. by apply py_in_str.
Qed.

(** The parts of the configuration for recovery: all or none. *)
Definition recovery_trusted (h : list hcall) (verifier helper : option pure_path) (sha : option string)
    : Prop :=
  match verifier, helper, sha with
  | Some v, Some p, Some d => trusted_file h v true /\ trusted_file h p true /\ is_sha256 (PStr d) = true
  | None, None, None => True
  | _, _, _ => False
  end.

Lemma recovery_part_returns raw observer (s : st hcall O) :
  returns (recovery_part raw observer) (fun r s' =>
    grows s s' /\ recovery_trusted (hist s') r.1.1 r.1.2 r.2) s.
Proof.
  unfold recovery_part. apply returns_bind, returns_throw_when. intros Hx.
  apply returns_bind, returns_throw_when. intros _. apply returns_bind.
  destruct (is_none (dgetn "recovery_helper_path" raw)),
    (is_none (dgetn "recovery_helper_sha256" raw)); try done.
  - apply returns_ret, returns_bind, returns_ret, returns_bind, returns_ret, returns_ret. done.
  - apply returns_bind. eapply returns_mono; [apply trusted_regular_path_returns|].
    intros p s1 [Hg1 Hp]. apply returns_ret, returns_bind, returns_bind, returns_lift.
    intros d Hd%digest_of_Ok. apply returns_ret, returns_bind, returns_bind, returns_lift.
    intros v _. apply returns_bind. eapply returns_mono; [apply trusted_regular_path_returns|].
    intros w s2 [Hg2 Hw]. apply returns_ret, returns_ret. split; [by etrans|].
    split; [done|]. split; [|done]. by eapply trusted_file_mono.
Qed.

Record config_trusted (h : list hcall) (raw : dict) (c : SystemEffectsConfig) : Prop := ConfigTrusted {
  ct_observer : trusted_file h (observer_path c) true;
  ct_verifier : trusted_file h (verifier_path c) true;
  ct_recorder : trusted_file h (recorder_object_path c) false;
  ct_lifecycle : trusted_file h (lifecycle_object_path c) false;
  ct_digests : is_sha256 (PStr (recorder_object_sha256 c)) = true
    /\ is_sha256 (PStr (lifecycle_object_sha256 c)) = true;
  ct_profile : PStr (profile c) ∈ _PROFILES;
  ct_mode : PStr (object_resolution_mode c) ∈ _OBJECT_MODES;
  ct_recovery : recovery_trusted h (recovery_verifier_path c) (recovery_helper_path c)
    (recovery_helper_sha256 c);
  ct_lock : trusted_lock h (host_lock_path c);
  ct_bpf : scope_trusted h raw "bpf_state_scope_file" (bpf_state_scope c);
  ct_filesystem : scope_trusted h raw "filesystem_state_scope_file" (filesystem_state_scope c);
  ct_linux : scope_trusted h raw "linux_state_scope_file" (linux_state_scope c);
  ct_times : 1 <= poll_interval_ms c <= 1000 /\ 1 <= drain_timeout_ms c <= 60000
    /\ 1 <= recovery_timeout_ms c <= 3600000
    /\ 1 <= recovery_max_output_bytes c <= MAX_RECOVERY_OUTPUT_BYTES;
  ct_timeouts : number_between (inr tenth) (inr (float_of_int 60)) (inr (ready_timeout c)) = true
    /\ number_between (inr tenth) (inr (float_of_int 300)) (inr (finalize_timeout c)) = true }.

(** C39: whatever the daemon is given, a configuration it accepts names only
    programs and objects that are canonical, singly linked regular files which
    no one but root and the daemon can change, executable where they are run; the
    lock of the host is private to them in a directory only they can change; each
    scope is the JSON object that such a file, of bounded size, held unchanged
    while it was read; its digests are digests, its profile and mode are known
    ones, its times and sizes lie within their bounds, and recovery is configured
    with its verifier and its helper or not at all. *)
Theorem configuration_trusted raw (s : st hcall O) :
  returns (from_mapping raw) (fun c s' => exists fields, raw = PDict fields
    /\ config_trusted (hist s') fields c) s.
Proof.
  unfold from_mapping. destruct raw as [| | | | | |raw]; try apply returns_throw.
  do 2 (apply returns_bind, returns_throw_when; intros _).
  apply returns_bind, returns_lift. intros v1 _.
  apply returns_bind. eapply returns_mono; [apply trusted_regular_path_returns|]. intros observer s1 [G1 T1].
  apply returns_bind, returns_lift. intros v2 _.
  apply returns_bind. eapply returns_mono; [apply trusted_regular_path_returns|]. intros verifier s2 [G2 T2].
  apply returns_bind, returns_lift. intros v3 _.
  apply returns_bind. eapply returns_mono; [apply trusted_regular_path_returns|]. intros recorder s3 [G3 T3].
  apply returns_bind, returns_lift. intros v4 _.
  apply returns_bind. eapply returns_mono; [apply trusted_regular_path_returns|]. intros lifecycle s4 [G4 T4].
  do 2 (apply returns_bind, returns_lift; intros ? _).
  apply returns_bind, returns_lift. intros d1 D1%digest_of_Ok.
  apply returns_bind, returns_lift. intros d2 D2%digest_of_Ok.
  apply returns_bind, returns_lift. intros prof Hp%choice_Ok.
  apply returns_bind, returns_lift. intros mode Hm%choice_Ok.
  apply returns_bind. eapply returns_mono; [apply recovery_part_returns|]. intros [[rv rh] rs] s5 [G5 R5].
  apply returns_bind. eapply returns_mono; [apply scope_returns|]. intros bpf s6 [G6 B6].
  apply returns_bind. eapply returns_mono; [apply scope_returns|]. intros filesystem s7 [G7 B7].
  apply returns_bind. eapply returns_mono; [apply scope_returns|]. intros linux s8 [G8 B8].
  apply returns_bind, returns_lift. intros poll Hpoll%bounded_integer_Ok.
  apply returns_bind, returns_lift. intros drain Hdrain%bounded_integer_Ok.
  apply returns_bind, returns_lift. intros ready Hready%bounded_float_Ok; [|left].
  apply returns_bind, returns_lift. intros final Hfinal%bounded_float_Ok; [|by right; left].
  apply returns_bind. eapply returns_mono; [apply host_lock_returns|]. intros lock s9 [G9 L9].
  apply returns_bind, returns_lift. intros rt Hrt%bounded_integer_Ok.
  apply returns_bind, returns_lift. intros ro Hro%bounded_integer_Ok.
  apply returns_ret. exists raw. split; [done|]. unfold grows in *.
  assert (hist s7 `prefix_of` hist s9) as G79 by by etrans.
  assert (hist s6 `prefix_of` hist s9) as G69 by by etrans.
  assert (hist s5 `prefix_of` hist s9) as G59 by by etrans.
  assert (hist s4 `prefix_of` hist s9) as G49 by by etrans.
  assert (hist s3 `prefix_of` hist s9) as G39 by by etrans.
  assert (hist s2 `prefix_of` hist s9) as G29 by by etrans.
  assert (hist s1 `prefix_of` hist s9) as G19 by by etrans.
  constructor; simpl; try done.
  - by apply (trusted_file_mono _ _ _ _ G19).
  - by apply (trusted_file_mono _ _ _ _ G29).
  - by apply (trusted_file_mono _ _ _ _ G39).
  - by apply (trusted_file_mono _ _ _ _ G49).
  - destruct rv, rh, rs; simpl in *; try done. destruct R5 as (? & ? & ?).
    split; [by apply (trusted_file_mono _ _ _ _ G59)|]. split; [by apply (trusted_file_mono _ _ _ _ G59)|done].
  - by apply (scope_trusted_mono _ _ _ _ _ G69).
  - by apply (scope_trusted_mono _ _ _ _ _ G79).
  - by apply (scope_trusted_mono _ _ _ _ _ G9).
Qed.
End trusted.
