(* ===== verification/Observer.v ===== *)
(** * One observed run

    [SystemEffectsRun] of
    [src/plugins/system-effects/src/allox_system_effects/runner.py]: it owns one
    privileged observer process and what the observer must prove before the run
    counts as observed.  A method runs on the shared object; before each of its
    calls and before it gets the lock, other threads may change the object. *)

From Stdlib Require Import Ascii SpecFloat.
From Stdlib Require String.
From stdpp Require Import gmap pretty.
From S2P Require Import Prelude Effects PyVal Paths Durable Kernel Json Runs Host EffectsConfig.
Open Scope Z_scope.

Definition PROTOCOL_VERSION : Z := 2.
Definition MAX_PROTOCOL_LINE_BYTES : Z := 64 * 1024.
Definition MAX_ARTIFACT_JSON_BYTES : Z := 16 * 1024 * 1024.
Definition MAX_VERIFIER_STDOUT_BYTES : Z := 4 * 1024 * 1024.
Definition MAX_VERIFIER_STDERR_BYTES : Z := 256 * 1024.
Definition MESSAGES_MAXSIZE : nat := 4.

Definition _OUTCOMES : list string := ["completed"; "stopped"; "launch_failed"].
Definition _EVIDENCE_STATUSES : list pyval :=
  [PStr "COMPLETE"; PStr "INCOMPLETE"; PStr "UNPROVEN_NO_EVENTS"].

Definition _READY_KEYS : list string :=
  ["protocol_version"; "status"; "run_id"; "epoch"; "finish_nonce"; "deployment_scope_sha256";
   "registration_cgroup_ids"; "cgroup_scope_capability_sha256"; "cgroup_scope_capability";
   "deployment_manifest_sha256"; "ready_barrier_sha256"; "ready_validation_sha256";
   "recorder_object_sha256"; "lifecycle_object_sha256"; "socket_state_enabled";
   "bpf_state_scope_sha256"; "bpf_state_s0_sha256"; "filesystem_state_scope_sha256";
   "filesystem_state_s0_sha256"; "linux_state_scope_sha256"; "linux_state_s0_sha256"].

Definition _FINISHED_KEYS : list string :=
  ["protocol_version"; "status"; "run_id"; "evidence_status"; "report_sha256";
   "artifact_manifest_sha256"].

Definition _VERIFICATION_KEYS : list string :=
  ["protocol_version"; "verified"; "run_id"; "epoch"; "deployment_scope_sha256"; "artifact_count";
   "committed_artifact_total_bytes"; "system_effect_wal_event_count";
   "system_effect_jsonl_event_count"; "process_lifecycle_wal_event_count";
   "process_lifecycle_jsonl_event_count"; "evidence_status"; "socket_state_status";
   "socket_state_event_count"; "bpf_state_scope_sha256"; "bpf_state_verdict";
   "filesystem_state_scope_sha256"; "filesystem_state_verdict"; "linux_state_scope_sha256";
   "linux_state_evidence_status"].

(** [set(d) == keys] *)
Definition has_keys (d : dict) (keys : list string) : bool :=
  forallb (fun k => existsb (str_eqb k) keys) (dkeys d) && forallb (fun k => dhas k d) keys.

(** [d.get(k) == v] *)
Definition field_is (d : dict) (k : string) (v : pyval) : bool := py_eqb (dgetn k d) v.

Definition digest_field (d : dict) (k : string) : bool := is_sha256 (dgetn k d).

(** ** Canonical JSON *)

Section canonical.
Context `{FloatText}.

Definition key_le (a b : string * string) : Prop := string_le a.1 b.1.

#[local] Instance key_le_dec a b : Decision (key_le a b).
Proof. unfold key_le. apply _. Defined.

(** [json.dumps(v, sort_keys=sorted, separators=(",", ":"))] *)
Fixpoint compact (sorted : bool) (v : pyval) : result string :=
  match v with
  | PList l =>
      parts ← mapM (compact sorted) l;
      Ok ("[" +:+ string_join "," parts +:+ "]")
  | PDict d =>
      parts ← mapM (fun kv => t ← compact sorted kv.2; Ok (kv.1, quoted kv.1 +:+ ":" +:+ t)) d;
      let parts := if sorted then merge_sort key_le parts else parts in
      Ok ("{" +:+ string_join "," parts.*2 +:+ "}")
  | _ => dumps true v
  end.

Definition _canonical_json (v : pyval) : result string := compact true v.

Definition _json_clone (v : pyval) : result pyval := t ← _canonical_json v; loads t.

(** The canonical text as a line. *)
Definition canonical_line (v : pyval) : result string :=
  t ← _canonical_json v; Ok (t +:+ String "010" EmptyString).
End canonical.

Definition opt_dict (o : option dict) : pyval :=
  match o with Some d => PDict d | None => PNone end.

(** [hmac.compare_digest(a, v)] *)
Definition compare_digest (a : string) (v : pyval) : result bool :=
  match v with PStr s => Ok (str_eqb a s) | _ => Err TypeError end.

(** ** What the run is bound to *)

Record RunBinding := RunBinding_ {
  rb_agent_id : string; rb_session_id : string; rb_run_id : string;
  rb_run_epoch : Z; root_pid : Z;
  cgroup_path : pure_path; cgroup_relative_path : string; cgroup_id : Z;
  mount_namespace_id : Z; network_namespace_id : Z;
  audit_directory : pure_path; boot_id : string }.

(** The attributes of the execution context; whether [on_failure] is there and
    callable. *)
Record run_context := RunContext { attributes : dict; on_failure : option bool }.

Definition BINDING_NAMES : list string :=
  ["agent_id"; "session_id"; "run_id"; "run_epoch"; "root_pid"; "cgroup_path";
   "cgroup_relative_path"; "cgroup_id"; "mount_namespace_id"; "network_namespace_id";
   "audit_directory"; "boot_id"].

(** [^[A-Za-z0-9_.:-]{1,128}$] *)
Definition identifier_char (c : ascii) : bool := is_alnum c || char_in c "_.:-".

Definition _IDENTIFIER (s : string) : bool :=
  (1 <=? String.length s)%nat && (String.length s <=? 128)%nat && string_forallb identifier_char s.

(** Groups of 8, 4, 4, 4 and 12 lowercase hexadecimal digits. *)
Definition _BOOT_ID (s : string) : bool :=
  let groups := string_split "-" s in
  bool_decide (String.length <$> groups = [8; 4; 4; 4; 12]%nat)
  && forallb (string_forallb (fun c => char_in c _HEX)) groups.

Definition effects_error (s : string) : exn := WorkspaceError ("system-effects " +:+ s).

Definition _validate_relative_cgroup_path (value : pyval) : result string :=
  match path_text value with
  | None => Err (effects_error "cgroup_relative_path is invalid")
  | Some s =>
      let path := parse_path s in
      raise_if (negb (is_absolute path) || bool_decide (path = parse_path "/")
                || existsb (str_eqb "..") (p_parts path) || negb (str_eqb (path_str path) s))
        (effects_error "cgroup_relative_path must be canonical and absolute");;
      Ok s
  end.

(** The value of a name that must be an identifier. *)
Definition identity_of (d : dict) (name : string) : result string :=
  match dgetn name d with
  | PStr s => if _IDENTIFIER s then Ok s else Err (effects_error (name +:+ " has an invalid identity"))
  | _ => Err (effects_error (name +:+ " has an invalid identity"))
  end.

(** [type(v) is int and v > 0] *)
Definition positive_of (d : dict) (name : string) : result Z :=
  match dgetn name d with
  | PInt z => if 0 <? z then Ok z else Err (effects_error (name +:+ " must be a positive integer"))
  | _ => Err (effects_error (name +:+ " must be a positive integer"))
  end.

Section binding.
Context `{Host} {O : Type}.

Definition _validate_absolute_path (value : pyval) (label : string) : P hcall O pure_path :=
  match path_text value with
  | None => refuse label " is invalid"
  | Some s =>
      let path := parse_path s in
      resolved ← wrapping is_os_error ("system-effects " +:+ label +:+ " is unavailable")
        (call (HResolve path));
      refuse_when (negb (is_absolute path) || negb (bool_decide (resolved = path))) label
        " must be canonical and absolute";;
      mret path
  end.

Definition lacks (name : string) : exn := effects_error ("execution context lacks " +:+ name).

Definition from_context (ctx : run_context) : P hcall O RunBinding :=
  let d := attributes ctx in
  iterate (fun name => throw_when (negb (dhas name d)) (lacks name)) BINDING_NAMES;;
  throw_when (match on_failure ctx with None => true | _ => false end) (lacks "on_failure");;
  agent ← lift (identity_of d "agent_id");
  session ← lift (identity_of d "session_id");
  run ← lift (identity_of d "run_id");
  epoch ← lift (positive_of d "run_epoch");
  pid ← lift (positive_of d "root_pid");
  cgroup ← lift (positive_of d "cgroup_id");
  mounts ← lift (positive_of d "mount_namespace_id");
  network ← lift (positive_of d "network_namespace_id");
  boot ← lift (match dgetn "boot_id" d with
               | PStr s => if _BOOT_ID s then Ok s
                           else Err (effects_error "boot_id is not a canonical Linux boot UUID")
               | _ => Err (effects_error "boot_id is not a canonical Linux boot UUID")
               end);
  throw_when (negb (default true (on_failure ctx))) (effects_error "on_failure callback is invalid");;
  path ← _validate_absolute_path (dgetn "cgroup_path" d) "cgroup_path";
  there ← call (HIsDir path);
  throw_when (negb there) (effects_error "cgroup_path is not a directory");;
  audit ← _validate_absolute_path (dgetn "audit_directory" d) "audit_directory";
  m ← call (HLstat audit);
  throw_when (negb (S_ISDIR (st_mode m)) || negb (st_uid m =? euid) || open_to_others (st_mode m))
    (effects_error "audit_directory must be a private daemon-owned directory");;
  relative ← lift (_validate_relative_cgroup_path (dgetn "cgroup_relative_path" d));
  mret (RunBinding_ agent session run epoch pid path relative cgroup mounts network audit boot).
End binding.

(** ** The object *)

(** The last three are those of a recovery run only. *)
Inductive run_phase := STARTING | READY | FINISHING | TERMINAL_RECEIVED | FINISHED | FAILED
  | CLOSED_UNVERIFIED | AGENT_STARTING | AGENT_RUNNING | RECOVERING.

#[export] Instance run_phase_eq_dec : EqDecision run_phase.
Proof. solve_decision. Defined.

Definition phase_name (p : run_phase) : string :=
  match p with
  | STARTING => "STARTING" | READY => "READY" | FINISHING => "FINISHING"
  | TERMINAL_RECEIVED => "TERMINAL_RECEIVED" | FINISHED => "FINISHED" | FAILED => "FAILED"
  | CLOSED_UNVERIFIED => "CLOSED_UNVERIFIED" | AGENT_STARTING => "AGENT_STARTING"
  | AGENT_RUNNING => "AGENT_RUNNING" | RECOVERING => "RECOVERING"
  end.

(** What the reader puts into the queue. *)
Inductive item := Message (m : dict) | _ProtocolFailure (reason : string).

(** A JSON object that was read, with the digest and the size of its bytes. *)
Record _StableArtifact := StableArtifact { a_value : dict; a_digest : string; a_size : Z }.

(** The attributes that only a recovery run has, and the bound of the queue. *)
Record extra := Extra {
  _maxsize : nat;
  _terminal_seen : bool;
  _agent_start_claimed : bool;
  _legacy_ready : option dict;
  _agent_started_message : option dict;
  _snapshots : list (string * _StableArtifact);
  _recovery_helper_succeeded : option bool }.

Definition new_extra (maxsize : nat) : extra := Extra maxsize false false None None [] None.

(** [_finish_claimed] also tells which thread claimed it. *)
Record run := Run {
  _messages : list item;
  _diagnostics : list string;
  _phase : run_phase;
  _failure_reason : option string;
  _failure_reported : bool;
  _expected_shutdown : bool;
  _finish_claimed : option nat;
  _final_result : option dict;
  _ready : option dict;
  _finish_nonce : option pyval;
  _process : option Z;                     (* its pid *)
  _verifier_process : bool;
  _reader : bool;                          (* the two threads exist *)
  _retired : bool;
  audit : directory;
  more : extra }.

Definition new_run (audit : directory) : run :=
  Run [] [] STARTING None false false None None None None None false false false audit
    (new_extra MESSAGES_MAXSIZE).

Definition set_messages v r := Run v (_diagnostics r) (_phase r) (_failure_reason r)
  (_failure_reported r) (_expected_shutdown r) (_finish_claimed r) (_final_result r) (_ready r)
  (_finish_nonce r) (_process r) (_verifier_process r) (_reader r) (_retired r) (audit r) (more r).
Definition add_diagnostic v r := Run (_messages r)
  (drop (length (_diagnostics r) - 63) (_diagnostics r) ++ [v]) (_phase r) (_failure_reason r)
  (_failure_reported r) (_expected_shutdown r) (_finish_claimed r) (_final_result r) (_ready r)
  (_finish_nonce r) (_process r) (_verifier_process r) (_reader r) (_retired r) (audit r) (more r).
Definition set_phase v r := Run (_messages r) (_diagnostics r) v (_failure_reason r)
  (_failure_reported r) (_expected_shutdown r) (_finish_claimed r) (_final_result r) (_ready r)
  (_finish_nonce r) (_process r) (_verifier_process r) (_reader r) (_retired r) (audit r) (more r).
Definition set_failure reason reported r := Run (_messages r) (_diagnostics r) FAILED reason
  reported (_expected_shutdown r) (_finish_claimed r) (_final_result r) (_ready r)
  (_finish_nonce r) (_process r) (_verifier_process r) (_reader r) (_retired r) (audit r) (more r).
Definition set_expected_shutdown r := Run (_messages r) (_diagnostics r) (_phase r) (_failure_reason r)
  (_failure_reported r) true (_finish_claimed r) (_final_result r) (_ready r)
  (_finish_nonce r) (_process r) (_verifier_process r) (_reader r) (_retired r) (audit r) (more r).
Definition claim_finish t r := Run (_messages r) (_diagnostics r) FINISHING (_failure_reason r)
  (_failure_reported r) (_expected_shutdown r) (Some t) (_final_result r) (_ready r)
  (_finish_nonce r) (_process r) (_verifier_process r) (_reader r) (_retired r) (audit r) (more r).
Definition set_final receipt r := Run (_messages r) (_diagnostics r) FINISHED (_failure_reason r)
  (_failure_reported r) (_expected_shutdown r) (_finish_claimed r) (Some receipt) (_ready r)
  (_finish_nonce r) (_process r) (_verifier_process r) (_reader r) (_retired r) (audit r) (more r).
Definition set_ready m nonce r := Run (_messages r) (_diagnostics r) READY (_failure_reason r)
  (_failure_reported r) (_expected_shutdown r) (_finish_claimed r) (_final_result r) (Some m)
  (Some nonce) (_process r) (_verifier_process r) (_reader r) (_retired r) (audit r) (more r).
Definition set_process pid r := Run (_messages r) (_diagnostics r) (_phase r) (_failure_reason r)
  (_failure_reported r) (_expected_shutdown r) (_finish_claimed r) (_final_result r) (_ready r)
  (_finish_nonce r) (Some pid) (_verifier_process r) (_reader r) (_retired r) (audit r) (more r).
Definition set_verifier b r := Run (_messages r) (_diagnostics r) (_phase r) (_failure_reason r)
  (_failure_reported r) (_expected_shutdown r) (_finish_claimed r) (_final_result r) (_ready r)
  (_finish_nonce r) (_process r) b (_reader r) (_retired r) (audit r) (more r).
Definition set_reader r := Run (_messages r) (_diagnostics r) (_phase r) (_failure_reason r)
  (_failure_reported r) (_expected_shutdown r) (_finish_claimed r) (_final_result r) (_ready r)
  (_finish_nonce r) (_process r) (_verifier_process r) true (_retired r) (audit r) (more r).
Definition set_retired r := Run (_messages r) (_diagnostics r) (_phase r) (_failure_reason r)
  (_failure_reported r) (_expected_shutdown r) (_finish_claimed r) (_final_result r) (_ready r)
  (_finish_nonce r) (_process r) (_verifier_process r) (_reader r) true (audit r) (more r).
Definition change_audit f r := Run (_messages r) (_diagnostics r) (_phase r) (_failure_reason r)
  (_failure_reported r) (_expected_shutdown r) (_finish_claimed r) (_final_result r) (_ready r)
  (_finish_nonce r) (_process r) (_verifier_process r) (_reader r) (_retired r) (f (audit r)) (more r).
Definition change_more f r := Run (_messages r) (_diagnostics r) (_phase r) (_failure_reason r)
  (_failure_reported r) (_expected_shutdown r) (_finish_claimed r) (_final_result r) (_ready r)
  (_finish_nonce r) (_process r) (_verifier_process r) (_reader r) (_retired r) (audit r) (f (more r)).

(** [put_nowait]; a full queue raises, and whoever puts either ignores it or
    reports it. *)
Definition put_item (i : item) (r : run) : run :=
  if (length (_messages r) <? _maxsize (more r))%nat then set_messages (_messages r ++ [i]) r else r.

(** The locked part of [_publish_failure]. *)
Definition record_failure (reason : string) (r : run) : run :=
  match _failure_reason r, _expected_shutdown r with
  | None, false => set_failure (Some reason) true r
  | _, _ => r
  end.

(** Whether that part found something to notify. *)
Definition must_notify (r : run) : bool :=
  match _failure_reason r, _expected_shutdown r with
  | None, false => negb (_failure_reported r)
  | _, _ => false
  end.

(** The locked part of [_set_failed]. *)
Definition fail_with (reason : string) (r : run) : run :=
  match _failure_reason r with
  | None => set_failure (Some reason) (_failure_reported r) r
  | Some _ => set_phase FAILED r
  end.

(** [.decode("utf-8", errors="replace")], where what is not ASCII is shown as a
    question mark. *)
Definition decode_replacing (s : string) : string :=
  string_concat_map (fun c => String (if (ascii_n c <? 128)%N then c else "?"%char) EmptyString) s.

(** [b"".join(diagnostics)[-4000:]], decoded. *)
Definition detail_of (diagnostics : list string) : string :=
  let s := foldr String.append EmptyString diagnostics in
  decode_replacing (string_drop (String.length s - 4000) s).

Definition with_detail (s detail : string) : string :=
  if str_eqb detail EmptyString then s else s +:+ ": " +:+ detail.

(** Capturing a stream up to a limit: the bytes kept, and whether there were
    more. *)
Definition drain_chunk (limit : Z) (c : string * bool) (chunk : string) : string * bool :=
  let remaining := limit - Z.of_nat (String.length c.1) in
  (if 0 <? remaining then c.1 +:+ string_take (Z.to_nat remaining) chunk else c.1,
   if remaining <? Z.of_nat (String.length chunk) then true else c.2).

Definition drain (limit : Z) (chunks : list string) : string * bool :=
  fold_left (drain_chunk limit) chunks (EmptyString, false).

(** Seconds as the nanoseconds of the clock. *)
Definition float_ns (f : spec_float) : Z :=
  match float_parts f with
  | Some (m, e) => if 0 <=? e then m * 2 ^ e * 1000000000 else m * 1000000000 / 2 ^ (- e)
  | None => 0
  end.

(** ** What the observer and the verifier must say

    The checks are functions of the messages and of the artifacts read. *)

Definition observe_error (s : string) : exn := WorkspaceError ("deployment-observe " +:+ s).

Section checks.
Context (config : SystemEffectsConfig) (binding : RunBinding) (sha256 : string -> string).

Definition version : pyval := PInt PROTOCOL_VERSION.
Definition run_id : pyval := PStr (rb_run_id binding).
Definition epoch : pyval := PInt (rb_run_epoch binding).

Definition _validate_ready_scope (ready : dict) (scope_key snapshot_key : string) (enabled : bool)
    : result unit :=
  let scope := dgetn scope_key ready in
  let snapshot := dgetn snapshot_key ready in
  if enabled then
    raise_if (negb (is_sha256 scope) || negb (is_sha256 snapshot))
      (observe_error ("READY lacks enabled " +:+ scope_key +:+ " evidence"))
  else
    raise_if (negb (is_none scope) || negb (is_none snapshot))
      (observe_error ("READY enabled unconfigured " +:+ scope_key +:+ " evidence")).

Definition expected_capability : dict :=
  [("protocol_version", PInt 1);
   ("mode", PStr "CGROUP_V2_ANCESTOR_ROOT");
   ("membership_authority", PStr "BPF_CURRENT_TASK_UNDER_CGROUP");
   ("root_map_type", PStr "BPF_MAP_TYPE_CGROUP_ARRAY");
   ("supported_program_families",
    PList [PStr "BPF_PROG_TYPE_LSM"; PStr "BPF_PROG_TYPE_TRACEPOINT"; PStr "BPF_PROG_TYPE_TRACING_TP_BTF"]);
   ("maximum_roots", PInt 8);
   ("root_cgroup_ids", PList [PInt (cgroup_id binding)]);
   ("event_cgroup_id_semantics", PStr "MATCHED_SCOPE_ROOT");
   ("leaf_cgroup_id_retained", PBool false);
   ("dynamic_descendants_including_ephemeral", PBool true);
   ("readiness_basis",
    PStr "BOTH_BPF_OBJECTS_LOADED_VERIFIER_ACCEPTED_MAP_ABI_VALIDATED_ROOT_FDS_PINNED")].

(** Its strings are those expected, so that [ensure_ascii] makes no difference. *)
Definition _validate_cgroup_capability `{FloatText} (ready : dict) : result unit :=
  match dgetn "cgroup_scope_capability" ready with
  | PDict capability =>
      raise_if (negb (py_eqb (PDict capability) (PDict expected_capability)))
        (observe_error "READY cgroup capability mismatch");;
      encoded ← compact false (PDict capability);
      same ← compare_digest (sha256 encoded) (dgetn "cgroup_scope_capability_sha256" ready);
      raise_if (negb same) (observe_error "READY cgroup capability digest mismatch")
  | _ => Err (observe_error "READY lacks cgroup capability")
  end.

Definition is_direct_root (process : pyval) : bool :=
  match process with
  | PDict p =>
      field_is p "pid" (PInt (root_pid binding)) && field_is p "role" (PStr "DIRECT_ROOT")
      && field_is p "cgroup_path" (PStr (cgroup_relative_path binding))
      && field_is p "cgroup_id" (PInt (cgroup_id binding))
      && field_is p "mount_namespace_id" (PInt (mount_namespace_id binding))
      && field_is p "net_namespace_id" (PInt (network_namespace_id binding))
  | _ => false
  end.

Definition root_bound (roots : pyval) : bool :=
  match roots with
  | PList [PDict root] =>
      field_is root "path" (PStr (cgroup_relative_path binding))
      && field_is root "cgroup_id" (PInt (cgroup_id binding))
  | _ => false
  end.

Definition _validate_deployment_manifest (manifest ready : dict) : result unit :=
  scope ← dindex "deployment_scope_sha256" ready;
  let processes := dgetn "processes" manifest in
  raise_if (negb (field_is manifest "protocol_version" version)
            || negb (field_is manifest "deployment_kind" (PStr "DIRECT"))
            || negb (field_is manifest "boot_id" (PStr (boot_id binding)))
            || negb (field_is manifest "scope_sha256" scope)
            || negb (root_bound (dgetn "root_cgroups" manifest))
            || negb (is_list processes))
    (WorkspaceError "deployment manifest does not bind the Allox run boundary");;
  match processes with
  | PList l =>
      raise_if (negb (length (List.filter is_direct_root l) =? 1)%nat)
        (WorkspaceError "deployment manifest does not bind the exact Allox root process")
  | _ => Err TypeError
  end.

Definition READY_DIGESTS : list string :=
  ["deployment_scope_sha256"; "cgroup_scope_capability_sha256"; "deployment_manifest_sha256";
   "ready_barrier_sha256"; "ready_validation_sha256"].

Fixpoint check_all {A} (check : A -> result unit) (l : list A) : result unit :=
  match l with
  | [] => Ok ()
  | x :: l => check x;; check_all check l
  end.

Definition some_scope (o : option dict) : bool := match o with Some _ => true | None => false end.

(** [_validate_ready] up to the artifact it reads. *)
Definition check_ready `{FloatText} (ready : dict) : result unit :=
  raise_if (negb (has_keys ready _READY_KEYS)) (observe_error "READY schema mismatch");;
  raise_if (negb (field_is ready "protocol_version" version)
            || negb (field_is ready "status" (PStr "READY"))
            || negb (field_is ready "run_id" run_id)
            || negb (field_is ready "epoch" epoch)
            || negb (digest_field ready "finish_nonce")
            || negb (field_is ready "registration_cgroup_ids" (PList [PInt (cgroup_id binding)]))
            || negb (field_is ready "recorder_object_sha256" (PStr (recorder_object_sha256 config)))
            || negb (field_is ready "lifecycle_object_sha256" (PStr (lifecycle_object_sha256 config))))
    (observe_error "READY binding mismatch");;
  check_all (fun key => raise_if (negb (digest_field ready key))
    (observe_error ("READY " +:+ key +:+ " is invalid"))) READY_DIGESTS;;
  let socket_expected := str_eqb (object_resolution_mode config) "KERNEL_OBJECT_EXPANDED_PARTIAL" in
  raise_if (match dgetn "socket_state_enabled" ready with
            | PBool b => xorb b socket_expected
            | _ => true
            end) (observe_error "READY object mode mismatch");;
  _validate_ready_scope ready "bpf_state_scope_sha256" "bpf_state_s0_sha256"
    (some_scope (bpf_state_scope config));;
  _validate_ready_scope ready "filesystem_state_scope_sha256" "filesystem_state_s0_sha256"
    (some_scope (filesystem_state_scope config));;
  _validate_ready_scope ready "linux_state_scope_sha256" "linux_state_s0_sha256"
    (some_scope (linux_state_scope config));;
  _validate_cgroup_capability ready.

(** [_validate_ready] after the deployment manifest was read. *)
Definition check_deployment (ready : dict) (deployment : _StableArtifact) : result unit :=
  v ← dindex "deployment_manifest_sha256" ready;
  same ← compare_digest (a_digest deployment) v;
  raise_if (negb same) (WorkspaceError "deployment manifest digest differs from READY");;
  _validate_deployment_manifest (a_value deployment) ready.

Definition _validate_finished (terminal : dict) : result unit :=
  raise_if (negb (has_keys terminal _FINISHED_KEYS)) (observe_error "FINISHED schema mismatch");;
  if negb (field_is terminal "protocol_version" version)
     || negb (field_is terminal "status" (PStr "FINISHED"))
     || negb (field_is terminal "run_id" run_id)
  then Err (observe_error "FINISHED binding mismatch")
  else
    known ← in_set (dgetn "evidence_status" terminal) _EVIDENCE_STATUSES;
    raise_if (negb known || negb (digest_field terminal "report_sha256")
              || negb (digest_field terminal "artifact_manifest_sha256"))
      (observe_error "FINISHED binding mismatch").

Definition REPORT : string := "deployment-observation-report.json".

Definition is_report_entry (item : pyval) : bool :=
  match item with
  | PDict d => field_is d "relative_path" (PStr REPORT)
  | _ => false
  end.

(** [_validate_terminal_artifacts] after the two artifacts were read. *)
Definition check_terminal_artifacts (ready terminal : dict) (report manifest : _StableArtifact)
    : result unit :=
  report_sha ← dindex "report_sha256" terminal;
  manifest_sha ← dindex "artifact_manifest_sha256" terminal;
  same ← compare_digest (a_digest report) report_sha;
  raise_if (negb same) (WorkspaceError "deployment observation report digest mismatch");;
  same ← compare_digest (a_digest manifest) manifest_sha;
  raise_if (negb same) (WorkspaceError "deployment artifact manifest digest mismatch");;
  scope ← dindex "deployment_scope_sha256" ready;
  capability ← dindex "cgroup_scope_capability_sha256" ready;
  status ← dindex "evidence_status" terminal;
  let r := a_value report in
  let m := a_value manifest in
  raise_if (negb (field_is r "protocol_version" version) || negb (field_is r "run_id" run_id)
            || negb (field_is r "epoch" epoch)
            || negb (match dgetn "deployment" r with
                     | PDict d => field_is d "scope_sha256" scope
                     | _ => false
                     end)
            || negb (field_is r "cgroup_scope_capability_sha256" capability))
    (WorkspaceError "deployment observation report binding mismatch");;
  raise_if (negb (field_is m "protocol_version" version) || negb (field_is m "run_id" run_id)
            || negb (field_is m "epoch" epoch)
            || negb (field_is m "deployment_scope_sha256" scope)
            || negb (field_is m "cgroup_scope_capability_sha256" capability))
    (WorkspaceError "deployment observation manifest binding mismatch");;
  raise_if (negb (field_is r "recorder_object_sha256" (PStr (recorder_object_sha256 config)))
            || negb (field_is r "lifecycle_object_sha256" (PStr (lifecycle_object_sha256 config)))
            || negb (field_is r "registration_cgroup_ids" (PList [PInt (cgroup_id binding)]))
            || negb (field_is r "overall_evidence_status" status)
            || negb (field_is m "evidence_status" status))
    (WorkspaceError "deployment observation report does not bind configured inputs");;
  match dgetn "artifacts" m with
  | PList entries =>
      match List.filter is_report_entry entries with
      | [PDict e] =>
          raise_if (negb (field_is e "sha256" report_sha)
                    || negb (field_is e "size_bytes" (PInt (a_size report))))
            (WorkspaceError "artifact manifest does not commit the observation report")
      | _ => Err (WorkspaceError "artifact manifest does not commit the observation report")
      end
  | _ => Err (WorkspaceError "deployment artifact manifest has no artifact list")
  end.

(** [type(v) is int and v >= 0] *)
Definition _valid_nonnegative_integer (v : pyval) : bool :=
  match v with PInt z => 0 <=? z | _ => false end.

Definition COUNTS : list string :=
  ["artifact_count"; "committed_artifact_total_bytes"; "system_effect_wal_event_count";
   "system_effect_jsonl_event_count"; "process_lifecycle_wal_event_count";
   "process_lifecycle_jsonl_event_count"].

Definition VERIFIER : string := "deployment-observe-verify".

Definition verify_error (s : string) : exn := WorkspaceError (VERIFIER +:+ " " +:+ s).

Definition is_true (v : pyval) : bool := match v with PBool true => true | _ => false end.

Definition _validate_offline_verification (ready terminal verification : dict) : result unit :=
  raise_if (negb (has_keys verification _VERIFICATION_KEYS)) (verify_error "result schema mismatch");;
  scope ← dindex "deployment_scope_sha256" ready;
  status ← dindex "evidence_status" terminal;
  raise_if (negb (field_is verification "protocol_version" version)
            || negb (is_true (dgetn "verified" verification))
            || negb (field_is verification "run_id" run_id)
            || negb (field_is verification "epoch" epoch)
            || negb (field_is verification "deployment_scope_sha256" scope)
            || negb (field_is verification "evidence_status" status))
    (verify_error "did not verify the exact run");;
  check_all (fun key => raise_if (negb (_valid_nonnegative_integer (dgetn key verification)))
    (verify_error ("returned invalid " +:+ key))) COUNTS;;
  raise_if (negb (field_is verification "system_effect_wal_event_count"
                    (dgetn "system_effect_jsonl_event_count" verification))
            || negb (field_is verification "process_lifecycle_wal_event_count"
                       (dgetn "process_lifecycle_jsonl_event_count" verification)))
    (verify_error "event projections disagree");;
  check_all (fun prefix =>
    let scope_key := prefix +:+ "_state_scope_sha256" in
    raise_if (negb (field_is verification scope_key (dgetn scope_key ready)))
      (verify_error (prefix +:+ " scope binding mismatch"))) ["bpf"; "filesystem"; "linux"].

(** *** The attestation of the core *)

Inductive quiescence :=
  | Mapping (d : dict)
  | Attestation (as_dict : reply pyval)
  | Other.

Definition check_barrier (barrier : pyval) : result dict :=
  match barrier with
  | PDict b =>
      raise_if (negb (has_keys b ["status"; "basis"; "cgroup_id"])
                && negb (has_keys b ["status"; "basis"; "cgroup_path"; "cgroup_id"]))
        (WorkspaceError "invalid system-effects quiescence schema");;
      raise_if (negb (field_is b "status" (PStr "QUIESCENT_WITHIN_CGROUP"))
                || negb (field_is b "basis" (PStr "CGROUP_V2_EMPTY_FROZEN_VERIFIED"))
                || negb (field_is b "cgroup_id" (PInt (cgroup_id binding)))
                || (dhas "cgroup_path" b
                    && negb (field_is b "cgroup_path" (PStr (path_str (cgroup_path binding))))))
        (WorkspaceError "system-effects quiescence does not bind the active cgroup");;
      Ok b
  | _ => Err (WorkspaceError "invalid system-effects quiescence schema")
  end.
End checks.

(** ** The methods *)

Section run.
Context `{FloatText} `{Host}.
Context (config : SystemEffectsConfig) (binding : RunBinding) (sha256 : string -> string).
(** The thread that runs the method: its number, which of the two readers it
    is if it is one, and what the others make of the object meanwhile. *)
Context (me : nat) (current : option thread) (others : list hcall -> run -> run).

Definition R (A : Type) : Type := P hcall run A.

Definition yield : R unit := interleave others.

(** A call, before which the others run. *)
Definition act (c : hcall) : R (answer c) := yield;; call c.

(** A section under the lock. *)
Definition locked {A} (f : run -> A) (g : run -> run) : R A :=
  yield;; a ← read f; modify g;; mret a.

Definition _evidence_directory : pure_path := path_child (audit_directory binding) "system-effects".
Definition config_file : string := "system-effects-config.json".
Definition expectation_file : string := "system-effects-verification-expectation.json".
Definition verification_file : string := "system-effects-verification.json".
Definition receipt_file : string := "system-effects-receipt.json".
Definition audit_file (name : string) : string := path_str (path_child (audit_directory binding) name).

(** *** Files *)

Definition bytes_of (s : string) : list ascii := String.list_ascii_of_string s.

Definition private_directory (m : metadata) : bool :=
  S_ISDIR (st_mode m) && (st_uid m =? euid) && negb (open_to_others (st_mode m)).

Definition directory_flags : list open_flag := [O_RDONLY; O_CLOEXEC; O_DIRECTORY; O_NOFOLLOW].
Definition new_file_flags : list open_flag := [O_WRONLY; O_CREAT; O_EXCL; O_CLOEXEC; O_NOFOLLOW].
Definition artifact_flags : list open_flag := [O_RDONLY; O_CLOEXEC; O_NOFOLLOW; O_NONBLOCK].

Definition _open_private_directory (path : pure_path) : R Z :=
  descriptor ← wrapping is_os_error "failed to open private audit directory"
    (act (HOpen path directory_flags));
  m ← act (HFstat descriptor);
  if private_directory m then mret descriptor
  else act (HClose descriptor);;
       throw (WorkspaceError "audit directory is not private and daemon-owned").

(** [os.open] with [O_EXCL] of a name of the audit directory. *)
Definition create_new (directory : Z) (name : string) : R Z :=
  there ← read (fun r => bool_decide (is_Some (entries (audit r) !! name)));
  throw_when there (OSError "EEXIST");;
  fd ← act (HOpenAt directory name new_file_flags);
  modify (change_audit (put_file name (File [] false)));;
  mret fd.

Fixpoint write_view (turns : nat) (fd : Z) (name view : string) : R unit :=
  if str_eqb view EmptyString then mret () else
  match turns with
  | 0%nat => cut_off
  | S turns =>
      written ← act (HWrite fd view);
      throw_when (written <=? 0) (WorkspaceError ("short write while creating " +:+ name));;
      modify (change_audit (append_file name (bytes_of (string_take (Z.to_nat written) view))));;
      write_view turns fd name (string_drop (Z.to_nat written) view)
  end.

Definition _write_new_file (name encoded : string) : R unit :=
  directory ← _open_private_directory (audit_directory binding);
  descriptor ← unwinding
    (wrapping is_os_error ("refusing to replace system-effects file " +:+ name)
       (create_new directory name))
    (act (HClose directory);; mret ());
  finally
    (write_view (String.length encoded) descriptor name encoded;;
     act (HFsync descriptor);; modify (change_audit (sync_file name));;
     act (HFsync directory);; modify (change_audit sync_dir))
    (act (HClose descriptor);; act (HClose directory);; mret ()).

Definition artifact_error (name what : string) : exn :=
  WorkspaceError ("system-effects artifact " +:+ name +:+ what).

Definition _read_json_artifact (directory : pure_path) (name : string) (limit : Z)
    : R _StableArtifact :=
  throw_when (negb (bool_decide (p_parts (parse_path name) = [name])) || str_eqb name "..")
    (WorkspaceError "invalid system-effects artifact basename");;
  directory_fd ← wrapping is_os_error "system-effects evidence directory is unavailable"
    (act (HOpen directory directory_flags));
  text ← finally
    (m ← act (HFstat directory_fd);
     throw_when (negb (private_directory m))
       (WorkspaceError "system-effects evidence directory is not private");;
     descriptor ← wrapping is_os_error ("system-effects artifact " +:+ name +:+ " is unavailable")
       (act (HOpenAt directory_fd name artifact_flags));
     closing descriptor
       (yield;; read_stable descriptor limit
          (fun m => S_ISREG (st_mode m) && (st_uid m =? euid) && (st_nlink m =? 1)
                    && (0 <=? st_size m) && (st_size m <=? limit))
          (artifact_error name " is not a bounded daemon-owned file")
          (artifact_error name " exceeds its bound")
          (artifact_error name " changed while read")))
    (act (HClose directory_fd));
  value ← catch (lift (loads_bytes text)) (fun e =>
    if bool_decide (e = JSONDecodeError) then throw (artifact_error name " is invalid JSON") else throw e);
  match value with
  | PDict d => mret (StableArtifact d (sha256 text) (Z.of_nat (String.length text)))
  | _ => throw (artifact_error name " must be a JSON object")
  end.

(** *** The configuration of the observer *)

Definition add_namespace (namespace_id : Z) (domain : string) (scope : dict) : result dict :=
  match dgetn domain scope with
  | PNone => Ok scope
  | PDict configured =>
      Ok (dset domain (PDict (dset "namespace"
        (PDict [("pid", PInt (root_pid binding)); ("expected_namespace_inode", PInt namespace_id)])
        configured)) scope)
  | _ => Err (effects_error ("Linux state " +:+ domain +:+ " scope must be an object or null"))
  end.

Definition _per_run_linux_state_scope : result pyval :=
  scope ← _json_clone (opt_dict (linux_state_scope config));
  match scope with
  | PNone => Ok PNone
  | PDict scope =>
      scope ← add_namespace (mount_namespace_id binding) "mounts" scope;
      scope ← add_namespace (network_namespace_id binding) "network" scope;
      Ok (PDict scope)
  | _ => Err (effects_error "Linux state scope must be an object")
  end.

Definition _build_observer_config : result pyval :=
  bpf ← _json_clone (opt_dict (bpf_state_scope config));
  filesystem ← _json_clone (opt_dict (filesystem_state_scope config));
  linux ← _per_run_linux_state_scope;
  Ok (PDict
    [("protocol_version", PInt PROTOCOL_VERSION);
     ("deployment", PDict
        [("deployment_kind", PStr "DIRECT");
         ("configuration", PDict
            [("root_pid", PInt (root_pid binding));
             ("expected_cgroup_path", PStr (cgroup_relative_path binding));
             ("require_dedicated_cgroup", PBool true);
             ("limits", PDict
                [("max_proc_entries", PInt 131072); ("max_cgroup_nodes", PInt 4096);
                 ("max_cgroup_depth", PInt 64); ("max_open_fds_per_process", PInt 8192)])])]);
     ("recorder_object_path", PStr (path_str (recorder_object_path config)));
     ("recorder_object_sha256", PStr (recorder_object_sha256 config));
     ("lifecycle_object_path", PStr (path_str (lifecycle_object_path config)));
     ("lifecycle_object_sha256", PStr (lifecycle_object_sha256 config));
     ("output_directory", PStr (path_str _evidence_directory));
     ("run_id", run_id binding);
     ("epoch", epoch binding);
     ("profile", PStr (profile config));
     ("object_resolution_mode", PStr (object_resolution_mode config));
     ("bpf_state_scope", bpf);
     ("filesystem_state_scope", filesystem);
     ("linux_state_scope", linux);
     ("poll_interval_ms", PInt (poll_interval_ms config));
     ("drain_timeout_ms", PInt (drain_timeout_ms config))]).

(** *** Failures and the end of the processes *)

Definition _set_failed (reason : string) : R unit := locked (fun _ => ()) (fail_with reason).

Definition _publish_failure (reason : string) : R unit :=
  notify ← locked must_notify (record_failure reason);
  modify (put_item (_ProtocolFailure reason));;
  if (notify : bool) then
    catch (act (HOnFailure reason)) (fun e =>
      modify (add_diagnostic ("on_failure callback raised " +:+ exn_name e)))
  else mret ().

Definition _retire : R unit :=
  retired ← locked _retired set_retired;
  if (retired : bool) then mret () else act HOnClose.

Definition ignoring_os_errors {A} (m : R A) : R unit :=
  catch (m;; mret ()) (fun e => if is_os_error e then mret () else throw e).

(** [os.killpg], or the signal to the process alone. *)
Definition signal_group (c : child) (s : signal) : R unit :=
  catch (act (HKillGroup c s)) (fun e =>
    if is_os_error e then ignoring_os_errors (act (HSignal c s)) else throw e).

(** [process.wait(timeout=5)]: whether it ended in time. *)
Definition wait_5 (c : child) : R bool :=
  catch (act (HWait c (seconds 5));; mret true) (fun e =>
    if bool_decide (e = TimeoutExpired) then mret false else throw e).

Definition _terminate_process_group (c : child) : R unit :=
  code ← act (HPoll c);
  match code with
  | Some _ => mret ()
  | None =>
      signal_group c SIGTERM;;
      ended ← wait_5 c;
      if (ended : bool) then mret ()
      else signal_group c SIGKILL;; wait_5 c;; mret ()
  end.

Definition terminate_if_alive (c : child) : R unit :=
  code ← act (HPoll c);
  match code with None => _terminate_process_group c | Some _ => mret () end.

(** [self._reader is not threading.current_thread()] *)
Definition is_current (t : thread) : bool :=
  match current, t with
  | Some StdoutReader, StdoutReader | Some StderrReader, StderrReader => true
  | _, _ => false
  end.

Definition join_5 (started : bool) (t : thread) : R unit :=
  if started && negb (is_current t) then act (HJoin t (seconds 5)) else mret ().

Definition _shutdown : R unit :=
  expected ← locked _expected_shutdown set_expected_shutdown;
  if (expected : bool) then _retire
  else
    '(process, verifier) ← read (fun r => (_process r, _verifier_process r));
    (if (verifier : bool) then terminate_if_alive Verifier else mret ());;
    (match process with
     | None => mret ()
     | Some _ =>
         closed ← act HStdinClosed;
         (if (closed : bool) then mret () else ignoring_os_errors (act HCloseStdin));;
         terminate_if_alive Observer;;
         started ← read _reader;
         join_5 started StdoutReader;;
         join_5 started StderrReader;;
         act HCloseOutput
     end);;
    _retire.

(** The first locked part of [close_unverified]. *)
Definition note_closed (r : run) : run :=
  if _expected_shutdown r then r
  else
    put_item (_ProtocolFailure "system-effects observation closed without verification")
      (if bool_decide (_phase r = FINISHED) then r else set_phase CLOSED_UNVERIFIED r).

Definition close_unverified : R unit :=
  expected ← locked _expected_shutdown note_closed;
  if (expected : bool) then _retire else _shutdown.

(** *** The reader of the observer's messages *)

Inductive input := Line (s : string) | Eof | ReadError.

Definition expected_status (p : run_phase) : pyval :=
  match p with
  | STARTING => PStr "READY"
  | FINISHING => PStr "FINISHED"
  | _ => PNone
  end.

(** One turn of the loop of [_read_stdout]; whether it goes on. *)
Definition read_turn (i : input) : R bool :=
  match i with
  | ReadError => _publish_failure "deployment-observe stdout read failed";; mret false
  | Eof =>
      expected ← locked (fun r => _expected_shutdown r || bool_decide (_phase r = TERMINAL_RECEIVED))
                   (fun r => r);
      (if (expected : bool) then mret ()
       else _publish_failure "deployment-observe exited unexpectedly");;
      mret false
  | Line s =>
      if (MAX_PROTOCOL_LINE_BYTES <? Z.of_nat (String.length s)) || negb (ends_with_char "010" s) then
        _publish_failure "deployment-observe response exceeded protocol bound";; mret false
      else
        match loads_bytes s with
        | Err JSONDecodeError =>
            _publish_failure "deployment-observe returned invalid JSON";; mret false
        | Err e => throw e
        | Ok (PDict message) =>
            phase ← locked _phase (fun r => r);
            if negb (field_is message "status" (expected_status phase)) then
              _publish_failure "deployment-observe sent an out-of-order message";; mret false
            else
              (if bool_decide (phase = FINISHING) then
                 locked (fun _ => ()) (set_phase TERMINAL_RECEIVED)
               else mret ());;
              full ← locked (fun r => (_maxsize (more r) <=? length (_messages r))%nat)
                       (put_item (Message message));
              if (full : bool) then
                _publish_failure "deployment-observe sent unsolicited messages";; mret false
              else mret true
        | Ok _ =>
            _publish_failure "deployment-observe response must be a JSON object";; mret false
        end
  end.

Fixpoint _read_stdout (inputs : list input) : R unit :=
  match inputs with
  | [] => mret ()
  | i :: inputs => more ← read_turn i; if (more : bool) then _read_stdout inputs else mret ()
  end.

(** The other reader keeps the last of what the observer complains about. *)
Fixpoint _read_stderr (inputs : list input) : R unit :=
  match inputs with
  | Line chunk :: inputs => yield;; modify (add_diagnostic (string_take 4096 chunk));; _read_stderr inputs
  | _ => mret ()
  end.

(** *** Waiting for a message *)

Definition timed_out (expected : string) : exn :=
  WorkspaceError ("deployment-observe " +:+ expected +:+ " response timed out").

Definition dequeue (expected : string) (ns : Z) : R item :=
  act (HDequeue ns);;
  queue ← read _messages;
  match queue with
  | [] => throw (timed_out expected)
  | i :: rest => modify (set_messages rest);; mret i
  end.

Definition _receive (deadline : Z) (expected : string) : R dict :=
  t ← act HClock;
  throw_when (deadline - t <=? 0) (timed_out expected);;
  i ← dequeue expected (deadline - t);
  match i with
  | Message m => mret m
  | _ProtocolFailure reason =>
      diagnostics ← read _diagnostics;
      throw (WorkspaceError (with_detail reason (detail_of diagnostics)))
  end.

(** *** Starting *)

Definition _validate_ready (ready : dict) : R unit :=
  lift (check_ready config binding sha256 ready);;
  deployment ← _read_json_artifact _evidence_directory "deployment-manifest.json"
    MAX_ARTIFACT_JSON_BYTES;
  lift (check_deployment binding ready deployment).

Definition assert_healthy : R unit :=
  '(process, reason, phase, queued) ←
    locked (fun r => (_process r, _failure_reason r, _phase r, negb (bool_decide (_messages r = []))))
      (fun r => r);
  let unhealthy := WorkspaceError ("system-effects Observer is not live and healthy"
                     +:+ match reason with Some s => ": " +:+ s | None => EmptyString end) in
  match reason, process with
  | None, Some _ =>
      throw_when (negb (bool_decide (phase = READY))) unhealthy;;
      code ← act (HPoll Observer);
      throw_when (match code with Some _ => true | None => false end || queued) unhealthy
  | _, _ => throw unhealthy
  end.

Definition agent_started : R unit := assert_healthy.

(** The locked part that takes the message for good. *)
Definition accept_ready (ready : dict) : R unit :=
  yield;;
  reason ← read _failure_reason;
  match reason with
  | Some reason => throw (WorkspaceError reason)
  | None =>
      nonce ← lift (dindex "finish_nonce" ready);
      modify (set_ready ready nonce)
  end.

Definition observer_argv : list string :=
  [path_str (observer_path config); "--config"; audit_file config_file].

Definition spawn_observer : R unit :=
  catch (pid ← act (HSpawn Observer observer_argv); modify (set_process pid)) (fun e =>
    if is_os_error e then
      _set_failed "failed to start deployment-observe";;
      _retire;;
      throw (WorkspaceError ("failed to start deployment-observe: " +:+ exn_str e))
    else throw e).

Definition zeros : pyval := PStr (string_join "0" (repeat EmptyString 65)).

Definition expectation (document manifest report : pyval) : pyval :=
  PDict [("expected_config", document); ("expected_artifact_manifest_sha256", manifest);
         ("expected_report_sha256", report)].

(** The configuration file of the observer, within its bound. *)
Definition encoded_config : result (pyval * string) :=
  document ← _build_observer_config;
  encoded ← canonical_line document;
  raise_if (MAX_CONFIG_BYTES <? Z.of_nat (String.length encoded))
    (WorkspaceError "system-effects Observer config exceeds the 1 MiB bound");;
  probe ← canonical_line (expectation document zeros zeros);
  raise_if (MAX_CONFIG_BYTES <? Z.of_nat (String.length probe))
    (WorkspaceError "system-effects verifier expectation exceeds the 1 MiB bound");;
  Ok (document, encoded).

(** [__init__] after the binding was made. *)
Definition start : R unit :=
  there ← act (HExists _evidence_directory);
  link ← (if (there : bool) then mret true else act (HIsSymlink _evidence_directory));
  throw_when link (WorkspaceError "system-effects evidence directory already exists");;
  '(_, encoded) ← lift encoded_config;
  _write_new_file config_file encoded;;
  spawn_observer;;
  modify set_reader;;
  act (HStartThread StdoutReader);;
  act (HStartThread StderrReader);;
  unwinding
    (t ← act HClock;
     ready ← _receive (t + float_ns (ready_timeout config)) "READY";
     _validate_ready ready;;
     accept_ready ready;;
     assert_healthy)
    close_unverified.

(** *** Finishing *)

Definition _validate_quiescence (q : quiescence) : R dict :=
  barrier ← match q with
            | Mapping d => mret (PDict d)
            | Attestation answer => fun s => (answer, s)
            | Other => throw (effects_error "quiescence must be a Core attestation")
            end;
  lift (check_barrier binding barrier).

Definition finish_command (nonce : pyval) : pyval :=
  PDict [("protocol_version", PInt PROTOCOL_VERSION); ("command", PStr "FINISH");
         ("run_id", run_id binding); ("finish_nonce", nonce)].

Definition _send (message : pyval) : R unit :=
  encoded ← lift (canonical_line message);
  throw_when (MAX_PROTOCOL_LINE_BYTES <? Z.of_nat (String.length encoded))
    (observe_error "FINISH exceeds the protocol bound");;
  catch (act (HStdin encoded)) (fun e =>
    if is_os_error e then throw (observe_error "FINISH channel failed") else throw e).

Definition _require_observer_exit (deadline : Z) : R unit :=
  t ← act HClock;
  throw_when (deadline - t <=? 0) (observe_error "exit timed out");;
  code ← catch (act (HWait Observer (deadline - t))) (fun e =>
    if bool_decide (e = TimeoutExpired) then throw (observe_error "did not exit after FINISHED")
    else throw e);
  diagnostics ← read _diagnostics;
  throw_when (negb (code =? 0))
    (observe_error ("exited with status " +:+ pretty code +:+ ": " +:+ detail_of diagnostics));;
  started ← read _reader;
  if (started : bool) then act (HJoin StdoutReader (seconds 1));; act (HJoin StderrReader (seconds 1))
  else mret ().

Definition ready_message : R dict :=
  ready ← read _ready;
  match ready with Some m => mret m | None => throw AssertionError end.

Definition _validate_terminal_artifacts (terminal : dict) : R (_StableArtifact * _StableArtifact) :=
  report ← _read_json_artifact _evidence_directory REPORT MAX_ARTIFACT_JSON_BYTES;
  manifest ← _read_json_artifact _evidence_directory "artifact-manifest.json" MAX_ARTIFACT_JSON_BYTES;
  ready ← ready_message;
  lift (check_terminal_artifacts config binding ready terminal report manifest);;
  mret (report, manifest).

(** [try: m finally: fin], where [fin] also reports what it saw. *)
Definition concluding {A B} (m : R A) (fin : R B) : R (A * B) := fun s =>
  match m s with
  | (r, s') =>
      match fin s' with
      | (Done b, s'') => (match r with
                          | Done a => Done (a, b)
                          | Raised e => Raised e
                          | Interrupted => Interrupted
                          end, s'')
      | (Raised e, s'') => (Raised e, s'')
      | (Interrupted, s'') => (Interrupted, s'')
      end
  end.

Definition verifier_argv : list string :=
  [path_str (verifier_path config); "--artifacts"; path_str _evidence_directory;
   "--expectation"; audit_file expectation_file].

(** What the verifier said, as it is checked: the bytes of a JSON object. *)
(** What the verifier [program] printed, when it ended well and in its bounds. *)
Definition verifier_output (program : string) (code : Z) (alive : bool) (out err : list string)
    : result (dict * string) :=
  let error s := WorkspaceError (program +:+ " " +:+ s) in
  raise_if alive (error "output drain did not terminate");;
  let '(data, overflow) := drain MAX_VERIFIER_STDOUT_BYTES out in
  let '(detail, overflow') := drain MAX_VERIFIER_STDERR_BYTES err in
  raise_if (overflow || overflow') (error "output exceeded its bound");;
  raise_if (negb (code =? 0))
    (error ("exited with status " +:+ pretty code +:+ ": " +:+ decode_replacing detail));;
  match loads_bytes data with
  | Err JSONDecodeError => Err (error "returned invalid JSON")
  | Err e => Err e
  | Ok (PDict verification) =>
      Ok (verification,
          if ends_with_char "010" data then data else data +:+ String "010" EmptyString)
  | Ok _ => Err (error "result must be a JSON object")
  end.

(** Running [program]; the two kinds of run have a copy each. *)
Definition run_program (program late : string) (argv : list string) (deadline : Z) : R (dict * string) :=
  t ← act HClock;
  throw_when (deadline - t <=? 0) (effects_error late);;
  catch (act (HSpawn Verifier argv);; mret ()) (fun e =>
    if is_os_error e then throw (WorkspaceError ("failed to start " +:+ program +:+ ": " +:+ exn_str e))
    else throw e);;
  locked (fun _ => ()) (set_verifier true);;
  '(code, (alive, out, err)) ← concluding
    (catch (act (HWait Verifier (deadline - t))) (fun e =>
       if bool_decide (e = TimeoutExpired) then
         _terminate_process_group Verifier;; throw (WorkspaceError (program +:+ " timed out"))
       else throw e))
    (drained ← act (HDrained (seconds 5));
     locked (fun _ => ()) (set_verifier false);;
     mret drained);
  lift (verifier_output program code alive out err).

Definition _run_verifier (deadline : Z) : R (dict * string) :=
  run_program VERIFIER "offline verification timed out" verifier_argv deadline.

Definition _build_receipt (encoded outcome : string) (barrier terminal verification : dict)
    : result dict :=
  status ← dindex "evidence_status" terminal;
  count ← dindex "artifact_count" verification;
  bytes ← dindex "committed_artifact_total_bytes" verification;
  report ← dindex "report_sha256" terminal;
  manifest ← dindex "artifact_manifest_sha256" terminal;
  Ok [("protocol_version", PInt PROTOCOL_VERSION);
      ("status", PStr "FINISHED");
      ("run_id", run_id binding);
      ("run_epoch", epoch binding);
      ("agent_id", PStr (rb_agent_id binding));
      ("session_id", PStr (rb_session_id binding));
      ("cgroup_id", PInt (cgroup_id binding));
      ("outcome", PStr outcome);
      ("quiescence", PDict barrier);
      ("observer_evidence_status", status);
      ("offline_verification", PStr "VERIFIED");
      ("artifact_count", count);
      ("committed_artifact_total_bytes", bytes);
      ("evidence_directory", PStr (path_str _evidence_directory));
      ("config_path", PStr (audit_file config_file));
      ("config_sha256", PStr (sha256 encoded));
      ("expectation_path", PStr (audit_file expectation_file));
      ("verification_result_path", PStr (audit_file verification_file));
      ("report_path", PStr (path_str (path_child _evidence_directory REPORT)));
      ("report_sha256", report);
      ("artifact_manifest_path", PStr (path_str (path_child _evidence_directory "artifact-manifest.json")));
      ("artifact_manifest_sha256", manifest)].

(** The locked section at the start of [finish]: the receipt there already, or
    the claim. *)
Definition claim : R (option dict + pyval) :=
  yield;;
  r ← read (fun r => r);
  match _final_result r with
  | Some receipt => mret (inl (Some receipt))
  | None =>
      throw_when (match _finish_claimed r with Some _ => true | None => false end)
        (effects_error "finalization is already in progress");;
      throw_when (negb (bool_decide (_phase r = READY))
                  || match _failure_reason r with Some _ => true | None => false end)
        (effects_error "Observer is not ready for FINISH");;
      modify (claim_finish me);;
      match _finish_nonce r with
      | Some nonce => mret (inr nonce)
      | None => mret (inl None)
      end
  end.

(** The [try] of [finish]. *)
Definition finish_run (outcome : string) (barrier : dict) (nonce : pyval) (deadline : Z) : R dict :=
  '(document, encoded) ← lift encoded_config;
  _send (finish_command nonce);;
  terminal ← _receive deadline "FINISHED";
  lift (_validate_finished binding terminal);;
  _require_observer_exit deadline;;
  _validate_terminal_artifacts terminal;;
  v ← lift (dindex "artifact_manifest_sha256" terminal);
  w ← lift (dindex "report_sha256" terminal);
  text ← lift (canonical_line (expectation document v w));
  _write_new_file expectation_file text;;
  '(verification, bytes) ← _run_verifier deadline;
  ready ← ready_message;
  lift (_validate_offline_verification binding ready terminal verification);;
  _write_new_file verification_file bytes;;
  receipt ← lift (_build_receipt encoded outcome barrier terminal verification);
  text ← lift (canonical_line (PDict receipt));
  _write_new_file receipt_file text;;
  locked (fun _ => ()) (set_final receipt);;
  _shutdown;;
  mret receipt.

(** The name of the exception in the reason; an interrupt has its own. *)
Definition finish_failed (name : string) : R unit :=
  _set_failed ("system-effects finalization failed: " +:+ name);; _shutdown.

Definition failing {A} (m : R A) (handler : string -> R unit) : R A := fun s =>
  match m s with
  | (Done a, s') => (Done a, s')
  | (Raised e, s') => (handler (exn_name e);; throw e) s'
  | (Interrupted, s') => (handler "KeyboardInterrupt";; cut_off) s'
  end.

Definition finish (outcome : string) (q : quiescence) : R dict :=
  throw_when (negb (existsb (str_eqb outcome) _OUTCOMES))
    (WorkspaceError "invalid system-effects execution outcome");;
  barrier ← _validate_quiescence q;
  claimed ← claim;
  match claimed with
  | inl (Some receipt) => mret receipt
  | inl None => throw AssertionError
  | inr nonce =>
      t ← act HClock;
      failing (finish_run outcome barrier nonce (t + float_ns (finalize_timeout config))) finish_failed
  end.

Definition status : R dict :=
  r ← locked (fun r => r) (fun r => r);
  '(_, encoded) ← lift encoded_config;
  mret
    ([("protocol_version", PInt PROTOCOL_VERSION);
      ("status", PStr (phase_name (_phase r)));
      ("run_id", run_id binding);
      ("run_epoch", epoch binding);
      ("cgroup_id", PInt (cgroup_id binding));
      ("observer_pid", match _process r with Some pid => PInt pid | None => PNone end);
      ("evidence_directory", PStr (path_str _evidence_directory));
      ("config_sha256", PStr (sha256 encoded));
      ("profile", PStr (profile config));
      ("object_resolution_mode", PStr (object_resolution_mode config));
      ("scopes_enabled", PList (PStr <$> scopes_enabled config));
      ("offline_verified", PBool (match _final_result r with Some _ => true | None => false end));
      ("failure", pystr_opt (_failure_reason r))]
     ++ match _ready r with
        | None => []
        | Some m => [("deployment_scope_sha256", dgetn "deployment_scope_sha256" m);
                     ("registration_cgroup_ids", dgetn "registration_cgroup_ids" m)]
        end).
End run.

(** [SystemEffectsRun(config, context, on_close)] *)
Definition SystemEffectsRun `{FloatText} `{Host} (config : SystemEffectsConfig)
    (sha256 : string -> string) (current : option thread)
    (others : RunBinding -> list hcall -> run -> run) (ctx : run_context) : P hcall run RunBinding :=
  binding ← from_context ctx;
  start config binding sha256 current (others binding);; mret binding.
