(* ===== verification/ObserverSpec.v ===== *)
(** * What an observed run proves

    A receipt is handed out only on the whole chain of evidence, and is on disk
    before; a run is finished once, its owner is told once that it ended, and a
    run that does not finish has failed for good. *)

From Stdlib Require Import Ascii SpecFloat.
From Stdlib Require String.
From stdpp Require Import gmap pretty.
From S2P Require Import Prelude Effects PyVal Paths Durable Kernel Json Runs Host EffectsConfig.
From S2P Require Import Observer.
Open Scope Z_scope.

(** ** The methods, along any relation *)

Create HintDb travels.

(** Neither a callback nor a change of the store. *)
Definition silent (c : hcall) : bool :=
  match c with HOnFailure _ | HOnClose | HCleanup _ _ _ => false | _ => true end.

Section travelling.
Context `{FloatText} `{Host}.
Context (config : SystemEffectsConfig) (binding : RunBinding) (sha256 : string -> string).
Context (me : nat) (current : option thread) (others : list hcall -> run -> run).
Context (Rel : relation (st hcall run)) `{!PreOrder Rel}.
Context (Hcall : forall c s, silent c = true -> Rel s (St (hist s ++ [c]) (obj s))).
Context (Hothers : forall s, Rel s (St (hist s) (others (hist s) (obj s)))).

Definition allowed (f : run -> run) : Prop := forall s, Rel s (St (hist s) (f (obj s))).

Lemma travels_yield : travels Rel (yield others).
Proof. apply travels_interleave, Hothers. Qed.

Lemma travels_call c : silent c = true -> travels Rel (call c).
Proof. intros Hc. apply travels_perform. intros s. by apply Hcall. Qed.

Lemma travels_act c : silent c = true -> travels Rel (act others c).
Proof. intros Hc. apply travels_bind; [done|apply travels_yield|]. intros _. by apply travels_call. Qed.

Lemma travels_locked {A} (f : run -> A) g : allowed g -> travels Rel (locked others f g).
Proof.
  intros Hg. apply travels_bind; [done|apply travels_yield|]. intros _.
  apply travels_bind; [done|by apply travels_read|]. intros a.
  apply travels_bind; [done|by apply travels_modify|]. intros _. by apply travels_ret.
Qed.

Lemma allowed_id : allowed (fun r => r).
Proof. by intros [h r]. Qed.
Ltac travel :=
  repeat first
    [ travel_step
    | lazymatch goal with
      | |- travels _ (act _ _) => apply travels_act; reflexivity
      | |- travels _ (call _) => apply travels_call; reflexivity
      | |- travels _ (locked _ _ _) => apply travels_locked
      | |- travels _ (yield _) => apply travels_yield
      | |- travels _ (wrapping _ _ _) => unfold wrapping
      | |- travels _ (closing _ _) => unfold closing
      | |- travels _ (ignoring_os_errors _) => unfold ignoring_os_errors
      end
    | solve [eauto with travels] ].

Lemma travels_cut_off {A} : travels Rel (cut_off : R A).
Proof. by apply travels_still. Qed.

Lemma travels_read_chunks turns fd limit consumed e :
  travels Rel (read_chunks turns fd limit consumed e).
Proof.
  revert consumed. induction turns as [|turns IH]; intros consumed; simpl; [apply travels_cut_off|].
  travel.
Qed.
#[local] Hint Resolve travels_cut_off travels_read_chunks : travels.

Lemma travels_read_stable fd limit bounded e1 e2 e3 :
  travels Rel (read_stable fd limit bounded e1 e2 e3).
Proof. unfold read_stable. travel. Qed.
#[local] Hint Resolve travels_read_stable : travels.

Lemma travels_read_json_artifact directory name limit :
  travels Rel (_read_json_artifact sha256 others directory name limit).
Proof. unfold _read_json_artifact. travel. Qed.
#[local] Hint Resolve travels_read_json_artifact : travels.

Lemma travels_receive deadline expected :
  (forall l, allowed (set_messages l)) -> travels Rel (_receive others deadline expected).
Proof. intros Hm. unfold _receive, dequeue. travel. intros s. apply Hm. Qed.

Lemma travels_send m : travels Rel (_send others m).
Proof. unfold _send. travel. Qed.

Lemma travels_require_observer_exit deadline :
  travels Rel (_require_observer_exit others deadline).
Proof. unfold _require_observer_exit. travel. Qed.

Lemma travels_validate_terminal_artifacts terminal :
  travels Rel (_validate_terminal_artifacts config binding sha256 others terminal).
Proof. unfold _validate_terminal_artifacts, ready_message. travel. Qed.

Lemma travels_terminate_process_group c : travels Rel (_terminate_process_group others c).
Proof. unfold _terminate_process_group, signal_group, wait_5. travel. Qed.
#[local] Hint Resolve travels_terminate_process_group : travels.

Lemma travels_terminate_if_alive c : travels Rel (terminate_if_alive others c).
Proof. unfold terminate_if_alive. travel. Qed.
#[local] Hint Resolve travels_terminate_if_alive : travels.

Lemma travels_concluding {A B} (m : R A) (fin : R B) :
  travels Rel m -> travels Rel fin -> travels Rel (concluding m fin).
Proof.
  intros Hm Hf s. specialize (Hm s). unfold concluding. destruct (m s) as [r s1]. simpl in *.
  specialize (Hf s1). destruct (fin s1) as [[b|e|] s2]; simpl in *; by transitivity s1.
Qed.

Lemma travels_run_program program late argv deadline :
  (forall b, allowed (set_verifier b)) -> travels Rel (run_program others program late argv deadline).
Proof.
  intros Hv. unfold run_program. travel; try apply Hv. apply travels_concluding; travel; apply Hv.
Qed.

Lemma travels_assert_healthy : travels Rel (assert_healthy others).
Proof. unfold assert_healthy. travel. apply allowed_id. Qed.

Lemma travels_validate_quiescence q : travels Rel (_validate_quiescence binding q).
Proof. unfold _validate_quiescence. travel. by apply travels_still. Qed.

Lemma travels_open_private_directory p : travels Rel (_open_private_directory others p).
Proof. unfold _open_private_directory. travel. Qed.

Lemma travels_set_failed reason : allowed (fail_with reason) -> travels Rel (_set_failed others reason).
Proof. intros Hf. unfold _set_failed. travel. Qed.

(** The callbacks are for each relation to account for. *)
Context (Hclose : travels Rel (_retire others)).
#[local] Hint Resolve Hclose : travels.

Lemma travels_shutdown : allowed set_expected_shutdown -> travels Rel (_shutdown current others).
Proof. intros Hs. unfold _shutdown, join_5. travel. Qed.

Lemma travels_close_unverified :
  allowed set_expected_shutdown -> allowed note_closed -> travels Rel (close_unverified current others).
Proof. intros Hs Hn. unfold close_unverified. travel. by apply travels_shutdown. Qed.
End travelling.

(** ** Whole methods, along a relation that allows every plain change *)

(** What neither retires the run nor reports its failure. *)
Definition plain (f : run -> run) : Prop :=
  forall r, _retired (f r) = _retired r /\ _failure_reported (f r) = _failure_reported r.

Section whole.
Context `{FloatText} `{Host}.
Context (config : SystemEffectsConfig) (binding : RunBinding) (sha256 : string -> string).
Context (me : nat) (current : option thread) (others : list hcall -> run -> run).
Context (Rel : relation (st hcall run)) `{!PreOrder Rel}.
Context (Hcall : forall c s, silent c = true -> Rel s (St (hist s ++ [c]) (obj s))).
Context (Hothers : forall s, Rel s (St (hist s) (others (hist s) (obj s)))).
Context (Hplain : forall f, plain f -> allowed Rel f).
Context (Hclose : travels Rel (_retire others)).
Context (Hpublish : forall reason, travels Rel (_publish_failure others reason)).

Lemma plain_put i : plain (put_item i).
Proof. intros r. unfold put_item. by destruct (_ <? _)%nat. Qed.

Lemma plain_fail reason : plain (fail_with reason).
Proof. intros r. unfold fail_with. by destruct (_failure_reason r). Qed.

Lemma plain_note : plain note_closed.
Proof.
  intros r. unfold note_closed. destruct (_expected_shutdown r); [done|].
  destruct (bool_decide _); [apply plain_put|]. destruct (plain_put
    (_ProtocolFailure "system-effects observation closed without verification")
    (set_phase CLOSED_UNVERIFIED r)) as [-> ->]. done.
Qed.

Ltac travel :=
  repeat first
    [ travel_step
    | lazymatch goal with
      | |- travels _ (act _ _) => apply travels_act; [exact _|exact Hcall|exact Hothers|reflexivity]
      | |- travels _ (call _) => apply travels_call; [exact Hcall|reflexivity]
      | |- travels _ (locked _ _ _) => apply travels_locked; [exact _|exact Hothers|]
      | |- travels _ (yield _) => apply travels_yield; exact Hothers
      | |- travels _ (wrapping _ _ _) => unfold wrapping
      | |- travels _ (cut_off) => apply travels_cut_off; exact _
      | |- travels _ (_retire _) => exact Hclose
      | |- travels _ (_publish_failure _ _) => apply Hpublish
      | |- allowed _ (put_item _) => apply Hplain, plain_put
      | |- allowed _ (fail_with _) => apply Hplain, plain_fail
      | |- allowed _ note_closed => apply Hplain, plain_note
      | |- allowed _ _ => apply Hplain; by intros ?
      | |- forall s, Rel s (St (hist s) (?f (obj s))) => change (allowed Rel f)
      end
    | solve [eauto with travels] ].

Lemma travels_close : travels Rel (close_unverified current others).
Proof.
  apply travels_close_unverified; [exact _|exact Hcall|exact Hothers|exact Hclose|..];
    apply Hplain; [by intros ?|apply plain_note].
Qed.

Lemma travels_set_failed' reason : travels Rel (_set_failed others reason).
Proof. unfold _set_failed. travel. Qed.

Lemma travels_write_view turns fd name view : travels Rel (write_view others turns fd name view).
Proof. revert view. induction turns as [|turns IH]; intros view; simpl; travel. Qed.

Lemma travels_write_new_file name encoded : travels Rel (_write_new_file binding others name encoded).
Proof.
  unfold _write_new_file, create_new.
  repeat first [apply travels_open_private_directory; assumption | apply travels_write_view | progress travel].
Qed.

Lemma travels_failing {A} (m : R A) handler :
  travels Rel m -> (forall n, travels Rel (handler n)) -> travels Rel (failing m handler).
Proof.
  intros Hm Hh s. specialize (Hm s). unfold failing. destruct (m s) as [[a|e|] s1]; simpl in *; [done|..].
  - transitivity s1; [done|]. assert (travels Rel (handler (exn_name e);; throw e : R A)) as Ht; [|apply Ht].
    travel.
  - transitivity s1; [done|].
    assert (travels Rel (handler "KeyboardInterrupt";; cut_off : R A)) as Ht; [|apply Ht].
    travel.
Qed.

Lemma travels_finish_run outcome barrier nonce deadline :
  travels Rel (finish_run config binding sha256 current others outcome barrier nonce deadline).
Proof.
  unfold finish_run, ready_message, _run_verifier.
  repeat first
    [ apply travels_send; assumption | apply travels_require_observer_exit; assumption
    | apply travels_receive; [assumption..|intros l; apply Hplain; by intros ?]
    | apply travels_validate_terminal_artifacts; assumption
    | apply travels_run_program; [assumption..|intros b; apply Hplain; by intros ?]
    | apply travels_write_new_file
    | apply travels_shutdown; [assumption..|apply Hplain; by intros ?]
    | progress travel ].
Qed.

Lemma travels_finish outcome q :
  travels Rel (finish config binding sha256 me current others outcome q).
Proof.
  unfold finish, finish_failed, claim.
  repeat first
    [ apply travels_validate_quiescence; assumption | apply travels_failing; [|intros n]
    | apply travels_finish_run | apply travels_set_failed'
    | apply travels_shutdown; [assumption..|apply Hplain; by intros ?]
    | progress travel ].
Qed.

Lemma travels_read_stdout inputs : travels Rel (_read_stdout others inputs).
Proof.
  induction inputs as [|i inputs IH]; simpl; [apply travels_ret; exact _|].
  apply travels_bind; [exact _| |intros [|]; [exact IH|apply travels_ret; exact _]].
  unfold read_turn. travel.
Qed.

Lemma travels_start : travels Rel (start config binding sha256 current others).
Proof.
  unfold start, spawn_observer, _validate_ready, accept_ready.
  repeat first
    [ apply travels_receive; [assumption..|intros l; apply Hplain; by intros ?]
    | apply travels_read_json_artifact; assumption
    | apply travels_write_new_file | apply travels_close | apply travels_set_failed'
    | apply travels_assert_healthy; assumption
    | progress travel ].
Qed.
End whole.

(** ** What threads make of the run for each other *)

(** What happened stays: a claim, a reason to fail, the end, the receipt. *)
Record steady (r r' : run) : Prop := Steady {
  sy_claim t : _finish_claimed r = Some t -> _finish_claimed r' = Some t;
  sy_reason e : _failure_reason r = Some e -> _failure_reason r' = Some e;
  sy_shutdown : _expected_shutdown r = true -> _expected_shutdown r' = true;
  sy_retired : _retired r = true -> _retired r' = true;
  sy_reported : _failure_reported r = true -> _failure_reported r' = true;
  sy_final d : _final_result r = Some d -> _final_result r' = Some d;
  sy_ready m : _ready r = Some m -> _ready r' = Some m;
  sy_started m : _agent_started_message (more r) = Some m -> _agent_started_message (more r') = Some m }.

#[export] Instance steady_preorder : PreOrder steady.
Proof. split; [by intros r; constructor|]. intros r1 r2 r3 [] []. constructor; eauto. Qed.

(** Of a recovery run, what its start and its finish write. *)
Definition owned (e : extra) :=
  (_legacy_ready e, _agent_started_message e, _snapshots e, _recovery_helper_succeeded e).

(** What the thread that claimed the finish owns. *)
Record kept (r r' : run) : Prop := Kept {
  k_audit : audit r' = audit r;
  k_ready : _ready r' = _ready r;
  k_final : _final_result r' = _final_result r;
  k_owned : owned (more r') = owned (more r) }.

#[export] Instance kept_preorder : PreOrder kept.
Proof. split; [by intros r; constructor|]. intros r1 r2 r3 [] []. constructor; congruence. Qed.

Definition rely (u : nat) (r r' : run) : Prop :=
  steady r r' /\ (_finish_claimed r = Some u -> kept r r').

#[export] Instance rely_preorder u : PreOrder (rely u).
Proof.
  split; [by intros r; split|]. intros r1 r2 r3 [S1 K1] [S2 K2]. split; [by etrans|].
  intros Hc. etrans; [by apply K1|]. apply K2. by eapply sy_claim.
Qed.

(** The calls made and the object, as thread [u] relies on it. *)
Definition along (u : nat) (s s' : st hcall run) : Prop := grows s s' /\ rely u (obj s) (obj s').

#[export] Instance along_preorder u : PreOrder (along u).
Proof.
  split; [by intros s; split|]. intros s1 s2 s3 [? ?] [? ?]. by split; etrans.
Qed.

Lemma grows_same {C O : Type} (h : list C) (o o' : O) : grows (St h o) (St h o').
Proof. unfold grows. done. Qed.

Lemma grows_snoc {C O : Type} (h : list C) c (o o' : O) : grows (St h o) (St (h ++ [c]) o').
Proof. by exists [c]. Qed.

Lemma grows_then {C O : Type} (s s' : st C O) c o : grows s s' -> grows s (St (hist s' ++ [c]) o).
Proof. unfold grows. simpl. intros. by apply prefix_app_r. Qed.

Lemma grows_obj {C O : Type} (s s' : st C O) o : grows s s' -> grows s (St (hist s') o).
Proof. done. Qed.

(** The changes that every thread may make at any time. *)
Lemma change_along u h r r' : steady r r' -> kept r r' -> along u (St h r) (St h r').
Proof. intros Hs Hk. split; [apply grows_same|]. split; [done|]. intros _. exact Hk. Qed.

Section claiming.
Context `{FloatText} `{Host}.
Context (config : SystemEffectsConfig) (binding : RunBinding) (sha256 : string -> string).
Context (me : nat) (current : option thread) (others : list hcall -> run -> run).
Context (Hrely : forall h r, rely me r (others h r)).

Lemma along_others s : along me s (St (hist s) (others (hist s) (obj s))).
Proof. split; [destruct s; apply grows_same|apply Hrely]. Qed.

Lemma along_call c s : along me s (St (hist s ++ [c]) (obj s)).
Proof. split; [by destruct s; apply grows_snoc|reflexivity]. Qed.

Lemma ewp_act c (Q : reply (answer c) -> st hcall run -> Prop) s :
  (forall r', rely me (obj s) r' -> Q (host (hist s) c) (St (hist s ++ [c]) r')) ->
  ewp (act others c) Q s.
Proof. intros HQ. apply HQ, Hrely. Qed.

Lemma ewp_locked {A} (f : run -> A) g (Q : reply A -> st hcall run -> Prop) s :
  (forall r', rely me (obj s) r' -> Q (Done (f r')) (St (hist s) (g r'))) -> ewp (locked others f g) Q s.
Proof. intros HQ. apply HQ, Hrely. Qed.

Ltac quiet := intros [h [? ? ? ? ? ? ? ? ? ? ? ? ? ? ? ?]]; apply change_along; [constructor|constructor]; simpl;
  congruence.

Lemma allowed_messages l : allowed (along me) (set_messages l).
Proof. quiet. Qed.

Lemma allowed_diagnostic d : allowed (along me) (add_diagnostic d).
Proof. quiet. Qed.

Lemma allowed_phase p : allowed (along me) (set_phase p).
Proof. quiet. Qed.

Lemma allowed_verifier b : allowed (along me) (set_verifier b).
Proof. quiet. Qed.

Lemma allowed_retired : allowed (along me) set_retired.
Proof. quiet. Qed.

Lemma allowed_shutdown : allowed (along me) set_expected_shutdown.
Proof. quiet. Qed.

Lemma allowed_put i : allowed (along me) (put_item i).
Proof.
  intros s. unfold put_item. destruct (_ <? _)%nat; [apply (allowed_messages _ s)|by destruct s].
Qed.

Lemma allowed_fail reason : allowed (along me) (fail_with reason).
Proof.
  intros [h [? ? ? reason' ? ? ? ? ? ? ? ? ? ? ? ?]]. destruct reason'; apply change_along; constructor;
    simpl; congruence.
Qed.

Lemma allowed_record reason : allowed (along me) (record_failure reason).
Proof.
  intros [h [? ? ? reason' ? e ? ? ? ? ? ? ? ? ? ?]]. destruct reason', e; apply change_along; constructor;
    simpl; congruence.
Qed.

Lemma allowed_note : allowed (along me) note_closed.
Proof.
  intros s. unfold note_closed. destruct (_expected_shutdown _); [by destruct s|].
  destruct (bool_decide _); [apply (allowed_put _ s)|].
  etrans; [apply (allowed_phase CLOSED_UNVERIFIED s)|apply (allowed_put _ (St _ _))].
Qed.

Lemma retire_along : travels (along me) (_retire others).
Proof.
  unfold _retire. apply travels_bind; [exact _|apply travels_locked; [exact _|apply along_others|
    apply allowed_retired]|]. intros [|]; [apply travels_ret; exact _|].
  apply travels_bind; [exact _|apply travels_interleave, along_others|]. intros _.
  apply travels_perform. apply along_call.
Qed.

Lemma returns_act c (Q : answer c -> st hcall run -> Prop) s :
  (forall a r', rely me (obj s) r' -> host (hist s) c = Done a -> Q a (St (hist s ++ [c]) r')) ->
  returns (act others c) Q s.
Proof. intros HQ a s' [= Ha <-]. apply HQ; [apply Hrely|done]. Qed.

Lemma returns_locked {A} (f : run -> A) g (Q : A -> st hcall run -> Prop) s :
  (forall r', rely me (obj s) r' -> Q (f r') (St (hist s) (g r'))) -> returns (locked others f g) Q s.
Proof. intros HQ a s' [= <- <-]. apply HQ, Hrely. Qed.

Ltac act_step :=
  lazymatch goal with
  | |- returns (act _ ?c) _ _ => apply (returns_act c)
  | |- returns (locked _ ?f ?g) _ _ => apply (returns_locked f g)
  end.

(** *** A file of the audit directory *)

(** From [r0] the thread has so far written [bytes] to the new file. *)
Record writing (name : string) (r0 r : run) (bytes : list ascii) (synced : bool) : Prop := Writing {
  w_steady : steady r0 r;
  w_ready : _ready r = _ready r0;
  w_final : _final_result r = _final_result r0;
  w_entries : entries (audit r) = <[name := File bytes synced]> (entries (audit r0));
  w_owned : owned (more r) = owned (more r0) }.

Lemma writing_rely name r0 r r' bytes synced :
  _finish_claimed r0 = Some me -> writing name r0 r bytes synced -> rely me r r' ->
  writing name r0 r' bytes synced.
Proof.
  intros Hc [Hs Hr Hf He Ho] [Hs' Hk]. apply (sy_claim _ _ Hs) in Hc. destruct (Hk Hc) as [Ha ? ? ?].
  constructor; [by etrans|congruence..].
Qed.

Lemma bytes_of_split n s : bytes_of (string_take n s) ++ bytes_of (string_drop n s) = bytes_of s.
Proof. revert s. induction n as [|n IH]; intros [|c s]; simpl; try done. by rewrite IH. Qed.

Lemma writing_append name r0 r bytes b :
  writing name r0 r bytes false -> writing name r0 (change_audit (append_file name b) r) (bytes ++ b) false.
Proof.
  intros [Hs Hr Hf He Ho]. constructor; [by destruct Hs; constructor|done|done| |done].
  simpl. unfold append_file. rewrite He, lookup_insert_eq. simpl. by rewrite insert_insert_eq.
Qed.

Lemma write_view_returns name r0 turns fd view bytes s :
  _finish_claimed r0 = Some me -> writing name r0 (obj s) bytes false ->
  returns (write_view others turns fd name view) (fun _ s' =>
    grows s s' /\ writing name r0 (obj s') (bytes ++ bytes_of view) false) s.
Proof.
  intros Hc. revert view bytes s. induction turns as [|turns IH]; intros view bytes s Hw; simpl;
    (destruct (str_eqb view EmptyString) eqn:Ev;
      [apply str_eqb_eq in Ev as ->; apply returns_ret; by rewrite app_nil_r|]); [by intros ?|].
  apply returns_bind. act_step. intros n r' Hr' _. apply (writing_rely _ _ _ _ _ _ Hc Hw) in Hr'.
  apply returns_bind, returns_throw_when. intros _. apply returns_bind, returns_modify.
  eapply returns_mono; [apply IH, writing_append, Hr'|]. intros _ s' [Hg Hs'].
  split; [|by rewrite <-app_assoc, bytes_of_split in Hs'].
  etrans; [|exact Hg]. destruct s. apply grows_snoc.
Qed.

Lemma writing_new name r0 r :
  _finish_claimed r0 = Some me -> rely me r0 r ->
  writing name r0 (change_audit (put_file name (File [] false)) r) [] false.
Proof.
  intros Hc [Hs Hk]. destruct (Hk Hc) as [Ha ? ? ?].
  constructor; [by destruct Hs; constructor|done|done| |done]. simpl. by rewrite Ha.
Qed.

Lemma writing_synced name r0 r bytes :
  writing name r0 r bytes false -> writing name r0 (change_audit (sync_file name) r) bytes true.
Proof.
  intros [Hs Hr Hf He Ho]. constructor; [by destruct Hs; constructor|done|done| |done].
  simpl. unfold sync_file. rewrite He, lookup_insert_eq. simpl. by rewrite insert_insert_eq.
Qed.

Lemma writing_dir name r0 r bytes b :
  writing name r0 r bytes b -> writing name r0 (change_audit sync_dir r) bytes b.
Proof. intros [Hs Hr Hf He Ho]. by constructor; [destruct Hs; constructor|..]. Qed.

(** A new file is complete and on disk when the call returns. *)
Lemma write_new_file_returns name encoded s :
  _finish_claimed (obj s) = Some me ->
  returns (_write_new_file binding others name encoded) (fun _ s' =>
    grows s s' /\ writing name (obj s) (obj s') (bytes_of encoded) true
    /\ entries (audit (obj s)) !! name = None) s.
Proof.
  intros Hc. unfold _write_new_file.
  apply returns_bind, (returns_along (along me)).
  { apply travels_open_private_directory; [exact _|intros; apply along_call|apply along_others]. }
  intros dir s1 [Hg1 [Hs1 Hk1]]. destruct (Hk1 Hc) as [Ha _ _ _].
  apply returns_bind, returns_unwinding, returns_wrapping, returns_bind, returns_read.
  apply returns_bind, returns_throw_when. intros Hfresh%bool_decide_eq_false%eq_None_not_Some.
  rewrite Ha in Hfresh. apply returns_bind. act_step. intros fd r2 Hr2 _.
  apply returns_bind, returns_modify, returns_ret.
  assert (rely me (obj s) r2) as Hr by (etrans; [split; [exact Hs1|exact Hk1]|exact Hr2]).
  apply (writing_new name _ _ Hc) in Hr.
  apply returns_finally, returns_bind. eapply returns_mono; [apply write_view_returns; [exact Hc|exact Hr]|].
  intros _ s3 [Hg3 Hw3].
  apply returns_bind. act_step. intros _ r4 Hr4 _. apply returns_bind, returns_modify.
  apply returns_bind. act_step. intros _ r5 Hr5 _. apply returns_modify.
  apply returns_bind. act_step. intros _ r6 Hr6 _. apply returns_bind. act_step. intros _ r7 Hr7 _.
  apply returns_ret. split; [|split; [|done]].
  - repeat apply grows_then. simpl. etrans; [exact Hg1|]. etrans; [|exact Hg3].
    destruct s1. apply grows_snoc.
  - repeat (eapply writing_rely; [exact Hc| |eassumption]).
    apply writing_dir. eapply writing_rely; [exact Hc| |exact Hr5]. apply writing_synced.
    by eapply writing_rely.
Qed.

(** *** The steps of a finish *)

(** A call of [c] answered [r], after [h] and before [h']. *)
Definition between (h : list hcall) (c : hcall) (r : answer c) (h' : list hcall) : Prop :=
  exists k, h `prefix_of` k /\ host k c = Done r /\ (k ++ [c]) `prefix_of` h'.

Lemma between_mono h1 h2 c r h3 h4 :
  h1 `prefix_of` h2 -> between h2 c r h3 -> h3 `prefix_of` h4 -> between h1 c r h4.
Proof. intros H1 (k & H2 & Hr & H3) H4. exists k. split; [by etrans|]. split; [done|by etrans]. Qed.

Lemma between_act h c r : host h c = Done r -> between h c r (h ++ [c]).
Proof. intros Hr. by exists h. Qed.

(** What was read is the JSON object whose bytes have the digest. *)
Definition read_back (a : _StableArtifact) : Prop :=
  exists text, loads_bytes text = Ok (PDict (a_value a)) /\ a_digest a = sha256 text
               /\ a_size a = Z.of_nat (String.length text).

Lemma read_json_artifact_returns directory name limit s :
  returns (_read_json_artifact sha256 others directory name limit) (fun a s' =>
    along me s s' /\ read_back a) s.
Proof.
  apply (returns_travels (along me)).
  { apply travels_read_json_artifact; [exact _|intros; apply along_call|apply along_others]. }
  unfold _read_json_artifact. apply returns_bind, returns_throw_when. intros _.
  do 2 (apply returns_bind; intros ? ? _).
  apply returns_bind, returns_catch.
  - apply returns_lift. intros v Hv. destruct v; try apply returns_throw.
    apply returns_ret. intros Ha. split; [exact Ha|]. by eexists.
  - intros e s3 _. destruct (bool_decide _); apply returns_throw.
Qed.

Lemma terminal_artifacts_returns terminal s :
  _finish_claimed (obj s) = Some me ->
  returns (_validate_terminal_artifacts config binding sha256 others terminal) (fun a s' =>
    along me s s' /\ read_back a.1 /\ read_back a.2 /\ exists ready, _ready (obj s) = Some ready
    /\ check_terminal_artifacts config binding ready terminal a.1 a.2 = Ok ()) s.
Proof.
  intros Hc. unfold _validate_terminal_artifacts, ready_message.
  apply returns_bind. eapply returns_mono; [apply read_json_artifact_returns|].
  intros report s1 [Ha1 Hb1]. apply returns_bind. eapply returns_mono; [apply read_json_artifact_returns|].
  intros manifest s2 [Ha2 Hb2]. assert (along me s s2) as Ha by by etrans.
  pose proof Ha as [_ [_ Hk]]. destruct (Hk Hc) as [_ Hr _ _].
  apply returns_bind, returns_bind, returns_read. rewrite Hr.
  destruct (_ready (obj s)) as [ready|]; [|apply returns_throw]. apply returns_ret.
  apply returns_bind, returns_lift. intros [] Hcheck. apply returns_ret. split; [done|]. split; [done|]. split; [done|]. by exists ready.
Qed.

Lemma send_returns m s :
  returns (_send others m) (fun _ s' => along me s s' /\
    exists text, canonical_line m = Ok text /\ between (hist s) (HStdin text) tt (hist s')) s.
Proof.
  apply (returns_travels (along me)).
  { apply travels_send; [exact _|intros; apply along_call|apply along_others]. }
  unfold _send. apply returns_bind, returns_lift. intros text Ht.
  apply returns_bind, returns_throw_when. intros _. apply returns_catch.
  - act_step. intros [] r' _ Hr Ha. split; [exact Ha|]. exists text. split; [done|]. by apply between_act.
  - intros e s' _. destruct (is_os_error e); apply returns_throw.
Qed.

Lemma require_observer_exit_returns deadline s :
  returns (_require_observer_exit others deadline) (fun _ s' => along me s s' /\
    exists d, between (hist s) (HWait Observer d) 0 (hist s')) s.
Proof.
  apply (returns_travels (along me)).
  { apply travels_require_observer_exit; [exact _|intros; apply along_call|apply along_others]. }
  unfold _require_observer_exit. apply returns_bind. act_step. intros t r1 _ _.
  apply returns_bind, returns_throw_when. intros _. apply returns_bind, returns_catch.
  - act_step. intros code r2 _ Hr. apply returns_bind, returns_read.
    apply returns_bind, returns_throw_when. intros ->%negb_false_iff%Z.eqb_eq.
    apply returns_bind, returns_read. eapply (returns_along grows).
    + assert (forall c (s : st hcall run), grows s (St (hist s ++ [c]) (obj s)))
        by (intros c [h o]; apply grows_snoc).
      destruct (_reader _); [|apply travels_ret; exact _].
      apply travels_bind; [exact _| |intros _];
        (apply travels_act; [exact _|auto|intros [h o]; apply grows_same|done]).
    + intros _ s' Hg Ha. split; [exact Ha|]. exists (deadline - t).
      eapply between_mono; [|apply (between_act _ _ _ Hr)|exact Hg]. simpl. by apply prefix_app_r.
  - intros e s1 _. destruct (bool_decide _); apply returns_throw.
Qed.

Lemma returns_concluding {A B} (m : R A) (fin : R B) (Q : A * B -> st hcall run -> Prop) s :
  returns m (fun a s' => returns fin (fun b s'' => Q (a, b) s'') s') s -> returns (concluding m fin) Q s.
Proof.
  intros Hm [a b] s'. unfold concluding. destruct (m s) as [[a'|e|] s1] eqn:E;
    destruct (fin s1) as [[b'|?|] s2] eqn:E2; try done. intros [= -> -> ->]. by eapply Hm.
Qed.

Lemma run_program_returns program late argv deadline s :
  returns (run_program others program late argv deadline) (fun vb s' => along me s s' /\
    exists pid d ns out err k1 k2,
      between (hist s) (HSpawn Verifier argv) pid k1
      /\ between k1 (HWait Verifier d) 0 k2
      /\ between k2 (HDrained ns) (false, out, err) (hist s')
      /\ verifier_output program 0 false out err = Ok vb) s.
Proof.
  apply (returns_travels (along me)).
  { apply travels_run_program; [exact _|intros; apply along_call|apply along_others|].
    intros v. apply allowed_verifier. }
  unfold run_program. apply returns_bind. act_step. intros t r1 _ _.
  apply returns_bind, returns_throw_when. intros _. apply returns_bind, returns_catch.
  2:{ intros e s1 _. destruct (is_os_error e); apply returns_throw. }
  apply returns_bind. act_step. intros pid r2 _ Hspawn. apply returns_ret.
  apply returns_bind. act_step. intros r3 _. apply returns_bind, returns_concluding, returns_catch.
  2:{ intros e s1 _. destruct (bool_decide _); [|apply returns_throw].
      apply returns_bind. intros ? ? _. apply returns_throw. }
  act_step. intros code r4 _ Hwait. apply returns_bind. act_step. intros [[alive out] err] r5 _ Hdrain.
  apply returns_bind. act_step. intros r6 _. apply returns_ret, returns_lift.
  intros [v bytes] Hv Ha. split; [exact Ha|].
  assert (alive = false /\ code = 0) as [-> ->].
  { unfold verifier_output in Hv. destruct alive; [done|]. destruct (drain _ out), (drain _ err).
    destruct (_ || _); [done|]. simpl in Hv. destruct (Z.eqb_spec code 0); [done|]. done. }
  simpl in *. eexists pid, _, _, out, err, _, _.
  split; [eapply between_mono; [|apply (between_act _ (HSpawn Verifier _) _ Hspawn)|done]; by apply prefix_app_r|].
  split; [apply (between_act _ (HWait Verifier _) _ Hwait)|]. split; [apply (between_act _ (HDrained _) _ Hdrain)|done].
Qed.

Lemma receive_along deadline expected : travels (along me) (_receive others deadline expected).
Proof.
  apply travels_receive; [exact _|intros; apply along_call|apply along_others|].
  intros l. apply allowed_messages.
Qed.

Lemma shutdown_along : travels (along me) (_shutdown current others).
Proof.
  apply travels_shutdown; [exact _|intros; apply along_call|apply along_others|apply retire_along|
    apply allowed_shutdown].
Qed.

(** The evidence a receipt stands on, gathered after [h] and complete in [s']. *)
Definition backed (outcome : string) (barrier ready receipt : dict) (h : list hcall)
    (s' : st hcall run) : Prop :=
  exists document encoded nonce command terminal report manifest pid d1 d2 ns out err verification
    bytes expected receipt_text k1 k2 k3 k4,
    encoded_config config binding = Ok (document, encoded)
    (* the observer was told to finish and ended well *)
    /\ canonical_line (finish_command binding nonce) = Ok command
    /\ between h (HStdin command) tt k1
    /\ _validate_finished binding terminal = Ok ()
    /\ between k1 (HWait Observer d1) 0 k2
    (* its report and its manifest have the digests it gave and bind the run *)
    /\ read_back report /\ read_back manifest
    /\ check_terminal_artifacts config binding ready terminal report manifest = Ok ()
    (* then the verifier ran on them, ended well, and what it printed verifies the run *)
    /\ canonical_line (expectation document (dgetn "artifact_manifest_sha256" terminal)
         (dgetn "report_sha256" terminal)) = Ok expected
    /\ between k2 (HSpawn Verifier (verifier_argv config binding)) pid k3
    /\ between k3 (HWait Verifier d2) 0 k4
    /\ between k4 (HDrained ns) (false, out, err) (hist s')
    /\ verifier_output VERIFIER 0 false out err = Ok (verification, bytes)
    /\ _validate_offline_verification binding ready terminal verification = Ok ()
    (* the receipt says that, and everything is on disk *)
    /\ _build_receipt binding sha256 encoded outcome barrier terminal verification = Ok receipt
    /\ canonical_line (PDict receipt) = Ok receipt_text
    /\ entries (audit (obj s')) !! expectation_file = Some (File (bytes_of expected) true)
    /\ entries (audit (obj s')) !! verification_file = Some (File (bytes_of bytes) true)
    /\ entries (audit (obj s')) !! receipt_file = Some (File (bytes_of receipt_text) true).

Lemma dindex_dgetn k d v : dindex k d = Ok v -> v = dgetn k d.
Proof. unfold dindex, dgetn, dget_or. destruct (dget k d); [by intros [= ->]|done]. Qed.

(** Along the way the owner keeps what is its own. *)
Lemma along_owner s s' : _finish_claimed (obj s) = Some me -> along me s s' ->
  grows s s' /\ _finish_claimed (obj s') = Some me /\ kept (obj s) (obj s').
Proof. intros Hc [Hg [Hs Hk]]. split; [done|]. split; [by apply (sy_claim _ _ Hs)|auto]. Qed.

Lemma writing_owner name r0 r bytes b : _finish_claimed r0 = Some me -> writing name r0 r bytes b ->
  _finish_claimed r = Some me.
Proof. intros Hc [Hs _ _ _ _]. by apply (sy_claim _ _ Hs). Qed.

(** The last step: the receipt becomes the result, and everything is closed. *)
Lemma close_returns receipt s :
  _finish_claimed (obj s) = Some me ->
  returns (locked others (fun _ => ()) (set_final receipt);; _shutdown current others;; mret receipt)
    (fun receipt' s' => receipt' = receipt /\ grows s s' /\ _finish_claimed (obj s') = Some me
       /\ audit (obj s') = audit (obj s) /\ _ready (obj s') = _ready (obj s)
       /\ owned (more (obj s')) = owned (more (obj s)) /\ _final_result (obj s') = Some receipt) s.
Proof.
  intros Hc. apply returns_bind. act_step. intros r [Hs Hk]. destruct (Hk Hc) as [Ha Hr _ Ho].
  apply returns_bind, (returns_along (along me)); [apply shutdown_along|].
  intros [] s1 Hs1%along_owner; [|by apply (sy_claim _ _ Hs)].
  destruct Hs1 as (Hg & Hc1 & [Ha1 Hr1 Hf1 Ho1]). simpl in *. apply returns_ret.
  split; [done|]. split; [exact Hg|]. split; [done|]. split; [congruence|]. split; [congruence|]. split; [congruence|done].
Qed.

Lemma finish_run_returns outcome barrier nonce deadline s :
  _finish_claimed (obj s) = Some me ->
  returns (finish_run config binding sha256 current others outcome barrier nonce deadline)
    (fun receipt s' => exists ready, _ready (obj s) = Some ready /\ _ready (obj s') = Some ready
       /\ _final_result (obj s') = Some receipt
       /\ backed outcome barrier ready receipt (hist s) s') s.
Proof.
  intros Hc. unfold finish_run. apply returns_bind, returns_lift. intros [document encoded] Henc.
  apply returns_bind. eapply returns_mono; [apply send_returns|].
  intros _ s1 [(_ & Hc1 & [Ha1 Hr1 Hf1 Ho1])%along_owner (command & Hcmd & Hsend)]; [|done].
  apply returns_bind, (returns_along (along me)); [apply receive_along|].
  intros terminal s2 (Hg2 & Hc2 & [Ha2 Hr2 Hf2 Ho2])%along_owner; [|done].
  apply returns_bind, returns_lift. intros [] Hfin.
  apply returns_bind. eapply returns_mono; [apply require_observer_exit_returns|].
  intros _ s3 [(_ & Hc3 & [Ha3 Hr3 Hf3 Ho3])%along_owner (d1 & Hexit)]; [|done].
  apply returns_bind. eapply returns_mono; [by apply terminal_artifacts_returns|].
  intros [report manifest] s4 [(Hg4 & Hc4 & [Ha4 Hr4 Hf4 Ho4])%along_owner (Hb1 & Hb2 & ready & Hready & Hcheck)];
    [|done].
  apply returns_bind, returns_lift. intros v Hv. apply returns_bind, returns_lift. intros w Hw.
  apply returns_bind, returns_lift. intros expected Hexp.
  apply returns_bind. eapply returns_mono; [by apply write_new_file_returns|].
  intros _ s5 (Hg5 & Hw5 & _). pose proof (writing_owner _ _ _ _ _ Hc4 Hw5) as Hc5.
  apply returns_bind. eapply returns_mono; [apply run_program_returns|].
  intros [verification bytes] s6 [(_ & Hc6 & [Ha6 Hr6 Hf6 Ho6])%along_owner
    (pid & d2 & ns & out & err & k3 & k4 & Hspawn & Hwait & Hdrained & Hout)]; [|done].
  unfold ready_message. apply returns_bind, returns_bind, returns_read.
  assert (_ready (obj s6) = Some ready) as Hr by (rewrite Hr6, (w_ready _ _ _ _ _ Hw5); congruence).
  rewrite Hr. apply returns_ret. apply returns_bind, returns_lift. intros [] Hoff.
  apply returns_bind. eapply returns_mono; [by apply write_new_file_returns|].
  intros _ s7 (Hg7 & Hw7 & _). pose proof (writing_owner _ _ _ _ _ Hc6 Hw7) as Hc7.
  apply returns_bind, returns_lift. intros receipt Hreceipt.
  apply returns_bind, returns_lift. intros receipt_text Htext.
  apply returns_bind. eapply returns_mono; [by apply write_new_file_returns|].
  intros _ s8 (Hg8 & Hw8 & _). pose proof (writing_owner _ _ _ _ _ Hc7 Hw8) as Hc8.
  eapply returns_mono; [by apply close_returns|].
  intros receipt' s9 (-> & Hg9 & _ & Ha9 & Hr9 & _ & Hf9). exists ready.
  split; [congruence|]. split; [rewrite Hr9, (w_ready _ _ _ _ _ Hw8), (w_ready _ _ _ _ _ Hw7); done|].
  split; [done|].
  apply dindex_dgetn in Hv as ->. apply dindex_dgetn in Hw as ->.
  eexists document, encoded, nonce, command, terminal, report, manifest, pid, d1, d2, ns, out, err,
    verification, bytes, expected, receipt_text, _, _, k3, k4.
  pose proof (w_entries _ _ _ _ _ Hw5) as He5. pose proof (w_entries _ _ _ _ _ Hw7) as He7.
  pose proof (w_entries _ _ _ _ _ Hw8) as He8.
  split; [done|]. split; [done|]. split; [exact Hsend|]. split; [done|].
  split; [eapply between_mono; [exact Hg2|exact Hexit|done]|]. split; [done|]. split; [done|].
  split; [done|]. split; [done|].
  split; [eapply between_mono; [|exact Hspawn|done]; by etrans|].
  split; [done|]. split; [eapply between_mono; [done|exact Hdrained|]; etrans; [exact Hg7|by etrans]|].
  split; [done|]. split; [done|]. split; [done|]. split; [done|].
  rewrite Ha9, He8, He7, Ha6, He5. unfold expectation_file, verification_file, receipt_file.
  split; [|split]; rewrite ?lookup_insert_ne by done; by rewrite lookup_insert_eq.
Qed.
End claiming.

(** ** Properties *)

Section properties.
Context `{FloatText} `{Host}.
Context (config : SystemEffectsConfig) (binding : RunBinding) (sha256 : string -> string).
Context (me : nat) (current : option thread) (others : list hcall -> run -> run).
Context (Hrely : forall h r, rely me r (others h r)).

(** The core's attestation, as [finish] sees it. *)
Definition attested (q : quiescence) (barrier : dict) : Prop :=
  match q with
  | Mapping d => check_barrier binding (PDict d) = Ok barrier
  | Attestation (Done v) => check_barrier binding v = Ok barrier
  | _ => False
  end.

Lemma validate_quiescence_returns q s :
  returns (_validate_quiescence binding q) (fun barrier s' => attested q barrier /\ s' = s) s.
Proof.
  unfold _validate_quiescence. apply returns_bind. destruct q as [d|a|]; [apply returns_ret| |apply returns_throw].
  - apply returns_lift. by intros barrier.
  - intros v s' [= -> <-]. apply returns_lift. by intros barrier.
Qed.

Lemma finish_returns outcome q s :
  returns (finish config binding sha256 me current others outcome q) (fun receipt s' =>
    _final_result (obj s') = Some receipt /\
    (hist s' = hist s \/
     exists barrier ready, outcome ∈ _OUTCOMES /\ attested q barrier /\ _ready (obj s') = Some ready
       /\ (forall m, _ready (obj s) = Some m -> m = ready)
       /\ backed config binding sha256 outcome barrier ready receipt (hist s) s')) s.
Proof.
  unfold finish. apply returns_bind, returns_throw_when. intros Hout%negb_false_iff.
  apply existsb_exists in Hout as (o & Ho & ->%str_eqb_eq).
  apply returns_bind. eapply returns_mono; [apply validate_quiescence_returns|]. intros barrier ? [Hq ->].
  apply returns_bind. unfold claim.
  apply returns_bind. intros ? ? [= <- <-]. apply returns_bind, returns_read. cbn [obj].
  destruct (_final_result _) as [receipt|] eqn:Hfinal.
  { apply returns_ret, returns_ret. cbn. auto. }
  destruct (Hrely (hist s) (obj s)) as [Hs0 _].
  do 2 (apply returns_bind, returns_throw_when; intros _). apply returns_bind, returns_modify.
  destruct (_finish_nonce _) as [nonce|]; [apply returns_ret|apply returns_ret, returns_throw].
  apply returns_bind. apply (returns_act _ _ Hrely HClock). intros t r1 [Hs _] _.
  intros receipt s' Hm.
  assert (forall r, failing (finish_run config binding sha256 current others o barrier nonce
            (t + float_ns (finalize_timeout config))) (finish_failed current others) r = (Done receipt, s') ->
          finish_run config binding sha256 current others o barrier nonce
            (t + float_ns (finalize_timeout config)) r = (Done receipt, s')) as Hf.
  { intros r. unfold failing. destruct (finish_run _ _ _ _ _ _ _ _ _ r) as [[a|e|] s1]; [done| |].
    - unfold mbind, P_bind. by destruct (finish_failed _ _ _ s1) as [[|?|] ?].
    - unfold mbind, P_bind. by destruct (finish_failed _ _ _ s1) as [[|?|] ?]. }
  apply Hf in Hm. eapply finish_run_returns in Hm; [|exact Hrely|by apply (sy_claim _ _ Hs)].
  destruct Hm as (ready & Hr0 & Hr & Hfin & Hb). split; [done|]. right. exists barrier, ready.
  split; [by apply list_elem_of_In|]. split; [done|]. split; [done|].
  split; [intros m Hm1; apply (sy_ready _ _ Hs0) in Hm1; apply (sy_ready _ _ Hs) in Hm1; cbn in *; congruence|].
  destruct Hb as (document & encoded & nonce' & command & terminal & report & manifest & pid & d1 & d2 & ns & out
    & err & verification & bytes & expected & text & k1 & k2 & k3 & k4 & H1 & H2 & H3 & Hrest).
  exists document, encoded, nonce', command, terminal, report, manifest, pid, d1, d2, ns, out, err,
    verification, bytes, expected, text, k1, k2, k3, k4. split; [done|]. split; [done|]. split; [|exact Hrest].
  eapply between_mono; [|exact H3|done]. simpl. by apply prefix_app_r.
Qed.

(** C13: a receipt stands on the whole chain of evidence: [finish] returns the
    receipt recorded before, or one for which the core attested the quiescence of
    the run's cgroup, the observer took the command to finish and exited with 0,
    its report and manifest have the digests it gave and bind the run, and then
    the verifier, on the expectation written for it, exited with 0 and printed
    that it verified this run; and expectation, verification and receipt are
    complete files on disk, whatever the other threads do meanwhile. *)
Theorem receipt_backed outcome q s :
  returns (finish config binding sha256 me current others outcome q) (fun receipt s' =>
    _final_result (obj s') = Some receipt /\
    (hist s' = hist s \/
     exists barrier ready, outcome ∈ _OUTCOMES /\ attested q barrier /\ _ready (obj s') = Some ready
       /\ backed config binding sha256 outcome barrier ready receipt (hist s) s')) s.
Proof.
  eapply returns_mono; [apply finish_returns|]. intros receipt s' [Hf [Hh|Hb]]; (split; [done|]); [by left|].
  right. destruct Hb as (barrier & ready & H1 & H2 & H3 & _ & H4). by exists barrier, ready.
Qed.

Lemma ewp_validate_quiescence q (Q : reply dict -> st hcall run -> Prop) s :
  (forall r, Q r s) -> ewp (_validate_quiescence binding q) Q s.
Proof.
  intros HQ. unfold _validate_quiescence. apply ewp_bind.
  assert (forall v, ewp (lift (check_barrier binding v)) Q s) as Hl.
  { intros v. apply ewp_lift. by destruct (check_barrier _ _). }
  destruct q as [d|[v|e|]|]; [apply Hl|apply Hl|apply HQ..].
Qed.

(** Also: a run is finished once: when some call of [finish] has claimed the run,
    every other call makes no call to the host and changes nothing; it returns
    the receipt that is recorded, and raises when there is none yet. *)
Theorem finish_once outcome q s u : _finish_claimed (obj s) = Some u ->
  ewp (finish config binding sha256 me current others outcome q) (fun r s' =>
    hist s' = hist s /\ (obj s' = obj s \/ obj s' = others (hist s) (obj s))
    /\ match r with Done receipt => _final_result (obj s') = Some receipt | _ => True end) s.
Proof.
  intros Hu. unfold finish. apply ewp_bind, ewp_throw_when; [auto|intros _].
  apply ewp_bind, ewp_validate_quiescence. intros [barrier|e|]; [|auto..].
  apply ewp_bind. unfold claim. apply ewp_bind, ewp_interleave, ewp_bind, ewp_read. cbn [obj].
  destruct (Hrely (hist s) (obj s)) as [Hs _]. pose proof (sy_claim _ _ Hs _ Hu) as Hc.
  destruct (_final_result (others (hist s) (obj s))) as [receipt|] eqn:Hf.
  - apply ewp_ret, ewp_ret. auto.
  - rewrite Hc. apply ewp_bind, ewp_throw_when; [auto|done].
Qed.

(** The handler of a failed [finish]. *)
Lemma finish_failed_settles n s :
  _failure_reason (obj (finish_failed current others n s).2) <> None
  /\ _expected_shutdown (obj (finish_failed current others n s).2) = true.
Proof.
  unfold finish_failed.
  enough (ewp (_set_failed others ("system-effects finalization failed: " +:+ n);; _shutdown current others)
    (fun _ s' => _failure_reason (obj s') <> None /\ _expected_shutdown (obj s') = true) s) as Hw by apply Hw.
  apply ewp_bind. apply (ewp_locked _ _ Hrely). intros r1 _.
  assert (exists e, _failure_reason (fail_with ("system-effects finalization failed: " +:+ n) r1) = Some e)
    as [e He] by (unfold fail_with; destruct (_failure_reason r1) eqn:E; simpl; eauto).
  unfold _shutdown. apply ewp_bind. apply (ewp_locked _ _ Hrely). intros r2 [Hs2 _]. cbn [obj] in Hs2.
  pose proof (sy_reason _ _ Hs2 _ He) as He2.
  apply (ewp_travels (along me)).
  - pose proof (retire_along me others Hrely) as Hclose.
    destruct (_expected_shutdown r2); [exact Hclose|].
    assert (forall c s, silent c = true -> along me s (St (hist s ++ [c]) (obj s))) as Hcall
      by (intros; apply along_call).
    assert (forall s, along me s (St (hist s) (others (hist s) (obj s)))) as Hoth by by apply along_others.
    apply travels_bind; [exact _|apply travels_read; exact _|]. intros [process verifier].
    unfold join_5, ignoring_os_errors.
    repeat first [ travel_step | exact Hclose
      | apply travels_act; [exact _|assumption|assumption|reflexivity]
      | apply travels_terminate_if_alive; [exact _|assumption|assumption] ].
  - eapply ewp_mono; [apply ewp_true|]. intros _ s' _ [_ [Hs _]]. cbn [obj] in Hs.
    split; [by rewrite (sy_reason _ _ Hs _ He2)|by apply (sy_shutdown _ _ Hs)].
Qed.

(** Also: what does not finish has failed for good: when [finish] does not return
    and the clock works, either it refused before any call, or the run has a
    reason for its failure and is being shut down. *)
Theorem finish_fails_closed outcome q s :
  (forall h, exists t, host h HClock = Done t) ->
  ewp (finish config binding sha256 me current others outcome q) (fun r s' =>
    match r with
    | Done _ => True
    | _ => hist s' = hist s
           \/ (_failure_reason (obj s') <> None /\ _expected_shutdown (obj s') = true)
    end) s.
Proof.
  intros Hclock. unfold finish. apply ewp_bind, ewp_throw_when; [auto|intros _].
  apply ewp_bind, ewp_validate_quiescence. intros [barrier|e|]; [|auto..].
  apply ewp_bind. unfold claim. apply ewp_bind, ewp_interleave, ewp_bind, ewp_read. cbn [obj hist].
  destruct (_final_result _); [by apply ewp_ret, ewp_ret|].
  do 2 (apply ewp_bind, ewp_throw_when; [auto|intros _]). apply ewp_bind, ewp_modify.
  destruct (_finish_nonce _); [apply ewp_ret|apply ewp_ret, ewp_throw; auto].
  apply ewp_bind, (ewp_act _ _ Hrely HClock). intros r1 _. cbn [obj hist].
  destruct (Hclock (hist s)) as [t ->]. unfold ewp, failing, mbind, P_bind.
  destruct (finish_run _ _ _ _ _ _ _ _ _ _) as [[receipt|e|] s1]; [done| |].
  - pose proof (finish_failed_settles (exn_name e) s1) as Hf.
    destruct (finish_failed _ _ _ s1) as [[[]|?|] s2]; simpl in *; auto.
  - pose proof (finish_failed_settles "KeyboardInterrupt" s1) as Hf.
    destruct (finish_failed _ _ _ s1) as [[[]|?|] s2]; simpl in *; auto.
Qed.

(** *** The callbacks *)

Definition flag (b : bool) : nat := if b then 1 else 0.

(** From [s] to [s'] there were at most as many calls that satisfy [p] as the
    flag rose. *)
Definition counted (p : hcall -> bool) (f : run -> bool) (s s' : st hcall run) : Prop :=
  exists k, hist s' = hist s ++ k
    /\ (length (List.filter p k) + flag (f (obj s)) <= flag (f (obj s')))%nat.

#[export] Instance counted_preorder p f : PreOrder (counted p f).
Proof.
  split.
  - intros s. exists []. rewrite app_nil_r. split; [done|]. simpl. lia.
  - intros s1 s2 s3 (k1 & H1 & Hn1) (k2 & H2 & Hn2). exists (k1 ++ k2).
    rewrite H2, H1, app_assoc. split; [done|]. rewrite List.filter_app, length_app. lia.
Qed.

Lemma flag_le a b : (a = true -> b = true) -> (flag a <= flag b)%nat.
Proof. destruct a, b; simpl; intros Hab; try lia. Qed.

Lemma counted_change p f h r r' : (f r = true -> f r' = true) -> counted p f (St h r) (St h r').
Proof. intros Hf. exists []. rewrite app_nil_r. split; [done|]. simpl. by apply flag_le. Qed.

Lemma counted_call p f s c : p c = false -> counted p f s (St (hist s ++ [c]) (obj s)).
Proof. intros Hp. exists [c]. split; [done|]. simpl. rewrite Hp. simpl. lia. Qed.

Lemma counted_others p f s : (forall r r', steady r r' -> f r = true -> f r' = true) ->
  counted p f s (St (hist s) (others (hist s) (obj s))).
Proof. intros Hf. destruct s as [h r]. apply counted_change, Hf, Hrely. Qed.

Definition is_close (c : hcall) : bool := match c with HOnClose => true | _ => false end.
Definition is_failure (c : hcall) : bool := match c with HOnFailure _ => true | _ => false end.

Lemma retire_counted : travels (counted is_close _retired) (_retire others).
Proof.
  intros [h r]. unfold _retire, locked, act, yield, call, perform, interleave, read, modify, mbind, P_bind,
    mret, P_ret. cbn.
  pose proof (sy_retired _ _ (proj1 (Hrely h r))) as H1. destruct (_retired (others h r)) eqn:E1; cbn.
  - by apply counted_change.
  - pose proof (sy_retired _ _ (proj1 (Hrely h (set_retired (others h r)))) eq_refl) as H2.
    exists [HOnClose]. split; [done|]. cbn. cbn in H2. rewrite H2.
    destruct (_retired r); [by specialize (H1 eq_refl)|]. cbn. lia.
Qed.

Lemma publish_counted_close reason :
  travels (counted is_close _retired) (_publish_failure others reason).
Proof.
  unfold _publish_failure. apply travels_bind; [exact _| |intros notify].
  - apply travels_locked; [exact _|intros s; apply counted_others; by intros ?? []|].
    intros [h r]. apply counted_change. cbn. unfold record_failure.
    destruct (_failure_reason r), (_expected_shutdown r); by intros.
  - apply travels_bind; [exact _| |intros _].
    + apply travels_modify. intros [h r]. apply counted_change. by rewrite (proj1 (plain_put _ r)).
    + destruct notify; [|apply travels_ret; exact _].
      apply travels_catch; [exact _| |intros e; apply travels_modify; intros [h r]; by apply counted_change].
      apply travels_bind; [exact _|apply travels_interleave; intros s; apply counted_others; by intros ?? []|].
      intros _. apply travels_perform. intros s. by apply counted_call.
Qed.

Lemma retire_counted_failure : travels (counted is_failure _failure_reported) (_retire others).
Proof.
  unfold _retire. apply travels_bind; [exact _| |intros retired].
  - apply travels_locked; [exact _|intros s; apply counted_others; by intros ?? []|].
    intros [h r]. by apply counted_change.
  - destruct retired; [apply travels_ret; exact _|].
    apply travels_bind; [exact _|apply travels_interleave; intros s; apply counted_others; by intros ?? []|].
    intros _. apply travels_perform. intros s. by apply counted_call.
Qed.

Lemma publish_counted reason :
  travels (counted is_failure _failure_reported) (_publish_failure others reason).
Proof.
  intros [h r]. unfold _publish_failure, locked, catch, act, yield, call, perform, interleave, read, modify,
    mbind, P_bind, mret, P_ret. cbn.
  set (r1 := others h r). pose proof (sy_reported _ _ (proj1 (Hrely h r))) as H1. fold r1 in H1.
  set (r2 := put_item (_ProtocolFailure reason) (record_failure reason r1)).
  destruct (must_notify r1) eqn:Hn.
  - assert (_failure_reported r1 = false /\ _failure_reported r2 = true) as [E1 E2].
    { unfold must_notify in Hn. subst r2. rewrite (proj2 (plain_put _ _)). unfold record_failure.
      destruct (_failure_reason r1), (_expected_shutdown r1); try done.
      by destruct (_failure_reported r1). }
    pose proof (sy_reported _ _ (proj1 (Hrely h r2)) E2) as E3.
    assert (_failure_reported r = false) as E0.
    { destruct (_failure_reported r); [by rewrite H1 in E1|done]. }
    destruct (host _ _) as [[]|e|]; exists [HOnFailure reason]; cbn; (split; [done|]); rewrite E3, E0; done.
  - apply counted_change. intros Hr. subst r2. rewrite (proj2 (plain_put _ _)). unfold record_failure.
    destruct (_failure_reason r1), (_expected_shutdown r1); auto.
Qed.

(** Any relation [counted] is kept by every method. *)
Ltac counted_method lemma :=
  apply lemma; try exact _;
  lazymatch goal with
  | |- forall c s, silent c = true -> _ => intros c s Hc; apply counted_call; by destruct c
  | |- forall f, plain f -> _ =>
      intros f Hf [h r]; apply counted_change; simpl; first [by rewrite (proj1 (Hf r))|by rewrite (proj2 (Hf r))]
  | |- forall s, counted _ _ s _ => intros s; apply counted_others; by intros ?? []
  | |- forall reason, travels _ (_publish_failure _ _) =>
      first [apply publish_counted_close | apply publish_counted]
  | |- travels _ (_retire _) => first [apply retire_counted | apply retire_counted_failure]
  end.

(** Also: the callbacks of a run are called at most once, however its methods are
    called and whatever the other threads do: each call of a method tells the
    owner that the run has ended only when it was not retired, and is then the
    one that retired it; and likewise reports a failure. *)
Theorem callbacks_once outcome q inputs :
  (travels (counted is_close _retired) (finish config binding sha256 me current others outcome q)
   /\ travels (counted is_close _retired) (close_unverified current others)
   /\ travels (counted is_close _retired) (_read_stdout others inputs)
   /\ travels (counted is_close _retired) (start config binding sha256 current others))
  /\ (travels (counted is_failure _failure_reported)
         (finish config binding sha256 me current others outcome q)
      /\ travels (counted is_failure _failure_reported) (close_unverified current others)
      /\ travels (counted is_failure _failure_reported) (_read_stdout others inputs)
      /\ travels (counted is_failure _failure_reported) (start config binding sha256 current others)).
Proof.
  split; (split; [|split; [|split]]).
  - counted_method travels_finish.
  - counted_method travels_close.
  - counted_method travels_read_stdout.
  - counted_method travels_start.
  - counted_method travels_finish.
  - counted_method travels_close.
  - counted_method travels_read_stdout.
  - counted_method travels_start.
Qed.

(** Also: an observer that complains without end fills no memory: its reader keeps
    at most 64 pieces, and does nothing else to the run. *)
Theorem diagnostics_bounded inputs s :
  (forall h r, (length (_diagnostics r) <= 64)%nat -> (length (_diagnostics (others h r)) <= 64)%nat) ->
  (length (_diagnostics (obj s)) <= 64)%nat ->
  along me s (_read_stderr others inputs s).2
  /\ (length (_diagnostics (obj (_read_stderr others inputs s).2)) <= 64)%nat.
Proof.
  intros Hothers. revert s. induction inputs as [|[chunk| |] inputs IH]; intros s Hs; try by split.
  specialize (IH (St (hist s) (add_diagnostic (string_take 4096 chunk) (others (hist s) (obj s))))).
  destruct IH as [Ha Hl].
  - simpl. rewrite length_app, length_drop. specialize (Hothers (hist s) (obj s) Hs). simpl. lia.
  - split; [|exact Hl]. set (s1 := St (hist s) (others (hist s) (obj s))).
    transitivity s1; [by apply along_others|].
    refine (transitivity (allowed_diagnostic me (string_take 4096 chunk) s1) Ha).
Qed.

(** *** From the start *)

(** What made [start] accept the observer's READY. *)
Definition ready_accepted (ready : dict) : Prop :=
  check_ready config binding sha256 ready = Ok ()
  /\ exists deployment, read_back sha256 deployment /\ check_deployment binding ready deployment = Ok ().

Lemma validate_ready_returns ready s :
  returns (_validate_ready config binding sha256 others ready) (fun _ s' =>
    along me s s' /\ ready_accepted ready) s.
Proof.
  unfold _validate_ready. apply returns_bind, returns_lift. intros [] Hc.
  apply returns_bind. eapply returns_mono; [by apply read_json_artifact_returns|].
  intros deployment s1 [Ha Hb]. apply returns_lift. intros [] Hd. split; [done|].
  split; [done|]. by exists deployment.
Qed.

Lemma start_returns s :
  returns (start config binding sha256 current others) (fun _ s' =>
    exists ready, _ready (obj s') = Some ready /\ ready_accepted ready) s.
Proof.
  unfold start. do 3 (apply returns_bind; intros ? ? _). apply returns_bind, returns_lift.
  intros [document encoded] _. do 5 (apply returns_bind; intros ? ? _).
  apply returns_unwinding. apply returns_bind; intros ? ? _. apply returns_bind; intros ready ? _.
  apply returns_bind. eapply returns_mono; [apply validate_ready_returns|]. intros _ s1 [_ Hr].
  apply returns_bind. unfold accept_ready. apply returns_bind. intros ? ? [= <- <-].
  apply returns_bind, returns_read. cbn [obj]. destruct (_failure_reason _); [apply returns_throw|].
  apply returns_bind, returns_lift. intros nonce _. apply returns_modify.
  apply (returns_along (along me)).
  { apply travels_assert_healthy; [exact _|intros; apply along_call|by apply along_others]. }
  intros _ s2 [_ [Hs _]]. exists ready. split; [|done]. by apply (sy_ready _ _ Hs).
Qed.

(** Also: the evidence of a run holds together from its start to its receipt: when
    the run was started, then used by any threads, and [finish] then completes
    it, the READY message the evidence refers to is the one [start] checked, with
    the deployment manifest it names, before the run was handed out. *)
Theorem evidence_from_start s0 s1 s2 outcome q receipt s3 :
  start config binding sha256 current others s0 = (Done (), s1) ->
  steady (obj s1) (obj s2) ->
  finish config binding sha256 me current others outcome q s2 = (Done receipt, s3) ->
  hist s3 <> hist s2 ->
  exists barrier ready, ready_accepted ready /\ attested q barrier
    /\ backed config binding sha256 outcome barrier ready receipt (hist s2) s3.
Proof.
  intros Hstart Hs Hfin Hne. destruct (start_returns _ _ _ Hstart) as (ready & Hr & Hok).
  apply finish_returns in Hfin as [_ [?|(barrier & ready' & _ & Hq & _ & Heq & Hb)]]; [done|].
  exists barrier, ready. split; [done|]. split; [done|].
  by rewrite (Heq ready (sy_ready _ _ Hs _ Hr)).
Qed.
End properties.
