(* ===== verification/ObserverDemo.v ===== *)
(** * An observed run

    A host that answers every call, with which a run is finished and its
    evidence is checked: the inputs of the witnesses. *)

From Stdlib Require Import Ascii SpecFloat.
From Stdlib Require String.
From stdpp Require Import gmap pretty.
From S2P Require Import Prelude Effects PyVal Paths Durable Kernel Json Runs Host EffectsConfig.
From S2P Require Import Observer ObserverSpec.
Open Scope Z_scope.

Definition digest : string := string_join "a" (repeat EmptyString 65).
Definition demo_sha (_ : string) : string := digest.

Definition demo_config : SystemEffectsConfig :=
  SystemEffectsConfig_ (parse_path "/opt/observe") (parse_path "/opt/observe-verify")
    (parse_path "/opt/recorder.o") digest (parse_path "/opt/lifecycle.o") digest "balanced"
    "USER_INPUT" None None None 20 5000 (float_of_int 30) (float_of_int 60)
    (parse_path DEFAULT_HOST_LOCK_PATH) None None None 120000 65536.

Definition demo_binding : RunBinding :=
  RunBinding_ "agent" "session" "run-1" 3 41 (parse_path "/sys/fs/cgroup/allox/s") "/allox/s" 77 5 6
    (parse_path "/audit/run-1") "01234567-89ab-cdef-0123-456789abcdef".

Definition demo_ready : dict :=
  [("protocol_version", PInt 2); ("status", PStr "READY"); ("run_id", PStr "run-1"); ("epoch", PInt 3);
   ("finish_nonce", PStr digest); ("deployment_scope_sha256", PStr digest);
   ("registration_cgroup_ids", PList [PInt 77]); ("cgroup_scope_capability_sha256", PStr digest);
   ("cgroup_scope_capability", PDict (expected_capability demo_binding));
   ("deployment_manifest_sha256", PStr digest); ("ready_barrier_sha256", PStr digest);
   ("ready_validation_sha256", PStr digest); ("recorder_object_sha256", PStr digest);
   ("lifecycle_object_sha256", PStr digest); ("socket_state_enabled", PBool false);
   ("bpf_state_scope_sha256", PNone); ("bpf_state_s0_sha256", PNone);
   ("filesystem_state_scope_sha256", PNone); ("filesystem_state_s0_sha256", PNone);
   ("linux_state_scope_sha256", PNone); ("linux_state_s0_sha256", PNone)].

Definition demo_deployment : dict :=
  [("protocol_version", PInt 2); ("deployment_kind", PStr "DIRECT");
   ("boot_id", PStr (boot_id demo_binding)); ("scope_sha256", PStr digest);
   ("root_cgroups", PList [PDict [("path", PStr "/allox/s"); ("cgroup_id", PInt 77)]]);
   ("processes", PList [PDict
      [("pid", PInt 41); ("role", PStr "DIRECT_ROOT"); ("cgroup_path", PStr "/allox/s");
       ("cgroup_id", PInt 77); ("mount_namespace_id", PInt 5); ("net_namespace_id", PInt 6)]])].

Definition demo_terminal : dict :=
  [("protocol_version", PInt 2); ("status", PStr "FINISHED"); ("run_id", PStr "run-1");
   ("evidence_status", PStr "COMPLETE"); ("report_sha256", PStr digest);
   ("artifact_manifest_sha256", PStr digest)].

Definition bound_fields : dict :=
  [("protocol_version", PInt 2); ("run_id", PStr "run-1"); ("epoch", PInt 3);
   ("cgroup_scope_capability_sha256", PStr digest)].

Definition demo_report : dict :=
  bound_fields ++
  [("deployment", PDict [("scope_sha256", PStr digest)]);
   ("recorder_object_sha256", PStr digest); ("lifecycle_object_sha256", PStr digest);
   ("registration_cgroup_ids", PList [PInt 77]); ("overall_evidence_status", PStr "COMPLETE")].

Definition text_of (d : dict) : string :=
  match dumps true (PDict d) with Ok t => t | Err _ => EmptyString end.

Definition demo_manifest : dict :=
  bound_fields ++
  [("deployment_scope_sha256", PStr digest); ("evidence_status", PStr "COMPLETE");
   ("artifacts", PList [PDict
      [("relative_path", PStr REPORT); ("sha256", PStr digest);
       ("size_bytes", PInt (Z.of_nat (String.length (text_of demo_report))))]])].

Definition demo_verification : dict :=
  [("protocol_version", PInt 2); ("verified", PBool true); ("run_id", PStr "run-1");
   ("epoch", PInt 3); ("deployment_scope_sha256", PStr digest); ("artifact_count", PInt 2);
   ("committed_artifact_total_bytes", PInt 900); ("system_effect_wal_event_count", PInt 4);
   ("system_effect_jsonl_event_count", PInt 4); ("process_lifecycle_wal_event_count", PInt 2);
   ("process_lifecycle_jsonl_event_count", PInt 2); ("evidence_status", PStr "COMPLETE");
   ("socket_state_status", PNone); ("socket_state_event_count", PInt 0);
   ("bpf_state_scope_sha256", PNone); ("bpf_state_verdict", PNone);
   ("filesystem_state_scope_sha256", PNone); ("filesystem_state_verdict", PNone);
   ("linux_state_scope_sha256", PNone); ("linux_state_evidence_status", PNone)].

(** Descriptors: 3 is the audit directory, 4 a file in it, 10 the evidence
    directory, 11 the report, 12 the manifest and 13 the deployment. *)
Definition fd_text (fd : Z) : string :=
  if fd =? 11 then text_of demo_report
  else if fd =? 12 then text_of demo_manifest else text_of demo_deployment.

Definition demo_stat (fd : Z) : metadata :=
  if (fd =? 3) || (fd =? 10) then Metadata 1 fd 16832 0 2 0 0 0
  else Metadata 1 fd 33152 0 1 (Z.of_nat (String.length (fd_text fd))) 0 0.

(** The first read after [fstat] gives the file, the next its end. *)
Definition demo_read (h : list hcall) (fd : Z) : string :=
  match List.last h HClock with HFstat _ => fd_text fd | _ => EmptyString end.

Definition has_ended (c : hcall) : bool := match c with HWait _ _ => true | _ => false end.

#[export] Instance demo_host : Host := {
  host h c := match c with
    | HOpen p _ => Done (if bool_decide (p = audit_directory demo_binding) then 3 else 10)
    | HOpenAt d name _ => Done (if d =? 3 then 4 else if str_eqb name REPORT then 11
                              else if str_eqb name "artifact-manifest.json" then 12 else 13)
    | HFstat fd => Done (demo_stat fd)
    | HRead fd _ => Done (demo_read h fd)
    | HWrite _ bytes => Done (Z.of_nat (String.length bytes))
    | HClock => Done 1000
    | HSpawn _ _ => Done 42
    | HWait _ _ => Done 0
    | HPoll _ => Done (if existsb has_ended h then Some 0 else None)
    | HDrained _ => Done (false, [text_of demo_verification], [])
    | HStdinClosed => Done true
    | HResolve p => Done p
    | HLstat _ => Done (demo_stat 3)
    | HExists _ | HIsSymlink _ => Done false
    | HCleanup _ _ _ => Done PNone
    | HIsDir _ | HExecutable _ => Done true
    | HStatAt _ _ => Done (demo_stat 4)
    | _ => Done ()
    end;
  euid := 0 }.

(** The reader: the observer reports that it is ready, and answers the command. *)
Definition demo_others (h : list hcall) (r : run) : run :=
  match List.last h HClock with
  | HStartThread StderrReader => put_item (Message demo_ready) r
  | HStdin _ => put_item (Message demo_terminal) (set_phase TERMINAL_RECEIVED r)
  | _ => r
  end.

Definition demo_start : R unit := start demo_config demo_binding demo_sha None demo_others.

Definition started : st hcall run := (demo_start (St [] (new_run (Directory ∅ true)))).2.

Definition ready_run : run := obj started.

Definition demo_quiescence : quiescence :=
  Mapping [("status", PStr "QUIESCENT_WITHIN_CGROUP"); ("basis", PStr "CGROUP_V2_EMPTY_FROZEN_VERIFIED");
           ("cgroup_id", PInt 77)].

Definition demo_finish : R dict :=
  finish demo_config demo_binding demo_sha 1 None demo_others "completed" demo_quiescence.

Definition returned {A} (r : reply A) : bool := match r with Done _ => true | _ => false end.

Example observed_start : returned (demo_start (St [] (new_run (Directory ∅ true)))).1 = true.
Proof. vm_compute. reflexivity. Qed.

Example demo_finishes : returned (demo_finish (St [] ready_run)).1 = true.
Proof. vm_compute. reflexivity. Qed.

Example demo_calls : (length (hist (demo_finish (St [] ready_run)).2) =? 0)%nat = false.
Proof. vm_compute. reflexivity. Qed.

Lemma demo_rely h r : rely 1 r (demo_others h r).
Proof.
  assert (forall i p, rely 1 r (put_item i (set_phase p r)) /\ rely 1 r (put_item i r)) as Hput.
  { intros i p. unfold put_item. repeat case_match; split; (split; [by constructor|]); intros _;
      by constructor. }
  unfold demo_others. destruct (List.last h HClock); try reflexivity; [destruct t; [reflexivity|]|];
    apply Hput; exact STARTING.
Qed.

(** What the whole chain of evidence looks like for a run that was finished. *)
Lemma receipt_backed_witness :
  exists receipt s', demo_finish (St [] ready_run) = (Done receipt, s')
    /\ exists barrier ready, backed demo_config demo_binding demo_sha "completed" barrier ready receipt [] s'.
Proof.
  destruct (demo_finish (St [] ready_run)) as [r s'] eqn:E.
  pose proof demo_finishes as Hr. pose proof demo_calls as Hc. rewrite E in Hr, Hc.
  destruct r as [receipt|e|]; [|done..]. exists receipt, s'. split; [reflexivity|].
  pose proof (receipt_backed demo_config demo_binding demo_sha 1 None demo_others demo_rely "completed"
    demo_quiescence (St [] ready_run)) as Hb. apply Hb in E as [_ [Hh|(b & m & _ & _ & _ & Hm)]]; clear Hb.
  - cbn [snd hist] in Hc, Hh. rewrite Hh in Hc. discriminate Hc.
  - exists b, m. exact Hm.
Defined.

Lemma finish_once_witness :
  let s := St [] (claim_finish 2 ready_run) in
  _finish_claimed (obj s) = Some 2%nat
  /\ ewp demo_finish (fun r s' => hist s' = hist s) s.
Proof.
  split; [done|]. eapply ewp_mono; [apply (finish_once demo_config demo_binding demo_sha 1 None demo_others
    demo_rely "completed" demo_quiescence (St [] (claim_finish 2 ready_run)) 2); reflexivity|].
  intros r s' [Hh _]. exact Hh.
Defined.

(** An observer that exits with an error. *)
Definition broken_finish : R dict :=
  finish demo_config demo_binding demo_sha 1 None (fun _ r => r) "completed" demo_quiescence.

Lemma finish_fails_closed_witness :
  (forall h, exists t, host h HClock = Done t)
  /\ _failure_reason (obj (broken_finish (St [] ready_run)).2) <> None.
Proof.
  assert (forall h, exists t, host h HClock = Done t) as Hclock by by eexists.
  assert (forall h r, rely 1 r ((fun (_ : list hcall) r => r) h r)) as Hrely by (intros; reflexivity).
  split; [exact Hclock|].
  pose proof (finish_fails_closed demo_config demo_binding demo_sha 1 None (fun _ r => r) Hrely "completed"
    demo_quiescence (St [] ready_run) Hclock) as Hf. unfold ewp in Hf. fold broken_finish in Hf.
  assert (returned (broken_finish (St [] ready_run)).1 = false) as Hr by (vm_compute; reflexivity).
  assert ((length (hist (broken_finish (St [] ready_run)).2) =? 0)%nat = false) as Hc
    by (vm_compute; reflexivity).
  destruct (broken_finish (St [] ready_run)) as [[receipt|e|] s']; simpl in *; [done|..];
    (destruct Hf as [Hh|[Hn _]]; [by rewrite Hh in Hc|exact Hn]).
Defined.

Lemma callbacks_once_witness :
  (forall h r, rely 1 r (demo_others h r))
  /\ travels (counted is_close _retired) demo_finish.
Proof.
  split; [exact demo_rely|].
  apply (callbacks_once demo_config demo_binding demo_sha 1 None demo_others demo_rely "completed"
    demo_quiescence []).
Defined.

Lemma evidence_from_start_witness :
  exists receipt s3, demo_finish started = (Done receipt, s3)
    /\ exists barrier ready, ready_accepted demo_config demo_binding demo_sha ready
       /\ attested demo_binding demo_quiescence barrier
       /\ backed demo_config demo_binding demo_sha "completed" barrier ready receipt (hist started) s3.
Proof.
  destruct (demo_finish started) as [r s3] eqn:E.
  assert (returned (demo_finish started).1 = true) as Hr by (vm_compute; reflexivity).
  assert ((length (hist (demo_finish started).2) =? length (hist started))%nat = false) as Hc
    by (vm_compute; reflexivity).
  rewrite E in Hr, Hc. destruct r as [receipt|e|]; [|done..]. exists receipt, s3. split; [reflexivity|].
  pose proof observed_start as Hs. destruct (demo_start (St [] (new_run (Directory ∅ true)))) as [r s1] eqn:Es.
  destruct r as [[]|e|]; [|done..].
  assert (started = s1) as Hst by (unfold started; by rewrite Es).
  apply (evidence_from_start demo_config demo_binding demo_sha 1 None demo_others demo_rely
    (St [] (new_run (Directory ∅ true))) s1 started "completed" demo_quiescence receipt s3);
    [exact Es|rewrite Hst; reflexivity|exact E|].
  intros Hh. cbn [snd] in Hc. rewrite Hh, Nat.eqb_refl in Hc. discriminate Hc.
Defined.

(** ** What the reader lets pass *)

Section alone.
Context (r : run).
Notation alone := (fun (_ : list hcall) (r : run) => r).

(** Also: a message without a status is not out of order for the reader: after
    READY it goes into the queue, and nothing is reported. *)
Theorem statusless_message_queued s m :
  Z.of_nat (String.length s) <= MAX_PROTOCOL_LINE_BYTES -> ends_with_char "010" s = true ->
  loads_bytes s = Ok (PDict m) -> dgetn "status" m = PNone -> _phase r = READY -> _messages r = [] -> (0 < _maxsize (more r))%nat ->
  read_turn alone (Line s) (St [] r) = (Done true, St [] (set_messages [Message m] r)).
Proof.
  intros Hlen Hend Hm Hst Hp Hq Hmax. destruct r as [queue]. simpl in Hp, Hq, Hmax. subst.
  unfold read_turn. apply Z.ltb_ge in Hlen. rewrite Hlen, Hend, Hm.
  unfold locked, yield, interleave, read, modify, mbind, P_bind, mret, P_ret, field_is, put_item. cbn -[dgetn].
  rewrite Hst. cbn -[dgetn]. rewrite bool_decide_eq_false_2 by done. simpl. by destruct (_maxsize more); [lia|].
Qed.

(** Also: an integer of too many digits ends the reader without a failure being
    recorded or reported: it is not the error that is caught. *)
Theorem long_integer_ends_reader s what :
  Z.of_nat (String.length s) <= MAX_PROTOCOL_LINE_BYTES -> ends_with_char "010" s = true ->
  loads_bytes s = Err (ValueError what) ->
  read_turn alone (Line s) (St [] r) = (Raised (ValueError what), St [] r).
Proof.
  intros Hlen Hend Hm. unfold read_turn. apply Z.ltb_ge in Hlen. by rewrite Hlen, Hend, Hm.
Qed.
End alone.

Definition long_integer : string := string_join "1" (repeat EmptyString 4302) +:+ String "010" EmptyString.

Example long_integer_refused : exists what, loads_bytes long_integer = Err (ValueError what).
Proof. vm_compute. by eexists. Qed.

(** ** A receipt for a run that was reported as failed

    After its last message the observer sends another: the reader records the
    failure and tells the owner, and [finish] completes the run all the same. *)
Definition chatty_others (h : list hcall) (r : run) : run :=
  match List.last h HClock with
  | HStdin _ =>
      record_failure "deployment-observe sent an out-of-order message" (demo_others h r)
  | _ => demo_others h r
  end.

(** Also: [finish] does not look at the failure again: a run whose failure was
    recorded, and reported to its owner, still gets its receipt. *)
Theorem receipt_despite_failure :
  exists receipt s', finish demo_config demo_binding demo_sha 1 None chatty_others "completed"
      demo_quiescence started = (Done receipt, s')
    /\ _failure_reason (obj s') = Some "deployment-observe sent an out-of-order message"
    /\ _failure_reported (obj s') = true /\ _phase (obj s') = FINISHED.
Proof.
  destruct (finish demo_config demo_binding demo_sha 1 None chatty_others "completed" demo_quiescence started)
    as [r s'] eqn:E.
  assert (match (finish demo_config demo_binding demo_sha 1 None chatty_others "completed" demo_quiescence
      started) with
    | (Done _, s) => bool_decide (_failure_reason (obj s) = Some "deployment-observe sent an out-of-order message")
        && _failure_reported (obj s) && bool_decide (_phase (obj s) = FINISHED)
    | _ => false
    end = true) as Hr by (vm_compute; reflexivity).
  rewrite E in Hr. destruct r as [receipt|e|]; [|done..]. exists receipt, s'. split; [reflexivity|].
  apply andb_prop in Hr as [[Hf%bool_decide_eq_true Hp]%andb_prop Hph%bool_decide_eq_true].
  exact (conj Hf (conj Hp Hph)).
Qed.

(** ** An observer that nobody ends

    The two readers are started outside the clause that closes the run. *)
Definition crowded_host : Host := {|
  host h c := match c with
    | HStartThread t => Raised (RuntimeError "can't start new thread")
    | c => @host demo_host h c
    end;
  euid := 0 |}.

Definition ends_observer (c : hcall) : bool :=
  match c with
  | HPoll Observer | HWait Observer _ | HKillGroup Observer _ | HSignal Observer _ | HCloseStdin
  | HOnClose => true
  | _ => false
  end.

(** Also: when no thread can be started for its reader, the observer that was
    spawned is left running: it is not told to end, nor waited for, and the owner
    is not told. *)
Theorem observer_left_running :
  exists s', @start _ crowded_host demo_config demo_binding demo_sha None (fun _ r => r)
      (St [] (new_run (Directory ∅ true))) = (Raised (RuntimeError "can't start new thread"), s')
    /\ _process (obj s') = Some 42 /\ existsb ends_observer (hist s') = false.
Proof.
  destruct (@start _ crowded_host demo_config demo_binding demo_sha None (fun _ r => r)
    (St [] (new_run (Directory ∅ true)))) as [r s'] eqn:E.
  assert (match @start _ crowded_host demo_config demo_binding demo_sha None (fun _ r => r)
      (St [] (new_run (Directory ∅ true))) with
    | (Raised e, s) => bool_decide (e = RuntimeError "can't start new thread")
        && bool_decide (_process (obj s) = Some 42) && negb (existsb ends_observer (hist s))
    | _ => false
    end = true) as Hr by (vm_compute; reflexivity).
  rewrite E in Hr. destruct r as [?|e|]; [done| |done].
  apply andb_prop in Hr as [[->%bool_decide_eq_true Hp%bool_decide_eq_true]%andb_prop Hn%negb_true_iff].
  exists s'. split; [reflexivity|]. exact (conj Hp Hn).
Qed.

(** ** A configuration that is accepted *)

(** A host on which every path is canonical, and a regular file of root that
    holds a scope. *)
Definition scope_text : string := "{}".

Definition tidy_host : Host := {|
  host h c := match c with
    | HResolve p => Done p
    | HLstat p => Done (if str_eqb (path_str p) "/run" then Metadata 1 2 16877 0 2 0 0 0
                        else if str_eqb (path_str p) DEFAULT_HOST_LOCK_PATH then Metadata 1 3 33152 0 1 0 0 0
                        else Metadata 1 4 33261 0 1 10 0 0)
    | HExecutable _ => Done true
    | HOpen _ _ => Done 20
    | HFstat _ => Done (Metadata 1 4 33188 0 1 (Z.of_nat (String.length scope_text)) 0 0)
    | HRead _ _ => Done (match List.last h HClock with HFstat _ => scope_text | _ => EmptyString end)
    | c => @host demo_host h c
    end;
  euid := 0 |}.

Definition demo_mapping : dict :=
        [("observer_path", PStr "/opt/observe/deployment-observe");
         ("recorder_object_path", PStr "/opt/observe/recorder.o"); ("recorder_object_sha256", PStr digest);
         ("lifecycle_object_path", PStr "/opt/observe/lifecycle.o"); ("lifecycle_object_sha256", PStr digest);
         ("linux_state_scope_file", PStr "/opt/observe/linux.json"); ("ready_timeout", PInt 5)].

Lemma configuration_trusted_witness :
  exists c s', @from_mapping _ tidy_host unit (PDict demo_mapping) (St [] ()) = (Done c, s')
    /\ @config_trusted _ tidy_host (hist s') demo_mapping c
    /\ str_eqb (profile c) "balanced" && bool_decide (scopes_enabled c = ["linux"])
       = true.
Proof.
  pose proof (@configuration_trusted _ tidy_host unit (PDict demo_mapping) (St [] ())) as Ht.
  assert (match @from_mapping _ tidy_host unit (PDict demo_mapping) (St [] ()) with
    | (Done c, _) => str_eqb (profile c) "balanced" && bool_decide (scopes_enabled c = ["linux"])
    | _ => false end = true) as Hr by (vm_compute; reflexivity).
  destruct (@from_mapping _ tidy_host unit (PDict demo_mapping) (St [] ())) as [[c|e|] s'] eqn:E; [|discriminate Hr..].
  exists c, s'. split; [reflexivity|]. split; [|exact Hr].
  destruct (Ht c s' E) as (fields & Hf & Hc). injection Hf as <-. exact Hc.
Defined.
