(* ===== verification/EffectsPlugin.v ===== *)
(** * The slot and the lock of an observation

    [src/plugins/system-effects/src/allox_system_effects/plugin.py]: snapshots of
    the whole system must not overlap, so a run takes the slot of its daemon and
    then a kernel lock that all daemons of the host share, and gives both back
    when it is retired.  The lock itself is a computation over [Host.v]; the
    plugin is a set of sections that the threads of all daemons run in any
    order. *)

From Stdlib Require Import Ascii SpecFloat.
From Stdlib Require String.
From stdpp Require Import gmap pretty.
From S2P Require Import Prelude Effects PyVal Paths Kernel Host EffectsConfig Observer.
Open Scope Z_scope.

(** ** The lock of the host *)

Section lock.
Context `{Host} {O : Type}.

Definition lock_directory_flags : list open_flag := [O_RDONLY; O_CLOEXEC; O_DIRECTORY; O_NOFOLLOW].
Definition lock_file_flags : list open_flag := [O_RDWR; O_CREAT; O_CLOEXEC; O_NOFOLLOW].

Definition lock_name (path : pure_path) : string := List.last (p_parts path) EmptyString.

(** The checks of the file that was opened against the entry of the directory. *)
Definition private_lock (opened linked : metadata) : bool :=
  S_ISREG (st_mode opened) && (st_nlink opened =? 1) && trusted_owner opened
  && negb (open_to_others (st_mode opened))
  && (st_dev opened =? st_dev linked) && (st_ino opened =? st_ino linked).

(** The part of [acquire] that opens the lock's file. *)
Definition open_lock (path : pure_path) : P hcall O Z :=
  directory ← wrapping is_os_error "failed to open system-effects host lock parent"
    (call (HOpen (path_parent path) lock_directory_flags));
  closing directory
    (parent ← call (HFstat directory);
     throw_when (negb (S_ISDIR (st_mode parent)) || negb (trusted_owner parent)
                 || writable_by_others (st_mode parent))
       (effects_error "host lock parent is not a trusted private directory");;
     descriptor ← wrapping is_os_error "failed to open system-effects host lock"
       (call (HOpenAt directory (lock_name path) lock_file_flags));
     unwinding
       (opened ← call (HFstat descriptor);
        linked ← call (HStatAt directory (lock_name path));
        throw_when (negb (private_lock opened linked))
          (effects_error ("host lock is not a private singly-linked "
                          +:+ "root/daemon-owned regular file")))
       (call (HClose descriptor));;
     mret descriptor).

(** [exc.errno in {errno.EACCES, errno.EAGAIN}] *)
Definition is_busy (e : exn) : bool :=
  bool_decide (e = OSError "EACCES") || bool_decide (e = OSError "EAGAIN").

(** Whether the lock is held now; any other error closes the file. *)
Definition try_lock (descriptor : Z) : P hcall O bool :=
  catch (call (HLock descriptor);; mret true) (fun e =>
    if is_busy e then mret false
    else if is_os_error e then
      call (HClose descriptor);;
      throw (WorkspaceError ("failed to acquire system-effects host lock: " +:+ exn_str e))
    else throw e).

Fixpoint await_lock (polls : nat) (descriptor deadline : Z) : P hcall O Z :=
  match polls with
  | 0%nat => cut_off
  | S polls =>
      held ← try_lock descriptor;
      if (held : bool) then mret descriptor
      else
        t ← now;
        if deadline <=? t then
          call (HClose descriptor);;
          throw (effects_error "host lock timed out; overlapping global snapshots are forbidden")
        else
          t ← now;
          call (HSleep (Z.min (ms 20) (Z.max (ms 1) (deadline - t))));;
          await_lock polls descriptor deadline
  end.

(** [_HostRunLock.acquire(path, timeout)] *)
Definition acquire (polls : nat) (path : pure_path) (timeout : Z) : P hcall O Z :=
  descriptor ← open_lock path;
  t ← now;
  await_lock polls descriptor (t + timeout).
End lock.

(** [_HostRunLock.release]: the object is the descriptor. *)
Definition release `{Host} : P hcall Z unit :=
  descriptor ← read (fun d => d);
  if descriptor <? 0 then mret ()
  else
    modify (fun _ => -1);;
    closing descriptor
      (catch (call (HUnlock descriptor)) (fun e => if is_os_error e then mret () else throw e)).

(** ** Starting and retiring runs

    A job is one call of [start_execution] together with the closure [retire] it
    makes, and is named by its daemon and a number. *)

Abbreviation name := (nat * nat)%type.

(** Where the thread of the call is. *)
Inductive place :=
  | WantsSlot
  | HasSlot                (* taken, not yet marked busy *)
  | Opens                  (* in [_HostRunLock.acquire] *)
  | Polls (inode : Z)      (* the file is open *)
  | NoLock                 (* [acquire] raised *)
  | NotBusy                (* and the mark is gone *)
  | Builds (inode : Z)     (* in the constructor of the run *)
  | Built (inode : Z)      (* the handle exists *)
  | ClosedMeanwhile (inode : Z)
  | Returned (inode : Z)
  | Failed (inode : option Z).

(** How far what the job holds has been given back. *)
Inductive holding := Held | Claimed | Cleared | Unlocked | Released.

Record job := Job { j_place : place; j_holding : holding }.

Record plugins := Plugins_ {
  jobs : gmap name job;
  slots : gset nat;                (* daemons whose slot is taken *)
  busy : gset nat;
  closed : gset nat;
  active : gset name;
  locks : gset Z;                  (* inodes on which somebody has the lock *)
  lock_inode : Z }.                (* the file at the configured path *)

Definition fresh (inode : Z) : plugins := Plugins_ ∅ ∅ ∅ ∅ ∅ ∅ inode.

Definition put_job (n : name) (j : job) (s : plugins) : plugins :=
  Plugins_ (<[n := j]> (jobs s)) (slots s) (busy s) (closed s) (active s) (locks s) (lock_inode s).
Definition set_slots v s := Plugins_ (jobs s) v (busy s) (closed s) (active s) (locks s) (lock_inode s).
Definition set_busy v s := Plugins_ (jobs s) (slots s) v (closed s) (active s) (locks s) (lock_inode s).
Definition set_closed v s := Plugins_ (jobs s) (slots s) (busy s) v (active s) (locks s) (lock_inode s).
Definition set_active v s := Plugins_ (jobs s) (slots s) (busy s) (closed s) v (locks s) (lock_inode s).
Definition set_locks v s := Plugins_ (jobs s) (slots s) (busy s) (closed s) (active s) v (lock_inode s).
Definition set_inode v s := Plugins_ (jobs s) (slots s) (busy s) (closed s) (active s) (locks s) v.

(** One section of some thread. *)
Inductive section :=
  | Enter (n : name)               (* [start_execution] is called *)
  | TakeSlot (n : name)
  | SlotTimeout (n : name)
  | MarkBusy (n : name)
  | OpenLock (n : name)            (* the checks of the lock's file passed *)
  | OpenFails (n : name)
  | TryLock (n : name)             (* one attempt *)
  | LockFails (n : name)           (* time is up, or another error *)
  | ClearBusy (n : name)
  | GiveSlotBack (n : name)
  | Build (n : name)               (* the constructor returns *)
  | BuildFails (n : name)
  | Register (n : name)
  | CloseUnverified (n : name)     (* of a run built for a closed plugin *)
  | Retire (n : name)              (* the run calls [retire], locked part *)
  | Advance (n : name)             (* the next step of giving back *)
  | ClosePlugin (d : nat)
  | ReplaceLock (inode : Z).       (* someone else replaces the lock's file *)

Definition in_place (n : name) (s : plugins) (f : job -> option plugins) : option plugins :=
  j ← jobs s !! n; f j.

Definition moved (n : name) (p : place) (h : holding) (s : plugins) : option plugins :=
  Some (put_job n (Job p h) s).

(** The inode whose lock a job took. *)
Definition inode_of (p : place) : option Z :=
  match p with
  | Builds i | Built i | ClosedMeanwhile i | Returned i => Some i
  | Failed o => o
  | _ => None
  end.

(** [with release_lock: released = True], unless it is. *)
Definition claim_release (n : name) (p : place) (h : holding) (s : plugins) : option plugins :=
  moved n p (match h with Held => Claimed | _ => h end) s.

Definition step (m : section) (s : plugins) : option plugins :=
  match m with
  | Enter n =>
      match jobs s !! n with
      | Some _ => None
      | None => moved n (if bool_decide (n.1 ∈ closed s) then Failed None else WantsSlot) Held s
      end
  | TakeSlot n => in_place n s (fun j =>
      match j_place j with
      | WantsSlot =>
          if bool_decide (n.1 ∈ slots s) then None
          else moved n HasSlot Held (set_slots ({[n.1]} ∪ slots s) s)
      | _ => None
      end)
  | SlotTimeout n => in_place n s (fun j =>
      match j_place j with WantsSlot => moved n (Failed None) Held s | _ => None end)
  | MarkBusy n => in_place n s (fun j =>
      match j_place j with
      | HasSlot => moved n Opens Held (set_busy ({[n.1]} ∪ busy s) s)
      | _ => None
      end)
  | OpenLock n => in_place n s (fun j =>
      match j_place j with Opens => moved n (Polls (lock_inode s)) Held s | _ => None end)
  | OpenFails n => in_place n s (fun j =>
      match j_place j with Opens => moved n NoLock Held s | _ => None end)
  | TryLock n => in_place n s (fun j =>
      match j_place j with
      | Polls i =>
          if bool_decide (i ∈ locks s) then Some s
          else moved n (Builds i) Held (set_locks ({[i]} ∪ locks s) s)
      | _ => None
      end)
  | LockFails n => in_place n s (fun j =>
      match j_place j with Polls _ => moved n NoLock Held s | _ => None end)
  | ClearBusy n => in_place n s (fun j =>
      match j_place j with
      | NoLock => moved n NotBusy Held (set_busy (busy s ∖ {[n.1]}) s)
      | _ => None
      end)
  | GiveSlotBack n => in_place n s (fun j =>
      match j_place j with
      | NotBusy => moved n (Failed None) Held (set_slots (slots s ∖ {[n.1]}) s)
      | _ => None
      end)
  | Build n => in_place n s (fun j =>
      match j_place j, j_holding j with
      | Builds i, Held => moved n (Built i) Held s    (* a constructor that retired raises *)
      | _, _ => None
      end)
  | BuildFails n => in_place n s (fun j =>
      match j_place j with
      | Builds i => claim_release n (Failed (Some i)) (j_holding j) s
      | _ => None
      end)
  | Register n => in_place n s (fun j =>
      match j_place j with
      | Built i =>
          if bool_decide (n.1 ∈ closed s) then moved n (ClosedMeanwhile i) (j_holding j) s
          else moved n (Returned i) (j_holding j) (set_active ({[n]} ∪ active s) s)
      | _ => None
      end)
  | CloseUnverified n => in_place n s (fun j =>
      match j_place j with
      | ClosedMeanwhile i => claim_release n (Failed (Some i)) (j_holding j) s
      | _ => None
      end)
  | Retire n => in_place n s (fun j =>
      match j_place j with
      | Builds _ | Returned _ =>
          match j_holding j with
          | Held => moved n (j_place j) Claimed s
          | _ => Some (set_active (active s ∖ {[n]}) s)
          end
      | _ => None
      end)
  | Advance n => in_place n s (fun j =>
      match inode_of (j_place j), j_holding j with
      | Some i, Claimed =>
          moved n (j_place j) Cleared
            (set_active (active s ∖ {[n]}) (set_busy (busy s ∖ {[n.1]}) s))
      | Some i, Cleared => moved n (j_place j) Unlocked (set_locks (locks s ∖ {[i]}) s)
      | Some i, Unlocked => moved n (j_place j) Released (set_slots (slots s ∖ {[n.1]}) s)
      | _, _ => None
      end)
  | ClosePlugin d => Some (set_closed ({[d]} ∪ closed s) s)
  | ReplaceLock i => Some (set_inode i s)
  end.

Fixpoint steps (ms : list section) (s : plugins) : option plugins :=
  match ms with
  | [] => Some s
  | m :: ms => s' ← step m s; steps ms s'
  end.

(** [SystemEffectsFeature.status] of a daemon. *)
Definition active_runs (d : nat) (s : plugins) : gset name := filter (fun n => n.1 = d) (active s).

Definition status (config : SystemEffectsConfig) (d : nat) (s : plugins) : dict :=
  [("enabled", PBool (negb (bool_decide (d ∈ closed s))));
   ("protocol_version", PInt PROTOCOL_VERSION);
   ("protocol_versions",
     PList (PInt PROTOCOL_VERSION :: if recovery_enabled config then [PInt 3] else []));
   ("recovery_enabled", PBool (recovery_enabled config));
   ("profile", PStr (profile config));
   ("object_resolution_mode", PStr (object_resolution_mode config));
   ("scopes_enabled", PList (PStr <$> scopes_enabled config));
   ("active_runs", PInt (Z.of_nat (size (active_runs d s))));
   ("global_run_serialization", PStr "HOST_WIDE_FLOCK");
   ("host_lock_path", PStr (path_str (host_lock_path config)));
   ("observation_slot_busy", PBool (bool_decide (d ∈ busy s)));
   ("offline_verifier_required", PBool true)].

(** ** Who has what *)

(** What a job has of a resource is what the plugins count as taken, and no two
    jobs have the same. *)
Record tracks {K} `{Countable K} (own : name -> job -> option K) (taken : gset K) (js : gmap name job)
    : Prop := Tracks {
  tr_taken n j k : js !! n = Some j -> own n j = Some k -> k ∈ taken;
  tr_owned k : k ∈ taken -> exists n j, js !! n = Some j /\ own n j = Some k;
  tr_one n n' j j' k : js !! n = Some j -> js !! n' = Some j' -> own n j = Some k -> own n' j' = Some k ->
    n = n' }.

Section tracks.
Context {K} `{Countable K} (own : name -> job -> option K).

(** What the job with that name has, if there is one. *)
Definition had (n : name) (js : gmap name job) : option K := js !! n ≫= own n.

Lemma had_None n j js : had n js = None -> js !! n = Some j -> own n j = None.
Proof. unfold had. intros Hh Hj. by rewrite Hj in Hh. Qed.

Lemma tracks_same n j taken js :
  had n js = own n j -> tracks own taken js -> tracks own taken (<[n := j]> js).
Proof.
  unfold had. intros Hh [T O U]. constructor.
  - intros n' j' k. rewrite lookup_insert. case_decide as Hn; [subst n'|by apply T].
    intros [= <-] Hk. rewrite <-Hh in Hk. destruct (js !! n) as [j0|] eqn:E; [|done]. by eapply T.
  - intros k (n' & j' & Hj & Hk)%O. destruct (decide (n = n')) as [<-|Hne].
    + exists n, j. rewrite lookup_insert_eq. split; [done|]. rewrite <-Hh, Hj. exact Hk.
    + exists n', j'. by rewrite lookup_insert_ne.
  - assert (forall n' j' k, <[n:=j]> js !! n' = Some j' -> own n' j' = Some k ->
      exists j0, js !! n' = Some j0 /\ own n' j0 = Some k) as Hold.
    { intros n' j' k. rewrite lookup_insert. case_decide as Hn; [subst n'|by eauto].
      intros [= <-] Hk. rewrite <-Hh in Hk. destruct (js !! n) as [j0|]; [by exists j0|done]. }
    intros n1 n2 j1 j2 k H1 H2 Hk1 Hk2.
    destruct (Hold _ _ _ H1 Hk1) as (? & ? & ?). destruct (Hold _ _ _ H2 Hk2) as (? & ? & ?). by eapply U.
Qed.

Lemma tracks_take n j k taken js :
  had n js = None -> own n j = Some k -> k ∉ taken -> tracks own taken js ->
  tracks own ({[k]} ∪ taken) (<[n := j]> js).
Proof.
  intros Hh Hk Hfree [T O U]. constructor.
  - intros n' j' k'. rewrite lookup_insert. case_decide as Hn; [subst n'; intros [= <-]; set_solver|].
    intros Hj Hk'. specialize (T _ _ _ Hj Hk'). set_solver.
  - intros k' [->%elem_of_singleton|Hk']%elem_of_union.
    + exists n, j. by rewrite lookup_insert_eq.
    + apply O in Hk' as (n' & j' & Hj & Hk'). exists n', j'. rewrite lookup_insert_ne; [done|].
      intros <-. by rewrite (had_None _ _ _ Hh Hj) in Hk'.
  - intros n1 n2 j1 j2 k'. rewrite !lookup_insert.
    case_decide as E1; case_decide as E2; try subst n1; try subst n2.
    + done.
    + intros [= <-] Hj Hk1 Hk2. rewrite Hk in Hk1. injection Hk1 as <-. by destruct Hfree; eapply T.
    + intros Hj [= <-] Hk1 Hk2. rewrite Hk in Hk2. injection Hk2 as <-. by destruct Hfree; eapply T.
    + apply U.
Qed.

Lemma tracks_drop n j k taken js :
  had n js = Some k -> own n j = None -> tracks own taken js ->
  tracks own (taken ∖ {[k]}) (<[n := j]> js).
Proof.
  unfold had. intros Hh Hk [T O U]. destruct (js !! n) as [j0|] eqn:E0; [simpl in Hh|done]. constructor.
  - intros n' j' k'. rewrite lookup_insert. case_decide as Hn; [subst n'; intros [= <-]; congruence|].
    intros Hj Hk'. apply elem_of_difference. split; [by eapply T|]. intros ->%elem_of_singleton.
    by destruct Hn; eapply U.
  - intros k' [(n' & j' & Hj & Hk')%O Hne]%elem_of_difference. exists n', j'.
    rewrite lookup_insert_ne; [done|]. intros <-. set_solver.
  - intros n1 n2 j1 j2 k'. rewrite !lookup_insert. repeat case_decide; subst; try congruence. apply U.
Qed.
End tracks.

(** ** The invariant *)

Definition has_slot (j : job) : bool :=
  match j_place j, j_holding j with
  | (HasSlot | Opens | Polls _ | NoLock | NotBusy), _ => true
  | p, Released => false
  | p, _ => match inode_of p with Some _ => true | None => false end
  end.

Definition is_marked (j : job) : bool :=
  match j_place j, j_holding j with
  | (Opens | Polls _ | NoLock), _ => true
  | p, (Held | Claimed) => match inode_of p with Some _ => true | None => false end
  | _, _ => false
  end.

Definition own_slot (n : name) (j : job) : option nat := if has_slot j then Some n.1 else None.
Definition own_busy (n : name) (j : job) : option nat := if is_marked j then Some n.1 else None.
Definition own_lock (n : name) (j : job) : option Z :=
  match j_holding j with Held | Claimed | Cleared => inode_of (j_place j) | _ => None end.

Record good (s : plugins) : Prop := Good {
  g_slots : tracks own_slot (slots s) (jobs s);
  g_busy : tracks own_busy (busy s) (jobs s);
  g_locks : tracks own_lock (locks s) (jobs s) }.

Lemma good_fresh inode : good (fresh inode).
Proof. constructor; constructor; set_solver. Qed.

(** A resource after a step: kept, taken or given back. *)
Ltac track :=
  unfold had in *; simpl in *;
  first
    [ apply tracks_same; [|assumption]
    | apply tracks_take; [| | |assumption]
    | apply tracks_drop; [| |assumption] ];
  unfold had;
  repeat match goal with H : jobs _ !! _ = _ |- _ => rewrite H; clear H end; try done.

Lemma good_same s s' :
  jobs s' = jobs s -> slots s' = slots s -> busy s' = busy s -> locks s' = locks s -> good s -> good s'.
Proof. intros Hj Hs Hb Hl [G1 G2 G3]. constructor; by rewrite ?Hj, ?Hs, ?Hb, ?Hl. Qed.

(** The step of a job that leaves what it has. *)
Lemma good_moved n j j' s :
  jobs s !! n = Some j -> own_slot n j = own_slot n j' -> own_busy n j = own_busy n j' ->
  own_lock n j = own_lock n j' -> good s -> good (put_job n j' s).
Proof.
  intros Hj H1 H2 H3 [G1 G2 G3].
  constructor; simpl; (apply tracks_same; [unfold had; by rewrite Hj|done]).
Qed.

(** Whoever is marked has the slot. *)
Lemma unmarked n j s :
  good s -> jobs s !! n = Some j -> has_slot j = true -> is_marked j = false -> n.1 ∉ busy s.
Proof.
  intros [G1 G2 _] Hj Hs Hm Hin. destruct (tr_owned _ _ _ G2 _ Hin) as (n' & j' & Hj' & Hb).
  unfold own_busy in Hb. destruct (is_marked j') eqn:Hm'; [|done]. injection Hb as Hb.
  assert (has_slot j' = true) as Hs'.
  { unfold is_marked, has_slot in *. by destruct j' as [[] []]. }
  assert (n = n') as <-.
  { apply (tr_one _ _ _ G1 n n' j j' n.1); [done|done|..]; unfold own_slot; by rewrite ?Hs, ?Hs', ?Hb. }
  congruence.
Qed.

Lemma step_good m s s' : good s -> step m s = Some s' -> good s'.
Proof.
  intros G Hs. pose proof G as [G1 G2 G3].
  destruct m as [n|n|n|n|n|n|n|n|n|n|n|n|n|n|n|n|d|i]; cbn [step] in Hs;
    try (injection Hs as <-; by apply (good_same s)).
  { destruct (jobs s !! n) as [j|] eqn:Hj; [done|]. injection Hs as <-.
    case_bool_decide; constructor; track. }
  all: unfold in_place, claim_release, moved in Hs;
    destruct (jobs s !! n) as [[p h]|] eqn:Hj; [|done]; simpl in Hs.
  all: destruct p as [| | |i| | |i|i|i|i|[i|]]; simpl in Hs; try discriminate Hs;
    try (destruct h); try discriminate Hs.
  all: repeat match type of Hs with context [bool_decide ?P] => destruct (bool_decide_reflect P) end.
  all: cbn iota in Hs; try discriminate Hs; injection Hs as <-; try done.
  all: try (by eapply good_moved); try (by apply (good_same s)).
  all: constructor; simpl; try (by track).
  all: apply tracks_take; [unfold had; by rewrite Hj|done|by eapply unmarked|done].
Qed.

Lemma steps_app ms ms' s : steps (ms ++ ms') s = s' ← steps ms s; steps ms' s'.
Proof. revert s. induction ms as [|m ms IH]; intros s; [done|]. simpl. by destruct (step m s); simpl. Qed.

Lemma steps_good ms s s' : good s -> steps ms s = Some s' -> good s'.
Proof.
  revert s. induction ms as [|m ms IH]; intros s G; simpl; [by intros [= <-]|].
  destruct (step m s) as [s1|] eqn:E; [|done]. simpl. apply IH. by eapply step_good.
Qed.

(** *** The file of the lock *)

Definition replaces (m : section) : bool := match m with ReplaceLock _ => true | _ => false end.

(** The inode a job has open. *)
Definition on_inode (p : place) : option Z := match p with Polls i => Some i | _ => inode_of p end.

Definition one_file (i : Z) (s : plugins) : Prop :=
  lock_inode s = i /\ forall n j k, jobs s !! n = Some j -> on_inode (j_place j) = Some k -> k = i.

Lemma one_file_put i n p h s s' :
  one_file i s -> jobs s' = <[n := Job p h]> (jobs s) -> lock_inode s' = lock_inode s ->
  (forall k, on_inode p = Some k -> k = i) -> one_file i s'.
Proof.
  intros [Hi Hall] Hjs Hl Hp. split; [by rewrite Hl|]. intros n' j' k. rewrite Hjs, lookup_insert.
  case_decide; [intros [= <-]; apply Hp|apply Hall].
Qed.

Lemma step_one_file i m s s' :
  replaces m = false -> one_file i s -> step m s = Some s' -> one_file i s'.
Proof.
  intros Hm F Hs. pose proof F as [Hi Hall].
  destruct m as [n|n|n|n|n|n|n|n|n|n|n|n|n|n|n|n|d|i']; try discriminate Hm; cbn [step] in Hs;
    try (injection Hs as <-; exact F).
  { destruct (jobs s !! n) as [j|] eqn:Hj; [done|]. injection Hs as <-.
    eapply one_file_put; [done..|]. by case_bool_decide. }
  all: unfold in_place, claim_release, moved in Hs;
    destruct (jobs s !! n) as [[p h]|] eqn:Hj; [|done]; simpl in Hs;
    specialize (fun k => Hall n _ k Hj); simpl in Hall.
  all: destruct p as [| | |k| | |k|k|k|k|[k|]]; simpl in Hs; try discriminate Hs;
    try (destruct h); try discriminate Hs.
  all: repeat match type of Hs with context [bool_decide ?P] => destruct (bool_decide_reflect P) end.
  all: cbn iota in Hs; try discriminate Hs; injection Hs as <-; try exact F.
  all: eapply one_file_put; [exact F|reflexivity|reflexivity|]; simpl; try done; try exact Hall.
  all: intros k' [= <-]; by rewrite ?Hi.
Qed.

Lemma steps_one_file i ms s s' :
  forallb (fun m => negb (replaces m)) ms = true -> one_file i s -> steps ms s = Some s' -> one_file i s'.
Proof.
  revert s. induction ms as [|m ms IH]; intros s Hms F; simpl; [by intros [= <-]|].
  simpl in Hms. apply andb_true_iff in Hms as [Hm%negb_true_iff Hms].
  destruct (step m s) as [s1|] eqn:E; [|done]. simpl. apply IH; [done|]. by eapply step_one_file.
Qed.

(** ** What the plugins promise *)

(** The job took the lock of the host, on some inode, and has not let go of it.
    Nothing is said of the observer's process: it can outlive the job. *)
Definition holds_host (n : name) (j : job) : bool :=
  match own_lock n j with Some _ => true | None => false end.

Lemma holds_host_slot n j : holds_host n j = true -> own_slot n j = Some n.1.
Proof. unfold holds_host, own_lock, own_slot, has_slot. by destruct j as [[| | | | | | | | | |[|]] []]. Qed.

Lemma one_slot s n n' j j' :
  good s -> jobs s !! n = Some j -> jobs s !! n' = Some j' ->
  holds_host n j = true -> holds_host n' j' = true -> n.1 = n'.1 -> n = n'.
Proof.
  intros [G _ _] Hj Hj' Ho Ho' Hd. apply (tr_one _ _ _ G n n' j j' n.1); [done..| |].
  - by apply holds_host_slot.
  - rewrite Hd. by apply holds_host_slot.
Qed.

Lemma one_lock i s n n' j j' :
  good s -> one_file i s -> jobs s !! n = Some j -> jobs s !! n' = Some j' ->
  holds_host n j = true -> holds_host n' j' = true -> n = n'.
Proof.
  intros [_ _ G] [_ F] Hj Hj' Ho Ho'.
  assert (forall m l, jobs s !! m = Some l -> holds_host m l = true -> own_lock m l = Some i) as Hi.
  { intros m l Hl Hobs. unfold holds_host in Hobs. destruct (own_lock m l) as [k|] eqn:E; [|done].
    f_equal. apply (F m l k Hl). unfold own_lock in E. unfold on_inode.
    by destruct (j_place l), (j_holding l). }
  by apply (tr_one _ _ _ G n n' j j' i); [| |apply Hi|apply Hi].
Qed.

(** Also: however the threads of all the daemons of the host interleave in
    [start_execution], [retire] and [close], at most one job of a daemon holds
    the host, and at most one of all daemons as long as nobody replaces the file
    of the lock.  This orders the runs, not the observers: a run that is retired
    gives the lock back even when its observer could not be ended. *)
Theorem one_holder inode ms s n n' j j' :
  steps ms (fresh inode) = Some s -> jobs s !! n = Some j -> jobs s !! n' = Some j' ->
  holds_host n j = true -> holds_host n' j' = true ->
  (n.1 = n'.1 -> n = n') /\ (forallb (fun m => negb (replaces m)) ms = true -> n = n').
Proof.
  intros Hms Hj Hj' Ho Ho'. pose proof (steps_good _ _ _ (good_fresh inode) Hms) as G.
  split; [by eapply one_slot|]. intros Hr. eapply (one_lock inode); [exact G| |done..].
  apply (steps_one_file _ ms (fresh inode)); [exact Hr|split; [done|]|exact Hms]. intros ? ? ? [=].
Qed.

(** A thread whose job is over has nothing to do but give back. *)
Definition over (j : job) : bool :=
  match j_place j, j_holding j with
  | (NoLock | NotBusy | Failed _), _ => true
  | p, Held => false
  | p, _ => match inode_of p with Some _ => true | None => false end
  end.

Definition settled (j : job) : bool :=
  match j_place j, j_holding j with
  | Failed None, _ => true
  | p, Released => match inode_of p with Some _ => true | None => false end
  | _, _ => false
  end.

(** A failed start claims what it took. *)
Definition claimed (s : plugins) : Prop :=
  forall n i h, jobs s !! n = Some (Job (Failed (Some i)) h) -> h <> Held.

Lemma step_claimed m s s' : claimed s -> step m s = Some s' -> claimed s'.
Proof.
  intros C Hs.
  destruct m as [n|n|n|n|n|n|n|n|n|n|n|n|n|n|n|n|d|i]; cbn [step] in Hs;
    try (injection Hs as <-; exact C).
  { destruct (jobs s !! n) as [j|] eqn:Hj; [done|]. injection Hs as <-.
    intros n' i h. simpl. rewrite lookup_insert. case_decide; [by case_bool_decide|apply C]. }
  all: unfold in_place, claim_release, moved in Hs;
    destruct (jobs s !! n) as [[p h]|] eqn:Hj; [|done]; simpl in Hs.
  all: destruct p as [| | |k| | |k|k|k|k|[k|]]; simpl in Hs; try discriminate Hs;
    try (destruct h); try discriminate Hs.
  all: repeat match type of Hs with context [bool_decide ?P] => destruct (bool_decide_reflect P) end.
  all: cbn iota in Hs; try discriminate Hs; injection Hs as <-; try exact C.
  all: intros n' i' h'; simpl; rewrite lookup_insert; case_decide; [by intros [=]; subst|apply C].
Qed.

Lemma steps_claimed ms s s' : claimed s -> steps ms s = Some s' -> claimed s'.
Proof.
  revert s. induction ms as [|m ms IH]; intros s C; simpl; [by intros [= <-]|].
  destruct (step m s) as [s1|] eqn:E; [|done]. simpl. apply IH. by eapply step_claimed.
Qed.

(** What a job still has to do. *)
Definition way_back (n : name) (j : job) : list section :=
  match j_place j, j_holding j with
  | NoLock, _ => [ClearBusy n; GiveSlotBack n]
  | NotBusy, _ => [GiveSlotBack n]
  | Failed None, _ => []
  | _, Claimed => [Advance n; Advance n; Advance n]
  | _, Cleared => [Advance n; Advance n]
  | _, Unlocked => [Advance n]
  | _, _ => []
  end.

Lemma way_back_settles s n j :
  claimed s -> jobs s !! n = Some j -> over j = true ->
  exists s' j', steps (way_back n j) s = Some s' /\ jobs s' !! n = Some j' /\ settled j' = true.
Proof.
  intros C Hj Hover. destruct j as [p h]. specialize (C n).
  destruct p as [| | |k| | |k|k|k|k|[k|]]; destruct h; try discriminate Hover;
    try (by destruct (C _ _ Hj));
    unfold way_back; cbn [j_place j_holding steps step];
    repeat (unfold in_place, moved; simpl; rewrite ?Hj, ?lookup_insert_eq; simpl);
    eexists _, _; (split; [reflexivity|]); simpl; rewrite ?lookup_insert_eq; by split.
Qed.

Lemma settled_free {K} `{Countable K} (own : name -> job -> option K) taken js :
  (forall n j, settled j = true -> own n j = None) ->
  (forall n j, js !! n = Some j -> settled j = true) -> tracks own taken js -> taken = ∅.
Proof.
  intros Hown Hset [_ O _]. apply elem_of_equiv_empty_L. intros k Hk.
  destruct (O _ Hk) as (n & j & Hj & Hj'). rewrite Hown in Hj'; [done|by eapply Hset].
Qed.

(** C31: nothing of the host is lost: whatever happened before, a job that is
    over — the lock could not be taken, the start failed, or the run was retired
    — settles by at most three sections of its own, none of which can block,
    and when every job is settled no slot is taken, no daemon is busy and
    nobody has the lock of the host. *)
Theorem observation_given_back inode ms s :
  steps ms (fresh inode) = Some s ->
  (forall n j, jobs s !! n = Some j -> over j = true ->
    (length (way_back n j) <= 3)%nat /\
    exists s' j', steps (way_back n j) s = Some s' /\ jobs s' !! n = Some j' /\ settled j' = true) /\
  ((forall n j, jobs s !! n = Some j -> settled j = true) -> slots s = ∅ /\ busy s = ∅ /\ locks s = ∅).
Proof.
  intros Hms. pose proof (steps_good _ _ _ (good_fresh inode) Hms) as [G1 G2 G3]. split.
  - intros n j Hj Hover. assert (claimed s) as C by (apply (steps_claimed ms (fresh inode)); [intros ? ? ? [=]|exact Hms]).
    split; [|by apply way_back_settles]. unfold way_back.
    destruct (j_place j) as [| | | | | | | | | |[]], (j_holding j); simpl; lia.
  - intros Hset. split; [|split].
    + eapply settled_free; [|exact Hset|exact G1].
      intros n [[| | | | | | | | | |[|]] []]; unfold own_slot; by simpl.
    + eapply settled_free; [|exact Hset|exact G2].
      intros n [[| | | | | | | | | |[|]] []]; unfold own_busy; by simpl.
    + eapply settled_free; [|exact Hset|exact G3].
      intros n [[| | | | | | | | | |[|]] []]; by simpl.
Qed.

(** *** What the status says *)

(** A run is handed out with all it took, and is active as long as it has it. *)
Record registered (s : plugins) : Prop := Registered {
  rg_built n i h : jobs s !! n = Some (Job (Built i) h) -> h = Held;
  rg_active n : n ∈ active s -> exists i h, jobs s !! n = Some (Job (Returned i) h) /\ (h = Held \/ h = Claimed) }.

Lemma registered_put n p h s s' :
  registered s -> jobs s' = <[n := Job p h]> (jobs s) -> active s' ⊆ {[n]} ∪ active s ->
  (forall i, p = Built i -> h = Held) ->
  (n ∈ active s' -> exists i, p = Returned i /\ (h = Held \/ h = Claimed)) -> registered s'.
Proof.
  intros [B R] Hj Hsub Hb Hn. constructor.
  - intros n' i h'. rewrite Hj, lookup_insert. case_decide; [intros [= -> ->]; by eapply Hb|apply B].
  - intros n' Hin. rewrite Hj, lookup_insert. case_decide as E.
    + subst n'. destruct (Hn Hin) as (i & -> & Hh). by exists i, h.
    + apply R. set_solver.
Qed.

Lemma registered_same s s' :
  registered s -> jobs s' = jobs s -> active s' ⊆ active s -> registered s'.
Proof. intros [B R] Hj Ha. constructor; rewrite Hj; [exact B|]. intros n Hn. apply R, Ha, Hn. Qed.

Lemma step_registered m s s' : registered s -> step m s = Some s' -> registered s'.
Proof.
  intros R Hs.
  destruct m as [n|n|n|n|n|n|n|n|n|n|n|n|n|n|n|n|d|i]; cbn [step] in Hs;
    try (injection Hs as <-; by apply (registered_same s)).
  { destruct (jobs s !! n) as [j|] eqn:Hj; [done|]. injection Hs as <-.
    eapply registered_put; [exact R|reflexivity|set_solver|done|].
    intros Hin. destruct (rg_active _ R _ Hin) as (? & ? & E & _). simpl in E. by rewrite Hj in E. }
  all: pose proof (rg_active _ R n) as Rn; pose proof (rg_built _ R n) as Bn;
    unfold in_place, claim_release, moved in Hs;
    destruct (jobs s !! n) as [[p h]|] eqn:Hj; [|done]; simpl in Hs.
  all: destruct p as [| | |k| | |k|k|k|k|[k|]]; simpl in Hs; try discriminate Hs;
    try (destruct h); try discriminate Hs.
  all: repeat match type of Hs with context [bool_decide ?P] => destruct (bool_decide_reflect P) end.
  all: cbn iota in Hs; try discriminate Hs; injection Hs as <-; try exact R.
  all: try (apply (registered_same s); [done|done|simpl; set_solver]).
  all: eapply registered_put; [exact R|reflexivity|simpl; set_solver
    |intros ? E; first [done|discriminate E|discriminate (Bn _ _ eq_refl)]|]; simpl; intros Hin;
    first [set_solver
          |by eauto
          |discriminate (Bn _ _ eq_refl)
          |destruct Rn as (? & ? & [=] & []); [assumption|subst; eauto; done..]].
Qed.

Lemma steps_registered ms s s' : registered s -> steps ms s = Some s' -> registered s'.
Proof.
  revert s. induction ms as [|m ms IH]; intros s R; simpl; [by intros [= <-]|].
  destruct (step m s) as [s1|] eqn:E; [|done]. simpl. apply IH. by eapply step_registered.
Qed.

(** Also: the status never shows two active runs, and an active one only with its
    slot busy. *)
Theorem status_consistent inode ms s d :
  steps ms (fresh inode) = Some s ->
  (size (active_runs d s) <= 1)%nat /\ (active_runs d s <> ∅ -> d ∈ busy s).
Proof.
  intros Hms. pose proof (steps_good _ _ _ (good_fresh inode) Hms) as G.
  assert (registered s) as R.
  { apply (steps_registered ms (fresh inode)); [|done]. constructor; [intros ??? [=]|set_solver]. }
  assert (forall n, n ∈ active_runs d s -> n.1 = d /\ exists j, jobs s !! n = Some j /\ own_busy n j = Some d
    /\ holds_host n j = true) as Hrun.
  { intros n [Hd Hin]%elem_of_filter. split; [done|]. destruct (rg_active _ R n Hin) as (i & h & Hj & Hh).
    exists (Job (Returned i) h). split; [done|]. rewrite <-Hd. by destruct Hh as [-> | ->]. }
  split.
  - destruct (decide (size (active_runs d s) <= 1)%nat) as [|Hlt]; [done|]. exfalso.
    destruct (size_pos_elem_of (active_runs d s)) as [n Hn]; [lia|].
    destruct (size_pos_elem_of (active_runs d s ∖ {[n]})) as [n' Hn'].
    { rewrite size_difference by set_solver. rewrite size_singleton. lia. }
    apply elem_of_difference in Hn' as [Hn' Hne].
    apply Hrun in Hn as (E & j & Hj & _ & Ho), Hn' as (E' & j' & Hj' & _ & Ho').
    apply Hne, elem_of_singleton. symmetry. eapply (one_slot s); [exact G|exact Hj|exact Hj'|done|done|congruence].
  - intros [n Hn]%set_choose_L. apply Hrun in Hn as (_ & j & Hj & Hb & _). by eapply (tr_taken _ _ _ (g_busy _ G)).
Qed.

(** ** The descriptors of [acquire] *)

Section descriptors.
Context `{Host} {O : Type}.
Notation S := (st hcall O).

(** The descriptor a call opens, and what it changes in how often [fd] is open. *)
Definition opens (h : list hcall) (c : hcall) : option Z :=
  match c with
  | HOpen p flags => match host h (HOpen p flags) with Done d => Some d | _ => None end
  | HOpenAt d name flags => match host h (HOpenAt d name flags) with Done d => Some d | _ => None end
  | _ => None
  end.

Definition change (fd : Z) (h : list hcall) (c : hcall) : Z :=
  (if bool_decide (opens h c = Some fd) then 1 else 0)
  - match c with HClose d => if d =? fd then 1 else 0 | _ => 0 end.

Fixpoint net (fd : Z) (h calls : list hcall) : Z :=
  match calls with
  | [] => 0
  | c :: calls => change fd h c + net fd (h ++ [c]) calls
  end.

Lemma net_snoc fd h calls c : net fd h (calls ++ [c]) = net fd h calls + change fd (h ++ calls) c.
Proof.
  revert h. induction calls as [|c' calls IH]; intros h; simpl; [rewrite app_nil_r; lia|].
  rewrite IH, <-app_assoc. simpl. lia.
Qed.

(** Since [s0], each descriptor was opened that much more often than closed. *)
Definition owes (s0 s : S) (balance : Z -> Z) : Prop :=
  exists calls, hist s = hist s0 ++ calls /\ forall fd, net fd (hist s0) calls = balance fd.

Lemma owes_start s : owes s s (fun _ => 0).
Proof. exists []. by rewrite app_nil_r. Qed.

Lemma owes_call s0 s c o balance balance' :
  owes s0 s balance -> (forall fd, balance' fd = balance fd + change fd (hist s) c) ->
  owes s0 (St (hist s ++ [c]) o) balance'.
Proof.
  intros (calls & Hh & Hnet) Hb. exists (calls ++ [c]). simpl. split; [by rewrite Hh, app_assoc|].
  intros fd. by rewrite net_snoc, Hnet, Hb, Hh.
Qed.

Lemma owes_ext s0 s balance balance' :
  owes s0 s balance -> (forall fd, balance fd = balance' fd) -> owes s0 s balance'.
Proof. intros (calls & Hh & Hnet) Hb. exists calls. split; [done|]. intros fd. by rewrite <-Hb. Qed.

Definition only_one (d : Z) (fd : Z) : Z := if d =? fd then 1 else 0.
Definition none (fd : Z) : Z := 0.

(** The clock, sleeping and closing do not fail, [flock] only with [OSError]. *)
Context (Hclose : forall h d, host h (HClose d) = Done ()).
Context (Hclock : forall h, exists t, host h HClock = Done t).
Context (Hsleep : forall h ns, host h (HSleep ns) = Done ()).

Context (Hlock : forall h d e, host h (HLock d) = Raised e -> is_os_error e = true).

Definition granted (d : Z) (s : S) : Prop :=
  exists h, hist s = h ++ [HLock d] /\ host h (HLock d) = Done ().

Lemma wp_close_descriptor s0 s d balance (Q : reply unit -> S -> Prop) :
  owes s0 s balance ->
  (forall o, owes s0 (St (hist s ++ [HClose d]) o) (fun fd => balance fd - only_one d fd) ->
     Q (Done ()) (St (hist s ++ [HClose d]) o)) ->
  ewp (call (HClose d)) Q s.
Proof.
  intros Hb HQ. apply ewp_perform. intros r Hr. rewrite Hclose in Hr. subst r. apply HQ.
  eapply owes_call; [exact Hb|]. intros fd. unfold change, only_one. simpl. lia.
Qed.

Lemma wp_other c s0 s balance (Q : reply (answer c) -> S -> Prop) :
  owes s0 s balance -> (forall h fd, change fd h c = 0) ->
  (forall r, host (hist s) c = r -> owes s0 (St (hist s ++ [c]) (obj s)) balance ->
     Q r (St (hist s ++ [c]) (obj s))) ->
  ewp (call c) Q s.
Proof.
  intros Hb Hc HQ. apply ewp_perform. intros r Hr. apply HQ; [done|].
  eapply owes_call; [exact Hb|]. intros fd. rewrite Hc. lia.
Qed.

Lemma wp_clock s0 s balance (Q : reply Z -> S -> Prop) :
  owes s0 s balance ->
  (forall t, owes s0 (St (hist s ++ [HClock]) (obj s)) balance -> Q (Done t) (St (hist s ++ [HClock]) (obj s))) ->
  ewp now Q s.
Proof.
  intros Hb HQ. apply (wp_other HClock s0 s balance); [done|done|]. intros r Hr Ho.
  destruct (Hclock (hist s)) as [t Ht]. rewrite Ht in Hr. subst r. by apply HQ.
Qed.

Definition polled (s0 : S) (d : Z) (r : reply Z) (s : S) : Prop :=
  match r with
  | Done d' => d' = d /\ owes s0 s (only_one d) /\ granted d s
  | Raised _ => owes s0 s none
  | Interrupted => True
  end.

(** Closing the only descriptor, and failing. *)
Lemma wp_close_and_throw {A} d e s0 s (Q : reply A -> S -> Prop) :
  owes s0 s (only_one d) -> (forall s', owes s0 s' none -> Q (Raised e) s') ->
  ewp (call (HClose d);; throw e) Q s.
Proof.
  intros Hs HQ. apply ewp_bind, (wp_close_descriptor s0 _ d (only_one d)); [done|]. intros o Hs'.
  apply ewp_throw, HQ. eapply owes_ext; [exact Hs'|]. intros fd. unfold only_one, none. lia.
Qed.

Lemma wp_await_lock polls d deadline s0 s :
  owes s0 s (only_one d) -> ewp (await_lock polls d deadline) (polled s0 d) s.
Proof.
  revert s. induction polls as [|polls IH]; intros s Hs; [done|]. cbn [await_lock].
  apply ewp_bind. unfold try_lock. apply ewp_catch, ewp_bind.
  apply (wp_other (HLock d) s0 s (only_one d)); [done|done|]. intros [[]|e|] Hr Hs1; cbv iota; [|..|done].
  { apply ewp_ret, ewp_ret. split; [done|]. split; [done|]. by exists (hist s). }
  destruct (is_busy e); [apply ewp_ret; cbv iota|rewrite (Hlock _ _ _ Hr)].
  - apply ewp_bind, (wp_clock s0 _ (only_one d)); [done|]. intros t Hs2.
    destruct (deadline <=? t); [by eapply wp_close_and_throw|].
    apply ewp_bind, (wp_clock s0 _ (only_one d)); [done|]. intros t' Hs3.
    apply ewp_bind, (wp_other (HSleep _) s0 _ (only_one d)); [done|done|]. intros r Hr' Hs4.
    rewrite Hsleep in Hr'. subst r. by apply IH.
  - by eapply wp_close_and_throw.
Qed.

Definition is_close (c : hcall) : bool := match c with HClose _ => true | _ => false end.

Lemma change_open fd h c : is_close c = false ->
  change fd h c = match opens h c with Some d => only_one d fd | None => 0 end.
Proof.
  intros Hc. unfold change, only_one. destruct (opens h c) as [d|].
  - destruct (d =? fd) eqn:E; [apply Z.eqb_eq in E as ->; rewrite bool_decide_eq_true_2 by done; by destruct c|].
    rewrite bool_decide_eq_false_2 by (intros [= ->]; lia). by destruct c.
  - rewrite bool_decide_eq_false_2 by done. by destruct c.
Qed.

Definition left_open (s0 : S) (balance : Z -> Z) (r : reply Z) (s : S) : Prop :=
  match r with
  | Done d => owes s0 s (fun fd => balance fd + only_one d fd)
  | Raised _ => owes s0 s balance
  | Interrupted => True
  end.

Lemma wp_open p flags s0 s balance :
  owes s0 s balance -> ewp (call (HOpen p flags)) (left_open s0 balance) s.
Proof.
  intros Hs. apply (ewp_perform (HOpen p flags)). intros r Hr.
  destruct r; simpl; [..|done]; (eapply owes_call; [exact Hs|]; intros fd;
    rewrite change_open by done; unfold opens; rewrite Hr; lia).
Qed.

Lemma wp_open_at d name flags s0 s balance :
  owes s0 s balance -> ewp (call (HOpenAt d name flags)) (left_open s0 balance) s.
Proof.
  intros Hs. apply (ewp_perform (HOpenAt d name flags)). intros r Hr.
  destruct r; simpl; [..|done]; (eapply owes_call; [exact Hs|]; intros fd;
    rewrite change_open by done; unfold opens; rewrite Hr; lia).
Qed.

Lemma wp_wrapping_open what (m : P hcall O Z) s0 s balance :
  ewp m (left_open s0 balance) s -> ewp (wrapping is_os_error what m) (left_open s0 balance) s.
Proof.
  intros Hm. apply ewp_catch. eapply ewp_mono; [exact Hm|]. intros [d|e|] s' Ho; [done| |done].
  by destruct (is_os_error e); apply ewp_throw.
Qed.

(** The inner part, which closes the file when a check fails. *)
Lemma wp_unwinding_close d (m : P hcall O unit) s0 s balance :
  owes s0 s (fun fd => balance fd + only_one d fd) ->
  (forall s1, owes s0 s1 (fun fd => balance fd + only_one d fd) ->
    ewp m (fun _ s2 => owes s0 s2 (fun fd => balance fd + only_one d fd)) s1) ->
  ewp (unwinding m (call (HClose d))) (fun r s' =>
    match r with
    | Done _ => owes s0 s' (fun fd => balance fd + only_one d fd)
    | _ => owes s0 s' balance
    end) s.
Proof.
  intros Hs Hm. apply ewp_unwinding. eapply ewp_mono; [by apply Hm|]. intros r s1 Hs1.
  destruct r; [done|..]; (eapply wp_close_descriptor; [exact Hs1|]; intros o Hs2;
    eapply owes_ext; [exact Hs2|]; intros fd; simpl; lia).
Qed.

Lemma wp_open_lock path s0 s :
  owes s0 s none -> ewp (open_lock path) (left_open s0 none) s.
Proof.
  intros Hs. unfold open_lock. apply ewp_bind.
  eapply ewp_mono; [by apply wp_wrapping_open, wp_open|]. intros [dir|e|] s1 Hs1; [|done|done].
  unfold left_open in Hs1. apply ewp_finally.
  apply (ewp_mono _ (left_open s0 (fun fd => none fd + only_one dir fd))).
  - apply ewp_bind, (wp_other (HFstat dir) s0 _ (fun fd => none fd + only_one dir fd)); [done|done|].
    intros [parent|e|] _ Hs2; [|done|done]. cbv iota.
    apply ewp_bind, ewp_throw_when; [done|]. intros _. apply ewp_bind.
    eapply ewp_mono; [by apply wp_wrapping_open, wp_open_at|]. intros [d|e|] s3 Hs3; [|done|done].
    unfold left_open in Hs3. cbv iota. apply ewp_bind.
    eapply ewp_mono; [apply wp_unwinding_close; [exact Hs3|]|].
    + intros s4 Hs4. apply ewp_bind.
      apply (wp_other (HFstat d) s0 _ (fun fd => none fd + only_one dir fd + only_one d fd)); [done|done|].
      intros [m|e|] _ Hs5; [|done|done]. cbv iota. apply ewp_bind.
      apply (wp_other (HStatAt dir (lock_name path)) s0 _
        (fun fd => none fd + only_one dir fd + only_one d fd)); [done|done|].
      intros [l|e|] _ Hs6; [|done|done]. cbv iota. by apply ewp_throw_when.
    + intros [u|e|] s4 Hs4; [by apply ewp_ret|done|done].
  - intros r s2 Hs2. destruct r as [d|e|]; unfold left_open in Hs2.
    + eapply wp_close_descriptor; [exact Hs2|]. intros o Hs3. eapply owes_ext; [exact Hs3|]. intros fd. simpl. lia.
    + eapply wp_close_descriptor; [exact Hs2|]. intros o Hs3. eapply owes_ext; [exact Hs3|]. intros fd. simpl. lia.
    + apply ewp_perform. intros r Hr. rewrite Hclose in Hr. by subst r.
Qed.

(** The file the lock is taken on was checked, on its descriptor, in a directory
    that was checked as well. *)
Definition checked (path : pure_path) (d : Z) (s : S) : Prop :=
  exists (dir : Z) (parent m linked : metadata),
    answered (hist s) (HOpen (path_parent path) lock_directory_flags) dir
    /\ answered (hist s) (HFstat dir) parent
    /\ (S_ISDIR (st_mode parent) && trusted_owner parent
        && negb (writable_by_others (st_mode parent))) = true
    /\ answered (hist s) (HOpenAt dir (lock_name path) lock_file_flags) d
    /\ answered (hist s) (HFstat d) m
    /\ answered (hist s) (HStatAt dir (lock_name path)) linked
    /\ private_lock m linked = true.

Lemma checked_grows path d s s' : grows s s' -> checked path d s -> checked path d s'.
Proof.
  intros G (dir & parent & m & linked & H1 & H2 & H3 & H4 & H5 & H6 & H7).
  exists dir, parent, m, linked. unfold grows in G.
  repeat split; try done; by eapply answered_mono.
Qed.

Lemma open_lock_checked path s : returns (open_lock path) (checked path) s.
Proof.
  unfold open_lock. apply returns_bind, returns_wrapping.
  apply (returns_perform (HOpen _ _)). intros dir Hdir.
  apply returns_finally, returns_bind, (returns_perform (HFstat dir)). intros parent Hparent.
  apply returns_bind, returns_throw_when. intros [[Hd Ho]%orb_false_iff Hw]%orb_false_iff.
  apply returns_bind, returns_wrapping, (returns_perform (HOpenAt _ _ _)). intros d Hdd.
  apply returns_bind, returns_unwinding, returns_bind, (returns_perform (HFstat d)). intros m Hm.
  apply returns_bind, (returns_perform (HStatAt _ _)). intros linked Hl.
  apply returns_throw_when. intros Hp%negb_false_iff. apply returns_ret, (returns_perform (HClose dir)).
  intros _ _. exists dir, parent, m, linked. apply negb_false_iff in Hd, Ho. rewrite Hd, Ho, Hw.
  simpl in *. repeat split; try done; repeat first [by apply answered_last | apply answered_longer].
Qed.

Lemma travels_await_lock polls d deadline : travels (@grows hcall O) (await_lock polls d deadline).
Proof.
  assert (forall c, travels (@grows hcall O) (call c)) as Hc.
  { intros c. apply travels_perform. intros [h o]. by exists [c]. }
  induction polls as [|polls IH]; cbn [await_lock]; [apply travels_still; [exact _|]; by intros s|].
  unfold try_lock, now.
  repeat first [apply Hc | exact IH | travel_step].
Qed.

(** Also: the lock of the host is held only on the file at the configured path,
    a private regular file with one link, found in a trusted directory and
    compared on the descriptor the lock is taken on; and no descriptor is left
    behind: what [acquire] opened is closed again but for the one it returns,
    and all of it when it raises. *)
Theorem lock_acquired polls path timeout s :
  ewp (acquire polls path timeout) (fun r s' =>
    match r with
    | Done d => checked path d s' /\ granted d s' /\ owes s s' (only_one d)
    | Raised _ => owes s s' none
    | Interrupted => True
    end) s.
Proof.
  unfold acquire. apply ewp_bind.
  apply (ewp_mono _ (fun r s1 => left_open s none r s1 /\ match r with Done d => checked path d s1 | _ => True end)).
  - split; [apply wp_open_lock, owes_start|]. destruct (open_lock path s) as [[d|e|] s1] eqn:E; [|done|done].
    by apply (open_lock_checked path s).
  - intros [d|e|] s1 [Ho Hch]; [|done|done]. change (owes s s1 (fun fd => none fd + only_one d fd)) in Ho.
    assert (owes s s1 (only_one d)) as Ho1 by (eapply owes_ext; [exact Ho|]; intros fd; unfold none; lia).
    apply ewp_bind, (wp_clock s s1 (only_one d)); [done|]. intros t Ho2.
    eapply (ewp_travels grows); [apply travels_await_lock|].
    eapply ewp_mono; [by apply (wp_await_lock _ _ _ s)|].
    intros [d'|e|] s2; simpl; [|done|done]. intros (-> & Ho3 & Hg) G. split; [|done].
    eapply checked_grows; [|exact Hch]. etrans; [|exact G]. by exists [HClock].
Qed.
End descriptors.

(** ** Examples *)

(** Two daemons want to observe; the first gets the lock, the second polls, gets
    it once the first run is retired, and fails to start. *)
Definition contended : list section :=
  [Enter (0%nat, 0%nat); Enter (1%nat, 0%nat); Enter (0%nat, 1%nat);
   TakeSlot (0%nat, 0%nat); TakeSlot (1%nat, 0%nat); SlotTimeout (0%nat, 1%nat);
   MarkBusy (1%nat, 0%nat); MarkBusy (0%nat, 0%nat);
   OpenLock (0%nat, 0%nat); OpenLock (1%nat, 0%nat);
   TryLock (0%nat, 0%nat); TryLock (1%nat, 0%nat);
   Build (0%nat, 0%nat); Register (0%nat, 0%nat); TryLock (1%nat, 0%nat);
   Retire (0%nat, 0%nat); Advance (0%nat, 0%nat); Advance (0%nat, 0%nat);
   TryLock (1%nat, 0%nat); BuildFails (1%nat, 0%nat)].

Definition after (ms : list section) : plugins := default (fresh 7) (steps ms (fresh 7)).

Lemma one_holder_witness :
  jobs (after (take 15 contended)) !! (0%nat, 0%nat) = Some (Job (Returned 7) Held) /\
  jobs (after (take 15 contended)) !! (1%nat, 0%nat) = Some (Job (Polls 7) Held) /\
  (((0%nat, 0%nat).1 = (0%nat, 0%nat).1 -> (0%nat, 0%nat) = (0%nat, 0%nat) :> name) /\
   (forallb (fun m => negb (replaces m)) (take 15 contended) = true -> (0%nat, 0%nat) = (0%nat, 0%nat) :> name)).
Proof.
  split; [vm_compute; reflexivity|]. split; [vm_compute; reflexivity|].
  apply (one_holder 7 (take 15 contended) (after (take 15 contended)) (0%nat, 0%nat) (0%nat, 0%nat)
    (Job (Returned 7) Held) (Job (Returned 7) Held)); vm_compute; reflexivity.
Defined.

(** The first run still has its slot to return, the second everything. *)
Lemma observation_given_back_witness :
  way_back (0%nat, 0%nat) (Job (Returned 7) Unlocked) = [Advance (0%nat, 0%nat)] /\
  exists s' j', steps (way_back (1%nat, 0%nat) (Job (Failed (Some 7)) Claimed)) (after contended) = Some s'
    /\ jobs s' !! (1%nat, 0%nat) = Some j' /\ settled j' = true.
Proof.
  split; [reflexivity|].
  apply (observation_given_back 7 contended (after contended)); vm_compute; reflexivity.
Defined.

(** Also: what the checks of the directory are for: whoever can replace the file
    of the lock lets two daemons hold the host at once. *)
Example replaced_lock_overlaps :
  let ms := [Enter (0%nat, 0%nat); TakeSlot (0%nat, 0%nat); MarkBusy (0%nat, 0%nat); OpenLock (0%nat, 0%nat);
             TryLock (0%nat, 0%nat); ReplaceLock 8;
             Enter (1%nat, 0%nat); TakeSlot (1%nat, 0%nat); MarkBusy (1%nat, 0%nat); OpenLock (1%nat, 0%nat);
             TryLock (1%nat, 0%nat)] in
  jobs (after ms) !! (0%nat, 0%nat) = Some (Job (Builds 7) Held) /\
  jobs (after ms) !! (1%nat, 0%nat) = Some (Job (Builds 8) Held).
Proof. vm_compute. by split. Qed.
