(* ===== verification/Recovery.v ===== *)
(** * A recovery run

    [src/plugins/system-effects/src/allox_system_effects/recovery_runner.py]: the
    observer's third protocol.  It takes a snapshot A before the agent starts,
    B when the agent has ended, lets a helper roll the workspace back, takes C,
    and says whether the system is as it was; what a failed comparison would
    still need is deleted only at the very end.  The class extends the one of
    [Observer.v], whose methods it uses where it does not have its own. *)

From Stdlib Require Import Ascii SpecFloat.
From Stdlib Require String.
From stdpp Require Import gmap pretty.
From S2P Require Import Prelude Effects PyVal Ids FileSystem World StoreFiles Paths Durable Kernel.
From S2P Require Import Json Runs Host EffectsConfig Observer.
Open Scope Z_scope.

Definition RECOVERY_PROTOCOL_VERSION : Z := 3.
Definition RECOVERY_MAXSIZE : nat := 8.

Definition _VERDICTS : list pyval :=
  [PStr "CONSISTENT_WITHIN_SCOPE"; PStr "INCONSISTENT_WITHIN_SCOPE"; PStr "INCONCLUSIVE"].

Definition common_keys : list string :=
  ["protocol_version"; "status"; "run_id"; "epoch"; "checkpoint_id"; "recovery_id"; "command_seq"; "nonce"].

Definition _READY_KEYS : list string := common_keys ++ ["snapshot_a_sha256"].
Definition _AGENT_STARTED_KEYS : list string := common_keys ++ ["agent_started_sha256"].
Definition _SNAPSHOT_B_KEYS : list string := common_keys ++ ["pre_restore_sha256"; "snapshot_b_sha256"].
Definition _RESTORE_COMPLETE_KEYS : list string := common_keys ++ ["recovery_sha256"].
Definition _SNAPSHOT_C_KEYS : list string := common_keys ++ ["snapshot_c_sha256"].
Definition _FINISHED_KEYS : list string := common_keys ++ ["verdict_sha256"; "artifact_manifest_sha256"].

Definition _SNAPSHOT_KEYS : list string :=
  ["schema_version"; "protocol_version"; "phase"; "run_id"; "epoch"; "checkpoint_id"; "recovery_id";
   "snapshot_id"; "capture_started_unix_ns"; "capture_completed_unix_ns"; "boot_id";
   "deployment_scope_sha256"; "cgroup_scope_capability"; "cgroup_scope_capability_sha256";
   "root_cgroups"; "mount_namespace_ids"; "pid_namespace_ids"; "net_namespace_ids";
   "uts_namespace_ids"; "ipc_namespace_ids"; "barrier_sha256"; "identity_assessment_sha256";
   "bpf"; "filesystem"; "linux"].

Definition _MANIFEST_KEYS : list string :=
  ["protocol_version"; "run_id"; "epoch"; "checkpoint_id"; "recovery_id"; "deployment_scope_sha256";
   "recovery_config_sha256"; "recovery_verdict_sha256"; "snapshot_a_sha256"; "snapshot_b_sha256";
   "snapshot_c_sha256"; "committed_artifact_total_bytes"; "artifacts"].

Definition _VERDICT_KEYS : list string :=
  ["schema_version"; "protocol_version"; "run_id"; "epoch"; "checkpoint_id"; "recovery_id";
   "snapshot_a_id"; "snapshot_b_id"; "snapshot_c_id"; "snapshot_a_sha256"; "snapshot_b_sha256";
   "snapshot_c_sha256"; "agent_delta"; "recovery_delta"; "residual_delta"; "classifications";
   "raw_endpoint_proof_complete"; "state_complete"; "external_incompleteness_reasons";
   "incompleteness_reasons"; "verdict"; "limitations"].

Definition _VERIFICATION_KEYS : list string :=
  ["schema_version"; "protocol_version"; "verified"; "run_id"; "epoch"; "checkpoint_id"; "recovery_id";
   "artifact_count"; "committed_artifact_total_bytes"; "verdict"; "endpoint_replay_verified";
   "recorder_wal_replay_verified"].

Definition is_some {A} (o : option A) : bool := match o with Some _ => true | None => false end.

(** ** Compact JSON

    Strings keep what is not ASCII, in UTF-8. *)

Definition wire_char (c : ascii) : string :=
  if (ascii_n c <? 127)%N then escape_char c
  else if (ascii_n c <? 128)%N then String c EmptyString
  else String (ascii_of_N (192 + ascii_n c / 64)) (String (ascii_of_N (128 + ascii_n c mod 64)) EmptyString).

Definition wire_quoted (s : string) : string :=
  String quote_char (string_concat_map wire_char s +:+ String quote_char EmptyString).

Fixpoint _wire_json `{FloatText} (v : pyval) : result string :=
  match v with
  | PStr s => Ok (wire_quoted s)
  | PList l =>
      parts ← mapM _wire_json l;
      Ok ("[" +:+ string_join "," parts +:+ "]")
  | PDict d =>
      parts ← mapM (fun kv => t ← _wire_json kv.2; Ok (wire_quoted kv.1 +:+ ":" +:+ t)) d;
      Ok ("{" +:+ string_join "," parts +:+ "}")
  | _ => dumps true v
  end.

(** ** What the run is bound to, beyond [RunBinding] *)

Definition recovery_error (s : string) : exn := effects_error ("recovery " +:+ s).
Definition observer_error (s : string) : exn := observe_error ("recovery " +:+ s).

Definition _strict_bool (value : pyval) (label : string) : result bool :=
  match value with PBool b => Ok b | _ => Err (recovery_error (label +:+ " must be a boolean")) end.

Definition _identifier (value : pyval) (label : string) : result string :=
  match value with
  | PStr s =>
      raise_if (negb (_IDENTIFIER s)) (recovery_error (label +:+ " has an invalid identity"));; Ok s
  | _ => Err (recovery_error (label +:+ " has an invalid identity"))
  end.

(** [self._recovery] *)
Record recovery_plan := RecoveryPlan {
  checkpoint_id : string;
  recovery_id : string;
  scrub_runtime : bool;
  require_consistent : bool;
  baseline_created : bool }.

Definition PLAN_NAMES : list string :=
  ["checkpoint_id"; "recovery_id"; "scrub_runtime"; "require_consistent"; "baseline_created"].

(** The attributes of the plan are those of a dict; any other object has none of
    these. *)
Definition _bind_recovery (ctx : run_context) : result recovery_plan :=
  match dgetn "recovery" (attributes ctx) with
  | PNone => Err (recovery_error "context lacks a recovery plan")
  | v =>
      let plan := match v with PDict p => p | _ => [] end in
      let missing := List.filter (fun name => negb (dhas name plan)) PLAN_NAMES in
      raise_if (negb (bool_decide (missing = [])))
        (recovery_error ("plan lacks " +:+ string_join ", " missing));;
      checkpoint ← _identifier (dgetn "checkpoint_id" plan) "checkpoint_id";
      recovery ← _identifier (dgetn "recovery_id" plan) "recovery_id";
      scrub ← _strict_bool (dgetn "scrub_runtime" plan) "scrub_runtime";
      consistent ← _strict_bool (dgetn "require_consistent" plan) "require_consistent";
      baseline ← _strict_bool (dgetn "baseline_created" plan) "baseline_created";
      Ok (RecoveryPlan checkpoint recovery scrub consistent baseline)
  end.

(** What the constructor has made and nothing changes. *)
Record bound := Bound {
  b_plan : recovery_plan;
  b_store_root : pure_path;
  b_recovery : dict;                (* self._config_document["recovery"] *)
  b_document : dict;                (* self._config_document *)
  b_encoded : string }.

(** ** The file-system scope, as the daemon sees it *)

Definition hex_space (c : ascii) : bool := in_range "009" "013" c || bool_decide (c = " "%char).

(** [bytes.fromhex], of lowercase digits: spaces between two bytes are skipped. *)
Fixpoint fromhex (s : string) : option string :=
  match s with
  | EmptyString => Some EmptyString
  | String a s' =>
      if hex_space a then fromhex s'
      else
        match s' with
        | String b t =>
            if is_hex a && is_hex b then
              x ← hex_value a; y ← hex_value b;
              String (ascii_of_N (16 * x + y)) <$> fromhex t
            else None
        | EmptyString => None
        end
  end.

(** [bytes.hex] *)
Definition to_hex (s : string) : string :=
  string_concat_map (fun c =>
    String (hex_digit (ascii_n c / 16)%N) (String (hex_digit (ascii_n c mod 16)%N) EmptyString)) s.

Definition scope_error (s : string) : exn := effects_error ("filesystem " +:+ s).

(** The path a root of the scope names. *)
Definition root_bytes (root : pyval) : result string :=
  match root with
  | PDict d =>
      raise_if (negb (has_keys d ["path_bytes_hex"])) (scope_error "root schema is invalid");;
      match dgetn "path_bytes_hex" d with
      | PStr encoded =>
          raise_if (negb (Nat.even (String.length encoded))) (scope_error "root encoding is invalid");;
          match fromhex encoded with
          | Some path =>
              raise_if (negb (starts_with "/" path) || char_in "000" path)
                (scope_error "root must be absolute");;
              Ok path
          | None => Err (scope_error "root encoding is invalid")
          end
      | _ => Err (scope_error "root encoding is invalid")
      end
  | _ => Err (scope_error "root schema is invalid")
  end.

(** [mapping.get(path, path)] *)
Definition mapped (workspace shared path : string) : string :=
  if str_eqb path "/workspace" then workspace
  else if str_eqb path "/agent/shared" then shared
  else path.

Definition hex_object (s : string) : pyval := PDict [("path_bytes_hex", PStr s)].

Definition rewrite_roots (workspace shared : string) (roots : list pyval) : result (list pyval) :=
  rewritten ← mapM (fun root => path ← root_bytes root; Ok (to_hex (mapped workspace shared path))) roots;
  raise_if (negb (bool_decide (NoDup rewritten))) (effects_error "mapped filesystem roots are not unique");;
  Ok (hex_object <$> sort_strings rewritten).

(** ** What the observer and the verifier must say *)

Section checks.
Context (config : SystemEffectsConfig) (binding : RunBinding) (sha256 : string -> string).
Context (plan : recovery_plan).

Definition version : pyval := PInt RECOVERY_PROTOCOL_VERSION.

(** The fields that every message and artifact of the run has. *)
Definition bound_to_run (d : dict) : bool :=
  field_is d "protocol_version" version && field_is d "run_id" (run_id binding)
  && field_is d "epoch" (epoch binding)
  && field_is d "checkpoint_id" (PStr (checkpoint_id plan))
  && field_is d "recovery_id" (PStr (recovery_id plan)).

(** The last condition of [_validate_common]. *)
Definition other_nonce (message : dict) (nonce : option pyval) : result bool :=
  match nonce, dgetn "nonce" message with
  | Some v, PStr m => same ← compare_digest m v; Ok (negb same)
  | _, _ => Ok false
  end.

Definition _validate_common (message : dict) (keys : list string) (status : string) (sequence : Z)
    (nonce : option pyval) : result unit :=
  raise_if (negb (has_keys message keys)) (observer_error (status +:+ " schema mismatch"));;
  if negb (bound_to_run message) || negb (field_is message "status" (PStr status))
     || negb (field_is message "command_seq" (PInt sequence)) || negb (digest_field message "nonce")
  then Err (observer_error (status +:+ " binding mismatch"))
  else
    other ← other_nonce message nonce;
    raise_if other (observer_error (status +:+ " binding mismatch")).

(** [hmac.compare_digest(digest, d[key])] *)
Definition same_digest (digest : string) (d : dict) (key what : string) : result unit :=
  v ← dindex key d;
  same ← compare_digest digest v;
  raise_if (negb same) (observer_error what).

Definition namespace_bindings : list (string * option Z) :=
  [("mount_namespace_ids", Some (mount_namespace_id binding));
   ("net_namespace_ids", Some (network_namespace_id binding));
   ("pid_namespace_ids", None); ("uts_namespace_ids", None); ("ipc_namespace_ids", None)].

(** Positive integers in ascending order, without repetitions. *)
Fixpoint ascending (l : list pyval) (above : Z) : bool :=
  match l with
  | [] => true
  | PInt z :: l => (above <? z) && ascending l z
  | _ => false
  end.

Definition namespaces_valid (v : pyval) (required : option Z) : bool :=
  match v with
  | PList (x :: l) =>
      ascending (x :: l) 0 &&
      match required with Some n => existsb (fun w => py_eqb w (PInt n)) (x :: l) | None => true end
  | _ => false
  end.

(** [d[a] <= d[b]], of two integers. *)
Definition int_le (v w : pyval) : bool :=
  match v, w with PInt a, PInt b => a <=? b | _, _ => false end.

Definition nonempty_string (v : pyval) : bool :=
  match v with PStr s => negb (str_eqb s EmptyString) | _ => false end.

Definition _validate_snapshot (snapshot : dict) (phase : string) (legacy : dict) : result unit :=
  let error what := observer_error ("snapshot " +:+ phase +:+ " " +:+ what) in
  raise_if (negb (has_keys snapshot _SNAPSHOT_KEYS)) (error "schema mismatch");;
  scope ← dindex "deployment_scope_sha256" legacy;
  capability ← dindex "cgroup_scope_capability" legacy;
  capability_sha ← dindex "cgroup_scope_capability_sha256" legacy;
  raise_if (negb (field_is snapshot "schema_version" (PInt 1)) || negb (bound_to_run snapshot)
            || negb (field_is snapshot "phase" (PStr phase))
            || negb (nonempty_string (dgetn "snapshot_id" snapshot))
            || negb (_valid_nonnegative_integer (dgetn "capture_started_unix_ns" snapshot))
            || negb (_valid_nonnegative_integer (dgetn "capture_completed_unix_ns" snapshot))
            || negb (int_le (dgetn "capture_started_unix_ns" snapshot)
                       (dgetn "capture_completed_unix_ns" snapshot))
            || negb (field_is snapshot "boot_id" (PStr (boot_id binding)))
            || negb (field_is snapshot "deployment_scope_sha256" scope)
            || negb (field_is snapshot "cgroup_scope_capability" capability)
            || negb (field_is snapshot "cgroup_scope_capability_sha256" capability_sha)
            || negb (field_is snapshot "root_cgroups"
                       (PList [PDict [("cgroup_id", PInt (cgroup_id binding));
                                      ("path", PStr (cgroup_relative_path binding))]])))
    (error "binding mismatch");;
  check_all (fun '(key, required) =>
    raise_if (negb (namespaces_valid (dgetn key snapshot) required)) (error (key +:+ " is invalid")))
    namespace_bindings;;
  check_all (fun key => raise_if (negb (digest_field snapshot key)) (error (key +:+ " is invalid")))
    ["barrier_sha256"; "identity_assessment_sha256"];;
  check_all (fun '(key, enabled) =>
    raise_if (xorb (negb (is_none (dgetn key snapshot))) enabled) (error (key +:+ " scope mismatch")))
    [("bpf", some_scope (bpf_state_scope config));
     ("filesystem", some_scope (filesystem_state_scope config));
     ("linux", some_scope (linux_state_scope config))].

Definition _validate_recovery_evidence (recovery evidence : dict) : result unit :=
  raise_if (negb (field_is evidence "schema_version" (PInt 1))
            || negb (field_is evidence "mechanism" (PStr "DIRECT_EXEC_NO_SHELL"))
            || negb (field_is evidence "checkpoint_id" (PStr (checkpoint_id plan)))
            || negb (field_is evidence "recovery_id" (PStr (recovery_id plan)))
            || negb (field_is evidence "executable_path" (dgetn "executable_path" recovery))
            || negb (field_is evidence "argv" (dgetn "argv" recovery))
            || negb (field_is evidence "timeout_ms" (dgetn "timeout_ms" recovery))
            || negb (field_is evidence "max_output_bytes" (dgetn "max_output_bytes" recovery))
            || negb (field_is evidence "expected_executable_sha256" (dgetn "expected_sha256" recovery))
            || negb (match dgetn "success" evidence with PBool _ => true | _ => false end))
    (observer_error "evidence does not bind the configured helper").

(** *** The terminal artifacts *)

(** [PurePosixPath(name).name] *)
Definition pure_name (s : string) : string := List.last (p_parts (parse_path s)) EmptyString.

(** The entries of the manifest by name, each with its digest and size. *)
Fixpoint collect (entries : list pyval) (found : dict) : result dict :=
  match entries with
  | [] => Ok found
  | PDict entry :: entries =>
      raise_if (negb (has_keys entry ["relative_path"; "size_bytes"; "sha256"]))
        (observer_error "manifest artifact schema mismatch");;
      match dgetn "relative_path" entry with
      | PStr name =>
          raise_if (negb (str_eqb (pure_name name) name) || dhas name found
                    || negb (_valid_nonnegative_integer (dgetn "size_bytes" entry))
                    || negb (digest_field entry "sha256"))
            (observer_error "manifest artifact is invalid");;
          collect entries (dset name (PList [dgetn "sha256" entry; dgetn "size_bytes" entry]) found)
      | _ => Err (observer_error "manifest artifact is invalid")
      end
  | _ => Err (observer_error "manifest artifact schema mismatch")
  end.

(** The entry that commits to an artifact that was read. *)
Definition commits (found : dict) (name : string) (a : _StableArtifact) : bool :=
  field_is found name (PList [PStr (a_digest a); PInt (a_size a)]).

(** [common] *)
Definition common_verdict (verdict : dict) : result bool :=
  if bound_to_run verdict && field_is verdict "schema_version" (PInt 1)
  then in_set (dgetn "verdict" verdict) _VERDICTS else Ok false.

Definition binds_snapshot (verdict : dict) (letter : string) (a : _StableArtifact) : bool :=
  field_is verdict ("snapshot_" +:+ letter +:+ "_sha256") (PStr (a_digest a))
  && field_is verdict ("snapshot_" +:+ letter +:+ "_id") (dgetn "snapshot_id" (a_value a)).

(** [_validate_terminal_artifacts] after the two artifacts were read. *)
Definition check_terminal `{FloatText} (recovery legacy terminal : dict)
    (verdict manifest a b c : _StableArtifact) : result unit :=
  same_digest (a_digest verdict) terminal "verdict_sha256" "verdict digest mismatch";;
  same_digest (a_digest manifest) terminal "artifact_manifest_sha256" "manifest digest mismatch";;
  let v := a_value verdict in
  let m := a_value manifest in
  raise_if (negb (has_keys v _VERDICT_KEYS)) (observer_error "verdict schema mismatch");;
  raise_if (negb (has_keys m _MANIFEST_KEYS)) (observer_error "manifest schema mismatch");;
  common ← common_verdict v;
  raise_if (negb common) (observer_error "verdict binding mismatch");;
  raise_if (negb (binds_snapshot v "a" a) || negb (binds_snapshot v "b" b) || negb (binds_snapshot v "c" c))
    (observer_error "verdict snapshot mismatch");;
  encoded ← _wire_json (PDict recovery);
  scope ← dindex "deployment_scope_sha256" legacy;
  raise_if (negb (bound_to_run m)
            || negb (field_is m "deployment_scope_sha256" scope)
            || negb (field_is m "recovery_config_sha256" (PStr (sha256 encoded)))
            || negb (field_is m "recovery_verdict_sha256" (PStr (a_digest verdict)))
            || negb (field_is m "snapshot_a_sha256" (PStr (a_digest a)))
            || negb (field_is m "snapshot_b_sha256" (PStr (a_digest b)))
            || negb (field_is m "snapshot_c_sha256" (PStr (a_digest c)))
            || negb (_valid_nonnegative_integer (dgetn "committed_artifact_total_bytes" m)))
    (observer_error "manifest binding mismatch");;
  match dgetn "artifacts" m with
  | PList entries =>
      found ← collect entries [];
      raise_if (negb (commits found "recovery-verdict.json" verdict && commits found "snapshot-a.json" a
                      && commits found "snapshot-b.json" b && commits found "snapshot-c.json" c))
        (observer_error "manifest lacks required endpoint evidence")
  | _ => Err (observer_error "manifest has no artifact list")
  end.

Definition RECOVERY_VERIFIER : string := "deployment-observe-recovery-verify".

Definition _validate_recovery_verification (verification terminal verdict manifest : dict) : result unit :=
  raise_if (negb (has_keys verification _VERIFICATION_KEYS))
    (WorkspaceError (RECOVERY_VERIFIER +:+ " result schema mismatch"));;
  v ← dindex "verdict" verdict;
  total ← dindex "committed_artifact_total_bytes" manifest;
  sha ← dindex "verdict_sha256" terminal;
  recorded ← dindex "recovery_verdict_sha256" manifest;
  count ← match dgetn "artifacts" manifest with
          | PList l => Ok (Z.of_nat (length l))
          | _ => Err TypeError
          end;
  raise_if (negb (field_is verification "schema_version" (PInt 1)) || negb (bound_to_run verification)
            || negb (is_true (dgetn "verified" verification))
            || negb (field_is verification "verdict" v)
            || negb (is_true (dgetn "endpoint_replay_verified" verification))
            || negb (is_true (dgetn "recorder_wal_replay_verified" verification))
            || negb (_valid_nonnegative_integer (dgetn "artifact_count" verification))
            || negb (_valid_nonnegative_integer (dgetn "committed_artifact_total_bytes" verification))
            || negb (field_is verification "artifact_count" (PInt count))
            || negb (field_is verification "committed_artifact_total_bytes" total)
            || negb (py_eqb sha recorded))
    (WorkspaceError (RECOVERY_VERIFIER +:+ " did not verify the exact run")).

(** [_command] *)
Definition _command (kind : string) (sequence : Z) (nonce : pyval) : dict :=
  [("command", PStr kind); ("protocol_version", version); ("run_id", run_id binding);
   ("epoch", epoch binding); ("checkpoint_id", PStr (checkpoint_id plan));
   ("recovery_id", PStr (recovery_id plan)); ("command_seq", PInt sequence); ("nonce", nonce)].
End checks.

(** ** The methods *)

Section recovery.
Context `{FloatText} `{Host}.
Context (config : SystemEffectsConfig) (binding : RunBinding) (sha256 : string -> string).
Context (me : nat) (this_thread : option thread) (others : list hcall -> run -> run).

#[local] Abbreviation act := (Observer.act others).
#[local] Abbreviation locked := (Observer.locked others).
#[local] Abbreviation read_artifact :=
  (fun name => _read_json_artifact sha256 others (_evidence_directory binding) name MAX_ARTIFACT_JSON_BYTES).

Definition expectation_file : string := "system-effects-recovery-verification-expectation.json".
Definition verification_file : string := "system-effects-recovery-verification.json".
Definition receipt_file : string := "system-effects-recovery-receipt.json".

(** The attributes of a recovery run. *)
Definition set_terminal_seen (e : extra) : extra := Extra (_maxsize e) true (_agent_start_claimed e)
  (_legacy_ready e) (_agent_started_message e) (_snapshots e) (_recovery_helper_succeeded e).
Definition set_start_claimed (e : extra) : extra := Extra (_maxsize e) (_terminal_seen e) true
  (_legacy_ready e) (_agent_started_message e) (_snapshots e) (_recovery_helper_succeeded e).
Definition set_legacy m (e : extra) : extra := Extra (_maxsize e) (_terminal_seen e)
  (_agent_start_claimed e) (Some m) (_agent_started_message e) (_snapshots e) (_recovery_helper_succeeded e).
Definition set_started m (e : extra) : extra := Extra (_maxsize e) (_terminal_seen e)
  (_agent_start_claimed e) (_legacy_ready e) (Some m) (_snapshots e) (_recovery_helper_succeeded e).
Definition add_snapshot phase a (e : extra) : extra := Extra (_maxsize e) (_terminal_seen e)
  (_agent_start_claimed e) (_legacy_ready e) (_agent_started_message e) ((phase, a) :: _snapshots e)
  (_recovery_helper_succeeded e).
Definition set_helper b (e : extra) : extra := Extra (_maxsize e) (_terminal_seen e)
  (_agent_start_claimed e) (_legacy_ready e) (_agent_started_message e) (_snapshots e) (Some b).

Definition new_recovery_run (audit : directory) : run :=
  Run [] [] STARTING None false false None None None None None false false false audit
    (new_extra RECOVERY_MAXSIZE).

(** [self._snapshots[phase]] *)
Definition snapshot_of (phase : string) : R _StableArtifact :=
  snapshots ← read (fun r => _snapshots (more r));
  match list_find (fun p => p.1 = phase) snapshots with
  | Some (_, (_, a)) => mret a
  | None => throw KeyError
  end.

(** *** The constructor *)

Definition _bind_store_root (store : option pure_path) : R pure_path :=
  match store with
  | None => throw (effects_error "recovery requires a WorkspaceStore root")
  | Some root =>
      '(resolved, m) ← wrapping is_os_error "system-effects store root is unavailable"
        (resolved ← act (HResolve root); m ← act (HLstat root); mret (resolved, m));
      throw_when (negb (is_absolute root) || negb (bool_decide (resolved = root)) || negb (S_ISDIR (st_mode m)))
        (effects_error "store root must be a canonical existing directory");;
      mret root
  end.

(** [resolved.relative_to(root)] raises for a path outside. *)
Definition _trusted_store_directory (root candidate : pure_path) (label : string) : R pure_path :=
  '(resolved, m) ← wrapping (fun e => is_os_error e || is_value_error e)
    ("system-effects " +:+ label +:+ " is not a trusted store directory")
    (resolved ← act (HResolve candidate);
     m ← act (HLstat candidate);
     throw_when (negb (path_contains root resolved))
       (ValueError (str_repr (path_str resolved) +:+ " is not in the subpath of "
                    +:+ str_repr (path_str root)));;
     mret (resolved, m));
  throw_when (negb (bool_decide (resolved = candidate)) || negb (S_ISDIR (st_mode m)))
    (effects_error (label +:+ " must be a canonical store directory"));;
  mret candidate.

(** A path of the store, which [StoreFiles.v] has relative to the root. *)
Definition in_store (root : pure_path) (p : path) : pure_path := fold_left path_child p root.

Definition _mapped_filesystem_scope (root : pure_path) : R (option dict) :=
  scope ← lift (_json_clone (opt_dict (filesystem_state_scope config)));
  match scope with
  | PNone => mret None
  | PDict scope =>
      match dgetn "roots" scope with
      | PList (x :: roots) =>
          p ← lift (current (rb_agent_id binding) (rb_session_id binding));
          workspace ← _trusted_store_directory root (in_store root p) "Session workspace";
          q ← lift (agent_shared (rb_agent_id binding));
          shared ← _trusted_store_directory root (in_store root q) "Agent shared workspace";
          rewritten ← lift (rewrite_roots (path_str workspace) (path_str shared) (x :: roots));
          mret (Some (dset "roots" (PList rewritten) scope))
      | _ => throw (effects_error "filesystem scope has no roots")
      end
  | _ => throw (effects_error "recovery requires an explicit filesystem state scope")
  end.

(** [recovery], in the configuration of the observer *)
Definition recovery_section (plan : recovery_plan) (root helper : pure_path) (helper_sha256 : string) : dict :=
  [("checkpoint_id", PStr (checkpoint_id plan));
   ("recovery_id", PStr (recovery_id plan));
   ("executable_path", PStr (path_str helper));
   ("expected_sha256", PStr helper_sha256);
   ("argv", PList (PStr <$>
     ["--store-root"; path_str root; "--agent-id"; rb_agent_id binding;
      "--session-id"; rb_session_id binding; "--checkpoint-id"; checkpoint_id plan;
      "--recovery-id"; recovery_id plan;
      "--scrub-runtime"; if scrub_runtime plan then "true" else "false"]));
   ("timeout_ms", PInt (recovery_timeout_ms config));
   ("max_output_bytes", PInt (recovery_max_output_bytes config))].

Definition _build_observer_config (plan : recovery_plan) (root : pure_path) : R (dict * dict) :=
  match recovery_helper_path config, recovery_helper_sha256 config with
  | Some helper, Some sha =>
      let recovery := recovery_section plan root helper sha in
      filesystem_scope ← _mapped_filesystem_scope root;
      bpf ← lift (_json_clone (opt_dict (bpf_state_scope config)));
      linux ← lift (_per_run_linux_state_scope config binding);
      mret (recovery,
        [("protocol_version", version);
         ("deployment", PDict
            [("deployment_kind", PStr "DIRECT");
             ("configuration", PDict
                [("root_pid", PInt (root_pid binding));
                 ("expected_cgroup_path", PStr (cgroup_relative_path binding));
                 ("require_dedicated_cgroup", PBool true);
                 ("limits", PDict
                    [("max_proc_entries", PInt 131072); ("max_cgroup_nodes", PInt 4096);
                     ("max_cgroup_depth", PInt 64); ("max_open_fds_per_process", PInt 8192)])])]);
         ("recorder_object_path", PStr (path_str (recorder_object_path config)));
         ("recorder_object_sha256", PStr (recorder_object_sha256 config));
         ("lifecycle_object_path", PStr (path_str (lifecycle_object_path config)));
         ("lifecycle_object_sha256", PStr (lifecycle_object_sha256 config));
         ("output_directory", PStr (path_str (_evidence_directory binding)));
         ("run_id", run_id binding);
         ("epoch", epoch binding);
         ("profile", PStr (profile config));
         ("object_resolution_mode", PStr (object_resolution_mode config));
         ("bpf_state_scope", bpf);
         ("filesystem_state_scope", opt_dict filesystem_scope);
         ("filesystem_namespace_mode",
           PStr (match filesystem_scope with Some _ => "OBSERVER" | None => "DEPLOYMENT" end));
         ("linux_state_scope", linux);
         ("recovery", PDict recovery);
         ("poll_interval_ms", PInt (poll_interval_ms config));
         ("drain_timeout_ms", PInt (drain_timeout_ms config))])
  | _, _ => throw AssertionError
  end.

(** *** The reader of the observer's messages *)

Definition read_turn (i : input) : R bool :=
  match i with
  | ReadError => _publish_failure others "deployment-observe recovery stdout read failed";; mret false
  | Eof =>
      expected ← locked (fun r => _expected_shutdown r || _terminal_seen (more r)) (fun r => r);
      (if (expected : bool) then mret ()
       else _publish_failure others "deployment-observe recovery exited unexpectedly");;
      mret false
  | Line s =>
      if (MAX_PROTOCOL_LINE_BYTES <? Z.of_nat (String.length s)) || negb (ends_with_char "010" s) then
        _publish_failure others "deployment-observe recovery response exceeded protocol bound";; mret false
      else
        match loads_bytes s with
        | Err JSONDecodeError =>
            _publish_failure others "deployment-observe recovery returned invalid JSON";; mret false
        | Err e => throw e
        | Ok (PDict message) =>
            (if field_is message "status" (PStr "FINISHED")
             then locked (fun _ => ()) (change_more set_terminal_seen) else mret ());;
            full ← locked (fun r => (_maxsize (more r) <=? length (_messages r))%nat)
                     (put_item (Message message));
            if (full : bool) then
              _publish_failure others "deployment-observe recovery sent unsolicited messages";; mret false
            else mret true
        | Ok _ =>
            _publish_failure others "deployment-observe recovery response must be a JSON object";; mret false
        end
  end.

Fixpoint _read_stdout (inputs : list input) : R unit :=
  match inputs with
  | [] => mret ()
  | i :: inputs => go_on ← read_turn i; if (go_on : bool) then _read_stdout inputs else mret ()
  end.

(** *** Messages and snapshots *)

Definition _receive_status (deadline : Z) (expected : string) : R dict :=
  message ← _receive others deadline expected;
  throw_when (negb (field_is message "status" (PStr expected)))
    (observer_error ("sent " +:+ py_repr (dgetn "status" message) +:+ "; expected " +:+ expected));;
  mret message.

Definition _validate_snapshot_barrier (snapshot : dict) (barrier_name validation_name : string) : R unit :=
  barrier ← read_artifact barrier_name;
  validation ← read_artifact validation_name;
  lift (b ← match dgetn "barrier_sha256" snapshot with
            | PStr s => compare_digest s (PStr (a_digest barrier))
            | _ => Err TypeError
            end;
        v ← match dgetn "identity_assessment_sha256" snapshot with
            | PStr s => compare_digest s (PStr (a_digest validation))
            | _ => Err TypeError
            end;
        raise_if (negb b || negb v) (observer_error "snapshot boundary digest mismatch")).

(** Reading the snapshot of a phase, whose digest the message gives, and the two
    files that say how it was bounded. *)
Definition take_snapshot (plan : recovery_plan) (phase name key : string) (message legacy : dict)
    (barrier_name validation_name : string) : R unit :=
  snapshot ← read_artifact name;
  lift (same_digest (a_digest snapshot) message key ("snapshot " +:+ phase +:+ " digest mismatch"));;
  lift (_validate_snapshot config binding plan (a_value snapshot) phase legacy);;
  _validate_snapshot_barrier (a_value snapshot) barrier_name validation_name;;
  modify (change_more (add_snapshot phase snapshot)).

Definition digest_required (message : dict) (key what : string) : R unit :=
  throw_when (negb (digest_field message key)) (observer_error what).

Definition _validate_recovery_ready (plan : recovery_plan) (ready : dict) : R unit :=
  lift (_validate_common binding plan ready _READY_KEYS "READY" 1 None);;
  digest_required ready "snapshot_a_sha256" "READY A digest is invalid";;
  committed ← read_artifact "recovery-ready-message.json";
  throw_when (negb (py_eqb (PDict (a_value committed)) (PDict ready)))
    (observer_error "READY differs from committed evidence");;
  legacy ← read_artifact "ready-message.json";
  _validate_ready config binding sha256 others (a_value legacy);;
  modify (change_more (set_legacy (a_value legacy)));;
  take_snapshot plan "A" "snapshot-a.json" "snapshot_a_sha256" ready (a_value legacy)
    "ready-barrier.json" "ready-validation.json".

Definition assert_healthy : R unit :=
  '(process, reason, phase, queued) ←
    locked (fun r => (_process r, _failure_reason r, _phase r, negb (bool_decide (_messages r = []))))
      (fun r => r);
  let unhealthy := WorkspaceError ("system-effects recovery Observer is not live and healthy"
                     +:+ match reason with Some s => ": " +:+ s | None => EmptyString end) in
  match reason, process with
  | None, Some _ =>
      throw_when (negb (bool_decide (phase = READY)) && negb (bool_decide (phase = AGENT_RUNNING))) unhealthy;;
      code ← act (HPoll Observer);
      throw_when (match code with Some _ => true | None => false end || queued) unhealthy
  | _, _ => throw unhealthy
  end.

(** The locked part that takes READY for good; there is no nonce to finish with. *)
Definition keep_ready (m : dict) (r : run) : run :=
  Run (_messages r) (_diagnostics r) READY (_failure_reason r) (_failure_reported r) (_expected_shutdown r)
    (_finish_claimed r) (_final_result r) (Some m) (_finish_nonce r) (_process r) (_verifier_process r)
    (_reader r) (_retired r) (audit r) (more r).

Definition accept_ready (ready : dict) : R unit :=
  yield others;;
  reason ← read _failure_reason;
  match reason with
  | Some reason => throw (WorkspaceError reason)
  | None => modify (keep_ready ready)
  end.

Definition observer_argv : list string :=
  [path_str (observer_path config); "--config"; audit_file binding config_file].

Definition spawn_observer : R unit :=
  catch (pid ← act (HSpawn Observer observer_argv); modify (set_process pid)) (fun e =>
    if is_os_error e then
      _set_failed others "failed to start deployment-observe recovery";;
      _retire others;;
      throw (WorkspaceError ("failed to start deployment-observe recovery: " +:+ exn_str e))
    else throw e).

Definition expectation (document : dict) (manifest verdict : pyval) : pyval :=
  PDict [("expected_config", PDict document); ("expected_artifact_manifest_sha256", manifest);
         ("expected_recovery_verdict_sha256", verdict)].

(** The text of the configuration, within its bound. *)
Definition encode_config (document : dict) : result string :=
  encoded ← canonical_line (PDict document);
  raise_if (MAX_CONFIG_BYTES <? Z.of_nat (String.length encoded))
    (WorkspaceError "system-effects Observer config exceeds the 1 MiB bound");;
  probe ← canonical_line (expectation document zeros zeros);
  raise_if (MAX_CONFIG_BYTES <? Z.of_nat (String.length probe))
    (WorkspaceError "system-effects recovery verifier expectation exceeds the 1 MiB bound");;
  Ok encoded.

(** [__init__] from the recovery plan on *)
Definition start (ctx : run_context) (store : option pure_path) : R bound :=
  plan ← lift (_bind_recovery ctx);
  root ← _bind_store_root store;
  there ← act (HExists (_evidence_directory binding));
  link ← (if (there : bool) then mret true else act (HIsSymlink (_evidence_directory binding)));
  throw_when link (WorkspaceError "system-effects evidence directory already exists");;
  '(recovery, document) ← _build_observer_config plan root;
  encoded ← lift (encode_config document);
  _write_new_file binding others config_file encoded;;
  spawn_observer;;
  modify set_reader;;
  act (HStartThread StdoutReader);;
  act (HStartThread StderrReader);;
  unwinding
    (t ← act HClock;
     ready ← _receive_status (t + float_ns (ready_timeout config)) "READY";
     _validate_recovery_ready plan ready;;
     accept_ready ready;;
     assert_healthy)
    (close_unverified this_thread others);;
  mret (Bound plan root recovery document encoded).

(** *** Commands *)

Definition _send_recovery_command (command : dict) (close : bool) : R unit :=
  t ← lift (_wire_json (PDict command));
  let encoded := t +:+ String "010" EmptyString in
  throw_when (MAX_PROTOCOL_LINE_BYTES <? Z.of_nat (String.length encoded))
    (observer_error "command exceeds protocol bound");;
  catch (if close then act (HStdin encoded) else act (HStdinWrite encoded)) (fun e =>
    if is_os_error e then throw (observer_error "control channel failed") else throw e).

Context (b : bound).
#[local] Abbreviation plan := (b_plan b).

(** The locked part of [agent_started]: nothing to do, or the READY message. *)
Definition claim_start : R (option dict) :=
  yield others;;
  r ← read (fun r => r);
  if bool_decide (_phase r = AGENT_RUNNING) && is_some (_agent_started_message (more r)) then mret None
  else
    throw_when (negb (bool_decide (_phase r = READY)) || is_some (_failure_reason r))
      (recovery_error "Observer is not ready for AGENT_STARTED");;
    throw_when (_agent_start_claimed (more r)) (recovery_error "AGENT_STARTED is already in progress");;
    modify (fun r => set_phase AGENT_STARTING (change_more set_start_claimed r));;
    match _ready r with Some ready => mret (Some ready) | None => throw AssertionError end.

(** The locked part that takes the acknowledgement for good. *)
Definition accept_started (response : dict) : R unit :=
  yield others;;
  reason ← read _failure_reason;
  match reason with
  | Some reason => throw (WorkspaceError reason)
  | None => modify (fun r => set_phase AGENT_RUNNING (change_more (set_started response) r))
  end.

(** The [try] of [agent_started]. *)
Definition announce_agent (command : dict) (deadline : Z) : R unit :=
  _send_recovery_command command false;;
  response ← _receive_status deadline "AGENT_STARTED";
  lift (_validate_common binding plan response _AGENT_STARTED_KEYS "AGENT_STARTED" 2 None);;
  digest_required response "agent_started_sha256" "AGENT_STARTED digest is invalid";;
  text ← lift (_wire_json (PDict command));
  lift (match dgetn "agent_started_sha256" response with
        | PStr s => same ← compare_digest s (PStr (sha256 text));
                    raise_if (negb same) (observer_error "AGENT_STARTED command digest mismatch")
        | _ => Err TypeError
        end);;
  committed ← read_artifact "agent-started.json";
  throw_when (negb (py_eqb (PDict (a_value committed)) (PDict response)))
    (observer_error "AGENT_STARTED differs from evidence");;
  accept_started response.

(** The [except] of both commands. *)
Definition command_failed (what name : string) : R unit :=
  _set_failed others ("system-effects recovery " +:+ what +:+ " failed: " +:+ name);;
  _shutdown this_thread others.

Definition agent_started : R unit :=
  claimed ← claim_start;
  match claimed with
  | None => mret ()
  | Some ready =>
      nonce ← lift (dindex "nonce" ready);
      let command := _command binding plan "AGENT_STARTED" 1 nonce in
      t ← act HClock;
      failing (announce_agent command (t + float_ns (ready_timeout config))) (command_failed "AGENT_STARTED")
  end.

(** *** Finishing *)

Definition message_checked (deadline : Z) (keys : list string) (status : string) (sequence : Z)
    (nonce : option pyval) : R dict :=
  message ← _receive_status deadline status;
  lift (_validate_common binding plan message keys status sequence nonce);;
  mret message.

(** [self._legacy_ready], which the constructor has set. *)
Definition legacy_ready : R dict :=
  legacy ← read (fun r => _legacy_ready (more r));
  match legacy with Some d => mret d | None => throw AssertionError end.

(** Up to snapshot B. *)
Definition before_restore (deadline : Z) (nonce : pyval) : R unit :=
  _send_recovery_command (_command binding plan "PRE_RESTORE" 2 nonce) false;;
  message ← message_checked deadline _SNAPSHOT_B_KEYS "SNAPSHOT_B" 2 (Some nonce);
  digest_required message "pre_restore_sha256" "SNAPSHOT_B pre_restore_sha256 is invalid";;
  digest_required message "snapshot_b_sha256" "SNAPSHOT_B snapshot_b_sha256 is invalid";;
  validation ← read_artifact "pre-restore-validation.json";
  lift (same_digest (a_digest validation) message "pre_restore_sha256"
          "PRE_RESTORE validation digest mismatch");;
  legacy ← legacy_ready;
  take_snapshot plan "B" "snapshot-b.json" "snapshot_b_sha256" message legacy
    "pre-restore-barrier.json" "pre-restore-validation.json".

(** Up to the end of the helper. *)
Definition restoring (deadline : Z) (nonce : pyval) : R unit :=
  restored ← message_checked deadline _RESTORE_COMPLETE_KEYS "RESTORE_COMPLETE" 2 (Some nonce);
  digest_required restored "recovery_sha256" "RESTORE_COMPLETE digest is invalid";;
  evidence ← _read_json_artifact sha256 others (_evidence_directory binding) "recovery.json"
    (MAX_ARTIFACT_JSON_BYTES + 4 * recovery_max_output_bytes config);
  lift (same_digest (a_digest evidence) restored "recovery_sha256" "evidence digest mismatch");;
  lift (_validate_recovery_evidence plan (b_recovery b) (a_value evidence));;
  modify (change_more (set_helper (is_true (dgetn "success" (a_value evidence))))).

(** Up to snapshot C; its nonce goes on. *)
Definition after_restore (deadline : Z) : R pyval :=
  message ← message_checked deadline _SNAPSHOT_C_KEYS "SNAPSHOT_C" 3 None;
  digest_required message "snapshot_c_sha256" "SNAPSHOT_C digest is invalid";;
  legacy ← legacy_ready;
  take_snapshot plan "C" "snapshot-c.json" "snapshot_c_sha256" message legacy
    "post-restore-barrier.json" "post-restore-validation.json";;
  lift (dindex "nonce" message).

(** Up to the end of the observer. *)
Definition concluded (deadline : Z) (nonce : pyval) : R dict :=
  _send_recovery_command (_command binding plan "FINISH" 3 nonce) true;;
  terminal ← message_checked deadline _FINISHED_KEYS "FINISHED" 3 (Some nonce);
  digest_required terminal "verdict_sha256" "FINISHED verdict_sha256 is invalid";;
  digest_required terminal "artifact_manifest_sha256" "FINISHED artifact_manifest_sha256 is invalid";;
  locked (fun _ => ()) (set_phase TERMINAL_RECEIVED);;
  _require_observer_exit others deadline;;
  mret terminal.

Definition _validate_terminal_artifacts (terminal : dict) : R (_StableArtifact * _StableArtifact) :=
  verdict ← read_artifact "recovery-verdict.json";
  manifest ← read_artifact "recovery-artifact-manifest.json";
  sa ← snapshot_of "A"; sb ← snapshot_of "B"; sc ← snapshot_of "C";
  legacy ← legacy_ready;
  lift (check_terminal binding sha256 plan (b_recovery b) legacy terminal verdict manifest sa sb sc);;
  mret (verdict, manifest).

Definition verifier_argv (verifier : pure_path) : list string :=
  [path_str verifier; "--artifacts"; path_str (_evidence_directory binding);
   "--expectation"; audit_file binding expectation_file].

Definition _run_recovery_verifier (deadline : Z) : R (dict * string) :=
  match recovery_verifier_path config with
  | Some verifier =>
      run_program others RECOVERY_VERIFIER "recovery offline verification timed out"
        (verifier_argv verifier) deadline
  | None => throw AssertionError
  end.

(** The observer is gone; its artifacts are checked, here and by the verifier. *)
Definition verified (deadline : Z) (terminal : dict) : R dict :=
  '(verdict, manifest) ← _validate_terminal_artifacts terminal;
  manifest_sha ← lift (dindex "artifact_manifest_sha256" terminal);
  verdict_sha ← lift (dindex "verdict_sha256" terminal);
  expected ← lift (canonical_line (expectation (b_document b) manifest_sha verdict_sha));
  _write_new_file binding others expectation_file expected;;
  '(verification, bytes) ← _run_recovery_verifier deadline;
  lift (_validate_recovery_verification binding plan verification terminal
          (a_value verdict) (a_value manifest));;
  _write_new_file binding others verification_file bytes;;
  mret verification.

Definition not_applicable : dict :=
  [("cleanup_status", PStr "NOT_APPLICABLE"); ("cleanup_completed", PBool false);
   ("cleanup_pending", PNone); ("reason", PStr "RECOVERY_HELPER_FAILED")].

(** The workspace of before the rollback is deleted only here. *)
Definition clean_up (succeeded : bool) : R dict :=
  if succeeded then
    cleanup ← act (HCleanup (rb_agent_id binding) (rb_session_id binding) (recovery_id plan));
    match cleanup with
    | PDict d =>
        throw_when (negb (is_true (dgetn "cleanup_completed" d)))
          (effects_error "deferred rollback cleanup did not complete");;
        mret d
    | _ => throw (effects_error "deferred rollback cleanup did not complete")
    end
  else mret not_applicable.

Definition release_allowed (verdict : pyval) : bool :=
  py_eqb verdict (PStr "CONSISTENT_WITHIN_SCOPE") || negb (require_consistent plan).

Definition _build_receipt (outcome : string) (barrier terminal verification cleanup : dict)
    (succeeded : bool) : result dict :=
  verdict ← dindex "verdict" verification;
  count ← dindex "artifact_count" verification;
  total ← dindex "committed_artifact_total_bytes" verification;
  verdict_sha ← dindex "verdict_sha256" terminal;
  manifest_sha ← dindex "artifact_manifest_sha256" terminal;
  Ok [("protocol_version", version); ("status", PStr "FINISHED");
      ("run_id", run_id binding); ("run_epoch", epoch binding);
      ("agent_id", PStr (rb_agent_id binding)); ("session_id", PStr (rb_session_id binding));
      ("checkpoint_id", PStr (checkpoint_id plan)); ("recovery_id", PStr (recovery_id plan));
      ("baseline_created", PBool (baseline_created plan)); ("cgroup_id", PInt (cgroup_id binding));
      ("outcome", PStr outcome); ("quiescence", PDict barrier);
      ("offline_verified", PBool true); ("offline_verification", PStr "VERIFIED");
      ("recovery_verdict", verdict);
      ("endpoint_replay_verified", PBool true); ("recorder_wal_replay_verified", PBool true);
      ("recovery_command_succeeded", PBool succeeded);
      ("require_consistent", PBool (require_consistent plan));
      ("release_allowed", PBool (release_allowed verdict));
      ("fence_required", PBool (negb (release_allowed verdict)));
      ("artifact_count", count); ("committed_artifact_total_bytes", total);
      ("deferred_rollback_cleanup", PDict cleanup);
      ("evidence_directory", PStr (path_str (_evidence_directory binding)));
      ("config_path", PStr (audit_file binding config_file));
      ("config_sha256", PStr (sha256 (b_encoded b)));
      ("expectation_path", PStr (audit_file binding expectation_file));
      ("verification_result_path", PStr (audit_file binding verification_file));
      ("verdict_path", PStr (path_str (path_child (_evidence_directory binding) "recovery-verdict.json")));
      ("verdict_sha256", verdict_sha);
      ("artifact_manifest_path",
        PStr (path_str (path_child (_evidence_directory binding) "recovery-artifact-manifest.json")));
      ("artifact_manifest_sha256", manifest_sha)].

(** The part of the [try] of [finish] that gathers the evidence. *)
Definition gather (nonce : pyval) (deadline : Z) : R (dict * dict) :=
  before_restore deadline nonce;;
  restoring deadline nonce;;
  nonce' ← after_restore deadline;
  terminal ← concluded deadline nonce';
  verification ← verified deadline terminal;
  mret (terminal, verification).

(** The rest of it. *)
Definition publish (outcome : string) (barrier terminal verification : dict) : R dict :=
  helper ← read (fun r => _recovery_helper_succeeded (more r));
  let succeeded := match helper with Some b => b | None => false end in
  cleanup ← clean_up succeeded;
  receipt ← lift (_build_receipt outcome barrier terminal verification cleanup succeeded);
  text ← lift (canonical_line (PDict receipt));
  _write_new_file binding others receipt_file text;;
  locked (fun _ => ()) (set_final receipt);;
  _shutdown this_thread others;;
  mret receipt.

Definition finish_run (outcome : string) (barrier : dict) (nonce : pyval) (deadline : Z) : R dict :=
  '(terminal, verification) ← gather nonce deadline;
  publish outcome barrier terminal verification.

(** The claim: the receipt there is, or the acknowledged start of the agent. *)
Definition claim : R (dict + dict) :=
  yield others;;
  r ← read (fun r => r);
  match _final_result r with
  | Some receipt => mret (inl receipt)
  | None =>
      throw_when (is_some (_finish_claimed r)) (recovery_error "finalization is already in progress");;
      throw_when (negb (bool_decide (_phase r = AGENT_RUNNING)) || is_some (_failure_reason r))
        (recovery_error "Observer is not ready for PRE_RESTORE");;
      modify (fun r => set_phase RECOVERING (claim_finish me r));;
      match _agent_started_message (more r) with
      | Some started => mret (inr started)
      | None => throw AssertionError
      end
  end.

Definition finish (outcome : string) (q : quiescence) : R dict :=
  throw_when (negb (existsb (str_eqb outcome) _OUTCOMES))
    (WorkspaceError "invalid system-effects recovery execution outcome");;
  barrier ← _validate_quiescence binding q;
  claimed ← claim;
  match claimed with
  | inl receipt => mret receipt
  | inr started =>
      t ← act HClock;
      let deadline := t + float_ns (finalize_timeout config) + recovery_timeout_ms config * 1000000 in
      failing
        (nonce ← lift (dindex "nonce" started); finish_run outcome barrier nonce deadline)
        (command_failed "finalization")
  end.

Definition status : R dict :=
  r ← locked (fun r => r) (fun r => r);
  mret
    ([("protocol_version", version); ("status", PStr (phase_name (_phase r)));
      ("run_id", run_id binding); ("run_epoch", epoch binding);
      ("checkpoint_id", PStr (checkpoint_id plan)); ("recovery_id", PStr (recovery_id plan));
      ("cgroup_id", PInt (cgroup_id binding));
      ("observer_pid", match _process r with Some pid => PInt pid | None => PNone end);
      ("evidence_directory", PStr (path_str (_evidence_directory binding)));
      ("config_sha256", PStr (sha256 (b_encoded b)));
      ("profile", PStr (profile config));
      ("object_resolution_mode", PStr (object_resolution_mode config));
      ("scopes_enabled", PList (PStr <$> scopes_enabled config));
      ("filesystem_namespace_mode", dgetn "filesystem_namespace_mode" (b_document b));
      ("offline_verified", PBool (is_some (_final_result r)));
      ("failure", pystr_opt (_failure_reason r))]
     ++ match _final_result r with
        | None => []
        | Some receipt => [("recovery_verdict", dgetn "recovery_verdict" receipt);
                           ("release_allowed", dgetn "release_allowed" receipt)]
        end).
End recovery.

(** [RecoverySystemEffectsRun(config, context, on_close, store)] *)
Definition RecoverySystemEffectsRun `{FloatText} `{Host} (config : SystemEffectsConfig)
    (sha256 : string -> string) (this_thread : option thread)
    (others : RunBinding -> list hcall -> run -> run) (ctx : run_context) (store : option pure_path)
    : P hcall run (RunBinding * bound) :=
  throw_when (negb (recovery_enabled config)) (effects_error "recovery is not configured");;
  binding ← from_context ctx;
  b ← start config binding sha256 this_thread (others binding) ctx store;
  mret (binding, b).
