(* ===== verification/RecoverySpec.v ===== *)
(** * What a recovery run proves

    The workspace of before a rollback is given up, and the receipt handed out,
    only on the evidence of all three snapshots; the agent is let go only when
    the observer has acknowledged its start. *)

From Stdlib Require Import Ascii SpecFloat.
From Stdlib Require String.
From stdpp Require Import gmap pretty.
From S2P Require Import Prelude Effects PyVal Ids FileSystem World StoreFiles Paths Durable Kernel.
From S2P Require Import Json Runs Host EffectsConfig Observer ObserverSpec Recovery.
Open Scope Z_scope.

Definition newline : string := String "010" EmptyString.

Section evidence.
Context `{FloatText} `{Host}.
Context (config : SystemEffectsConfig) (binding : RunBinding) (sha256 : string -> string).
Context (me : nat) (this_thread : option thread) (others : list hcall -> run -> run).
Context (Hrely : forall h r, rely me r (others h r)).
Context (b : bound).
#[local] Abbreviation plan := (b_plan b).

(** *** What the thread knows of the object so far

    The others leave what it owns, and [e] is what has become of the attributes
    of the recovery run. *)
Record course (s s' : st hcall run) (e : extra) : Prop := Course {
  co_grows : grows s s';
  co_claim : _finish_claimed (obj s') = Some me;
  co_audit : audit (obj s') = audit (obj s);
  co_ready : _ready (obj s') = _ready (obj s);
  co_final : _final_result (obj s') = _final_result (obj s);
  co_owned : owned (more (obj s')) = owned e }.

Lemma along_course s s' : _finish_claimed (obj s) = Some me -> along me s s' -> course s s' (more (obj s)).
Proof. intros C Ha. destruct (along_owner me _ _ C Ha) as (G & C' & [A R F O]). by constructor. Qed.

Lemma course_trans s s1 s2 e e' : course s s1 e -> course s1 s2 e' -> course s s2 e'.
Proof. intros [G C A R F O] [G' C' A' R' F' O']. constructor; [by etrans|congruence..]. Qed.

Lemma course_owned s s' e e' : course s s' e -> owned e = owned e' -> course s s' e'.
Proof. intros [G C A R F O] He. constructor; congruence. Qed.

Lemma course_modify s s1 e f :
  course s s1 e -> (forall e e', owned e = owned e' -> owned (f e) = owned (f e')) ->
  course s (St (hist s1) (change_more f (obj s1))) (f e).
Proof. intros [G C A R F O] Hf. constructor; simpl; [exact G|done..|]. by apply Hf. Qed.

Lemma owned_snapshot phase a e e' : owned e = owned e' -> owned (add_snapshot phase a e) = owned (add_snapshot phase a e').
Proof. unfold owned. simpl. by intros [= -> -> -> ->]. Qed.

Lemma owned_helper x e e' : owned e = owned e' -> owned (set_helper x e) = owned (set_helper x e').
Proof. unfold owned. simpl. by intros [= -> -> -> _]. Qed.

Lemma owned_legacy e e' : owned e = owned e' -> _legacy_ready e = _legacy_ready e'.
Proof. by intros [= -> _ _ _]. Qed.

Lemma owned_snapshots e e' : owned e = owned e' -> _snapshots e = _snapshots e'.
Proof. by intros [= _ _ -> _]. Qed.

(** *** Messages *)

Lemma send_command_returns command close s :
  returns (_send_recovery_command others command close) (fun _ s' => along me s s' /\
    exists t, _wire_json (PDict command) = Ok t /\
      if close then between (hist s) (HStdin (t +:+ newline)) tt (hist s')
      else between (hist s) (HStdinWrite (t +:+ newline)) tt (hist s')) s.
Proof.
  unfold _send_recovery_command. apply returns_bind, returns_lift. intros t Ht.
  apply returns_bind, returns_throw_when. intros _. apply returns_catch.
  2:{ intros e s1 _. destruct (is_os_error e); apply returns_throw. }
  destruct close.
  - apply (returns_act me others Hrely (HStdin _)). intros [] r' Hr Ha.
    split; [split; [destruct s; apply grows_snoc|exact Hr]|]. exists t. split; [done|]. by apply between_act.
  - apply (returns_act me others Hrely (HStdinWrite _)). intros [] r' Hr Ha.
    split; [split; [destruct s; apply grows_snoc|exact Hr]|]. exists t. split; [done|]. by apply between_act.
Qed.

Lemma message_checked_returns deadline keys status sequence nonce s :
  returns (message_checked binding others b deadline keys status sequence nonce) (fun m s' =>
    along me s s' /\ _validate_common binding plan m keys status sequence nonce = Ok ()) s.
Proof.
  unfold message_checked, _receive_status. apply returns_bind, returns_bind, (returns_along (along me)).
  { by apply receive_along. }
  intros m s1 Ha. apply returns_bind, returns_throw_when. intros _. apply returns_ret.
  apply returns_bind, returns_lift. intros [] Hm. by apply returns_ret.
Qed.

Lemma digest_required_returns message key what (Q : unit -> st hcall run -> Prop) s :
  (digest_field message key = true -> Q () s) -> returns (digest_required message key what) Q s.
Proof. intros HQ. apply returns_throw_when. intros Hd%negb_false_iff. by apply HQ. Qed.

(** *** Snapshots *)

Definition snapshot_ok (legacy : dict) (phase : string) (a : _StableArtifact) : Prop :=
  read_back sha256 a /\ _validate_snapshot config binding plan (a_value a) phase legacy = Ok ().

Lemma snapshot_barrier_along snapshot n1 n2 s :
  returns (_validate_snapshot_barrier binding sha256 others snapshot n1 n2) (fun _ s' => along me s s' /\ True) s.
Proof.
  unfold _validate_snapshot_barrier. apply returns_bind.
  eapply returns_mono; [by apply read_json_artifact_returns|]. intros x s1 [Ha1 _]. apply returns_bind.
  eapply returns_mono; [by apply read_json_artifact_returns|]. intros y s2 [Ha2 _].
  apply returns_lift. intros [] _. split; [by etrans|done].
Qed.

Lemma take_snapshot_returns phase name key message legacy n1 n2 s :
  _finish_claimed (obj s) = Some me ->
  returns (take_snapshot config binding sha256 others plan phase name key message legacy n1 n2) (fun _ s' =>
    exists a, course s s' (add_snapshot phase a (more (obj s))) /\ snapshot_ok legacy phase a) s.
Proof.
  intros C. unfold take_snapshot. apply returns_bind.
  eapply returns_mono; [by apply read_json_artifact_returns|].
  intros a s1 [Ha1 Hb]. apply returns_bind, returns_lift. intros [] _.
  apply returns_bind, returns_lift. intros [] Hv. apply returns_bind.
  eapply returns_mono; [apply snapshot_barrier_along|].
  intros _ s2 [Ha2 _]. apply returns_modify. exists a. split; [|by split].
  apply course_modify; [apply along_course; [done|by etrans]|]. intros. by apply owned_snapshot.
Qed.

Lemma legacy_ready_returns (Q : dict -> st hcall run -> Prop) s :
  (forall d, _legacy_ready (more (obj s)) = Some d -> Q d s) -> returns legacy_ready Q s.
Proof.
  intros HQ. unfold legacy_ready. apply returns_bind, returns_read.
  destruct (_legacy_ready _) as [d|]; [by apply returns_ret, HQ|apply returns_throw].
Qed.

(** *** The steps of [finish] *)

(** The observer was sent a command between two histories. *)
Definition commanded (kind : string) (sequence : Z) (close : bool) (h h' : list hcall) : Prop :=
  exists nonce t, _wire_json (PDict (_command binding plan kind sequence nonce)) = Ok t /\
    if close then between h (HStdin (t +:+ newline)) tt h' else between h (HStdinWrite (t +:+ newline)) tt h'.

Lemma commanded_mono kind sequence close h1 h2 h3 h4 :
  h1 `prefix_of` h2 -> commanded kind sequence close h2 h3 -> h3 `prefix_of` h4 ->
  commanded kind sequence close h1 h4.
Proof.
  intros H1 (nonce & t & Ht & Hb) H3. exists nonce, t. split; [done|].
  destruct close; by eapply between_mono.
Qed.

Lemma sent_returns kind sequence nonce close s :
  returns (_send_recovery_command others (_command binding plan kind sequence nonce) close) (fun _ s' =>
    along me s s' /\ commanded kind sequence close (hist s) (hist s')) s.
Proof.
  eapply returns_mono; [apply send_command_returns|]. intros _ s2 [C2 (t & Ht & Hb)].
  split; [done|]. by exists nonce, t.
Qed.

Lemma before_restore_returns deadline nonce s :
  _finish_claimed (obj s) = Some me ->
  returns (before_restore config binding sha256 others b deadline nonce) (fun _ s' =>
    exists legacy a, course s s' (add_snapshot "B" a (more (obj s)))
      /\ _legacy_ready (more (obj s)) = Some legacy
      /\ snapshot_ok legacy "B" a /\ commanded "PRE_RESTORE" 2 false (hist s) (hist s')) s.
Proof.
  intros C. unfold before_restore. apply returns_bind.
  eapply returns_mono; [by apply sent_returns|]. intros _ s1 [Ha1 Hc]. apply returns_bind.
  eapply returns_mono; [apply message_checked_returns|].
  intros m s2 [Ha2 _]. do 2 (apply returns_bind, digest_required_returns; intros _). apply returns_bind.
  eapply returns_mono; [by apply read_json_artifact_returns|].
  intros v s3 [Ha3 _]. apply returns_bind, returns_lift. intros [] _.
  assert (along me s1 s3) as Ha by by etrans.
  assert (course s s3 (more (obj s))) as C3 by (apply along_course; [done|by etrans]).
  apply returns_bind, legacy_ready_returns. intros legacy Hlegacy.
  eapply returns_mono; [apply take_snapshot_returns, C3|]. intros _ s4 (a & C4 & Hok).
  exists legacy, a. split.
  { eapply course_owned; [by eapply course_trans|]. apply owned_snapshot, C3. }
  split; [by rewrite <-(owned_legacy _ _ (co_owned _ _ _ C3))|]. split; [done|].
  eapply commanded_mono; [done|exact Hc|]. etrans; [apply Ha|apply C4].
Qed.

Lemma restoring_returns deadline nonce s :
  _finish_claimed (obj s) = Some me ->
  returns (restoring config binding sha256 others b deadline nonce) (fun _ s' =>
    exists evidence succeeded, course s s' (set_helper succeeded (more (obj s))) /\ read_back sha256 evidence
      /\ _validate_recovery_evidence plan (b_recovery b) (a_value evidence) = Ok ()
      /\ dgetn "success" (a_value evidence) = PBool succeeded) s.
Proof.
  intros C. unfold restoring. apply returns_bind.
  eapply returns_mono; [apply message_checked_returns|]. intros m s1 [Ha1 _].
  apply returns_bind, digest_required_returns. intros _. apply returns_bind.
  eapply returns_mono; [by apply read_json_artifact_returns|]. intros ev s2 [Ha2 Hb].
  apply returns_bind, returns_lift. intros [] _. apply returns_bind, returns_lift. intros [] Hv.
  assert (exists x, dgetn "success" (a_value ev) = PBool x) as [x Hx].
  { unfold _validate_recovery_evidence, raise_if in Hv. destruct (_ || _) eqn:E in Hv; [done|].
    apply orb_false_iff in E as [_ E]. destruct (dgetn "success" (a_value ev)); try done. by eexists. }
  apply returns_modify. exists ev, x. rewrite Hx. split; [|done].
  replace (is_true (PBool x)) with x by by destruct x.
  apply (course_modify _ _ (more (obj s)) (set_helper x)); [apply along_course; [done|by etrans]|].
  intros. by apply owned_helper.
Qed.

Lemma after_restore_returns deadline s :
  _finish_claimed (obj s) = Some me ->
  returns (after_restore config binding sha256 others b deadline) (fun _ s' =>
    exists legacy a, course s s' (add_snapshot "C" a (more (obj s)))
      /\ _legacy_ready (more (obj s)) = Some legacy /\ snapshot_ok legacy "C" a) s.
Proof.
  intros C. unfold after_restore. apply returns_bind.
  eapply returns_mono; [apply message_checked_returns|]. intros m s1 [Ha1 _].
  apply returns_bind, digest_required_returns. intros _.
  assert (course s s1 (more (obj s))) as C1 by by apply along_course.
  apply returns_bind, legacy_ready_returns. intros legacy Hlegacy. apply returns_bind.
  eapply returns_mono; [apply take_snapshot_returns, C1|]. intros _ s2 (a & C2 & Hok).
  apply returns_lift. intros _ _. exists legacy, a. split.
  { eapply course_owned; [by eapply course_trans|]. apply owned_snapshot, C1. }
  split; [by rewrite <-(owned_legacy _ _ (co_owned _ _ _ C1))|done].
Qed.

Lemma concluded_returns deadline nonce s :
  returns (concluded binding others b deadline nonce) (fun terminal s' =>
    along me s s' /\ exists k d, commanded "FINISH" 3 true (hist s) k
      /\ between k (HWait Observer d) 0 (hist s')) s.
Proof.
  unfold concluded. apply returns_bind.
  eapply returns_mono; [by apply sent_returns|]. intros _ s1 [Ha1 Hc]. apply returns_bind.
  eapply returns_mono; [apply message_checked_returns|]. intros m s2 [Ha2 _].
  do 2 (apply returns_bind, digest_required_returns; intros _).
  apply returns_bind, (returns_locked me others Hrely). intros r Hr. apply returns_bind.
  assert (along me s2 (St (hist s2) (set_phase TERMINAL_RECEIVED r))) as Ha3.
  { transitivity (St (hist s2) r); [split; [by destruct s2; apply grows_same|done]|].
    apply (allowed_phase me TERMINAL_RECEIVED (St (hist s2) r)). }
  eapply returns_mono; [by apply require_observer_exit_returns|]. intros _ s4 [Ha4 (d & Hb)].
  apply returns_ret. assert (along me s1 s2) as Ha12 by done.
  split; [etrans; [exact Ha1|]; etrans; [exact Ha2|]; by etrans|].
  exists (hist s1), d. split; [done|]. eapply between_mono; [apply Ha2|exact Hb|done].
Qed.

Lemma snapshot_of_returns phase (Q : _StableArtifact -> st hcall run -> Prop) s :
  (forall i a, list_find (fun p => p.1 = phase) (_snapshots (more (obj s))) = Some (i, (phase, a)) -> Q a s) ->
  returns (snapshot_of phase) Q s.
Proof.
  intros HQ. unfold snapshot_of. apply returns_bind, returns_read.
  destruct (list_find _ _) as [[i [p a]]|] eqn:E; [|apply returns_throw].
  apply list_find_Some in E as (E1 & E2 & E3). simpl in E2. subst p. by apply returns_ret, (HQ i).
Qed.

(** The snapshots in the order of their phases, latest first. *)
Definition two (e : extra) (sb sc : _StableArtifact) (before : list (string * _StableArtifact)) : Prop :=
  _snapshots e = ("C", sc) :: ("B", sb) :: before.

(** The snapshot of the start. *)
Definition first_snapshot (snapshots : list (string * _StableArtifact)) (sa : _StableArtifact) : Prop :=
  exists i, list_find (fun p => p.1 = "A") snapshots = Some (i, ("A", sa)).

(** What the terminal message, the artifacts and the verifier say of the run. *)
Definition verified_by (legacy terminal verification : dict) (sa sb sc : _StableArtifact)
    (h h' : list hcall) (verifier_text : string) : Prop :=
  exists verdict manifest verifier pid d ns out err k1 k2,
    read_back sha256 verdict /\ read_back sha256 manifest
    /\ check_terminal binding sha256 plan (b_recovery b) legacy terminal verdict manifest sa sb sc = Ok ()
    /\ recovery_verifier_path config = Some verifier
    /\ between h (HSpawn Verifier (verifier_argv binding verifier)) pid k1
    /\ between k1 (HWait Verifier d) 0 k2
    /\ between k2 (HDrained ns) (false, out, err) h'
    /\ verifier_output RECOVERY_VERIFIER 0 false out err = Ok (verification, verifier_text)
    /\ _validate_recovery_verification binding plan verification terminal (a_value verdict)
         (a_value manifest) = Ok ().

Lemma recovery_artifacts_returns terminal s sb sc before :
  _finish_claimed (obj s) = Some me -> two (more (obj s)) sb sc before ->
  returns (_validate_terminal_artifacts binding sha256 others b terminal) (fun a s' => along me s s'
    /\ exists sa legacy, first_snapshot before sa /\ _legacy_ready (more (obj s)) = Some legacy
    /\ read_back sha256 a.1 /\ read_back sha256 a.2
    /\ check_terminal binding sha256 plan (b_recovery b) legacy terminal a.1 a.2 sa sb sc = Ok ()) s.
Proof.
  intros C Hs. unfold _validate_terminal_artifacts.
  apply returns_bind. eapply returns_mono; [by apply read_json_artifact_returns|]. intros v s1 [Ha1 Hv].
  apply returns_bind. eapply returns_mono; [by apply read_json_artifact_returns|]. intros m s2 [Ha2 Hm].
  assert (course s s2 (more (obj s))) as C2 by (apply along_course; [done|by etrans]).
  pose proof (owned_snapshots _ _ (co_owned _ _ _ C2)) as Hs2. rewrite Hs in Hs2.
  apply returns_bind, snapshot_of_returns. intros ja sa Hja. rewrite Hs2 in Hja.
  assert (first_snapshot before sa) as Hsa.
  { simpl in Hja. destruct (list_find _ before) as [[i x]|] eqn:E; simplify_eq/=. by exists i. }
  apply returns_bind, snapshot_of_returns. intros jb a Hjb. rewrite Hs2 in Hjb.
  assert (a = sb) as -> by (simpl in Hjb; by simplify_eq/=).
  apply returns_bind, snapshot_of_returns. intros jc a Hjc. rewrite Hs2 in Hjc.
  assert (a = sc) as -> by (simpl in Hjc; by simplify_eq/=).
  apply returns_bind, legacy_ready_returns. intros legacy Hl. apply returns_bind, returns_lift. intros [] Hok.
  apply returns_ret. split; [by etrans|]. exists sa, legacy. split; [done|].
  split; [by rewrite <-(owned_legacy _ _ (co_owned _ _ _ C2))|done].
Qed.

(** The two files the verification leaves. *)
Definition verification_files (r : run) (expected verifier_text : string) : Prop :=
  entries (audit r) !! expectation_file = Some (File (bytes_of expected) true)
  /\ entries (audit r) !! verification_file = Some (File (bytes_of verifier_text) true).

Lemma verified_returns deadline terminal s sb sc before :
  _finish_claimed (obj s) = Some me -> two (more (obj s)) sb sc before ->
  returns (verified config binding sha256 others b deadline terminal) (fun verification s' =>
    exists sa legacy expected text, first_snapshot before sa /\ grows s s' /\ _finish_claimed (obj s') = Some me
      /\ _ready (obj s') = _ready (obj s) /\ owned (more (obj s')) = owned (more (obj s))
      /\ _legacy_ready (more (obj s)) = Some legacy
      /\ canonical_line (expectation (b_document b) (dgetn "artifact_manifest_sha256" terminal)
           (dgetn "verdict_sha256" terminal)) = Ok expected
      /\ verified_by legacy terminal verification sa sb sc (hist s) (hist s') text
      /\ verification_files (obj s') expected text) s.
Proof.
  intros C Ht. unfold verified. apply returns_bind.
  eapply returns_mono; [by eapply recovery_artifacts_returns|].
  intros [v m] s1 [Ha1 (sa & legacy & Hsa & Hl & Hv & Hm & Hok)].
  assert (course s s1 (more (obj s))) as C1 by by apply along_course.
  apply returns_bind, returns_lift. intros msha Hmsha. apply returns_bind, returns_lift. intros vsha Hvsha.
  apply dindex_dgetn in Hmsha as ->. apply dindex_dgetn in Hvsha as ->.
  apply returns_bind, returns_lift. intros expected Hexp. apply returns_bind.
  eapply returns_mono; [apply (write_new_file_returns binding me others Hrely), C1|].
  intros _ s2 (G2 & W2 & _). pose proof (writing_owner me _ _ _ _ _ (co_claim _ _ _ C1) W2) as Hc2.
  apply returns_bind. unfold _run_recovery_verifier.
  destruct (recovery_verifier_path config) as [verifier|] eqn:Hver; [|apply returns_throw].
  eapply returns_mono; [by apply run_program_returns|].
  intros [verification text] s3 [Ha3 (pid & d & ns & out & err & k1 & k2 & Hspawn & Hwait & Hdrain & Hout)].
  pose proof (along_course _ _ Hc2 Ha3) as C3.
  apply returns_bind, returns_lift. intros [] Hval. apply returns_bind.
  eapply returns_mono; [apply (write_new_file_returns binding me others Hrely), C3|].
  intros _ s4 (G4 & W4 & _). apply returns_ret.
  pose proof (writing_owner me _ _ _ _ _ (co_claim _ _ _ C3) W4) as Hc4.
  exists sa, legacy, expected, text. split; [done|].
  split; [etrans; [apply C1|]; etrans; [exact G2|]; etrans; [apply C3|exact G4]|]. split; [done|].
  split; [rewrite (w_ready _ _ _ _ _ W4), (co_ready _ _ _ C3), (w_ready _ _ _ _ _ W2); apply C1|].
  split; [rewrite (w_owned _ _ _ _ _ W4), (co_owned _ _ _ C3), (w_owned _ _ _ _ _ W2); apply C1|].
  split; [done|]. split; [done|]. split.
  - exists v, m, verifier, pid, d, ns, out, err, k1, k2. do 4 (split; [done|]).
    split; [eapply between_mono; [etrans; [apply C1|exact G2]|exact Hspawn|done]|]. split; [done|].
    split; [eapply between_mono; [done|exact Hdrain|exact G4]|done].
  - unfold verification_files. rewrite (w_entries _ _ _ _ _ W4), (co_audit _ _ _ C3), (w_entries _ _ _ _ _ W2).
    unfold expectation_file, verification_file. by rewrite lookup_insert_ne, !lookup_insert_eq.
Qed.

(** ** The evidence of a recovery

    Snapshot A was taken and checked when the run was started; from [h] on the
    observer took B, ran the helper, took C and ended, and the verifier said that
    the artifacts prove all this. *)
Definition evidence (legacy terminal verification : dict) (sa : _StableArtifact) (succeeded : bool)
    (h h' : list hcall) (text : string) : Prop :=
  exists sb sc helper k1 k2 k3 d,
    commanded "PRE_RESTORE" 2 false h k1
    /\ snapshot_ok legacy "B" sb
    /\ read_back sha256 helper /\ _validate_recovery_evidence plan (b_recovery b) (a_value helper) = Ok ()
    /\ dgetn "success" (a_value helper) = PBool succeeded
    /\ snapshot_ok legacy "C" sc
    /\ commanded "FINISH" 3 true k1 k2
    /\ between k2 (HWait Observer d) 0 k3
    /\ verified_by legacy terminal verification sa sb sc k3 h' text.

Lemma gather_returns nonce deadline s :
  _finish_claimed (obj s) = Some me ->
  returns (gather config binding sha256 others b nonce deadline) (fun tv s' =>
    exists sa legacy expected text succeeded, grows s s' /\ _finish_claimed (obj s') = Some me
      /\ first_snapshot (_snapshots (more (obj s))) sa
      /\ _legacy_ready (more (obj s)) = Some legacy
      /\ _recovery_helper_succeeded (more (obj s')) = Some succeeded
      /\ canonical_line (expectation (b_document b) (dgetn "artifact_manifest_sha256" tv.1)
           (dgetn "verdict_sha256" tv.1)) = Ok expected
      /\ evidence legacy tv.1 tv.2 sa succeeded (hist s) (hist s') text
      /\ verification_files (obj s') expected text) s.
Proof.
  intros C. unfold gather. apply returns_bind.
  eapply returns_mono; [by apply before_restore_returns|]. intros _ s1 (legacy & sb & C1 & Hl & Hb & Hpre).
  apply returns_bind. eapply returns_mono; [apply restoring_returns, C1|].
  intros _ s2 (ev & succeeded & C2 & Hev1 & Hev2 & Hev3).
  apply returns_bind. eapply returns_mono; [apply after_restore_returns, C2|].
  intros nonce' s3 (legacy' & sc & C3 & Hl' & Hc). apply returns_bind.
  eapply returns_mono; [apply concluded_returns|]. intros terminal s4 [Ha4 (k & d & Hfin & Hexit)].
  pose proof (along_course _ _ (co_claim _ _ _ C3) Ha4) as C4.
  assert (legacy' = legacy) as ->.
  { pose proof (owned_legacy _ _ (co_owned _ _ _ C2)) as E2. pose proof (owned_legacy _ _ (co_owned _ _ _ C1)) as E1.
    simpl in E1, E2. congruence. }
  assert (owned (more (obj s4)) = owned (add_snapshot "C" sc (set_helper succeeded (add_snapshot "B" sb
    (more (obj s)))))) as Ho.
  { rewrite (co_owned _ _ _ C4), (co_owned _ _ _ C3). apply owned_snapshot.
    rewrite (co_owned _ _ _ C2). apply owned_helper, C1. }
  apply returns_bind. eapply returns_mono.
  { eapply verified_returns; [apply C4|exact (owned_snapshots _ _ Ho)]. }
  intros verification s5 (sa & legacy5 & expected & text & Hsa & G5 & Hc5 & Hr5 & Ho5 & Hl5 & Hexp & Hver & Hfiles).
  apply returns_ret. exists sa, legacy, expected, text, succeeded.
  assert (legacy5 = legacy) as ->.
  { pose proof (owned_legacy _ _ Ho) as E. simpl in E. congruence. }
  split; [etrans; [apply C1|]; etrans; [apply C2|]; etrans; [apply C3|]; etrans; [apply C4|exact G5]|].
  split; [done|]. split; [done|]. split; [done|].
  split; [rewrite Ho in Ho5; by injection Ho5 as _ _ _ ->|]. split; [done|]. split; [|done].
  exists sb, sc, ev, (hist s1), k, (hist s4), d. do 6 (split; [done|]). split.
  { eapply commanded_mono; [|exact Hfin|done]. etrans; [apply C2|apply C3]. }
  split; [exact Hexit|exact Hver].
Qed.

(** *** The cleanup and the receipt *)

(** What the store was asked to delete, and answered. *)
Definition cleaned (succeeded : bool) (cleanup : dict) (h h' : list hcall) : Prop :=
  if succeeded then
    between h (HCleanup (rb_agent_id binding) (rb_session_id binding) (recovery_id plan)) (PDict cleanup) h'
    /\ is_true (dgetn "cleanup_completed" cleanup) = true
  else cleanup = not_applicable.

Lemma clean_up_returns succeeded s :
  _finish_claimed (obj s) = Some me ->
  returns (clean_up binding others b succeeded) (fun cleanup s' => along me s s' /\
    cleaned succeeded cleanup (hist s) (hist s')) s.
Proof.
  intros C. unfold clean_up. destruct succeeded; [|by apply returns_ret].
  apply returns_bind, (returns_act me others Hrely (HCleanup _ _ _)). intros answer r Hr Ha.
  destruct answer as [| | | | | |cleanup]; try apply returns_throw.
  apply returns_bind, returns_throw_when. intros Hc%negb_false_iff. apply returns_ret.
  split; [split; [destruct s; apply grows_snoc|exact Hr]|]. split; [by apply between_act|done].
Qed.

(** What the run is proved to have been when its receipt is written. *)
Definition recovery_backed (outcome : string) (barrier receipt : dict) (sa : _StableArtifact)
    (h : list hcall) (s' : st hcall run) : Prop :=
  exists legacy terminal verification cleanup expected text receipt_text succeeded k,
    evidence legacy terminal verification sa succeeded h k text
    /\ cleaned succeeded cleanup k (hist s')
    /\ canonical_line (expectation (b_document b) (dgetn "artifact_manifest_sha256" terminal)
         (dgetn "verdict_sha256" terminal)) = Ok expected
    /\ _build_receipt binding sha256 b outcome barrier terminal verification cleanup succeeded = Ok receipt
    /\ canonical_line (PDict receipt) = Ok receipt_text
    /\ verification_files (obj s') expected text
    /\ entries (audit (obj s')) !! receipt_file = Some (File (bytes_of receipt_text) true).

Lemma recovery_run_returns outcome barrier nonce deadline s :
  _finish_claimed (obj s) = Some me ->
  returns (finish_run config binding sha256 this_thread others b outcome barrier nonce deadline)
    (fun receipt s' => _final_result (obj s') = Some receipt
       /\ exists sa, first_snapshot (_snapshots (more (obj s))) sa
       /\ recovery_backed outcome barrier receipt sa (hist s) s') s.
Proof.
  intros C. unfold finish_run. apply returns_bind. eapply returns_mono; [by apply gather_returns|].
  intros [terminal verification] s1 (sa & legacy & expected & text & succeeded & G1 & C1 & Hsa & Hl & Hh & Hexp
    & Hev & Hfiles).
  unfold publish. apply returns_bind, returns_read. rewrite Hh. apply returns_bind.
  eapply returns_mono; [by apply clean_up_returns|]. intros cleanup s2 [Ha2 Hclean].
  destruct (along_owner me _ _ C1 Ha2) as (G2 & C2 & [Ha Hr Hf Ho]).
  apply returns_bind, returns_lift. intros receipt Hreceipt.
  apply returns_bind, returns_lift. intros receipt_text Htext.
  apply returns_bind. eapply returns_mono; [by apply (write_new_file_returns binding me others Hrely)|].
  intros _ s3 (G3 & W3 & _). pose proof (writing_owner me _ _ _ _ _ C2 W3) as C3.
  eapply returns_mono; [by apply (close_returns me this_thread others Hrely)|].
  intros receipt' s4 (-> & G4 & _ & Ha4 & Hr4 & _ & Hf4). split; [done|]. exists sa. split; [done|].
  exists legacy, terminal, verification, cleanup, expected, text, receipt_text, succeeded, (hist s1).
  split; [done|]. split.
  { unfold cleaned in *. destruct succeeded; [|done]. destruct Hclean as [Hb Hd]. split; [|done].
    eapply between_mono; [reflexivity|exact Hb|]. by etrans. }
  split; [done|]. split; [done|]. split; [done|].
  unfold verification_files in *. rewrite Ha4, (w_entries _ _ _ _ _ W3), Ha. unfold receipt_file.
  split; [|by rewrite lookup_insert_eq].
  unfold expectation_file, verification_file in *. by rewrite !lookup_insert_ne.
Qed.
End evidence.

(** ** Whole methods, along a relation that allows every plain change *)

Section methods.
Context `{FloatText} `{Host}.
Context (config : SystemEffectsConfig) (binding : RunBinding) (sha256 : string -> string).
Context (me : nat) (this_thread : option thread) (others : list hcall -> run -> run).
Context (Rel : relation (st hcall run)) `{!PreOrder Rel}.
Context (Hcall : forall c s, silent c = true -> Rel s (St (hist s ++ [c]) (obj s))).
Context (Hothers : forall s, Rel s (St (hist s) (others (hist s) (obj s)))).
Context (Hplain : forall f, plain f -> allowed Rel f).
Context (Hclose : travels Rel (_retire others)).
Context (Hpublish : forall reason, travels Rel (_publish_failure others reason)).

Ltac travel :=
  repeat first
    [ travel_step
    | lazymatch goal with
      | |- travels _ (Observer.act _ ?c) => exact (travels_act others Rel Hcall Hothers c eq_refl)
      | |- travels _ (call _) => apply travels_call; [exact Hcall|reflexivity]
      | |- travels _ (locked _ _ _) => apply travels_locked; [exact _|exact Hothers|]
      | |- travels _ (yield _) => apply travels_yield; exact Hothers
      | |- travels _ (wrapping _ _ _) => unfold wrapping
      | |- travels _ (_retire _) => exact Hclose
      | |- travels _ (_publish_failure _ _) => apply Hpublish
      | |- travels _ (_read_json_artifact _ _ _ _ _) => apply travels_read_json_artifact; assumption
      | |- travels _ (_receive _ _ _) =>
          apply travels_receive; [assumption..|intros ?; apply Hplain; by intros ?]
      | |- travels _ (_write_new_file _ _ _ _) => apply travels_write_new_file; assumption
      | |- travels _ (run_program _ _ _ _ _) =>
          apply travels_run_program; [assumption..|intros ?; apply Hplain; by intros ?]
      | |- travels _ (_require_observer_exit _ _) => apply travels_require_observer_exit; assumption
      | |- travels _ (Observer._validate_ready _ _ _ _ _) =>
          unfold Observer._validate_ready
      | |- travels _ (_set_failed _ _) => apply travels_set_failed'; assumption
      | |- travels _ (_shutdown _ _) => apply travels_shutdown; [assumption..|apply Hplain; by intros ?]
      | |- travels _ (close_unverified _ _) => apply travels_close; assumption
      | |- travels _ (failing _ _) => apply travels_failing; [assumption..| |intros ?]
      | |- travels _ (_validate_quiescence _ _) => apply travels_validate_quiescence; assumption
      | |- allowed _ (put_item _) => apply Hplain, plain_put
      | |- allowed _ _ => apply Hplain; by intros ?
      | |- forall s, Rel s (St (hist s) (set_phase ?p (?f (obj s)))) =>
          change (allowed Rel (fun r => set_phase p (f r)))
      | |- forall s, Rel s (St (hist s) (?f (obj s))) => change (allowed Rel f)
      end
    | solve [eauto with travels] ].

Lemma travels_send_command command close : travels Rel (_send_recovery_command others command close).
Proof. unfold _send_recovery_command. travel. Qed.

Lemma travels_take_snapshot plan phase name key message legacy n1 n2 :
  travels Rel (take_snapshot config binding sha256 others plan phase name key message legacy n1 n2).
Proof. unfold take_snapshot, _validate_snapshot_barrier. travel. Qed.
#[local] Hint Resolve travels_send_command travels_take_snapshot : travels.

Lemma travels_command_failed what name : travels Rel (command_failed this_thread others what name).
Proof. unfold command_failed. travel. Qed.
#[local] Hint Resolve travels_command_failed : travels.

Lemma travels_recovery_stdout inputs : travels Rel (_read_stdout others inputs).
Proof.
  induction inputs as [|i inputs IH]; simpl; [apply travels_ret; exact _|].
  apply travels_bind; [exact _| |intros [|]; [exact IH|apply travels_ret; exact _]].
  unfold read_turn. travel.
Qed.

Lemma travels_recovery_start ctx store :
  travels Rel (start config binding sha256 this_thread others ctx store).
Proof.
  unfold start, _bind_store_root, _build_observer_config, _mapped_filesystem_scope, _trusted_store_directory,
    spawn_observer, _validate_recovery_ready, _receive_status, digest_required, accept_ready, assert_healthy.
  travel.
Qed.

Context (b : bound).

Lemma travels_agent_started : travels Rel (agent_started config binding sha256 this_thread others b).
Proof. unfold agent_started, claim_start, announce_agent, _receive_status, digest_required, accept_started. travel. Qed.

Lemma travels_gather nonce deadline :
  travels Rel (gather config binding sha256 others b nonce deadline).
Proof.
  unfold gather, before_restore, restoring, after_restore, concluded, verified, _validate_terminal_artifacts,
    _run_recovery_verifier, message_checked, _receive_status, digest_required, legacy_ready, snapshot_of.
  travel.
Qed.

Lemma travels_recovery_finish outcome q :
  (forall a s r, travels Rel (Observer.act others (HCleanup a s r))) ->
  travels Rel (finish config binding sha256 me this_thread others b outcome q).
Proof.
  intros Hclean. unfold finish, finish_run, publish, clean_up, claim. travel.
  all: first [apply travels_gather | apply Hclean].
Qed.
End methods.

(** ** The properties *)

Section properties.
Context `{FloatText} `{Host}.
Context (config : SystemEffectsConfig) (binding : RunBinding) (sha256 : string -> string).
Context (me : nat) (this_thread : option thread) (others : list hcall -> run -> run).
Context (Hrely : forall h r, rely me r (others h r)).
Context (b : bound).
#[local] Abbreviation plan := (b_plan b).

Lemma failing_done {A} (m : R A) handler s a s' :
  failing m handler s = (Done a, s') -> m s = (Done a, s').
Proof.
  unfold failing. destruct (m s) as [[a1|e|] s1]; [done| |]; unfold mbind, P_bind.
  - by destruct (handler _ s1) as [[|?|] ?].
  - by destruct (handler _ s1) as [[|?|] ?].
Qed.

Lemma recovery_backed_earlier outcome barrier receipt sa h1 h2 s' :
  h1 `prefix_of` h2 ->
  recovery_backed config binding sha256 b outcome barrier receipt sa h2 s' ->
  recovery_backed config binding sha256 b outcome barrier receipt sa h1 s'.
Proof.
  intros Hp (legacy & terminal & verification & cleanup & expected & text & receipt_text & succeeded & k & Hev & Hr).
  exists legacy, terminal, verification, cleanup, expected, text, receipt_text, succeeded, k. split; [|exact Hr].
  destruct Hev as (sb & sc & helper & k1 & k2 & k3 & d & H1 & H2). exists sb, sc, helper, k1, k2, k3, d.
  split; [|exact H2]. by eapply commanded_mono.
Qed.

(** The object as the claim finds it. *)
Definition found (s : st hcall run) : run := others (hist s) (obj s).


(** *** The cleanup is authorised *)

Definition is_cleanup (c : hcall) : bool := match c with HCleanup _ _ _ => true | _ => false end.

(** No cleanup from [s] to [s']. *)
Definition uncleaned : relation (st hcall run) := counted is_cleanup (fun _ => false).

Lemma uncleaned_silent c s : silent c = true -> uncleaned s (St (hist s ++ [c]) (obj s)).
Proof. intros Hc. apply counted_call. by destruct c. Qed.

Lemma uncleaned_change h r r' : uncleaned (St h r) (St h r').
Proof. by apply counted_change. Qed.

Lemma uncleaned_gather nonce deadline : travels uncleaned (gather config binding sha256 others b nonce deadline).
Proof.
  apply travels_gather; try exact _; [apply uncleaned_silent|..]; intros; try intros [h r]; apply uncleaned_change.
Qed.

Lemma uncleaned_retire : travels uncleaned (_retire others).
Proof.
  unfold _retire. apply travels_bind; [exact _| |intros retired].
  - apply travels_locked; [exact _|intros [h r]; apply uncleaned_change|intros [h r]; apply uncleaned_change].
  - destruct retired; [apply travels_ret; exact _|]. apply travels_bind; [exact _| |intros _].
    + apply travels_interleave. intros [h r]. apply uncleaned_change.
    + apply travels_perform. intros s. by apply counted_call.
Qed.

Lemma uncleaned_shutdown : travels uncleaned (_shutdown this_thread others).
Proof.
  apply travels_shutdown; try exact _; [apply uncleaned_silent| |apply uncleaned_retire|];
    intros [h r]; apply uncleaned_change.
Qed.

Lemma uncleaned_failed what name : travels uncleaned (command_failed this_thread others what name).
Proof.
  unfold command_failed. apply travels_bind; [exact _| |intros _; apply uncleaned_shutdown].
  unfold _set_failed. apply travels_locked; [exact _|intros [h r]; apply uncleaned_change..].
Qed.

Lemma uncleaned_write name text : travels uncleaned (_write_new_file binding others name text).
Proof.
  apply travels_write_new_file; try exact _; [apply uncleaned_silent|..]; intros; try intros [h r];
    apply uncleaned_change.
Qed.

(** A run that has its first snapshot, as the constructor hands it out: A was
    read back and passed its checks against the READY of the older protocol. *)
Definition begun (e : extra) : Prop :=
  exists legacy sa, _legacy_ready e = Some legacy /\ first_snapshot (_snapshots e) sa
    /\ snapshot_ok config binding sha256 b legacy "A" sa.

(** What was proved when the store was asked to delete, for a run that kept [e]
    when its finish was claimed: its own first snapshot A is the one the verdict
    and the verifier's verification bind together with B and C. *)
Definition proved (e : extra) (h h' : list hcall) : Prop :=
  exists legacy terminal verification sa text,
    _legacy_ready e = Some legacy /\ first_snapshot (_snapshots e) sa
    /\ (begun e -> snapshot_ok config binding sha256 b legacy "A" sa)
    /\ evidence config binding sha256 b legacy terminal verification sa true h h' text.

(** Every cleanup since [h] is the one of this run's recovery, on its evidence. *)
Definition authorised (e : extra) (h : list hcall) (s' : st hcall run) : Prop :=
  exists k, hist s' = h ++ k /\ forall k1 c k2, k = k1 ++ c :: k2 -> is_cleanup c = true ->
    c = HCleanup (rb_agent_id binding) (rb_session_id binding) (recovery_id plan) /\ proved e h (h ++ k1).

Lemma first_snapshot_unique snapshots sa sa' :
  first_snapshot snapshots sa -> first_snapshot snapshots sa' -> sa = sa'.
Proof. intros [i Hi] [j Hj]. congruence. Qed.

Lemma begun_first e legacy sa :
  _legacy_ready e = Some legacy -> first_snapshot (_snapshots e) sa -> begun e ->
  snapshot_ok config binding sha256 b legacy "A" sa.
Proof.
  intros Hl Hsa (legacy' & sa' & Hl' & Hsa' & Hok). rewrite Hl in Hl'. injection Hl' as <-.
  by rewrite (first_snapshot_unique _ _ _ Hsa Hsa').
Qed.

Lemma snoc_split {A} (k : list A) x k1 c k2 : k ++ [x] = k1 ++ c :: k2 ->
  (k1 = k /\ c = x /\ k2 = []) \/ exists k3, k2 = k3 ++ [x] /\ k = k1 ++ c :: k3.
Proof.
  intros Heq. destruct k2 as [|y k3 _] using rev_ind.
  - left. by apply app_inj_tail in Heq as [-> ->].
  - right. rewrite app_comm_cons, app_assoc in Heq. apply app_inj_tail in Heq as [-> ->]. by exists k3.
Qed.

Lemma authorised_here e s : authorised e (hist s) s.
Proof. exists []. rewrite app_nil_r. split; [done|]. intros k1 c k2 Hk. by destruct k1. Qed.

Lemma authorised_uncleaned e h s s' : authorised e h s -> uncleaned s s' -> authorised e h s'.
Proof.
  intros (k & Hk & Ha) (k' & Hk' & Hn). exists (k ++ k'). rewrite Hk', Hk, app_assoc. split; [done|].
  intros k1 c k2 Heq Hc. assert (List.In c k' -> False) as Hno.
  { intros Hin. assert (List.In c (List.filter is_cleanup k')) as Hf by (by apply filter_In).
    destruct (List.filter is_cleanup k'); [done|simpl in Hn; lia]. }
  destruct (app_eq_app _ _ _ _ Heq) as (l & [[E1 E2]|[E1 E2]]).
  - destruct l as [|x l].
    + destruct Hno. simpl in E2. rewrite <-E2. by left.
    + injection E2 as <- ->. by eapply Ha.
  - destruct Hno. rewrite E2. apply in_or_app. right. by left.
Qed.

Lemma proved_earlier e h1 h2 h' : h1 `prefix_of` h2 -> proved e h2 h' -> proved e h1 h'.
Proof.
  intros Hp (legacy & terminal & verification & sa & text & Hl & Hsa & Hok & sb & sc & helper & k1 & k2 & k3 & d
    & H1 & H2).
  exists legacy, terminal, verification, sa, text. do 3 (split; [done|]).
  exists sb, sc, helper, k1, k2, k3, d. split; [|exact H2]. by eapply commanded_mono.
Qed.

Lemma ewp_uncleaned {A} (m : R A) e h s : travels uncleaned m -> authorised e h s ->
  ewp m (fun _ s' => authorised e h s') s.
Proof.
  intros Ht Ha. apply (ewp_travels uncleaned); [done|]. eapply ewp_mono; [apply ewp_true|].
  intros _ s' _ Hs. by eapply authorised_uncleaned.
Qed.

Lemma finish_run_authorised outcome barrier nonce deadline e0 h s :
  _finish_claimed (obj s) = Some me -> owned (more (obj s)) = owned e0 -> authorised e0 h s ->
  ewp (finish_run config binding sha256 this_thread others b outcome barrier nonce deadline)
    (fun _ s' => authorised e0 h s') s.
Proof.
  intros Hc Ho Ha. unfold finish_run. apply ewp_bind, (ewp_travels uncleaned); [apply uncleaned_gather|].
  eapply ewp_mono; [by apply returns_ewp, (gather_returns _ _ _ me)|].
  intros [[terminal verification]|e|] s1 Hg Hu; [|by eapply authorised_uncleaned..].
  destruct Hg as (sa & legacy & expected & text & succeeded & G1 & C1 & Hsa & Hl & Hh & _ & Hev & _).
  rewrite (owned_snapshots _ _ Ho) in Hsa. rewrite (owned_legacy _ _ Ho) in Hl.
  pose proof (authorised_uncleaned _ _ _ _ Ha Hu) as Ha1.
  unfold publish. apply ewp_bind, ewp_read. rewrite Hh. apply ewp_bind. unfold clean_up.
  assert (forall cleanup s2, authorised e0 h s2 ->
    ewp (receipt ← lift (_build_receipt binding sha256 b outcome barrier terminal verification cleanup succeeded);
         text ← lift (canonical_line (PDict receipt));
         _write_new_file binding others receipt_file text;;
         locked others (fun _ => ()) (set_final receipt);; _shutdown this_thread others;; mret receipt)
      (fun _ s' => authorised e0 h s') s2) as Hrest.
  { intros cleanup s2 Ha2. apply ewp_uncleaned; [|done].
    repeat first [apply uncleaned_write | apply uncleaned_shutdown | travel_step
      | apply travels_locked; [exact _|intros [? ?]; apply uncleaned_change..]]. }
  destruct succeeded; [|by apply ewp_ret, Hrest]. apply ewp_bind, (ewp_act me others Hrely (HCleanup _ _ _)).
  intros r2 Hr2. assert (authorised e0 h (St (hist s1 ++ [HCleanup (rb_agent_id binding) (rb_session_id binding)
    (recovery_id plan)]) r2)) as Ha2.
  { destruct Ha as (k0 & Hk0 & _). destruct Ha1 as (k & Hk & Hall).
    exists (k ++ [HCleanup (rb_agent_id binding) (rb_session_id binding) (recovery_id plan)]).
    cbn [hist]. rewrite Hk, app_assoc. split; [done|]. intros k1 c k2 Heq Hcl.
    apply snoc_split in Heq as [(-> & -> & _)|(k3 & _ & ->)]; [|by eapply Hall].
    split; [done|]. rewrite <-Hk. apply (proved_earlier _ _ (hist s)); [rewrite Hk0; by eexists|].
    exists legacy, terminal, verification, sa, text. do 2 (split; [done|]). split; [by apply begun_first|done]. }
  cbn [hist]. destruct (host _ _) as [answer|e|]; [|exact Ha2..].
  destruct answer as [| | | | | |cleanup]; try exact Ha2.
  apply ewp_bind, ewp_throw_when; [intros _; exact Ha2|intros _]. by apply ewp_ret, Hrest.
Qed.


(** *** The agent is let go *)

(** What the observer said of the start of the agent. *)
Definition acknowledged (ready response : dict) (h h' : list hcall) : Prop :=
  exists nonce t committed, dindex "nonce" ready = Ok nonce
    /\ _wire_json (PDict (_command binding plan "AGENT_STARTED" 1 nonce)) = Ok t
    /\ between h (HStdinWrite (t +:+ newline)) tt h'
    /\ _validate_common binding plan response _AGENT_STARTED_KEYS "AGENT_STARTED" 2 None = Ok ()
    /\ dgetn "agent_started_sha256" response = PStr (sha256 t)
    /\ read_back sha256 committed /\ py_eqb (PDict (a_value committed)) (PDict response) = true.

Lemma announce_agent_returns nonce deadline s :
  let command := _command binding plan "AGENT_STARTED" 1 nonce in
  returns (announce_agent binding sha256 others b command deadline) (fun _ s' =>
    exists response t committed, _phase (obj s') = AGENT_RUNNING /\ _failure_reason (obj s') = None
      /\ _agent_started_message (more (obj s')) = Some response
      /\ _wire_json (PDict command) = Ok t
      /\ between (hist s) (HStdinWrite (t +:+ newline)) tt (hist s')
      /\ _validate_common binding plan response _AGENT_STARTED_KEYS "AGENT_STARTED" 2 None = Ok ()
      /\ dgetn "agent_started_sha256" response = PStr (sha256 t)
      /\ read_back sha256 committed /\ py_eqb (PDict (a_value committed)) (PDict response) = true) s.
Proof.
  intros command. unfold announce_agent. apply returns_bind.
  eapply returns_mono; [by apply (send_command_returns me)|]. intros _ s1 [_ (t & Ht & Hsent)].
  unfold _receive_status. apply returns_bind, returns_bind, (returns_along (along me)).
  { by apply receive_along. }
  intros response s2 Ha2. apply returns_bind, returns_throw_when. intros _. apply returns_ret.
  apply returns_bind, returns_lift. intros [] Hv. apply returns_bind, digest_required_returns. intros _.
  apply returns_bind, returns_lift. intros t' Ht'. replace t' with t in * by congruence. clear t' Ht'.
  apply returns_bind, returns_lift. intros [] Hd. apply returns_bind.
  eapply returns_mono; [by apply (read_json_artifact_returns sha256 me)|]. intros committed s3 [Ha3 Hb].
  apply returns_bind, returns_throw_when. intros Heq%negb_false_iff.
  unfold accept_started. apply returns_bind. intros ? ? [= <- <-]. apply returns_bind, returns_read. cbn [obj].
  destruct (_failure_reason _) as [reason|] eqn:Hf; [apply returns_throw|]. apply returns_modify. cbn [obj hist].
  exists response, t, committed. split; [done|]. split; [done|]. split; [done|]. split; [done|].
  split; [eapply between_mono; [reflexivity|exact Hsent|]; etrans; [apply Ha2|apply Ha3]|]. split; [done|].
  split; [|done]. destruct (dgetn "agent_started_sha256" response) as [| | | |d| |]; try discriminate Hd.
  cbn in Hd. unfold raise_if in Hd. destruct (str_eqb d (sha256 t)) eqn:E; [|discriminate Hd].
  by apply str_eqb_eq in E as ->.
Qed.


(** *** The callbacks *)

Ltac counted_method lemma :=
  apply lemma; try exact _;
  lazymatch goal with
  | |- forall c s, silent c = true -> _ => intros c s Hc; apply counted_call; by destruct c
  | |- forall f, plain f -> _ =>
      intros f Hf [h r]; apply counted_change; simpl; first [by rewrite (proj1 (Hf r))|by rewrite (proj2 (Hf r))]
  | |- forall s, counted _ _ s _ => intros s; apply (counted_others me others Hrely); by intros ?? []
  | |- forall reason, travels _ (_publish_failure _ _) =>
      first [apply (publish_counted_close me others Hrely) | apply (publish_counted me others Hrely)]
  | |- travels _ (_retire _) =>
      first [apply (retire_counted me others Hrely) | apply (retire_counted_failure me others Hrely)]
  | |- forall a s r, travels _ (act _ (HCleanup _ _ _)) =>
      intros a s r; apply travels_bind; [exact _|apply travels_interleave; intros ?;
        apply (counted_others me others Hrely); by intros ?? []|intros _; apply travels_perform;
        intros ?; by apply counted_call]
  end.

(** Also: the callbacks of a recovery run are called at most once, too, however
    its methods are called and whatever the other threads do. *)
Theorem recovery_callbacks_once outcome q inputs ctx store :
  (travels (counted is_close _retired) (finish config binding sha256 me this_thread others b outcome q)
   /\ travels (counted is_close _retired) (agent_started config binding sha256 this_thread others b)
   /\ travels (counted is_close _retired) (_read_stdout others inputs)
   /\ travels (counted is_close _retired) (start config binding sha256 this_thread others ctx store))
  /\ (travels (counted is_failure _failure_reported)
         (finish config binding sha256 me this_thread others b outcome q)
      /\ travels (counted is_failure _failure_reported)
           (agent_started config binding sha256 this_thread others b)
      /\ travels (counted is_failure _failure_reported) (_read_stdout others inputs)
      /\ travels (counted is_failure _failure_reported)
           (start config binding sha256 this_thread others ctx store)).
Proof.
  split; (split; [|split; [|split]]).
  - counted_method travels_recovery_finish.
  - counted_method travels_agent_started.
  - counted_method travels_recovery_stdout.
  - counted_method travels_recovery_start.
  - counted_method travels_recovery_finish.
  - counted_method travels_agent_started.
  - counted_method travels_recovery_stdout.
  - counted_method travels_recovery_start.
Qed.

(** *** What the start has checked *)

(** While the run is made, no other thread writes the attributes of a recovery. *)
Context (Hkeep : forall h r, owned (more (others h r)) = owned (more r)).

Definition same_owned (s s' : st hcall run) : Prop := owned (more (obj s')) = owned (more (obj s)).

#[local] Instance same_owned_preorder : PreOrder same_owned.
Proof. split; [by intros s|]. intros s1 s2 s3. unfold same_owned. congruence. Qed.

Lemma same_owned_others s : same_owned s (St (hist s) (others (hist s) (obj s))).
Proof. apply Hkeep. Qed.

Lemma returns_owned {A} (m : R A) (Q : A -> st hcall run -> Prop) s :
  travels same_owned m -> returns m Q s ->
  returns m (fun a s' => Q a s' /\ owned (more (obj s')) = owned (more (obj s))) s.
Proof.
  intros Ht HQ a s' Hm. split; [by apply HQ|]. specialize (Ht s). by rewrite Hm in Ht.
Qed.

Lemma same_read_json name limit s :
  returns (_read_json_artifact sha256 others (_evidence_directory binding) name limit) (fun a s' =>
    read_back sha256 a /\ owned (more (obj s')) = owned (more (obj s))) s.
Proof.
  apply returns_owned; [apply travels_read_json_artifact; [exact _|done|apply same_owned_others]|].
  eapply returns_mono; [by apply (read_json_artifact_returns sha256 me)|]. by intros a s' [_ Hb].
Qed.

Lemma same_validate_ready legacy s :
  returns (Observer._validate_ready config binding sha256 others legacy) (fun _ s' =>
    ready_accepted config binding sha256 legacy /\ owned (more (obj s')) = owned (more (obj s))) s.
Proof.
  apply returns_owned.
  - unfold Observer._validate_ready.
    repeat first [travel_step | apply travels_read_json_artifact; [exact _|done|apply same_owned_others]].
  - eapply returns_mono; [by apply (validate_ready_returns config binding sha256 me)|]. by intros _ s' [_ Hr].
Qed.

Lemma take_first_snapshot plan' ready legacy s :
  returns (take_snapshot config binding sha256 others plan' "A" "snapshot-a.json" "snapshot_a_sha256" ready legacy
    "ready-barrier.json" "ready-validation.json") (fun _ s' => exists sa,
      read_back sha256 sa /\ _validate_snapshot config binding plan' (a_value sa) "A" legacy = Ok ()
      /\ dgetn "snapshot_a_sha256" ready = PStr (a_digest sa)
      /\ owned (more (obj s')) = owned (add_snapshot "A" sa (more (obj s)))) s.
Proof.
  unfold take_snapshot. apply returns_bind. eapply returns_mono; [apply same_read_json|]. intros sa s1 [Hb H1].
  apply returns_bind, returns_lift. intros [] Hd. apply returns_bind, returns_lift. intros [] Hv.
  apply returns_bind. unfold _validate_snapshot_barrier. apply returns_bind.
  eapply returns_mono; [apply same_read_json|]. intros barrier s2 [_ H2]. apply returns_bind.
  eapply returns_mono; [apply same_read_json|]. intros validation s3 [_ H3]. apply returns_lift. intros [] _.
  apply returns_modify. exists sa. split; [done|]. split; [done|]. split.
  - unfold same_digest in Hd. destruct (dindex _ ready) as [v|] eqn:E; [|done]. apply dindex_dgetn in E as <-.
    cbn in Hd. destruct v as [| | | |d| |]; try discriminate Hd. cbn in Hd. unfold raise_if in Hd.
    destruct (str_eqb (a_digest sa) d) eqn:Eq; [|discriminate Hd]. by apply str_eqb_eq in Eq as ->.
  - cbn [obj]. apply owned_snapshot. congruence.
Qed.

Lemma first_added sa e : first_snapshot (_snapshots (add_snapshot "A" sa e)) sa.
Proof. by exists 0%nat. Qed.

(** Also: a recovery run is handed out only with its first snapshot: when the
    constructor returns, the observer's READY binds this run and its recovery, the
    READY of the older protocol passed all its checks, and snapshot A, whose
    digest READY gives, was read, checked and kept. *)
Theorem recovery_ready_checked ctx store s :
  returns (start config binding sha256 this_thread others ctx store) (fun bd s' =>
    _bind_recovery ctx = Ok (b_plan bd) /\
    exists ready legacy sa, _ready (obj s') = Some ready
      /\ _validate_common binding (b_plan bd) ready _READY_KEYS "READY" 1 None = Ok ()
      /\ ready_accepted config binding sha256 legacy /\ _legacy_ready (more (obj s')) = Some legacy
      /\ snapshot_ok config binding sha256 bd legacy "A" sa
      /\ dgetn "snapshot_a_sha256" ready = PStr (a_digest sa)
      /\ first_snapshot (_snapshots (more (obj s'))) sa) s.
Proof.
  unfold start. apply returns_bind, returns_lift. intros plan' Hplan. apply returns_bind. intros root s1 _.
  do 3 (apply returns_bind; intros ? ? _). apply returns_bind. intros [recovery document] s2 _.
  apply returns_bind. intros encoded s3 _. do 5 (apply returns_bind; intros ? ? _).
  apply returns_bind, returns_unwinding, returns_bind. intros t s4 _.
  apply returns_bind. intros ready s5 _. apply returns_bind.
  unfold _validate_recovery_ready. apply returns_bind, returns_lift. intros [] Hready.
  apply returns_bind, digest_required_returns. intros _. apply returns_bind. intros committed s6 _.
  apply returns_bind, returns_throw_when. intros _. apply returns_bind. intros old s7 _.
  apply returns_bind. eapply returns_mono; [apply same_validate_ready|]. intros _ s8 [Hok H8].
  apply returns_bind, returns_modify. eapply returns_mono; [apply take_first_snapshot|].
  intros _ s9 (sa & Hb & Hv & Hd & H9). apply returns_bind. unfold accept_ready.
  apply returns_bind. intros ? ? [= <- <-]. apply returns_bind, returns_read. cbn [obj hist].
  destruct (_failure_reason _); [apply returns_throw|]. apply returns_modify. cbn [obj hist].
  set (s10 := St (hist s9) _).
  assert (travels (along me) (assert_healthy others)) as Ht1.
  { unfold assert_healthy. repeat first [travel_step
      | apply travels_locked; [exact _|by apply along_others|intros [h r]; reflexivity]
      | apply travels_act; [exact _|intros; apply along_call|by apply along_others|reflexivity]]. }
  assert (travels same_owned (assert_healthy others)) as Ht2.
  { unfold assert_healthy. repeat first [travel_step
      | apply travels_locked; [exact _|apply same_owned_others|intros [h r]; reflexivity]
      | apply travels_act; [exact _|done|apply same_owned_others|reflexivity]]. }
  eapply returns_mono; [apply returns_owned; [exact Ht2|by apply (returns_along (along me)), (fun a s' H => H)]|].
  intros _ s11 [[_ [Hs _]] Ho]. apply returns_ret. cbn [b_plan]. split; [done|].
  exists ready, (a_value old), sa. split; [by apply (sy_ready _ _ Hs)|]. split; [done|]. split; [done|].
  assert (owned (more (obj s11)) = owned (add_snapshot "A" sa (set_legacy (a_value old) (more (obj s8))))) as E.
  { rewrite Ho. unfold s10. cbn [obj keep_ready more]. by rewrite Hkeep, H9. }
  split; [by rewrite (owned_legacy _ _ E)|]. split; [by split|]. split; [done|].
  rewrite (owned_snapshots _ _ E). apply first_added.
Qed.

End properties.

(** The constructor hands out a run that has begun. *)
Corollary start_begins `{FloatText} `{Host} config binding sha256 me this_thread others
    (Hrely : forall h r, rely me r (others h r))
    (Hkeep : forall h r, owned (more (others h r)) = owned (more r)) ctx store s :
  returns (start config binding sha256 this_thread others ctx store)
    (fun bd s' => begun config binding sha256 bd (more (obj s'))) s.
Proof.
  eapply returns_mono; [by apply (recovery_ready_checked config binding sha256 me)|].
  intros bd s' (_ & ready & legacy & sa & _ & _ & _ & Hl & Hok & _ & Hsa). by exists legacy, sa.
Qed.

(** ** The roots of the file-system scope *)

Lemma hex_digit_plain k : (k < 16)%N -> hex_space (hex_digit k) = false /\ is_hex (hex_digit k) = true.
Proof.
  intros Hk. assert (exists n, (n < 16)%nat /\ k = N.of_nat n) as (n & Hn & ->).
  { exists (N.to_nat k). lia. }
  do 16 (destruct n as [|n]; [split; reflexivity|]). lia.
Qed.

Lemma fromhex_to_hex s : fromhex (to_hex s) = Some s.
Proof.
  unfold to_hex. induction s as [|c s IH]; [done|]. cbn [string_concat_map].
  pose proof (ascii_n_lt c) as Hc.
  assert (ascii_n c / 16 < 16)%N as H1 by (apply N.Div0.div_lt_upper_bound; lia).
  assert (ascii_n c mod 16 < 16)%N as H2 by by apply N.mod_lt.
  destruct (hex_digit_plain _ H1) as [E1 E2], (hex_digit_plain _ H2) as [E3 E4].
  change (String ?a (String ?b EmptyString) +:+ ?t) with (String a (String b t)).
  cbn [fromhex]. rewrite E1, E2, E4. cbn [andb]. rewrite !hex_value_digit by done. cbn [mbind option_bind].
  rewrite IH. cbn [fmap option_fmap option_map]. do 2 f_equal.
  rewrite <-N.div_mod by done. apply ascii_N_embedding.
Qed.

Lemma to_hex_even s : Nat.even (String.length (to_hex s)) = true.
Proof. unfold to_hex. by induction s as [|c s IH]. Qed.

Definition absolute (p : string) : Prop := starts_with "/" p = true /\ char_in "000" p = false.

Lemma root_bytes_hex p : absolute p -> root_bytes (hex_object (to_hex p)) = Ok p.
Proof.
  intros [H1 H2]. pose proof (to_hex_even p) as He. pose proof (fromhex_to_hex p) as Hf.
  unfold root_bytes, hex_object. set (e := to_hex p) in *. change (negb (has_keys _ _)) with false.
  change (dgetn _ _) with (PStr e). cbn [raise_if mbind result_bind]. by rewrite He, Hf, H1, H2.
Qed.

Lemma root_bytes_absolute v p : root_bytes v = Ok p -> absolute p.
Proof.
  unfold root_bytes, raise_if. destruct v as [| | | | | |d]; try done. destruct (negb _); [done|]. cbn.
  destruct (dgetn _ d) as [| | | |e| |]; try done. destruct (negb _); [done|]. cbn.
  destruct (fromhex e) as [q|]; [|done]. destruct (_ || _) eqn:E; [done|]. cbn. intros [= ->].
  apply orb_false_iff in E as [E1%negb_false_iff E2]. by split.
Qed.

Lemma mapped_absolute w s p : absolute w -> absolute s -> absolute p -> absolute (mapped w s p).
Proof. intros Hw Hs Hp. unfold mapped. by repeat case_match. Qed.

Lemma mapM_roots roots paths : mapM root_bytes roots = Ok paths -> Forall absolute paths.
Proof.
  revert paths. induction roots as [|v roots IH]; intros paths; simpl; [by intros [= <-]|].
  destruct (root_bytes v) as [p|] eqn:E; [|done]. cbn. destruct (mapM root_bytes roots) as [ps|] eqn:Em; [|done].
  cbn. intros [= <-]. constructor; [by eapply root_bytes_absolute|by apply IH].
Qed.

Lemma mapM_hex l : Forall absolute l -> mapM root_bytes (hex_object <$> (to_hex <$> l)) = Ok l.
Proof.
  induction 1 as [|p l Hp _ IH]; [done|]. rewrite !fmap_cons. cbn [mapM].
  rewrite root_bytes_hex by done. cbn [mbind result_bind]. by rewrite IH.
Qed.

Lemma mapM_map {A B C} (f : A -> result B) (g : B -> C) l :
  mapM (fun a => b ← f a; Ok (g b)) l = (l' ← mapM f l; Ok (g <$> l')).
Proof.
  induction l as [|a l IH]; [done|]. cbn [mapM]. destruct (f a) as [b|e]; [|done]. cbn. rewrite IH.
  by destruct (mapM f l).
Qed.

(** Also: the helper's view of the file system is the configured one, but for the
    session's two mount points: the rewritten roots decode to the configured ones
    with /workspace and /agent/shared replaced, each once, in ascending order of
    their encoding. *)
Theorem scope_roots_mapped workspace shared roots l :
  absolute workspace -> absolute shared -> rewrite_roots workspace shared roots = Ok l ->
  exists paths paths', mapM root_bytes roots = Ok paths /\ mapM root_bytes l = Ok paths'
    /\ paths' ≡ₚ mapped workspace shared <$> paths /\ NoDup paths'
    /\ StronglySorted string_le (to_hex <$> paths').
Proof.
  intros Hw Hs. unfold rewrite_roots. rewrite mapM_map.
  destruct (mapM root_bytes roots) as [paths|] eqn:Em; [|done]. cbn [mbind result_bind].
  set (hexed := _ <$> paths). destruct (bool_decide (NoDup hexed)) eqn:Hn; [|done]. cbn.
  apply bool_decide_eq_true in Hn. intros [= <-].
  assert (hexed = to_hex <$> (mapped workspace shared <$> paths)) as Eh.
  { unfold hexed. by rewrite <-list_fmap_compose. }
  assert (sort_strings hexed ≡ₚ to_hex <$> (mapped workspace shared <$> paths)) as Hp
    by (by rewrite sort_strings_perm, Eh).
  destruct (Permutation_map_inv _ _ Hp) as (paths' & E' & Hp').
  change (List.map to_hex paths') with (to_hex <$> paths') in E'.
  exists paths, paths'. split; [done|]. rewrite E'. split.
  - apply mapM_hex. rewrite <-Hp'. apply Forall_fmap. eapply Forall_impl; [by eapply mapM_roots|].
    intros p Ha. by apply mapped_absolute.
  - split; [by rewrite Hp'|]. split.
    + apply (NoDup_fmap_1 to_hex). by rewrite <-E', sort_strings_perm.
    + rewrite <-E'. apply StronglySorted_merge_sort; apply _.
Qed.
