(* ===== verification/RecoveryDemo.v ===== *)
(** * A recovery that is observed

    A host and an observer that see a recovery through: the inputs of the
    witnesses of [RecoverySpec.v]; and what the reader of the observer's messages
    lets pass. *)

From Stdlib Require Import Ascii SpecFloat.
From Stdlib Require String.
From stdpp Require Import gmap pretty.
From S2P Require Import Prelude Effects PyVal Paths Durable Kernel Json Runs Host EffectsConfig.
From S2P Require Import Observer ObserverSpec ObserverDemo Recovery RecoverySpec.
Open Scope Z_scope.

Definition recovery_config : SystemEffectsConfig :=
  SystemEffectsConfig_ (parse_path "/opt/observe") (parse_path "/opt/observe-verify")
    (parse_path "/opt/recorder.o") digest (parse_path "/opt/lifecycle.o") digest "balanced"
    "USER_INPUT" None None None 20 5000 (float_of_int 30) (float_of_int 60)
    (parse_path DEFAULT_HOST_LOCK_PATH) (Some (parse_path "/opt/recovery-verify"))
    (Some (parse_path "/opt/recover")) (Some digest) 120000 65536.

Definition demo_context : run_context := RunContext
  [("recovery", PDict
     [("checkpoint_id", PStr "cp-1"); ("recovery_id", PStr "rec-1"); ("scrub_runtime", PBool true);
      ("require_consistent", PBool true); ("baseline_created", PBool false)])] None.

(** The fields all messages of the run have, and those all artifacts have. *)
Definition message_of (status : string) (sequence : Z) (more : dict) : dict :=
  [("protocol_version", PInt 3); ("status", PStr status); ("run_id", PStr "run-1"); ("epoch", PInt 3);
   ("checkpoint_id", PStr "cp-1"); ("recovery_id", PStr "rec-1"); ("command_seq", PInt sequence);
   ("nonce", PStr digest)] ++ more.

Definition artifact_of (more : dict) : dict :=
  [("protocol_version", PInt 3); ("run_id", PStr "run-1"); ("epoch", PInt 3);
   ("checkpoint_id", PStr "cp-1"); ("recovery_id", PStr "rec-1")] ++ more.

Definition ready_3 : dict := message_of "READY" 1 [("snapshot_a_sha256", PStr digest)].
Definition started_3 : dict := message_of "AGENT_STARTED" 2 [("agent_started_sha256", PStr digest)].
Definition snapshot_b_3 : dict := message_of "SNAPSHOT_B" 2
  [("pre_restore_sha256", PStr digest); ("snapshot_b_sha256", PStr digest)].
Definition restored_3 : dict := message_of "RESTORE_COMPLETE" 2 [("recovery_sha256", PStr digest)].
Definition snapshot_c_3 : dict := message_of "SNAPSHOT_C" 3 [("snapshot_c_sha256", PStr digest)].
Definition finished_3 : dict := message_of "FINISHED" 3
  [("verdict_sha256", PStr digest); ("artifact_manifest_sha256", PStr digest)].

Definition demo_snapshot (phase : string) : dict := artifact_of
  [("schema_version", PInt 1); ("phase", PStr phase); ("snapshot_id", PStr ("snapshot-" +:+ phase));
   ("capture_started_unix_ns", PInt 100); ("capture_completed_unix_ns", PInt 200);
   ("boot_id", PStr (boot_id demo_binding)); ("deployment_scope_sha256", PStr digest);
   ("cgroup_scope_capability", PDict (expected_capability demo_binding));
   ("cgroup_scope_capability_sha256", PStr digest);
   ("root_cgroups", PList [PDict [("cgroup_id", PInt 77); ("path", PStr "/allox/s")]]);
   ("mount_namespace_ids", PList [PInt 5]); ("pid_namespace_ids", PList [PInt 8]);
   ("net_namespace_ids", PList [PInt 6]); ("uts_namespace_ids", PList [PInt 9; PInt 10]);
   ("ipc_namespace_ids", PList [PInt 7]);
   ("barrier_sha256", PStr digest); ("identity_assessment_sha256", PStr digest);
   ("bpf", PNone); ("filesystem", PNone); ("linux", PNone)].

Definition demo_plan : recovery_plan := RecoveryPlan "cp-1" "rec-1" true true false.

Definition demo_section : dict :=
  recovery_section recovery_config demo_binding demo_plan (parse_path "/srv/store") (parse_path "/opt/recover") digest.

Definition demo_evidence (success : bool) : dict :=
  [("schema_version", PInt 1); ("mechanism", PStr "DIRECT_EXEC_NO_SHELL"); ("checkpoint_id", PStr "cp-1");
   ("recovery_id", PStr "rec-1"); ("executable_path", dgetn "executable_path" demo_section);
   ("argv", dgetn "argv" demo_section); ("timeout_ms", PInt 120000); ("max_output_bytes", PInt 65536);
   ("expected_executable_sha256", PStr digest); ("success", PBool success)].

Definition demo_verdict : dict := artifact_of
  [("schema_version", PInt 1); ("snapshot_a_id", PStr "snapshot-A"); ("snapshot_b_id", PStr "snapshot-B");
   ("snapshot_c_id", PStr "snapshot-C"); ("snapshot_a_sha256", PStr digest); ("snapshot_b_sha256", PStr digest);
   ("snapshot_c_sha256", PStr digest); ("agent_delta", PList []); ("recovery_delta", PList []);
   ("residual_delta", PList []); ("classifications", PList []); ("raw_endpoint_proof_complete", PBool true);
   ("state_complete", PBool true); ("external_incompleteness_reasons", PList []);
   ("incompleteness_reasons", PList []); ("verdict", PStr "CONSISTENT_WITHIN_SCOPE"); ("limitations", PList [])].

Definition manifest_entry (name : string) (d : dict) : pyval :=
  PDict [("relative_path", PStr name); ("size_bytes", PInt (Z.of_nat (String.length (text_of d))));
         ("sha256", PStr digest)].

Definition recovery_manifest : dict := artifact_of
  [("deployment_scope_sha256", PStr digest); ("recovery_config_sha256", PStr digest);
   ("recovery_verdict_sha256", PStr digest); ("snapshot_a_sha256", PStr digest);
   ("snapshot_b_sha256", PStr digest); ("snapshot_c_sha256", PStr digest);
   ("committed_artifact_total_bytes", PInt 4000);
   ("artifacts", PList
      [manifest_entry "recovery-verdict.json" demo_verdict;
       manifest_entry "snapshot-a.json" (demo_snapshot "A");
       manifest_entry "snapshot-b.json" (demo_snapshot "B");
       manifest_entry "snapshot-c.json" (demo_snapshot "C")])].

Definition recovery_verification : dict := artifact_of
  [("schema_version", PInt 1); ("verified", PBool true); ("artifact_count", PInt 4);
   ("committed_artifact_total_bytes", PInt 4000); ("verdict", PStr "CONSISTENT_WITHIN_SCOPE");
   ("endpoint_replay_verified", PBool true); ("recorder_wal_replay_verified", PBool true)].

(** The files of the evidence directory; a file that is not listed is [{}]. *)
Definition evidence_files (success : bool) : list (string * dict) :=
  [("recovery-ready-message.json", ready_3); ("ready-message.json", demo_ready);
   ("deployment-manifest.json", demo_deployment); ("agent-started.json", started_3);
   ("snapshot-a.json", demo_snapshot "A"); ("snapshot-b.json", demo_snapshot "B");
   ("snapshot-c.json", demo_snapshot "C"); ("recovery.json", demo_evidence success);
   ("recovery-verdict.json", demo_verdict); ("recovery-artifact-manifest.json", recovery_manifest)].

(** Their descriptors are 20, 21 and so on; 3 and 4 are the audit directory and a
    file in it, 10 the evidence directory. *)
Definition evidence_fd (success : bool) (name : string) : Z :=
  match list_find (fun p => p.1 = name) (evidence_files success) with
  | Some (i, _) => 20 + Z.of_nat i
  | None => 19
  end.

Definition evidence_text (success : bool) (fd : Z) : string :=
  match nth_error (evidence_files success) (Z.to_nat (fd - 20)) with
  | Some (_, d) => if fd <? 20 then "{}" else text_of d
  | None => "{}"
  end.

Definition evidence_stat (success : bool) (fd : Z) : metadata :=
  if (fd =? 3) || (fd =? 10) then Metadata 1 fd 16832 0 2 0 0 0
  else Metadata 1 fd 33152 0 1 (Z.of_nat (String.length (evidence_text success fd))) 0 0.

Definition evidence_read (success : bool) (h : list hcall) (fd : Z) : string :=
  match List.last h HClock with HFstat _ => evidence_text success fd | _ => EmptyString end.

Definition recovery_host (success : bool) : Host := {|
  host h c := match c with
    | HOpen p _ => Done (if bool_decide (p = audit_directory demo_binding) then 3 else 10)
    | HOpenAt d name _ => Done (if d =? 3 then 4 else evidence_fd success name)
    | HFstat fd => Done (evidence_stat success fd)
    | HRead fd _ => Done (evidence_read success h fd)
    | HStatAt _ _ => Done (evidence_stat success 4)
    | HLstat _ => Done (evidence_stat success 3)
    | HDrained _ => Done (false, [text_of recovery_verification], [])
    | HCleanup _ _ _ => Done (PDict [("cleanup_status", PStr "COMPLETED"); ("cleanup_completed", PBool true)])
    | c => @host demo_host h c
    end;
  euid := 0 |}.

(** The reader hands on what the observer answers to each command. *)
Definition is_stdin_write (c : hcall) : bool := match c with HStdinWrite _ => true | _ => false end.

Definition recovery_others (h : list hcall) (r : run) : run :=
  match List.last h HClock with
  | HStartThread StderrReader => put_item (Message ready_3) r
  | HStdinWrite _ =>
      if (length (List.filter is_stdin_write h) =? 1)%nat then put_item (Message started_3) r
      else put_item (Message snapshot_c_3) (put_item (Message restored_3) (put_item (Message snapshot_b_3) r))
  | HStdin _ => put_item (Message finished_3) r
  | _ => r
  end.

Section runs.
Context (success : bool).

Definition fresh_run : st hcall run := St [] (new_recovery_run (Directory ∅ true)).

Definition demo_recovery_start : R bound :=
  @start _ (recovery_host success) recovery_config demo_binding demo_sha None recovery_others demo_context
    (Some (parse_path "/srv/store")).

Definition demo_agent_started (b : bound) : R unit :=
  @agent_started _ (recovery_host success) recovery_config demo_binding demo_sha None recovery_others b.

Definition demo_recovery_finish (b : bound) : R dict :=
  @finish _ (recovery_host success) recovery_config demo_binding demo_sha 1 None recovery_others b "completed"
    demo_quiescence.
End runs.

(** ** The witnesses *)

Lemma put_item_rely u i r : rely u r (put_item i r).
Proof. unfold put_item. repeat case_match; split; try (by constructor); intros _; by constructor. Qed.

Lemma recovery_rely h r : rely 1 r (recovery_others h r).
Proof.
  unfold recovery_others. destruct (List.last h HClock); try reflexivity; try apply put_item_rely.
  - destruct t; [reflexivity|apply put_item_rely].
  - destruct (_ =? _)%nat; [apply put_item_rely|].
    transitivity (put_item (Message snapshot_b_3) r); [apply put_item_rely|].
    transitivity (put_item (Message restored_3) (put_item (Message snapshot_b_3) r)); apply put_item_rely.
Qed.

Lemma put_item_owned i r : owned (more (put_item i r)) = owned (more r).
Proof. unfold put_item. by repeat case_match. Qed.

Lemma recovery_keeps h r : owned (more (recovery_others h r)) = owned (more r).
Proof.
  unfold recovery_others. destruct (List.last h HClock); try done; try apply put_item_owned.
  - destruct t; [done|apply put_item_owned].
  - destruct (_ =? _)%nat; by rewrite !put_item_owned.
Qed.

(** The run as the constructor leaves it, and as [agent_started] does. *)
Definition done_value {A} (r : reply A) : option A := match r with Done a => Some a | _ => None end.

Definition the_bound : bound := Eval vm_compute in
  default (Bound demo_plan (parse_path "/") [] [] "") (done_value (demo_recovery_start true fresh_run).1).

Definition started_run : st hcall run := Eval vm_compute in (demo_recovery_start true fresh_run).2.

Definition running_run : st hcall run := Eval vm_compute in (demo_agent_started true the_bound started_run).2.

Lemma start_computes : demo_recovery_start true fresh_run = (Done the_bound, started_run).
Proof. vm_compute. reflexivity. Qed.

Lemma agent_started_computes : demo_agent_started true the_bound started_run = (Done (), running_run).
Proof. vm_compute. reflexivity. Qed.

(** What [finish] leaves, with a helper that succeeds and with one that does not. *)
Definition finish_outcome (test : dict -> st hcall run -> bool) (m : reply dict * st hcall run)
    : bool :=
  match m with (Done receipt, s') => test receipt s' | _ => false end.

Definition restored (success : bool) (receipt : dict) (s' : st hcall run) : bool :=
  py_eqb (dgetn "recovery_command_succeeded" receipt) (PBool success)
  && eqb (existsb is_cleanup (hist s')) success
  && negb (length (hist s') =? length (hist running_run))%nat.

Lemma finish_computes success :
  finish_outcome (restored success) (demo_recovery_finish success the_bound running_run) = true.
Proof. destruct success; vm_compute; reflexivity. Qed.

Lemma finish_computes_spec success : exists receipt s',
  demo_recovery_finish success the_bound running_run = (Done receipt, s') /\ restored success receipt s' = true.
Proof.
  pose proof (finish_computes success) as Ht. revert Ht. unfold finish_outcome.
  generalize (demo_recovery_finish success the_bound running_run). intros [[receipt|e|] s']; [|done..].
  intros Ht. by exists receipt, s'.
Qed.

Lemma restored_spec success receipt s' : restored success receipt s' = true ->
  py_eqb (dgetn "recovery_command_succeeded" receipt) (PBool success) = true
  /\ existsb is_cleanup (hist s') = success /\ hist s' <> hist running_run.
Proof.
  unfold restored. intros [[H1 H2%eqb_prop]%andb_prop H3]%andb_prop. split; [exact H1|]. split; [exact H2|].
  intros Hh. rewrite Hh, Nat.eqb_refl in H3. discriminate H3.
Qed.


(** The run has begun when its constructor hands it out, and still has when its
    finish is claimed. *)
Lemma found_same :
  _legacy_ready (more (found recovery_others running_run)) = _legacy_ready (more (obj started_run))
  /\ _snapshots (more (found recovery_others running_run)) = _snapshots (more (obj started_run)).
Proof. split; vm_compute; reflexivity. Qed.

Lemma demo_begun : begun recovery_config demo_binding demo_sha the_bound
  (more (found recovery_others running_run)).
Proof.
  pose proof (@start_begins _ (recovery_host true) recovery_config demo_binding demo_sha 1 None
    recovery_others recovery_rely recovery_keeps demo_context (Some (parse_path "/srv/store")) fresh_run) as Hr.
  destruct (Hr _ _ start_computes) as (legacy & sa & Hl & Hsa & Hok).
  destruct found_same as [E1 E2]. exists legacy, sa. split; [by rewrite E1|]. split; [by rewrite E2|exact Hok].
Qed.


Example agent_start_called : (length (hist running_run) =? length (hist started_run))%nat = false.
Proof. vm_compute. reflexivity. Qed.


Lemma recovery_ready_checked_witness :
  exists ready legacy sa, _ready (obj started_run) = Some ready
    /\ snapshot_ok recovery_config demo_binding demo_sha the_bound legacy "A" sa.
Proof.
  pose proof (@recovery_ready_checked _ (recovery_host true) recovery_config demo_binding demo_sha 1 None
    recovery_others recovery_rely recovery_keeps demo_context (Some (parse_path "/srv/store")) fresh_run) as Hr.
  destruct (Hr _ _ start_computes) as (_ & ready & legacy & sa & H1 & _ & _ & _ & H5 & _).
  exists ready, legacy, sa. exact (conj H1 H5).
Defined.

Lemma scope_roots_mapped_witness :
  absolute "/srv/store/agents/a/current" /\ absolute "/srv/store/agents/a/shared"
  /\ exists l paths', rewrite_roots "/srv/store/agents/a/current" "/srv/store/agents/a/shared"
       [hex_object (to_hex "/workspace"); hex_object (to_hex "/etc"); hex_object (to_hex "/agent/shared")] = Ok l
     /\ mapM root_bytes l = Ok paths' /\ NoDup paths'.
Proof.
  assert (absolute "/srv/store/agents/a/current") as Hw by (split; reflexivity).
  assert (absolute "/srv/store/agents/a/shared") as Hs by (split; reflexivity).
  split; [exact Hw|]. split; [exact Hs|].
  destruct (rewrite_roots "/srv/store/agents/a/current" "/srv/store/agents/a/shared"
    [hex_object (to_hex "/workspace"); hex_object (to_hex "/etc"); hex_object (to_hex "/agent/shared")])
    as [l|e] eqn:E; [|vm_compute in E; discriminate E].
  destruct (scope_roots_mapped _ _ _ _ Hw Hs E) as (paths & paths' & _ & H2 & _ & H4 & _).
  exists l, paths'. split; [reflexivity|]. split; [exact H2|exact H4].
Defined.

(** ** What the reader lets pass

    The reader takes a FINISHED for the end of the run whenever it comes. *)
Definition alone (_ : list hcall) (r : run) : run := r.

(** Also: an observer that sends FINISHED while the agent is at work, and exits, is
    not reported: no failure is recorded, and the owner is not told. *)
Example early_finish_hides_exit : exists r',
  @_read_stdout _ (recovery_host true) alone [Line (text_of finished_3 +:+ newline); Eof] running_run
    = (Done (), St (hist running_run) r')
  /\ _failure_reason r' = None /\ _failure_reported r' = false /\ _phase r' = AGENT_RUNNING.
Proof. eexists. split; [vm_compute; reflexivity|]. split; [|split]; reflexivity. Qed.

(** Without the message the same exit is reported. *)
Example exit_reported : exists r',
  @_read_stdout _ (recovery_host true) alone [Eof] running_run
    = (Done (), St (hist running_run ++ [HOnFailure "deployment-observe recovery exited unexpectedly"]) r')
  /\ _failure_reason r' = Some "deployment-observe recovery exited unexpectedly"
  /\ _failure_reported r' = true /\ _phase r' = FAILED.
Proof. eexists. split; [vm_compute; reflexivity|]. split; [|split]; reflexivity. Qed.
