(* ===== verification/Network.v ===== *)
(** * Network namespaces of sessions

    [src/plugins/session-network/src/allox_session_network/networking.py] and
    [plugin.py]: a session runs in the network namespace of the daemon, in one of
    its own that has no way out, or in one of its own whose only way out is a
    socket to a broker of the daemon, which connects it to the destinations it
    names and keeps a record.  Processes, sockets, files and the clock answer
    through the class [Net]; times are in nanoseconds. *)

From Stdlib Require Import Ascii SpecFloat.
From Stdlib Require String.
From stdpp Require Import gmap pretty.
From S2P Require Import Prelude Effects PyVal Ids Paths Kernel Json Runs Registry Extensions.
From S2P Require Import EffectsConfig Observer.
Open Scope Z_scope.

Definition NETWORK_MODES : list string := ["inherit"; "isolated"; "proxy"].
Definition _MAX_HEADER : Z := 64 * 1024.
Definition _MAX_CONTROL : Z := 4096.
Definition _PROXY_PORT : Z := 3128.

Definition validate_network_mode (mode : pyval) : result string :=
  match mode with
  | PStr s =>
      let m := string_lower (string_strip s) in
      raise_if (negb (existsb (str_eqb m) NETWORK_MODES))
        (WorkspaceError "network mode must be inherit, isolated, or proxy");;
      Ok m
  | _ => Err (WorkspaceError "network mode must be inherit, isolated, or proxy")
  end.

(** ** Dictionaries in the order of their insertions *)

Section assoc.
Context {K V : Type} `{!EqDecision K}.

Fixpoint aget (k : K) (l : list (K * V)) : option V :=
  match l with
  | [] => None
  | (k', v) :: l => if decide (k = k') then Some v else aget k l
  end.

Fixpoint aset (k : K) (v : V) (l : list (K * V)) : list (K * V) :=
  match l with
  | [] => [(k, v)]
  | (k', w) :: l => if decide (k = k') then (k', v) :: l else (k', w) :: aset k v l
  end.

Definition adel (k : K) (l : list (K * V)) : list (K * V) :=
  List.filter (fun p => negb (bool_decide (p.1 = k))) l.
End assoc.

(** ** What the outside answers *)

Inductive ncall :=
  (* files *)
  | NResolve (p : pure_path)
  | NReadText (p : pure_path)
  | NWriteText (p : pure_path) (text : string)
  | NReplace (p q : pure_path)
  | NMkdir (p : pure_path)                       (* exist_ok=True, mode=0o700 *)
  | NUnlink (p : pure_path)
  | NChmod (p : pure_path)
  | NOpenAppend (p : pure_path)
  | NWriteLine (p : pure_path) (line : string)   (* open("a"), write *)
  | NWhich (command : string)
  (* processes *)
  | NSpawn (argv : list string) (log : Z)
  | NPoll (pid : Z)
  | NTerminate (pid : Z)
  | NKill (pid : Z)
  | NWait (pid : Z) (ns : Z)
  | NReadable (pid : Z) (ns : Z)                 (* select on its standard output *)
  | NReadline (pid : Z)
  | NCloseStdout (pid : Z)
  (* sockets and other descriptors *)
  | NSocket (family : Z)
  | NBind (fd : Z) (p : pure_path)
  | NListen (fd : Z)
  | NGetaddrinfo (host : string) (port : Z)
  | NConnect (fd : Z) (address : string)
  | NSettimeout (fd : Z)
  | NRecv (fd : Z) (n : Z)
  | NSendall (fd : Z) (bytes : string)
  | NSelect (fds : list Z)
  | NShutdown (fd : Z)                           (* both ways *)
  | NShutdownWrite (fd : Z)
  | NClose (fd : Z)
  (* the threads of a broker *)
  | NStartThread (server : Z)
  | NConnections (server : Z)                    (* the set of its connections *)
  | NForget (server client : Z)
  | NJoin (server : Z) (ns : Z)
  (* time, and the store *)
  | NMonotonic
  | NTime
  | NDescribe (agent_id session_id : string).

Definition nanswer (c : ncall) : Type :=
  match c with
  | NResolve _ => pure_path
  | NReadText _ | NReadline _ | NRecv _ _ => string
  | NWhich _ | NReadable _ _ => bool
  | NOpenAppend _ | NSpawn _ _ | NSocket _ | NMonotonic | NTime => Z
  | NPoll _ => option Z
  | NGetaddrinfo _ _ => list (Z * string)        (* family and address *)
  | NSelect _ | NConnections _ => list Z
  | _ => unit
  end.

Class Net := net : list ncall -> forall c : ncall, reply (nanswer c).

Section net.
Context `{Net} {O : Type}.

Definition ask (c : ncall) : P ncall O (nanswer c) := perform c (fun h => net h c).

(** [try: m except E: pass] *)
Definition ignoring (caught : exn -> bool) (m : P ncall O unit) : P ncall O unit :=
  catch m (fun e => if caught e then mret () else throw e).

(** The class of an exception; the two errors the code raises itself are of
    [ConnectionError]. *)
Definition no_stream : exn := OSError "unexpected end of stream".
Definition no_address : exn := OSError "destination has no usable address".

(** The subclass of [OSError] that Python makes of an error number. *)
Definition os_class (what : string) : string :=
  if str_eqb what "ECONNREFUSED" then "ConnectionRefusedError"
  else if str_eqb what "ECONNRESET" then "ConnectionResetError"
  else if str_eqb what "ECONNABORTED" then "ConnectionAbortedError"
  else if str_eqb what "EPIPE" || str_eqb what "ESHUTDOWN" then "BrokenPipeError"
  else if str_eqb what "ETIMEDOUT" then "TimeoutError"
  else if str_eqb what "gaierror" then "gaierror"
  else exn_name (OSError what).

Definition class_name (e : exn) : string :=
  if bool_decide (e = no_stream) || bool_decide (e = no_address) then "ConnectionError"
  else match e with OSError what => os_class what | _ => exn_name e end.

Definition is_missing (e : exn) : bool := bool_decide (e = ENOENT).

(** ** The broker, as the manager sees it

    A broker is known by its listening socket. *)

Definition new_broker (socket_path : pure_path) : P ncall O Z :=
  server ← ask (NSocket 1);
  ask (NBind server socket_path);;
  ask (NChmod socket_path);;
  ask (NListen server);;
  ask (NSettimeout server);;
  ask (NStartThread server);;
  mret server.

Definition close_connection (fd : Z) : P ncall O unit :=
  ignoring is_os_error (ask (NShutdown fd));; ask (NClose fd).

(** [SessionNetworkBroker.close] *)
Definition close_broker (server : Z) (socket_path : pure_path) : P ncall O unit :=
  ask (NClose server);;
  connections ← ask (NConnections server);
  iterate close_connection connections;;
  ask (NJoin server (2 * 10 ^ 9));;
  ignoring is_missing (ask (NUnlink socket_path)).

(** ** The first line of the helper *)

Definition SECOND : Z := 10 ^ 9.

Definition no_start : exn := WorkspaceError "Session network helper failed to start".

(** A loop that turns more often than its fuel allows is cut off. *)
Definition cut_off {A} : P ncall O A := fun s => (Interrupted, s).

Fixpoint read_loop (turns : nat) (pid deadline : Z) : P ncall O string :=
  match turns with
  | 0%nat => cut_off
  | S turns =>
      t ← ask NMonotonic;
      if t <? deadline then
        t' ← ask NMonotonic;
        let timeout := Z.min (SECOND / 10) (deadline - t') in
        throw_when (timeout <? 0) (ValueError "timeout must be non-negative");;
        readable ← ask (NReadable pid timeout);
        if (readable : bool) then
          line ← ask (NReadline pid);
          if str_eqb line EmptyString then throw no_start else mret line
        else
          code ← ask (NPoll pid);
          match code with Some _ => throw no_start | None => read_loop turns pid deadline end
      else throw no_start
  end.

Definition _readline_with_timeout (turns : nat) (pid timeout : Z) : P ncall O string :=
  t ← ask NMonotonic; read_loop turns pid (t + timeout).
End net.

(** ** The manager *)

Record settings := Settings {
  root : pure_path; socket_root : pure_path; default_mode : string;
  python : string; unshare : string; nsenter : string }.

(** An entry of [self._runtime]. *)
Record namespace := Namespace {
  n_mode : string; n_process : Z; n_broker : option (Z * pure_path); n_stderr : Z }.

Record manager := Manager {
  _configuration : list (string * string);
  _runtime : list ((string * string) * namespace) }.

Definition set_configuration c (m : manager) : manager := Manager c (_runtime m).
Definition set_runtime r (m : manager) : manager := Manager (_configuration m) r.

Record NetworkLaunch := NetworkLaunch_ {
  l_mode : string; argv_prefix : list string; environment : list (string * string);
  namespace_pid : option Z; broker_socket : option pure_path }.

Definition _key (agent_id session_id : string) : result (string * string) :=
  a ← validate_id "agent" agent_id; s ← validate_id "session" session_id; Ok (a, s).

Definition _storage_key (k : string * string) : string := k.1 +:+ "/" +:+ k.2.

(** [json.dumps(configuration, indent=2, sort_keys=True)] *)
Definition newline : string := String "010" EmptyString.

Definition member_line (kv : string * string) : string := quoted kv.1 +:+ ": " +:+ quoted kv.2.

Definition configuration_text (c : list (string * string)) : string :=
  match c with
  | [] => "{}"
  | _ => "{" +:+ newline +:+ "  "
         +:+ string_join ("," +:+ newline +:+ "  ") (member_line <$> merge_sort key_le c)
         +:+ newline +:+ "}"
  end.

Definition proxy_url : string := "http://127.0.0.1:" +:+ pretty _PROXY_PORT.

Definition proxy_environment : list (string * string) :=
  [("HTTP_PROXY", proxy_url); ("HTTPS_PROXY", proxy_url); ("http_proxy", proxy_url);
   ("https_proxy", proxy_url); ("NO_PROXY", "127.0.0.1,localhost,::1");
   ("no_proxy", "127.0.0.1,localhost,::1")].

(** [s[-500:]] *)
Definition last_500 (s : string) : string := string_drop (String.length s - 500) s.

Section manager.
Context `{FloatText} `{Net}.
Context (cfg : settings) (sha256 : string -> string) (turns : nat).
Context (others : list ncall -> manager -> manager).

Notation N := (P ncall manager).

Definition mode_of (k : string * string) (m : manager) : string :=
  default (default_mode cfg) (aget (_storage_key k) (_configuration m)).

Definition sessions_json : pure_path := path_child (root cfg) "sessions.json".
Definition sessions_json_tmp : pure_path := path_child (root cfg) "sessions.json.tmp".

Definition invalid_configuration : exn := WorkspaceError "invalid Session network configuration".

(** [{str(key): validate_network_mode(value) for key, value in data.items()}] *)
Definition checked_configuration (data : dict) : result (list (string * string)) :=
  mapM (fun kv => mode ← validate_network_mode kv.2; Ok (kv.1, mode)) data.

(** [json.loads] raises a [ValueError] or a subclass of it. *)
Definition decode_configuration (text : string) : result (list (string * string)) :=
  match loads text with
  | Ok (PDict data) => checked_configuration data
  | _ => Err invalid_configuration
  end.

Definition _load_configuration : N (list (string * string)) :=
  text ← catch (t ← ask (NReadText sessions_json); mret (Some t)) (fun e =>
    if is_missing e then mret None
    else if is_os_error e || is_value_error e then throw invalid_configuration else throw e);
  match text with
  | None => mret []
  | Some text => lift (decode_configuration text)
  end.

Definition mode (agent_id session_id : string) : N string :=
  k ← lift (_key agent_id session_id); read (mode_of k).

(** *** Stopping *)

(** [process.wait(timeout=...)], and [kill] when it is late. *)
Definition end_process (pid ns : Z) : N unit :=
  ask (NTerminate pid);;
  catch (ask (NWait pid ns)) (fun e =>
    if bool_decide (e = TimeoutExpired) then ask (NKill pid);; ask (NWait pid ns) else throw e).

Definition close_broker_of (b : option (Z * pure_path)) : N unit :=
  match b with Some (server, p) => close_broker server p | None => mret () end.

Definition _stop_locked (k : string * string) : N unit :=
  runtime ← read (fun m => aget k (_runtime m));
  modify (fun m => set_runtime (adel k (_runtime m)) m);;
  match runtime with
  | None => mret ()
  | Some n =>
      code ← ask (NPoll (n_process n));
      (match code with Some _ => mret () | None => end_process (n_process n) (3 * SECOND) end);;
      close_broker_of (n_broker n);;
      ask (NCloseStdout (n_process n));;
      ask (NClose (n_stderr n))
  end.

(** *** Starting *)

Definition digest_of_key (k : string * string) : string :=
  string_take 24 (sha256 (k.1 +:+ String "000" k.2)).

Definition session_directory (k : string * string) : pure_path := path_child (root cfg) (digest_of_key k).
Definition socket_directory (k : string * string) : pure_path :=
  path_child (socket_root cfg) (digest_of_key k).
Definition broker_path (k : string * string) : pure_path := path_child (socket_directory k) "broker.sock".
Definition log_path (k : string * string) : pure_path := path_child (session_directory k) "namespace.log".
Definition audit_path (k : string * string) : pure_path := path_child (session_directory k) "egress.jsonl".

Definition require_command (command : string) : N unit :=
  found ← ask (NWhich command);
  throw_when (negb (found : bool)) (WorkspaceError ("Session network isolation requires " +:+ command)).

Definition start_broker (k : string * string) (mode : string) : N (option (Z * pure_path)) :=
  if str_eqb mode "proxy" then
    throw_when (108 <=? Z.of_nat (String.length (path_str (broker_path k))))
      (WorkspaceError "network socket root is too long; use a short tmpfs path such as /dev/shm");;
    ignoring is_missing (ask (NUnlink (broker_path k)));;
    server ← new_broker (broker_path k);
    mret (Some (server, broker_path k))
  else mret None.

Definition helper_argv (mode : string) (b : option (Z * pure_path)) : list string :=
  [unshare cfg; "--net"; "--"; python cfg; "-m"; "allox_session_network.networking";
   "_namespace_helper"; "--mode"; mode]
  ++ match b with
     | Some (_, p) => ["--broker-socket"; path_str p; "--proxy-port"; pretty _PROXY_PORT]
     | None => []
     end.

(** The [try]: the helper says that it is ready. *)
Definition await_ready (pid : Z) : N unit :=
  ready ← _readline_with_timeout turns pid (10 * SECOND);
  message ← lift (loads ready);
  match message with
  | PDict d =>
      throw_when (negb (match dgetn "ready" d with PBool true => true | _ => false end))
        (WorkspaceError "Session network helper did not become ready")
  | _ => throw AttributeError
  end.

(** The [except]: everything is taken back. *)
Definition start_failed (k : string * string) (pid stderr : Z) (b : option (Z * pure_path)) (e : exn) : N unit :=
  end_process pid (2 * SECOND);;
  ask (NClose stderr);;
  close_broker_of b;;
  text ← catch (ask (NReadText (log_path k))) (fun e' => if is_os_error e' then mret EmptyString else throw e');
  let detail := string_strip text in
  if str_eqb detail EmptyString then throw e
  else throw (WorkspaceError ("Session network helper failed: " +:+ last_500 detail)).

Definition _start_locked (k : string * string) (mode : string) : N namespace :=
  require_command (unshare cfg);;
  require_command (nsenter cfg);;
  ask (NMkdir (session_directory k));;
  text ← lift (dumps true (PDict [("agent_id", PStr k.1); ("session_id", PStr k.2); ("mode", PStr mode)]));
  ask (NWriteText (path_child (session_directory k) "session.json") text);;
  ask (NMkdir (socket_directory k));;
  b ← start_broker k mode;
  stderr ← ask (NOpenAppend (log_path k));
  pid ← ask (NSpawn (helper_argv mode b) stderr);
  catch (await_ready pid) (start_failed k pid stderr b);;
  let n := Namespace mode pid b stderr in
  modify (fun m => set_runtime (aset k n (_runtime m)) m);;
  mret n.

(** *** The operations *)

Definition launch_of (n : namespace) (mode : string) : NetworkLaunch :=
  NetworkLaunch_ mode [nsenter cfg; "--target"; pretty (n_process n); "--net"; "--"]
    (if str_eqb mode "proxy" then proxy_environment else []) (Some (n_process n))
    (snd <$> n_broker n).

(** The namespace of a session whose helper is alive. *)
Definition running (k : string * string) (mode : string) : N namespace :=
  runtime ← read (fun m => aget k (_runtime m));
  match runtime with
  | None => _start_locked k mode
  | Some n =>
      code ← ask (NPoll (n_process n));
      match code with
      | None => mret n
      | Some _ => _stop_locked k;; _start_locked k mode
      end
  end.

Definition prepare (agent_id session_id : string) : N NetworkLaunch :=
  k ← lift (_key agent_id session_id);
  mode ← read (mode_of k);
  if str_eqb mode "inherit" then mret (NetworkLaunch_ mode [] [] None None)
  else n ← running k mode; mret (launch_of n mode).

Definition status (agent_id session_id : string) : N dict :=
  k ← lift (_key agent_id session_id);
  runtime ← read (fun m => aget k (_runtime m));
  alive ← match runtime with
          | Some n => code ← ask (NPoll (n_process n));
                      mret (match code with None => Some n | Some _ => None end)
          | None => mret None
          end;
  mode ← read (mode_of k);
  mret [("agent_id", PStr k.1); ("session_id", PStr k.2); ("mode", PStr mode);
        ("active", PBool (match alive with Some _ => true | None => false end));
        ("namespace_pid", match alive with Some n => PInt (n_process n) | None => PNone end);
        ("proxy_url", match alive with
                      | Some n => if str_eqb (n_mode n) "proxy" then PStr proxy_url else PNone
                      | None => PNone
                      end)].

(** The locked part of [configure] that changes something. *)
Definition reconfigure (k : string * string) (mode : string) : N unit :=
  _stop_locked k;;
  modify (fun m => set_configuration
    (if str_eqb mode (default_mode cfg) then adel (_storage_key k) (_configuration m)
     else aset (_storage_key k) mode (_configuration m)) m);;
  c ← read _configuration;
  ask (NWriteText sessions_json_tmp (configuration_text c));;
  ask (NReplace sessions_json_tmp sessions_json).

(** Between the two sections other threads may have the manager. *)
Definition configure (agent_id session_id : string) (mode : pyval) : N dict :=
  k ← lift (_key agent_id session_id);
  mode ← lift (validate_network_mode mode);
  current ← read (mode_of k);
  if str_eqb current mode then status k.1 k.2
  else reconfigure k mode;; interleave others;; status agent_id session_id.

Definition close : N unit :=
  keys ← read (fun m => (_runtime m).*1);
  iterate _stop_locked keys.
End manager.

(** [__init__]: the directories, and the configuration as it was saved. *)
Definition directory `{Net} {O} (p : pure_path) : P ncall O unit := ask (NMkdir p);; ask (NChmod p).

Definition init `{FloatText} `{Net} (root sockets : pure_path) (default_mode python : string)
    : P ncall manager settings :=
  root ← ask (NResolve root);
  directory root;;
  sockets ← ask (NResolve sockets);
  directory sockets;;
  mode ← lift (validate_network_mode (PStr default_mode));
  let cfg := Settings root sockets mode python "unshare" "nsenter" in
  c ← _load_configuration cfg;
  modify (fun _ => Manager c []);;
  mret cfg.

(** ** Bytes on sockets *)

Section streams.
Context `{Net} {O : Type}.

(** One byte at a time, up to the newline: [data] is what there is of it. *)
Fixpoint receive_line (turns : nat) (fd limit : Z) (data : string) : P ncall O string :=
  match turns with
  | 0%nat => cut_off
  | S turns =>
      chunk ← ask (NRecv fd 1);
      if str_eqb chunk EmptyString then throw no_stream
      else
        let data := data +:+ chunk in
        if char_in "010" data then
          throw_when (negb (ends_with_char "010" data)) (ValueError "control request has trailing bytes");;
          mret data
        else
          throw_when (limit <=? Z.of_nat (String.length data)) (ValueError "request header too large");;
          receive_line turns fd limit data
  end.

(** [_receive_until(stream, b"\n", limit)]: every turn but the last leaves fewer
    bytes to the limit. *)
Definition _receive_until (fd limit : Z) : P ncall O string :=
  receive_line (S (Z.to_nat limit)) fd limit EmptyString.

Definition header_end : string := String "013" (String "010" (String "013" (String "010" EmptyString))).

Fixpoint receive_header (turns : nat) (fd : Z) (data : string) : P ncall O string :=
  match turns with
  | 0%nat => cut_off
  | S turns =>
      chunk ← ask (NRecv fd (Z.min 4096 (_MAX_HEADER - Z.of_nat (String.length data))));
      if str_eqb chunk EmptyString then throw (OSError "unexpected end of HTTP headers")
      else
        let data := data +:+ chunk in
        if string_contains header_end data then mret data
        else
          throw_when (_MAX_HEADER <=? Z.of_nat (String.length data)) (ValueError "HTTP header too large");;
          receive_header turns fd data
  end.

Definition _receive_header (fd : Z) : P ncall O string :=
  receive_header (S (Z.to_nat _MAX_HEADER)) fd EmptyString.

(** *** Passing bytes on *)

(** What a turn does with one of the sockets: whether to go on, and which are
    still read. *)
Definition pass_on (peer : Z -> Z) (readable : list Z) (source : Z) : P ncall O (option (list Z)) :=
  chunk ← catch (ask (NRecv source 65536)) (fun e => if is_os_error e then mret EmptyString else throw e);
  let target := peer source in
  if str_eqb chunk EmptyString then
    ignoring is_os_error (ask (NShutdownWrite target));;
    mret (Some (List.filter (fun fd => negb (fd =? source)) readable))
  else
    catch (ask (NSendall target chunk);; mret (Some readable)) (fun e =>
      if is_os_error e then mret None else throw e).

Fixpoint pass_all (peer : Z -> Z) (readable ready : list Z) : P ncall O (option (list Z)) :=
  match ready with
  | [] => mret (Some readable)
  | source :: ready =>
      r ← pass_on peer readable source;
      match r with Some readable => pass_all peer readable ready | None => mret None end
  end.

Fixpoint relay_loop (turns : nat) (peer : Z -> Z) (readable : list Z) : P ncall O unit :=
  match turns with
  | 0%nat => cut_off
  | S turns =>
      match readable with
      | [] => mret ()
      | _ =>
          ready ← ask (NSelect readable);
          r ← pass_all peer readable ready;
          match r with Some readable => relay_loop turns peer readable | None => mret () end
      end
  end.

Definition _relay (turns : nat) (left right : Z) : P ncall O unit :=
  relay_loop turns (fun fd => if fd =? left then right else left) [left; right].
End streams.

(** ** One connection of the broker *)

(** The local variables of [_handle]; [None]: not assigned yet. *)
Record connection := Connection { c_remote : option Z; c_target : option (pyval * pyval) }.

Section connection.
Context `{FloatText} `{Net}.
Context (audit : pure_path) (server client : Z) (turns : nat).

Notation B := (P ncall connection).

(** Each address in turn; the last error, when there was one. *)
Fixpoint try_addresses (l : list (Z * string)) (last_error : option exn) : B Z :=
  match l with
  | [] => match last_error with
          | Some e => throw e
          | None => throw no_address
          end
  | (family, address) :: l =>
      candidate ← ask (NSocket family);
      ask (NSettimeout candidate);;
      r ← catch (ask (NConnect candidate address);; ask (NSettimeout candidate);; mret (inl candidate))
            (fun e => if is_os_error e then ask (NClose candidate);; mret (inr e) else throw e);
      match r with inl fd => mret fd | inr e => try_addresses l (Some e) end
  end.

Definition _destination (host port : pyval) : B Z :=
  match host with
  | PStr h =>
      throw_when (str_eqb h EmptyString || (253 <? Z.of_nat (String.length h))) (ValueError "invalid host");;
      match port with
      | PInt p =>
          throw_when ((p <? 1) || (65535 <? p)) (ValueError "invalid port");;
          addresses ← ask (NGetaddrinfo h p);
          try_addresses addresses None
      | _ => throw (ValueError "invalid port")
      end
  | _ => throw (ValueError "invalid host")
  end.

Definition audit_record (timestamp : Z) (host port : pyval) (allowed : bool) (error : option string) : dict :=
  [("timestamp_ns", PInt timestamp); ("host", host); ("port", port); ("allowed", PBool allowed)]
  ++ match error with Some e => [("error", PStr e)] | None => [] end.

(** The record is compact JSON; an error that is the empty string is none. *)
Definition _audit (host port : pyval) (allowed : bool) (error : option string) : B unit :=
  t ← ask NTime;
  text ← lift (compact false (PDict (audit_record t host port allowed error)));
  ask (NWriteLine audit (text +:+ newline)).

Definition ok_line : string := "{" +:+ quoted "ok" +:+ ":true}" +:+ newline.
Definition denied_line : string := "{" +:+ quoted "ok" +:+ ":false}" +:+ newline.

(** The [try] of [_handle]. *)
Definition serve_client : B unit :=
  control ← _receive_until client _MAX_CONTROL;
  request ← lift (loads_bytes control);
  match request with
  | PDict d =>
      let host := dgetn "host" d in
      let port := dgetn "port" d in
      modify (fun l => Connection (c_remote l) (Some (host, port)));;
      remote ← _destination host port;
      modify (fun l => Connection (Some remote) (c_target l));;
      _audit host port true None;;
      ask (NSendall client ok_line);;
      _relay turns client remote
  | _ => throw AttributeError
  end.

(** Its [except]. *)
Definition deny (e : exn) : B unit :=
  ignoring is_os_error
    (target ← read c_target;
     let '(host, port) := default (PNone, PNone) target in
     _audit host port false (Some (class_name e));;
     ask (NSendall client denied_line)).

(** Its [finally]. *)
Definition hang_up : B unit :=
  ask (NForget server client);;
  ask (NClose client);;
  remote ← read c_remote;
  match remote with Some fd => ask (NClose fd) | None => mret () end.

Definition _handle : B unit := finally (catch serve_client deny) hang_up.
End connection.

(** [_broker_connect]: the other end, in the namespace. *)
Definition _broker_connect `{FloatText} `{Net} {O} (path : string) (host : string) (port : Z) : P ncall O Z :=
  broker ← ask (NSocket 1);
  catch
    (ask (NConnect broker path);;
     text ← lift (dumps true (PDict [("host", PStr host); ("port", PInt port)]));
     ask (NSendall broker (text +:+ newline));;
     response ← _receive_until broker _MAX_CONTROL;
     answer ← lift (loads_bytes response);
     match answer with
     | PDict d => throw_when (negb (py_truthy (dgetn "ok" d))) (OSError "EPERM")
     | _ => throw AttributeError
     end;;
     mret broker)
    (fun e => ask (NClose broker);; throw e).

(** ** The plugin

    [SessionNetworkFeature] of [plugin.py]; its object holds the manager and the
    daemon's registry of executions. *)

Record network_feature := NetworkFeature { _manager : manager; _executions : registry }.

Definition put_manager (m : manager) (f : network_feature) : network_feature := NetworkFeature m (_executions f).
Definition put_executions (r : registry) (f : network_feature) : network_feature := NetworkFeature (_manager f) r.

Section plugin.
Context `{FloatText} `{Net}.
Context (sha256 : string -> string) (turns : nat) (others : list ncall -> manager -> manager).

Notation F := (P ncall network_feature).

(** [Path(config.get(key, default))] *)
Definition path_option (config : dict) (key default : string) : result pure_path :=
  match dget_or key (PStr default) config with
  | PStr s => Ok (parse_path s)
  | _ => Err TypeError
  end.

(** [__init__]: the directories of the manager are not in the store. *)
Definition feature_init (config : dict) (store_root : pure_path) (python : string) : F settings :=
  root ← lift (path_option config "root" "/run/allox-network");
  sockets ← lift (path_option config "socket_root" "/dev/shm/allox-network");
  resolved ← ask (NResolve root);
  resolved_sockets ← ask (NResolve sockets);
  throw_when (path_contains store_root resolved || path_contains store_root resolved_sockets)
    (WorkspaceError "Session network state and sockets must be outside the workspace store");;
  zoom _manager put_manager
    (init root sockets (py_str (dget_or "default_mode" (PStr "inherit") config)) python).

Context (cfg : settings) (tool : pure_path).

Definition network_mount (socket : pure_path) : result (list mount) :=
  m1 ← sandbox_mount (path_str socket) "/run/allox/network.sock" true;
  m2 ← sandbox_mount (path_str tool) "/run/allox/network.py" true;
  Ok [m1; m2].

Definition prepare_execution (agent_id session_id : string) : F contribution :=
  launch ← zoom _manager put_manager (prepare cfg sha256 turns agent_id session_id);
  mounts ← lift (match broker_socket launch with Some s => network_mount s | None => Ok [] end);
  let environment := Network.environment launch
    ++ match broker_socket launch with
       | Some _ => [("ALLOX_NETWORK_SOCKET", "/run/allox/network.sock")]
       | None => []
       end in
  mret (ExecutionContribution (argv_prefix launch) environment mounts
    [("network_mode", PStr (l_mode launch));
     ("network_namespace_pid", match namespace_pid launch with Some p => PInt p | None => PNone end)]).

(** [with self._context.executions.mutation(agent_id, session_id)] *)
Definition in_mutation {A} (agent_id session_id : string) (m : F A) : F A :=
  r ← read _executions;
  '(k, r') ← lift (mutation_enter agent_id session_id r);
  modify (put_executions r');;
  finally m (modify (fun f => put_executions (mutation_exit k (_executions f)) f)).

Definition required_string (params : dict) (key : string) : result string :=
  match dgetn key params with
  | PStr s => raise_if (str_eqb s EmptyString) (WorkspaceError ("missing string parameter: " +:+ key));; Ok s
  | _ => Err (WorkspaceError ("missing string parameter: " +:+ key))
  end.

Definition dispatch (action : string) (params : dict) : F dict :=
  agent_id ← lift (required_string params "agent_id");
  session_id ← lift (required_string params "session_id");
  ask (NDescribe agent_id session_id);;
  if str_eqb action "network.status" then
    zoom _manager put_manager (status cfg agent_id session_id)
  else if str_eqb action "network.configure" then
    mode ← lift (required_string params "mode");
    in_mutation agent_id session_id
      (zoom _manager put_manager (configure cfg others agent_id session_id (PStr mode)))
  else throw (WorkspaceError ("unknown action: " +:+ action)).
End plugin.
