(* ===== verification/NetworkSpec.v ===== *)
(** * What the network of a session promises

    A session that is not to have the daemon's network runs in a namespace that
    was made for it, in the mode that is configured for it; the broker records a
    destination before it passes a byte, and takes nothing from the stream that
    is not its own. *)

From Stdlib Require Import Ascii SpecFloat.
From Stdlib Require String.
From stdpp Require Import gmap pretty.
From S2P Require Import Prelude Effects PyVal Ids Paths Kernel Json Runs Host Registry.
From S2P Require Import EffectsConfig Observer Network.
Open Scope Z_scope.

(** ** Dictionaries *)

Section assoc.
Context {K V : Type} `{!EqDecision K}.
Implicit Types (k : K) (v : V) (l : list (K * V)).

Lemma aget_aset k v l : aget k (aset k v l) = Some v.
Proof.
  induction l as [|[k' w] l IH]; simpl; [by rewrite decide_True|].
  case_decide; simpl; [by rewrite decide_True|by rewrite decide_False].
Qed.

Lemma aget_aset_ne k k' v l : k <> k' -> aget k (aset k' v l) = aget k l.
Proof.
  intros Hk. induction l as [|[k1 w] l IH]; simpl.
  - by rewrite decide_False.
  - destruct (decide (k' = k1)) as [<-|]; simpl; [by rewrite !decide_False|]. by rewrite IH.
Qed.

Lemma aget_adel k l : aget k (adel k l) = None.
Proof.
  induction l as [|[k' w] l IH]; [done|]. simpl. case_bool_decide; simpl; [done|]. by rewrite decide_False.
Qed.

Lemma aget_adel_ne k k' l : k <> k' -> aget k (adel k' l) = aget k l.
Proof.
  intros Hk. induction l as [|[k1 w] l IH]; [done|]. simpl. case_bool_decide; simplify_eq/=.
  - by rewrite decide_False.
  - by rewrite IH.
Qed.
End assoc.

(** ** Keys *)

Lemma storage_key_inj (k k' : string * string) :
  char_in "/" k.1 = false -> char_in "/" k'.1 = false -> _storage_key k = _storage_key k' -> k = k'.
Proof.
  destruct k as [a s], k' as [a' s']. unfold _storage_key. cbn [fst snd]. revert a'.
  induction a as [|c a IH]; intros [|c' a']; cbn.
  - intros _ _ E. injection E as E. rewrite !string_app_nil_l in E. by subst.
  - intros _ Hc E. injection E as E _. subst. done.
  - intros Hc _ E. injection E as E _. subst. done.
  - intros [_ H1]%orb_false_iff [_ H2]%orb_false_iff E. injection E as -> E.
    by injection (IH a' H1 H2 E) as -> ->.
Qed.

Lemma key_named a s k : _key a s = Ok k -> k = (a, s) /\ ID_RE a = true /\ ID_RE s = true.
Proof.
  unfold _key. destruct (validate_id "agent" a) as [a'|] eqn:Ea; [|done]. cbn.
  destruct (validate_id "session" s) as [s'|] eqn:Es; [|done]. intros [= <-].
  apply validate_id_Ok in Ea as [-> ?]. by apply validate_id_Ok in Es as [-> ?].
Qed.

Definition named (k : string * string) : Prop := ID_RE k.1 = true /\ ID_RE k.2 = true.

Lemma named_inj k k' : named k -> named k' -> _storage_key k = _storage_key k' -> k = k'.
Proof. intros [H1 _] [H2 _]. apply storage_key_inj; by apply ID_RE_no_slash. Qed.

(** ** What does not touch the manager *)

Section still.
Context `{FloatText} `{Net} {O : Type}.

(** Calls are made, and the object is as it was. *)
Definition still (s s' : st ncall O) : Prop := grows s s' /\ obj s' = obj s.

#[export] Instance still_preorder : PreOrder still.
Proof.
  split; [by intros s; split|]. intros s1 s2 s3 [G1 E1] [G2 E2]. split; [by etrans|congruence].
Qed.

Lemma still_ask c : travels still (ask c).
Proof. apply travels_perform. intros [h o]. split; [by exists [c]|done]. Qed.

Lemma still_cut_off {A} : travels still (cut_off : P ncall O A).
Proof. by apply travels_still; [exact _|]. Qed.

Create HintDb still.
Ltac stay :=
  repeat first
    [ travel_step
    | lazymatch goal with
      | |- travels _ (ask _) => apply still_ask
      | |- travels _ (ignoring _ _) => unfold ignoring
      | |- travels _ cut_off => apply still_cut_off
      end
    | solve [eauto with still] ].

Lemma still_new_broker p : travels still (new_broker p).
Proof. unfold new_broker. stay. Qed.

Lemma still_close_broker server p : travels still (close_broker server p).
Proof. unfold close_broker, close_connection. stay. Qed.

Lemma still_read_loop turns pid deadline : travels still (read_loop turns pid deadline).
Proof. induction turns as [|turns IH]; simpl; stay. Qed.
End still.

#[export] Hint Resolve still_new_broker still_close_broker still_read_loop : still.

Ltac stay :=
  repeat first
    [ travel_step
    | lazymatch goal with
      | |- travels _ (ask _) => apply still_ask
      | |- travels _ (ignoring _ _) => unfold ignoring
      | |- travels _ cut_off => apply still_cut_off
      end
    | solve [eauto with still] ].

Lemma returns_ask `{Net} {O} c (Q : nanswer c -> st ncall O -> Prop) s :
  (forall r, net (hist s) c = Done r -> Q r (St (hist s ++ [c]) (obj s))) -> returns (ask c) Q s.
Proof. intros HQ. by apply (returns_perform c (fun h => net h c)). Qed.

Ltac asks := apply returns_bind; lazymatch goal with |- returns (ask ?c) _ _ => apply (returns_ask c) end.

(** ** The manager *)

Section manager.
Context `{FloatText} `{Net}.
Context (cfg : settings) (sha256 : string -> string) (turns : nat).
Context (others : list ncall -> manager -> manager).

Lemma still_end_process pid ns : travels still (end_process pid ns).
Proof. unfold end_process. stay. Qed.
#[local] Hint Resolve still_end_process : still.

Lemma still_close_broker_of b : travels still (close_broker_of b).
Proof. unfold close_broker_of. stay. Qed.
#[local] Hint Resolve still_close_broker_of : still.

Lemma still_await_ready pid : travels still (await_ready turns pid).
Proof. unfold await_ready, _readline_with_timeout. stay. Qed.

Lemma still_start_failed k pid log b e : travels still (start_failed cfg sha256 k pid log b e).
Proof. unfold start_failed. stay. Qed.

Lemma still_start_broker k mode : travels still (start_broker cfg sha256 k mode).
Proof. unfold start_broker. stay. Qed.

(** Between two histories the helper said that it is ready. *)
Definition said_ready (h0 h : list ncall) (pid : Z) : Prop :=
  exists h1 line d, h0 `prefix_of` h1 /\ net h1 (NReadline pid) = Done line
    /\ (h1 ++ [NReadline pid]) `prefix_of` h
    /\ loads line = Ok (PDict d) /\ dgetn "ready" d = PBool true.

(** A call that was answered between two histories. *)
Definition asked (h0 : list ncall) (c : ncall) (r : nanswer c) (h : list ncall) : Prop :=
  exists h1, h0 `prefix_of` h1 /\ net h1 c = Done r /\ (h1 ++ [c]) `prefix_of` h.

(** The namespace was made between two histories: its helper was started in a new
    network namespace, in its mode, and said that it was ready. *)
Definition born (h0 : list ncall) (n : namespace) (h : list ncall) : Prop :=
  exists h1, asked h0 (NSpawn (helper_argv cfg (n_mode n) (n_broker n)) (n_stderr n)) (n_process n) h1
    /\ said_ready h1 h (n_process n).

Lemma asked_mono h1 h2 c r h3 h4 :
  h1 `prefix_of` h2 -> asked h2 c r h3 -> h3 `prefix_of` h4 -> asked h1 c r h4.
Proof. intros H1 (k & H2 & Hr & H3) H4. exists k. split; [by etrans|]. split; [done|by etrans]. Qed.

Lemma born_mono h1 h2 n h3 h4 : h1 `prefix_of` h2 -> born h2 n h3 -> h3 `prefix_of` h4 -> born h1 n h4.
Proof.
  intros H1 (h & Ha & k & line & d & H2 & Hr & H3 & Hd) H4. exists h.
  split; [eapply asked_mono; [exact H1|exact Ha|done]|]. exists k, line, d.
  split; [done|]. split; [done|]. split; [by etrans|done].
Qed.

Lemma read_loop_returns pid deadline (s : st ncall manager) :
  returns (read_loop turns pid deadline) (fun line s' => grows s s' /\
    exists h, hist s `prefix_of` h /\ net h (NReadline pid) = Done line
      /\ (h ++ [NReadline pid]) `prefix_of` hist s') s.
Proof.
  revert s. induction turns as [|t IH]; intros s; simpl; [by intros ? ?|].
  asks. intros t1 _. destruct (t1 <? deadline); [|apply returns_throw].
  asks. intros t2 _. apply returns_bind, returns_throw_when. intros _.
  asks. intros [|] _; cbn [hist obj].
  - asks. intros line Hline. destruct (str_eqb line ""); [apply returns_throw|].
    apply returns_ret. cbn [hist obj] in *.
    split; [unfold grows; cbn [hist]; rewrite <-!app_assoc; by eexists|].
    eexists. split; [|split; [exact Hline|done]]. rewrite <-!app_assoc. by eexists.
  - asks. intros [code|] _; [apply returns_throw|].
    eapply returns_mono; [apply IH|]. cbn [hist obj]. intros line s' [G (h & H1 & H2 & H3)].
    assert (hist s `prefix_of` ((((hist s ++ [NMonotonic]) ++ [NMonotonic])
      ++ [NReadable pid (Z.min (SECOND / 10) (deadline - t2))]) ++ [NPoll pid])) as Hp
      by (rewrite <-!app_assoc; by eexists).
    split; [unfold grows in *; cbn [hist] in *; by etrans|]. exists h. split; [by etrans|done].
Qed.

Lemma await_ready_returns pid s :
  returns (await_ready turns pid) (fun _ s' => still s s' /\ said_ready (hist s) (hist s') pid) s.
Proof.
  apply (returns_travels still); [apply still_await_ready|].
  unfold await_ready, _readline_with_timeout. apply returns_bind; asks. intros t _.
  eapply returns_mono; [apply read_loop_returns|]. intros line s1 [G (h & H1 & H2 & H3)]. cbn [hist] in *.
  apply returns_bind, returns_lift. intros message Hm. destruct message as [| | | | | |d]; try apply returns_throw.
  apply returns_throw_when. intros Hr%negb_false_iff Hs. split; [done|].
  exists h, line, d. split; [etrans; [|exact H1]; by eexists|]. split; [done|]. split; [done|]. split; [done|].
  destruct (dgetn "ready" d) as [|[]| | | | |]; done.
Qed.

(** *** The wait for the helper ends *)

Section clock.
(** The clock advances between two readings, and no call is interrupted. *)
Context (advances : forall h t k t', net h NMonotonic = Done t ->
  net (h ++ NMonotonic :: k) NMonotonic = Done t' -> t < t').
Context (undisturbed : forall h c, net h c <> Interrupted).

Lemma read_loop_ends {O} n pid deadline h t (s : st ncall O) : net h NMonotonic = Done t ->
  (h ++ [NMonotonic]) `prefix_of` hist s -> t <= deadline -> deadline - t < Z.of_nat n ->
  ewp (read_loop n pid deadline) (fun r _ => r <> Interrupted) s.
Proof.
  revert h t s. induction n as [|n IH]; intros h t s Ht [k Hk] Hle Hn; cbn [read_loop]; [lia|].
  apply ewp_bind. unfold ask at 1. apply ewp_perform. cbn [hist obj].
  intros [t1|e|] H1; [|done|by destruct (undisturbed _ NMonotonic H1)].
  assert (t < t1) as Hlt. { rewrite Hk, <-app_assoc in H1. by eapply advances. }
  destruct (t1 <? deadline) eqn:Ed; [apply Z.ltb_lt in Ed|done].
  apply ewp_bind. unfold ask at 1. apply ewp_perform. cbn [hist obj].
  intros [t2|e|] H2; [|done|by destruct (undisturbed _ NMonotonic H2)].
  apply ewp_bind, ewp_throw_when; [done|]. intros _.
  apply ewp_bind. unfold ask at 1. apply ewp_perform. cbn [hist obj].
  intros [[|]|e|] H3; [| |done|by destruct (undisturbed _ (NReadable _ _) H3)].
  - apply ewp_bind. unfold ask at 1. apply ewp_perform. cbn [hist obj].
    intros [line|e|] H4; [|done|by destruct (undisturbed _ (NReadline _) H4)]. by destruct (str_eqb line "").
  - apply ewp_bind. unfold ask at 1. apply ewp_perform. cbn [hist obj].
    intros [[code|]|e|] H4; [done| |done|by destruct (undisturbed _ (NPoll _) H4)].
    apply (IH (hist s) t1); cbn [hist]; [done| |lia|lia]. rewrite <-!app_assoc, app_assoc. by eexists.
Qed.

(** Also: the wait for the first line of the helper ends, with a line or with an
    exception, after fewer turns than it has nanoseconds to wait. *)
Theorem helper_wait_ends {O} n pid timeout (s : st ncall O) : 0 <= timeout < Z.of_nat n ->
  ewp (_readline_with_timeout n pid timeout) (fun r _ => r <> Interrupted) s.
Proof.
  intros Hn. unfold _readline_with_timeout. apply ewp_bind. unfold ask. apply ewp_perform.
  intros [t|e|] Ht; [|done|by destruct (undisturbed _ NMonotonic Ht)].
  eapply read_loop_ends; [exact Ht|done|lia|lia].
Qed.
End clock.

(** *** Stopping and starting *)

Lemma ewp_still {A} (m : P ncall manager A) (Q : reply A -> st ncall manager -> Prop) s :
  travels still m -> (forall r s', still s s' -> Q r s') -> ewp m Q s.
Proof. intros Ht HQ. apply HQ, Ht. Qed.

(** A section that took the entry of [k] away. *)
Definition stopped (k : string * string) (s s' : st ncall manager) : Prop :=
  grows s s' /\ _configuration (obj s') = _configuration (obj s)
  /\ _runtime (obj s') = adel k (_runtime (obj s)).

Lemma stop_stops k s : ewp (_stop_locked k) (fun _ s' => stopped k s s') s.
Proof.
  unfold _stop_locked. apply ewp_bind, ewp_read, ewp_bind, ewp_modify.
  assert (stopped k s (St (hist s) (set_runtime (adel k (_runtime (obj s))) (obj s)))) as Hs
    by (split; [unfold grows; done|done]).
  apply ewp_still.
  - destruct (aget k _) as [n|]; [|apply travels_ret; exact _]. stay.
  - intros r s' [G E]. destruct Hs as (G1 & E1 & E2). split; [by etrans|]. rewrite E. done.
Qed.

Lemma broker_returns k mode s :
  returns (start_broker cfg sha256 k mode) (fun b s' => still s s'
    /\ snd <$> b = if str_eqb mode "proxy" then Some (broker_path cfg sha256 k) else None) s.
Proof.
  apply (returns_travels still); [apply still_start_broker|]. unfold start_broker.
  destruct (str_eqb mode "proxy").
  - do 2 (apply returns_bind; intros ? ? _). apply returns_bind. intros server s2 _.
    apply returns_ret. intros Hs. by split.
  - apply returns_ret. intros Hs. by split.
Qed.

Lemma start_failed_raises k pid log b e (s : st ncall manager) Q : returns (start_failed cfg sha256 k pid log b e) Q s.
Proof.
  unfold start_failed. do 4 (apply returns_bind; intros ? ? _). cbv zeta.
  destruct (str_eqb _ _); apply returns_throw.
Qed.

(** What [_start_locked] returns is new, and in the table. *)
Definition started (k : string * string) (mode : string) (s : st ncall manager) (r : reply namespace)
    (s' : st ncall manager) : Prop :=
  grows s s' /\ _configuration (obj s') = _configuration (obj s) /\
  match r with
  | Done n => _runtime (obj s') = aset k n (_runtime (obj s)) /\ n_mode n = mode
      /\ snd <$> n_broker n = (if str_eqb mode "proxy" then Some (broker_path cfg sha256 k) else None)
      /\ born (hist s) n (hist s')
  | _ => _runtime (obj s') = _runtime (obj s)
  end.

Lemma started_fails k mode s s' r : still s s' -> (forall n, r <> Done n) -> started k mode s r s'.
Proof. intros [G E] Hr. split; [done|]. rewrite E. split; [done|]. destruct r; [by destruct (Hr a)|done..]. Qed.

(** A part that cannot end the section well. *)
Lemma ewp_part {A} (m : P ncall manager A) (f : A -> P ncall manager namespace) k mode s0 s :
  travels still m -> still s0 s ->
  (forall a s', m s = (Done a, s') -> still s0 s' -> ewp (f a) (started k mode s0) s') ->
  ewp (m ≫= f) (started k mode s0) s.
Proof.
  intros Ht Hs Hf. apply ewp_bind. specialize (Ht s). unfold ewp at 1.
  destruct (m s) as [[a|e|] s'] eqn:E; cbn [fst snd] in *.
  - by apply Hf; [|etrans].
  - apply started_fails; [by etrans|done].
  - apply started_fails; [by etrans|done].
Qed.

Lemma still_require command : travels still (require_command command).
Proof. unfold require_command. stay. Qed.

Lemma start_starts k mode s : ewp (_start_locked cfg sha256 turns k mode) (started k mode s) s.
Proof.
  unfold _start_locked.
  do 2 (apply ewp_part; [apply still_require|done|]; intros ? ? _ ?).
  apply ewp_part; [apply still_ask|done|]. intros ? ? _ ?.
  apply ewp_part; [apply travels_lift; exact _|done|]. intros text ? _ ?.
  do 2 (apply ewp_part; [apply still_ask|done|]; intros ? ? _ ?).
  apply ewp_part; [apply still_start_broker|done|]. intros b s1 Hb%broker_returns Hs1.
  destruct Hb as [_ Hb].
  apply ewp_part; [apply still_ask|done|]. intros log s2 _ Hs2.
  apply ewp_part; [apply still_ask|done|]. intros pid s3 Hpid Hs3.
  assert (asked (hist s) (NSpawn (helper_argv cfg mode b) log) pid (hist s3)) as Ha.
  { injection Hpid as Hr <-. exists (hist s2). split; [apply Hs2|]. by split. }
  apply ewp_part; [|done|].
  { apply travels_catch; [exact _|apply still_await_ready|intros e; apply still_start_failed]. }
  intros [] s4 Hready Hs4. eapply (returns_catch _ _ (fun _ s' => still s3 s' /\ said_ready (hist s3) (hist s') pid))
    in Hready; [|apply await_ready_returns|intros; apply start_failed_raises].
  destruct Hready as [_ Hready].
  cbv zeta. apply ewp_bind, ewp_modify, ewp_ret. destruct Hs4 as [G4 E4]. cbn [hist obj].
  split; [exact G4|]. rewrite E4. split; [done|]. split; [done|]. split; [done|]. split; [exact Hb|].
  exists (hist s3). split; [exact Ha|exact Hready].
Qed.

(** *** The table *)

(** The helper of [n] is the process of call number [i]. *)
Definition spawned_at (i : nat) (n : namespace) (h : list ncall) : Prop :=
  exists h1, length h1 = i
    /\ net h1 (NSpawn (helper_argv cfg (n_mode n) (n_broker n)) (n_stderr n)) = Done (n_process n)
    /\ (h1 ++ [NSpawn (helper_argv cfg (n_mode n) (n_broker n)) (n_stderr n)]) `prefix_of` h.

(** What holds of the entry of a session. *)
Record entry_ok (i : nat) (h : list ncall) (m : manager) (k : string * string) (n : namespace) : Prop := EntryOk {
  en_named : named k;
  en_mode : n_mode n = mode_of cfg k m;
  en_apart : n_mode n <> "inherit";
  en_broker : snd <$> n_broker n = if str_eqb (n_mode n) "proxy" then Some (broker_path cfg sha256 k) else None;
  en_spawned : spawned_at i n h;
  en_ready : said_ready [] h (n_process n) }.

(** Every namespace in the table is in the mode of its session, and is that
    session's alone: no two come of the same call. *)
Definition kept (h : list ncall) (m : manager) : Prop :=
  exists at_ : string * string -> nat,
    (forall k n, aget k (_runtime m) = Some n -> entry_ok (at_ k) h m k n)
    /\ (forall k1 k2 n1 n2, aget k1 (_runtime m) = Some n1 -> aget k2 (_runtime m) = Some n2 ->
          at_ k1 = at_ k2 -> k1 = k2).

Lemma said_ready_mono h0 h h' pid : said_ready h0 h pid -> h `prefix_of` h' -> said_ready [] h' pid.
Proof.
  intros (h1 & line & d & _ & H2 & H3 & H4) Hp. exists h1, line, d. split; [by eexists|]. split; [done|].
  split; [by etrans|done].
Qed.

Lemma spawned_mono i n h h' : spawned_at i n h -> h `prefix_of` h' -> spawned_at i n h'.
Proof. intros (h1 & H1 & H2 & H3) Hp. exists h1. split; [done|]. split; [done|by etrans]. Qed.

Lemma spawned_before i n h : spawned_at i n h -> (i < length h)%nat.
Proof. intros (h1 & <- & _ & [k ->]). rewrite !length_app. simpl. lia. Qed.

Lemma entry_mono i h h' m m' k n : entry_ok i h m k n -> h `prefix_of` h' ->
  mode_of cfg k m' = mode_of cfg k m -> entry_ok i h' m' k n.
Proof.
  intros [E1 E2 E3 E4 E5 E6] Hp Hm. constructor; [done|congruence|done|done|by eapply spawned_mono|].
  by eapply said_ready_mono.
Qed.

(** The table may lose entries, and the modes of others than the entries change. *)
Lemma kept_less h h' m m' : kept h m -> h `prefix_of` h' ->
  (forall k n, aget k (_runtime m') = Some n -> aget k (_runtime m) = Some n
     /\ (named k -> mode_of cfg k m' = mode_of cfg k m)) -> kept h' m'.
Proof.
  intros (at_ & He & Hi) Hp Hl. exists at_. split.
  - intros k n Hk. apply Hl in Hk as [Hk Hm]. specialize (He _ _ Hk). eapply entry_mono; [exact He|done|].
    apply Hm, He.
  - intros k1 k2 n1 n2 H1 H2. apply Hl in H1 as [H1 _], H2 as [H2 _]. by eapply Hi.
Qed.

Lemma kept_grows h h' m : kept h m -> h `prefix_of` h' -> kept h' m.
Proof. intros Hk Hp. eapply kept_less; [exact Hk|done|]. done. Qed.

Lemma kept_still s s' : kept (hist s) (obj s) -> still s s' -> kept (hist s') (obj s').
Proof. intros Hk [G ->]. by eapply kept_grows. Qed.

(** An entry that was made since. *)
Lemma kept_more h h' m k n : kept h m -> named k -> mode_of cfg k m <> "inherit" ->
  n_mode n = mode_of cfg k m ->
  snd <$> n_broker n = (if str_eqb (n_mode n) "proxy" then Some (broker_path cfg sha256 k) else None) ->
  born h n h' -> kept h' (set_runtime (aset k n (_runtime m)) m).
Proof.
  intros (at_ & He & Hi) Hk Hne Hm Hb (h1 & (h0 & Hq & Hr & H1) & Hready).
  assert (h1 `prefix_of` h') as Hp1.
  { destruct Hready as (h2 & _ & _ & H2 & _ & H3 & _). etrans; [exact H2|]. etrans; [|exact H3]. by eexists. }
  assert (h `prefix_of` h') as Hp by (etrans; [exact Hq|]; etrans; [|exact Hp1]; etrans; [|exact H1]; by eexists).
  exists (fun k' => if decide (k' = k) then length h0 else at_ k'). cbn [_runtime set_runtime]. split.
  - intros k' n'. cbv beta. destruct (decide (k' = k)) as [->|Hk'].
    + rewrite aget_aset. intros [= <-]. constructor; [done|done|by rewrite Hm|done| |by eapply said_ready_mono].
      exists h0. split; [done|]. split; [done|]. by etrans.
    + rewrite aget_aset_ne by done. intros Hn. eapply entry_mono; [by apply He|done|done].
  - assert (forall k1 n1, aget k1 (_runtime m) = Some n1 -> at_ k1 <> length h0) as Hlt.
    { intros k1 n1 H2. pose proof (spawned_before _ _ _ (en_spawned _ _ _ _ _ (He _ _ H2))) as Hb1.
      apply prefix_length in Hq. lia. }
    intros k1 k2 n1 n2. cbv beta. destruct (decide (k1 = k)) as [->|H2], (decide (k2 = k)) as [->|H3]; [done|..];
      intros Hn1 Hn2 Heq.
    + rewrite aget_aset_ne in Hn2 by done. destruct (Hlt _ _ Hn2). congruence.
    + rewrite aget_aset_ne in Hn1 by done. destruct (Hlt _ _ Hn1). congruence.
    + rewrite aget_aset_ne in Hn1, Hn2 by done. by eapply Hi.
Qed.

(** *** The operations *)

(** Only the entry of [k] may be another. *)
Definition only_entry (k : string * string) (s s' : st ncall manager) : Prop :=
  forall k', k' <> k -> aget k' (_runtime (obj s')) = aget k' (_runtime (obj s)).

Lemma stopped_kept k s s' : kept (hist s) (obj s) -> stopped k s s' ->
  kept (hist s') (obj s') /\ only_entry k s s'.
Proof.
  intros Hk (G & Ec & Er). split.
  - eapply kept_less; [exact Hk|exact G|]. intros k' n. rewrite Er. destruct (decide (k' = k)) as [->|Hne].
    + by rewrite aget_adel.
    + rewrite aget_adel_ne by done. intros Hn. split; [done|]. intros _. unfold mode_of. by rewrite Ec.
  - intros k' Hne. rewrite Er. by apply aget_adel_ne.
Qed.

(** The namespace is there, and it is alive: it was just made, or just polled. *)
Definition entered (k : string * string) (s : st ncall manager) (r : reply namespace) (s' : st ncall manager)
    : Prop :=
  grows s s' /\ kept (hist s') (obj s') /\ only_entry k s s' /\ _configuration (obj s') = _configuration (obj s)
  /\ match r with
     | Done n => aget k (_runtime (obj s')) = Some n
         /\ (born (hist s) n (hist s') \/ asked (hist s) (NPoll (n_process n)) None (hist s'))
     | _ => True
     end.

Lemma started_confined k mode s s1 r s' : kept (hist s1) (obj s1) -> named k -> mode = mode_of cfg k (obj s1) ->
  mode <> "inherit" -> grows s s1 -> only_entry k s s1 -> _configuration (obj s1) = _configuration (obj s) ->
  started k mode s1 r s' -> entered k s r s'.
Proof.
  intros Hk Hn -> Hi G1 O1 C1 (G & Ec & Hr).
  assert (grows s s') as Gs by by etrans.
  assert (forall m m', _runtime m' = _runtime m -> _configuration m' = _configuration m -> m' = m) as Heq.
  { intros [c r1] [c' r2]. simpl. by intros -> ->. }
  destruct r as [n|e|].
  - destruct Hr as (Er & Em & Eb & Hb).
    assert (obj s' = set_runtime (aset k n (_runtime (obj s1))) (obj s1)) as Eo by by apply Heq.
    split; [done|]. split; [|split; [|split; [congruence|]]].
    + rewrite Eo. eapply kept_more; [exact Hk|done|done|done|by rewrite Em|exact Hb].
    + intros k' Hne. rewrite Er, aget_aset_ne by done. by apply O1.
    + split; [by rewrite Er, aget_aset|]. left. eapply born_mono; [exact G1|exact Hb|done].
  - assert (obj s' = obj s1) as Eo by by apply Heq. split; [done|].
    rewrite Eo. split; [by eapply kept_grows|]. split; [intros k' Hne; rewrite Eo; by apply O1|]. split; [congruence|done].
  - assert (obj s' = obj s1) as Eo by by apply Heq. split; [done|].
    rewrite Eo. split; [by eapply kept_grows|]. split; [intros k' Hne; rewrite Eo; by apply O1|]. split; [congruence|done].
Qed.

Lemma running_confined k s : kept (hist s) (obj s) -> named k -> mode_of cfg k (obj s) <> "inherit" ->
  ewp (running cfg sha256 turns k (mode_of cfg k (obj s))) (entered k s) s.
Proof.
  intros Hk Hn Hi. unfold running. apply ewp_bind, ewp_read.
  destruct (aget k _) as [n|] eqn:En.
  2:{ eapply ewp_mono; [apply start_starts|]. intros r s'. by apply started_confined. }
  apply ewp_bind. unfold ask. apply ewp_perform. intros [[code|]|e|] Ep.
  - apply ewp_bind. eapply ewp_mono; [apply stop_stops|].
    assert (kept (hist s ++ [NPoll (n_process n)]) (obj s)) as Hk1 by (eapply kept_grows; [exact Hk|by eexists]).
    intros r s1 Hs1. destruct (stopped_kept k (St (hist s ++ [NPoll (n_process n)]) (obj s)) s1 Hk1 Hs1) as [Hk2 O2].
    destruct Hs1 as (G1 & C1 & R1).
    cbn [hist obj] in *. assert (grows s s1) as G by (unfold grows in *; etrans; [|exact G1]; by eexists).
    destruct r as [[]|e|].
    + eapply ewp_mono; [apply start_starts|]. intros r s' Hs'.
      eapply started_confined; [exact Hk2|done| |done|exact G|exact O2|exact C1|exact Hs'].
      unfold mode_of. by rewrite C1.
    + split; [done|]. split; [done|]. split; [done|]. by split.
    + split; [done|]. split; [done|]. split; [done|]. by split.
  - apply ewp_ret. split; [by eexists|]. split; [eapply kept_grows; [exact Hk|by eexists]|].
    split; [by intros k' _|]. split; [done|]. split; [done|]. right. exists (hist s). by split.
  - split; [by eexists|]. split; [eapply kept_grows; [exact Hk|by eexists]|]. split; [by intros k' _|]. by split.
  - split; [by eexists|]. split; [eapply kept_grows; [exact Hk|by eexists]|]. split; [by intros k' _|]. by split.
Qed.

(** What [prepare] hands out. *)
Definition launch_ok (k : string * string) (s : st ncall manager) (l : NetworkLaunch) (s' : st ncall manager) : Prop :=
  let mode := mode_of cfg k (obj s) in
  if str_eqb mode "inherit" then l = NetworkLaunch_ mode [] [] None None
  else exists n i, aget k (_runtime (obj s')) = Some n /\ entry_ok i (hist s') (obj s') k n
    /\ l = launch_of cfg n mode /\ n_mode n = mode
    /\ (born (hist s) n (hist s') \/ asked (hist s) (NPoll (n_process n)) None (hist s')).

(** C15: a session starts in the network it is configured to have: what [prepare]
    returns enters no namespace only when the session's mode is to inherit; else
    it enters, by the process number, the namespace of a helper that was started
    in a new one for this session alone and in its mode, said that it was ready,
    and was made or found alive by this very call; and however the call ends, the
    table keeps this for every session, and the other sessions their entries. *)
Theorem network_as_configured agent_id session_id s :
  kept (hist s) (obj s) ->
  ewp (prepare cfg sha256 turns agent_id session_id) (fun r s' =>
    kept (hist s') (obj s') /\ only_entry (agent_id, session_id) s s'
    /\ match r with Done l => launch_ok (agent_id, session_id) s l s' | _ => True end) s.
Proof.
  intros Hk. unfold prepare. apply ewp_bind, ewp_lift.
  destruct (_key agent_id session_id) as [k|e] eqn:Ekey; [|by split; [|split]].
  apply key_named in Ekey as (-> & H1 & H2). assert (named (agent_id, session_id)) as Hn by by split.
  apply ewp_bind, ewp_read. destruct (str_eqb _ "inherit") eqn:Ei.
  - apply ewp_ret. split; [done|]. split; [by intros k' _|]. unfold launch_ok. by rewrite Ei.
  - assert (mode_of cfg (agent_id, session_id) (obj s) <> "inherit") as Hne.
    { intros E. rewrite E in Ei. discriminate Ei. }
    apply ewp_bind. eapply ewp_mono; [by apply running_confined|].
    intros [n|e|] s' (G & Hk' & Ho & Hc & Hr); [|by split; [|split]..].
    apply ewp_ret. split; [done|]. split; [done|]. destruct Hr as [Hget Hr].
    unfold launch_ok. rewrite Ei. destruct Hk' as (at_ & He & _). exists n, (at_ (agent_id, session_id)).
    pose proof (He _ _ Hget) as En. split; [done|]. split; [done|]. split; [done|]. split; [|done].
    rewrite (en_mode _ _ _ _ _ En). unfold mode_of. by rewrite Hc.
Qed.
End manager.

(** ** The configuration survives a restart *)

Section configuration.
Context `{FloatText}.

Lemma parse_quoted_value n v u : parse_value (S n) (quoted v +:+ u) = Ok (PStr v, u).
Proof.
  unfold quoted. rewrite string_app_cons. cbn [parse_value].
  rewrite (strip_char_ne "["), (strip_char_ne "{"), strip_char_eq by done.
  rewrite string_app_assoc, string_app_cons, string_app_nil_l, parse_quoted. done.
Qed.

Definition separator : string := "," +:+ newline +:+ "  ".

Lemma member_line_head kv u : value_head (member_line kv +:+ u).
Proof. unfold member_line. apply value_head_app, value_head_app, quoted_head. Qed.

Lemma join_lines p q ps r :
  string_join separator (p :: q :: ps) +:+ r
  = p +:+ String "," (newline +:+ "  " +:+ (string_join separator (q :: ps) +:+ r)).
Proof.
  change (string_join separator (p :: q :: ps)) with (p +:+ (separator +:+ string_join separator (q :: ps))).
  unfold separator, newline. by rewrite !string_app_assoc, !string_app_cons, !string_app_nil_l.
Qed.

Lemma skip_separator t : value_head t -> skip_space (newline +:+ "  " +:+ t) = t.
Proof. intros Ht. unfold newline. rewrite !string_app_cons, !string_app_nil_l. cbn [skip_space]. cbn. by apply value_head_skip. Qed.

Lemma parse_lines l n : l <> [] -> (length l < n)%nat ->
  parse_members n (string_join separator (member_line <$> l) +:+ newline +:+ "}")
  = Ok ((fun kv => (kv.1, PStr kv.2)) <$> l, EmptyString).
Proof.
  revert n. induction l as [|[k v] l IH]; intros n; [done|]. intros _ Hn. destruct n as [|n]; [simpl in Hn; lia|].
  destruct n as [|n]; [simpl in Hn; lia|].
  assert (forall u, parse_value (S n) (quoted v +:+ u) = Ok (PStr v, u)) as Hv by (intros; apply parse_quoted_value).
  assert (value_head (quoted v)) as Hh by apply quoted_head.
  destruct l as [|[k' v'] l].
  - change (string_join separator (member_line <$> [(k, v)])) with (quoted k +:+ ": " +:+ quoted v).
    rewrite (parse_member_head (S n) k (PStr v)) by done. done.
  - rewrite !fmap_cons, join_lines.
    change (member_line (k, v)) with (quoted k +:+ ": " +:+ quoted v).
    rewrite (parse_member_head (S n) k (PStr v)) by done.
    rewrite (value_head_skip (String "," _)) by (by eexists _, _). rewrite strip_char_eq.
    assert (value_head (string_join separator (member_line (k', v') :: (member_line <$> l)) +:+ newline +:+ "}")) as Hj.
    { destruct (member_line <$> l) as [|p ps]; [apply member_line_head|]. rewrite join_lines. apply member_line_head. }
    rewrite skip_separator by exact Hj. rewrite <-fmap_cons, IH by (done || (simpl in *; lia)). done.
Qed.

Definition as_values (l : list (string * string)) : dict := (fun kv => (kv.1, PStr kv.2)) <$> l.

Lemma lines_length (l : list (string * string)) :
  (length l <= String.length (string_join separator (member_line <$> l)))%nat.
Proof.
  induction l as [|kv [|kv' l] IH]; [simpl; lia| |].
  - destruct (quoted_head kv.1) as (c & t & E & _). cbn. unfold member_line. rewrite E, string_app_cons. simpl. lia.
  - rewrite !fmap_cons in *. change (string_join separator (?p :: ?q :: ?ps))
      with (p +:+ (separator +:+ string_join separator (q :: ps))).
    rewrite !string_length_app. change (String.length separator) with 4%nat. simpl length in *. lia.
Qed.

Lemma loads_configuration c : NoDup c.*1 ->
  loads (configuration_text c) = Ok (PDict (as_values (merge_sort key_le c))).
Proof.
  intros Hd. destruct c as [|kv c]; [done|]. unfold configuration_text.
  set (l := merge_sort key_le (kv :: c)).
  assert (l ≡ₚ kv :: c) as Hp by apply merge_sort_Permutation.
  assert (l <> []) as Hne by (intros E; rewrite E in Hp; by apply Permutation_nil_cons in Hp).
  assert (NoDup (dkeys (as_values l))) as Hk.
  { unfold dkeys, as_values. rewrite <-list_fmap_compose. change (NoDup (l.*1)). by rewrite Hp. }
  change ("," +:+ newline +:+ "  ") with separator.
  assert (exists p ps, l = p :: ps) as (p & ps & El) by (destruct l; [done|by eauto]).
  assert (value_head (string_join separator (member_line <$> l) +:+ newline +:+ "}")) as Hh.
  { rewrite El, fmap_cons. destruct (member_line <$> ps) as [|q qs]; [apply member_line_head|].
    rewrite join_lines. apply member_line_head. }
  pose proof (lines_length l) as Hlen.
  set (text := string_join separator (member_line <$> l) +:+ newline +:+ "}") in *.
  change ("{" +:+ newline +:+ "  " +:+ text) with (String "{" (newline +:+ "  " +:+ text)).
  unfold loads. rewrite (value_head_skip (String "{" _)) by (by eexists _, _). cbn [parse_value].
  rewrite (strip_char_ne "[") by done. rewrite strip_char_eq, skip_separator by exact Hh.
  destruct (value_head_close _ Hh) as [_ ->]. unfold text. rewrite parse_lines; [|done|].
  2:{ simpl. rewrite !string_length_app. unfold newline. simpl. lia. }
  cbn [mbind result_bind]. rewrite (fold_dset_app _ []) by exact Hk. done.
Qed.

Lemma checked_as_values l : Forall (fun kv => validate_network_mode (PStr kv.2) = Ok kv.2) l ->
  checked_configuration (as_values l) = Ok l.
Proof.
  unfold checked_configuration, as_values. induction 1 as [|[k v] l Hv _ IH]; [done|].
  rewrite fmap_cons. cbn [mapM fst snd]. cbn [snd] in Hv. rewrite Hv. cbn [mbind result_bind].
  by rewrite IH.
Qed.

(** Also: the modes survive a restart of the daemon: what [configure] writes is read
    back by the constructor as the same modes of the same sessions, in the order
    of their names. *)
Theorem configuration_survives c : NoDup c.*1 ->
  Forall (fun kv => validate_network_mode (PStr kv.2) = Ok kv.2) c ->
  decode_configuration (configuration_text c) = Ok (merge_sort key_le c).
Proof.
  intros Hd Hm. unfold decode_configuration. rewrite loads_configuration by done. apply checked_as_values.
  by rewrite (merge_sort_Permutation key_le c).
Qed.
End configuration.

(** ** Changing the mode *)

Section operations.
Context `{FloatText} `{Net}.
Context (cfg : settings) (sha256 : string -> string) (turns : nat).
Context (others : list ncall -> manager -> manager).

#[local] Abbreviation kept := (kept cfg sha256).

Definition new_configuration (k : string * string) (mode : string) (m : manager) : list (string * string) :=
  if str_eqb mode (default_mode cfg) then adel (_storage_key k) (_configuration m)
  else aset (_storage_key k) mode (_configuration m).

Lemma new_mode k mode m : mode_of cfg k (set_configuration (new_configuration k mode m) m) = mode.
Proof.
  unfold mode_of, new_configuration. cbn [set_configuration _configuration].
  destruct (str_eqb mode (default_mode cfg)) eqn:E.
  - rewrite aget_adel. apply str_eqb_eq in E as ->. done.
  - by rewrite aget_aset.
Qed.

Lemma other_mode k k' mode m : named k -> named k' -> k' <> k ->
  mode_of cfg k' (set_configuration (new_configuration k mode m) m) = mode_of cfg k' m.
Proof.
  intros H1 H2 Hne. unfold mode_of, new_configuration. cbn [set_configuration _configuration].
  assert (_storage_key k' <> _storage_key k) as Hs by (intros E; by apply named_inj in E).
  destruct (str_eqb _ _); [by rewrite aget_adel_ne|by rewrite aget_aset_ne].
Qed.

(** What the locked section that changes a mode leaves. *)
Definition reconfigured (k : string * string) (mode : string) (s : st ncall manager) (s' : st ncall manager) : Prop :=
  mode_of cfg k (obj s') = mode /\ aget k (_runtime (obj s')) = None
  /\ exists h, asked (hist s) (NWriteText (sessions_json_tmp cfg) (configuration_text (_configuration (obj s')))) () h
       /\ asked h (NReplace (sessions_json_tmp cfg) (sessions_json cfg)) () (hist s').

(** The other sessions' networks and modes. *)
Definition others_keep (k : string * string) (s s' : st ncall manager) : Prop :=
  only_entry k s s' /\ forall k', named k' -> k' <> k -> mode_of cfg k' (obj s') = mode_of cfg k' (obj s).

Lemma reconfigure_ewp k mode s : kept (hist s) (obj s) -> named k ->
  ewp (reconfigure cfg k mode) (fun r s' => grows s s' /\ kept (hist s') (obj s') /\ others_keep k s s'
    /\ match r with Done _ => reconfigured k mode s s' | _ => True end) s.
Proof.
  intros Hk Hn. unfold reconfigure. apply ewp_bind. eapply ewp_mono; [apply stop_stops|].
  intros r s1 Hs1. destruct (stopped_kept cfg sha256 k s s1 Hk Hs1) as [Hk1 O1]. destruct Hs1 as (G1 & C1 & R1).
  assert (forall k', mode_of cfg k' (obj s1) = mode_of cfg k' (obj s)) as M1 by (intros k'; unfold mode_of; by rewrite C1).
  destruct r as [[]|e|]; [|by split; [|split; [|split; [split|]]]..].
  apply ewp_bind, ewp_modify. fold (new_configuration k mode (obj s1)).
  set (m2 := set_configuration (new_configuration k mode (obj s1)) (obj s1)).
  assert (aget k (_runtime m2) = None) as Hnone by (unfold m2; cbn; by rewrite R1, aget_adel).
  assert (forall h, grows s (St h m2) -> hist s1 `prefix_of` h -> kept h m2 /\ others_keep k s (St h m2)) as H2.
  { intros h G Hp. split; [|split].
    - eapply kept_less; [exact Hk1|exact Hp|]. intros k' n Hget. split; [exact Hget|]. intros Hn'.
      apply other_mode; [done|done|]. intros ->. by rewrite Hnone in Hget.
    - intros k' Hne. cbn. unfold m2. cbn. by apply O1.
    - intros k' Hn' Hne. cbn [obj]. unfold m2. by rewrite other_mode. }
  assert (forall h, hist s1 `prefix_of` h -> grows s (St h m2)) as HG by (intros h Hp; unfold grows; by etrans).
  apply ewp_bind, ewp_read. cbn [obj hist]. apply ewp_bind. unfold ask at 1. apply ewp_perform. cbn [hist obj].
  set (c1 := NWriteText _ _). intros r1 Hr1.
  assert (hist s1 `prefix_of` hist s1 ++ [c1]) as P1 by by eexists.
  destruct (H2 _ (HG _ P1) P1) as [K2 O2].
  destruct r1 as [[]|e|]; [|by split; [apply HG|]..].
  unfold ask. apply ewp_perform. cbn [hist obj]. set (c2 := NReplace _ _). intros r2 Hr2.
  assert (hist s1 `prefix_of` (hist s1 ++ [c1]) ++ [c2]) as P2 by (rewrite <-app_assoc; by eexists).
  destruct (H2 _ (HG _ P2) P2) as [K3 O3]. split; [by apply HG|]. split; [done|]. split; [done|].
  destruct r2 as [[]|e|]; [|done..]. split; [apply new_mode|]. split; [exact Hnone|]. exists (hist s1 ++ [c1]).
  split; [by exists (hist s1)|]. by exists (hist s1 ++ [c1]).
Qed.

Lemma status_still a b : travels still (status cfg a b).
Proof. unfold status. stay. Qed.

(** Also: the mode of a session changes only while it has no namespace: [configure]
    leaves every namespace of the table in its session's mode, however it ends;
    when it returns, the session had the mode, and was given it with its old
    namespace out of the table and the new modes in the file that replaced the
    old one; the other sessions keep their namespaces and modes until the lock is
    given back. *)
Theorem mode_changed_without_namespace agent_id session_id mode s :
  (forall h m, kept h m -> kept h (others h m)) -> kept (hist s) (obj s) ->
  ewp (configure cfg others agent_id session_id mode) (fun r s' => kept (hist s') (obj s')
    /\ match r with
       | Done _ => exists m s1, validate_network_mode mode = Ok m
           /\ mode_of cfg (agent_id, session_id) (obj s1) = m
           /\ others_keep (agent_id, session_id) s s1 /\ hist s1 `prefix_of` hist s'
           /\ (obj s1 = obj s \/ reconfigured (agent_id, session_id) m s s1)
       | _ => True
       end) s.
Proof.
  intros Hothers Hk. unfold configure. apply ewp_bind, ewp_lift.
  destruct (_key agent_id session_id) as [k|e] eqn:Ekey; [|done].
  apply key_named in Ekey as (-> & H1 & H2). assert (named (agent_id, session_id)) as Hn by by split.
  apply ewp_bind, ewp_lift. destruct (validate_network_mode mode) as [m|e] eqn:Em; [|done].
  apply ewp_bind, ewp_read. destruct (str_eqb _ m) eqn:Eq.
  - apply str_eqb_eq in Eq. apply ewp_still; [apply status_still|]. intros r s' [G E].
    split; [rewrite E; by eapply kept_grows|]. destruct r as [d|e|]; [|done..]. exists m, s.
    split; [done|]. split; [done|]. split; [by split|]. split; [done|]. by left.
  - apply ewp_bind. eapply ewp_mono; [by apply reconfigure_ewp|].
    intros [[]|e|] s1 (G1 & K1 & O1 & R1); [|done..].
    apply ewp_bind, ewp_interleave, ewp_still; [apply status_still|]. intros r s' [G E]. cbn [hist obj] in *.
    split; [rewrite E; eapply kept_grows; [by apply Hothers|exact G]|]. destruct r as [d|e|]; [|done..].
    exists m, s1. split; [done|]. split; [by apply R1|]. split; [done|]. split; [exact G|]. by right.
Qed.

(** Also: [close] takes every namespace out of the table, or raises at the first
    that cannot be stopped. *)
Theorem close_empties s : returns close (fun _ s' => _runtime (obj s') = []) s.
Proof.
  unfold close. apply returns_bind, returns_read.
  assert (forall l (s : st ncall manager), returns (iterate _stop_locked l)
    (fun _ s' => forall k, aget k (_runtime (obj s')) = if decide (k ∈ l) then None else aget k (_runtime (obj s))) s) as Hl.
  { intros l. induction l as [|k l IH]; intros s1; cbn [iterate].
    - apply returns_ret. intros k. case_decide as Hin; [by apply not_elem_of_nil in Hin|done].
    - apply returns_bind. intros [] s2 Hm. pose proof (stop_stops k s1) as Hs. unfold ewp in Hs. rewrite Hm in Hs.
      destruct Hs as (_ & _ & Er). cbn [snd] in Er. eapply returns_mono; [apply IH|]. intros [] s3 H3 k'. rewrite H3, Er.
      destruct (decide (k' = k)) as [->|Hne].
      + rewrite aget_adel. repeat case_decide; set_solver.
      + rewrite aget_adel_ne by done. repeat case_decide; set_solver. }
  intros [] s' Hm. apply Hl in Hm. destruct (_runtime (obj s')) as [|[k n] l] eqn:Er; [done|].
  specialize (Hm k). simpl in Hm. rewrite decide_True in Hm by done. case_decide as Hin; [done|].
  destruct Hin. clear -Hm. induction (_runtime (obj s)) as [|[k' n'] r IH]; [done|]. simpl in *.
  case_decide; [subst; left|]. right. by apply IH.
Qed.
End operations.

(** ** Bytes *)

Section streams.
Context `{Net}.

(** What a call took from the socket [fd], and what it gave to it. *)
Definition taken (fd : Z) (c : ncall) : reply (nanswer c) -> string :=
  match c with
  | NRecv fd' _ => fun r => match r with Done s => if fd' =? fd then s else EmptyString | _ => EmptyString end
  | _ => fun _ => EmptyString
  end.

Definition given (fd : Z) (c : ncall) : reply (nanswer c) -> string :=
  match c with
  | NSendall fd' s => fun r => match r with Done _ => if fd' =? fd then s else EmptyString | _ => EmptyString end
  | _ => fun _ => EmptyString
  end.

(** The bytes that the calls [k], made after [h], took from and gave to [fd]. *)
Fixpoint received (fd : Z) (h k : list ncall) : string :=
  match k with
  | [] => EmptyString
  | c :: k => taken fd c (net h c) +:+ received fd (h ++ [c]) k
  end.

Fixpoint sent (fd : Z) (h k : list ncall) : string :=
  match k with
  | [] => EmptyString
  | c :: k => given fd c (net h c) +:+ sent fd (h ++ [c]) k
  end.

Lemma received_app fd h k1 k2 : received fd h (k1 ++ k2) = received fd h k1 +:+ received fd (h ++ k1) k2.
Proof.
  revert h. induction k1 as [|c k1 IH]; intros h; [by rewrite app_nil_r|]. simpl.
  rewrite IH, string_app_assoc. by rewrite <-app_assoc.
Qed.

Lemma sent_app fd h k1 k2 : sent fd h (k1 ++ k2) = sent fd h k1 +:+ sent fd (h ++ k1) k2.
Proof.
  revert h. induction k1 as [|c k1 IH]; intros h; [by rewrite app_nil_r|]. simpl.
  rewrite IH, string_app_assoc. by rewrite <-app_assoc.
Qed.

(** *** A line, and not a byte more *)

(** [recv(n)] gives at most [n] bytes. *)
Context (recv_bounded : forall h fd n s, net h (NRecv fd n) = Done s -> Z.of_nat (String.length s) <= n).

(** What was read is a line of at most [limit] bytes, read byte by byte. *)
Definition exact_line (fd limit : Z) (text : string) (h h' : list ncall) : Prop :=
  exists k body, h' = h ++ k /\ Forall (fun c => c = NRecv fd 1) k /\ received fd h k = text
    /\ text = body +:+ newline /\ char_in "010" body = false /\ Z.of_nat (String.length text) <= limit.

Lemma one_byte h fd s : net h (NRecv fd 1) = Done s -> s <> EmptyString -> exists c, s = String c EmptyString.
Proof.
  intros Hr Hs. apply recv_bounded in Hr. destruct s as [|c [|d s]]; [done|by exists c|]. simpl in Hr. lia.
Qed.

Lemma receive_line_ewp {O} turns fd limit data h0 (s : st ncall O) k0 :
  0 < limit -> hist s = h0 ++ k0 -> Forall (fun c => c = NRecv fd 1) k0 -> received fd h0 k0 = data ->
  char_in "010" data = false -> Z.of_nat (String.length data) < limit ->
  limit < Z.of_nat turns + Z.of_nat (String.length data) ->
  ewp (receive_line turns fd limit data) (fun r s' => obj s' = obj s
    /\ match r with
       | Done text => exact_line fd limit text h0 (hist s')
       | Raised _ => True
       | Interrupted => exists h, net h (NRecv fd 1) = Interrupted
       end) s.
Proof.
  intros Hl. revert data s k0. induction turns as [|turns IH]; intros data s k0 Hs Hk Hd Hno Hlen Ht; [lia|].
  cbn [receive_line]. apply ewp_bind. unfold ask. apply ewp_perform. cbn [hist obj].
  intros [chunk|e|] Hr; [|done|split; [done|by eexists]].
  destruct (str_eqb chunk EmptyString) eqn:Ee; [by apply ewp_throw|].
  destruct (one_byte _ _ _ Hr) as [c ->]. { intros ->. done. }
  assert (received fd h0 (k0 ++ [NRecv fd 1]) = data +:+ String c EmptyString) as Hd'.
  { rewrite received_app, Hd. simpl. rewrite <-Hs, Hr, Z.eqb_refl, string_app_nil_r. done. }
  assert (Forall (fun c => c = NRecv fd 1) (k0 ++ [NRecv fd 1])) as Hk' by (by apply Forall_app; split; [|constructor]).
  assert (hist s ++ [NRecv fd 1] = h0 ++ (k0 ++ [NRecv fd 1])) as Hs' by (by rewrite Hs, <-app_assoc).
  assert (String.length (data +:+ String c EmptyString) = S (String.length data)) as Hlen'
    by (rewrite string_length_app; simpl; lia).
  cbv zeta. rewrite char_in_app, Hno. cbn [orb]. destruct (char_in "010" (String c EmptyString)) eqn:Ec.
  - apply ewp_bind, ewp_throw_when; [done|]. intros _. apply ewp_ret. split; [done|].
    assert (c = "010"%char) as ->.
    { unfold char_in in Ec. simpl in Ec. rewrite orb_false_r in Ec. by apply bool_decide_eq_true in Ec. }
    exists (k0 ++ [NRecv fd 1]), data. cbn [hist]. split; [done|]. split; [done|]. split; [done|]. split; [done|].
    split; [done|]. rewrite Hlen'. lia.
  - apply ewp_bind, ewp_throw_when; [done|]. intros Hlim%Z.leb_gt.
    eapply ewp_mono; [apply (IH _ _ (k0 ++ [NRecv fd 1])); cbn [hist]; try done|].
    + by rewrite char_in_app, Hno.
    + rewrite Hlen' in *. lia.
    + done.
Qed.

(** Also: a control request is one line, and what follows it stays on the stream:
    [_receive_until] asks for one byte at a time and returns a line of at most the
    limit, which is exactly what it took from the stream; and it ends without
    being cut off, as long as the reads do. *)
Theorem control_line_exact {O} fd limit (s : st ncall O) : 0 < limit ->
  ewp (_receive_until fd limit) (fun r s' => obj s' = obj s
    /\ match r with
       | Done text => exact_line fd limit text (hist s) (hist s')
       | Raised _ => True
       | Interrupted => exists h, net h (NRecv fd 1) = Interrupted
       end) s.
Proof.
  intros Hl. apply (receive_line_ewp _ fd limit EmptyString (hist s) s []); try done.
  - by rewrite app_nil_r.
  - simpl. lia.
Qed.

(** *** The relay *)

(** What was taken from [a] was given to [b], but for [rest]. *)
Definition conveyed (a b : Z) (rest : string) (h k : list ncall) : Prop :=
  received a h k = sent b h k +:+ rest.

(** The last call is a [sendall] that failed. *)
Definition broke_off (h k : list ncall) : Prop :=
  exists k' fd chunk e, k = k' ++ [NSendall fd chunk] /\ net (h ++ k') (NSendall fd chunk) = Raised e
    /\ is_os_error e = true.

Definition quiet (c : ncall) : Prop :=
  match c with NRecv _ _ | NSendall _ _ => False | _ => True end.

Lemma quiet_taken fd c r : quiet c -> taken fd c r = EmptyString.
Proof. by destruct c. Qed.

Lemma quiet_given fd c r : quiet c -> given fd c r = EmptyString.
Proof. by destruct c. Qed.

Lemma received_snoc fd h k c : received fd h (k ++ [c]) = received fd h k +:+ taken fd c (net (h ++ k) c).
Proof. rewrite received_app. simpl. by rewrite string_app_nil_r. Qed.

Lemma sent_snoc fd h k c : sent fd h (k ++ [c]) = sent fd h k +:+ given fd c (net (h ++ k) c).
Proof. rewrite sent_app. simpl. by rewrite string_app_nil_r. Qed.

Lemma conveyed_quiet a b rest h k c : quiet c -> conveyed a b rest h k -> conveyed a b rest h (k ++ [c]).
Proof.
  unfold conveyed. intros Hc Hp. rewrite received_snoc, sent_snoc, quiet_taken, quiet_given by done.
  by rewrite !string_app_nil_r.
Qed.

Context (left right : Z) (Hne : left <> right).
Context (select_among : forall h fds l, net h (NSelect fds) = Done l -> forall fd, fd ∈ l -> fd ∈ fds).

#[local] Abbreviation peer := (fun fd => if fd =? left then right else left).

(** Both directions, nothing left over. *)
Definition level (h : list ncall) {O} (s s' : st ncall O) : Prop :=
  exists k, hist s' = h ++ k /\ obj s' = obj s /\ conveyed left right EmptyString h k /\ conveyed right left EmptyString h k.

(** What holds when the relay ends: in both directions the bytes that came out are
    the first of those that went in; all of them, when it returns without a send
    having failed. *)
Definition relayed (h : list ncall) {O} (s : st ncall O) (whole : bool) (s' : st ncall O) : Prop :=
  exists k r1 r2, hist s' = h ++ k /\ obj s' = obj s /\ conveyed left right r1 h k /\ conveyed right left r2 h k
    /\ (whole = true -> r1 = EmptyString /\ r2 = EmptyString \/ broke_off h k).

Lemma level_relayed h {O} (s : st ncall O) w s' : level h s s' -> relayed h s w s'.
Proof. intros (k & H1 & H2 & H3 & H4). exists k, EmptyString, EmptyString. by repeat (split; [done|]); left. Qed.

Lemma level_quiet h {O} (s s' : st ncall O) c : quiet c -> level h s s' -> level h s (St (hist s' ++ [c]) (obj s')).
Proof.
  intros Hc (k & H1 & H2 & H3 & H4). exists (k ++ [c]). cbn [hist obj]. split; [by rewrite H1, app_assoc|].
  split; [done|]. split; by apply conveyed_quiet.
Qed.

Lemma ask_quiet {O} c h (s0 s : st ncall O) (Q : reply (nanswer c) -> st ncall O -> Prop) : quiet c -> level h s0 s ->
  (forall r s', net (hist s) c = r -> level h s0 s' -> Q r s') -> ewp (ask c) Q s.
Proof. intros Hc Hl HQ. unfold ask. apply ewp_perform. intros r Hr. apply HQ; [done|]. by apply level_quiet. Qed.

Definition side (fd : Z) : Prop := fd = left \/ fd = right.

(** A chunk taken from one side and not given to the other yet. *)
Lemma chunk_taken h {O} (s0 s : st ncall O) source n chunk : side source -> level h s0 s ->
  net (hist s) (NRecv source n) = Done chunk ->
  exists k, hist s ++ [NRecv source n] = h ++ k /\ obj s = obj s0
    /\ conveyed source (peer source) chunk h k /\ conveyed (peer source) source EmptyString h k.
Proof.
  intros Hs (k & H1 & H2 & H3 & H4) Hr. exists (k ++ [NRecv source n]). split; [by rewrite H1, app_assoc|].
  split; [done|]. unfold conveyed in *. rewrite !received_snoc, !sent_snoc. rewrite <-H1, Hr. simpl.
  destruct Hs as [->| ->].
  - rewrite !Z.eqb_refl. rewrite (proj2 (Z.eqb_neq left right)) by done. by rewrite H3, H4, !string_app_nil_r.
  - rewrite !Z.eqb_refl. rewrite (proj2 (Z.eqb_neq right left)) by done. rewrite (proj2 (Z.eqb_neq right left)) by done.
    by rewrite H3, H4, !string_app_nil_r.
Qed.

(** ... and then to the other. *)
Lemma chunk_given h {O} (s0 : st ncall O) source chunk k ob r : side source -> ob = obj s0 ->
  conveyed source (peer source) chunk h k -> conveyed (peer source) source EmptyString h k ->
  net (h ++ k) (NSendall (peer source) chunk) = r ->
  let s' := St (h ++ k ++ [NSendall (peer source) chunk]) ob in
  match r with
  | Done _ => level h s0 s'
  | Raised e => relayed h s0 (is_os_error e) s'
  | Interrupted => relayed h s0 false s'
  end.
Proof.
  intros Hs Ho H1 H2 Hr. cbv zeta. set (c := NSendall _ _) in *.
  assert (conveyed source (peer source) (match r with Done _ => EmptyString | _ => chunk end) h (k ++ [c])
    /\ conveyed (peer source) source EmptyString h (k ++ [c])) as [P1 P2].
  { unfold conveyed in *. rewrite !received_snoc, !sent_snoc, Hr, H1, H2. cbn [taken c given].
    assert ((peer source =? source) = false) as Hp.
    { apply Z.eqb_neq. destruct Hs as [->| ->]; simpl; [rewrite Z.eqb_refl; by intros ->|].
      by rewrite (proj2 (Z.eqb_neq right left)) by done. }
    rewrite Hp, Z.eqb_refl. destruct r; by rewrite !string_app_nil_r. }
  assert (forall w rest, conveyed source (peer source) rest h (k ++ [c]) ->
    (w = true -> rest = EmptyString \/ broke_off h (k ++ [c])) -> relayed h s0 w (St (h ++ k ++ [c]) ob)) as Hrel.
  { intros w rest P Hw. exists (k ++ [c]). destruct Hs as [->| ->]; simpl in P, P2.
    - rewrite Z.eqb_refl in P, P2. exists rest, EmptyString. repeat (split; [done|]). intros E.
      destruct (Hw E) as [->|]; [by left|by right].
    - rewrite (proj2 (Z.eqb_neq right left)) in P, P2 by done. exists EmptyString, rest.
      repeat (split; [done|]). intros E. destruct (Hw E) as [->|]; [by left|by right]. }
  destruct r as [[]|e|].
  - exists (k ++ [c]). split; [done|]. split; [done|]. destruct Hs as [->| ->]; simpl in P1, P2.
    + by rewrite Z.eqb_refl in P1, P2.
    + by rewrite (proj2 (Z.eqb_neq right left)) in P1, P2 by done.
  - apply (Hrel _ chunk P1). intros He. right. by exists k, (peer source), chunk, e.
  - by apply (Hrel _ chunk P1).
Qed.

(** A turn: what is still read is a part of what was. *)
Definition turned (h : list ncall) {O} (s0 : st ncall O) (readable : list Z) (r : reply (option (list Z)))
    (s' : st ncall O) : Prop :=
  match r with
  | Done (Some l) => level h s0 s' /\ (forall fd, fd ∈ l -> fd ∈ readable)
  | Done None => relayed h s0 true s'
  | _ => relayed h s0 false s'
  end.

Lemma pass_on_turned h {O} (s0 s : st ncall O) readable source : side source -> level h s0 s ->
  ewp (pass_on peer readable source) (turned h s0 readable) s.
Proof.
  intros Hs Hl. unfold pass_on. apply ewp_bind, ewp_catch. unfold ask at 1. apply ewp_perform.
  intros r Hr. cbv zeta.
  assert (forall s1, level h s0 s1 -> ewp (ignoring is_os_error (ask (NShutdownWrite (peer source)));;
    mret (Some (List.filter (fun fd => negb (fd =? source)) readable))) (turned h s0 readable) s1) as Hend.
  { intros s1 H1. apply ewp_bind. unfold ignoring. apply ewp_catch, (ask_quiet (NShutdownWrite _) h s0); [done|exact H1|].
    intros [[]|e|] s2 _ H2; [|destruct (is_os_error e)|by apply level_relayed].
    - apply ewp_ret. split; [done|]. intros fd. rewrite !list_elem_of_In, filter_In. by intros [].
    - apply ewp_ret, ewp_ret. split; [done|]. intros fd. rewrite !list_elem_of_In, filter_In. by intros [].
    - by apply level_relayed. }
  destruct r as [chunk|e|].
  - destruct (chunk_taken h s0 s source 65536 chunk Hs Hl Hr) as (k & Hk & Ho & P1 & P2).
    destruct (str_eqb chunk EmptyString) eqn:Ee.
    + apply str_eqb_eq in Ee as ->. apply Hend. rewrite Hk, Ho. exists k. split; [done|]. split; [done|].
      destruct Hs as [->| ->]; simpl in P1, P2; [by rewrite Z.eqb_refl in P1, P2|].
      by rewrite (proj2 (Z.eqb_neq right left)) in P1, P2 by done.
    + rewrite Hk. apply ewp_catch, ewp_bind. unfold ask. apply ewp_perform. cbn [hist obj]. intros r Hr2.
      pose proof (chunk_given h s0 source chunk k (obj s) r Hs Ho P1 P2 Hr2) as Hg. cbv zeta in Hg.
      rewrite app_assoc in Hg. destruct r as [[]|e|]; [|destruct (is_os_error e)|exact Hg].
      * apply ewp_ret. by split.
      * apply ewp_ret. exact Hg.
      * apply ewp_throw. exact Hg.
  - assert (level h s0 (St (hist s ++ [NRecv source 65536]) (obj s))) as Hl'.
    { destruct Hl as (k & H1 & H2 & H3 & H4). exists (k ++ [NRecv source 65536]). cbn [hist obj].
      split; [by rewrite H1, app_assoc|]. split; [done|]. unfold conveyed in *.
      rewrite !received_snoc, !sent_snoc, <-H1, Hr. cbn [taken given]. rewrite H3, H4. by rewrite !string_app_nil_r. }
    destruct (is_os_error e); [|by apply level_relayed]. apply ewp_ret. by apply Hend.
  - destruct Hl as (k & H1 & H2 & H3 & H4). exists (k ++ [NRecv source 65536]), EmptyString, EmptyString.
    cbn [hist obj]. split; [by rewrite H1, app_assoc|]. split; [done|]. unfold conveyed in *.
    rewrite !received_snoc, !sent_snoc, <-H1, Hr. cbn [taken given]. rewrite H3, H4. by rewrite !string_app_nil_r.
Qed.

Lemma pass_all_turned h {O} (s0 s : st ncall O) readable ready : Forall side ready -> level h s0 s ->
  ewp (pass_all peer readable ready) (turned h s0 readable) s.
Proof.
  intros Hs. revert s readable. induction Hs as [|source ready H1 _ IH]; intros s readable Hl; cbn [pass_all].
  - apply ewp_ret. by split.
  - apply ewp_bind. eapply ewp_mono; [by apply pass_on_turned|]. intros [[l|]|e|] s1; cbn; [|done..].
    intros [Hl1 Hsub]. eapply ewp_mono; [by apply IH|]. intros [[l2|]|e|] s2; cbn; [|done..].
    intros [Hl2 Hsub2]. split; [done|]. intros fd Hfd. by apply Hsub, Hsub2.
Qed.

(** C32: the relay neither loses, nor adds, nor reorders a byte: at every end of
    [_relay] what came out of each socket is the beginning of what went in at the
    other, and when it returns without a send having failed, all of it. *)
Theorem relay_faithful {O} turns (s : st ncall O) :
  ewp (_relay turns left right)
    (fun r s' => relayed (hist s) s (match r with Done _ => true | _ => false end) s') s.
Proof.
  unfold _relay. set (h := hist s).
  assert (forall turns readable s1, level h s s1 -> Forall side readable ->
    ewp (relay_loop turns peer readable)
      (fun r s' => relayed h s (match r with Done _ => true | _ => false end) s') s1) as Hloop.
  { clear turns. induction turns as [|turns IH]; intros readable s1 Hl Hr; cbn [relay_loop];
      [by apply level_relayed|].
    destruct readable as [|fd fds]; [apply ewp_ret; by apply level_relayed|].
    apply ewp_bind, (ask_quiet (NSelect _) h s); [done|exact Hl|].
    intros [ready|e|] s2 Hready Hl2; [|by apply level_relayed..].
    apply ewp_bind. eapply ewp_mono; [apply pass_all_turned; [|exact Hl2]|].
    - apply Forall_forall. intros x Hx. rewrite Forall_forall in Hr. apply Hr. by eapply select_among.
    - intros [[l|]|e|] s3; cbn; [|done..]. intros [Hl3 Hsub]. apply IH; [done|].
      apply Forall_forall. intros x Hx. rewrite Forall_forall in Hr. by apply Hr, Hsub. }
  apply Hloop; [|by constructor; [left|constructor; [right|constructor]]]. exists []. unfold h. by rewrite app_nil_r.
Qed.
End streams.

(** ** A connection *)

Section connection.
Context `{FloatText} `{Net}.
Context (audit : pure_path) (server client : Z) (turns : nat).

(** Nothing passes between the client and the destination, and the client is told
    nothing but no. *)
Definition closed (c : ncall) : Prop :=
  match c with
  | NSelect _ | NShutdownWrite _ => False
  | NSendall fd bytes => fd = client /\ bytes = denied_line
  | _ => True
  end.

Ltac shut := repeat first [ exact I | by split | only_step ].

Lemma only_grows {O} p {A} (m : P ncall O A) : only p m -> travels grows m.
Proof. intros Hm s. destruct (Hm s) as (k & Hk & _). by exists k. Qed.

Lemma receive_line_closed {O} n fd limit data : only closed (receive_line n fd limit data : P ncall O string).
Proof. revert data. induction n as [|n IH]; intros data; cbn [receive_line]; [by apply only_same|]. shut. apply IH. Qed.

Lemma try_addresses_closed l last : only closed (try_addresses l last).
Proof.
  revert last. induction l as [|[family address] l IH]; intros last; cbn [try_addresses]; [by destruct last; shut|].
  shut. apply IH.
Qed.

Lemma destination_closed host port : only closed (_destination host port).
Proof. unfold _destination. shut. apply try_addresses_closed. Qed.

Lemma deny_closed e : only closed (deny audit client e).
Proof. unfold deny, ignoring. shut. Qed.

Lemma hang_up_closed : only closed (hang_up server client).
Proof. unfold hang_up. shut. Qed.

(** *** The destination *)

(** The socket is of one of the addresses, and connected to it. *)
Definition connected (h : list ncall) (l : list (Z * string)) (fd : Z) (h' : list ncall) : Prop :=
  exists family address, (family, address) ∈ l /\ asked h (NSocket family) fd h'
    /\ asked h (NConnect fd address) () h'.

Lemma connected_mono h1 h2 l l' fd h : h1 `prefix_of` h2 -> (forall x, x ∈ l -> x ∈ l') ->
  connected h2 l fd h -> connected h1 l' fd h.
Proof.
  intros Hp Hl (family & address & Hin & H1 & H2). exists family, address. split; [by apply Hl|].
  split; [by eapply asked_mono|by eapply asked_mono].
Qed.

Lemma try_addresses_connected l last s :
  returns (try_addresses l last) (fun fd s' => connected (hist s) l fd (hist s')) s.
Proof.
  revert last s. induction l as [|[family address] l IH]; intros last s; cbn [try_addresses];
    [destruct last; apply returns_throw|].
  asks. intros fd Hfd. cbn [hist obj].
  asks. intros [] _. cbn [hist obj].
  set (s2 := St _ _). apply returns_bind.
  assert (hist s `prefix_of` hist s2) as P2 by (cbn; rewrite <-app_assoc; by eexists).
  eapply (returns_mono _ (fun r s' => hist s2 `prefix_of` hist s'
    /\ match r with inl fd' => fd' = fd /\ asked (hist s2) (NConnect fd address) () (hist s') | inr _ => True end)).
  - apply returns_catch.
    + asks. intros [] Hc. asks. intros [] _. apply returns_ret. cbn [hist obj].
      split; [rewrite <-app_assoc; by eexists|]. split; [done|].
      exists (hist s2). split; [done|]. split; [done|]. by eexists.
    + intros e s3 Hm. assert (hist s2 `prefix_of` hist s3) as P3.
      { match type of Hm with ?m ?s0 = _ =>
          assert (travels grows m) as Ht by (apply (only_grows (fun _ => True)); shut); specialize (Ht s0) end.
        by rewrite Hm in Ht. }
      destruct (is_os_error e); [|apply returns_throw]. asks. intros [] _. apply returns_ret. cbn [hist].
      split; [|done]. etrans; [exact P3|]. by eexists.
  - intros [fd'|e] s3 [P3 H3].
    + destruct H3 as [-> H3]. apply returns_ret. exists family, address. split; [left|].
      split; [|by eapply asked_mono]. exists (hist s). split; [done|]. split; [done|].
      etrans; [|exact P3]. cbn. by eexists.
    + eapply returns_mono; [apply IH|]. intros fd' s4 H4. eapply connected_mono; [|by right|exact H4].
      etrans; [exact P2|exact P3].
Qed.

(** The destination is as it was asked for. *)
Definition reached (h : list ncall) (host port : pyval) (fd : Z) (h' : list ncall) : Prop :=
  exists name number addresses h1, host = PStr name /\ port = PInt number
    /\ 0 < Z.of_nat (String.length name) <= 253 /\ 1 <= number <= 65535
    /\ asked h (NGetaddrinfo name number) addresses h1 /\ connected h1 addresses fd h'.

Lemma destination_reached host port s :
  returns (_destination host port) (fun fd s' => reached (hist s) host port fd (hist s')) s.
Proof.
  unfold _destination. destruct host as [| | | |name| |]; try apply returns_throw.
  apply returns_bind, returns_throw_when. intros [Hn1 Hn2%Z.ltb_ge]%orb_false_iff.
  destruct port as [| |number| | | |]; try apply returns_throw.
  apply returns_bind, returns_throw_when. intros [H1%Z.ltb_ge H2%Z.ltb_ge]%orb_false_iff.
  asks. intros addresses Ha. eapply returns_mono; [apply try_addresses_connected|].
  intros fd s' Hc. cbn [hist] in Hc. exists name, number, addresses, (hist s ++ [NGetaddrinfo name number]).
  split; [done|]. split; [done|]. split; [|split; [done|split; [|exact Hc]]].
  - destruct name as [|c name]; [done|]. simpl in *. lia.
  - exists (hist s). by split.
Qed.

(** *** The record comes first *)

(** The client asked, and what it asked for was connected to. *)
Definition requested (h : list ncall) (d : dict) (remote : Z) (h' : list ncall) : Prop :=
  exists control h1, exact_line client _MAX_CONTROL control h h1 /\ loads_bytes control = Ok (PDict d)
    /\ reached h1 (dgetn "host" d) (dgetn "port" d) remote h'.

Lemma requested_mono h d remote h1 h2 : requested h d remote h1 -> h1 `prefix_of` h2 -> requested h d remote h2.
Proof.
  intros (control & h0 & Hl & Hd & name & number & addresses & h3 & H1 & H2 & H3 & H4 & Ha & Hc) Hp.
  exists control, h0. split; [done|]. split; [done|]. exists name, number, addresses, h3.
  do 5 (split; [done|]). destruct Hc as (family & address & Hin & Hs & Hk). exists family, address.
  split; [done|]. split; by eapply asked_mono.
Qed.

(** A request, the connection it asks for, and the record of both: before
    anything passes. *)
Definition recorded (h k : list ncall) : Prop :=
  exists k1 text k2 d t remote, k = k1 ++ NWriteLine audit (text +:+ newline) :: k2 /\ Forall closed k1
    /\ net (h ++ k1) (NWriteLine audit (text +:+ newline)) = Done ()
    /\ requested h d remote (h ++ k1)
    /\ compact false (PDict (audit_record t (dgetn "host" d) (dgetn "port" d) true None)) = Ok text.

Definition watched (h : list ncall) {O} (s' : st ncall O) : Prop :=
  exists k, hist s' = h ++ k /\ (Forall closed k \/ recorded h k).

Lemma recorded_app h k k' : recorded h k -> recorded h (k ++ k').
Proof.
  intros (k1 & text & k2 & d & t & remote & -> & Hr). exists k1, text, (k2 ++ k'), d, t, remote. by rewrite <-app_assoc.
Qed.

Lemma watched_only h {O A} (m : P ncall O A) s : only closed m -> watched h s ->
  ewp m (fun _ s' => watched h s') s.
Proof.
  intros Hm (k & Hk & Hw). destruct (Hm s) as (k' & Hk' & Hc). exists (k ++ k').
  split; [by rewrite Hk', Hk, app_assoc|]. destruct Hw as [Hw|Hw]; [left; by apply Forall_app|right].
  by apply recorded_app.
Qed.

Context (recv_bounded : forall h fd n s, net h (NRecv fd n) = Done s -> Z.of_nat (String.length s) <= n).

Lemma relay_only_grows {O} a b : travels grows (_relay turns a b : P ncall O unit).
Proof.
  apply (only_grows (fun _ => True)). unfold _relay. generalize [a; b]. induction turns as [|n IH]; intros l;
    cbn [relay_loop]; [by apply only_same|]. destruct l as [|fd l]; [shut|]. apply only_bind; [shut|].
  intros ready. apply only_bind; [|intros r; destruct r; [apply IH|shut]].
  generalize (fd :: l). induction ready as [|x ready IHr]; intros l'; cbn [pass_all]; [shut|].
  unfold pass_on, ignoring. shut. apply IHr.
Qed.

(** Nothing has passed yet. *)
Definition shut (h : list ncall) {O} (s' : st ncall O) : Prop := exists k, hist s' = h ++ k /\ Forall closed k.

Lemma shut_only h {O A} (m : P ncall O A) s : only closed m -> shut h s -> shut h (m s).2.
Proof.
  intros Hm (k & Hk & Hc). destruct (Hm s) as (k' & Hk' & Hc'). exists (k ++ k').
  split; [by rewrite Hk', Hk, app_assoc|by apply Forall_app].
Qed.

Lemma shut_watched h {O} (s : st ncall O) : shut h s -> watched h s.
Proof. intros (k & Hk & Hc). exists k. split; [done|by left]. Qed.

Lemma ewp_shut {O A B} (m : P ncall O A) (f : A -> P ncall O B) (Q : A -> st ncall O -> Prop) h s :
  only closed m -> shut h s -> returns m Q s ->
  (forall a s', Q a s' -> shut h s' -> hist s `prefix_of` hist s' -> ewp (f a) (fun _ s' => watched h s') s') ->
  ewp (m ≫= f) (fun _ s' => watched h s') s.
Proof.
  intros Hm Hs HQ Hf. apply ewp_bind. pose proof (shut_only _ _ _ Hm Hs) as Hs'. specialize (HQ).
  pose proof (only_grows _ _ Hm s) as G. unfold ewp at 1. unfold returns in HQ.
  destruct (m s) as [[a|e|] s']; cbn [fst snd] in *; [|by apply shut_watched..]. apply Hf; auto.
Qed.

Lemma returns_line s :
  returns (_receive_until client _MAX_CONTROL)
    (fun control (s' : st ncall connection) => exact_line client _MAX_CONTROL control (hist s) (hist s')) s.
Proof.
  intros control s' Hm. pose proof (control_line_exact recv_bounded client _MAX_CONTROL s eq_refl) as H1.
  unfold ewp in H1. rewrite Hm in H1. apply H1.
Qed.

(** [_audit], once the destination is connected. *)
Lemma audit_recorded h d remote (s : st ncall connection) : shut h s -> requested h d remote (hist s) ->
  ewp (_audit audit (dgetn "host" d) (dgetn "port" d) true None) (fun r s' =>
    match r with
    | Done _ => exists k, hist s' = h ++ k /\ recorded h k
    | _ => watched h s'
    end) s.
Proof.
  intros Hs Hr. unfold _audit. apply ewp_bind. unfold ask at 1. apply ewp_perform.
  assert (forall c (o : connection), closed c -> forall s0 : st ncall connection,
    shut h s0 -> shut h (St (hist s0 ++ [c]) o)) as Hone.
  { intros c o Hc s0 (k & Hk & Hf). exists (k ++ [c]). cbn [hist]. rewrite Hk, app_assoc. split; [done|].
    by apply Forall_app; split; [|constructor]. }
  pose proof (Hone NTime (obj s) I s Hs) as Hs1. intros [t|e|] _; [|by apply shut_watched..].
  apply ewp_bind, ewp_lift. destruct (compact _ _) as [text|e] eqn:Et; [|by apply shut_watched].
  unfold ask. apply ewp_perform. cbn [hist obj] in *. intros [[]|e|] Hw; [|by apply shut_watched, (Hone (NWriteLine _ _) _ I (St (hist s ++ [NTime]) (obj s)))..].
  destruct Hs1 as (k & Hk & Hc). cbn [hist] in Hk. rewrite Hk in *. exists (k ++ [NWriteLine audit (text +:+ newline)]).
  split; [by rewrite app_assoc|]. exists k, text, [], d, t, remote. split; [done|]. split; [done|]. split; [done|].
  split; [|exact Et]. eapply requested_mono; [exact Hr|]. rewrite <-Hk. by eexists.
Qed.

Lemma serve_watched s : ewp (serve_client audit client turns) (fun _ s' => watched (hist s) s') s.
Proof.
  assert (shut (hist s) s) as Hs by (exists []; by rewrite app_nil_r).
  unfold serve_client. eapply ewp_shut; [apply receive_line_closed|exact Hs|apply returns_line|].
  intros control s1 Hline Hs1 _. apply ewp_bind, ewp_lift.
  destruct (loads_bytes control) as [request|e] eqn:Hreq; [|by apply shut_watched].
  destruct request as [| | | | | |d]; try (apply ewp_throw; by apply shut_watched).
  cbv zeta. apply ewp_bind, ewp_modify.
  set (s2 := St (hist s1) _). assert (shut (hist s) s2) as Hs2 by exact Hs1.
  eapply ewp_shut; [apply destination_closed|exact Hs2|apply destination_reached|].
  intros remote s3 Hreach Hs3 _. apply ewp_bind, ewp_modify, ewp_bind. cbn [hist obj] in *.
  eapply ewp_mono; [apply (audit_recorded (hist s) d remote); [exact Hs3|by exists control, (hist s1)]|].
  intros [[]|e|] s5; [|done..]. intros (k & Hk & Hr).
  assert (forall s6 : st ncall connection, hist s5 `prefix_of` hist s6 -> watched (hist s) s6) as Hend.
  { intros s6 [k' Hk']. exists (k ++ k'). split; [by rewrite Hk', Hk, app_assoc|]. right. by apply recorded_app. }
  assert (travels grows (ask (NSendall client ok_line);; _relay turns client remote : P ncall connection unit)) as Ht.
  { apply travels_bind; [exact _|apply (only_grows (fun _ => True)); shut|]. intros _. apply relay_only_grows. }
  apply Hend, Ht.
Qed.

(** C20: the record comes before the bytes: whatever becomes of a connection of the
    broker, nothing passes between the client and a destination, and the client
    is told nothing but no, before the destination that the client's request
    names was connected to and the record that allows it was written; and a
    connection that gets none of this far passes nothing at all. *)
Theorem record_before_bytes s : ewp (_handle audit server client turns) (fun _ s' => watched (hist s) s') s.
Proof.
  unfold _handle. apply ewp_finally, ewp_catch. eapply ewp_mono; [apply serve_watched|].
  assert (forall r s', watched (hist s) s' -> ewp (hang_up server client) (fun r' s'' =>
    match r' with
    | Done _ => (fun (_ : reply unit) s' => watched (hist s) s') r s''
    | Raised e => watched (hist s) s''
    | Interrupted => watched (hist s) s''
    end) s') as Hfin.
  { intros r s' Hs'. eapply ewp_mono; [apply watched_only; [apply hang_up_closed|exact Hs']|]. by intros [[]|e|] s''. }
  intros [[]|e|] s' Hs'; [by apply (Hfin (Done ()))| |by apply (Hfin Interrupted)].
  eapply ewp_mono; [apply watched_only; [apply deny_closed|exact Hs']|]. intros r s''. by apply Hfin.
Qed.
End connection.

(** ** A host *)

Definition is_recv (c : ncall) : bool := match c with NRecv _ _ => true | _ => false end.

(** The request of the client, and then the end of what it sends. *)
Definition demo_script : list ascii := String.list_ascii_of_string
  ("{" +:+ quoted "host" +:+ ":" +:+ quoted "example.org" +:+ "," +:+ quoted "port" +:+ ":443}" +:+ newline).

(** The helper says that it is ready; descriptors are numbered by the calls; what
    sockets give is the script, byte by byte.  [refused] calls fail, [late] waits
    time out. *)
Definition demo_answer (refused : ncall -> option exn) (h : list ncall) (c : ncall) : reply (nanswer c) :=
  match refused c with
  | Some e => Raised e
  | None =>
    match c with
    | NResolve p => Done p
    | NReadText _ => Raised ENOENT
    | NWhich _ | NReadable _ _ => Done true
    | NOpenAppend _ | NSpawn _ _ | NSocket _ => Done (Z.of_nat (length h))
    | NPoll _ => Done None
    | NReadline _ => Done ("{" +:+ quoted "ready" +:+ ":true}" +:+ newline)
    | NGetaddrinfo _ _ => Done [(2, "192.0.2.1"); (10, "2001:db8::1")]
    | NRecv _ n =>
        if n <? 1 then Raised (ValueError "negative buffersize in recv")
        else Done match demo_script !! length (List.filter is_recv h) with
                  | Some a => String a EmptyString
                  | None => EmptyString
                  end
    | NSelect fds => Done fds
    | NConnections _ => Done []
    | NMonotonic | NTime => Done 0
    | _ => Done ()
    end
  end.

Definition nothing_refused (c : ncall) : option exn := None.

Definition demo_settings : settings :=
  Settings (parse_path "/run/allox-network") (parse_path "/dev/shm/allox-network") "inherit" "python3"
    "unshare" "nsenter".

Definition demo_sha256 (s : string) : string := "0123456789abcdef0123456789abcdef".

Definition demo_manager : manager := Manager [("a/s", "proxy")] [].

Definition alone (h : list ncall) (m : manager) : manager := m.

Section demo.
#[local] Instance demo_net : Net := demo_answer nothing_refused.

Lemma demo_bounded h fd n s : net h (NRecv fd n) = Done s -> Z.of_nat (String.length s) <= n.
Proof.
  unfold net, demo_net. cbn [demo_answer nothing_refused]. destruct (n <? 1) eqn:E; [discriminate|].
  apply Z.ltb_ge in E. destruct (_ !! _); intros [= <-]; simpl; lia.
Qed.

Lemma demo_select h fds l : net h (NSelect fds) = Done l -> forall fd, fd ∈ l -> fd ∈ fds.
Proof. by intros [= <-]. Qed.

Lemma kept_demo : kept demo_settings demo_sha256 [] demo_manager.
Proof. exists (fun _ => 0%nat). by split. Qed.

Lemma network_as_configured_witness :
  ewp (prepare demo_settings demo_sha256 10 "a" "s")
    (fun r s' => kept demo_settings demo_sha256 (hist s') (obj s') /\ only_entry ("a", "s") (St [] demo_manager) s'
      /\ match r with
         | Done l => launch_ok demo_settings demo_sha256 ("a", "s") (St [] demo_manager) l s'
         | _ => True
         end) (St [] demo_manager)
  /\ exists l, (prepare demo_settings demo_sha256 10 "a" "s" (St [] demo_manager)).1 = Done l
       /\ l_mode l = "proxy" /\ environment l = proxy_environment /\ namespace_pid l <> None.
Proof.
  split.
  - apply (network_as_configured demo_settings demo_sha256 10 "a" "s" (St [] demo_manager)). exact kept_demo.
  - eexists. split; [vm_compute; reflexivity|]. split; [reflexivity|]. split; [reflexivity|]. discriminate.
Defined.

Lemma mode_changed_without_namespace_witness :
  ewp (configure demo_settings alone "a" "s" (PStr " Isolated "))
    (fun r s' => kept demo_settings demo_sha256 (hist s') (obj s')
      /\ match r with
         | Done _ => exists m s1, validate_network_mode (PStr " Isolated ") = Ok m
             /\ mode_of demo_settings ("a", "s") (obj s1) = m
             /\ others_keep demo_settings ("a", "s") (St [] demo_manager) s1 /\ hist s1 `prefix_of` hist s'
             /\ (obj s1 = demo_manager \/ reconfigured demo_settings ("a", "s") m (St [] demo_manager) s1)
         | _ => True
         end) (St [] demo_manager)
  /\ exists d, (configure demo_settings alone "a" "s" (PStr " Isolated ") (St [] demo_manager)).1 = Done d
       /\ dgetn "mode" d = PStr "isolated".
Proof.
  split.
  - apply (mode_changed_without_namespace demo_settings demo_sha256 alone "a" "s" (PStr " Isolated ") (St [] demo_manager)).
    + intros h m Hm. exact Hm.
    + exact kept_demo.
  - eexists. split; [vm_compute; reflexivity|]. reflexivity.
Defined.

Definition demo_configuration : list (string * string) := [("b/s", "proxy"); ("a/s", "isolated")].

Lemma configuration_survives_witness :
  decode_configuration (configuration_text demo_configuration) = Ok [("a/s", "isolated"); ("b/s", "proxy")].
Proof.
  rewrite (configuration_survives demo_configuration).
  - vm_compute. reflexivity.
  - apply (bool_decide_unpack _). vm_compute. exact I.
  - repeat constructor.
Defined.

Lemma control_line_exact_witness :
  ewp (_receive_until 7 _MAX_CONTROL) (fun r s' => obj s' = ()
    /\ match r with
       | Done text => exact_line 7 _MAX_CONTROL text [] (hist s')
       | Raised _ => True
       | Interrupted => exists h, net h (NRecv 7 1) = Interrupted
       end) (St [] ())
  /\ (_receive_until 7 _MAX_CONTROL (St [] ())).1 = Done (String.string_of_list_ascii demo_script).
Proof.
  split; [|vm_compute; reflexivity].
  apply (control_line_exact demo_bounded 7 _MAX_CONTROL (St [] ())). reflexivity.
Defined.

Lemma relay_faithful_witness :
  ewp (_relay 100 3 4)
    (fun r s' => relayed 3 4 [] (St [] ()) (match r with Done _ => true | _ => false end) s') (St [] ())
  /\ let '(r, s') := _relay 100 3 4 (St [] ()) in
     r = Done () /\ (String.length (sent 4 [] (hist s')) + String.length (sent 3 [] (hist s')) = length demo_script)%nat.
Proof.
  split; [|vm_compute; split; reflexivity].
  apply (relay_faithful 3 4); [discriminate|exact demo_select].
Defined.

Lemma record_before_bytes_witness :
  ewp (_handle (parse_path "/audit") 5 7 100) (fun _ s' => watched (parse_path "/audit") 7 [] s')
    (St [] (Connection None None))
  /\ let '(r, s') := _handle (parse_path "/audit") 5 7 100 (St [] (Connection None None)) in
     r = Done () /\ existsb (fun c => match c with NSendall 7 b => str_eqb b ok_line | _ => false end) (hist s') = true.
Proof.
  split; [|vm_compute; split; reflexivity].
  apply (record_before_bytes (parse_path "/audit") 5 7 100 demo_bounded (St [] (Connection None None))).
Defined.

(** A nanosecond for every call. *)
Definition ticking (h : list ncall) (c : ncall) : reply (nanswer c) :=
  match c return reply (nanswer c) with
  | NMonotonic => Done (Z.of_nat (length h))
  | NReadable _ _ => Done false
  | c => demo_answer nothing_refused h c
  end.

Lemma helper_wait_ends_witness :
  ewp (_readline_with_timeout (H := ticking) 100 4242 50) (fun r _ => r <> Interrupted) (St [] ())
  /\ (_readline_with_timeout (H := ticking) 100 4242 50 (St [] ())).1 = Raised no_start.
Proof.
  split; [|vm_compute; reflexivity]. apply (helper_wait_ends (H0 := ticking)); [| |lia].
  - intros h t k t' [= <-] [= <-]. rewrite length_app. simpl. lia.
  - intros h c. destruct c; try discriminate. unfold net, ticking. cbn [demo_answer nothing_refused].
    by destruct (_ <? 1).
Defined.
End demo.

(** ** What fails, and what is left *)

Definition refusing_spawn (c : ncall) : option exn := match c with NSpawn _ _ => Some ENOENT | _ => None end.

(** Also: when the helper cannot be started, its broker goes on: it has been
    listening, and no descriptor is closed; nor is there an entry by which it
    would be closed later. *)
Theorem spawn_leaves_broker : exists s',
  prepare (H0 := demo_answer refusing_spawn) demo_settings demo_sha256 10 "a" "s" (St [] demo_manager) = (Raised ENOENT, s')
  /\ existsb (fun c => match c with NStartThread _ => true | _ => false end) (hist s') = true
  /\ existsb (fun c => match c with NClose _ => true | _ => false end) (hist s') = false
  /\ _runtime (obj s') = [].
Proof. eexists. split; [vm_compute; reflexivity|]. by vm_compute. Qed.

Definition refusing_wait (c : ncall) : option exn := match c with NWait _ _ => Some TimeoutExpired | _ => None end.

Definition demo_running : manager :=
  Manager [] [(("a", "s"), Namespace "proxy" 4242 (Some (5, parse_path "/dev/shm/b.sock")) 6)].

(** Also: a helper that cannot be waited for is forgotten with its broker
    listening: [close] raises, and a second [close] finds nothing to do. *)
Theorem late_helper_forgotten : exists s',
  close (H0 := demo_answer refusing_wait) (St [] demo_running) = (Raised TimeoutExpired, s')
  /\ existsb (fun c => match c with NClose 5 => true | _ => false end) (hist s') = false
  /\ close (H0 := demo_answer refusing_wait) s' = (Done (), s').
Proof. eexists. split; [vm_compute; reflexivity|]. by vm_compute. Qed.

Definition refusing_family (c : ncall) : option exn :=
  match c with NSocket 2 => Some (OSError "EAFNOSUPPORT") | _ => None end.

(** Also: an address of a family the host has no sockets for ends the attempt, and
    the next address, which would do, is not tried. *)
Theorem family_ends_attempt :
  _destination (H0 := demo_answer refusing_family) (PStr "example.org") (PInt 443) (St [] (Connection None None))
  = (Raised (OSError "EAFNOSUPPORT"), St [NGetaddrinfo "example.org" 443; NSocket 2] (Connection None None)).
Proof. by vm_compute. Qed.

Definition refusing_ok (c : ncall) : option exn :=
  match c with NSendall _ b => if str_eqb b ok_line then Some (OSError "EPIPE") else None | _ => None end.

Definition records (h : list ncall) : list string :=
  omap (fun c => match c with NWriteLine _ line => Some line | _ => None end) h.

(** Also: a client that leaves after its destination was connected is recorded
    twice: as allowed, and as denied. *)
Theorem departure_recorded_as_denial : exists s' allowed denied,
  _handle (H0 := demo_answer refusing_ok) (parse_path "/audit") 5 7 100 (St [] (Connection None None)) = (Done (), s')
  /\ compact false (PDict (audit_record 0 (PStr "example.org") (PInt 443) true None)) = Ok allowed
  /\ compact false (PDict (audit_record 0 (PStr "example.org") (PInt 443) false (Some "BrokenPipeError"))) = Ok denied
  /\ records (hist s') = [allowed +:+ newline; denied +:+ newline].
Proof. do 3 eexists. split; [vm_compute; reflexivity|]. split; [reflexivity|]. split; [reflexivity|]. by vm_compute. Qed.
